(* ===== verification/_CoqProject ===== *)
-Q . S2P
Prelude.v
BTreeMap.v
Bytes.v
Channel.v
Properties.v
Runtime.v
Graph.v
Schema.v
StreamGraph.v
JobGraph.v
ExecutionGraph.v
PhysicGraph.v
DagMetadata.v
Window.v
Element.v
Percentile.v
SchemaReduce.v
Watermark.v
Align.v
KeyedState.v
WindowReduce.v
Runnables.v
Task.v
Checkpoint.v
Cluster.v
TaskDistribution.v
WorkerTask.v
Network.v
Output.v
Exchange.v
KafkaOffsets.v
KafkaSource.v
KafkaSink.v
Timer.v
Functions.v
Metrics.v
NodeArgs.v
Standalone.v
Deployment.v
Coordinator.v
BatchSinks.v
FileSink.v
Recovery.v
WebApi.v
NetworkClient.v
Prometheus.v
SourcePoll.v
ParallelReduce.v
Kubernetes.v
Execute.v
SchemaWindows.v
