(* ===== verification/Prelude.v ===== *)
(** * rlink-rs: a verification library

    rlink-rs (src/) is a stream processor. A program is a graph of operators;
    operators that follow each other without repartitioning form a job, a job
    runs as parallel tasks, and a task is a chain of runnables in one thread of a
    worker process. Tasks exchange elements (records, watermarks, stream statuses,
    checkpoint barriers) over channels, in memory or over the network. A
    coordinator process starts the workers, follows their heartbeats, collects the
    checkpoints and ends the run. Resource managers start the worker processes;
    connectors read from and write to other systems. This library models that code,
    one file per component, and proves the properties that make it correct.

    ** Files, components and source
    (paths under src/rlink/src/ unless a crate is named; each file's own header says
    more)
    - Prelude: results with errors and panics, machine integers, hash maps with
      an arbitrary iteration order, sorting and grouping, tactics, shared lemmas.
    - BTreeMap: ordered association lists ([BTreeMap]).
    - Bytes: the byte-buffer crates as classes, and the trait [Serde] with the
      promise of its implementations, [SerdeOk].
    - Channel: channel/, as an interleaving of threads.
    - Properties: core/properties.rs, with the modes and backends it stores.
    - Runtime: core/runtime.rs, core/checkpoint.rs, the input splits of
      core/function.rs.
    - Graph: the daggy crate as the class [DagApi], and the edge types.
    - Schema: core/data_types.rs and [FnSchema] of core/element.rs.
    - StreamGraph: core/operator.rs, core/data_stream.rs, core/env.rs,
      dag/stream_graph.rs.
    - JobGraph: dag/job_graph.rs.
    - ExecutionGraph: dag/execution_graph.rs.
    - PhysicGraph: dag/physic_graph.rs and [DagManager] of dag/mod.rs.
    - DagMetadata: dag/metadata.rs, dag/utils.rs.
    - Window: core/window.rs, functions/window/mod.rs.
    - Element: core/element.rs.
    - Percentile: functions/percentile/mod.rs.
    - SchemaReduce: functions/reduce/schema_reduce.rs, functions/column_locate.rs.
    - Watermark: functions/watermark/.
    - Align: the alignment of barriers, statuses and watermarks in
      runtime/worker/runnable/source_runnable.rs.
    - KeyedState: storage/keyed_state/.
    - WindowReduce: functions/system/window_base_reduce.rs and
      keyed_state_flat_map.rs.
    - Runnables: runtime/worker/runnable/, one [run] function per runnable.
    - Task: the source runnable's loop, the chain of runnables built by
      runtime/worker/mod.rs, the queue of runtime/worker/checkpoint.rs.
    - Checkpoint: runtime/coordinator/checkpoint_manager.rs, storage/checkpoint/.
    - Cluster: storage/metadata/, runtime/coordinator/mod.rs and
      heart_beat_manager.rs, runtime/worker/heart_beat.rs,
      runtime/cluster/worker.rs.
    - TaskDistribution: runtime/coordinator/task_distribution.rs.
    - WorkerTask: runtime/worker/mod.rs and the [open] methods of
      runtime/worker/runnable/, with [RunnableContext].
    - Network: pub_sub/network/.
    - Output: pub_sub/memory/, functions/system/system_output_format.rs.
    - Exchange: functions/system/system_input_format.rs and the subscribing side of
      pub_sub/network/client.rs; both ends of the channels of a program.
    - KafkaOffsets, KafkaSource, KafkaSink: the crate connector-kafka of
      src/rlink-connectors, with channel/utils/handover.rs.
    - Timer: runtime/timer.rs.
    - Functions: functions/source, functions/flat_map, functions/key_selector,
      functions/filter, functions/sink and the timestamp assigner of
      functions/watermark.
    - Metrics: metrics/metric.rs.
    - NodeArgs: runtime/context.rs, utils/process.rs.
    - Standalone: the crate rlink-standalone of src/rlink-deployment (job manager and
      task managers), core/cluster.rs, and the start script
      src/etc/standalone/config/run_task.sh.
    - Deployment: deployment/, the resource managers.
    - Coordinator: the whole of [CoordinatorTask::run] of runtime/coordinator/mod.rs,
      over Cluster and Deployment; the turns of its loop interleave with the workers of
      earlier turns that still run.
    - BatchSinks: the crates connector-clickhouse and connector-elasticsearch of
      src/rlink-connectors.
    - FileSink: the crate connector-files of src/rlink-connectors, over a file system
      that may fail.
    - Recovery: storage/checkpoint/mysql_checkpoint_storage.rs and
      storage/checkpoint/mod.rs, over Checkpoint and Cluster.
    - WebApi: the routes of runtime/coordinator/web_server.rs and
      runtime/worker/web_server.rs, storage/metadata/metadata_loader.rs, utils/http.rs,
      utils/thread.rs, and the start of a worker in runtime/cluster/worker.rs.
    - NetworkClient: the client threads of pub_sub/network/client.rs, with their
      reconnections, over Network.
    - Prometheus: metrics/prometheus_exporter/, metrics/worker_proxy.rs, metrics/mod.rs.
    - SourcePoll: the threads of a user source in
      runtime/worker/runnable/source_runnable.rs, with channel/utils/iter.rs, over Task
      and Timer.
    - ParallelReduce: the job that ends in a key-by (source, key-by, sink with the system
      output) and, through the wire format, the reducing job behind it (source, window
      assigner, reduction), composed of Task, Runnables, Output, Network, Element,
      WindowReduce and KeyedState.
    - Kubernetes: the crate rlink-kubernetes of src/rlink-deployment, over NodeArgs, and
      of deployment/kubernetes.rs, which does not compile, the functions around the API.
    - Execute: [execute] of core/env.rs with runtime/mod.rs and runtime/cluster/, over
      Coordinator, Deployment and WebApi: a process from its start to its tasks.
    - SchemaWindows: a windowed reduction with the aggregations of columns, composed of
      SchemaReduce, WindowReduce and KeyedState.

    ** How the code is modelled
    A method on [&mut self] is a function from the old state to the new one; a
    method that touches a process-wide table ([DROP_WINDOW_STATE_STORAGE],
    [NETWORK_CHANNELS], [METADATA_STORAGE], ...) takes and returns that table. A
    result is a [res]: [Ok], [Err] for an error value, [Panic] for a panic
    ([unwrap], [assert], an index out of range). A runnable returns the list of
    what it does, in order ([action]: pass an element on, write it, report a
    checkpoint or the end of the task); [run_chain] of Task feeds what is passed
    on to the next runnable, as [set_next_runnable] links them. An integer is a
    [Z] with the wrap-around of its width written out where the code can
    overflow. A [HashMap] is a [gmap]; whatever iterates one takes the order from
    the class [HashOrder], so the theorems hold for every order. Logging, metrics
    and tracing are left out. The current time is an argument.

    ** Interfaces
    User functions (filter, flat map, key selector, reduce, ...) are classes or
    parameters, as they are trait objects in the code. Crates that the code calls
    are classes with their documented behaviour as laws, and each has a concrete
    instance that evaluates the examples: [BytesApi] (bytes), [SerBuffer]
    (serbuffer), [JsonApi] (serde_json on the handle of a reduction),
    [FrameRead] (tokio's length-delimited codec), [DagApi] (daggy), [SerTypes]
    (the type numbers of serbuffer), [SerColumns] (its typed columns), [SerdeJson]
    (serde_json on the configured backends), [CheckpointStorage] (the storage
    behind the checkpoint manager), [RdKafka], [RdProducer], [KafkaMessageGen] and
    [OffsetJson] (rdkafka, the buffer of a Kafka message and serde_json on its
    offsets), [SerRawColumns] (the typed columns of a key), [NodeEnv] (arguments,
    address, log and configuration file of a process), [JobManagerApi] and
    [TaskManagerApi] (the HTTP interfaces of the standalone controllers, which
    Standalone implements and Deployment uses), [StreamApp] (the user's program),
    [ClickhouseConverter], [ClickhouseClient], [EsValue] and [EsClient] (the
    converters and clients of the two sinks), [Parquet], [Blocks] and [BlocksLaws]
    (the file format and the user's columns), [FileSystem] and [FileSystemLaws] (the
    trait the files are written through, and what a successful write leaves), [SqlOrder] (the order of a select),
    [MetricsUtil] with [MetricsUtilOk] (the registry, handles and distributions of
    metrics-util), [KubeApi] with [KubeApiOk] (the Kubernetes API). [SerdeOk] is what an element type promises to
    the network; [ForwardsBarrier] and [SinksBarrier] are what a runnable promises
    to the chain it is part of, and every runnable has its instance.

    ** What is proved
    - Graphs: the shape of every stream graph a program can build through the API
      and that no call of it fails; the jobs the builder makes of it, their
      parallelism and their edges, and the one program it does not end on; the tasks
      and their edges, the chains of tasks linked in memory, their places on the
      workers and the descriptor the coordinator makes of them; and the tasks that
      are left out. All of it is composed from the calls of a program to the
      descriptor, without assuming a graph to be well formed.
    - Workers: the metadata is equivalent to the graphs; the chain a worker builds
      from it holds the operators of its job, with the key selector of the job
      before; every runnable is opened with what the graph says; the two ends of
      every channel find each other.
    - Windowing: the assigner returns exactly the windows of a timestamp; the
      keyed state computes the reduction per window and key; a watermark closes
      exactly the windows that end by it, each delivered once, with the right
      results; snapshots of the reduction. A reduction spread over the tasks of a job
      holds, for every window and key, what a single task would. The reductions themselves: for
      every window and key every column of a schema reduction holds its aggregate, and a percentile finds the value it
      is asked for.
    - Configuration: what is set is read back, or is an error where it does not fit
      the type; the properties of a function stay under its prefix.
    - Time: what the generators emit, the order of watermarks and records behind
      an assigner, the minimum over the parents and its monotony, and two effects
      of the idle marker that its documentation does not mention.
    - Checkpoints: alignment of barriers, the snapshot of a whole chain, saving at
      the coordinator exactly when a checkpoint is complete, the bounds of the
      in-memory history, restoring; and the way from the reports of the tasks through
      the database to the tasks of a later coordinator.
    - Data exchange: round trip of the wire format and its length check; the pull
      protocol delivers a channel in order without loss or duplication; elements
      reach the task of their partition; a subscription delivers an element at most once
      and in order however its connections fail; in every interleaving of its threads a
      channel keeps the order and exceeds its capacity by one element per sender
      at most.
    - The run: no task starts before every worker is registered; the coordinator
      ends the run only when every task has ended; a timeout means that a worker
      has been silent for 51 s; and a worker that asks for the status too late is
      left behind for ever. The coordinator gets to its loop for every program whose
      graphs can be built; over any number of restarts it hands out the same
      descriptor, with the checkpoints loaded before the first, and what it takes for the
      end of the run may come from workers of earlier turns. The requests to the web
      interface do what the steps of the run say; a worker starts exactly the tasks of its
      entry in the descriptor. A task with a user source reports its end only after all
      of its input.
    - Deployment: a process starts exactly on the arguments its role needs; the job
      manager starts every process of a batch in turn on the task managers that
      answer, stops what it was told to stop and nothing else, and starts nothing for
      an application that was killed; and from the descriptor to the arguments a
      process reads, a standalone cluster starts exactly the workers of the descriptor.
      Through the arguments and the requests of its processes a standalone cluster starts
      every task of the descriptor exactly once. The Kubernetes command line starts the
      coordinator it describes.
    - Connectors: offset ranges survive their properties; a Kafka source that is
      restarted loses nothing and repeats at most part of a message; which partitions
      its splits cover; what a batch of the ClickHouse and Elasticsearch sinks sends;
      the files of the file sink hold every record once, and it fails only with its disk.
    - Functions, timers and metrics: the vector source shares out its data, round
      robin spreads it, a key has the columns and the schema that were announced; a
      timer notifies its windows in order and once; a counter is exported completely; the
      text of a scrape is read back as the metrics it was made of, and a histogram that no
      idle timeout is for has every sample there.

    ** Bounds and fuel
    The loop of [assign_windows] takes its fuel from the window size over the
    slide plus two, which [assign_windows_correct] proves to be enough. [recv_loop]
    runs as often as the [u16] range of the code. The loops of JobGraph that follow
    the graph take fuel and [None] is running out of it: [job_graph_spec] proves
    that one more than the number of operators is enough, and
    [zero_parallelism_diverges] that no fuel is where the code does not end. The
    search of PhysicGraph has one more than the number of edges as its fuel, which
    [search_connected] proves to be enough. All other recursion is over the data. The
    binary search of Percentile has one turn per boundary and one more, which
    [position_bucket] proves to be enough. The step relations of Cluster and Channel
    have no bound on the length of a run.

    ** Not modelled
    The typed readers behind [SerColumns] (they live in the serbuffer crate), the JSON
    text of the metadata and the web pages, sockets, pipes and the HTTP server and client
    crates, logging, the relaxed memory order of atomic flags, the [worker_allocate] of the Kubernetes
    manager (it reads a field that does not exist), the YARN
    manager (a Java program), the derive macros and the examples: they pass data between
    the modelled parts and other systems, are crates the sources only call, or are
    generated at compile time. Enums that dispatch to a single implementation, and the
    loops that repeat a call to the in-memory metadata store until it succeeds, have no
    definitions of their own: the definitions of the implementation stand for them. *)
From Stdlib Require Import ZArith Lia Sorted.
From stdpp Require Import base strings numbers option sets gmap list.

#[global] Open Scope Z_scope.

(** ** Results, errors and panics

    [res E A] is the outcome of a Rust computation: [Ok] for a value, [Err] for
    the error of a [Result] (propagated by the question mark operator), [Panic]
    for [panic!], a failed [assert_eq!], [unwrap] on nothing, [unreachable!] and
    an index out of range. *)
Inductive res (E A : Type) : Type :=
  | Ok (a : A)
  | Err (e : E)
  | Panic (msg : string).
Arguments Ok {E A} _.
Arguments Err {E A} _.
Arguments Panic {E A} _.

#[global] Instance res_ret {E} : MRet (res E) := fun A a => Ok a.
#[global] Instance res_bind {E} : MBind (res E) := fun A B f m =>
  match m with
  | Ok a => f a
  | Err e => Err e
  | Panic p => Panic p
  end.
#[global] Instance res_fmap {E} : FMap (res E) := fun A B f m =>
  match m with
  | Ok a => Ok (f a)
  | Err e => Err e
  | Panic p => Panic p
  end.

(** Sequencing in [res] where the monad cannot be inferred from the context. *)
Notation "'let*' x := m 'in' k" := (@mbind (res _) res_bind _ _ (fun x => k) m)
  (at level 200, x pattern, m at level 200, k at level 200, right associativity).

(** The error type of [anyhow::Result]: the message. *)
Abbreviation anyhow := (res string).

(** [Option::unwrap] / [expect]. *)
Definition unwrap {E A} (msg : string) (o : option A) : res E A :=
  match o with
  | Some a => Ok a
  | None => Panic msg
  end.

(** [Option::ok_or]. *)
Definition ok_or {E A} (o : option A) (e : E) : res E A :=
  match o with
  | Some a => Ok a
  | None => Err e
  end.

(** [assert_eq!] / [if !cond { panic! }]. *)
Definition assert_that {E} (b : bool) (msg : string) : res E unit :=
  if b then Ok tt else Panic msg.

Definition is_ok {E A} (r : res E A) : bool :=
  match r with Ok _ => true | _ => false end.

(** Iterating a fallible body over a list, stopping at the first failure. *)
Fixpoint foldM {E S A} (f : S -> A -> res E S) (s : S) (l : list A) : res E S :=
  match l with
  | [] => Ok s
  | x :: l' => match f s x with
               | Ok s' => foldM f s' l'
               | Err e => Err e
               | Panic p => Panic p
               end
  end.

(** ** Machine integers

    A w-bit integer is a [Z]; operations that may leave the range wrap, as they
    do in a release build (the workspace sets no profile with overflow checks). *)
Definition wrap_u (w z : Z) : Z := z mod 2 ^ w.
Definition wrap_i (w z : Z) : Z := (z + 2 ^ (w - 1)) mod 2 ^ w - 2 ^ (w - 1).

Definition in_u (w z : Z) : Prop := 0 <= z < 2 ^ w.
Definition in_i (w z : Z) : Prop := - 2 ^ (w - 1) <= z < 2 ^ (w - 1).

Definition U16_MAX : Z := 2 ^ 16 - 1.
Definition U64_MAX : Z := 2 ^ 64 - 1.
Definition I64_MAX : Z := 2 ^ 63 - 1.

(** Signed remainder [a % b]: panics on a zero divisor and on [MIN % -1]. *)
Definition rem_i64 {E} (a b : Z) : res E Z :=
  if b =? 0 then Panic "attempt to calculate the remainder with a divisor of zero"
  else if (b =? -1) && (a =? - 2 ^ 63) then Panic "attempt to calculate the remainder with overflow"
  else Ok (Z.rem a b).

Declare Scope rlink_scope.
Delimit Scope rlink_scope with rlink.
Notation "x +u64 y" := (wrap_u 64 (x + y)) (at level 50, left associativity) : rlink_scope.
Notation "x -u64 y" := (wrap_u 64 (x - y)) (at level 50, left associativity) : rlink_scope.
Notation "x +i64 y" := (wrap_i 64 (x + y)) (at level 50, left associativity) : rlink_scope.
Notation "x -i64 y" := (wrap_i 64 (x - y)) (at level 50, left associativity) : rlink_scope.
Notation "x +u16 y" := (wrap_u 16 (x + y)) (at level 50, left associativity) : rlink_scope.
#[global] Open Scope rlink_scope.

(** ** Hash maps

    [HashMap], [HashSet] and [DashMap] are [gmap]s. Their iteration order is not
    specified by the standard library, so whatever iterates takes it from
    [HashOrder]: any permutation of the entries. *)
Class HashOrder := {
  hash_order : forall {A : Type}, list A -> list A;
  hash_order_perm : forall (A : Type) (l : list A), hash_order l ≡ₚ l
}.

(** The order used by the evaluated examples. *)
Definition id_order : HashOrder :=
  {| hash_order := fun A l => l; hash_order_perm := fun A l => Permutation_refl l |}.

Definition hiter `{HashOrder} `{Countable K} {V} (m : gmap K V) : list (K * V) :=
  hash_order (map_to_list m).

(** Grouping by a key: [entry(key).or_insert(Vec::new()).push(x)] for each [x]. *)
Definition group_by {A} (key : A -> Z) (l : list A) : gmap Z (list A) :=
  foldl (fun m x => <[key x := default [] (m !! key x) ++ [x]]> m) ∅ l.

(** ** Stable sorting by an integer key ([slice::sort_by_key]) *)
Fixpoint insert_by {A} (key : A -> Z) (x : A) (l : list A) : list A :=
  match l with
  | [] => [x]
  | y :: l' => if key x <=? key y then x :: y :: l' else y :: insert_by key x l'
  end.

Fixpoint sort_by_key {A} (key : A -> Z) (l : list A) : list A :=
  match l with
  | [] => []
  | x :: l' => insert_by key x (sort_by_key key l')
  end.

Definition sorted_by {A} (key : A -> Z) (l : list A) : Prop :=
  StronglySorted (fun x y => key x <= key y) l.

(** ** Automation *)
Create HintDb rlink.
Create Rewrite HintDb rlink.

(** Split every boolean comparison of the goal and the context into facts. *)
Ltac bool_to_prop :=
  repeat match goal with
  | H : (_ <? _) = true |- _ => apply Z.ltb_lt in H
  | H : (_ <? _) = false |- _ => apply Z.ltb_ge in H
  | H : (_ <=? _) = true |- _ => apply Z.leb_le in H
  | H : (_ <=? _) = false |- _ => apply Z.leb_gt in H
  | H : (_ =? _) = true |- _ => apply Z.eqb_eq in H
  | H : (_ =? _) = false |- _ => apply Z.eqb_neq in H
  | H : _ && _ = true |- _ => apply andb_true_iff in H; destruct H
  | H : _ || _ = false |- _ => apply orb_false_iff in H; destruct H
  | H : negb _ = true |- _ => apply negb_true_iff in H
  | H : negb _ = false |- _ => apply negb_false_iff in H
  end.

(** Case on the innermost [if] or [match] scrutinee of the goal. *)
Ltac case_step :=
  match goal with
  | |- context [if ?b then _ else _] => destruct b eqn:?
  | |- context [match ?o with _ => _ end] => destruct o eqn:?
  end.

Ltac crush := repeat (case_step; bool_to_prop; simplify_eq/=); try done; try lia.

(** Run a bind whose first computation is a value. *)
Ltac run_bind := cbn [mbind res_bind].

(** Unfold one [res] bind that is known to succeed. *)
Ltac res_inv H :=
  repeat match type of H with
  | (mbind _ ?m) = Ok _ => let E := fresh "E" in destruct m eqn:E; simpl in H; try discriminate H
  | Ok _ = Ok _ => injection H as H; subst
  end.

(** ** Lemmas on results *)
Lemma foldM_app {E S A} (f : S -> A -> res E S) s l1 l2 :
  foldM f s (l1 ++ l2) = (s' ← foldM f s l1; foldM f s' l2).
Proof. revert s; induction l1 as [|x l1 IH]; intros s; simpl; [done|]. by destruct (f s x). Qed.

(** An invariant kept by every successful step is kept by the whole loop. *)
Lemma foldM_inv {E S A} (P : S -> Prop) (f : S -> A -> res E S) l :
  (forall s x s', x ∈ l -> P s -> f s x = Ok s' -> P s') ->
  forall s s', P s -> foldM f s l = Ok s' -> P s'.
Proof.
  induction l as [|x l IH]; intros Hf s s' Hs Heq; simpl in Heq; [by simplify_eq|].
  destruct (f s x) as [s1| |] eqn:E1; try done.
  eapply IH; [|by eapply (Hf s x); eauto; left|done].
  intros; eapply Hf; eauto; by right.
Qed.

(** ** Lemmas on strings *)

(** Every character of a string passes a test. *)
Fixpoint all_chars (P : Ascii.ascii -> bool) (s : string) : bool :=
  match s with EmptyString => true | String a s => P a && all_chars P s end.

Lemma all_chars_app P s t : all_chars P (s +:+ t) = all_chars P s && all_chars P t.
Proof. induction s as [|a s IH]; [done|]. change (String a s +:+ t) with (String a (s +:+ t)). cbn. by rewrite IH, andb_assoc. Qed.

Lemma all_chars_impl (P Q : Ascii.ascii -> bool) s : (forall a, P a = true -> Q a = true) -> all_chars P s = true -> all_chars Q s = true.
Proof. intros HPQ. induction s as [|a s IH]; [done|]. cbn. rewrite !andb_true_iff. intros [Ha Hs]. auto. Qed.

Lemma append_nil_r w : w +:+ "" = w.
Proof. induction w as [|b w IH]; [done|]. change (String b (w +:+ "") = String b w). by f_equal. Qed.

Lemma string_app_assoc (s t u : string) : s +:+ (t +:+ u) = (s +:+ t) +:+ u.
Proof. induction s as [|a s IH]; [done|]. change (String a (s +:+ (t +:+ u)) = String a ((s +:+ t) +:+ u)). by rewrite IH. Qed.

(** ** Lemmas on machine integers *)
Lemma wrap_u_small w z : in_u w z -> wrap_u w z = z.
Proof. apply Z.mod_small. Qed.

Lemma wrap_u_range w z : 0 <= w -> in_u w (wrap_u w z).
Proof. intros Hw; apply Z.mod_pos_bound; by apply Z.pow_pos_nonneg. Qed.

Lemma wrap_i_small w z : 0 < w -> in_i w z -> wrap_i w z = z.
Proof.
  intros Hw [H1 H2]. unfold wrap_i. rewrite Z.mod_small; [lia|].
  assert (2 ^ w = 2 * 2 ^ (w - 1)) as ->; [|lia].
  rewrite <- Z.pow_succ_r by lia. f_equal; lia.
Qed.

Lemma wrap_i64_small z : - 2 ^ 63 <= z < 2 ^ 63 -> wrap_i 64 z = z.
Proof. intros; apply wrap_i_small; [lia|]. unfold in_i; change (64 - 1) with 63; lia. Qed.

Lemma wrap_u64_small z : 0 <= z < 2 ^ 64 -> wrap_u 64 z = z.
Proof. apply wrap_u_small. Qed.

#[export] Hint Resolve wrap_u_range : rlink.

(** ** Lemmas on hash-map iteration *)
Section hash_iter.
Context {HO : HashOrder} {K : Type} `{Countable K} {V : Type}.
Implicit Types m : gmap K V.

Lemma elem_of_hiter m k v : (k, v) ∈ hiter m <-> m !! k = Some v.
Proof. unfold hiter. rewrite hash_order_perm. apply elem_of_map_to_list. Qed.

Lemma length_hiter m : length (hiter m) = size m.
Proof. unfold hiter. by rewrite hash_order_perm, length_map_to_list. Qed.

Lemma NoDup_hiter_fst m : NoDup (hiter m).*1.
Proof. unfold hiter. rewrite hash_order_perm. apply NoDup_fst_map_to_list. Qed.

Lemma elem_of_hiter_keys m k : k ∈ (hiter m).*1 <-> is_Some (m !! k).
Proof.
  rewrite list_elem_of_fmap. split.
  - intros ([k' v] & -> & Hin). rewrite elem_of_hiter in Hin. by eexists.
  - intros [v Hv]. exists (k, v). by rewrite elem_of_hiter.
Qed.
End hash_iter.

(** ** Lemmas on sorting *)
Lemma insert_by_perm {A} (key : A -> Z) x l : insert_by key x l ≡ₚ x :: l.
Proof.
  induction l as [|y l IH]; simpl; [done|]. case_match; [done|].
  rewrite IH. apply Permutation_swap.
Qed.

Lemma sort_by_key_perm {A} (key : A -> Z) l : sort_by_key key l ≡ₚ l.
Proof. induction l as [|x l IH]; simpl; [done|]. by rewrite insert_by_perm, IH. Qed.

Lemma insert_by_sorted {A} (key : A -> Z) x l :
  sorted_by key l -> sorted_by key (insert_by key x l).
Proof.
  unfold sorted_by. induction 1 as [|y l Hs IH Hall]; simpl; [repeat constructor|].
  case_match; bool_to_prop.
  - constructor; [by constructor|]. constructor; [lia|].
    eapply Forall_impl; [done|]. intros; simpl in *; lia.
  - constructor; [done|]. rewrite insert_by_perm. constructor; [lia|done].
Qed.

Lemma sort_by_key_sorted {A} (key : A -> Z) l : sorted_by key (sort_by_key key l).
Proof. induction l; simpl; [constructor|]. by apply insert_by_sorted. Qed.

Lemma length_sort_by_key {A} (key : A -> Z) l : length (sort_by_key key l) = length l.
Proof. by rewrite sort_by_key_perm. Qed.

Lemma elem_of_sort_by_key {A} (key : A -> Z) l x : x ∈ sort_by_key key l <-> x ∈ l.
Proof. by rewrite sort_by_key_perm. Qed.

(** A list that is already sorted is left as it is (the sort is stable). *)
Lemma sort_by_key_id {A} (key : A -> Z) l : sorted_by key l -> sort_by_key key l = l.
Proof.
  unfold sorted_by. induction 1 as [|x l Hs IH Hall]; simpl; [done|]. rewrite IH.
  destruct l as [|y l]; simpl; [done|]. inv Hall.
  by rewrite (proj2 (Z.leb_le _ _)).
Qed.

(** Sorted by a key no two entries share: strictly sorted. *)
Lemma sorted_by_strict {A} (key : A -> Z) l :
  sorted_by key l -> NoDup (key <$> l) -> StronglySorted (fun x y => key x < key y) l.
Proof.
  unfold sorted_by. induction 1 as [|x l Hs IH Hall]; intros Hnd; [constructor|].
  rewrite fmap_cons in Hnd.
  pose proof (NoDup_cons_1_1 _ _ Hnd) as Hx. pose proof (NoDup_cons_1_2 _ _ Hnd). constructor; [by apply IH|].
  rewrite Forall_forall in Hall |- *. intros y Hy. specialize (Hall y Hy).
  enough (key x <> key y) by lia. intros E. apply Hx. rewrite E. apply list_elem_of_fmap. by exists y.
Qed.

(** ** Lemmas on filters *)
Lemma filter_ext_in {A} (P Q : A -> Prop) `{forall x, Decision (P x), forall x, Decision (Q x)} (l : list A) :
  (forall x, x ∈ l -> P x <-> Q x) -> filter P l = filter Q l.
Proof.
  induction l as [|x l IH]; intros Hl; [done|]. rewrite !filter_cons, IH by (intros; apply Hl; by right).
  specialize (Hl x ltac:(by left)). repeat case_decide; try done; tauto.
Qed.

Lemma filter_all {A} (P : A -> Prop) `{forall x, Decision (P x)} (l : list A) : Forall P l -> filter P l = l.
Proof. induction 1 as [|x l Hx _ IH]; [done|]. by rewrite filter_cons_True, IH. Qed.

Lemma filter_none {A} (P : A -> Prop) `{forall x, Decision (P x)} (l : list A) : Forall (fun x => ~ P x) l -> filter P l = [].
Proof. induction 1 as [|x l Hx _ IH]; [done|]. by rewrite filter_cons_False, IH. Qed.

Lemma filter_fmap {A B} (f : A -> B) (P : B -> Prop) `{forall x, Decision (P x)} (l : list A) :
  filter P (f <$> l) = f <$> filter (fun x => P (f x)) l.
Proof. induction l as [|x l IH]; [done|]. rewrite fmap_cons, !filter_cons. case_decide; [by rewrite fmap_cons, IH|done]. Qed.

Lemma NoDup_fmap_filter {A B} (f : A -> B) (P : A -> Prop) `{forall x, Decision (P x)} (l : list A) :
  NoDup (f <$> l) -> NoDup (f <$> filter P l).
Proof.
  induction l as [|x l IH]; [done|]. rewrite fmap_cons, NoDup_cons. intros [Hx Hnd].
  rewrite filter_cons. case_decide; [|auto]. rewrite fmap_cons, NoDup_cons. split; [|auto].
  intros Hin. apply Hx. apply list_elem_of_fmap in Hin as (y & -> & Hy). apply list_elem_of_filter in Hy as [_ Hy].
  apply list_elem_of_fmap. by exists y.
Qed.

(** A key no two entries share tells them apart. *)
Lemma NoDup_fmap_eq {A B} (f : A -> B) (l : list A) x y : NoDup (f <$> l) -> x ∈ l -> y ∈ l -> f x = f y -> x = y.
Proof.
  intros Hnd Hx Hy He. apply list_elem_of_lookup in Hx as [i Hi]. apply list_elem_of_lookup in Hy as [j Hj].
  assert (i = j) as <-; [|by simplify_eq]. eapply (NoDup_lookup _ _ _ (f x) Hnd); rewrite list_lookup_fmap, ?Hi, ?Hj; simpl; congruence.
Qed.

Lemma NoDup_fmap_index {A B} (f : A -> B) (l : list A) i j x y : NoDup (f <$> l) -> l !! i = Some x -> l !! j = Some y -> f x = f y -> i = j.
Proof. intros Hnd Hi Hj He. eapply (NoDup_lookup _ _ _ (f x) Hnd); rewrite list_lookup_fmap, ?Hi, ?Hj; simpl; congruence. Qed.

(** ** Lemmas on grouping *)

(** Each group has its elements in the order of the list. *)
Lemma length_omap_le {A B} (f : A -> option B) l : (length (omap f l) <= length l)%nat.
Proof. induction l as [|a l IH]; [done|]. cbn [omap list_omap length]. destruct (f a); simpl; lia. Qed.

Lemma group_by_lookup {A} (key : A -> Z) (l : list A) k :
  group_by key l !! k = match filter (fun x => key x = k) l with [] => None | g => Some g end.
Proof.
  unfold group_by. induction l as [|x l IH] using rev_ind; [done|].
  rewrite foldl_app, filter_app. cbn [foldl].
  destruct (decide (key x = k)) as [<-|Hne].
  - rewrite lookup_insert_eq, filter_cons_True, filter_nil by done. rewrite IH. by destruct (filter _ l).
  - rewrite lookup_insert_ne by done. rewrite filter_cons_False, filter_nil, app_nil_r by done. exact IH.
Qed.

Lemma group_by_Some {A} (key : A -> Z) (l g : list A) k :
  group_by key l !! k = Some g -> g = filter (fun x => key x = k) l /\ g <> [].
Proof. rewrite group_by_lookup. destruct (filter _ l); intros; by simplify_eq. Qed.

#[export] Hint Rewrite @length_sort_by_key @elem_of_sort_by_key : rlink.
