(* ===== verification/BTreeMap.v ===== *)
(** * BTreeMap: the ordered map of the standard library

    [std::collections::BTreeMap] as an association list kept in strictly
    increasing key order, with [get], [insert], [remove] and in-place update;
    iteration is the list itself. The key order is a class; its instances are
    the order on integers ([CheckpointId]) and the lexicographic order on byte
    slices (the [Ord] instance of [Record]). *)
From Stdlib Require Import ZArith Lia Sorted.
From stdpp Require Import base strings numbers option sets gmap list.
From S2P Require Import Prelude.

(** A strict total order with a three-way comparison ([Ord::cmp]). *)
Class KeyOrd (K : Type) := {
  kcmp : K -> K -> comparison;
  kcmp_eq : forall a b, kcmp a b = Eq <-> a = b;
  kcmp_anti : forall a b, kcmp a b = CompOpp (kcmp b a);
  kcmp_trans : forall a b c, kcmp a b = Lt -> kcmp b c = Lt -> kcmp a c = Lt
}.

Abbreviation btree K V := (list (K * V)).

Section btree.
Context {K : Type} {KO : KeyOrd K} {V : Type}.

Definition klt (a b : K) : Prop := kcmp a b = Lt.

Fixpoint bt_get (k : K) (m : btree K V) : option V :=
  match m with
  | [] => None
  | (k', v) :: m' =>
      match kcmp k k' with
      | Lt => None
      | Eq => Some v
      | Gt => bt_get k m'
      end
  end.

(** [insert]: the key already in the map is kept, the value is replaced. *)
Fixpoint bt_insert (k : K) (v : V) (m : btree K V) : btree K V :=
  match m with
  | [] => [(k, v)]
  | (k', v') :: m' =>
      match kcmp k k' with
      | Lt => (k, v) :: (k', v') :: m'
      | Eq => (k', v) :: m'
      | Gt => (k', v') :: bt_insert k v m'
      end
  end.

Fixpoint bt_remove (k : K) (m : btree K V) : btree K V :=
  match m with
  | [] => []
  | (k', v') :: m' =>
      match kcmp k k' with
      | Lt => (k', v') :: m'
      | Eq => m'
      | Gt => (k', v') :: bt_remove k m'
      end
  end.

(** The representation invariant: strictly increasing keys. *)
Definition bt_wf (m : btree K V) : Prop := StronglySorted klt m.*1.
End btree.

(** The order of byte slices: lexicographic ([<[u8] as Ord>::cmp]). *)
Fixpoint slice_cmp (a b : list Z) : comparison :=
  match a, b with
  | [], [] => Eq
  | [], _ :: _ => Lt
  | _ :: _, [] => Gt
  | x :: a', y :: b' => match x ?= y with Eq => slice_cmp a' b' | c => c end
  end.

(** ** Order instances *)
#[global] Program Instance Z_KeyOrd : KeyOrd Z := {| kcmp := Z.compare |}.
Next Obligation. apply Z.compare_eq_iff. Qed.
Next Obligation. intros. apply Z.compare_antisym. Qed.
Next Obligation. intros a b c. rewrite !Z.compare_lt_iff. lia. Qed.

Lemma slice_cmp_eq a b : slice_cmp a b = Eq <-> a = b.
Proof.
  revert b; induction a as [|x a IH]; intros [|y b]; simpl; try done.
  destruct (x ?= y) eqn:E.
  - apply Z.compare_eq_iff in E as ->. rewrite IH. split; congruence.
  - split; [done|]. intros [= -> _]. by rewrite Z.compare_refl in E.
  - split; [done|]. intros [= -> _]. by rewrite Z.compare_refl in E.
Qed.

Lemma slice_cmp_anti a b : slice_cmp a b = CompOpp (slice_cmp b a).
Proof.
  revert b; induction a as [|x a IH]; intros [|y b]; simpl; try done.
  rewrite (Z.compare_antisym x y). destruct (x ?= y); simpl; auto.
Qed.

Lemma slice_cmp_trans a b c : slice_cmp a b = Lt -> slice_cmp b c = Lt -> slice_cmp a c = Lt.
Proof.
  revert b c; induction a as [|x a IH]; intros [|y b] [|z c]; simpl; try done.
  destruct (Z.compare_spec x y), (Z.compare_spec y z), (Z.compare_spec x z);
    subst; try done; try lia. apply IH.
Qed.

#[global] Instance slice_KeyOrd : KeyOrd (list Z) :=
  {| kcmp := slice_cmp; kcmp_eq := slice_cmp_eq;
     kcmp_anti := slice_cmp_anti; kcmp_trans := slice_cmp_trans |}.

(** ** Lookup and update *)
Section btree_lemmas.
Context {K : Type} {KO : KeyOrd K} {V : Type}.
Implicit Types m : btree K V.

Lemma kcmp_refl (k : K) : kcmp k k = Eq.
Proof. by apply kcmp_eq. Qed.

Lemma kcmp_gt (a b : K) : kcmp a b = Gt <-> klt b a.
Proof. unfold klt. rewrite (kcmp_anti a b). by destruct (kcmp b a). Qed.

Lemma klt_Forall a b (l : list K) : klt a b -> Forall (klt b) l -> Forall (klt a) l.
Proof. rewrite !Forall_forall. intros Hab Hl x Hx. by eapply kcmp_trans; [|apply Hl]. Qed.

Lemma bt_insert_keys k v m x : x ∈ (bt_insert k v m).*1 <-> x = k \/ x ∈ m.*1.
Proof.
  induction m as [|[k' v'] m IH]; simpl; [by rewrite list_elem_of_singleton, elem_of_nil; naive_solver|].
  destruct (kcmp k k') eqn:E; simpl; rewrite !elem_of_cons, ?IH; [|naive_solver..].
  apply kcmp_eq in E as ->. naive_solver.
Qed.

Lemma bt_insert_wf k v m : bt_wf m -> bt_wf (bt_insert k v m).
Proof.
  unfold bt_wf. induction m as [|[k' v'] m IH]; simpl; intros Hs; [repeat constructor|].
  inv Hs. destruct (kcmp k k') eqn:E; simpl.
  - by constructor.
  - constructor; [by constructor|]. constructor; [done|].
    by eapply klt_Forall.
  - constructor; [by apply IH|]. apply Forall_forall. intros x.
    rewrite bt_insert_keys. intros [->|Hin]; [by apply kcmp_gt|].
    by eapply Forall_forall in Hin.
Qed.

Lemma bt_get_lt k m : Forall (klt k) m.*1 -> bt_get k m = None.
Proof. destruct m as [|[k' v'] m]; simpl; [done|]. inversion 1; subst. by rewrite H2. Qed.

Lemma bt_get_insert k v m : bt_get k (bt_insert k v m) = Some v.
Proof.
  induction m as [|[k' v'] m IH]; simpl; [by rewrite kcmp_refl|].
  destruct (kcmp k k') eqn:E; simpl; rewrite ?E, ?kcmp_refl; done.
Qed.

Lemma bt_get_insert_ne k k' v m : bt_wf m -> k <> k' -> bt_get k' (bt_insert k v m) = bt_get k' m.
Proof.
  unfold bt_wf. induction m as [|[k1 v1] m IH]; simpl; intros Hs Hne.
  - destruct (kcmp k' k) eqn:E; try done. by apply kcmp_eq in E.
  - inv Hs. destruct (kcmp k k1) eqn:E; simpl.
    + apply kcmp_eq in E as ->. destruct (kcmp k' k1) eqn:E1; try done.
      by apply kcmp_eq in E1.
    + destruct (kcmp k' k) eqn:E1; try done.
      * by apply kcmp_eq in E1.
      * by rewrite (kcmp_trans _ _ _ E1 E).
    + destruct (kcmp k' k1); auto.
Qed.

Lemma elem_of_bt_get k v m : bt_wf m -> (k, v) ∈ m <-> bt_get k m = Some v.
Proof.
  unfold bt_wf. induction m as [|[k1 v1] m IH]; simpl; intros Hs; [set_solver|].
  inv Hs. rewrite elem_of_cons, (IH H1). destruct (kcmp k k1) eqn:E.
  - apply kcmp_eq in E as ->. rewrite bt_get_lt by done. naive_solver.
  - rewrite bt_get_lt.
    + split; [intros [?|?]; simplify_eq; by rewrite kcmp_refl in E|done].
    + by eapply klt_Forall.
  - split; [intros [?|?]; [simplify_eq; by rewrite kcmp_refl in E|done]|by right].
Qed.

Lemma bt_remove_sub k m x : x ∈ bt_remove k m -> x ∈ m.
Proof.
  induction m as [|[k1 v1] m IH]; simpl; [done|].
  destruct (kcmp k k1); set_solver.
Qed.

Lemma bt_remove_wf k m : bt_wf m -> bt_wf (bt_remove k m).
Proof.
  unfold bt_wf. induction m as [|[k1 v1] m IH]; simpl; intros Hs; [done|].
  inv Hs. destruct (kcmp k k1); simpl; [done|by constructor|].
  constructor; [by apply IH|]. apply Forall_forall. intros x (y & -> & Hy)%list_elem_of_fmap.
  apply bt_remove_sub in Hy. eapply Forall_forall in H2; [done|]. by apply list_elem_of_fmap_2.
Qed.

Lemma bt_get_remove_ne k k' m : bt_wf m -> k <> k' -> bt_get k' (bt_remove k m) = bt_get k' m.
Proof.
  unfold bt_wf. induction m as [|[k1 v1] m IH]; simpl; intros Hs Hne; [done|].
  inv Hs. destruct (kcmp k k1) eqn:E; simpl; [|done|].
  - apply kcmp_eq in E as ->. destruct (kcmp k' k1) eqn:E1; try done.
    + by apply kcmp_eq in E1.
    + apply bt_get_lt. by eapply klt_Forall.
  - destruct (kcmp k' k1); auto.
Qed.

Lemma bt_get_remove k m : bt_wf m -> bt_get k (bt_remove k m) = None.
Proof.
  unfold bt_wf. induction m as [|[k1 v1] m IH]; simpl; intros Hs; [done|].
  inv Hs. destruct (kcmp k k1) eqn:E; simpl.
  - apply kcmp_eq in E as ->. by apply bt_get_lt.
  - by rewrite E.
  - rewrite E. auto.
Qed.

Lemma length_bt_insert_None k v m :
  bt_wf m -> bt_get k m = None -> length (bt_insert k v m) = S (length m).
Proof.
  unfold bt_wf. induction m as [|[k1 v1] m IH]; simpl; intros Hs Hg; [done|].
  inv Hs. destruct (kcmp k k1); simpl; [done|done|]. by rewrite IH.
Qed.

Lemma length_bt_remove k m : (length (bt_remove k m) <= length m)%nat.
Proof.
  induction m as [|[k1 v1] m IH]; simpl; [lia|]. destruct (kcmp k k1); simpl; lia.
Qed.

Lemma length_bt_remove_Some k v m :
  bt_get k m = Some v -> S (length (bt_remove k m)) = length m.
Proof.
  induction m as [|[k1 v1] m IH]; simpl; [done|].
  destruct (kcmp k k1); simpl; try done. intros. by rewrite IH.
Qed.

Lemma length_bt_insert k v m : (length (bt_insert k v m) <= S (length m))%nat.
Proof.
  induction m as [|[k1 v1] m IH]; simpl; [lia|]. destruct (kcmp k k1); simpl; lia.
Qed.
End btree_lemmas.

#[export] Hint Resolve bt_insert_wf bt_remove_wf : rlink.
#[export] Hint Rewrite @bt_get_insert : rlink.
