(* ===== verification/Bytes.v ===== *)
(** * Bytes: the byte-buffer interfaces

    What the program relies on of two crates it imports:
    - [BytesApi]: [bytes::BytesMut] with the traits [Buf] and [BufMut]. A
      [BytesMut] is the list of its readable bytes. The laws are the documented
      behaviour: [put_uN] appends the N-bit integer in big-endian order,
      [get_uN] takes it from the front and panics when too few bytes remain,
      [put_slice] appends and [split_to] cuts off a prefix (panicking past the end).
    - [SerBuffer]: [serbuffer::Buffer], the value buffer of a record: its slice,
      its length, construction from received bytes and concatenation.

    Both are classes; [be_bytes_api] and [list_buffer] are concrete instances,
    used to evaluate the examples. The trait [Serde] of src/rlink/src/core/element.rs
    and the promise its implementations make ([SerdeOk]) are here as well. *)
From Stdlib Require Import ZArith Lia Sorted.
From stdpp Require Import base strings numbers option sets gmap list.
From S2P Require Import Prelude.

(** ** Big-endian integers *)
Fixpoint be_encode (n : nat) (v : Z) : list Z :=
  match n with
  | O => []
  | S n' => (v / 2 ^ (8 * Z.of_nat n')) mod 256 :: be_encode n' v
  end.

Definition be_decode (l : list Z) : Z := foldl (fun acc b => acc * 256 + b) 0 l.

(** ** [bytes::BytesMut] *)
Class BytesApi := {
  put_uint : nat -> Z -> list Z -> list Z;
  get_uint : nat -> list Z -> option (Z * list Z);
  put_slice : list Z -> list Z -> list Z;
  split_to : Z -> list Z -> option (list Z * list Z);
  put_uint_be : forall n v b, put_uint n v b = b ++ be_encode n v;
  get_uint_be : forall n l b, length l = n -> get_uint n (l ++ b) = Some (be_decode l, b);
  get_uint_short : forall n b, (length b < n)%nat -> get_uint n b = None;
  put_slice_app : forall s b, put_slice s b = b ++ s;
  split_to_app : forall l b, split_to (Z.of_nat (length l)) (l ++ b) = Some (l, b);
  split_to_short : forall n b, Z.of_nat (length b) < n -> split_to n b = None
}.

Section bytes_ops.
Context {BA : BytesApi} {E : Type}.

(** The reading operations, with the panic of a buffer that is too short. *)
Definition get_u8 (b : list Z) : res E (Z * list Z) := unwrap "get_u8" (get_uint 1 b).
Definition get_u16 (b : list Z) : res E (Z * list Z) := unwrap "get_u16" (get_uint 2 b).
Definition get_u32 (b : list Z) : res E (Z * list Z) := unwrap "get_u32" (get_uint 4 b).
Definition get_u64 (b : list Z) : res E (Z * list Z) := unwrap "get_u64" (get_uint 8 b).

Definition put_u8 (v : Z) (b : list Z) : list Z := put_uint 1 v b.
Definition put_u16 (v : Z) (b : list Z) : list Z := put_uint 2 v b.
Definition put_u32 (v : Z) (b : list Z) : list Z := put_uint 4 v b.
Definition put_u64 (v : Z) (b : list Z) : list Z := put_uint 8 v b.

Definition remaining (b : list Z) : Z := Z.of_nat (length b).
End bytes_ops.

(** ** [serbuffer::Buffer] *)
Class SerBuffer := {
  Buffer : Type;
  buf_new : Buffer;
  buf_from : list Z -> Buffer;
  as_slice : Buffer -> list Z;
  buf_len : Buffer -> Z;
  buf_extend : Buffer -> Buffer -> res string Buffer;
  buf_new_slice : as_slice buf_new = [];
  buf_from_slice : forall l, as_slice (buf_from l) = l;
  buf_len_slice : forall b, buf_len b = Z.of_nat (length (as_slice b));
  buf_extend_slice : forall a b c, buf_extend a b = Ok c -> as_slice c = as_slice a ++ as_slice b
}.

(** ** The trait [Serde] *)
Class Serde (A : Type) := {
  capacity : A -> Z;
  serialize : A -> list Z -> res string (list Z);
  deserialize : list Z -> res string (A * list Z)
}.

(** The provided method [Serde::to_bytes]: a fresh buffer, then [serialize]. *)
Definition to_bytes {A} `{Serde A} (a : A) : res string (list Z) := serialize a [].

(** What an implementation promises for the values in [valid]: [serialize] only
    appends, and exactly [capacity] bytes; [deserialize] of those bytes consumes
    them all and gives a value related by [sent] to the one serialized. *)
Class SerdeOk (A : Type) {SD : Serde A} (valid : A -> Prop) (sent : A -> A -> Prop) :=
  serde_ok : forall a, valid a -> exists w,
    (forall b, serialize a b = Ok (b ++ w)) /\
    Z.of_nat (length w) = capacity a /\
    exists a', deserialize w = Ok (a', []) /\ sent a a'.

(** ** Concrete instances *)
Definition be_put_uint (n : nat) (v : Z) (b : list Z) : list Z := b ++ be_encode n v.

Definition be_get_uint (n : nat) (b : list Z) : option (Z * list Z) :=
  if (length b <? n)%nat then None else Some (be_decode (take n b), drop n b).

Definition be_split_to (n : Z) (b : list Z) : option (list Z * list Z) :=
  if Z.of_nat (length b) <? n then None else Some (take (Z.to_nat n) b, drop (Z.to_nat n) b).

#[local] Program Instance be_bytes_api : BytesApi := {|
  put_uint := be_put_uint;
  get_uint := be_get_uint;
  put_slice := fun s b => b ++ s;
  split_to := be_split_to
|}.
Next Obligation. done. Qed.
Next Obligation.
  intros n l b Hl. unfold be_get_uint. rewrite length_app.
  destruct (Nat.ltb_spec (length l + length b) n); [lia|].
  by rewrite take_app_length', drop_app_length'.
Qed.
Next Obligation.
  intros n b Hb. unfold be_get_uint. by destruct (Nat.ltb_spec (length b) n); [|lia].
Qed.
Next Obligation. done. Qed.
Next Obligation.
  intros l b. unfold be_split_to. rewrite length_app.
  destruct (Z.ltb_spec (Z.of_nat (length l + length b)) (Z.of_nat (length l))); [lia|].
  rewrite Nat2Z.id. by rewrite take_app_length, drop_app_length.
Qed.
Next Obligation.
  intros n b Hb. unfold be_split_to.
  by destruct (Z.ltb_spec (Z.of_nat (length b)) n); [|lia].
Qed.

#[local] Program Instance list_buffer : SerBuffer := {|
  Buffer := list Z;
  buf_new := [];
  buf_from := fun l => l;
  as_slice := fun l => l;
  buf_len := fun l => Z.of_nat (length l);
  buf_extend := fun a b => Ok (a ++ b)
|}.
Next Obligation. done. Qed.
Next Obligation. done. Qed.
Next Obligation. done. Qed.
Next Obligation. intros a b c. by intros [= <-]. Qed.

(** ** Encoding and decoding *)
Lemma length_be_encode n v : length (be_encode n v) = n.
Proof. induction n; simpl; auto. Qed.

Lemma be_decode_cons x l : be_decode (x :: l) = x * 256 ^ Z.of_nat (length l) + be_decode l.
Proof.
  unfold be_decode; simpl. generalize x at 1 2. intros acc; clear x.
  enough (forall acc, foldl (fun a b => a * 256 + b) acc l
    = acc * 256 ^ Z.of_nat (length l) + foldl (fun a b => a * 256 + b) 0 l) as H by apply H.
  clear acc; induction l as [|x l IH]; intros acc; cbn [foldl length]; [lia|].
  rewrite IH, (IH (0 * 256 + x)).
  replace (Z.of_nat (S (length l))) with (Z.succ (Z.of_nat (length l))) by lia.
  rewrite Z.pow_succ_r by lia. lia.
Qed.

Lemma be_decode_encode n v : in_u (8 * Z.of_nat n) v -> be_decode (be_encode n v) = v.
Proof.
  intros Hv.
  enough (forall n v, be_decode (be_encode n v) = v mod 2 ^ (8 * Z.of_nat n)) as ->
    by by apply Z.mod_small.
  clear. intros n v; induction n as [|n IH]; [by rewrite Z.mod_1_r|].
  cbn [be_encode]. rewrite be_decode_cons, length_be_encode, IH.
  change 256 with (2 ^ 8) at 2. rewrite <- Z.pow_mul_r by lia.
  set (m := 2 ^ (8 * Z.of_nat n)).
  assert (0 < m) by (apply Z.pow_pos_nonneg; lia).
  replace (2 ^ (8 * Z.of_nat (S n))) with (m * 256).
  - rewrite Z.rem_mul_r by lia. lia.
  - unfold m. change 256 with (2 ^ 8). rewrite <- Z.pow_add_r by lia. f_equal; lia.
Qed.

Section bytes_lemmas.
Context {BA : BytesApi}.

Lemma get_uint_encode n v b : in_u (8 * Z.of_nat n) v -> get_uint n (be_encode n v ++ b) = Some (v, b).
Proof. intros. rewrite get_uint_be by apply length_be_encode. by rewrite be_decode_encode. Qed.

Lemma get_u8_encode {E} v b : in_u 8 v -> get_u8 (E:=E) (be_encode 1 v ++ b) = Ok (v, b).
Proof. intros. unfold get_u8. by rewrite get_uint_encode. Qed.
Lemma get_u16_encode {E} v b : in_u 16 v -> get_u16 (E:=E) (be_encode 2 v ++ b) = Ok (v, b).
Proof. intros. unfold get_u16. by rewrite get_uint_encode. Qed.
Lemma get_u32_encode {E} v b : in_u 32 v -> get_u32 (E:=E) (be_encode 4 v ++ b) = Ok (v, b).
Proof. intros. unfold get_u32. by rewrite get_uint_encode. Qed.
Lemma get_u64_encode {E} v b : in_u 64 v -> get_u64 (E:=E) (be_encode 8 v ++ b) = Ok (v, b).
Proof. intros. unfold get_u64. by rewrite get_uint_encode. Qed.

Lemma put_u8_app v b : put_u8 v b = b ++ be_encode 1 v.
Proof. apply put_uint_be. Qed.
Lemma put_u16_app v b : put_u16 v b = b ++ be_encode 2 v.
Proof. apply put_uint_be. Qed.
Lemma put_u32_app v b : put_u32 v b = b ++ be_encode 4 v.
Proof. apply put_uint_be. Qed.
Lemma put_u64_app v b : put_u64 v b = b ++ be_encode 8 v.
Proof. apply put_uint_be. Qed.

(** A one-byte read gives the first byte, whatever it is. *)
Lemma get_u8_cons {E} x b : get_u8 (E:=E) (x :: b) = Ok (x, b).
Proof. unfold get_u8. by rewrite (get_uint_be 1 [x] b). Qed.

Lemma get_u8_nil {E} : get_u8 (E:=E) [] = Panic "get_u8".
Proof. unfold get_u8. rewrite get_uint_short; [done|]. simpl; lia. Qed.
End bytes_lemmas.

#[export] Hint Rewrite @put_u8_app @put_u16_app @put_u32_app @put_u64_app @put_slice_app : bytes.
#[export] Hint Rewrite @get_u8_encode @get_u16_encode @get_u32_encode @get_u64_encode
  using (assumption || (unfold in_u; lia)) : bytes.

#[global] Opaque be_encode.

(** Write out an encoder and run the decoder on its output. *)
Ltac put_bytes := autorewrite with bytes; rewrite <- ?(assoc_L (++)); run_bind.
