(* ===== verification/Channel.v ===== *)
(** * Channel: the channels between the threads of a process

    src/rlink/src/channel/: a channel of the crossbeam crate with a gauge that counts its
    elements. On an unbounded channel the gauge is what holds the senders back: a sender
    looks at it before it sends, and waits while it is above the capacity. The gauge is
    changed after the element has moved, so the threads see it late.

    [cstep] is the interleaving of any number of senders and receivers, one shared
    access per step. The theorems say what the channel guarantees in every interleaving:
    the order of the elements, what the gauge says, and by how much the capacity can be
    exceeded. *)
From Stdlib Require Import ZArith Lia.
From stdpp Require Import base strings numbers option list relations.
From S2P Require Import Prelude.

Inductive ChannelBaseOn : Type := Unbounded | Bounded.

#[global] Instance ChannelBaseOn_eq_dec : EqDecision ChannelBaseOn.
Proof. solve_decision. Defined.

(** ASCII part of [str::to_lowercase]. *)
Definition lower_ascii (a : Ascii.ascii) : Ascii.ascii :=
  let n := Ascii.nat_of_ascii a in
  if (65 <=? n)%nat && (n <=? 90)%nat then Ascii.ascii_of_nat (n + 32) else a.

Fixpoint to_lowercase (s : string) : string :=
  match s with
  | EmptyString => EmptyString
  | String a s => String (lower_ascii a) (to_lowercase s)
  end.

Definition ChannelBaseOn_try_from (mode_str : string) : res string ChannelBaseOn :=
  let mode_str := to_lowercase mode_str in
  if decide (mode_str = "bounded"%string) then Ok Bounded
  else if decide (mode_str = "unbounded"%string) then Ok Unbounded
  else Err ("Unsupported mode " +:+ mode_str).

Definition ChannelBaseOn_to_string (b : ChannelBaseOn) : string :=
  match b with Bounded => "Bounded" | Unbounded => "Unbounded" end.

Section channel.
Context {T : Type}.

(** A channel with its gauge and counters; [c_queue] is the queue of the crate. *)
Record Channel := mkChannel {
  c_base_on : ChannelBaseOn;
  c_cap : Z;
  c_queue : list T;
  c_size : Z;
  c_accepted : Z;
  c_drain : Z
}.

Definition named_channel_with_base (cap : Z) (base_on : ChannelBaseOn) : Channel := mkChannel base_on cap [] 0 0 0.

(** [ChannelSender::on_success] and [ChannelReceiver::on_success]. *)
Definition sent (c : Channel) : Channel :=
  mkChannel (c_base_on c) (c_cap c) (c_queue c) (wrap_i 64 (c_size c + 1)) (wrap_u 64 (c_accepted c + 1)) (c_drain c).

Definition drained (c : Channel) : Channel :=
  mkChannel (c_base_on c) (c_cap c) (c_queue c) (wrap_i 64 (c_size c - 1)) (c_accepted c) (wrap_u 64 (c_drain c + 1)).

(** The guards of [send]: it goes on at once, or leaves the waiting loop. *)
Definition send_at_once (c : Channel) : bool :=
  negb (bool_decide (c_base_on c = Unbounded) && (wrap_i 64 (c_cap c) <? c_size c)).

Definition send_resumes (c : Channel) : bool := c_size c <? wrap_i 64 (c_cap c).

(** The crate: a bounded channel takes as many elements as its capacity. (With capacity
    0 the crate hands an element over only to a receiver that waits; not modelled.) *)
Definition has_slot (c : Channel) : bool :=
  match c_base_on c with Unbounded => true | Bounded => Z.of_nat (length (c_queue c)) <? c_cap c end.

Definition push (x : T) (c : Channel) : Channel :=
  mkChannel (c_base_on c) (c_cap c) (c_queue c ++ [x]) (c_size c) (c_accepted c) (c_drain c).

Definition pop (c : Channel) : option (T * Channel) :=
  match c_queue c with
  | [] => None
  | x :: q => Some (x, mkChannel (c_base_on c) (c_cap c) q (c_size c) (c_accepted c) (c_drain c))
  end.

(** [try_send_opt] when no other thread is in between; the element comes back when it
    does not fit. *)
Definition try_send_opt (c : Channel) (x : T) : Channel * option T :=
  if negb (send_at_once c) then (c, Some x)
  else if has_slot c then (sent (push x c), None) else (c, Some x).

(** [try_recv], likewise. *)
Definition try_recv (c : Channel) : Channel * option T :=
  match pop c with
  | Some (x, c) => (drained c, Some x)
  | None => (c, None)
  end.

(** ** Threads *)
Inductive SenderPc : Type := S_Idle | S_Waiting (x : T) | S_Ready (x : T) | S_Sent.
Inductive ReceiverPc : Type := R_Idle | R_Got.

Record St := mkSt {
  st_chan : Channel;
  st_senders : list SenderPc;
  st_receivers : list ReceiverPc;
  (** what has gone in and come out so far *)
  st_in : list T;
  st_out : list T
}.

Definition St_init (cap : Z) (base_on : ChannelBaseOn) (n m : nat) : St :=
  mkSt (named_channel_with_base cap base_on) (replicate n S_Idle) (replicate m R_Idle) [] [].

Inductive cstep : St -> St -> Prop :=
  | step_send c ss rs i o k x :
      ss !! k = Some S_Idle ->
      cstep (mkSt c ss rs i o) (mkSt c (<[k := if send_at_once c then S_Ready x else S_Waiting x]> ss) rs i o)
  | step_resume c ss rs i o k x :
      ss !! k = Some (S_Waiting x) -> send_resumes c = true ->
      cstep (mkSt c ss rs i o) (mkSt c (<[k := S_Ready x]> ss) rs i o)
  | step_push c ss rs i o k x :
      ss !! k = Some (S_Ready x) -> has_slot c = true ->
      cstep (mkSt c ss rs i o) (mkSt (push x c) (<[k := S_Sent]> ss) rs (i ++ [x]) o)
  | step_sent c ss rs i o k :
      ss !! k = Some S_Sent ->
      cstep (mkSt c ss rs i o) (mkSt (sent c) (<[k := S_Idle]> ss) rs i o)
  | step_pop c ss rs i o k x c' :
      rs !! k = Some R_Idle -> pop c = Some (x, c') ->
      cstep (mkSt c ss rs i o) (mkSt c' ss (<[k := R_Got]> rs) i (o ++ [x]))
  | step_drained c ss rs i o k :
      rs !! k = Some R_Got ->
      cstep (mkSt c ss rs i o) (mkSt (drained c) ss (<[k := R_Idle]> rs) i o).

(** ** Counting threads *)
Definition zsum {A} (f : A -> Z) (l : list A) : Z := foldr (fun a s => f a + s) 0 l.

#[local] Arguments zsum : simpl never.

Lemma zsum_cons {A} (f : A -> Z) a l : zsum f (a :: l) = f a + zsum f l.
Proof. done. Qed.

Lemma zsum_insert {A} (f : A -> Z) l k a b : l !! k = Some a -> zsum f (<[k := b]> l) = zsum f l - f a + f b.
Proof. revert k. induction l as [|x l IH]; intros [|k] Hk; simplify_eq/=; rewrite !zsum_cons; [lia|]. rewrite (IH k Hk). lia. Qed.

Lemma zsum_replicate {A} (f : A -> Z) n a : f a = 0 -> zsum f (replicate n a) = 0.
Proof. intros Ha. induction n as [|n IH]; simpl; [done|]. rewrite zsum_cons. lia. Qed.

Lemma zsum_bounds {A} (f : A -> Z) l : (forall a, 0 <= f a <= 1) -> 0 <= zsum f l <= Z.of_nat (length l).
Proof. intros Hf. induction l as [|x l IH]; simpl; [done|]. rewrite zsum_cons. specialize (Hf x). lia. Qed.

Lemma zsum_others {A} (f : A -> Z) l k a : (forall a, 0 <= f a <= 1) -> l !! k = Some a -> f a = 0 -> zsum f l <= Z.of_nat (length l) - 1.
Proof.
  intros Hf. revert k. induction l as [|x l IH]; intros [|k] Hk Ha; simplify_eq/=; rewrite zsum_cons.
  - pose proof (zsum_bounds f l Hf). lia.
  - specialize (IH k Hk Ha). specialize (Hf x). lia.
Qed.

(** A thread whose element is in the queue and not yet in the gauge; one that may still
    add to the gauge; one whose element is out of the queue and still in the gauge. *)
Definition uncounted (p : SenderPc) : Z := match p with S_Sent => 1 | _ => 0 end.
Definition passed (p : SenderPc) : Z := match p with S_Ready _ | S_Sent => 1 | _ => 0 end.
Definition holding (p : ReceiverPc) : Z := match p with R_Got => 1 | R_Idle => 0 end.

Lemma uncounted_bounds p : 0 <= uncounted p <= 1.
Proof. destruct p; simpl; lia. Qed.
Lemma passed_bounds p : 0 <= passed p <= 1.
Proof. destruct p; simpl; lia. Qed.
Lemma holding_bounds p : 0 <= holding p <= 1.
Proof. destruct p; simpl; lia. Qed.

Section invariant.
Context (cap : Z) (base_on : ChannelBaseOn) (n m : nat) (Hcap : 0 <= cap) (Hfit : cap + Z.of_nat n + Z.of_nat m < 2 ^ 63).

Record chan_inv (s : St) : Prop := {
  ci_base : c_base_on (st_chan s) = base_on /\ c_cap (st_chan s) = cap;
  ci_threads : length (st_senders s) = n /\ length (st_receivers s) = m;
  ci_fifo : st_in s = st_out s ++ c_queue (st_chan s);
  ci_size : c_size (st_chan s) =
    Z.of_nat (length (c_queue (st_chan s))) + zsum holding (st_receivers s) - zsum uncounted (st_senders s);
  ci_unbounded : base_on = Unbounded -> c_size (st_chan s) + zsum passed (st_senders s) <= cap + Z.of_nat n;
  ci_bounded : base_on = Bounded -> Z.of_nat (length (c_queue (st_chan s))) <= cap
}.

Lemma chan_inv_init : chan_inv (St_init cap base_on n m).
Proof.
  split; simpl; rewrite ?length_replicate, ?zsum_replicate by done; simpl; try done; lia.
Qed.

(** The gauge is where it should be, within its type. *)
Lemma size_range s : chan_inv s -> - Z.of_nat n <= c_size (st_chan s) <= cap + Z.of_nat n + Z.of_nat m.
Proof.
  intros [[Hb Hc] [Hn Hm] _ Hs Hu Hbd]. pose proof (zsum_bounds uncounted (st_senders s) uncounted_bounds). pose proof (zsum_bounds holding (st_receivers s) holding_bounds).
  pose proof (zsum_bounds passed (st_senders s) passed_bounds). destruct base_on; [specialize (Hu eq_refl)|specialize (Hbd eq_refl)]; lia.
Qed.

Lemma pop_spec c x c' : pop c = Some (x, c') -> c_queue c = x :: c_queue c' /\ c_size c' = c_size c /\ c_cap c' = c_cap c /\ c_base_on c' = c_base_on c.
Proof. unfold pop. destruct (c_queue c); [done|]. intros [= <- <-]. done. Qed.

Lemma chan_inv_step s s' : cstep s s' -> chan_inv s -> chan_inv s'.
Proof.
  intros Hst Hinv. pose proof (size_range s Hinv) as Hr. destruct Hinv as [[Hb Hc] [Hn Hm] Hf Hs Hu Hbd].
  pose proof (zsum_bounds uncounted (st_senders s) uncounted_bounds) as B1. pose proof (zsum_bounds holding (st_receivers s) holding_bounds) as B2.
  pose proof (zsum_bounds passed (st_senders s) passed_bounds) as B3.
  destruct Hst as [c ss rs i o k x Hk|c ss rs i o k x Hk Hg|c ss rs i o k x Hk Hg|c ss rs i o k Hk|c ss rs i o k x c' Hk Hp|c ss rs i o k Hk]; cbn in *.
  - pose proof (zsum_others passed ss k _ passed_bounds Hk eq_refl) as Ho. split; cbn; rewrite ?length_insert, ?(zsum_insert _ _ _ _ _ Hk); cbn; try done.
    + destruct (send_at_once c); cbn; lia.
    + intros E. specialize (Hu E). unfold send_at_once. rewrite Hb, Hc, bool_decide_true by done. cbn. rewrite (wrap_i64_small cap) by lia.
      destruct (Z.ltb_spec cap (c_size c)); cbn; lia.
  - pose proof (zsum_others passed ss k _ passed_bounds Hk eq_refl) as Ho. unfold send_resumes in Hg. rewrite Hc, wrap_i64_small in Hg by lia. apply Z.ltb_lt in Hg.
    split; cbn; rewrite ?length_insert, ?(zsum_insert _ _ _ _ _ Hk); cbn; try done; lia.
  - split; cbn; rewrite ?length_insert, ?length_app, ?(zsum_insert _ _ _ _ _ Hk); cbn; try done.
    + by rewrite Hf, <- app_assoc.
    + lia.
    + intros E. specialize (Hu E). lia.
    + intros E. unfold has_slot in Hg. rewrite Hb, E, Hc in Hg. apply Z.ltb_lt in Hg. lia.
  - pose proof (zsum_insert uncounted ss k _ S_Idle Hk) as I1. pose proof (zsum_insert passed ss k _ S_Idle Hk) as I2. cbn in I1, I2.
    pose proof (zsum_bounds uncounted (<[k := S_Idle]> ss) uncounted_bounds) as B4. pose proof (zsum_bounds passed (<[k := S_Idle]> ss) passed_bounds) as B5.
    assert (wrap_i 64 (c_size c + 1) = c_size c + 1) as Hw.
    { apply wrap_i64_small. destruct base_on; [specialize (Hu eq_refl)|specialize (Hbd eq_refl)]; lia. }
    split; cbn; rewrite ?length_insert, ?Hw, ?I1, ?I2; try done; [lia|]. intros E. specialize (Hu E). lia.
  - destruct (pop_spec _ _ _ Hp) as (Hq & Hsz & Hcp & Hbs). split; cbn; rewrite ?length_insert, ?Hsz, ?Hcp, ?Hbs, ?(zsum_insert _ _ _ _ _ Hk); cbn; try done.
    + by rewrite Hf, Hq, <- app_assoc.
    + rewrite Hs, Hq. cbn [length]. lia.
    + intros E. specialize (Hbd E). rewrite Hq in Hbd. cbn [length] in Hbd. lia.
  - assert (wrap_i 64 (c_size c - 1) = c_size c - 1) as Hw by (apply wrap_i64_small; lia).
    split; cbn; rewrite ?length_insert, ?Hw, ?(zsum_insert _ _ _ _ _ Hk); cbn; try done; [lia|]. intros E. specialize (Hu E). lia.
Qed.

Lemma chan_inv_reach s : rtc cstep (St_init cap base_on n m) s -> chan_inv s.
Proof.
  intros H. assert (forall s s', rtc cstep s s' -> chan_inv s -> chan_inv s') as Hind by (induction 1; eauto using chan_inv_step).
  eapply Hind; [exact H|apply chan_inv_init].
Qed.
End invariant.

(** No thread is between moving an element and changing the gauge. *)
Definition settled (s : St) : Prop := Forall (fun p => uncounted p = 0) (st_senders s) /\ Forall (fun p => holding p = 0) (st_receivers s).

Lemma zsum_zero {A} (f : A -> Z) l : Forall (fun a => f a = 0) l -> zsum f l = 0.
Proof. induction 1 as [|a l Ha _ IH]; [done|]. rewrite zsum_cons. lia. Qed.

(** C28: In every interleaving of any number of senders and receivers: the elements come
    out in the order they went in, none lost and none twice; a bounded channel holds at
    most its capacity, an unbounded one at most its capacity and one element more for
    every sender, because the senders look at the gauge before they send; and when no
    thread is between an element and the gauge, the gauge is the length of the queue. *)
Theorem channel_interleaving cap base_on n m s :
  0 <= cap -> cap + Z.of_nat n + Z.of_nat m < 2 ^ 63 -> rtc cstep (St_init cap base_on n m) s ->
  st_in s = st_out s ++ c_queue (st_chan s) /\
  Z.of_nat (length (c_queue (st_chan s))) <= cap + (match base_on with Bounded => 0 | Unbounded => Z.of_nat n end) /\
  (settled s -> c_size (st_chan s) = Z.of_nat (length (c_queue (st_chan s)))).
Proof.
  intros Hc Hf Hr. destruct (chan_inv_reach cap base_on n m Hc Hf s Hr) as [[Hb Hcp] [Hn Hm] Hfifo Hs Hu Hbd]. split_and!; [done| |].
  - destruct base_on; [|specialize (Hbd eq_refl); lia]. specialize (Hu eq_refl). pose proof (zsum_bounds holding (st_receivers s) holding_bounds).
    assert (zsum uncounted (st_senders s) <= zsum passed (st_senders s)); [|lia]. clear.
    induction (st_senders s) as [|p l IH]; [done|]. rewrite !zsum_cons. destruct p; simpl; lia.
  - intros [H1 H2]. rewrite Hs, (zsum_zero _ _ H1), (zsum_zero _ _ H2). lia.
Qed.

(** A sender that waits on an unbounded channel of capacity 0 cannot go on when the
    channel is settled, not even when it is empty: the loop waits for a gauge below the
    capacity, while the first look accepts a gauge equal to it. *)
Lemma zero_capacity_stuck n m s :
  Z.of_nat n + Z.of_nat m < 2 ^ 63 -> rtc cstep (St_init 0 Unbounded n m) s -> settled s -> send_resumes (st_chan s) = false.
Proof.
  intros Hf Hr [H1 H2]. destruct (chan_inv_reach 0 Unbounded n m ltac:(lia) ltac:(lia) s Hr) as [[_ Hcp] _ _ Hs _ _].
  unfold send_resumes. rewrite Hcp, Hs, (zsum_zero _ _ H1), (zsum_zero _ _ H2). change (wrap_i 64 0) with 0. apply Z.ltb_ge. lia.
Qed.
End channel.

(** The modes are read back as they are written. *)
Lemma base_on_roundtrip b : ChannelBaseOn_try_from (ChannelBaseOn_to_string b) = Ok b.
Proof. by destruct b. Qed.

(** ** Examples *)

(** Capacity 1: one element is in and counted, three senders look at the gauge together
    and all send. *)
Definition ex_overfull : St (T := nat) :=
  mkSt (mkChannel Unbounded 1 [0; 1; 2; 3]%nat 1 1 0) [S_Sent; S_Sent; S_Sent] [R_Idle] [0; 1; 2; 3]%nat [].

Lemma ex_overfull_reached : rtc cstep (St_init 1 Unbounded 3 1) ex_overfull.
Proof.
  eapply rtc_l; [apply (step_send _ _ _ _ _ 0 0%nat); reflexivity|]. eapply rtc_l; [apply (step_push _ _ _ _ _ 0 0%nat); reflexivity|].
  eapply rtc_l; [apply (step_sent _ _ _ _ _ 0); reflexivity|]. eapply rtc_l; [apply (step_send _ _ _ _ _ 0 1%nat); reflexivity|].
  eapply rtc_l; [apply (step_send _ _ _ _ _ 1 2%nat); reflexivity|]. eapply rtc_l; [apply (step_send _ _ _ _ _ 2 3%nat); reflexivity|].
  eapply rtc_l; [apply (step_push _ _ _ _ _ 0 1%nat); reflexivity|]. eapply rtc_l; [apply (step_push _ _ _ _ _ 1 2%nat); reflexivity|].
  eapply rtc_l; [apply (step_push _ _ _ _ _ 2 3%nat); reflexivity|]. apply rtc_refl.
Qed.

Lemma channel_interleaving_witness :
  st_in ex_overfull = st_out ex_overfull ++ c_queue (st_chan ex_overfull) /\ Z.of_nat (length (c_queue (st_chan ex_overfull))) <= 1 + 3 /\
  (settled ex_overfull -> c_size (st_chan ex_overfull) = Z.of_nat (length (c_queue (st_chan ex_overfull)))).
Proof. apply (channel_interleaving 1 Unbounded 3 1 ex_overfull); [lia|lia|exact ex_overfull_reached]. Defined.
