(* ===== verification/Properties.v ===== *)
(** * Properties: typed access to a map of strings

    src/rlink/src/core/properties.rs, with [ClusterMode] of src/rlink/src/runtime/mod.rs.
    The configuration of a program and of its functions is a map from strings to
    strings; values of other types are printed into it and parsed out of it, and the
    properties of a function live under a prefix of the keys.

    Printing of integers is stdpp's [pretty]; parsing is written out as [FromStr] of the
    Standard Library does it, digit by digit at the width of the type. The values that
    go through serde_json use the class [SerdeJson]. *)
From Stdlib Require Import ZArith Lia Ascii.
From stdpp Require Import base strings numbers option sets gmap list pretty sorting.
From S2P Require Import Prelude Channel.

#[local] Open Scope string_scope.
#[local] Open Scope Z_scope.

(** ** Integers as strings *)
Record IntType := mkIntType { it_signed : bool; it_bits : Z }.

Definition t_i16 := mkIntType true 16.
Definition t_u16 := mkIntType false 16.
Definition t_i32 := mkIntType true 32.
Definition t_u32 := mkIntType false 32.
Definition t_i64 := mkIntType true 64.
Definition t_u64 := mkIntType false 64.

Definition in_type (t : IntType) (v : Z) : bool :=
  if it_signed t then (- 2 ^ (it_bits t - 1) <=? v) && (v <? 2 ^ (it_bits t - 1)) else (0 <=? v) && (v <? 2 ^ it_bits t).

Definition to_digit (c : ascii) : option Z :=
  let n := Z.of_nat (nat_of_ascii c) in
  if (48 <=? n) && (n <=? 57) then Some (n - 48) else None.

(** The digits, each multiplied in and added (or, behind a minus, subtracted) with a check. *)
Fixpoint parse_digits (t : IntType) (negative : bool) (result : Z) (src : string) : res string Z :=
  match src with
  | EmptyString => Ok result
  | String c src =>
      match to_digit c with
      | None => Err "invalid digit found in string"
      | Some x =>
          let overflow := if negative then "number too small to fit in target type" else "number too large to fit in target type" in
          let result := result * 10 in
          if negb (in_type t result) then Err overflow
          else
            let result := if negative then result - x else result + x in
            if negb (in_type t result) then Err overflow else parse_digits t negative result src
      end
  end.

Definition int_from_str (t : IntType) (src : string) : res string Z :=
  match src with
  | EmptyString => Err "cannot parse integer from empty string"
  | String "+" EmptyString | String "-" EmptyString => Err "invalid digit found in string"
  | String "+" rest => parse_digits t false 0 rest
  | String "-" rest => if it_signed t then parse_digits t true 0 rest else parse_digits t false 0 src
  | _ => parse_digits t false 0 src
  end.

Definition bool_from_str (src : string) : res string bool :=
  if decide (src = "true") then Ok true else if decide (src = "false") then Ok false
  else Err "provided string was not `true` or `false`".

Definition bool_to_string (b : bool) : string := if b then "true" else "false".

(** ** Values kept as JSON *)
Class SerdeJson (A : Type) := {
  json_to_string : A -> string;
  json_from_str : string -> res string A;
  json_from_to : forall a, json_from_str (json_to_string a) = Ok a
}.

Inductive MetadataStorageType : Type := MetadataStorageType_Memory.
Inductive KeyedStateBackend : Type := KeyedStateBackend_Memory.
Inductive CheckpointBackend : Type := CheckpointBackend_Memory | CheckpointBackend_MySql (endpoint : string) (table : option string).

Inductive ClusterMode : Type := Local | Standalone | YARN | Kubernetes.

Definition ClusterMode_try_from (mode_str : string) : res string ClusterMode :=
  let mode_str := to_lowercase mode_str in
  if decide (mode_str = "") then Ok Local
  else if decide (mode_str = "local") then Ok Local
  else if decide (mode_str = "standalone") then Ok Standalone
  else if decide (mode_str = "yarn") then Ok YARN
  else if decide (mode_str = "kubernetes") then Ok Kubernetes
  else Err ("Unsupported mode " +:+ mode_str).

Definition ClusterMode_to_string (m : ClusterMode) : string :=
  match m with Local => "Local" | Standalone => "Standalone" | YARN => "Yarn" | Kubernetes => "Kubernetes" end.

(** ** Properties *)
Record Properties := mkProperties { p_name : string; p_map : gmap string string }.

Definition Properties_new : Properties := mkProperties "" ∅.

Definition p_is_empty (p : Properties) : bool := bool_decide (p_map p = ∅).

Definition set_string (key value : string) (p : Properties) : Properties := mkProperties (p_name p) (<[key := value]> (p_map p)).
Definition set_str (key value : string) (p : Properties) : Properties := mkProperties (p_name p) (<[key := value]> (p_map p)).

Definition not_found (key : string) : string := "`" +:+ key +:+ "` field not found".

Definition get_string (key : string) (p : Properties) : res string string :=
  match p_map p !! key with Some v => Ok v | None => Err (not_found key) end.

Definition set_int (key : string) (value : Z) (p : Properties) : Properties := set_string key (pretty value) p.

Definition get_int (t : IntType) (key : string) (p : Properties) : res string Z :=
  match p_map p !! key with Some v => int_from_str t v | None => Err (not_found key) end.

Definition set_i16 := set_int.
Definition get_i16 := get_int t_i16.
Definition set_u16 := set_int.
Definition get_u16 := get_int t_u16.
Definition set_i32 := set_int.
Definition get_i32 := get_int t_i32.
Definition set_u32 := set_int.
Definition get_u32 := get_int t_u32.
Definition set_i64 := set_int.
Definition get_i64 := get_int t_i64.
Definition set_u64 := set_int.
Definition get_u64 := get_int t_u64.

(** [value as u32] *)
Definition set_usize (key : string) (value : Z) (p : Properties) : Properties := set_u32 key (wrap_u 32 value) p.
Definition get_usize (key : string) (p : Properties) : res string Z := get_u32 key p.

Definition set_bool (key : string) (value : bool) (p : Properties) : Properties := set_string key (bool_to_string value) p.
Definition get_bool (key : string) (p : Properties) : res string bool :=
  match p_map p !! key with Some v => bool_from_str v | None => Err (not_found key) end.

(** A [Duration], in nanoseconds. *)
Definition as_millis (d : Z) : Z := d / 10 ^ 6.
Definition from_millis (ms : Z) : Z := ms * 10 ^ 6.

Definition set_duration (key : string) (interval : Z) (p : Properties) : Properties := set_u64 key (wrap_u 64 (as_millis interval)) p.
Definition get_duration (key : string) (p : Properties) : res string Z :=
  let* value := get_u64 key p in Ok (from_millis value).

(** [key.starts_with(pre)] and then [key.index(pre.len()..)]. *)
Fixpoint strip_prefix (pre key : string) : option string :=
  match pre, key with
  | EmptyString, _ => Some key
  | String a pre, String b key => if decide (a = b) then strip_prefix pre key else None
  | _, _ => None
  end.

Section properties.
Context {HO : HashOrder}.

Definition to_sub_properties_with_name (prefix_key : string) (name : option string) (p : Properties) : Properties :=
  let properties := Properties_new in
  let properties := match name with Some name => mkProperties name (p_map properties) | None => properties end in
  let pre_key := prefix_key +:+ "." in
  foldl (fun properties kv =>
    match strip_prefix pre_key kv.1 with Some key => set_string key kv.2 properties | None => properties end) properties (hiter (p_map p)).

Definition to_sub_properties (prefix_key : string) (p : Properties) : Properties := to_sub_properties_with_name prefix_key None p.

Definition extend_sub_properties (prefix_key : string) (properties p : Properties) : Properties :=
  foldl (fun p kv => mkProperties (p_name p) (<[prefix_key +:+ "." +:+ kv.1 := kv.2]> (p_map p))) p (hiter (p_map properties)).

Definition line (kv : string * string) : string := kv.1 +:+ ":" +:+ kv.2.

Definition to_lines_string (p : Properties) : string :=
  String.concat (String "010" "") (merge_sort String.le (line <$> hiter (p_map p))).

(** ** [FunctionProperties] *)
Definition to_source (fn_name : string) := to_sub_properties_with_name ("source." +:+ fn_name) (Some fn_name).
Definition extend_source (fn_name : string) := extend_sub_properties ("source." +:+ fn_name).
Definition to_window (fn_name : string) := to_sub_properties_with_name ("window." +:+ fn_name) (Some fn_name).
Definition extend_window (fn_name : string) := extend_sub_properties ("window." +:+ fn_name).
Definition to_reduce (fn_name : string) := to_sub_properties_with_name ("reduce." +:+ fn_name) (Some fn_name).
Definition extend_reduce (fn_name : string) := extend_sub_properties ("reduce." +:+ fn_name).
Definition to_filter (fn_name : string) := to_sub_properties_with_name ("filter." +:+ fn_name) (Some fn_name).
Definition extend_filter (fn_name : string) := extend_sub_properties ("filter." +:+ fn_name).
Definition to_sink (fn_name : string) := to_sub_properties_with_name ("sink." +:+ fn_name) (Some fn_name).
Definition extend_sink (fn_name : string) := extend_sub_properties ("sink." +:+ fn_name).
Definition to_custom (fn_name : string) := to_sub_properties_with_name ("custom." +:+ fn_name) (Some fn_name).
Definition extend_custom (fn_name : string) := extend_sub_properties ("custom." +:+ fn_name).
End properties.

(** ** [SystemProperties] *)
Definition SYSTEM_APPLICATION_NAME := "SYSTEM_APPLICATION_NAME".
Definition SYSTEM_METADATA_STORAGE_MODE := "SYSTEM_METADATA_STORAGE_MODE".
Definition SYSTEM_KEYED_STATE_BACKEND := "SYSTEM_KEYED_STATE_BACKEND".
Definition SYSTEM_CHECKPOINT := "SYSTEM_CHECKPOINT".
Definition SYSTEM_CHECKPOINT_INTERVAL := "SYSTEM_CHECKPOINT_INTERVAL".
Definition SYSTEM_CHECKPOINT_TTL := "SYSTEM_CHECKPOINT_TTL".
Definition SYSTEM_CLUSTER_MODE := "SYSTEM_CLUSTER_MODE".
Definition SYSTEM_PUB_SUB_CHANNEL_SIZE := "SYSTEM_PUB_SUB_CHANNEL_SIZE".
Definition SYSTEM_PUB_SUB_CHANNEL_BASE_ON := "SYSTEM_PUB_SUB_CHANNEL_BASE_ON".

Definition set_application_name (application_name : string) (p : Properties) : res string Properties :=
  match get_string SYSTEM_APPLICATION_NAME p with
  | Ok _ => Panic "the `application_name` field always exist"
  | _ => Ok (set_string SYSTEM_APPLICATION_NAME application_name p)
  end.

Definition get_application_name (p : Properties) : res string string :=
  match get_string SYSTEM_APPLICATION_NAME p with
  | Ok v => Ok v
  | _ => Panic "Properties must contain `application_name` field"
  end.

Definition set_json {A} `{SerdeJson A} (key : string) (a : A) (p : Properties) : Properties := set_string key (json_to_string a) p.
Definition get_json {A} `{SerdeJson A} (key : string) (p : Properties) : res string A := let* value := get_string key p in json_from_str value.

Definition set_metadata_mode `{SerdeJson MetadataStorageType} := set_json SYSTEM_METADATA_STORAGE_MODE.
Definition get_metadata_mode `{SerdeJson MetadataStorageType} := get_json SYSTEM_METADATA_STORAGE_MODE.
Definition set_keyed_state_backend `{SerdeJson KeyedStateBackend} := set_json SYSTEM_KEYED_STATE_BACKEND.
Definition get_keyed_state_backend `{SerdeJson KeyedStateBackend} := get_json SYSTEM_KEYED_STATE_BACKEND.
Definition set_checkpoint `{SerdeJson CheckpointBackend} := set_json SYSTEM_CHECKPOINT.
Definition get_checkpoint `{SerdeJson CheckpointBackend} := get_json SYSTEM_CHECKPOINT.
Definition set_checkpoint_interval := set_duration SYSTEM_CHECKPOINT_INTERVAL.
Definition get_checkpoint_interval := get_duration SYSTEM_CHECKPOINT_INTERVAL.
Definition set_checkpoint_ttl := set_duration SYSTEM_CHECKPOINT_TTL.
Definition get_checkpoint_ttl := get_duration SYSTEM_CHECKPOINT_TTL.

Definition set_cluster_mode (m : ClusterMode) (p : Properties) : Properties := set_str SYSTEM_CLUSTER_MODE (ClusterMode_to_string m) p.
Definition get_cluster_mode (p : Properties) : res string ClusterMode :=
  let* value := get_string SYSTEM_CLUSTER_MODE p in ClusterMode_try_from value.

Definition set_pub_sub_channel_size := set_usize SYSTEM_PUB_SUB_CHANNEL_SIZE.
Definition get_pub_sub_channel_size := get_usize SYSTEM_PUB_SUB_CHANNEL_SIZE.

Definition set_pub_sub_channel_base (b : ChannelBaseOn) (p : Properties) : Properties :=
  set_string SYSTEM_PUB_SUB_CHANNEL_BASE_ON (ChannelBaseOn_to_string b) p.
Definition get_pub_sub_channel_base (p : Properties) : res string ChannelBaseOn :=
  let* value := get_string SYSTEM_PUB_SUB_CHANNEL_BASE_ON p in ChannelBaseOn_try_from value.

(** ** Printing and parsing integers *)
Lemma to_digit_char x : (x < 10)%N -> to_digit (pretty_N_char x) = Some (Z.of_N x).
Proof.
  intros H. assert (x = 0 \/ x = 1 \/ x = 2 \/ x = 3 \/ x = 4 \/ x = 5 \/ x = 6 \/ x = 7 \/ x = 8 \/ x = 9)%N as Hx by lia.
  by destruct Hx as [->|[->|[->|[->|[->|[->|[->|[->|[->| ->]]]]]]]]].
Qed.

Definition sign (negative : bool) (x : Z) : Z := if negative then - x else x.

Lemma in_type_smaller t negative a v : 0 <= a <= v -> in_type t (sign negative v) = true -> in_type t (sign negative a) = true.
Proof.
  unfold in_type, sign. intros Ha. pose proof (Z.pow_nonneg 2 (it_bits t - 1) ltac:(lia)). destruct (it_signed t), negative; rewrite !andb_true_iff, !Z.leb_le, !Z.ltb_lt; intros; lia.
Qed.

(** Parsing the digits of a number gives the number, whatever follows. *)
Lemma parse_pretty_go t negative x : forall s, in_type t (sign negative (Z.of_N x)) = true ->
  parse_digits t negative 0 (pretty_N_go x s) = parse_digits t negative (sign negative (Z.of_N x)) s.
Proof.
  induction (N.lt_wf_0 x) as [x _ IH]. intros s Hin. destruct (decide (x = 0%N)) as [->|Hx].
  { rewrite pretty_N_go_0. by destruct negative. }
  assert (Z.of_N (x `div` 10) * 10 + Z.of_N (x `mod` 10) = Z.of_N x) as Hdm.
  { rewrite N2Z.inj_div, N2Z.inj_mod. pose proof (Z.div_mod (Z.of_N x) (Z.of_N 10) ltac:(lia)). lia. }
  assert (x `mod` 10 < 10)%N as Hmod by (by apply N.mod_lt).
  pose proof (N2Z.is_nonneg (x `div` 10)) as Hq. pose proof (N2Z.is_nonneg (x `mod` 10)) as Hm.
  rewrite pretty_N_go_step by lia. rewrite IH; [|apply N.div_lt; lia|].
  2: { apply (in_type_smaller t negative _ (Z.of_N x)); [|done]. clear -Hdm Hq Hm. revert Hdm Hq Hm. generalize (Z.of_N (x `div` 10)), (Z.of_N (x `mod` 10)). lia. }
  cbn [parse_digits]. rewrite to_digit_char by done. cbv zeta.
  replace (sign negative (Z.of_N (x `div` 10)) * 10) with (sign negative (Z.of_N (x `div` 10) * 10)) by (destruct negative; simpl; lia).
  rewrite (in_type_smaller t negative _ (Z.of_N x)) by (done || lia). cbn [negb].
  replace (if negative then sign negative (Z.of_N (x `div` 10) * 10) - Z.of_N (x `mod` 10) else sign negative (Z.of_N (x `div` 10) * 10) + Z.of_N (x `mod` 10))
    with (sign negative (Z.of_N x)) by (destruct negative; simpl; lia).
  by rewrite Hin.
Qed.

(** A printed number starts with a digit. *)
Lemma pretty_go_head x : forall s, (0 < x)%N -> exists c rest, pretty_N_go x s = String c rest /\ is_Some (to_digit c).
Proof.
  induction (N.lt_wf_0 x) as [x _ IH]. intros s Hx. rewrite pretty_N_go_step by done. assert (x `mod` 10 < 10)%N as Hmod by (by apply N.mod_lt).
  destruct (decide (x `div` 10 = 0)%N) as [->|Hd].
  - rewrite pretty_N_go_0. eexists _, _. split; [done|]. rewrite to_digit_char; eauto.
  - apply IH; [by apply N.div_lt|by apply N.neq_0_lt_0].
Qed.

(** A printed number has digits, and a minus sign in front. *)
Definition int_char (a : ascii) : bool := bool_decide (is_Some (to_digit a)) || bool_decide (a = "-"%char).

Lemma pretty_go_chars P x : (forall a, int_char a = true -> P a = true) -> forall s, all_chars P s = true -> all_chars P (pretty_N_go x s) = true.
Proof.
  intros HP. induction (N.lt_wf_0 x) as [x _ IH]. intros s Hs. destruct (decide (x = 0)%N) as [->|Hx]; [done|].
  rewrite pretty_N_go_step by lia. apply IH; [apply N.div_lt; lia|]. cbn. rewrite Hs, andb_true_r. apply HP. unfold int_char.
  rewrite to_digit_char by (by apply N.mod_lt). by rewrite bool_decide_eq_true_2 by eauto.
Qed.

Lemma pretty_chars P (v : Z) : (forall a, int_char a = true -> P a = true) -> all_chars P (pretty v) = true.
Proof.
  intros HP. destruct v as [|v|v].
  - change (pretty 0) with (String "0" ""). cbn. by rewrite HP.
  - by apply (pretty_go_chars P (Npos v)).
  - change (pretty (Zneg v)) with (String "-" (pretty_N_go (Npos v) "")). cbn [all_chars]. by rewrite HP, pretty_go_chars.
Qed.

Lemma int_from_digit t c rest : is_Some (to_digit c) -> int_from_str t (String c rest) = parse_digits t false 0 (String c rest).
Proof. intros [x Hx]. destruct c as [[] [] [] [] [] [] [] []]; try done. Qed.

Lemma int_roundtrip t v : in_type t v = true -> int_from_str t (pretty v) = Ok v.
Proof.
  intros Hin. destruct v as [|v|v].
  - unfold pretty, pretty_Z. rewrite int_from_digit by (vm_compute; eauto). cbn [parse_digits]. change (to_digit "0") with (Some 0). cbv iota zeta.
    rewrite !Z.mul_0_l, Hin. cbn [negb]. by rewrite Z.add_0_l, Hin.
  - change (pretty (Zpos v)) with (pretty_N_go (Npos v) ""). destruct (pretty_go_head (Npos v) "" ltac:(lia)) as (c & rest & Hc & Hd).
    rewrite Hc, int_from_digit by done. rewrite <- Hc. by rewrite parse_pretty_go.
  - change (pretty (Zneg v)) with (String "-" (pretty_N_go (Npos v) "")). destruct (pretty_go_head (Npos v) "" ltac:(lia)) as (c & rest & Hc & Hd).
    assert (it_signed t = true) as Hs by (unfold in_type in Hin; destruct (it_signed t); [done|]; rewrite andb_true_iff, Z.leb_le in Hin; lia).
    transitivity (parse_digits t true 0 (pretty_N_go (Npos v) "")); [|by rewrite parse_pretty_go].
    rewrite Hc. cbn [int_from_str]. by rewrite Hs.
Qed.

(** Two types agree where both can parse, and what a type parses is in its range. *)
Lemma parse_digits_agree t t' negative s : forall r v v', parse_digits t negative r s = Ok v -> parse_digits t' negative r s = Ok v' -> v = v'.
Proof.
  induction s as [|c s IH]; intros r v v'; cbn [parse_digits]; [by intros [= <-] [= <-]|]. destruct (to_digit c) as [x|]; [|done]. cbv zeta.
  do 4 (destruct (in_type _ _); cbn [negb]; [|done]). apply IH.
Qed.

Lemma parse_digits_range t negative s : forall r v, parse_digits t negative r s = Ok v -> s = "" \/ in_type t v = true.
Proof.
  induction s as [|c s IH]; intros r v; cbn [parse_digits]; [by left|]. destruct (to_digit c) as [x|]; [|done]. cbv zeta.
  destruct (in_type t (r * 10)); cbn [negb]; [|done]. destruct (in_type t (if negative then _ else _)) eqn:Ei; cbn [negb]; [|done]. intros Hp.
  right. destruct (IH _ _ Hp) as [->|]; [|done]. injection Hp as <-. done.
Qed.

Lemma parse_digits_no_panic t negative s m : forall r, parse_digits t negative r s <> Panic m.
Proof. induction s as [|c s IH]; intros r; cbn [parse_digits]; [done|]. destruct (to_digit c); [|done]. cbv zeta. do 2 (destruct (in_type _ _); cbn [negb]; [|done]). apply IH. Qed.

Lemma in_some_type v : exists w, in_type (mkIntType true w) v = true.
Proof.
  exists (Z.abs v + 2). unfold in_type. cbn. pose proof (Z.pow_gt_lin_r 2 (Z.abs v + 2 - 1) ltac:(lia)) as H. rewrite andb_true_iff, Z.leb_le, Z.ltb_lt.
  pose proof (Z.abs_spec v). lia.
Qed.

(** A printed integer is read back where it fits the type, and is an error where it does
    not: never another value. *)
Lemma int_read t v : match int_from_str t (pretty v) with Ok v' => v' = v /\ in_type t v = true | Err _ => in_type t v = false | Panic _ => False end.
Proof.
  destruct (in_type t v) eqn:Ein; [by rewrite int_roundtrip|]. destruct (in_some_type v) as [w Hw]. pose proof (int_roundtrip _ _ Hw) as Hbig.
  assert (forall negative s, s <> "" -> int_from_str t (pretty v) = parse_digits t negative 0 s -> int_from_str (mkIntType true w) (pretty v) = parse_digits (mkIntType true w) negative 0 s ->
    match int_from_str t (pretty v) with Ok v' => v' = v /\ false = true | Err _ => false = false | Panic _ => False end) as Hgo.
  { intros negative s Hs E1 E2. rewrite E1. rewrite E2 in Hbig. destruct (parse_digits t negative 0 s) as [v'| |m] eqn:Ep; [|done|by apply parse_digits_no_panic in Ep].
    pose proof (parse_digits_agree _ _ _ _ _ _ _ Ep Hbig) as ->. by destruct (parse_digits_range _ _ _ _ _ Ep) as [?|?]; [|congruence]. }
  destruct v as [|v|v].
  - apply (Hgo false "0"); [done|by rewrite <- int_from_digit by (vm_compute; eauto)..].
  - destruct (pretty_go_head (Npos v) "" ltac:(lia)) as (c & rest & Hc & Hd). apply (Hgo false (String c rest)); [done|by rewrite <- int_from_digit, <- Hc..].
  - destruct (pretty_go_head (Npos v) "" ltac:(lia)) as (c & rest & Hc & Hd). change (pretty (Zneg v)) with (String "-" (pretty_N_go (Npos v) "")) in *. rewrite Hc in *.
    destruct (it_signed t) eqn:Es; [|cbn [int_from_str]; by rewrite Es]. apply (Hgo true (String c rest)); [done|cbn [int_from_str]; by rewrite Es|done].
Qed.

(** ** Sub-properties *)
Lemma strip_prefix_app pre k : strip_prefix pre (pre +:+ k) = Some k.
Proof. induction pre as [|a pre IH]; [done|]. change (String a pre +:+ k) with (String a (pre +:+ k)). cbn [strip_prefix]. by rewrite decide_True. Qed.

Lemma strip_prefix_Some pre key k : strip_prefix pre key = Some k <-> key = pre +:+ k.
Proof.
  split; [|intros ->; apply strip_prefix_app]. revert key. induction pre as [|a pre IH]; intros key; [by intros [= ->]|].
  destruct key as [|b key]; [done|]. cbn [strip_prefix]. destruct (decide (a = b)) as [->|]; [|done]. by intros ->%IH.
Qed.

Section sub_properties.
Context {HO : HashOrder}.

(** A loop that inserts what it makes of the entries of a map: the keys it makes are distinct. *)
Lemma insert_all_lookup (f : string -> option string) (m : gmap string string) (p0 : Properties) k :
  (forall a b c, f a = Some c -> f b = Some c -> a = b) ->
  p_map (foldl (fun p kv => match f kv.1 with Some key => set_string key kv.2 p | None => p end) p0 (hiter m)) !! k =
    match list_find (fun kv => f kv.1 = Some k) (hiter m) with Some (_, kv) => Some kv.2 | None => p_map p0 !! k end.
Proof.
  intros Hinj. pose proof (NoDup_hiter_fst (HO := HO) m) as Hnd. revert p0. induction (hiter m) as [|[a v] l IH]; intros p0; [done|].
  rewrite fmap_cons in Hnd. apply NoDup_cons in Hnd as [Hout Hnd]. cbn [foldl list_find fst snd]. rewrite (IH Hnd). destruct (decide (f a = Some k)) as [Ea|Ea].
  - rewrite Ea. destruct (list_find _ l) as [[i [b w]]|] eqn:El; [|cbn; by rewrite lookup_insert_eq]. apply list_find_Some in El as (Hb & Hfb & _). cbn in Hfb.
    destruct Hout. rewrite (Hinj a b k Ea Hfb). apply list_elem_of_fmap. exists (b, w). split; [done|]. by eapply list_elem_of_lookup_2.
  - destruct (list_find _ l) as [[i [b w]]|]; [done|]. cbn. destruct (f a) as [c|]; [|done]. cbn. rewrite lookup_insert_ne; [done|]. intros ->. done.
Qed.

Lemma find_in_hiter (f : string -> option string) (m : gmap string string) a k :
  (forall b, f b = Some k -> b = a) -> f a = Some k ->
  match list_find (fun kv => f kv.1 = Some k) (hiter m) with Some (_, kv) => Some kv.2 | None => None end = m !! a.
Proof.
  intros Huniq Ha. destruct (list_find _ _) as [[i [b w]]|] eqn:El.
  - apply list_find_Some in El as (Hb & Hfb & _). cbn in Hfb. rewrite <- (Huniq b Hfb). symmetry. apply elem_of_hiter. by eapply list_elem_of_lookup_2.
  - destruct (m !! a) as [v|] eqn:Em; [|done]. apply elem_of_hiter, list_elem_of_lookup in Em as [i Hi]. apply list_find_None in El. rewrite Forall_lookup in El.
    by destruct (El i _ Hi).
Qed.

Lemma to_sub_lookup prefix name p k : p_map (to_sub_properties_with_name prefix name p) !! k = p_map p !! (prefix +:+ "." +:+ k).
Proof.
  unfold to_sub_properties_with_name. rewrite insert_all_lookup.
  2: { intros a b c ->%strip_prefix_Some ->%strip_prefix_Some. done. }
  rewrite <- (find_in_hiter (strip_prefix (prefix +:+ ".")) (p_map p) (prefix +:+ "." +:+ k) k).
  - destruct (list_find _ _) as [[i kv]|]; [done|]. destruct name; apply lookup_empty.
  - intros b ->%strip_prefix_Some. by rewrite string_app_assoc.
  - apply strip_prefix_Some. by rewrite string_app_assoc.
Qed.

Lemma to_sub_name prefix name p : p_name (to_sub_properties_with_name prefix name p) = default "" name.
Proof.
  unfold to_sub_properties_with_name. set (p0 := match name with Some _ => _ | None => _ end). transitivity (p_name p0); [|by destruct name].
  generalize p0. induction (hiter (p_map p)) as [|kv l IH]; intros q; [done|]. cbn [foldl]. rewrite IH. by destruct (strip_prefix _ _).
Qed.

Lemma extend_lookup prefix q p k : p_map (extend_sub_properties prefix q p) !! k =
  match strip_prefix (prefix +:+ ".") k ≫= fun k' => p_map q !! k' with Some v => Some v | None => p_map p !! k end.
Proof.
  unfold extend_sub_properties. etransitivity; [apply (insert_all_lookup (fun a => Some (prefix +:+ "." +:+ a)) (p_map q) p k)|].
  { intros a b c [= <-] [= E]. rewrite !string_app_assoc in E. apply (f_equal (strip_prefix (prefix +:+ "."))) in E. rewrite !strip_prefix_app in E. by injection E. }
  destruct (strip_prefix (prefix +:+ ".") k) as [k'|] eqn:Ek; cbn.
  - apply strip_prefix_Some in Ek as ->. rewrite <- string_app_assoc. rewrite <- (find_in_hiter (fun a => Some (prefix +:+ "." +:+ a)) (p_map q) k' (prefix +:+ "." +:+ k')); [|naive_solver|done].
    by destruct (list_find _ _) as [[i kv]|].
  - destruct (list_find _ _) as [[i kv]|] eqn:El; [|done]. apply list_find_Some in El as (_ & E & _). injection E as <-. by rewrite string_app_assoc, strip_prefix_app in Ek.
Qed.
End sub_properties.

(** Prefixes of which none is the beginning of the other share no key. *)
Lemma strip_apart a : forall b k, strip_prefix a b = None -> strip_prefix b a = None -> strip_prefix a (b +:+ k) = None.
Proof.
  induction a as [|x a IH]; intros [|y b] k H1 H2; try done. change (String y b +:+ k) with (String y (b +:+ k)). cbn [strip_prefix] in *.
  destruct (decide (x = y)) as [->|]; [|done]. apply IH; [done|]. by rewrite decide_True in H2.
Qed.

(** The properties of a function: what is put under a prefix is found there again, over
    what was there before, with the name asked for; and under any other prefix, of which
    neither is the beginning of the other, nothing changes. For every order of the maps. *)
Theorem sub_properties_spec {HO : HashOrder} prefix name q p :
  p_map (to_sub_properties_with_name prefix name (extend_sub_properties prefix q p)) = p_map q ∪ p_map (to_sub_properties_with_name prefix name p) /\
  p_name (to_sub_properties_with_name prefix name (extend_sub_properties prefix q p)) = default "" name /\
  forall prefix' name', strip_prefix (prefix +:+ ".") (prefix' +:+ ".") = None -> strip_prefix (prefix' +:+ ".") (prefix +:+ ".") = None ->
    p_map (to_sub_properties_with_name prefix' name' (extend_sub_properties prefix q p)) = p_map (to_sub_properties_with_name prefix' name' p).
Proof.
  split_and!.
  - apply map_eq. intros k. rewrite to_sub_lookup, extend_lookup, string_app_assoc, strip_prefix_app. cbn [mbind option_bind].
    rewrite lookup_union, to_sub_lookup, string_app_assoc. by destruct (p_map q !! k), (p_map p !! (_ +:+ k)).
  - apply to_sub_name.
  - intros prefix' name' H1 H2. apply map_eq. intros k. rewrite !to_sub_lookup, extend_lookup, string_app_assoc, strip_apart by done. done.
Qed.

(** A value that has been set is read back. An integer is read as itself by a type that
    can hold it and is an error for any other type, never another number; a size keeps its
    lower 32 bits; a duration is cut to milliseconds; other keys keep their value. *)
Theorem typed_values p k :
  (forall t v, match get_int t k (set_int k v p) with Ok v' => v' = v /\ in_type t v = true | Err _ => in_type t v = false | Panic _ => False end) /\
  (forall v, 0 <= v -> get_usize k (set_usize k v p) = Ok (v mod 2 ^ 32)) /\
  (forall d, 0 <= d < 2 ^ 64 * 10 ^ 6 -> get_duration k (set_duration k d p) = Ok (d - d mod 10 ^ 6)) /\
  (forall b, get_bool k (set_bool k b p) = Ok b) /\
  (forall v k', k' <> k -> get_string k' (set_string k v p) = get_string k' p).
Proof.
  assert (forall t v, get_int t k (set_int k v p) = int_from_str t (pretty v)) as Hget by (intros t v; unfold get_int, set_int, set_string; cbn [p_map]; by rewrite lookup_insert_eq).
  split_and!.
  - intros t v. rewrite Hget. apply int_read.
  - intros v Hv. unfold get_usize, set_usize, get_u32, set_u32. rewrite Hget. apply int_roundtrip. unfold in_type, wrap_u. cbn. pose proof (Z.mod_pos_bound v (2 ^ 32) ltac:(lia)).
    rewrite andb_true_iff, Z.leb_le, Z.ltb_lt. lia.
  - intros d Hd. unfold get_duration, set_duration, get_u64, set_u64. rewrite Hget. assert (in_u 64 (as_millis d)) as Hms.
    { unfold in_u, as_millis. split; [apply Z.div_pos; lia|apply Z.div_lt_upper_bound; lia]. }
    rewrite wrap_u_small, int_roundtrip by (done || (unfold in_u in Hms; unfold in_type; cbn [it_signed it_bits t_u64]; rewrite andb_true_iff, Z.leb_le, Z.ltb_lt; lia)).
    run_bind. f_equal. unfold from_millis, as_millis. pose proof (Z.div_mod d (10 ^ 6) ltac:(lia)). lia.
  - intros b. unfold get_bool, set_bool, set_string. cbn [p_map]. rewrite lookup_insert_eq. by destruct b.
  - intros v k' Hne. unfold get_string, set_string. cbn [p_map]. by rewrite lookup_insert_ne.
Qed.

(** The lines of the printed properties do not depend on the order of the map. *)
Lemma lines_order (H1 H2 : HashOrder) p : to_lines_string (HO := H1) p = to_lines_string (HO := H2) p.
Proof.
  unfold to_lines_string. f_equal. apply (Sorted_unique String.le); [apply Sorted_merge_sort, _|apply Sorted_merge_sort, _|].
  rewrite !merge_sort_Permutation. unfold hiter. by rewrite !hash_order_perm.
Qed.

(** The system's own properties. *)
Lemma system_values p :
  (forall m, get_cluster_mode (set_cluster_mode m p) = Ok m) /\ (forall b, get_pub_sub_channel_base (set_pub_sub_channel_base b p) = Ok b) /\
  (forall `{SerdeJson CheckpointBackend} c, get_checkpoint (set_checkpoint c p) = Ok c) /\
  (forall `{SerdeJson KeyedStateBackend} c, get_keyed_state_backend (set_keyed_state_backend c p) = Ok c) /\
  (forall `{SerdeJson MetadataStorageType} c, get_metadata_mode (set_metadata_mode c p) = Ok c) /\
  (forall n p', set_application_name n p = Ok p' -> get_application_name p' = Ok n /\ forall n', set_application_name n' p' = Panic "the `application_name` field always exist").
Proof.
  assert (forall k v, get_string k (set_string k v p) = Ok v) as Hget by (intros k v; unfold get_string, set_string; cbn [p_map]; by rewrite lookup_insert_eq).
  split_and!; try (intros; unfold get_checkpoint, set_checkpoint, get_keyed_state_backend, set_keyed_state_backend, get_metadata_mode, set_metadata_mode, get_json, set_json; rewrite Hget; apply json_from_to).
  - intros m. unfold get_cluster_mode, set_cluster_mode. change set_str with set_string. rewrite Hget. by destruct m.
  - intros b. unfold get_pub_sub_channel_base, set_pub_sub_channel_base. rewrite Hget. by destruct b.
  - intros n p'. unfold set_application_name at 1. destruct (get_string SYSTEM_APPLICATION_NAME p) as [v| |]; [done| |];
      intros [= <-]; unfold get_application_name, set_application_name; rewrite Hget; done.
Qed.

(** ** Examples *)
#[local] Existing Instance id_order.

Definition ex_properties : Properties := set_str "source.kafka.topic" "in" (set_str "sink.kafka.topic" "out" Properties_new).
Definition ex_sub : Properties := set_int "partitions" 7 Properties_new.

Lemma sub_properties_spec_witness :
  p_map (to_source "kafka" (extend_source "kafka" ex_sub ex_properties)) = p_map ex_sub ∪ p_map (to_source "kafka" ex_properties) /\
  p_map (to_sink "kafka" (extend_source "kafka" ex_sub ex_properties)) = p_map (to_sink "kafka" ex_properties).
Proof.
  destruct (sub_properties_spec "source.kafka" (Some "kafka") ex_sub ex_properties) as (H1 & _ & H3). split; [exact H1|].
  apply (H3 "sink.kafka" (Some "kafka")); reflexivity.
Defined.

Lemma typed_values_witness : get_i16 "n" (set_i64 "n" (-300) Properties_new) = Ok (-300) /\
  get_usize "n" (set_usize "n" (2 ^ 32 + 5) Properties_new) = Ok ((2 ^ 32 + 5) mod 2 ^ 32) /\
  get_duration "d" (set_duration "d" 1500000 Properties_new) = Ok (1500000 - 1500000 mod 10 ^ 6).
Proof.
  destruct (typed_values Properties_new "n") as (H1 & H2 & _). destruct (typed_values Properties_new "d") as (_ & _ & H3 & _).
  split; [|split; [apply H2; lia|apply H3; lia]]. specialize (H1 t_i16 (-300)). unfold get_i16, set_i64.
  destruct (get_int t_i16 "n" (set_int "n" (-300) Properties_new)) as [v|e|m]; [destruct H1 as [-> _]; reflexivity|discriminate H1|destruct H1].
Defined.

(** Numbers that do not fit are errors: 70000 in 16 bits, a negative number without a sign. *)
Example ex_out_of_range : (is_ok (get_u16 "n" (set_u32 "n" 70000 Properties_new)), is_ok (get_u32 "n" (set_i32 "n" (-1) Properties_new))) = (false, false).
Proof. vm_compute. reflexivity. Qed.

(** Functions whose names share a beginning share properties: what is set for [a] under
    [b.x] is also a property of [a.b]. *)
Example ex_shared_prefix : p_map (to_source "a.b" (extend_source "a" (set_str "b.x" "1" Properties_new) Properties_new)) !! "x" = Some "1".
Proof. vm_compute. reflexivity. Qed.
