(* ===== verification/Runtime.v ===== *)
(** * Runtime: identifiers and cluster descriptors (src/rlink/src/core/runtime.rs)

    The ids of jobs, operators, tasks and checkpoints with the wire format of
    [TaskId] and [ChannelKey]; the descriptors the coordinator keeps of its
    workers and tasks; the status summary [flush_coordinator_status]. The small
    carriers of src/rlink/src/core/checkpoint.rs and of [InputSplit]
    (src/rlink/src/core/function.rs) are here too. *)
From Stdlib Require Import ZArith Lia Sorted.
From stdpp Require Import base strings numbers option sets gmap list.
From S2P Require Import Properties.
From S2P Require Import Prelude Bytes.

(** ** Identifiers *)
Abbreviation OperatorId := Z.
Abbreviation JobId := Z.
Abbreviation CheckpointId := Z.

(** [CheckpointId::is_default]. *)
Definition ck_is_default (id : CheckpointId) : bool := id =? 0.

(** [impl From<OperatorId> for JobId]. *)
Definition job_id_from (operator_id : OperatorId) : JobId := operator_id.

Record TaskId := mkTaskId {
  job_id : JobId;
  task_number : Z;
  num_tasks : Z
}.

Definition TaskId_default : TaskId := mkTaskId 0 0 0.

Definition task_is_default (t : TaskId) : bool :=
  (job_id t =? 0) && (task_number t =? 0) && (num_tasks t =? 0).

Record ChannelKey := mkChannelKey {
  source_task_id : TaskId;
  target_task_id : TaskId
}.

Definition ChannelKey_default : ChannelKey := mkChannelKey TaskId_default TaskId_default.

#[global] Instance TaskId_eq_dec : EqDecision TaskId.
Proof. solve_decision. Defined.
#[global] Instance TaskId_countable : Countable TaskId.
Proof.
  apply (inj_countable' (fun t => (job_id t, task_number t, num_tasks t))
    (fun '(j, n, m) => mkTaskId j n m)). by intros [].
Defined.
#[global] Instance ChannelKey_eq_dec : EqDecision ChannelKey.
Proof. solve_decision. Defined.
#[global] Instance ChannelKey_countable : Countable ChannelKey.
Proof.
  apply (inj_countable' (fun k => (source_task_id k, target_task_id k))
    (fun '(s, t) => mkChannelKey s t)). by intros [].
Defined.

(** ** Wire format of the ids *)
Section id_serde.
Context {BA : BytesApi}.

Definition TaskId_serialize (t : TaskId) (bytes : list Z) : res string (list Z) :=
  Ok (put_u16 (num_tasks t) (put_u16 (task_number t) (put_u32 (job_id t) bytes))).

Definition TaskId_deserialize (bytes : list Z) : res string (TaskId * list Z) :=
  '(job_id, bytes) ← get_u32 bytes;
  '(task_number, bytes) ← get_u16 bytes;
  '(num_tasks, bytes) ← get_u16 bytes;
  Ok (mkTaskId job_id task_number num_tasks, bytes).

#[global] Instance TaskId_Serde : Serde TaskId := {|
  capacity := fun _ => 4 + 2 + 2;
  serialize := TaskId_serialize;
  deserialize := TaskId_deserialize
|}.

Definition ChannelKey_serialize (k : ChannelKey) (bytes : list Z) : res string (list Z) :=
  bytes ← serialize (source_task_id k) bytes;
  serialize (target_task_id k) bytes.

Definition ChannelKey_deserialize (bytes : list Z) : res string (ChannelKey * list Z) :=
  '(source, bytes) ← deserialize bytes;
  '(target, bytes) ← deserialize bytes;
  Ok (mkChannelKey source target, bytes).

#[global] Instance ChannelKey_Serde : Serde ChannelKey := {|
  capacity := fun _ => 8 + 8;
  serialize := ChannelKey_serialize;
  deserialize := ChannelKey_deserialize
|}.
End id_serde.

(** The values of the Rust types: [u32] and [u16] fields. *)
Definition TaskId_wf (t : TaskId) : Prop :=
  in_u 32 (job_id t) /\ in_u 16 (task_number t) /\ in_u 16 (num_tasks t).

Definition ChannelKey_wf (k : ChannelKey) : Prop :=
  TaskId_wf (source_task_id k) /\ TaskId_wf (target_task_id k).

(** ** Checkpoints (core/checkpoint.rs) *)
Record CheckpointHandle := mkHandle { handle : string }.

Definition CheckpointHandle_default : CheckpointHandle := mkHandle "".

Record FunctionSnapshotContext := mkSnapshotContext {
  fsc_operator_id : OperatorId;
  fsc_task_id : TaskId;
  fsc_checkpoint_id : CheckpointId;
  fsc_completed_checkpoint_id : option CheckpointId
}.

Record Checkpoint := mkCheckpoint {
  ck_operator_id : OperatorId;
  ck_task_id : TaskId;
  ck_checkpoint_id : CheckpointId;
  ck_completed_checkpoint_id : option CheckpointId;
  ck_handle : CheckpointHandle
}.

#[global] Instance CheckpointHandle_eq_dec : EqDecision CheckpointHandle.
Proof. solve_decision. Defined.
#[global] Instance Checkpoint_eq_dec : EqDecision Checkpoint.
Proof. solve_decision. Defined.

(** The trait [CheckpointFunction] over a state [F]. *)
Class CheckpointFunction (F : Type) := {
  consult_version : F -> FunctionSnapshotContext -> option CheckpointHandle -> F * CheckpointId;
  initialize_state : F -> FunctionSnapshotContext -> option CheckpointHandle -> F;
  snapshot_state : F -> FunctionSnapshotContext -> F * option CheckpointHandle
}.

(** Its provided methods. *)
Definition default_checkpoint_function (F : Type) : CheckpointFunction F := {|
  consult_version := fun f ctx _ => (f, fsc_checkpoint_id ctx);
  initialize_state := fun f _ _ => f;
  snapshot_state := fun f _ => (f, None)
|}.

(** ** Input splits (core/function.rs) *)
Abbreviation Properties := Properties.Properties.
Abbreviation no_properties := Properties.Properties_new.

Record InputSplit := mkInputSplit { split_number : Z; split_properties : Properties }.

Definition InputSplit_default : InputSplit := mkInputSplit 0 no_properties.

(** [InputSplitSource::create_input_splits], the provided method. *)
Definition create_input_splits (min_num_splits : Z) : list InputSplit :=
  (fun task_number => mkInputSplit (Z.of_nat task_number) no_properties) <$> seq 0 (Z.to_nat min_num_splits).

(** [InputSplitAssigner::next_input_split]: [Vec::pop]. *)
Definition next_input_split (input_splits : list InputSplit) : option InputSplit * list InputSplit :=
  (last input_splits, take (length input_splits - 1) input_splits).

(** ** Descriptors *)
Record OperatorDescriptor := mkOperatorDescriptor {
  od_operator_id : OperatorId;
  od_checkpoint_id : CheckpointId;
  od_completed_checkpoint_id : option CheckpointId;
  od_checkpoint_handle : option CheckpointHandle
}.

Record TaskDescriptor := mkTaskDescriptor {
  td_task_id : TaskId;
  td_operators : list OperatorDescriptor;
  td_input_split : InputSplit;
  td_daemon : bool;
  td_thread_id : string;
  td_terminated : bool
}.

Inductive ManagerStatus : Type :=
  | Pending | Registered | Migration | Terminating | Terminated.

#[global] Instance ManagerStatus_eq_dec : EqDecision ManagerStatus.
Proof. solve_decision. Defined.

Definition is_terminating (s : ManagerStatus) : bool :=
  match s with Terminating => true | _ => false end.
Definition is_terminated (s : ManagerStatus) : bool :=
  match s with Terminated => true | _ => false end.

Inductive HeartBeatStatus : Type := HB_Ok | HB_Panic | HB_End.

(** [impl Display for HeartBeatStatus]. *)
Definition HeartBeatStatus_to_string (s : HeartBeatStatus) : string :=
  match s with HB_Ok => "ok" | HB_Panic => "panic" | HB_End => "end" end.

(** [impl TryFrom<&str> for HeartBeatStatus]. *)
Definition HeartBeatStatus_try_from (value : string) : res string HeartBeatStatus :=
  if decide (value = "ok")%string then Ok HB_Ok
  else if decide (value = "panic")%string then Ok HB_Panic
  else if decide (value = "end")%string then Ok HB_End
  else Err ("unrecognized status: " +:+ value).

Record WorkerManagerDescriptor := mkWorker {
  wm_status : ManagerStatus;
  wm_latest_heart_beat_ts : Z;
  wm_latest_heart_beat_status : HeartBeatStatus;
  wm_task_manager_id : string;
  wm_task_manager_address : string;
  wm_metrics_address : string;
  wm_web_address : string;
  wm_task_descriptors : list TaskDescriptor
}.

Record CoordinatorManagerDescriptor := mkCoordinator {
  cm_version : string;
  cm_application_id : string;
  cm_application_properties : Properties;
  cm_web_address : string;
  cm_metrics_address : string;
  cm_status : ManagerStatus;
  cm_v_cores : Z;
  cm_memory_mb : Z;
  cm_num_task_managers : Z;
  cm_uptime : Z;
  cm_startup_number : Z
}.

Record ClusterDescriptor := mkCluster {
  coordinator_manager : CoordinatorManagerDescriptor;
  worker_managers : list WorkerManagerDescriptor
}.

Definition set_cm_status (s : ManagerStatus) (c : CoordinatorManagerDescriptor) : CoordinatorManagerDescriptor :=
  mkCoordinator (cm_version c) (cm_application_id c) (cm_application_properties c)
    (cm_web_address c) (cm_metrics_address c) s (cm_v_cores c) (cm_memory_mb c)
    (cm_num_task_managers c) (cm_uptime c) (cm_startup_number c).

Definition set_coordinator_status (s : ManagerStatus) (c : ClusterDescriptor) : ClusterDescriptor :=
  mkCluster (set_cm_status s (coordinator_manager c)) (worker_managers c).

Definition get_worker_manager (c : ClusterDescriptor) (task_id : TaskId) : option WorkerManagerDescriptor :=
  List.find (fun w =>
    match List.find (fun td => bool_decide (td_task_id td = task_id)) (wm_task_descriptors w) with
    | Some _ => true
    | None => false
    end) (worker_managers c).

(** The two counters of the nested loop. *)
Definition count_task (cnt : Z * Z) (task : TaskDescriptor) : Z * Z :=
  (cnt.1 + 1, if td_terminated task then cnt.2 + 1 else cnt.2).

Definition count_tasks (ws : list WorkerManagerDescriptor) : Z * Z :=
  foldl (fun cnt w => foldl count_task cnt (wm_task_descriptors w)) (0, 0) ws.

Definition flush_coordinator_status (c : ClusterDescriptor) : ClusterDescriptor :=
  let '(task_count, terminated_count) := count_tasks (worker_managers c) in
  if task_count =? terminated_count then set_coordinator_status Terminated c
  else if 0 <? terminated_count then set_coordinator_status Terminating c
  else c.

(** Every task of the cluster. *)
Definition cluster_tasks (c : ClusterDescriptor) : list TaskDescriptor :=
  w ← worker_managers c; wm_task_descriptors w.

(** ** Wire-format lemmas *)
Section id_serde_lemmas.
Context {BA : BytesApi}.

Definition TaskId_wire (t : TaskId) : list Z :=
  be_encode 4 (job_id t) ++ be_encode 2 (task_number t) ++ be_encode 2 (num_tasks t).

Lemma TaskId_serialize_wire t b : serialize t b = Ok (b ++ TaskId_wire t).
Proof. cbn [serialize TaskId_Serde]. unfold TaskId_serialize, TaskId_wire. put_bytes. done. Qed.

(** Reading back a [TaskId] leaves the bytes that follow it. *)
Lemma TaskId_deserialize_wire t b : TaskId_wf t -> deserialize (TaskId_wire t ++ b) = Ok (t, b).
Proof.
  intros (H1 & H2 & H3). cbn [deserialize TaskId_Serde]. unfold TaskId_deserialize, TaskId_wire.
  rewrite <- !(assoc_L (++)), get_u32_encode by done; run_bind.
  rewrite get_u16_encode by done; run_bind.
  rewrite get_u16_encode by done; run_bind. by destruct t.
Qed.

Lemma length_TaskId_wire t : length (TaskId_wire t) = 8%nat.
Proof. unfold TaskId_wire. by rewrite !length_app, !length_be_encode. Qed.

Lemma ChannelKey_serialize_wire k b :
  serialize k b = Ok (b ++ TaskId_wire (source_task_id k) ++ TaskId_wire (target_task_id k)).
Proof.
  cbn [serialize ChannelKey_Serde]. unfold ChannelKey_serialize. rewrite TaskId_serialize_wire. run_bind.
  rewrite TaskId_serialize_wire. by rewrite (assoc_L (++)).
Qed.

Lemma ChannelKey_deserialize_wire k b : ChannelKey_wf k ->
  deserialize (TaskId_wire (source_task_id k) ++ TaskId_wire (target_task_id k) ++ b) = Ok (k, b).
Proof.
  intros [H1 H2]. cbn [deserialize ChannelKey_Serde]. unfold ChannelKey_deserialize.
  rewrite TaskId_deserialize_wire by done; run_bind.
  rewrite TaskId_deserialize_wire by done; run_bind. by destruct k.
Qed.

#[global] Instance TaskId_SerdeOk : SerdeOk TaskId TaskId_wf eq.
Proof.
  intros t Ht. exists (TaskId_wire t). split; [apply TaskId_serialize_wire|]. split.
  - by rewrite length_TaskId_wire.
  - exists t. by rewrite <- (app_nil_r (TaskId_wire t)), TaskId_deserialize_wire.
Qed.

#[global] Instance ChannelKey_SerdeOk : SerdeOk ChannelKey ChannelKey_wf eq.
Proof.
  intros k Hk. eexists. split; [intros; apply ChannelKey_serialize_wire|]. split.
  - by rewrite length_app, !length_TaskId_wire.
  - exists k. rewrite <- (app_nil_r (_ ++ _)), <- (assoc_L (++)).
    by rewrite ChannelKey_deserialize_wire.
Qed.
End id_serde_lemmas.

(** ** Status lemmas *)
Lemma HeartBeatStatus_roundtrip s :
  HeartBeatStatus_try_from (HeartBeatStatus_to_string s) = Ok s.
Proof. by destruct s. Qed.

Lemma count_task_foldl l cnt :
  foldl count_task cnt l =
    (cnt.1 + Z.of_nat (length l), cnt.2 + Z.of_nat (length (filter (fun t => td_terminated t = true) l))).
Proof.
  revert cnt; induction l as [|t l IH]; intros [a b]; cbn [foldl length filter]; simpl fst; simpl snd.
  - f_equal; simpl; lia.
  - rewrite IH. unfold count_task; simpl fst; simpl snd. rewrite filter_cons.
    case_decide as Ht; [rewrite Ht|destruct (td_terminated t); [done|]]; f_equal; simpl length; lia.
Qed.

Lemma count_tasks_spec ws :
  count_tasks ws =
    (let ts := w ← ws; wm_task_descriptors w in
     (Z.of_nat (length ts), Z.of_nat (length (filter (fun t => td_terminated t = true) ts)))).
Proof.
  unfold count_tasks.
  enough (forall cnt, foldl (fun cnt w => foldl count_task cnt (wm_task_descriptors w)) cnt ws =
    foldl count_task cnt (w ← ws; wm_task_descriptors w)) as ->
    by by rewrite count_task_foldl.
  induction ws as [|w ws IH]; intros cnt; simpl; [done|]. by rewrite foldl_app, IH.
Qed.

Lemma filter_length_all {A} (P : A -> Prop) `{forall x, Decision (P x)} (l : list A) :
  length (filter P l) = length l <-> Forall P l.
Proof.
  induction l as [|x l IH]; simpl; [by split; constructor|].
  rewrite filter_cons, Forall_cons, <- IH. pose proof (length_filter P l).
  case_decide; simpl; split; intros; try lia; naive_solver lia.
Qed.

Lemma filter_length_pos {A} (P : A -> Prop) `{forall x, Decision (P x)} (l : list A) :
  (0 < length (filter P l))%nat <-> Exists P l.
Proof.
  induction l as [|x l IH]; simpl; [rewrite Exists_nil; split; [lia|done]|].
  rewrite filter_cons, Exists_cons, <- IH. case_decide; simpl; split; intros; try lia; naive_solver lia.
Qed.

Lemma find_is_Some {A} (f : A -> bool) l :
  (exists x, x ∈ l /\ f x = true) -> is_Some (List.find f l).
Proof.
  intros (x & Hin & Hf). destruct (List.find f l) eqn:E; [by eexists|].
  by rewrite (List.find_none _ _ E x) in Hf by by apply list_elem_of_In.
Qed.
