(* ===== verification/Graph.v ===== *)
(** * Graph: the interface of directed acyclic graphs

    The graphs of src/rlink/src/dag/ are values of the daggy crate. [DagApi] is
    what the builder uses of it: indices are positions, [add_edge] refuses
    an edge that closes a cycle, [children] and [parents] list the edges of a node in
    an order the crate does not fix, and [remove_edge] moves the last edge into the
    place of the removed one. [ListDag] is a model of it, in which the edges of a
    node are listed with the latest first.

    The edge kinds of the job graph and of the execution graph and the creator of
    a function are here because the graphs and the tasks share them. *)
From Stdlib Require Import ZArith Lia.
From stdpp Require Import base strings numbers option sets gmap list relations.
From S2P Require Import Prelude.

(** ** Enumerations shared by the graphs and the tasks *)
Inductive FunctionCreator : Type := System | User.

Inductive JobEdge : Type := Forward | ReBalance.

Inductive ExecutionEdge : Type := EE_Memory | EE_Network.

#[global] Instance ExecutionEdge_eq_dec : EqDecision ExecutionEdge.
Proof. solve_decision. Defined.
#[global] Instance JobEdge_eq_dec : EqDecision JobEdge.
Proof. solve_decision. Defined.

(** ** The interface *)
Abbreviation NodeIndex := nat.
Abbreviation EdgeIndex := nat.

Record Edge (E : Type) := mkEdge { e_source : NodeIndex; e_target : NodeIndex; e_weight : E }.
Arguments mkEdge {E} _ _ _.
Arguments e_source {E} _.
Arguments e_target {E} _.
Arguments e_weight {E} _.

#[global] Instance Edge_eq_dec {E} `{EqDecision E} : EqDecision (Edge E).
Proof. solve_decision. Defined.

(** One edge of the list goes from [a] to [b]. *)
Definition edge_rel {E} (es : list (Edge E)) (a b : NodeIndex) : Prop :=
  exists e, e ∈ es /\ e_source e = a /\ e_target e = b.

(** The edges with their indices whose end [f] is [a]. *)
Definition incident {E} (f : Edge E -> NodeIndex) (a : NodeIndex) (es : list (Edge E)) : list (EdgeIndex * Edge E) :=
  filter (fun p => f p.2 = a) (imap pair es).

(** [Vec::swap_remove]. *)
Definition swap_remove {A} (i : nat) (l : list A) : list A :=
  match last l with
  | Some x => if decide (i < length l)%nat then take (length l - 1) (<[i := x]> l) else l
  | None => l
  end.

(** A graph of the index type [u32] holds fewer than [2 ^ 32 - 1] nodes before
    another one fits, and as many edges. *)
Definition has_room {A} (l : list A) : Prop := Z.of_nat (length l) < 2 ^ 32 - 1.

Class DagApi := {
  Dag : Type -> Type -> Type;
  Dag_new : forall {N E}, Dag N E;
  raw_nodes : forall {N E}, Dag N E -> list N;
  raw_edges : forall {N E}, Dag N E -> list (Edge E);
  (** [None] is the panic of a full graph. *)
  add_node : forall {N E}, Dag N E -> N -> option (NodeIndex * Dag N E);
  (** [Err] is [WouldCycle]. *)
  add_edge : forall {N E}, Dag N E -> NodeIndex -> NodeIndex -> E -> res unit (EdgeIndex * Dag N E);
  children : forall {N E}, Dag N E -> NodeIndex -> list (EdgeIndex * NodeIndex);
  parents : forall {N E}, Dag N E -> NodeIndex -> list (EdgeIndex * NodeIndex);
  remove_edge : forall {N E}, Dag N E -> EdgeIndex -> Dag N E;

  raw_nodes_new : forall N E, raw_nodes (Dag_new (N := N) (E := E)) = [];
  raw_edges_new : forall N E, raw_edges (Dag_new (N := N) (E := E)) = [];
  add_node_inv : forall N E (g : Dag N E) n i g', add_node g n = Some (i, g') ->
    i = length (raw_nodes g) /\ raw_nodes g' = raw_nodes g ++ [n] /\ raw_edges g' = raw_edges g;
  add_node_room : forall N E (g : Dag N E) n, is_Some (add_node g n) <-> has_room (raw_nodes g);
  add_edge_inv : forall N E (g : Dag N E) a b w i g', add_edge g a b w = Ok (i, g') ->
    i = length (raw_edges g) /\ raw_nodes g' = raw_nodes g /\ raw_edges g' = raw_edges g ++ [mkEdge a b w] /\
    (a < length (raw_nodes g))%nat /\ (b < length (raw_nodes g))%nat;
  add_edge_acyclic : forall N E (g : Dag N E) a b w,
    (a < length (raw_nodes g))%nat -> (b < length (raw_nodes g))%nat -> has_room (raw_edges g) ->
    ~ rtc (edge_rel (raw_edges g)) b a -> is_ok (add_edge g a b w) = true;
  add_edge_cycle : forall N E (g : Dag N E) a b w,
    (a < length (raw_nodes g))%nat -> (b < length (raw_nodes g))%nat ->
    rtc (edge_rel (raw_edges g)) b a -> add_edge g a b w = Err tt;
  children_perm : forall N E (g : Dag N E) a,
    children g a ≡ₚ (fun p => (p.1, e_target p.2)) <$> incident e_source a (raw_edges g);
  parents_perm : forall N E (g : Dag N E) a,
    parents g a ≡ₚ (fun p => (p.1, e_source p.2)) <$> incident e_target a (raw_edges g);
  remove_edge_nodes : forall N E (g : Dag N E) i, raw_nodes (remove_edge g i) = raw_nodes g;
  remove_edge_edges : forall N E (g : Dag N E) i, raw_edges (remove_edge g i) = swap_remove i (raw_edges g)
}.

(** [Index<NodeIndex>] and [Index<EdgeIndex>]: out of range panics. *)
Definition dag_index `{DagApi} {Er N E} (g : Dag N E) (i : NodeIndex) : res Er N :=
  unwrap "index out of bounds" (raw_nodes g !! i).

Definition dag_edge `{DagApi} {Er N E} (g : Dag N E) (i : EdgeIndex) : res Er E :=
  unwrap "index out of bounds" (e_weight <$> raw_edges g !! i).

(** ** Lemmas on lists of edges *)
Lemma fmap_concat {A B} (f : A -> B) (ls : list (list A)) :
  f <$> concat ls = concat (fmap (M := list) (fmap (M := list) f) ls).
Proof. induction ls as [|l ls IH]; simpl; [done|]. by rewrite fmap_app, IH. Qed.

Lemma elem_of_concat {A} (x : A) (ls : list (list A)) : x ∈ concat ls <-> exists l, x ∈ l /\ l ∈ ls.
Proof. rewrite list_elem_of_In, in_concat. setoid_rewrite <- list_elem_of_In. naive_solver. Qed.

#[global] Instance concat_perm {A} : Proper ((≡ₚ) ==> (≡ₚ)) (@concat A).
Proof.
  induction 1 as [|l ls ls' _ IH|l l' ls|ls1 ls2 ls3 _ IH1 _ IH2]; simpl; [done|by rewrite IH| |by etrans].
  rewrite !app_assoc. apply Permutation_app; [apply Permutation_app_comm|done].
Qed.

Lemma concat_fmap_perm {A B} (f g : A -> list B) l : (forall x, x ∈ l -> f x ≡ₚ g x) -> concat (f <$> l) ≡ₚ concat (g <$> l).
Proof.
  induction l as [|x l IH]; intros Hl; [done|]. rewrite !fmap_cons. cbn [concat]. apply Permutation_app; [apply Hl; by left|].
  apply IH. intros; apply Hl; by right.
Qed.

Lemma concat_fmap_concat {A B C} (f : B -> list C) (g : A -> list B) l :
  concat ((fun x => concat (f <$> g x)) <$> l) = concat (f <$> concat (g <$> l)).
Proof. induction l as [|x l IH]; [done|]. rewrite !fmap_cons. cbn [concat]. by rewrite fmap_app, concat_app, IH. Qed.

Section edges.
Context {E : Type}.
Implicit Types es : list (Edge E).

Lemma elem_of_incident f a es i (e : Edge E) : (i, e) ∈ incident f a es <-> es !! i = Some e /\ f e = a.
Proof.
  unfold incident. rewrite list_elem_of_filter, elem_of_lookup_imap. simpl. naive_solver.
Qed.

Lemma edge_rel_app es es' a b : edge_rel (es ++ es') a b <-> edge_rel es a b \/ edge_rel es' a b.
Proof. unfold edge_rel. set_solver. Qed.

(** Edges that go up in some rank leave no way back. *)
Lemma ranked_no_path es (rank : NodeIndex -> nat) a b :
  Forall (fun e => (rank (e_source e) < rank (e_target e))%nat) es ->
  (rank a < rank b)%nat -> ~ rtc (edge_rel es) b a.
Proof.
  intros Hes Hab Hp. cut (rank b <= rank a)%nat; [lia|]. clear Hab.
  induction Hp as [x|x y z (e & He & <- & <-) _ IH]; [lia|].
  rewrite Forall_forall in Hes. specialize (Hes e He). lia.
Qed.

Lemma swap_remove_perm {A} i (l : list A) x : l !! i = Some x -> x :: swap_remove i l ≡ₚ l.
Proof.
  intros Hi. unfold swap_remove. pose proof (lookup_lt_Some _ _ _ Hi) as Hlt.
  destruct l as [|z l _] using rev_ind; [done|]. rewrite last_snoc, decide_True by done.
  rewrite length_app in *. simpl in *. replace (length l + 1 - 1)%nat with (length l) by lia.
  destruct (decide (i = length l)) as [->|Hne].
  - rewrite list_lookup_middle in Hi by done. simplify_eq.
    rewrite insert_app_r_alt by lia. rewrite take_app_length. by rewrite Permutation_app_comm.
  - rewrite lookup_app_l in Hi by lia. rewrite insert_app_l by lia. rewrite take_app_length' by (rewrite length_insert; lia).
    rewrite <- (take_drop_middle l i x) at 2 by done. rewrite insert_take_drop by lia.
    rewrite (Permutation_app_comm _ [z]), <- !Permutation_middle. done.
Qed.

Lemma swap_remove_ge {A} i (l : list A) : (length l <= i)%nat -> swap_remove i l = l.
Proof. intros. unfold swap_remove. destruct (last l); [|done]. by rewrite decide_False by lia. Qed.

Lemma length_swap_remove {A} i (l : list A) : (i < length l)%nat -> length (swap_remove i l) = (length l - 1)%nat.
Proof.
  intros Hi. destruct (lookup_lt_is_Some_2 l i Hi) as [x Hx]. apply swap_remove_perm, Permutation_length in Hx.
  simpl in Hx. lia.
Qed.

(** An edge that was not the last one keeps its index. *)
Lemma lookup_swap_remove_ne {A} i j (l : list A) :
  i <> j -> (j < length l - 1)%nat -> swap_remove i l !! j = l !! j.
Proof.
  intros Hne Hj. unfold swap_remove. destruct (last l); [|done]. case_decide; [|done].
  rewrite lookup_take_lt by lia. by rewrite list_lookup_insert_ne.
Qed.

Lemma NoDup_incident f a es : NoDup (incident f a es).
Proof.
  apply NoDup_filter. apply (NoDup_fmap_1 fst). rewrite fmap_imap.
  replace (imap _ es) with (seq 0 (length es)); [apply NoDup_seq|].
  apply list_eq. intros i. rewrite list_lookup_imap. destruct (es !! i) eqn:Hi; simpl.
  - apply lookup_seq. split; [done|]. by apply lookup_lt_Some in Hi.
  - apply lookup_seq_ge. by apply lookup_ge_None in Hi.
Qed.

Lemma incident_snd f a es : (incident f a es).*2 = filter (fun e => f e = a) es.
Proof.
  unfold incident. induction es as [|e es IH] using rev_ind; [done|]. rewrite imap_app, !filter_app, fmap_app, IH. f_equal.
  unfold filter; simpl. by case_decide.
Qed.

(** An end that no two edges share has at most one edge. *)
Lemma incident_unique f a es : NoDup (f <$> es) -> (length (incident f a es) <= 1)%nat.
Proof.
  intros Hnd. pose proof (NoDup_incident f a es) as Hi.
  destruct (incident f a es) as [|[i1 e1] [|[i2 e2] l]] eqn:El; simpl; try lia. exfalso.
  assert ((i1, e1) ∈ incident f a es) as [H1 F1]%elem_of_incident by (rewrite El; set_solver).
  assert ((i2, e2) ∈ incident f a es) as [H2 F2]%elem_of_incident by (rewrite El; set_solver).
  assert (i1 = i2) as <-.
  { eapply (NoDup_lookup _ _ _ a Hnd); rewrite list_lookup_fmap, ?H1, ?H2; simpl; by f_equal. }
  simplify_eq. apply NoDup_cons in Hi as [Hi _]. set_solver.
Qed.

(** The edges, grouped by an end. *)
Lemma group_edges f es n :
  concat ((fun t => filter (fun e => f e = t) es) <$> seq 0 n) ≡ₚ filter (fun e : Edge E => (f e < n)%nat) es.
Proof.
  induction n as [|n IH]; [by rewrite filter_none by (apply Forall_forall; lia)|].
  rewrite seq_S, fmap_app, concat_app, IH. simpl. rewrite app_nil_r. clear IH.
  induction es as [|e es IHe]; [done|]. rewrite !filter_cons.
  repeat case_decide; try lia; simpl; rewrite <- IHe; try done. by rewrite <- Permutation_middle.
Qed.
End edges.

(** The index of a graph: the positions it maps to are those of the nodes. *)
Lemma hiter_index_perm {HO : HashOrder} {K N} `{Countable K} (key : N -> K) (m : gmap K NodeIndex) (ns : list N) :
  (forall k i, m !! k = Some i <-> exists n, ns !! i = Some n /\ key n = k) -> (hiter m).*2 ≡ₚ seq 0 (length ns).
Proof.
  intros Hm. apply NoDup_Permutation; [|apply NoDup_seq|].
  - apply NoDup_fmap_2_strong; [|eapply NoDup_fmap_1, NoDup_hiter_fst]. intros [k i] [k' i'] Hx Hy Heq. simpl in Heq. subst i'.
    apply elem_of_hiter, Hm in Hx as (n & Hn & <-). apply elem_of_hiter, Hm in Hy as (n' & Hn' & <-). by simplify_eq.
  - intros i. rewrite list_elem_of_fmap, elem_of_seq. split.
    + intros ([k i'] & -> & Hk). apply elem_of_hiter, Hm in Hk as (n & Hn & _). apply lookup_lt_Some in Hn. simpl. lia.
    + intros [_ Hlt]. destruct (lookup_lt_is_Some_2 ns i Hlt) as [n Hn]. exists (key n, i). split; [done|].
      apply elem_of_hiter, Hm. eauto.
Qed.

(** ** A model of the interface

    The edges carry the time of their insertion. *)
Section list_dag.
Record LDag (N E : Type) := mkLDag {
  ld_nodes : list N;
  ld_edges : list (Edge E * Z);
  ld_clock : Z
}.
Arguments mkLDag {N E} _ _ _.
Arguments ld_nodes {N E} _.
Arguments ld_edges {N E} _.
Arguments ld_clock {N E} _.

(** Is there a path over these edges? Either without the first edge or through it. *)
Fixpoint reaches {E} (es : list (Edge E)) (a b : NodeIndex) : bool :=
  match es with
  | [] => bool_decide (a = b)
  | e :: es' => if reaches es' a b then true
                else if reaches es' a (e_source e) then reaches es' (e_target e) b else false
  end.

Definition ld_children {N E} (g : LDag N E) (f h : Edge E -> NodeIndex) (a : NodeIndex) : list (EdgeIndex * NodeIndex) :=
  (fun p => (p.1, h p.2.1)) <$>
    sort_by_key (fun p => - p.2.2) (filter (fun p => f p.2.1 = a) (imap pair (ld_edges g))).

Definition room {A} (l : list A) : bool := Z.of_nat (length l) <? 2 ^ 32 - 1.

Definition ld_add_edge {N E} (g : LDag N E) (a b : NodeIndex) (w : E) : res unit (EdgeIndex * LDag N E) :=
  if bool_decide (a < length (ld_nodes g))%nat && bool_decide (b < length (ld_nodes g))%nat then
    if reaches (ld_edges g).*1 b a then Err tt
    else if room (ld_edges g) then
      Ok (length (ld_edges g), mkLDag (ld_nodes g) (ld_edges g ++ [(mkEdge a b w, ld_clock g)]) (ld_clock g + 1))
    else Panic "edge index overflow"
  else Panic "node indices out of bounds".

Lemma reaches_rtc {E} (es : list (Edge E)) a b : reaches es a b = true <-> rtc (edge_rel es) a b.
Proof.
  revert a b. induction es as [|e es IH]; intros a b; simpl.
  { rewrite bool_decide_eq_true. split; [by intros ->|]. intros H. inv H; [done|]. destruct H0 as (? & He & _). set_solver. }
  assert (forall x y, reaches (e :: es) x y = true <->
            reaches es x y = true \/ reaches es x (e_source e) = true /\ reaches es (e_target e) y = true) as Hr.
  { intros x y. simpl. destruct (reaches es x y), (reaches es x (e_source e)); naive_solver. }
  change (reaches (e :: es) a b = true <-> rtc (edge_rel (e :: es)) a b).
  assert (forall x y, rtc (edge_rel es) x y -> rtc (edge_rel (e :: es)) x y) as Hsub.
  { intros x y. apply rtc_subrel. intros ? ? (e' & ? & ? & ?). exists e'. set_solver. }
  rewrite Hr, !IH. split.
  - intros [H|[H1 H2]]; [by apply Hsub|]. etrans; [by apply Hsub|].
    eapply rtc_l; [|by apply Hsub]. exists e. set_solver.
  - induction 1 as [x|x y z (e' & He & <- & <-) _ IHp]; [by left|].
    apply elem_of_cons in He as [->|He].
    + right. split; [done|]. by destruct IHp as [|[]].
    + assert (edge_rel es (e_source e') (e_target e')) as Hs by (by exists e').
      destruct IHp as [?|[? ?]]; [left|right; split; [|done]]; by eapply rtc_l.
Qed.

Lemma filter_imap_fst {A B} (P : A -> Prop) `{forall x, Decision (P x)} (f : nat -> A -> B) (l : list (A * Z)) :
  (fun p => f p.1 p.2.1) <$> filter (fun p => P p.2.1) (imap pair l) =
  (fun p => f p.1 p.2) <$> filter (fun p => P p.2) (imap pair l.*1).
Proof.
  rewrite imap_fmap. unfold compose.
  revert f. induction l as [|[x z] l IH] using rev_ind; intros f; [done|].
  rewrite !imap_app, !filter_app, !fmap_app. simpl. f_equal; [apply IH|].
  unfold filter; simpl. by repeat case_decide.
Qed.

Lemma ld_children_perm {N E} (g : LDag N E) f h a :
  ld_children g f h a ≡ₚ (fun p => (p.1, h p.2)) <$> incident f a (ld_edges g).*1.
Proof.
  unfold ld_children, incident. rewrite sort_by_key_perm.
  pose proof (filter_imap_fst (fun e => f e = a) (fun i e => (i, h e)) (ld_edges g)) as Heq. cbn beta in Heq. by rewrite Heq.
Qed.

Lemma fmap_swap_remove {A B} (f : A -> B) i l : f <$> swap_remove i l = swap_remove i (f <$> l).
Proof.
  unfold swap_remove. rewrite fmap_last. destruct (last l) as [x|]; simpl; [|done].
  rewrite length_fmap. case_decide; [|done]. by rewrite fmap_take, list_fmap_insert.
Qed.

Lemma room_spec {A} (l : list A) : room l = true <-> has_room l.
Proof. apply Z.ltb_lt. Qed.

Definition ListDag : DagApi.
Proof.
  refine {|
    Dag := LDag;
    Dag_new := fun N E => mkLDag [] [] 0;
    raw_nodes := fun N E g => ld_nodes g;
    raw_edges := fun N E g => (ld_edges g).*1;
    add_node := fun N E g n =>
      if room (ld_nodes g) then Some (length (ld_nodes g), mkLDag (ld_nodes g ++ [n]) (ld_edges g) (ld_clock g)) else None;
    add_edge := @ld_add_edge;
    children := fun N E g a => ld_children g e_source e_target a;
    parents := fun N E g a => ld_children g e_target e_source a;
    remove_edge := fun N E g i => mkLDag (ld_nodes g) (swap_remove i (ld_edges g)) (ld_clock g)
  |}; try done; intros N E g.
  - intros n i g' H. destruct (room _); by simplify_eq.
  - intros n. rewrite <- room_spec. destruct (room _); naive_solver.
  - intros a b w i g' H. unfold ld_add_edge in H. repeat case_bool_decide; try done. simpl in H.
    destruct (reaches _ _ _); [done|]. destruct (room _); simplify_eq. simpl. by rewrite fmap_app, length_fmap.
  - intros a b w Ha Hb Hr Hp. unfold ld_add_edge. rewrite !bool_decide_true by done. simpl.
    destruct (reaches _ _ _) eqn:R; [by apply reaches_rtc in R|].
    replace (room (ld_edges g)) with true; [done|]. symmetry. apply room_spec. unfold has_room in *. by rewrite length_fmap in Hr.
  - intros a b w Ha Hb Hp. unfold ld_add_edge. rewrite !bool_decide_true by done. simpl.
    by rewrite (proj2 (reaches_rtc _ _ _)).
  - intros a. apply ld_children_perm.
  - intros a. apply ld_children_perm.
  - intros i. simpl. apply fmap_swap_remove.
Defined.
End list_dag.
