(* ===== verification/Schema.v ===== *)
(** * Schema: column types and schemas (src/rlink/src/core/data_types.rs)

    The data types with their widths, the fields, the schemas and the functions
    the graph builder and the user functions use on them; [FnSchema]
    (src/rlink/src/core/element.rs), the schema that flows along the edges of the
    stream graph. The numbers of the types come from the serbuffer crate: they
    are the class [SerTypes]. *)
From Stdlib Require Import ZArith Lia.
From stdpp Require Import base strings numbers option sets list.
From S2P Require Import Prelude.

Inductive DataType : Type :=
  | DT_Boolean | DT_Int8 | DT_UInt8 | DT_Int16 | DT_UInt16 | DT_Int32 | DT_UInt32
  | DT_Int64 | DT_UInt64 | DT_Float32 | DT_Float64 | DT_Binary | DT_String.

#[global] Instance DataType_eq_dec : EqDecision DataType.
Proof. solve_decision. Defined.

(** [DataType::len]. *)
Definition data_type_len (t : DataType) : Z :=
  match t with
  | DT_Boolean | DT_Int8 | DT_UInt8 => 1
  | DT_Int16 | DT_UInt16 => 2
  | DT_Int32 | DT_UInt32 | DT_Float32 => 4
  | DT_Int64 | DT_UInt64 | DT_Float64 => 8
  | DT_Binary | DT_String => 0
  end.

(** The module [types] of serbuffer: one [u8] per type, no two equal. *)
Class SerTypes := {
  types_BOOL : Z; types_I8 : Z; types_U8 : Z; types_I16 : Z; types_U16 : Z; types_I32 : Z; types_U32 : Z;
  types_I64 : Z; types_U64 : Z; types_F32 : Z; types_F64 : Z; types_BINARY : Z; types_STRING : Z;
  types_distinct : NoDup [types_BOOL; types_I8; types_U8; types_I16; types_U16; types_I32; types_U32;
                          types_I64; types_U64; types_F32; types_F64; types_BINARY; types_STRING]
}.

Section schema.
Context {ST : SerTypes}.

(** [DataType::id]. *)
Definition data_type_id (t : DataType) : Z :=
  match t with
  | DT_Boolean => types_BOOL | DT_Int8 => types_I8 | DT_UInt8 => types_U8
  | DT_Int16 => types_I16 | DT_UInt16 => types_U16 | DT_Int32 => types_I32 | DT_UInt32 => types_U32
  | DT_Int64 => types_I64 | DT_UInt64 => types_U64 | DT_Float32 => types_F32 | DT_Float64 => types_F64
  | DT_Binary => types_BINARY | DT_String => types_STRING
  end.

(** [TryFrom<u8> for DataType]: the arms in the order of the code. *)
Definition data_type_try_from (value : Z) : res string DataType :=
  if value =? types_BOOL then Ok DT_Boolean
  else if value =? types_I8 then Ok DT_Int8
  else if value =? types_U8 then Ok DT_UInt8
  else if value =? types_I16 then Ok DT_Int16
  else if value =? types_U16 then Ok DT_UInt16
  else if value =? types_I32 then Ok DT_Int32
  else if value =? types_U32 then Ok DT_UInt32
  else if value =? types_I64 then Ok DT_Int64
  else if value =? types_U64 then Ok DT_UInt64
  else if value =? types_F32 then Ok DT_Float32
  else if value =? types_F64 then Ok DT_Float64
  else if value =? types_BINARY then Ok DT_Binary
  else if value =? types_STRING then Ok DT_String
  else Err "unknown type".

Record Field := mkField {
  f_name : string;
  f_data_type : DataType;
  f_len : Z;
  f_type_id : Z
}.

Definition Field_new (name : string) (data_type : DataType) : Field :=
  mkField name data_type (data_type_len data_type) (data_type_id data_type).

Definition is_numeric (f : Field) : bool := f_type_id f <? types_BINARY.

Record Schema := mkSchema { fields : list Field; type_ids : list Z }.

Definition Schema_new (fs : list Field) : Schema := mkSchema fs (f_type_id <$> fs).

Definition Schema_empty : Schema := mkSchema [] [].

Definition schema_is_empty (s : Schema) : bool := match fields s with [] => true | _ => false end.

(** [Schema::field]: an index out of range panics. *)
Definition schema_field {E} (s : Schema) (i : nat) : res E Field :=
  unwrap "index out of bounds" (fields s !! i).

(** [Schema::index_of]: the first field of that name. *)
Fixpoint index_of_from (i : nat) (name : string) (fs : list Field) : option nat :=
  match fs with
  | [] => None
  | f :: fs' => if decide (f_name f = name) then Some i else index_of_from (S i) name fs'
  end.

Definition index_of (s : Schema) (name : string) : option nat := index_of_from 0 name (fields s).

(** [Schema::field_with_name]. *)
Definition field_with_name (s : Schema) (name : string) : option Field :=
  i ← index_of s name; fields s !! i.

(** [Schema::column_with_name]: [iter().enumerate().find(..)]. *)
Definition column_with_name (s : Schema) (name : string) : option (nat * Field) :=
  list_find (fun f => f_name f = name) (fields s).

(** [Schema::add_field]: a name that exists is only logged. *)
Definition add_field (s : Schema) (f : Field) : Schema :=
  mkSchema (fields s ++ [f]) (type_ids s ++ [f_type_id f]).

Definition schema_merge (s other : Schema) : Schema := foldl add_field s (fields other).

(** [Schema::sub_schema]. *)
Definition sub_schema {E} (s : Schema) (column_indies : list nat) : res E Schema :=
  let* fs := foldM (fun acc index => let* f := schema_field s index in Ok (acc ++ [f])) [] column_indies in
  Ok (Schema_new fs).

(** [From<&FieldMetadata<N>> for Schema]: the metadata is two lists of one
    length; an unknown type number panics. *)
Definition schema_from_metadata (field_name : list string) (field_type : list Z) : res string Schema :=
  let* fs := foldM (fun acc n =>
      let* name := unwrap "index out of bounds" (field_name !! n) in
      let* ty := unwrap "index out of bounds" (field_type !! n) in
      match data_type_try_from ty with
      | Ok t => Ok (acc ++ [Field_new name t])
      | _ => Panic "called `Result::unwrap()` on an `Err` value"
      end) [] (seq 0 (length field_name)) in
  Ok (Schema_new fs).

(** ** The schema of a stream *)
Inductive FnSchema : Type :=
  | FnSchema_Empty
  | FnSchema_Single (s : Schema)
  | FnSchema_Tuple (s0 s1 : Schema).

(** [FnSchema::first]. *)
Definition fn_schema_first {E} (s : FnSchema) : res E Schema :=
  match s with
  | FnSchema_Single v => Ok v
  | FnSchema_Tuple v _ => Ok v
  | FnSchema_Empty => Panic "no schema"
  end.

(** [Into<Schema>] and [Into<(Schema, Schema)>]. *)
Definition into_single {E} (s : FnSchema) : res E Schema :=
  match s with FnSchema_Single v => Ok v | _ => Panic "only support `Single`" end.

Definition into_tuple {E} (s : FnSchema) : res E (Schema * Schema) :=
  match s with FnSchema_Tuple v0 v1 => Ok (v0, v1) | _ => Panic "only support `Tuple`" end.

(** ** Lemmas *)

(** What every schema built by this file satisfies: the type numbers are those
    of the fields, and each field has the width and number of its type. *)
Definition field_wf (f : Field) : Prop :=
  f_len f = data_type_len (f_data_type f) /\ f_type_id f = data_type_id (f_data_type f).

Definition schema_wf (s : Schema) : Prop :=
  type_ids s = f_type_id <$> fields s /\ Forall field_wf (fields s).

Lemma Field_new_wf name t : field_wf (Field_new name t).
Proof. done. Qed.

Lemma Schema_new_wf fs : Forall field_wf fs -> schema_wf (Schema_new fs).
Proof. done. Qed.

Lemma schema_merge_fields s o : fields (schema_merge s o) = fields s ++ fields o.
Proof.
  unfold schema_merge. generalize (fields o) as l. intros l. revert s.
  induction l as [|f l IH]; intros s; simpl; [by rewrite app_nil_r|].
  rewrite IH. simpl. by rewrite <- app_assoc.
Qed.

Lemma schema_merge_wf s o : schema_wf s -> schema_wf o -> schema_wf (schema_merge s o).
Proof.
  intros Hs [_ Ho]. unfold schema_merge. revert s Hs. induction Ho as [|f l Hf _ IH]; intros s Hs; simpl; [done|].
  apply IH. destruct Hs as [Hids Hall]. split; simpl.
  - by rewrite Hids, fmap_app.
  - apply Forall_app; auto.
Qed.

Lemma data_type_try_from_id t : data_type_try_from (data_type_id t) = Ok t.
Proof.
  pose proof types_distinct as Hd. unfold data_type_try_from.
  repeat match goal with H : NoDup (_ :: _) |- _ => apply NoDup_cons in H as [? H] end.
  repeat match goal with H : _ ∉ _ :: _ |- _ => apply not_elem_of_cons in H as [? H] end.
  destruct t; simpl;
  repeat match goal with |- context [?a =? ?b] =>
    destruct (Z.eqb_spec a b) as [e|]; [first [done | match goal with H : b <> a |- _ => by destruct (H (eq_sym e)) end]|] end;
  done.
Qed.

Lemma index_of_from_Some i name fs j :
  index_of_from i name fs = Some j ->
  exists k f, j = (i + k)%nat /\ fs !! k = Some f /\ f_name f = name /\
    (forall k' f', (k' < k)%nat -> fs !! k' = Some f' -> f_name f' <> name).
Proof.
  revert i. induction fs as [|f fs IH]; intros i; simpl; [done|]. case_decide as Hf; intros H; simplify_eq.
  - exists 0%nat, f. split_and!; [lia|done|done|lia].
  - apply IH in H as (k & g & -> & Hk & Hg & Hmin). exists (S k), g. split_and!; [lia|done|done|].
    intros [|k'] f' Hlt Hl; simpl in Hl; [by simplify_eq|]. apply (Hmin k'); [lia|done].
Qed.

Lemma index_of_from_shift i name fs : index_of_from i name fs = (fun p => (i + p.1)%nat) <$> list_find (fun f => f_name f = name) fs.
Proof.
  revert i. induction fs as [|f fs IH]; intros i; simpl; [done|]. case_decide; simpl; [f_equal; lia|].
  rewrite IH. destruct (list_find _ fs) as [[]|]; simpl; [f_equal; lia|done].
Qed.

(** Looking a column up by name or by position agrees. *)
Lemma column_with_name_spec s name :
  column_with_name s name = (i ← index_of s name; (fun f => (i, f)) <$> fields s !! i).
Proof.
  unfold column_with_name, index_of. rewrite index_of_from_shift.
  destruct (list_find _ _) as [[i f]|] eqn:E; simpl; [|done].
  apply list_find_Some in E as (Hl & _ & _). by rewrite Hl.
Qed.

Lemma sub_schema_foldM {E} s (l : list nat) (acc : list Field) :
  (forall i, i ∈ l -> is_Some (fields s !! i)) ->
  exists gs, foldM (E := E) (fun acc index => let* f := schema_field s index in Ok (acc ++ [f])) acc l = Ok (acc ++ gs) /\
    Forall2 (fun i f => fields s !! i = Some f) l gs.
Proof.
  revert acc. induction l as [|i l IH]; intros acc Hl; simpl; [exists []; by rewrite app_nil_r|].
  destruct (Hl i) as [f Hf]; [by left|]. unfold schema_field at 1. rewrite Hf. simpl.
  destruct (IH (acc ++ [f])) as (gs & -> & Hgs); [intros; apply Hl; by right|].
  exists (f :: gs). rewrite <- app_assoc. split; [done|]. by constructor.
Qed.
End schema.
