(* ===== verification/StreamGraph.v ===== *)
(** * StreamGraph: operators, the stream API and the stream graph

    src/rlink/src/core/operator.rs, core/data_stream.rs, core/env.rs and
    src/rlink/src/dag/stream_graph.rs: the operators, the graph every call of the
    stream API adds nodes to, with the virtual sinks, sources and maps it puts
    between operators that cannot share a task. The user's program is a sequence
    of API calls; a stream is consumed by the call that uses it. The theorems give
    the shape of every graph such a program builds. *)
From Stdlib Require Import ZArith Lia.
From stdpp Require Import base strings numbers option sets gmap list relations pretty.
From S2P Require Import Prelude Bytes Runtime Graph Schema.

Inductive OperatorType : Type :=
  | OT_Source | OT_FlatMap | OT_Filter | OT_CoProcess | OT_KeyBy | OT_Reduce
  | OT_WatermarkAssigner | OT_WindowAssigner | OT_Sink.

#[global] Instance OperatorType_eq_dec : EqDecision OperatorType.
Proof. solve_decision. Defined.

(** [Display for OperatorType]. *)
Definition OperatorType_to_string (t : OperatorType) : string :=
  match t with
  | OT_Source => "Source" | OT_FlatMap => "Map" | OT_Filter => "Filter" | OT_CoProcess => "CoProcess"
  | OT_KeyBy => "KeyBy" | OT_Reduce => "Reduce" | OT_WatermarkAssigner => "WatermarkAssigner"
  | OT_WindowAssigner => "WindowAssigner" | OT_Sink => "Sink"
  end.

Inductive DagError : Type :=
  | WouldCycle | SourceNotFound | SourceNotAtStarting | SinkNotAtEnding
  | ReduceOutputParallelismConflict | NotCombineOperator | ParentOperatorNotFound
  | ChildNotFoundInPipeline | MultiChildrenInPipeline
  | IllegalInputSplitSize (msg : string)
  | OperatorNotFound (id : OperatorId) | JobNotFound (id : JobId)
  | JobParallelismNotFound | OtherApiError (msg : string).

Section stream_graph.
Context {DA : DagApi}.

(** ** Functions

    What the graph uses of the traits of core/function.rs. A schema function that
    panics is [None]; the splits of a source may be an error. *)
Record InputFormat := mkInputFormat {
  if_name : string;
  if_daemon : bool;
  if_parallelism : Z;
  if_schema : FnSchema -> option FnSchema;
  if_create_input_splits : Z -> anyhow (list InputSplit)
}.
Record FlatMapFunction := mkFlatMap { fm_name : string; fm_schema : FnSchema -> option FnSchema }.
Record FilterFunction := mkFilter { ff_name : string }.
Record CoProcessFunction := mkCoProcess { cp_name : string; cp_schema : FnSchema -> option FnSchema }.
Record KeySelectorFunction := mkKeySelector { ks_name : string; ks_key_schema : FnSchema -> option FnSchema }.
Record BaseReduceFunction := mkBaseReduce { br_name : string; br_value_schema : FnSchema -> option FnSchema }.
Record WatermarkStrategy := mkStrategy { ws_name : string }.
Record WindowAssigner := mkWindowAssigner { wa_name : string }.
Record OutputFormat := mkOutputFormat { of_name : string; of_schema : FnSchema -> option FnSchema }.
(** The user's [ReduceFunction], wrapped by [WindowBaseReduceFunction]. *)
Record ReduceFunction := mkReduce { rf_parallelism : Z; rf_schema : FnSchema -> option FnSchema }.

Definition option_res {E A} (r : res E A) : option A := match r with Ok a => Some a | _ => None end.

(** ** Operators *)
Definition DEFAULT_PARALLELISM : Z := 0.

Record DefaultStreamOperator (T : Type) := mkOperator {
  op_parallelism : Z;
  op_fn_creator : FunctionCreator;
  operator_fn : T
}.
#[global] Arguments mkOperator {T} _ _ _.
#[global] Arguments op_parallelism {T} _.
#[global] Arguments op_fn_creator {T} _.
#[global] Arguments operator_fn {T} _.

Inductive StreamOperator : Type :=
  | StreamSource (op : DefaultStreamOperator InputFormat)
  | StreamFlatMap (op : DefaultStreamOperator FlatMapFunction)
  | StreamFilter (op : DefaultStreamOperator FilterFunction)
  | StreamCoProcess (op : DefaultStreamOperator CoProcessFunction)
  | StreamKeyBy (op : DefaultStreamOperator KeySelectorFunction)
  | StreamReduce (op : DefaultStreamOperator BaseReduceFunction)
  | StreamWatermarkAssigner (op : DefaultStreamOperator WatermarkStrategy)
  | StreamWindowAssigner (op : DefaultStreamOperator WindowAssigner)
  | StreamSink (op : DefaultStreamOperator OutputFormat).

Definition new_source (parallelism : Z) (fn_creator : FunctionCreator) (f : InputFormat) : StreamOperator :=
  StreamSource (mkOperator parallelism fn_creator f).
Definition new_map (f : FlatMapFunction) : StreamOperator := StreamFlatMap (mkOperator DEFAULT_PARALLELISM User f).
Definition new_filter (f : FilterFunction) : StreamOperator := StreamFilter (mkOperator DEFAULT_PARALLELISM User f).
Definition new_co_process (f : CoProcessFunction) : StreamOperator := StreamCoProcess (mkOperator DEFAULT_PARALLELISM User f).
Definition new_key_by (f : KeySelectorFunction) : StreamOperator := StreamKeyBy (mkOperator DEFAULT_PARALLELISM User f).
Definition new_reduce (parallelism : Z) (f : BaseReduceFunction) : StreamOperator := StreamReduce (mkOperator parallelism User f).
Definition new_watermark_assigner (f : WatermarkStrategy) : StreamOperator :=
  StreamWatermarkAssigner (mkOperator DEFAULT_PARALLELISM User f).
Definition new_window_assigner (f : WindowAssigner) : StreamOperator :=
  StreamWindowAssigner (mkOperator DEFAULT_PARALLELISM User f).
Definition new_sink (fn_creator : FunctionCreator) (f : OutputFormat) : StreamOperator :=
  StreamSink (mkOperator DEFAULT_PARALLELISM fn_creator f).

Definition is_daemon (o : StreamOperator) : bool :=
  match o with StreamSource op => if_daemon (operator_fn op) | _ => false end.

Definition is_source (o : StreamOperator) : bool :=
  match o with StreamSource _ => true | _ => false end.

Definition operator_name (o : StreamOperator) : string :=
  match o with
  | StreamSource op => if_name (operator_fn op)
  | StreamFlatMap op => fm_name (operator_fn op)
  | StreamFilter op => ff_name (operator_fn op)
  | StreamCoProcess op => cp_name (operator_fn op)
  | StreamKeyBy op => ks_name (operator_fn op)
  | StreamReduce op => br_name (operator_fn op)
  | StreamWatermarkAssigner op => ws_name (operator_fn op)
  | StreamWindowAssigner op => wa_name (operator_fn op)
  | StreamSink op => of_name (operator_fn op)
  end.

Definition operator_parallelism (o : StreamOperator) : Z :=
  match o with
  | StreamSource op => op_parallelism op
  | StreamFlatMap op => op_parallelism op
  | StreamFilter op => op_parallelism op
  | StreamCoProcess op => op_parallelism op
  | StreamKeyBy op => op_parallelism op
  | StreamReduce op => op_parallelism op
  | StreamWatermarkAssigner op => op_parallelism op
  | StreamWindowAssigner op => op_parallelism op
  | StreamSink op => op_parallelism op
  end.

Definition operator_fn_creator (o : StreamOperator) : FunctionCreator :=
  match o with
  | StreamSource op => op_fn_creator op
  | StreamFlatMap op => op_fn_creator op
  | StreamFilter op => op_fn_creator op
  | StreamCoProcess op => op_fn_creator op
  | StreamKeyBy op => op_fn_creator op
  | StreamReduce op => op_fn_creator op
  | StreamWatermarkAssigner op => op_fn_creator op
  | StreamWindowAssigner op => op_fn_creator op
  | StreamSink op => op_fn_creator op
  end.

(** [TStreamOperator::schema]; [None] is a panic. *)
Definition operator_schema (o : StreamOperator) (input_schema : FnSchema) : option FnSchema :=
  match o with
  | StreamSource op => if_schema (operator_fn op) input_schema
  | StreamFlatMap op => fm_schema (operator_fn op) input_schema
  | StreamFilter _ => Some input_schema
  | StreamCoProcess op => cp_schema (operator_fn op) input_schema
  | StreamKeyBy op =>
      key_schema ← ks_key_schema (operator_fn op) input_schema;
      i ← option_res (into_single (E := unit) input_schema);
      k ← option_res (into_single (E := unit) key_schema);
      Some (FnSchema_Tuple i k)
  | StreamReduce op =>
      value_schema ← br_value_schema (operator_fn op) input_schema;
      schema ← match input_schema with
               | FnSchema_Single _ => option_res (into_single (E := unit) value_schema)
               | FnSchema_Tuple _ key_schema =>
                   v ← option_res (into_single (E := unit) value_schema);
                   Some (schema_merge key_schema v)
               | FnSchema_Empty => None
               end;
      Some (FnSchema_Tuple Schema_empty schema)
  | StreamWatermarkAssigner _ => Some input_schema
  | StreamWindowAssigner _ => Some input_schema
  | StreamSink op => of_schema (operator_fn op) input_schema
  end.

(** [From<&StreamOperator> for OperatorType]. *)
Definition OperatorType_from (o : StreamOperator) : OperatorType :=
  match o with
  | StreamSource _ => OT_Source
  | StreamFlatMap _ => OT_FlatMap
  | StreamFilter _ => OT_Filter
  | StreamCoProcess _ => OT_CoProcess
  | StreamKeyBy _ => OT_KeyBy
  | StreamReduce _ => OT_Reduce
  | StreamWatermarkAssigner _ => OT_WatermarkAssigner
  | StreamWindowAssigner _ => OT_WindowAssigner
  | StreamSink _ => OT_Sink
  end.

(** The functions of the virtual operators: [SystemInputFormat],
    [SystemOutputFormat] and [KeyedStateFlatMapFunction]. *)
Definition SystemInputFormat : InputFormat :=
  mkInputFormat "SystemInputFormat" false 0 Some (fun n => Ok (create_input_splits n)).
Definition SystemOutputFormat : OutputFormat := mkOutputFormat "SystemOutputFormat" Some.
Definition KeyedStateFlatMapFunction : FlatMapFunction :=
  mkFlatMap "KeyedStateFlatMapFunction" (fun input_schema =>
    '(_, reduce_schema) ← option_res (into_tuple (E := unit) input_schema);
    Some (FnSchema_Single reduce_schema)).

(** ** The stream graph *)
Record StreamNode := mkStreamNode {
  sn_id : OperatorId;
  sn_parent_ids : list OperatorId;
  sn_parallelism : Z;
  sn_input_schema : FnSchema;
  sn_output_schema : FnSchema;
  sn_daemon : bool;
  sn_operator_name : string;
  sn_operator_type : OperatorType;
  sn_fn_creator : FunctionCreator
}.

Record StreamEdge := mkStreamEdge {
  se_edge_id : string;
  se_source_id : OperatorId;
  se_target_id : OperatorId
}.

(** [stream_nodes] and [sinks] stay empty: the code never fills them. *)
Record RawStreamGraph := mkRawGraph {
  stream_nodes : list NodeIndex;
  stream_edges : list EdgeIndex;
  id_gen : OperatorId;
  operators : gmap OperatorId (NodeIndex * StreamOperator);
  sources : list NodeIndex;
  user_sources : list NodeIndex;
  sinks : list NodeIndex;
  dag : Dag StreamNode StreamEdge
}.

Definition RawStreamGraph_new : RawStreamGraph := mkRawGraph [] [] 0 ∅ [] [] [] Dag_new.

Definition create_virtual_flat_map (parallelism : Z) : StreamOperator :=
  StreamFlatMap (mkOperator parallelism System KeyedStateFlatMapFunction).
Definition create_virtual_source (parallelism : Z) : StreamOperator :=
  StreamSource (mkOperator parallelism System SystemInputFormat).
Definition create_virtual_sink (parallelism : Z) : StreamOperator :=
  StreamSink (mkOperator parallelism System SystemOutputFormat).

(** [self.operators.get(id).unwrap()], then the node. *)
Definition operator_node (g : RawStreamGraph) (id : OperatorId) : res DagError StreamNode :=
  let* (i, _) := unwrap "called `Option::unwrap()` on a `None` value" (operators g !! id) in
  dag_index (dag g) i.

(** The schema the last parent puts out. *)
Definition parent_schema (g : RawStreamGraph) (parent_operator_ids : list OperatorId) : res DagError FnSchema :=
  match last parent_operator_ids with
  | None => Ok FnSchema_Empty
  | Some p => let* n := operator_node g p in Ok (sn_output_schema n)
  end.

(** One round of the loop over the parents. *)
Definition add_parent_edge (operators : gmap OperatorId (NodeIndex * StreamOperator)) (node_index : NodeIndex) (id : OperatorId)
    (s : Dag StreamNode StreamEdge * list EdgeIndex) (parent : OperatorId)
    : res DagError (Dag StreamNode StreamEdge * list EdgeIndex) :=
  let '(g, es) := s in
  let* (p_node_index, _) := ok_or (operators !! parent) ParentOperatorNotFound in
  let* p := dag_index g p_node_index in
  let edge := mkStreamEdge (pretty (sn_id p) +:+ "->" +:+ pretty id) (sn_id p) id in
  match add_edge g p_node_index node_index edge with
  | Ok (edge_index, g) => Ok (g, es ++ [edge_index])
  | _ => Panic "called `Result::unwrap()` on an `Err` value"
  end.

(** [add_operator0]. A failure leaves the graph half changed, and the only caller
    panics on it. *)
Definition add_operator0 (g : RawStreamGraph) (operator : StreamOperator) (parent_operator_ids : list OperatorId)
    (parallelism : Z) : res DagError (RawStreamGraph * OperatorId) :=
  let operator_id := id_gen g in
  let id_gen := wrap_u 32 (id_gen g + 1) in
  let* input_schema := parent_schema g parent_operator_ids in
  let* output_schema := unwrap "schema" (operator_schema operator input_schema) in
  let stream_node := mkStreamNode operator_id parent_operator_ids parallelism input_schema output_schema
    (is_daemon operator) (operator_name operator) (OperatorType_from operator) (operator_fn_creator operator) in
  let* (node_index, d) := unwrap "graph is full" (add_node (dag g) stream_node) in
  let* (d, es) := foldM (add_parent_edge (operators g) node_index operator_id) (d, stream_edges g) parent_operator_ids in
  let '(srcs, user_srcs) :=
    if is_source operator then
      (sources g ++ [node_index], if decide (length parent_operator_ids = 0%nat) then user_sources g ++ [node_index] else user_sources g)
    else (sources g, user_sources g) in
  Ok (mkRawGraph (stream_nodes g) es id_gen (<[operator_id := (node_index, operator)]> (operators g))
        srcs user_srcs (sinks g) d, operator_id).

Definition check_operator (operator_type parent_operator_type : OperatorType) : res DagError bool :=
  match parent_operator_type with
  | OT_Source | OT_FlatMap | OT_Filter | OT_WatermarkAssigner =>
      match operator_type with
      | OT_FlatMap | OT_Filter | OT_WatermarkAssigner | OT_KeyBy | OT_Sink => Ok true
      | OT_Source => Err SourceNotAtStarting
      | _ => Ok false
      end
  | OT_CoProcess =>
      match operator_type with OT_KeyBy => Ok true | OT_Source => Err SourceNotAtStarting | _ => Ok false end
  | OT_KeyBy => match operator_type with OT_Source => Err SourceNotAtStarting | _ => Ok false end
  | OT_WindowAssigner =>
      match operator_type with OT_Reduce => Ok true | OT_Source => Err SourceNotAtStarting | _ => Ok false end
  | OT_Reduce => match operator_type with OT_Source => Err SourceNotAtStarting | _ => Ok false end
  | OT_Sink => Err SinkNotAtEnding
  end.

Definition is_pipeline (operator_type : OperatorType) (parallelism : Z) (p_operator_type : OperatorType) (p_parallelism : Z)
    : res DagError bool :=
  if decide (p_operator_type = OT_WindowAssigner /\ operator_type = OT_Reduce) then Ok true
  else
    let* pipeline_ip := check_operator operator_type p_operator_type in
    Ok (pipeline_ip && ((parallelism =? p_parallelism) || (parallelism =? DEFAULT_PARALLELISM))).

Definition is_reduce_parent (g : RawStreamGraph) (parent_id : OperatorId) : res DagError bool :=
  let* (_, operator) := unwrap "called `Option::unwrap()` on a `None` value" (operators g !! parent_id) in
  Ok (bool_decide (OperatorType_from operator = OT_Reduce)).

(** The loop of the multi-parent case: a virtual sink per parent. *)
Definition connect_step (s : RawStreamGraph * list OperatorId * option OperatorId * Z) (p_operator_id : OperatorId)
    : res DagError (RawStreamGraph * list OperatorId * option OperatorId * Z) :=
  let '(g, new_p_operator_ids, p_reduce_operator_id, _) := s in
  let* p := operator_node g p_operator_id in
  let parent_is_reduce := bool_decide (sn_operator_type p = OT_Reduce) in
  let p_parallelism := sn_parallelism p in
  let* (g, vir_operator_id) := add_operator0 g (create_virtual_sink 0) [p_operator_id] p_parallelism in
  if parent_is_reduce then Ok (g, new_p_operator_ids, Some vir_operator_id, p_parallelism)
  else Ok (g, new_p_operator_ids ++ [vir_operator_id], p_reduce_operator_id, p_parallelism).

Definition add_operator (g : RawStreamGraph) (operator : StreamOperator) (parent_operator_ids : list OperatorId)
    : res DagError (RawStreamGraph * OperatorId) :=
  let parallelism := operator_parallelism operator in
  let operator_type := OperatorType_from operator in
  match parent_operator_ids with
  | [] => if decide (operator_type <> OT_Source) then Err SourceNotFound
          else add_operator0 g operator parent_operator_ids parallelism
  | [p_operator_id] =>
      let* p := operator_node g p_operator_id in
      let p_parallelism := sn_parallelism p in
      let* pipeline := is_pipeline operator_type parallelism (sn_operator_type p) p_parallelism in
      if pipeline : bool then
        add_operator0 g operator parent_operator_ids (Z.max parallelism p_parallelism)
      else
        let* (g, vir_operator_id) := add_operator0 g (create_virtual_sink p_parallelism) [p_operator_id] p_parallelism in
        let* (g, vir_operator_id) := add_operator0 g (create_virtual_source parallelism) [vir_operator_id] parallelism in
        let* reduce_parent := is_reduce_parent g p_operator_id in
        let* (g, vir_operator_id) :=
          if reduce_parent : bool then add_operator0 g (create_virtual_flat_map parallelism) [vir_operator_id] parallelism
          else Ok (g, vir_operator_id) in
        add_operator0 g operator [vir_operator_id] parallelism
  | _ =>
      if decide (operator_type <> OT_CoProcess) then Err NotCombineOperator
      else
        let* (g, new_p_operator_ids, p_reduce_operator_id, left_parent_parallelism) :=
          foldM connect_step (g, [], None, 0) parent_operator_ids in
        match p_reduce_operator_id with
        | Some p_reduce_operator_id =>
            let p := left_parent_parallelism in
            let* (g, vir_operator_id) := add_operator0 g (create_virtual_source p) [p_reduce_operator_id] p in
            let* (g, vir_operator_id) := add_operator0 g (create_virtual_flat_map p) [vir_operator_id] p in
            let* (g, vir_operator_id) := add_operator0 g (create_virtual_sink p) [vir_operator_id] p in
            let new_p_operator_ids := new_p_operator_ids ++ [vir_operator_id] in
            let* (g, vir_operator_id) := add_operator0 g (create_virtual_source p) new_p_operator_ids p in
            add_operator0 g operator [vir_operator_id] p
        | None =>
            let* (g, vir_operator_id) := add_operator0 g (create_virtual_source 0) new_p_operator_ids parallelism in
            add_operator0 g operator [vir_operator_id] parallelism
        end
  end.

(** [StreamManager::add_operator]: an error panics. *)
Definition manager_add_operator (g : RawStreamGraph) (operator : StreamOperator) (parent_operator_ids : list OperatorId)
    : res DagError (RawStreamGraph * OperatorId) :=
  match add_operator g operator parent_operator_ids with
  | Err _ => Panic "add operator error"
  | r => r
  end.

(** ** The stream API

    A handle is the typed stream the user holds: the operator it ends in. *)
Inductive Handle : Type :=
  | H_Data (id : OperatorId)
  | H_Keyed (id : OperatorId)
  | H_Windowed (id : OperatorId)
  | H_Connected (id : OperatorId).

Definition handle_id (h : Handle) : OperatorId :=
  match h with H_Data id | H_Keyed id | H_Windowed id | H_Connected id => id end.

(** [CoStream]: what [connect] takes beside the left stream. *)
Inductive CoStream : Type := Co_Data (id : OperatorId) | Co_Keyed (id : OperatorId).

Definition co_handle (c : CoStream) : Handle :=
  match c with Co_Data id => H_Data id | Co_Keyed id => H_Keyed id end.

(** The calls of the API with the streams they are made on. *)
Inductive ApiCall : Type :=
  | register_source (f : InputFormat)
  | flat_map (id : OperatorId) (f : FlatMapFunction)
  | filter_ (id : OperatorId) (f : FilterFunction)
  | key_by (id : OperatorId) (f : KeySelectorFunction)
  | assign_timestamps_and_watermarks (id : OperatorId) (f : WatermarkStrategy)
  | connect (id : OperatorId) (data_streams : list CoStream) (f : CoProcessFunction)
  | add_sink (id : OperatorId) (f : OutputFormat)
  | connected_key_by (id : OperatorId) (f : KeySelectorFunction)
  | connected_add_sink (id : OperatorId) (f : OutputFormat)
  | window (id : OperatorId) (f : WindowAssigner)
  | keyed_add_sink (id : OperatorId) (f : OutputFormat)
  | reduce (id : OperatorId) (f : ReduceFunction).

(** The streams a call takes by value. [connect] puts its own stream last. *)
Definition consumes (c : ApiCall) : list Handle :=
  match c with
  | register_source _ => []
  | flat_map id _ | filter_ id _ | key_by id _ | assign_timestamps_and_watermarks id _ | add_sink id _ => [H_Data id]
  | connect id data_streams _ => (co_handle <$> data_streams) ++ [H_Data id]
  | connected_key_by id _ | connected_add_sink id _ => [H_Connected id]
  | window id _ | keyed_add_sink id _ => [H_Keyed id]
  | reduce id _ => [H_Windowed id]
  end.

(** The operator it adds, and the stream it returns. *)
Definition call_operator (c : ApiCall) : StreamOperator :=
  match c with
  | register_source f => new_source (if_parallelism f) User f
  | flat_map _ f => new_map f
  | filter_ _ f => new_filter f
  | key_by _ f | connected_key_by _ f => new_key_by f
  | assign_timestamps_and_watermarks _ f => new_watermark_assigner f
  | connect _ _ f => new_co_process f
  | add_sink _ f | connected_add_sink _ f | keyed_add_sink _ f => new_sink User f
  | window _ f => new_window_assigner f
  | reduce _ f => new_reduce (rf_parallelism f) (mkBaseReduce "WindowBaseReduceFunction" (rf_schema f))
  end.

Definition call_returns (c : ApiCall) (id : OperatorId) : list Handle :=
  match c with
  | register_source _ | flat_map _ _ | filter_ _ _ | assign_timestamps_and_watermarks _ _ | reduce _ _ => [H_Data id]
  | key_by _ _ | connected_key_by _ _ => [H_Keyed id]
  | connect _ _ _ => [H_Connected id]
  | window _ _ => [H_Windowed id]
  | add_sink _ _ | connected_add_sink _ _ | keyed_add_sink _ _ => []
  end.

Definition run_call (c : ApiCall) (g : RawStreamGraph) : res DagError (RawStreamGraph * list Handle) :=
  let* (g, id) := manager_add_operator g (call_operator c) (handle_id <$> consumes c) in
  Ok (g, call_returns c id).

(** A program makes calls on the streams it holds. *)
Inductive api_step : RawStreamGraph * list Handle -> RawStreamGraph * list Handle -> Prop :=
  | api_call c g g' live rest out :
      live ≡ₚ consumes c ++ rest ->
      in_u 16 (operator_parallelism (call_operator c)) ->
      run_call c g = Ok (g', out) ->
      api_step (g, live) (g', out ++ rest).

Definition built (g : RawStreamGraph) (live : list Handle) : Prop :=
  rtc api_step (RawStreamGraph_new, []) (g, live).

(** ** The graph as a list of nodes

    What the later stages need of a node: its type, its parallelism and the
    indices of its parents. *)
Record ANode := mkANode { a_type : OperatorType; a_par : Z; a_parents : list nat }.

Definition abs_node (n : StreamNode) : ANode :=
  mkANode (sn_operator_type n) (sn_parallelism n) (Z.to_nat <$> sn_parent_ids n).

Definition abs (g : RawStreamGraph) : list ANode := abs_node <$> raw_nodes (dag g).

(** The bookkeeping of the graph: ids are positions, the operators and the
    sources are those of the nodes, the edges are the parents. *)
Record raw_inv (g : RawStreamGraph) : Prop := {
  ri_gen : id_gen g = Z.of_nat (length (raw_nodes (dag g))) /\ Z.of_nat (length (raw_nodes (dag g))) <= 2 ^ 32 - 1;
  ri_ids : forall i n, raw_nodes (dag g) !! i = Some n -> sn_id n = Z.of_nat i;
  ri_ops : forall i n, raw_nodes (dag g) !! i = Some n ->
    exists op, operators g !! Z.of_nat i = Some (i, op) /\ OperatorType_from op = sn_operator_type n;
  ri_dom : forall id v, operators g !! id = Some v -> 0 <= id < Z.of_nat (length (raw_nodes (dag g)));
  ri_parents : forall i n, raw_nodes (dag g) !! i = Some n ->
    sn_parent_ids n = (fun e => Z.of_nat (e_source e)) <$> filter (fun e => e_target e = i) (raw_edges (dag g));
  ri_edges : Forall (fun e => (e_source e < e_target e < length (raw_nodes (dag g)))%nat) (raw_edges (dag g));
  ri_sources : sources g = filter (fun i => a_type <$> abs g !! i = Some OT_Source) (seq 0 (length (raw_nodes (dag g))));
  ri_length : length (raw_edges (dag g)) = length (concat (a_parents <$> abs g))
}.

Lemma raw_inv_new : raw_inv RawStreamGraph_new.
Proof.
  split; unfold abs; simpl; rewrite ?raw_nodes_new, ?raw_edges_new; simpl; try done; intros; set_solver.
Qed.

Lemma operator_node_ok g id : raw_inv g ->
  match operator_node g id with
  | Ok n => exists i, id = Z.of_nat i /\ raw_nodes (dag g) !! i = Some n
  | Err _ => False
  | Panic _ => operators g !! id = None
  end.
Proof.
  intros Hg. unfold operator_node, dag_index. destruct (operators g !! id) as [[i op]|] eqn:E; simpl; [|done].
  pose proof (ri_dom g Hg _ _ E) as Hid.
  destruct (lookup_lt_is_Some_2 (raw_nodes (dag g)) (Z.to_nat id)) as [n Hn]; [lia|].
  destruct (ri_ops g Hg _ _ Hn) as (op' & Hop & _). rewrite Z2Nat.id in Hop by lia. simplify_eq.
  rewrite Hn. simpl. exists (Z.to_nat id). split; [lia|done].
Qed.

Lemma add_parent_edges_inv ops ni id ps : forall d es d' es',
  (forall p v, ops !! p = Some v -> p = Z.of_nat v.1) ->
  foldM (add_parent_edge ops ni id) (d, es) ps = Ok (d', es') ->
  raw_nodes d' = raw_nodes d /\ (forall p, p ∈ ps -> is_Some (ops !! p)) /\
  exists new, raw_edges d' = raw_edges d ++ new /\ (fun e => Z.of_nat (e_source e)) <$> new = ps /\
    Forall (fun e => e_target e = ni) new.
Proof.
  induction ps as [|p ps IH]; intros d es d' es' Hops H; simpl in H; simplify_eq.
  { split_and!; [done|set_solver|]. exists []. by rewrite app_nil_r. }
  unfold ok_or in H. destruct (ops !! p) as [[i op]|] eqn:Ep; [|done]. simpl in H.
  unfold dag_index in H. destruct (raw_nodes d !! i) as [n|] eqn:Ei; [|done]. simpl in H.
  destruct (add_edge d i ni _) as [[ei d1]| |] eqn:Ea; try done. simpl in H.
  apply add_edge_inv in Ea as (_ & Hn & He & _ & _).
  destruct (IH _ _ _ _ Hops H) as (Hn' & Hps & new & He' & Hsrc & Htgt).
  apply Hops in Ep as Hp. simpl in Hp. split_and!; [congruence|set_solver|].
  eexists (_ :: new). rewrite He', He, <- app_assoc. split; [done|].
  rewrite fmap_cons, Hsrc. simpl. split; [by rewrite <- Hp|]. by constructor.
Qed.

Lemma ri_ops_index g id v : raw_inv g -> operators g !! id = Some v -> id = Z.of_nat v.1.
Proof.
  intros Hg Hv. pose proof (operator_node_ok g id Hg) as Hn. unfold operator_node in Hn. rewrite Hv in Hn.
  destruct v as [i op]. simpl in Hn. unfold dag_index in Hn.
  pose proof (ri_dom g Hg _ _ Hv) as Hid.
  destruct (lookup_lt_is_Some_2 (raw_nodes (dag g)) (Z.to_nat id)) as [n Hl]; [lia|].
  destruct (ri_ops g Hg _ _ Hl) as (op' & Hop & _). rewrite Z2Nat.id in Hop by lia. simplify_eq. simpl. lia.
Qed.

Lemma length_abs g : length (abs g) = length (raw_nodes (dag g)).
Proof. apply length_fmap. Qed.

(** The bookkeeping after a node and its edges are appended. *)
Lemma raw_inv_append g g' nd new op :
  raw_inv g -> has_room (raw_nodes (dag g)) ->
  raw_nodes (dag g') = raw_nodes (dag g) ++ [nd] -> raw_edges (dag g') = raw_edges (dag g) ++ new ->
  id_gen g' = wrap_u 32 (id_gen g + 1) ->
  operators g' = <[id_gen g := (length (raw_nodes (dag g)), op)]> (operators g) ->
  sources g' = (if is_source op then sources g ++ [length (raw_nodes (dag g))] else sources g) ->
  sn_id nd = id_gen g -> sn_operator_type nd = OperatorType_from op ->
  (fun e => Z.of_nat (e_source e)) <$> new = sn_parent_ids nd ->
  Forall (fun e => e_target e = length (raw_nodes (dag g))) new ->
  Forall (fun p => 0 <= p < Z.of_nat (length (raw_nodes (dag g)))) (sn_parent_ids nd) ->
  raw_inv g'.
Proof.
  intros Hg Hroom Hn He Hgen Hops Hsrcs Hid Hty Hsrc Htgt Hrange. unfold has_room in Hroom.
  destruct (ri_gen g Hg) as [Hgen0 Hle].
  assert (length (raw_nodes (dag g')) = S (length (raw_nodes (dag g)))) as Hlen by (rewrite Hn, length_app; simpl; lia).
  assert (abs g' = abs g ++ [abs_node nd]) as Habs by (unfold abs; by rewrite Hn, fmap_app).
  split.
  - rewrite Hgen, Hlen, Hgen0, wrap_u_small by (unfold in_u; lia). lia.
  - intros i n. rewrite Hn, lookup_snoc_Some. intros [[_ Hi]|[-> <-]]; [by apply (ri_ids g Hg)|congruence].
  - intros i n. rewrite Hn, lookup_snoc_Some, Hops. intros [[Hlt Hi]|[-> <-]].
    + rewrite lookup_insert_ne by lia. by apply (ri_ops g Hg).
    + rewrite Hgen0, lookup_insert_eq. eauto.
  - intros id v. rewrite Hops, Hlen. intros [[<- _]|[_ Hv]]%lookup_insert_Some; [lia|]. apply (ri_dom g Hg) in Hv. lia.
  - intros i n. rewrite Hn, lookup_snoc_Some, He, filter_app, fmap_app. intros [[Hlt Hi]|[-> <-]].
    + rewrite (filter_none _ new), app_nil_r; [by apply (ri_parents g Hg)|].
      eapply Forall_impl; [done|]. intros e ->. simpl. lia.
    + rewrite (filter_none _ (raw_edges (dag g))), (filter_all _ new), Hsrc; [done|done|].
      eapply Forall_impl; [apply (ri_edges g Hg)|]. intros e. simpl. lia.
  - rewrite He, Hlen. apply Forall_app; split.
    + eapply Forall_impl; [apply (ri_edges g Hg)|]. intros e. simpl. lia.
    + rewrite <- Hsrc in Hrange. rewrite Forall_fmap in Hrange. rewrite Forall_forall in *.
      intros e Hin. rewrite (Htgt e Hin). specialize (Hrange e Hin). simpl in Hrange. lia.
  - rewrite Hsrcs, Hlen, seq_S, filter_app, (ri_sources g Hg), <- length_abs. simpl.
    assert (abs g' !! length (abs g) = Some (abs_node nd)) as Hlast by (by rewrite Habs, list_lookup_middle).
    assert (filter (fun i => a_type <$> abs g !! i = Some OT_Source) (seq 0 (length (abs g))) =
            filter (fun i => a_type <$> abs g' !! i = Some OT_Source) (seq 0 (length (abs g)))) as ->.
    { apply filter_ext_in. intros i [_ Hi]%elem_of_seq. simpl in Hi. by rewrite Habs, lookup_app_l. }
    rewrite (filter_cons _ _ []), Hlast. simpl. rewrite Hty.
    destruct op; simpl; by rewrite ?filter_nil, ?app_nil_r.
  - rewrite He, Habs, fmap_app, concat_app, !length_app, (ri_length g Hg). simpl. rewrite app_nil_r, length_fmap.
    by rewrite <- Hsrc, length_fmap.
Qed.

(** Adding one operator appends one node to the list. *)
Lemma add_operator0_inv g op ps par g' id :
  raw_inv g -> add_operator0 g op ps par = Ok (g', id) ->
  raw_inv g' /\ id = Z.of_nat (length (abs g)) /\
  abs g' = abs g ++ [mkANode (OperatorType_from op) par (Z.to_nat <$> ps)] /\
  Forall (fun p => 0 <= p < Z.of_nat (length (abs g))) ps.
Proof.
  intros Hg H. unfold add_operator0 in H.
  destruct (parent_schema g ps) as [a| |]; try done. simpl in H.
  destruct (operator_schema op a) as [out|]; [|done]. simpl in H.
  set (nd := mkStreamNode _ _ _ _ _ _ _ _ _) in H.
  destruct (add_node (dag g) nd) as [[ni d]|] eqn:Ea; [|done]. simpl in H.
  assert (has_room (raw_nodes (dag g))) as Hroom by (apply (add_node_room _ _ _ nd); by eexists).
  apply add_node_inv in Ea as (Hni & Hnd & Hed).
  destruct (foldM _ (d, stream_edges g) ps) as [[d' es']| |] eqn:Ef; try done. simpl in H.
  apply add_parent_edges_inv in Ef as (Hn' & Hps & new & He' & Hsrc & Htgt); [|intros; by eapply ri_ops_index].
  assert (Forall (fun p => 0 <= p < Z.of_nat (length (abs g))) ps) as Hrange.
  { rewrite Forall_forall. intros p Hp. destruct (Hps p Hp) as [v Hv]. rewrite length_abs. by apply (ri_dom g Hg) in Hv. }
  assert (raw_nodes (dag g') = raw_nodes (dag g) ++ [nd] /\ raw_edges (dag g') = raw_edges (dag g) ++ new /\
    id = id_gen g /\ id_gen g' = wrap_u 32 (id_gen g + 1) /\ operators g' = <[id_gen g := (ni, op)]> (operators g) /\
    sources g' = if is_source op then sources g ++ [ni] else sources g) as (Hnodes & Hedges & -> & Hgen' & Hops & Hsrcs).
  { destruct (is_source op); simplify_eq; simpl; split_and!; congruence. }
  subst ni. split_and!.
  - eapply (raw_inv_append g g' nd new op); try done. by rewrite <- length_abs.
  - rewrite length_abs. apply (ri_gen g Hg).
  - unfold abs. by rewrite Hnodes, fmap_app.
  - done.
Qed.

(** ** The shape of the graph *)

(** A source fed by the virtual sink behind a key-by operator. *)
Definition keyed_source (l : list ANode) (b : ANode) : Prop :=
  a_type b = OT_Source /\ exists s sn k kn,
    a_parents b = [s] /\ l !! s = Some sn /\ a_type sn = OT_Sink /\
    a_parents sn = [k] /\ l !! k = Some kn /\ a_type kn = OT_KeyBy.

(** The parents a node may have: a source has sinks, every other node has one
    parent in its own job, of its own parallelism unless it is a reduction. Only a
    co-process operator comes behind a source with several parents, and only a sink
    behind a key-by operator. *)
Definition node_ok (l : list ANode) (a : ANode) : Prop :=
  if decide (a_type a = OT_Source) then
    Forall (fun p => a_type <$> l !! p = Some OT_Sink) (a_parents a)
  else exists p b, a_parents a = [p] /\ l !! p = Some b /\ a_type b <> OT_Sink /\
    (a_par a = a_par b \/ a_type a = OT_Reduce /\ a_par b <= a_par a) /\
    (a_type a = OT_Reduce -> a_type b = OT_WindowAssigner) /\
    (a_type a = OT_WindowAssigner -> keyed_source l b) /\
    ((length (a_parents b) <= 1)%nat \/ a_type a = OT_CoProcess) /\
    (a_type b = OT_KeyBy -> a_type a = OT_Sink).

(** The node comes right behind a key-by operator. *)
Definition behind_key (l : list ANode) (i : nat) : Prop :=
  exists a p b, l !! i = Some a /\ p ∈ a_parents a /\ l !! p = Some b /\ a_type b = OT_KeyBy.

(** [live] are the nodes whose child is still to come: no node has two children,
    and every node that is not a sink is live or has one, and so is the sink behind a
    key-by operator. *)
Record shape (l : list ANode) (live : list nat) : Prop := {
  sh_nodup : NoDup (live ++ concat (a_parents <$> l));
  sh_live : forall i, i ∈ live -> (i < length l)%nat;
  sh_cover : forall i a, l !! i = Some a -> a_type a <> OT_Sink -> i ∈ live ++ concat (a_parents <$> l);
  sh_keyed : forall i, behind_key l i -> i ∈ live ++ concat (a_parents <$> l);
  sh_order : forall i a p, l !! i = Some a -> p ∈ a_parents a -> (p < i)%nat;
  sh_nodes : forall i a, l !! i = Some a -> node_ok l a;
  sh_par : forall i a, l !! i = Some a -> in_u 16 (a_par a)
}.

Lemma node_ok_app l l' a : node_ok l a -> node_ok (l ++ l') a.
Proof.
  unfold node_ok, keyed_source. case_decide as Ht.
  - intros Hp. eapply Forall_impl; [done|]. intros p Hs. simpl in *.
    destruct (l !! p) eqn:E; [|done]. by rewrite (lookup_app_l_Some _ _ _ _ E).
  - intros (p & b & Hp & Hb & Hrest). exists p, b. rewrite (lookup_app_l_Some _ _ _ _ Hb).
    destruct Hrest as (? & ? & ? & Hk & ? & ?). split_and!; try done. intros Hw. destruct (Hk Hw) as (? & s & sn & k & kn & ? & Hs & ? & ? & Hk' & ?).
    split; [done|]. exists s, sn, k, kn. by rewrite (lookup_app_l_Some _ _ _ _ Hs), (lookup_app_l_Some _ _ _ _ Hk').
Qed.

Lemma shape_lt l live : shape l live -> forall x, x ∈ live ++ concat (a_parents <$> l) -> (x < length l)%nat.
Proof.
  intros Hs x. rewrite elem_of_app. intros [Hx|Hx]; [by apply (sh_live _ _ Hs)|].
  apply list_elem_of_In, in_concat in Hx as (ps & Hin & Hx). apply list_elem_of_In in Hin. apply list_elem_of_In in Hx.
  apply list_elem_of_fmap in Hin as (b & -> & Hb). apply list_elem_of_lookup in Hb as [j Hj].
  apply (sh_order _ _ Hs _ _ _ Hj) in Hx. apply lookup_lt_Some in Hj. lia.
Qed.

Lemma behind_key_snoc l a live i : shape l live -> (i < length l)%nat -> behind_key (l ++ [a]) i -> behind_key l i.
Proof.
  intros Hs Hi (b & p & c & Hb & Hp & Hc & Ht). rewrite lookup_app_l in Hb by done. pose proof (sh_order _ _ Hs _ _ _ Hb Hp) as Hlt.
  rewrite lookup_app_l in Hc by lia. by exists b, p, c.
Qed.

Lemma shape_append l live a rest :
  shape l live -> live ≡ₚ a_parents a ++ rest -> node_ok l a -> in_u 16 (a_par a) ->
  shape (l ++ [a]) (length l :: rest).
Proof.
  intros Hs Hlive Ha Hpar.
  assert (forall p, p ∈ a_parents a -> (p < length l)%nat) as Hps.
  { intros p Hp. apply (sh_live _ _ Hs). rewrite Hlive. set_solver. }
  assert (concat (a_parents <$> (l ++ [a])) = concat (a_parents <$> l) ++ a_parents a) as Hc.
  { rewrite fmap_app, concat_app. simpl. by rewrite app_nil_r. }
  assert (forall x, x ∈ rest ++ concat (a_parents <$> l) ++ a_parents a <-> x ∈ live ++ concat (a_parents <$> l)) as Hperm.
  { intros x. rewrite Hlive. set_solver. }
  pose proof (shape_lt l live Hs) as Hlt.
  split.
  - rewrite Hc. simpl. apply NoDup_cons. split.
    + rewrite Hperm. intros Hx%Hlt. lia.
    + pose proof (sh_nodup _ _ Hs) as Hnd. rewrite Hlive in Hnd.
      by rewrite (Permutation_app_comm (concat _)), app_assoc, (Permutation_app_comm rest).
  - intros i. rewrite length_app, elem_of_cons. simpl. intros [->|Hi]; [lia|].
    assert (i ∈ live) as H%(sh_live _ _ Hs) by (rewrite Hlive; set_solver). lia.
  - intros i b. rewrite lookup_snoc_Some, Hc. intros [[_ Hi]|[-> <-]] Hty; [|set_solver].
    pose proof (sh_cover _ _ Hs _ _ Hi Hty) as Hin. rewrite <- Hperm in Hin. set_solver.
  - intros i Hi. rewrite Hc. destruct (decide (i < length l)%nat) as [Hlt'|Hge].
    + pose proof (sh_keyed _ _ Hs _ (behind_key_snoc _ _ _ _ Hs Hlt' Hi)) as Hin. rewrite <- Hperm in Hin. set_solver.
    + destruct Hi as (b & p & c & Hb & _). apply lookup_lt_Some in Hb. rewrite length_app in Hb. simpl in Hb. replace i with (length l) by lia. set_solver.
  - intros i b p. rewrite lookup_snoc_Some. intros [[_ Hi]|[-> <-]] Hp; [by eapply (sh_order _ _ Hs)|by apply Hps].
  - intros i b. rewrite lookup_snoc_Some. intros [[_ Hi]|[-> <-]]; apply node_ok_app; [by eapply (sh_nodes _ _ Hs)|done].
  - intros i b. rewrite lookup_snoc_Some. intros [[_ Hi]|[-> <-]]; [by eapply (sh_par _ _ Hs)|done].
Qed.

(** A sink need not get a child. *)
Lemma shape_drop_sink l i live :
  shape l (i :: live) -> a_type <$> l !! i = Some OT_Sink -> ~ behind_key l i -> shape l live.
Proof.
  intros Hs Hi Hkey. pose proof (sh_nodup _ _ Hs) as Hnd. apply NoDup_cons in Hnd as [_ Hnd]. split; try apply Hs; [done|..].
  - intros j Hj. apply (sh_live _ _ Hs). by right.
  - intros j a Hj Hty. pose proof (sh_cover _ _ Hs _ _ Hj Hty) as Hin. simpl in Hin.
    apply elem_of_cons in Hin as [->|Hin]; [|done]. rewrite Hj in Hi. simpl in Hi. by simplify_eq.
  - intros j Hj. pose proof (sh_keyed _ _ Hs _ Hj) as Hin. simpl in Hin. apply elem_of_cons in Hin as [->|Hin]; done.
Qed.

Lemma shape_perm l live live' : live ≡ₚ live' -> shape l live -> shape l live'.
Proof.
  intros Hp Hs. split; try apply Hs.
  - rewrite <- Hp. apply Hs.
  - intros i. rewrite <- Hp. apply Hs.
  - intros i a Hi Hty. rewrite <- Hp. by eapply (sh_cover _ _ Hs).
  - intros i Hi. rewrite <- Hp. by eapply (sh_keyed _ _ Hs).
Qed.

(** The graph and the nodes that wait for a child. *)
Definition ginv (g : RawStreamGraph) (live : list nat) : Prop := raw_inv g /\ shape (abs g) live.

Lemma to_of_nats (l : list nat) : Z.to_nat <$> (Z.of_nat <$> l) = l.
Proof. rewrite <- list_fmap_compose. rewrite <- (list_fmap_id l) at 2. apply list_fmap_ext. intros. simpl. lia. Qed.

(** The outcome of a graph operation: a value that satisfies [P], or one of the
    two panics a program can cause: a schema function that panics, or a graph
    with no room for another node. *)
Definition fine {A} (r : res DagError A) (P : A -> Prop) : Prop :=
  match r with
  | Ok a => P a
  | Err _ => False
  | Panic m => m = "schema"%string \/ m = "graph is full"%string
  end.

Lemma fine_bind {A B} (m : res DagError A) (k : A -> res DagError B) P Q :
  fine m P -> (forall a, P a -> fine (k a) Q) -> fine (m ≫= k) Q.
Proof. destruct m; simpl; auto. Qed.

Lemma fine_mono {A} (r : res DagError A) (P Q : A -> Prop) : fine r P -> (forall a, P a -> Q a) -> fine r Q.
Proof. destruct r; simpl; auto. Qed.

Lemma fine_Ok {A} (r : res DagError A) P a : fine r P -> r = Ok a -> P a.
Proof. by intros H ->. Qed.

(** The nodes that wait and the parents so far are distinct nodes. *)
Lemma shape_count l live : shape l live -> (length live + length (concat (a_parents <$> l)) <= length l)%nat.
Proof.
  intros Hs. rewrite <- length_app. rewrite <- (length_seq (length l) 0). apply submseteq_length, NoDup_submseteq; [apply Hs|].
  intros x Hx. apply elem_of_seq. split; [lia|]. simpl. by apply (shape_lt l live).
Qed.

(** Edges to a new last node never close a cycle. *)
Lemma add_parent_edges_total g js : forall d es,
  raw_inv g -> Forall (fun i => (i < length (raw_nodes (dag g)))%nat) js ->
  length (raw_nodes d) = S (length (raw_nodes (dag g))) ->
  Forall (fun e => (e_source e < length (raw_nodes (dag g)) /\ e_source e < e_target e)%nat) (raw_edges d) ->
  Z.of_nat (length (raw_edges d) + length js) <= 2 ^ 32 - 1 ->
  is_ok (foldM (add_parent_edge (operators g) (length (raw_nodes (dag g))) (id_gen g)) (d, es) (Z.of_nat <$> js)) = true.
Proof.
  induction js as [|i js IH]; intros d es Hg Hjs Hn He Hlen; [done|]. apply Forall_cons in Hjs as [Hi Hjs].
  rewrite fmap_cons. cbn [foldM add_parent_edge].
  destruct (lookup_lt_is_Some_2 _ _ Hi) as [n Hni]. destruct (ri_ops g Hg _ _ Hni) as (op & Hop & _).
  rewrite Hop. simpl. unfold dag_index.
  destruct (lookup_lt_is_Some_2 (raw_nodes d) i) as [n' Hn']; [lia|]. rewrite Hn'. simpl.
  match goal with |- context [add_edge d i ?t ?w] => destruct (add_edge d i t w) as [[ei d1]| |] eqn:Ea; cycle 1;
    pose proof (add_edge_acyclic _ _ d i t w) as Hac; rewrite Ea in Hac; try (discriminate Hac; unfold has_room; try (simpl in Hlen; lia)) end.
  1,2: eapply (ranked_no_path _ (fun x => x)); [|done]; eapply Forall_impl; [exact He|]; simpl; lia.
  apply add_edge_inv in Ea as (_ & Hn1 & He1 & _ & _). apply IH; [done|done|congruence| |].
  - rewrite He1. apply Forall_app; split; [done|]. constructor; [simpl; lia|done].
  - rewrite He1, length_app. simpl in *. lia.
Qed.

Lemma parent_schema_ok g js : raw_inv g -> Forall (fun i => (i < length (raw_nodes (dag g)))%nat) js ->
  exists sch, parent_schema g (Z.of_nat <$> js) = Ok sch.
Proof.
  intros Hg Hjs. unfold parent_schema. rewrite fmap_last. destruct (last js) as [i|] eqn:El; simpl; [|by eexists].
  apply last_Some in El as [js' ->]. apply Forall_app in Hjs as [_ Hi]. rewrite Forall_singleton in Hi.
  destruct (lookup_lt_is_Some_2 _ _ Hi) as [n Hn]. destruct (ri_ops g Hg _ _ Hn) as (op & Hop & _).
  unfold operator_node, dag_index. rewrite Hop. simpl. rewrite Hn. simpl. by eexists.
Qed.

Lemma add_operator0_total g op js par :
  raw_inv g -> Forall (fun i => (i < length (raw_nodes (dag g)))%nat) js ->
  (length js + length (raw_edges (dag g)) <= length (raw_nodes (dag g)))%nat ->
  fine (add_operator0 g op (Z.of_nat <$> js) par) (fun _ => True).
Proof.
  intros Hg Hjs Hlen. unfold add_operator0. destruct (parent_schema_ok g js Hg Hjs) as [sch ->]. simpl.
  destruct (operator_schema op sch) as [out|]; simpl; [|by left].
  set (nd := mkStreamNode _ _ _ _ _ _ _ _ _). destruct (add_node (dag g) nd) as [[ni d]|] eqn:Ea; simpl; [|by right].
  apply add_node_inv in Ea as (-> & Hn & He). destruct (ri_gen g Hg) as [_ Hle].
  pose proof (add_parent_edges_total g js d (stream_edges g) Hg Hjs) as Ht.
  destruct (foldM _ (d, stream_edges g) _) as [[d' es']| |]; simpl in *.
  1: by destruct (is_source op).
  all: discriminate Ht; rewrite ?Hn, ?He, ?length_app; simpl; try lia; eapply Forall_impl; [apply (ri_edges g Hg)|]; simpl; lia.
Qed.

Lemma add0_many g op js par live rest :
  ginv g live -> live ≡ₚ js ++ rest -> node_ok (abs g) (mkANode (OperatorType_from op) par js) -> in_u 16 par ->
  fine (add_operator0 g op (Z.of_nat <$> js) par) (fun '(g', id) =>
    ginv g' (length (abs g) :: rest) /\ id = Z.of_nat (length (abs g)) /\
    abs g' = abs g ++ [mkANode (OperatorType_from op) par js]).
Proof.
  intros [Hr Hs] Hlive Hn Hpar.
  assert (fine (add_operator0 g op (Z.of_nat <$> js) par) (fun _ => True)) as Hf.
  { apply add_operator0_total; [done|..].
    - rewrite Forall_forall. intros i Hi. rewrite <- length_abs. apply (sh_live _ _ Hs). rewrite Hlive. set_solver.
    - pose proof (shape_count _ _ Hs) as Hc. rewrite (ri_length g Hr), <- length_abs.
      rewrite Hlive, length_app in Hc. lia. }
  destruct (add_operator0 g op _ par) as [[g' id]|e|m] eqn:E; simpl in *; [|done|done].
  apply add_operator0_inv in E as (Hr' & -> & Habs & _); [|done]. rewrite to_of_nats in Habs.
  split_and!; [|done|done]. split; [done|]. rewrite Habs. by eapply shape_append.
Qed.

Lemma add0_one g op i par rest :
  ginv g (i :: rest) -> node_ok (abs g) (mkANode (OperatorType_from op) par [i]) -> in_u 16 par ->
  fine (add_operator0 g op [Z.of_nat i] par) (fun '(g', id) =>
    ginv g' (length (abs g) :: rest) /\ id = Z.of_nat (length (abs g)) /\
    abs g' = abs g ++ [mkANode (OperatorType_from op) par [i]]).
Proof. intros. by eapply (add0_many g op [i]). Qed.

(** The node behind a single parent that is not a sink. *)
Lemma node_ok_one l t par i b :
  t <> OT_Source -> l !! i = Some b -> a_type b <> OT_Sink ->
  (par = a_par b \/ t = OT_Reduce /\ a_par b <= par) ->
  (t = OT_Reduce -> a_type b = OT_WindowAssigner) -> (t = OT_WindowAssigner -> keyed_source l b) ->
  ((length (a_parents b) <= 1)%nat \/ t = OT_CoProcess) -> (a_type b = OT_KeyBy -> t = OT_Sink) ->
  node_ok l (mkANode t par [i]).
Proof. intros. unfold node_ok. simpl. rewrite decide_False by done. by exists i, b. Qed.

Lemma node_ok_source l par ps :
  Forall (fun p => a_type <$> l !! p = Some OT_Sink) ps -> node_ok l (mkANode OT_Source par ps).
Proof. done. Qed.

(** What a call leaves behind: the old nodes with some more behind them, the last
    one of the operator's type and waiting for its child. *)
Definition grown (g g' : RawStreamGraph) (rest : list nat) (id : OperatorId) (t : OperatorType) : Prop :=
  exists i l', id = Z.of_nat i /\ abs g' = abs g ++ l' /\ ginv g' (i :: rest) /\
    (t = OT_Sink -> ~ behind_key (abs g') i) /\
    exists b, abs g' !! i = Some b /\ a_type b = t /\ (length (a_parents b) <= 1)%nat.

Lemma grown_last g g' rest t par ps l0 l1 :
  l1 = abs g ++ l0 -> ginv g' (length l1 :: rest) -> abs g' = l1 ++ [mkANode t par ps] -> (length ps <= 1)%nat ->
  (forall p b, t = OT_Sink -> p ∈ ps -> l1 !! p = Some b -> a_type b <> OT_KeyBy) ->
  grown g g' rest (Z.of_nat (length l1)) t.
Proof.
  intros -> Hg Habs Hps Hkey. exists (length (abs g ++ l0)), (l0 ++ [mkANode t par ps]).
  split_and!; [done|by rewrite Habs, <- app_assoc|done| |]; [|eexists; split; [by rewrite Habs, list_lookup_middle|done]].
  intros Ht (a & p & b & Ha & Hp & Hb & Htb). rewrite Habs in Ha, Hb. rewrite list_lookup_middle in Ha by done. injection Ha as <-. simpl in Hp.
  pose proof (sh_order _ _ (proj2 Hg) (length (abs g ++ l0)) (mkANode t par ps) p) as Hlt. rewrite Habs, list_lookup_middle in Hlt by done. specialize (Hlt eq_refl Hp).
  rewrite lookup_app_l in Hb by done. by apply (Hkey p b).
Qed.

(** The types an operator may follow in the API. *)
Definition follows (t tp : OperatorType) : Prop :=
  t <> OT_Source /\ tp <> OT_Sink /\ (t = OT_Reduce -> tp = OT_WindowAssigner) /\ (t = OT_WindowAssigner -> tp = OT_KeyBy) /\
  (tp = OT_KeyBy -> t = OT_WindowAssigner \/ t = OT_Sink).

Lemma is_pipeline_par t par tp p_par :
  0 <= p_par -> is_pipeline t par tp p_par = Ok true ->
  (Z.max par p_par = p_par \/ t = OT_Reduce /\ p_par <= Z.max par p_par) /\ tp <> OT_KeyBy.
Proof.
  intros Hp. unfold is_pipeline. case_decide as Hd; [destruct Hd as [-> ->]; split; [right; split; [done|lia]|done]|].
  destruct (check_operator t tp) as [c| |] eqn:Ec; simpl; try done. unfold DEFAULT_PARALLELISM.
  intros H. simplify_eq. apply andb_true_iff in H as [-> Hor]. apply orb_true_iff in Hor.
  split; [left; destruct Hor as [Hor|Hor]; apply Z.eqb_eq in Hor; lia|]. intros ->. by destruct t.
Qed.

Lemma is_pipeline_total t par tp p_par : t <> OT_Source -> tp <> OT_Sink -> exists b, is_pipeline t par tp p_par = Ok b.
Proof.
  intros Ht Htp. unfold is_pipeline. case_decide; [by eexists|].
  destruct tp, t; try done; by eexists.
Qed.

Lemma operator_node_at g i b : raw_inv g -> abs g !! i = Some b ->
  exists n, operator_node g (Z.of_nat i) = Ok n /\ b = abs_node n.
Proof.
  intros Hg Hb. unfold abs in Hb. rewrite list_lookup_fmap in Hb. destruct (raw_nodes (dag g) !! i) as [n|] eqn:E; [|done].
  simpl in Hb. simplify_eq. exists n. destruct (ri_ops g Hg _ _ E) as (op & Hop & _).
  unfold operator_node, dag_index. rewrite Hop. simpl. by rewrite E.
Qed.

Lemma is_reduce_parent_at g i b : raw_inv g -> abs g !! i = Some b ->
  is_reduce_parent g (Z.of_nat i) = Ok (bool_decide (a_type b = OT_Reduce)).
Proof.
  intros Hg Hb. unfold abs in Hb. rewrite list_lookup_fmap in Hb. destruct (raw_nodes (dag g) !! i) as [n|] eqn:E; [|done].
  simpl in Hb. simplify_eq. destruct (ri_ops g Hg _ _ E) as (op & Hop & Hty). unfold is_reduce_parent.
  rewrite Hop. simpl. by rewrite Hty.
Qed.

(** Run one [add_operator0] of a sequence. *)
Tactic Notation "add0" uconstr(lem) ident(g1) ident(Hg1) ident(Habs1) :=
  eapply fine_bind; [eapply lem; try done|];
  [..|let id := fresh "id" in intros [g1 id] (Hg1 & -> & Habs1); cbn [fst snd]].

Lemma add_operator_none g op live :
  ginv g live -> in_u 16 (operator_parallelism op) -> OperatorType_from op = OT_Source ->
  fine (add_operator g op []) (fun '(g', id) => grown g g' live id (OperatorType_from op)).
Proof.
  intros Hg Hpar Hty. simpl. rewrite decide_False by tauto.
  eapply fine_mono; [eapply (add0_many g op [] _ live live); [done|done|rewrite Hty; by apply node_ok_source|done]|].
  intros [g' id] (Hg' & -> & Habs). eapply (grown_last _ _ _ _ _ _ []); [by rewrite app_nil_r|done|done|simpl; lia|set_solver].
Qed.

(** The non-pipeline branch: sink, source, map behind a reduction, operator. *)
Definition add_split (g : RawStreamGraph) (op : StreamOperator) (p_operator_id : OperatorId) (parallelism p_parallelism : Z)
    : res DagError (RawStreamGraph * OperatorId) :=
  let* (g, vir_operator_id) := add_operator0 g (create_virtual_sink p_parallelism) [p_operator_id] p_parallelism in
  let* (g, vir_operator_id) := add_operator0 g (create_virtual_source parallelism) [vir_operator_id] parallelism in
  let* reduce_parent := is_reduce_parent g p_operator_id in
  let* (g, vir_operator_id) :=
    if reduce_parent : bool then add_operator0 g (create_virtual_flat_map parallelism) [vir_operator_id] parallelism
    else Ok (g, vir_operator_id) in
  add_operator0 g op [vir_operator_id] parallelism.

Lemma add_split_fine g op i b rest par :
  ginv g (i :: rest) -> in_u 16 par -> abs g !! i = Some b ->
  OperatorType_from op <> OT_Source -> a_type b <> OT_Sink -> OperatorType_from op <> OT_Reduce ->
  (OperatorType_from op = OT_WindowAssigner -> a_type b = OT_KeyBy) -> (length (a_parents b) <= 1)%nat ->
  fine (add_split g op (Z.of_nat i) par (a_par b)) (fun '(g', id) => grown g g' rest id (OperatorType_from op)).
Proof.
  intros Hg Hpar Hb Hns Hnk Hnr Hwin Hone. unfold add_split. pose proof (sh_par _ _ (proj2 Hg) _ _ Hb) as Hpb.
  add0 add0_one g1 Hg1 Habs1. { eapply node_ok_one; try done; by left. }
  assert (abs g1 !! length (abs g) = Some (mkANode OT_Sink (a_par b) [i])) as Hsink by (by rewrite Habs1, list_lookup_middle).
  add0 add0_one g2 Hg2 Habs2. { apply node_ok_source. by rewrite Forall_singleton, Hsink. }
  assert (abs g2 !! i = Some b) as Hb2 by (rewrite Habs2, Habs1; by do 2 apply lookup_app_l_Some).
  assert (abs g2 !! length (abs g1) = Some (mkANode OT_Source par [length (abs g)])) as Hsrc
    by (by rewrite Habs2, list_lookup_middle).
  rewrite (is_reduce_parent_at g2 i b (proj1 Hg2) Hb2). simpl. case_bool_decide as Hred.
  - add0 add0_one g3 Hg3 Habs3. { eapply node_ok_one; try done; by left. }
    eapply fine_mono; [eapply add0_one; try done|].
    + eapply node_ok_one; [done|by rewrite Habs3, list_lookup_middle|done|by left|done| |by left; simpl; lia|done]. intros Hw. by rewrite (Hwin Hw) in Hred.
    + intros [g4 id] (Hg4 & -> & Habs4). eapply grown_last; [by rewrite Habs3, Habs2, Habs1, <- !app_assoc|done|done|done|].
      intros p c _ ->%list_elem_of_singleton. rewrite Habs3, list_lookup_middle by done. by intros [= <-].
  - simpl. eapply fine_mono; [eapply add0_one; try done|].
    + eapply node_ok_one; [done|done|done|by left|done| |by left; simpl; lia|done]. intros Hw. split; [done|].
      exists (length (abs g)), (mkANode OT_Sink (a_par b) [i]), i, b.
      rewrite Habs2 at 1. rewrite (lookup_app_l_Some _ _ _ _ Hsink). auto 10.
    + intros [g4 id] (Hg4 & -> & Habs4). eapply grown_last; [by rewrite Habs2, Habs1, <- !app_assoc|done|done|done|].
      intros p c _ ->%list_elem_of_singleton. rewrite Hsrc. by intros [= <-].
Qed.

Lemma add_operator_one g op i b rest :
  ginv g (i :: rest) -> in_u 16 (operator_parallelism op) -> abs g !! i = Some b ->
  follows (OperatorType_from op) (a_type b) -> (length (a_parents b) <= 1)%nat ->
  fine (add_operator g op [Z.of_nat i]) (fun '(g', id) => grown g g' rest id (OperatorType_from op)).
Proof.
  intros Hg Hpar Hb (Hns & Hnk & Hred & Hwin & _) Hone. simpl.
  destruct (operator_node_at g i b (proj1 Hg) Hb) as (n & -> & ->). simpl in *.
  pose proof (sh_par _ _ (proj2 Hg) _ _ Hb) as Hp. simpl in Hp.
  destruct (is_pipeline_total (OperatorType_from op) (operator_parallelism op) (sn_operator_type n) (sn_parallelism n)) as [pl Epl];
    [done|done|]. rewrite Epl. simpl. destruct pl.
  - apply is_pipeline_par in Epl as [Hmax Hwk]; [|destruct Hp; lia].
    eapply fine_mono; [eapply add0_one; [done| |unfold in_u in *; lia]|].
    + eapply node_ok_one; [done|done|done|done|done| |by left|].
      * intros Hw. by destruct (Hwk (Hwin Hw)).
      * intros Hk. by destruct (Hwk Hk).
    + intros [g' id] (Hg' & -> & Habs). eapply (grown_last _ _ _ _ _ _ []); [by rewrite app_nil_r|done|done|simpl; lia|].
      intros p b _ ->%list_elem_of_singleton. rewrite Hb. by intros [= <-].
  - apply (add_split_fine g op i (abs_node n)); try done. intros Heq. by rewrite Heq, (Hred Heq) in Epl.
Qed.

(** ** Connecting streams *)
Definition is_sink_at (g : RawStreamGraph) (i : nat) : Prop := a_type <$> abs g !! i = Some OT_Sink.

Lemma type_at_app l l' i t : a_type <$> l !! i = Some t -> a_type <$> (l ++ l') !! i = Some t.
Proof. destruct (l !! i) as [a|] eqn:E; [|done]. by rewrite (lookup_app_l_Some _ _ _ _ E). Qed.

Lemma is_sink_at_last g' l par ps : abs g' = l ++ [mkANode OT_Sink par ps] -> is_sink_at g' (length l).
Proof. intros H. unfold is_sink_at. by rewrite H, list_lookup_middle. Qed.

(** The state of the loop over the parents: the sinks it keeps. *)
Definition connect_inv (rest : list nat) (g0 : RawStreamGraph) (js : list nat)
    (s : RawStreamGraph * list OperatorId * option OperatorId * Z) : Prop :=
  let '(g, new, red, lpar) := s in
  exists newn redn l', new = Z.of_nat <$> newn /\ red = Z.of_nat <$> redn /\ abs g = abs g0 ++ l' /\
    ginv g (newn ++ option_list redn ++ js ++ rest) /\ Forall (is_sink_at g) (newn ++ option_list redn) /\ in_u 16 lpar /\
    Forall (fun r => ~ behind_key (abs g) r) (option_list redn).

Lemma connect_step_fine rest g0 i js s :
  connect_inv rest g0 (i :: js) s -> (exists b, abs g0 !! i = Some b /\ a_type b <> OT_Sink /\ (length (a_parents b) <= 1)%nat) ->
  fine (connect_step s (Z.of_nat i)) (connect_inv rest g0 js).
Proof.
  destruct s as [[[g new0] red0] left]. intros (new & red & l' & -> & -> & Habs & Hg & Hsinks & Hl & Hkeys) (b & Hb & Hnk & Hone).
  apply (lookup_app_l_Some _ l') in Hb. rewrite <- Habs in Hb. simpl.
  destruct (operator_node_at g i b (proj1 Hg) Hb) as (n & -> & ->). simpl in *.
  pose proof (sh_par _ _ (proj2 Hg) _ _ Hb) as Hp. simpl in Hp.
  eapply fine_bind; [eapply (add0_many _ _ [i] _ _ (new ++ option_list red ++ js ++ rest)); try done|].
  { by rewrite <- !Permutation_middle. } { eapply node_ok_one; try done; by left. }
  intros [g1 id] (Hg1 & -> & Habs1). cbn [fst snd].
  assert (is_sink_at g1 (length (abs g))) as Hk by (by eapply is_sink_at_last).
  assert (Forall (is_sink_at g1) (new ++ option_list red)) as Hsinks1.
  { eapply Forall_impl; [done|]. intros j Hj. unfold is_sink_at in *. rewrite Habs1. by apply type_at_app. }
  apply Forall_app in Hsinks1 as [Hs1 Hs2].
  assert (Forall (fun r => ~ behind_key (abs g1) r) (option_list red)) as Hkeys1.
  { apply Forall_forall. intros r Hr Hb'. rewrite Forall_forall in Hkeys. apply (Hkeys r Hr). rewrite Habs1 in Hb'.
    eapply behind_key_snoc; [apply Hg|apply (sh_live _ _ (proj2 Hg)); set_solver|done]. }
  case_bool_decide as Hred; simpl.
  - exists new, (Some (length (abs g))). eexists. split_and!; [done|done|by rewrite Habs1, Habs, <- app_assoc| | |done|].
    + destruct Hg1 as [Hr1 Hsh1]. split; [done|]. destruct red as [r|]; simpl in *;
        [|eapply shape_perm; [|exact Hsh1]; by rewrite <- Permutation_middle].
      rewrite Forall_singleton in Hs2, Hkeys1. apply (shape_drop_sink _ r); [|exact Hs2|exact Hkeys1]. eapply shape_perm; [|exact Hsh1].
      rewrite <- !Permutation_middle. apply Permutation_swap.
    + apply Forall_app; split; [done|]. by apply Forall_singleton.
    + apply Forall_singleton. intros (a & p & c & Ha & Hp' & Hc & Htc). rewrite Habs1, list_lookup_middle in Ha by done. injection Ha as <-.
      apply list_elem_of_singleton in Hp' as ->. rewrite Habs1 in Hc. rewrite (lookup_app_l_Some _ _ _ _ Hb) in Hc. injection Hc as <-. simpl in Htc. congruence.
  - exists (new ++ [length (abs g)]), red. eexists. split_and!; [by rewrite fmap_app|done|by rewrite Habs1, Habs, <- app_assoc| | |done|done].
    + eapply (conj (proj1 Hg1)), shape_perm; [|apply Hg1]. rewrite <- !app_assoc. simpl. by rewrite <- !Permutation_middle.
    + rewrite !Forall_app, Forall_singleton. auto.
Qed.

Lemma connect_fold rest g0 js s :
  connect_inv rest g0 js s -> Forall (fun i => exists b, abs g0 !! i = Some b /\ a_type b <> OT_Sink /\ (length (a_parents b) <= 1)%nat) js ->
  fine (foldM connect_step s (Z.of_nat <$> js)) (connect_inv rest g0 []).
Proof.
  revert s. induction js as [|i js IH]; intros s Hs Hjs; [done|]. apply Forall_cons in Hjs as [Hi Hjs]. rewrite fmap_cons.
  change (fine (connect_step s (Z.of_nat i) ≫= fun s' => foldM connect_step s' (Z.of_nat <$> js)) (connect_inv rest g0 [])).
  eapply fine_bind; [by apply (connect_step_fine rest g0 i js)|]. intros s' Hs'. by apply IH.
Qed.

(** The tail of the multi-parent case, with a reduction among the parents. *)
Lemma connect_reduce_tail g op newn r p rest :
  OperatorType_from op = OT_CoProcess -> in_u 16 p ->
  ginv g (newn ++ r :: rest) -> Forall (is_sink_at g) (newn ++ [r]) ->
  fine (let* (g, vir_operator_id) := add_operator0 g (create_virtual_source p) [Z.of_nat r] p in
   let* (g, vir_operator_id) := add_operator0 g (create_virtual_flat_map p) [vir_operator_id] p in
   let* (g, vir_operator_id) := add_operator0 g (create_virtual_sink p) [vir_operator_id] p in
   let* (g, vir_operator_id) := add_operator0 g (create_virtual_source p) ((Z.of_nat <$> newn) ++ [vir_operator_id]) p in
   add_operator0 g op [vir_operator_id] p)
  (fun '(g', id) => grown g g' rest id OT_CoProcess).
Proof.
  intros Hty Hp Hg Hsinks. apply Forall_app in Hsinks as [Hnew Hr]. rewrite Forall_singleton in Hr.
  add0 (add0_many _ _ [r] _ _ (newn ++ rest)) g1 Hg1 Habs1.
  { by rewrite <- Permutation_middle. } { apply node_ok_source. by constructor. }
  add0 add0_one g2 Hg2 Habs2.
  { eapply node_ok_one; [done|by rewrite Habs1, list_lookup_middle|done|by left|done|done|first [by right|left; simpl; lia]|done]. }
  add0 add0_one g3 Hg3 Habs3.
  { eapply node_ok_one; [done|by rewrite Habs2, list_lookup_middle|done|by left|done|done|first [by right|left; simpl; lia]|done]. }
  change [Z.of_nat (length (abs g2))] with (Z.of_nat <$> [length (abs g2)]). rewrite <- fmap_app.
  add0 (add0_many _ _ (newn ++ [length (abs g2)]) _ _ rest) g4 Hg4 Habs4.
  { rewrite <- app_assoc. simpl. by rewrite <- Permutation_middle. }
  { apply node_ok_source, Forall_app; split; [|by constructor; [eapply is_sink_at_last|constructor]].
    eapply Forall_impl; [exact Hnew|]. intros j Hj. unfold is_sink_at in Hj.
    rewrite Habs3, Habs2, Habs1. by do 3 apply type_at_app. }
  eapply fine_mono; [eapply add0_one; try done|].
  { rewrite Hty. eapply node_ok_one; [done|by rewrite Habs4, list_lookup_middle|done|by left|done|done|first [by right|left; simpl; lia]|done]. }
  intros [g5 id] (Hg5 & -> & Habs5). rewrite Hty in Habs5. eapply grown_last; [|done|done|done|done].
  by rewrite Habs4, Habs3, Habs2, Habs1, <- !app_assoc.
Qed.

Lemma add_operator_many g op i1 i2 js rest :
  ginv g ((i1 :: i2 :: js) ++ rest) -> in_u 16 (operator_parallelism op) -> OperatorType_from op = OT_CoProcess ->
  Forall (fun i => exists b, abs g !! i = Some b /\ a_type b <> OT_Sink /\ (length (a_parents b) <= 1)%nat) (i1 :: i2 :: js) ->
  fine (add_operator g op (Z.of_nat <$> (i1 :: i2 :: js))) (fun '(g', id) => grown g g' rest id (OperatorType_from op)).
Proof.
  intros Hg Hpar Hco Hjs. unfold add_operator. rewrite !fmap_cons, decide_False, <- !fmap_cons by tauto.
  eapply fine_bind; [apply (connect_fold rest g); [|done]|].
  { exists [], None, []. rewrite app_nil_r. by split_and!. }
  intros [[[g1 new] red] left] (newn & redn & l' & -> & -> & Ha & Hg1 & Hs & Hl & _). rewrite Hco.
  assert (forall t g' id, grown g1 g' rest id t -> grown g g' rest id t) as Hgr.
  { intros t g' id (i & l'' & ? & Ha' & Hrest). exists i, (l' ++ l''). split; [done|]. split; [by rewrite Ha', Ha, <- app_assoc|done]. }
  destruct redn as [r|]; simpl in *.
  - eapply fine_mono; [by eapply connect_reduce_tail|]. intros [g' id]. apply Hgr.
  - rewrite app_nil_r in Hs. add0 (add0_many _ _ newn _ _ rest) g2 Hg2 Habs2.
    eapply fine_mono; [eapply add0_one; try done|].
    { rewrite Hco. eapply node_ok_one; [done|by rewrite Habs2, list_lookup_middle|done|by left|done|done|first [by right|left; simpl; lia]|done]. }
    intros [g3 id] (Hg3 & -> & Habs3). rewrite Hco in Habs3. apply Hgr. eapply grown_last; [|done|done|done|done]. done.
Qed.

(** ** The calls of the API *)
Definition handle_type (h : Handle) (t : OperatorType) : Prop :=
  match h with
  | H_Data _ => t = OT_Source \/ t = OT_FlatMap \/ t = OT_Filter \/ t = OT_WatermarkAssigner \/ t = OT_Reduce
  | H_Keyed _ => t = OT_KeyBy
  | H_Windowed _ => t = OT_WindowAssigner
  | H_Connected _ => t = OT_CoProcess
  end.

Definition handle_ok (l : list ANode) (h : Handle) : Prop :=
  exists i b, handle_id h = Z.of_nat i /\ l !! i = Some b /\ handle_type h (a_type b) /\ (length (a_parents b) <= 1)%nat.

Definition handle_index (h : Handle) : nat := Z.to_nat (handle_id h).

(** The graph a program has built, with the streams it still holds. *)
Record stream_graph_ok (g : RawStreamGraph) (live : list Handle) : Prop := {
  so_raw : raw_inv g;
  so_shape : shape (abs g) (handle_index <$> live);
  so_handles : Forall (handle_ok (abs g)) live
}.

Lemma handle_ok_not_sink l h : handle_ok l h ->
  exists b, l !! handle_index h = Some b /\ a_type b <> OT_Sink /\ (length (a_parents b) <= 1)%nat.
Proof.
  intros (i & b & Hid & Hb & Ht & Hone). unfold handle_index. rewrite Hid, Nat2Z.id.
  exists b. split_and!; [done| |done]. destruct h; simpl in Ht; intros He; rewrite He in Ht; naive_solver.
Qed.

Lemma handle_ok_index l h : handle_ok l h -> handle_id h = Z.of_nat (handle_index h).
Proof. intros (i & b & Hid & _). unfold handle_index. lia. Qed.

Lemma handle_ok_app l l' h : handle_ok l h -> handle_ok (l ++ l') h.
Proof. intros (i & b & Hid & Hb & Ht). exists i, b. split_and!; [done|by apply lookup_app_l_Some|apply Ht|apply Ht]. Qed.

(** The operator of a call may follow the stream it is called on. *)
Lemma call_follows c h l b :
  consumes c = [h] -> handle_ok l h -> l !! handle_index h = Some b -> follows (OperatorType_from (call_operator c)) (a_type b).
Proof.
  intros Hc Hh Hb. pose proof (handle_ok_not_sink l h Hh) as (b' & Hb' & Hns & _). simplify_eq.
  destruct Hh as (i & t & Hid & Ht & Hty & _). unfold handle_index in Hb. rewrite Hid, Nat2Z.id in Hb. simplify_eq.
  destruct c as [| | | | |id data_streams f| | | | | |]; [..|destruct data_streams as [|? [|]]| | | | | |]; simpl in *; simplify_eq;
    unfold follows; simpl; split_and!; try done; unfold handle_type in Hty; intuition congruence.
Qed.

Lemma api_add_operator c g rest :
  stream_graph_ok g (consumes c ++ rest) -> in_u 16 (operator_parallelism (call_operator c)) ->
  fine (add_operator g (call_operator c) (handle_id <$> consumes c)) (fun '(g', id) =>
    grown g g' (handle_index <$> rest) id (OperatorType_from (call_operator c))).
Proof.
  intros [Hr Hs Hh] Hpar. rewrite fmap_app in Hs. apply Forall_app in Hh as [Hc _].
  assert (handle_id <$> consumes c = Z.of_nat <$> (handle_index <$> consumes c)) as ->.
  { rewrite <- list_fmap_compose. apply list_fmap_ext. intros i h Hi. simpl. rewrite Forall_lookup in Hc. by eapply handle_ok_index, Hc. }
  destruct (consumes c) as [|h1 [|h2 hs]] eqn:Ec; rewrite ?fmap_cons in *.
  - apply add_operator_none; [exact (conj Hr Hs)|done|]. destruct c as [| | | | |? []| | | | | | ]; done.
  - rewrite Forall_singleton in Hc. destruct (handle_ok_not_sink _ _ Hc) as (b & Hb & _ & Hone).
    eapply (add_operator_one g _ (handle_index h1) b); [exact (conj Hr Hs)|done|done|by eapply call_follows|done].
  - eapply (add_operator_many g _ (handle_index h1) (handle_index h2) (handle_index <$> hs)); [exact (conj Hr Hs)|done| |].
    + destruct c; done.
    + rewrite !Forall_cons, Forall_fmap in *. destruct Hc as (H1 & H2 & Hc). split_and!; try by apply handle_ok_not_sink.
      eapply Forall_impl; [done|]. intros h. apply handle_ok_not_sink.
Qed.

(** The stream a call returns. *)
Lemma call_returns_ok c l i b :
  l !! i = Some b -> a_type b = OperatorType_from (call_operator c) -> (length (a_parents b) <= 1)%nat ->
  Forall (handle_ok l) (call_returns c (Z.of_nat i)) /\
  handle_index <$> call_returns c (Z.of_nat i) = if decide (a_type b = OT_Sink) then [] else [i].
Proof.
  intros Hi Ht Hone. unfold handle_index. rewrite Ht.
  destruct c; simpl in *; rewrite ?Nat2Z.id; (split; [|done]); try done; (constructor; [|done]); exists i, b;
    split_and!; try done; simpl; naive_solver.
Qed.

Lemma built_perm g live live' : live ≡ₚ live' -> stream_graph_ok g live -> stream_graph_ok g live'.
Proof.
  intros Hp [Hr Hs Hh]. split; [done| |by rewrite <- Hp]. eapply shape_perm; [|exact Hs]. by rewrite Hp.
Qed.


Lemma api_step_ok s s' : api_step s s' -> stream_graph_ok s.1 s.2 -> stream_graph_ok s'.1 s'.2.
Proof.
  intros [c g g' live rest out Hlive Hpar Hrun] Hok. simpl in *. unfold run_call, manager_add_operator in Hrun.
  destruct (add_operator g _ _) as [[g1 id]| |] eqn:Ea; try done. simpl in Hrun. simplify_eq.
  pose proof (built_perm _ _ _ Hlive Hok) as Hok'.
  pose proof (fine_Ok _ _ _ (api_add_operator c g rest Hok' Hpar) Ea) as (i & l' & -> & Habs & [Hr Hs] & Hkey & b & Hb & Hty & Hone).
  destruct (call_returns_ok c _ _ _ Hb Hty Hone) as (Hret & Hidx).
  split; [done| |].
  - rewrite fmap_app, Hidx. case_decide as Hsink; [|done]. eapply shape_drop_sink; [done|by rewrite Hb, <- Hsink|]. apply Hkey. congruence.
  - apply Forall_app; split; [done|]. destruct Hok' as [_ _ Hh]. apply Forall_app in Hh as [_ Hh].
    eapply Forall_impl; [exact Hh|]. intros h. rewrite Habs. apply handle_ok_app.
Qed.

Lemma built_ok g live : built g live -> stream_graph_ok g live.
Proof.
  intros H. assert (forall s s', rtc api_step s s' -> stream_graph_ok s.1 s.2 -> stream_graph_ok s'.1 s'.2) as Hind.
  { induction 1; [done|]. eauto using api_step_ok. }
  apply (Hind _ _ H). split; simpl; [apply raw_inv_new| |done].
  unfold abs. simpl. rewrite raw_nodes_new. split; simpl; try done; try set_solver; [constructor|]. intros i (a & p & b & Ha & _). done.
Qed.

(** Every call on streams the program holds succeeds, unless a schema function
    panics or the graph is full: the errors of [add_operator] are not reachable. *)
Lemma run_call_fine c g live rest :
  built g live -> live ≡ₚ consumes c ++ rest -> in_u 16 (operator_parallelism (call_operator c)) ->
  fine (run_call c g) (fun '(g', out) => stream_graph_ok g' (out ++ rest)).
Proof.
  intros Hb Hlive Hpar. pose proof (built_perm _ _ _ Hlive (built_ok _ _ Hb)) as Hok.
  pose proof (api_add_operator c g rest Hok Hpar) as Hf.
  destruct (run_call c g) as [[g' out]|e|m] eqn:E.
  - exact (api_step_ok (g, live) (g', out ++ rest) (api_call c g g' live rest out Hlive Hpar E) (built_ok _ _ Hb)).
  - unfold run_call, manager_add_operator in E. by destruct (add_operator g _ _) as [[]| |].
  - unfold run_call, manager_add_operator in E. destruct (add_operator g _ _) as [[]| |]; by simplify_eq/=.
Qed.

(** ** Children *)
Lemma abs_parents g i a : raw_inv g -> abs g !! i = Some a ->
  a_parents a = e_source <$> filter (fun e => e_target e = i) (raw_edges (dag g)).
Proof.
  intros Hg Ha. unfold abs in Ha. rewrite list_lookup_fmap in Ha. destruct (raw_nodes (dag g) !! i) as [n|] eqn:E; [|done].
  simpl in Ha. simplify_eq. simpl. rewrite (ri_parents g Hg _ _ E), <- list_fmap_compose. apply list_fmap_ext. intros. simpl. lia.
Qed.

Lemma edge_sources_perm g : raw_inv g -> e_source <$> raw_edges (dag g) ≡ₚ concat (a_parents <$> abs g).
Proof.
  intros Hg. replace (a_parents <$> abs g) with
    ((fmap e_source) <$> ((fun t => filter (fun e => e_target e = t) (raw_edges (dag g))) <$> seq 0 (length (abs g)))).
  - rewrite <- fmap_concat, group_edges, filter_all; [done|]. eapply Forall_impl; [apply (ri_edges g Hg)|].
    simpl. intros e. rewrite length_abs. lia.
  - apply list_eq. intros i. rewrite !list_lookup_fmap. destruct (abs g !! i) as [a|] eqn:E; simpl.
    + rewrite (proj2 (lookup_seq 0 (length (abs g)) i i)); [|apply lookup_lt_Some in E; lia]. simpl. f_equal. symmetry. by apply abs_parents.
    + by rewrite (lookup_seq_ge 0 (length (abs g)) i) by (by apply lookup_ge_None).
Qed.

Lemma elem_of_children g i e c : (e, c) ∈ children (dag g) i <->
  exists ed, raw_edges (dag g) !! e = Some ed /\ e_source ed = i /\ e_target ed = c.
Proof.
  rewrite children_perm, list_elem_of_fmap. split.
  - intros ([j ed] & Heq & Hin). apply elem_of_incident in Hin as [? ?]. simpl in Heq. simplify_eq. by exists ed.
  - intros (ed & He & Hs & Ht). exists (e, ed). rewrite elem_of_incident. simpl. by rewrite Ht.
Qed.

(** A node has the child that names it as a parent, and only that one. *)
Lemma children_shape g live i a : ginv g live -> abs g !! i = Some a ->
  match children (dag g) i with
  | [] => a_type a = OT_Sink \/ i ∈ live
  | [(_, c)] => i ∉ live /\ (i < c)%nat /\
      exists b, abs g !! c = Some b /\ i ∈ a_parents b /\ (a_type b = OT_Source <-> a_type a = OT_Sink)
  | _ => False
  end.
Proof.
  intros [Hg Hs] Ha. pose proof (sh_nodup _ _ Hs) as Hnd. apply NoDup_app in Hnd as (_ & Hdisj & Hnd).
  assert (length (children (dag g) i) <= 1)%nat as Hlen.
  { rewrite children_perm, length_fmap. apply incident_unique. by rewrite (edge_sources_perm g Hg). }
  destruct (children (dag g) i) as [|[e c] [|]] eqn:Ec; simpl in Hlen; [| |lia].
  - destruct (decide (a_type a = OT_Sink)) as [|Hty]; [by left|]. right.
    pose proof (sh_cover _ _ Hs _ _ Ha Hty) as Hin. apply elem_of_app in Hin as [Hin|Hin]; [done|].
    rewrite <- (edge_sources_perm g Hg) in Hin. apply list_elem_of_fmap in Hin as (ed & -> & Hed).
    apply list_elem_of_lookup in Hed as [e He]. exfalso. apply (not_elem_of_nil (e, e_target ed)).
    rewrite <- Ec. apply elem_of_children. by exists ed.
  - assert ((e, c) ∈ children (dag g) i) as (ed & He & Hsrc & Htgt)%elem_of_children by (rewrite Ec; set_solver).
    apply list_elem_of_lookup_2 in He as Hin. pose proof (ri_edges g Hg) as Hedges. rewrite Forall_forall in Hedges.
    destruct (Hedges _ Hin) as [Hlt Hc]. rewrite Hsrc, Htgt, <- length_abs in *.
    destruct (lookup_lt_is_Some_2 _ _ Hc) as [b Hb].
    assert (i ∈ a_parents b) as Hp.
    { rewrite (abs_parents g _ _ Hg Hb). apply list_elem_of_fmap. exists ed. split; [done|]. by apply list_elem_of_filter. }
    split_and!; [|done|exists b; split_and!; [done|done|]].
    + intros Hlive. apply (Hdisj i Hlive). rewrite <- (edge_sources_perm g Hg). apply list_elem_of_fmap. by exists ed.
    + pose proof (sh_nodes _ _ Hs _ _ Hb) as Hok. unfold node_ok in Hok. case_decide as Hsrc'.
      * rewrite Forall_forall in Hok. specialize (Hok _ Hp). rewrite Ha in Hok. simpl in Hok. by simplify_eq.
      * destruct Hok as (p & a' & Hps & Ha' & Hty & _). rewrite Hps in Hp. apply list_elem_of_singleton in Hp as <-. by simplify_eq.
Qed.

(** ** Running a program *)
#[global] Instance Handle_eq_dec : EqDecision Handle.
Proof. solve_decision. Defined.

(** Moving streams out of the ones the program holds. *)
Fixpoint move_one (h : Handle) (live : list Handle) : option (list Handle) :=
  match live with
  | [] => None
  | h' :: live' => if decide (h' = h) then Some live' else cons h' <$> move_one h live'
  end.

Fixpoint move_all (hs live : list Handle) : option (list Handle) :=
  match hs with
  | [] => Some live
  | h :: hs' => move_one h live ≫= move_all hs'
  end.

Lemma move_one_perm h live rest : move_one h live = Some rest -> live ≡ₚ h :: rest.
Proof.
  revert rest. induction live as [|h' live IH]; intros rest; simpl; [done|]. case_decide as Hd; intros H; simplify_eq; [done|].
  destruct (move_one h live) as [r|]; simplify_eq/=. rewrite (IH r) by done. apply Permutation_swap.
Qed.

Lemma move_all_perm hs live rest : move_all hs live = Some rest -> live ≡ₚ hs ++ rest.
Proof.
  revert live. induction hs as [|h hs IH]; intros live H; simpl in H; [by simplify_eq|].
  destruct (move_one h live) as [r|] eqn:E; simplify_eq/=. apply move_one_perm in E. rewrite E. simpl. by rewrite <- IH.
Qed.

(** The calls one after the other; using a stream that was moved does not compile
    in the source and stops here. *)
Definition run_prog_step (s : RawStreamGraph * list Handle) (c : ApiCall) : res DagError (RawStreamGraph * list Handle) :=
  match move_all (consumes c) s.2 with
  | Some rest =>
      if decide (in_u 16 (operator_parallelism (call_operator c))) then
        let* (g, out) := run_call c s.1 in Ok (g, out ++ rest)
      else Panic "not a u16"
  | None => Panic "use of moved value"
  end.

Definition run_prog (cs : list ApiCall) : res DagError (RawStreamGraph * list Handle) :=
  foldM run_prog_step (RawStreamGraph_new, []) cs.

Lemma run_prog_built cs g live : run_prog cs = Ok (g, live) -> built g live.
Proof.
  intros H. change (built (g, live).1 (g, live).2). revert H. unfold run_prog.
  apply (foldM_inv (fun s => built s.1 s.2) run_prog_step cs); [|apply rtc_refl].
  intros [g0 l0] c [g1 l1] _ Hb Hs. unfold run_prog_step in Hs. simpl in *.
  destruct (move_all _ l0) as [rest|] eqn:El; [|done]. case_decide; [|done].
  destruct (run_call c g0) as [[g' out]| |] eqn:Er; simplify_eq/=.
  eapply rtc_r; [exact Hb|]. eapply api_call; [|done|done]. by apply move_all_perm.
Qed.

(** ** What every program builds *)

(** [m] is the only parent of [n]. *)
Definition only_parent (g : RawStreamGraph) (n m : StreamNode) : Prop :=
  exists i, sn_parent_ids n = [Z.of_nat i] /\ raw_nodes (dag g) !! i = Some m.

Lemma abs_lookup g i a : abs g !! i = Some a -> exists n, raw_nodes (dag g) !! i = Some n /\ a = abs_node n.
Proof. unfold abs. rewrite list_lookup_fmap. destruct (raw_nodes (dag g) !! i) as [n|]; simpl; intros; [|done]. exists n. by simplify_eq. Qed.

Lemma only_parent_abs g i n p m : raw_inv g -> raw_nodes (dag g) !! i = Some n ->
  a_parents (abs_node n) = [p] -> raw_nodes (dag g) !! p = Some m -> only_parent g n m.
Proof.
  intros Hg Hn Hp Hm. exists p. split; [|done]. simpl in Hp. pose proof (ri_parents g Hg _ _ Hn) as Hids.
  rewrite Hids in Hp |- *. destruct (filter _ _) as [|e [|]]; simpl in *; try done. simplify_eq. by rewrite Nat2Z.id.
Qed.

(** A reduction is behind a window assigner, behind a source of its own job, which
    reads what the sink behind a key-by operator writes. *)
Lemma reduce_chain g live i n : ginv g live -> raw_nodes (dag g) !! i = Some n -> sn_operator_type n = OT_Reduce ->
  exists w s k b, only_parent g n w /\ sn_operator_type w = OT_WindowAssigner /\
    only_parent g w s /\ sn_operator_type s = OT_Source /\ only_parent g s k /\ sn_operator_type k = OT_Sink /\
    only_parent g k b /\ sn_operator_type b = OT_KeyBy.
Proof.
  intros [Hg Hs] Hn Hty.
  assert (forall j m, raw_nodes (dag g) !! j = Some m -> node_ok (abs g) (abs_node m)) as Hok.
  { intros j m Hm. apply (sh_nodes _ _ Hs j). unfold abs. by rewrite list_lookup_fmap, Hm. }
  pose proof (Hok _ _ Hn) as Hw. unfold node_ok in Hw. rewrite decide_False in Hw by (simpl; by rewrite Hty).
  destruct Hw as (p & w' & Hp & (w & Hw & ->)%abs_lookup & _ & _ & Hwin & _). specialize (Hwin Hty). simpl in Hwin.
  pose proof (Hok _ _ Hw) as Hc. unfold node_ok in Hc. rewrite decide_False in Hc by (simpl; by rewrite Hwin).
  destruct Hc as (q & s' & Hq & (s & Hsn & ->)%abs_lookup & _ & _ & _ & Hkey & _).
  destruct (Hkey Hwin) as (Hsrc & k & kn & b & bn & Hk & (kn' & Hkn & ->)%abs_lookup & Hsink & Hb & (bn' & Hbn & ->)%abs_lookup & Hkb).
  exists w, s, kn', bn'. split_and!; try done; by eapply only_parent_abs.
Qed.

(** C18: In every stream graph a program builds through the API, whatever the calls
    and their order: the id of an operator is its index; an operator that is not a
    sink and whose stream the program no longer holds has exactly one child, in the
    same job; a sink has at most one child, a source; a reduction stands behind a
    window assigner in a job that reads the output of a key-by operator. *)
Theorem stream_graph_shape g live : built g live ->
  (forall i n, raw_nodes (dag g) !! i = Some n -> sn_id n = Z.of_nat i /\
    match children (dag g) i with
    | [] => sn_operator_type n = OT_Sink \/ Z.of_nat i ∈ handle_id <$> live
    | [(_, c)] => Z.of_nat i ∉ handle_id <$> live /\ exists m, raw_nodes (dag g) !! c = Some m /\
        Z.of_nat i ∈ sn_parent_ids m /\ (sn_operator_type m = OT_Source <-> sn_operator_type n = OT_Sink)
    | _ => False
    end) /\
  (forall i n, raw_nodes (dag g) !! i = Some n -> sn_operator_type n = OT_Reduce ->
    exists w s k b, only_parent g n w /\ sn_operator_type w = OT_WindowAssigner /\
      only_parent g w s /\ sn_operator_type s = OT_Source /\ only_parent g s k /\ sn_operator_type k = OT_Sink /\
      only_parent g k b /\ sn_operator_type b = OT_KeyBy).
Proof.
  intros Hb. destruct (built_ok _ _ Hb) as [Hg Hs Hh].
  assert (forall i, Z.of_nat i ∈ handle_id <$> live <-> i ∈ handle_index <$> live) as Hlive.
  { intros i. rewrite !list_elem_of_fmap. rewrite Forall_forall in Hh.
    split; intros (h & Hi & Hin); exists h; (split; [|done]); pose proof (handle_ok_index _ _ (Hh h Hin)); unfold handle_index in *; lia. }
  split; intros i n Hn; [split; [by apply (ri_ids g Hg)|]|by apply (reduce_chain g (handle_index <$> live) i)].
  assert (abs g !! i = Some (abs_node n)) as Ha by (unfold abs; by rewrite list_lookup_fmap, Hn).
  pose proof (children_shape g _ i _ (conj Hg Hs) Ha) as Hc.
  destruct (children (dag g) i) as [|[e c] [|]]; rewrite ?Hlive; [done| |done]. destruct Hc as (? & _ & b & (m & Hm & ->)%abs_lookup & Hp & Hty).
  split; [done|]. exists m. split_and!; [done| |done]. cbn [abs_node a_parents] in Hp.
  rewrite (ri_parents g Hg _ _ Hm) in Hp |- *. apply list_elem_of_fmap in Hp as (z & -> & Hz).
  apply list_elem_of_fmap in Hz as (ed & -> & Hed). apply list_elem_of_fmap. exists ed. split; [lia|done].
Qed.

(** Every call of the API on streams the program holds succeeds and gives
    another such graph, unless one of the schema functions panics or the graph has
    no room for another node: no call reaches an error of [add_operator]. *)
Theorem api_call_total c g live rest :
  built g live -> live ≡ₚ consumes c ++ rest -> in_u 16 (operator_parallelism (call_operator c)) ->
  match run_call c g with
  | Ok (g', out) => built g' (out ++ rest)
  | Err _ => False
  | Panic m => m = "schema"%string \/ m = "graph is full"%string
  end.
Proof.
  intros Hb Hlive Hpar. pose proof (run_call_fine c g live rest Hb Hlive Hpar) as Hf.
  destruct (run_call c g) as [[g' out]| |] eqn:E; simpl in Hf; try done.
  eapply rtc_r; [exact Hb|]. by eapply api_call.
Qed.

End stream_graph.

(** ** Examples *)
#[local] Existing Instance ListDag.

Definition ex_source (par : Z) : InputFormat :=
  mkInputFormat "source" false par (fun _ => Some (FnSchema_Single Schema_empty)) (fun n => Ok (create_input_splits n)).
Definition ex_map : FlatMapFunction := mkFlatMap "map" Some.
Definition ex_key_by : KeySelectorFunction := mkKeySelector "key" Some.
Definition ex_window : WindowAssigner := mkWindowAssigner "window".
Definition ex_reduce (par : Z) : ReduceFunction := mkReduce par (fun _ => Some (FnSchema_Single Schema_empty)).
Definition ex_co : CoProcessFunction := mkCoProcess "co" (fun _ => Some (FnSchema_Single Schema_empty)).
Definition ex_sink : OutputFormat := mkOutputFormat "sink" Some.

(** A keyed aggregation. *)
Definition ex_aggregate : list ApiCall :=
  [register_source (ex_source 2); flat_map 0 ex_map; key_by 1 ex_key_by; window 2 ex_window;
   reduce 5 (ex_reduce 3); add_sink 6 ex_sink].

(** Two sources, connected. *)
Definition ex_connect : list ApiCall :=
  [register_source (ex_source 1); flat_map 0 ex_map; register_source (ex_source 1);
   connect 1 [Co_Data 2] ex_co; connected_add_sink 6 ex_sink].

Definition prog_graph (cs : list ApiCall) : RawStreamGraph :=
  match run_prog cs with Ok (g, _) => g | _ => RawStreamGraph_new end.

Definition prog_live (cs : list ApiCall) : list Handle :=
  match run_prog cs with Ok (_, l) => l | _ => [] end.

Lemma prog_built cs : is_ok (run_prog cs) = true -> built (prog_graph cs) (prog_live cs).
Proof.
  unfold prog_graph, prog_live. destruct (run_prog cs) as [[g l]| |] eqn:E; try done. intros _. by apply run_prog_built in E.
Qed.

Definition prog_nodes (cs : list ApiCall) : list (OperatorId * OperatorType * Z * list OperatorId) :=
  (fun n => (sn_id n, sn_operator_type n, sn_parallelism n, sn_parent_ids n)) <$> raw_nodes (dag (prog_graph cs)).

(** The graph of the aggregation: the virtual sink and source between key-by and
    window, and the virtual sink, source and map behind the reduction. *)
Example ex_aggregate_nodes : prog_nodes ex_aggregate =
  [(0, OT_Source, 2, []); (1, OT_FlatMap, 2, [0]); (2, OT_KeyBy, 2, [1]); (3, OT_Sink, 2, [2]);
   (4, OT_Source, 0, [3]); (5, OT_WindowAssigner, 0, [4]); (6, OT_Reduce, 3, [5]); (7, OT_Sink, 3, [6]);
   (8, OT_Source, 0, [7]); (9, OT_FlatMap, 0, [8]); (10, OT_Sink, 0, [9])].
Proof. vm_compute. reflexivity. Qed.

(** [s0.connect(vec![reduced], f)]: the left stream, which [connect] puts last,
    is the source 0; the virtual source 12 of the co-process operator has the sink
    behind the reduction as its last parent. *)
Definition ex_connect_reduce : list ApiCall :=
  [register_source (ex_source 1); register_source (ex_source 1); key_by 1 ex_key_by; window 2 ex_window;
   reduce 5 (ex_reduce 1); connect 0 [Co_Data 6] ex_co; connected_add_sink 13 ex_sink].

Lemma connect_reduce_becomes_left :
  take 8 (drop 6 (prog_nodes ex_connect_reduce)) =
  [(6, OT_Reduce, 1, [5]); (7, OT_Sink, 1, [6]); (8, OT_Sink, 1, [0]);
   (9, OT_Source, 1, [7]); (10, OT_FlatMap, 1, [9]); (11, OT_Sink, 1, [10]);
   (12, OT_Source, 1, [8; 11]); (13, OT_CoProcess, 1, [12])].
Proof. vm_compute. reflexivity. Qed.

(** Two reductions connected: the virtual sink behind the first one has no child,
    its records go nowhere. *)
Definition ex_connect_two_reduces : list ApiCall :=
  [register_source (ex_source 1); key_by 0 ex_key_by; window 1 ex_window; reduce 4 (ex_reduce 1);
   register_source (ex_source 1); key_by 6 ex_key_by; window 7 ex_window; reduce 10 (ex_reduce 1);
   connect 11 [Co_Data 5] ex_co; connected_add_sink 18 ex_sink].

Lemma connect_drops_a_reduction :
  prog_live ex_connect_two_reduces = [] /\
  take 2 (drop 12 (prog_nodes ex_connect_two_reduces)) = [(12, OT_Sink, 1, [5]); (13, OT_Sink, 1, [11])] /\
  children (dag (prog_graph ex_connect_two_reduces)) 12 = [] /\
  children (dag (prog_graph ex_connect_two_reduces)) 13 <> [].
Proof. split_and!; try (vm_compute; reflexivity). vm_compute. discriminate. Qed.

(** The reduction of the aggregation has its window assigner in front. *)
Lemma stream_graph_shape_witness :
  built (prog_graph ex_aggregate) (prog_live ex_aggregate) /\
  exists n w, raw_nodes (dag (prog_graph ex_aggregate)) !! 6%nat = Some n /\
    only_parent (prog_graph ex_aggregate) n w /\ sn_operator_type w = OT_WindowAssigner.
Proof.
  assert (built (prog_graph ex_aggregate) (prog_live ex_aggregate)) as Hb by (apply prog_built; vm_compute; reflexivity).
  split; [exact Hb|].
  destruct (raw_nodes (dag (prog_graph ex_aggregate)) !! 6%nat) as [n|] eqn:E; [|vm_compute in E; discriminate E].
  destruct (proj2 (stream_graph_shape _ _ Hb) 6%nat n E) as (w & s & k & b & Hp & Hw & _).
  { vm_compute in E. injection E as <-. reflexivity. }
  exists n, w. split; [reflexivity|]. split; [exact Hp|exact Hw].
Defined.

Lemma api_call_total_witness :
  let g := prog_graph [register_source (ex_source 2)] in
  match run_call (flat_map 0 ex_map) g with
  | Ok (g', out) => built g' (out ++ [])
  | Err _ => False
  | Panic m => m = "schema"%string \/ m = "graph is full"%string
  end.
Proof.
  apply (api_call_total (flat_map 0 ex_map) (prog_graph [register_source (ex_source 2)]) [H_Data 0] []).
  - apply (prog_built [register_source (ex_source 2)]). vm_compute. reflexivity.
  - reflexivity.
  - vm_compute. split; [discriminate|reflexivity].
Defined.
