(* ===== verification/JobGraph.v ===== *)
(** * JobGraph: jobs, their parallelism and the edges between them

    src/rlink/src/dag/job_graph.rs: [JobNodeBuilder] walks the stream graph from
    every source to the sink of its job, gives a job without a parallelism that of
    its parent, and [JobGraph] links the jobs with forward or re-balancing edges.

    The loops that follow the graph take fuel; [None] is a loop that has not ended
    with the fuel it was given. The theorems say how much is enough, and when no
    amount is. *)
From Stdlib Require Import ZArith Lia Sorted.
From stdpp Require Import base strings numbers option sets gmap list relations.
From S2P Require Import Prelude Bytes Runtime Graph Schema StreamGraph.

(** A computation that may be cut short. *)
Definition run (E A : Type) : Type := option (res E A).

Definition rbind {E A B} (m : run E A) (k : A -> run E B) : run E B :=
  match m with
  | Some (Ok a) => k a
  | Some (Err e) => Some (Err e)
  | Some (Panic p) => Some (Panic p)
  | None => None
  end.
Notation "'do*' x := m 'in' k" := (rbind m (fun x => k))
  (at level 200, x pattern, m at level 200, k at level 200, right associativity).

(** Iterating such a body. *)
Fixpoint foldR {E S A} (f : S -> A -> run E S) (s : S) (l : list A) : run E S :=
  match l with
  | [] => Some (Ok s)
  | x :: l' => do* s := f s x in foldR f s l'
  end.

Section job_graph.
Context {DA : DagApi} {HO : HashOrder}.

Record JobNode := mkJobNode {
  jn_job_id : JobId;
  jn_parallelism : Z;
  jn_stream_nodes : list StreamNode;
  jn_child_job_ids : list JobId;
  jn_parent_job_ids : list JobId
}.

Definition has_type (t : OperatorType) (j : JobNode) : bool :=
  bool_decide (is_Some (list_find (fun n => sn_operator_type n = t) (jn_stream_nodes j))).

Definition is_co_process_job (j : JobNode) : bool := has_type OT_CoProcess j.
Definition is_reduce_job (j : JobNode) : bool := has_type OT_Reduce j.

(** [is_daemon_job]: [stream_nodes] is never empty. *)
Definition is_daemon_job {E} (j : JobNode) : res E bool :=
  let* n := unwrap "index out of bounds" (jn_stream_nodes j !! 0%nat) in Ok (sn_daemon n).

Definition set_jn_parallelism (p : Z) (j : JobNode) : JobNode :=
  mkJobNode (jn_job_id j) p (jn_stream_nodes j) (jn_child_job_ids j) (jn_parent_job_ids j).
Definition set_jn_parents (ps : list JobId) (j : JobNode) : JobNode :=
  mkJobNode (jn_job_id j) (jn_parallelism j) (jn_stream_nodes j) (jn_child_job_ids j) ps.

(** [StreamGraph]. *)
Record StreamGraph := mkStreamGraph {
  sg_sources : list NodeIndex;
  sg_dag : Dag StreamNode StreamEdge
}.

Definition stream_node {E} (sg : StreamGraph) (i : NodeIndex) : res E StreamNode := dag_index (sg_dag sg) i.

(** ** Job nodes *)

(** The ids of the jobs behind a sink. *)
Definition child_ids (sg : StreamGraph) (cs : list (EdgeIndex * NodeIndex)) : res DagError (list JobId) :=
  foldM (fun acc c => let* n := stream_node sg c.2 in Ok (acc ++ [job_id_from (sn_id n)])) [] cs.

(** The loop of [build_job_node]. *)
Fixpoint walk_job (fuel : nat) (sg : StreamGraph) (node_index : NodeIndex)
    (stream_nodes : list StreamNode) (parallelism : Z) (job_id : JobId) : run DagError JobNode :=
  match fuel with
  | O => None
  | S fuel =>
      do* stream_node := Some (stream_node sg node_index) in
      let cs := children (sg_dag sg) node_index in
      let stream_nodes := stream_nodes ++ [stream_node] in
      let parallelism := Z.max parallelism (sn_parallelism stream_node) in
      let job_id := if decide (sn_operator_type stream_node = OT_Source) then job_id_from (sn_id stream_node) else job_id in
      if decide (sn_operator_type stream_node = OT_Sink) then
        do* child_job_ids := Some (child_ids sg cs) in
        Some (Ok (mkJobNode job_id parallelism stream_nodes child_job_ids []))
      else
        match cs with
        | [] => Some (Err ChildNotFoundInPipeline)
        | [child] => walk_job fuel sg child.2 stream_nodes parallelism job_id
        | _ => Some (Err MultiChildrenInPipeline)
        end
  end.

Definition build_job_node (fuel : nat) (sg : StreamGraph) (source_node_index : NodeIndex) : run DagError JobNode :=
  walk_job fuel sg source_node_index [] DEFAULT_PARALLELISM 0.

(** The builder: [c2p_job_id_map] and [job_node_indies]. *)
Record JobNodeBuilder := mkBuilder {
  c2p_job_id_map : gmap JobId (list JobId);
  jb_jobs : gmap JobId JobNode
}.

Definition add_c2p (job_id : JobId) (m : gmap JobId (list JobId)) (child_job_id : JobId) : gmap JobId (list JobId) :=
  <[child_job_id := default [] (m !! child_job_id) ++ [job_id]]> m.

Definition add_job (b : JobNodeBuilder) (j : JobNode) : JobNodeBuilder :=
  mkBuilder (foldl (add_c2p (jn_job_id j)) (c2p_job_id_map b) (jn_child_job_ids j))
    (<[jn_job_id j := j]> (jb_jobs b)).

Definition build_job_nodes (fuel : nat) (sg : StreamGraph) : run DagError JobNodeBuilder :=
  do* b := foldR (fun b source_node_index =>
      do* j := build_job_node fuel sg source_node_index in Some (Ok (add_job b j)))
    (mkBuilder ∅ ∅) (sg_sources sg) in
  let jobs := (fun j => set_jn_parents (default [] (c2p_job_id_map b !! jn_job_id j)) j) <$> jb_jobs b in
  Some (Ok (mkBuilder (c2p_job_id_map b) jobs)).

(** ** Parallelism *)

(** The id of the job that ends in this sink, in the order of the map. *)
Definition get_job_id_by_sink (jobs : gmap JobId JobNode) (sink_operator_id : OperatorId) : option JobId :=
  jn_job_id <$> (snd <$> list_find (fun j => sn_id <$> last (jn_stream_nodes j) = Some sink_operator_id) (hiter jobs).*2).

Definition get_parent_job_id (jobs : gmap JobId JobNode) (j : JobNode) : res DagError JobId :=
  let* source := unwrap "index out of bounds" (jn_stream_nodes j !! 0%nat) in
  let* parent := unwrap "index out of bounds" (last (sn_parent_ids source)) in
  unwrap "called `Option::unwrap()` on a `None` value" (get_job_id_by_sink jobs parent).

(** The parallelism of a parent, where it has none the result of the recursive
    call on it. *)
Definition parent_parallelism (rec : gmap JobId JobNode -> JobNode -> run DagError (gmap JobId JobNode * Z))
    (jobs : gmap JobId JobNode) (parent_job_id : JobId) : run DagError (gmap JobId JobNode * Z) :=
  do* parent_job_node := Some (unwrap "called `Option::unwrap()` on a `None` value" (jobs !! parent_job_id)) in
  if 0 <? jn_parallelism parent_job_node then Some (Ok (jobs, jn_parallelism parent_job_node))
  else rec jobs parent_job_node.

(** The loop over the parents of a co-process job. *)
Definition co_process_step (rec : gmap JobId JobNode -> JobNode -> run DagError (gmap JobId JobNode * Z)) (left_job_id : JobId)
    (s : gmap JobId JobNode * Z) (parent_job_id : JobId) : run DagError (gmap JobId JobNode * Z) :=
  do* (jobs, p) := parent_parallelism rec s.1 parent_job_id in
  Some (Ok (jobs, if decide (parent_job_id = left_job_id) then p else s.2)).

(** [get_parent_parallelism0]: stores a parallelism and always returns 0. *)
Fixpoint get_parent_parallelism0 (fuel : nat) (c2p : gmap JobId (list JobId)) (jobs : gmap JobId JobNode) (job_node : JobNode)
    : run DagError (gmap JobId JobNode * Z) :=
  match fuel with
  | O => None
  | S fuel =>
      match c2p !! jn_job_id job_node with
      | Some parent_job_ids =>
          do* (jobs, parallelism) :=
            match parent_job_ids with
            | [parent_job_id] => parent_parallelism (get_parent_parallelism0 fuel c2p) jobs parent_job_id
            | _ =>
                if is_co_process_job job_node then
                  do* left_job_id := Some (get_parent_job_id jobs job_node) in
                  foldR (co_process_step (get_parent_parallelism0 fuel c2p) left_job_id) (jobs, 0) parent_job_ids
                else Some (Panic "not implemented")
            end in
          do* jn := Some (unwrap "called `Option::unwrap()` on a `None` value" (jobs !! jn_job_id job_node)) in
          Some (Ok (<[jn_job_id job_node := set_jn_parallelism parallelism jn]> jobs, 0))
      | None => Some (Ok (jobs, 0))
      end
  end.

(** The jobs with no parallelism, greatest id first. *)
Definition no_parallelism_jobs (jobs : gmap JobId JobNode) : list JobId :=
  sort_by_key Z.opp (omap (fun kv => if decide (jn_parallelism kv.2 = 0) then Some (jn_job_id kv.2) else None) (hiter jobs)).

(** One round; the number of jobs it found without a parallelism. *)
Definition get_parent_parallelism (fuel : nat) (c2p : gmap JobId (list JobId)) (jobs : gmap JobId JobNode)
    : run DagError (gmap JobId JobNode * nat) :=
  let ids := no_parallelism_jobs jobs in
  do* jobs := foldR (fun jobs job_id =>
      do* job_node := Some (unwrap "called `Option::unwrap()` on a `None` value" (jobs !! job_id)) in
      if 0 <? jn_parallelism job_node then Some (Ok jobs)
      else do* (jobs, _) := get_parent_parallelism0 fuel c2p jobs job_node in Some (Ok jobs)) jobs ids in
  Some (Ok (jobs, length ids)).

(** [while self.get_parent_parallelism() > 0 {}]. *)
Fixpoint build_parallelism (rounds fuel : nat) (c2p : gmap JobId (list JobId)) (jobs : gmap JobId JobNode)
    : run DagError (gmap JobId JobNode) :=
  match rounds with
  | O => None
  | S rounds =>
      do* (jobs, n) := get_parent_parallelism fuel c2p jobs in
      if decide (n = 0%nat) then Some (Ok jobs) else build_parallelism rounds fuel c2p jobs
  end.

Definition builder_build (fuel : nat) (sg : StreamGraph) : run DagError (gmap JobId JobNode) :=
  do* b := build_job_nodes fuel sg in
  build_parallelism fuel fuel (c2p_job_id_map b) (jb_jobs b).

(** ** The job graph *)
Record JobGraph := mkJobGraph {
  job_node_indies : gmap JobId NodeIndex;
  jg_dag : Dag JobNode JobEdge
}.

Definition JobGraph_new : JobGraph := mkJobGraph ∅ Dag_new.

Definition add_job_node (g : JobGraph) (kv : JobId * JobNode) : res DagError JobGraph :=
  let* (node_index, d) := unwrap "graph is full" (add_node (jg_dag g) kv.2) in
  Ok (mkJobGraph (<[kv.1 := node_index]> (job_node_indies g)) d).

(** The kind of the edge between two jobs. *)
Definition job_edge (job_node child_job_node : JobNode) : res DagError JobEdge :=
  if is_reduce_job child_job_node then Ok ReBalance
  else if is_reduce_job job_node then
    if decide (jn_parallelism job_node <> jn_parallelism child_job_node) then Err ReduceOutputParallelismConflict
    else Ok Forward
  else if decide (jn_parallelism job_node = jn_parallelism child_job_node) then Ok Forward else Ok ReBalance.

Definition map_cycle {A} (r : res unit A) : res DagError A :=
  match r with Ok a => Ok a | Err _ => Err WouldCycle | Panic p => Panic p end.

Definition build_job_edge (g : JobGraph) (job_node_index : NodeIndex) : res DagError JobGraph :=
  let* job_node := dag_index (jg_dag g) job_node_index in
  foldM (fun g child_job_id =>
      let* child_node_index := ok_or (job_node_indies g !! child_job_id) (JobNotFound child_job_id) in
      let* child_job_node := dag_index (jg_dag g) child_node_index in
      let* edge := job_edge job_node child_job_node in
      let* (_, d) := map_cycle (add_edge (jg_dag g) job_node_index child_node_index edge) in
      Ok (mkJobGraph (job_node_indies g) d))
    g (jn_child_job_ids job_node).

Definition build_job_edges (g : JobGraph) : res DagError JobGraph :=
  foldM build_job_edge g (hiter (job_node_indies g)).*2.

Definition job_graph_build (fuel : nat) (sg : StreamGraph) : run DagError JobGraph :=
  do* jobs := builder_build fuel sg in
  do* g := Some (foldM add_job_node JobGraph_new (hiter jobs)) in
  Some (build_job_edges g).

(** ** Resolving the parallelism *)

(** Jobs that differ in their parallelism only. *)
Definition same_jobs (jobs jobs' : gmap JobId JobNode) : Prop :=
  set_jn_parallelism 0 <$> jobs = set_jn_parallelism 0 <$> jobs'.

Definition par_of (jobs : gmap JobId JobNode) (id : JobId) : Z := default 0 (jn_parallelism <$> jobs !! id).

(** Parallelism is only given to jobs that have none, and only up to job [top]. *)
Record grows (top : JobId) (jobs jobs' : gmap JobId JobNode) : Prop := {
  gr_same : same_jobs jobs jobs';
  gr_keep : forall id, 0 < par_of jobs id -> par_of jobs' id = par_of jobs id;
  gr_above : forall id, top < id -> jobs' !! id = jobs !! id
}.

Lemma same_jobs_lookup jobs jobs' id j : same_jobs jobs jobs' -> jobs !! id = Some j ->
  exists p, jobs' !! id = Some (set_jn_parallelism p j).
Proof.
  intros Hs Hj. assert ((set_jn_parallelism 0 <$> jobs) !! id = (set_jn_parallelism 0 <$> jobs') !! id) as He by (by rewrite Hs).
  rewrite !lookup_fmap, Hj in He. simpl in He. destruct (jobs' !! id) as [j'|]; simpl in He; [|done].
  exists (jn_parallelism j'). f_equal. destruct j, j'. unfold set_jn_parallelism in *. simpl in *. by simplify_eq.
Qed.

Lemma same_jobs_sym jobs jobs' : same_jobs jobs jobs' -> same_jobs jobs' jobs.
Proof. done. Qed.

Lemma grows_refl top jobs : grows top jobs jobs.
Proof. done. Qed.

Lemma grows_trans top top' jobs1 jobs2 jobs3 :
  top' <= top -> grows top' jobs1 jobs2 -> grows top jobs2 jobs3 -> grows top jobs1 jobs3.
Proof.
  intros Ht [S1 K1 A1] [S2 K2 A2]. split.
  - unfold same_jobs in *. congruence.
  - intros id Hp. rewrite K2, K1; [done|done|]. by rewrite K1.
  - intros id Hid. rewrite A2, A1 by lia. done.
Qed.

Lemma grows_weaken top top' jobs jobs' : top' <= top -> grows top' jobs jobs' -> grows top jobs jobs'.
Proof. intros Ht Hg. eapply grows_trans; [exact Ht|exact Hg|]. apply grows_refl. Qed.

Lemma same_jobs_insert jobs id j p : jobs !! id = Some j -> same_jobs jobs (<[id := set_jn_parallelism p j]> jobs).
Proof.
  intros Hj. unfold same_jobs. rewrite fmap_insert. symmetry. apply insert_id. by rewrite lookup_fmap, Hj.
Qed.

Lemma par_of_insert jobs id id' j p :
  par_of (<[id := set_jn_parallelism p j]> jobs) id' = if decide (id' = id) then p else par_of jobs id'.
Proof. unfold par_of. case_decide; [subst; by rewrite lookup_insert_eq|by rewrite lookup_insert_ne]. Qed.

Section resolve.
Context (c2p : gmap JobId (list JobId)) (jobs0 : gmap JobId JobNode).

(** What the builder knows of the jobs: ids, parents with smaller ids, and for
    each job with parents the one its parallelism comes from. *)
Record jobs_ok : Prop := {
  jo_id : forall id j, jobs0 !! id = Some j -> jn_job_id j = id /\ 0 <= id;
  jo_pos : forall id, 0 <= par_of jobs0 id;
  jo_parents : forall id ps p, c2p !! id = Some ps -> p ∈ ps -> p < id /\ is_Some (jobs0 !! p);
  jo_left : forall id ps j, c2p !! id = Some ps -> jobs0 !! id = Some j ->
    match ps with
    | [_] => True
    | _ => is_co_process_job j = true /\ exists l, l ∈ ps /\ forall jobs, same_jobs jobs0 jobs ->
             get_parent_job_id jobs (set_jn_parallelism 0 j) = Ok l
    end
}.
Hypothesis Hok : jobs_ok.

(** The parent whose parallelism a job takes. *)
Definition inherits_from (id p : JobId) : Prop :=
  exists ps j, c2p !! id = Some ps /\ p ∈ ps /\ jobs0 !! id = Some j /\
    (ps = [p] \/ forall jobs, same_jobs jobs0 jobs -> get_parent_job_id jobs (set_jn_parallelism 0 j) = Ok p).

(** A job that got a parallelism has that of the parent it inherits from. *)
Definition inherited (jobs : gmap JobId JobNode) : Prop :=
  forall id, par_of jobs0 id = 0 -> 0 < par_of jobs id -> exists p, inherits_from id p /\ par_of jobs p = par_of jobs id.

Definition parents_positive (jobs : gmap JobId JobNode) (id : JobId) : Prop :=
  exists ps, c2p !! id = Some ps /\ forall p, p ∈ ps -> 0 < par_of jobs p.

(** What holds of the jobs during the resolution. *)
Record resolving (jobs : gmap JobId JobNode) : Prop := {
  rs_same : same_jobs jobs0 jobs;
  rs_pos : forall id, 0 <= par_of jobs id;
  rs_keep : forall id, 0 < par_of jobs0 id -> par_of jobs id = par_of jobs0 id;
  rs_inh : inherited jobs
}.

(** A recursive call that does its work on the jobs up to [top]. *)
Definition rec_ok (top : JobId) (rec : gmap JobId JobNode -> JobNode -> run DagError (gmap JobId JobNode * Z)) : Prop :=
  forall jobs id job, id < top -> resolving jobs -> jobs !! id = Some job -> jn_parallelism job = 0 ->
  exists jobs', rec jobs job = Some (Ok (jobs', 0)) /\ resolving jobs' /\ grows id jobs jobs'.

Lemma par_of_lookup jobs id j : jobs !! id = Some j -> par_of jobs id = jn_parallelism j.
Proof. intros H. unfold par_of. by rewrite H. Qed.

Lemma parent_parallelism_spec top rec jobs p :
  rec_ok top rec -> p < top -> is_Some (jobs0 !! p) -> resolving jobs ->
  exists jobs' q, parent_parallelism rec jobs p = Some (Ok (jobs', q)) /\ resolving jobs' /\ grows p jobs jobs' /\
    0 <= q /\ (0 < q -> par_of jobs' p = q) /\ (0 < par_of jobs p -> q = par_of jobs p).
Proof.
  intros Hrec Hp [j0 Hj0] Hr. destruct (same_jobs_lookup _ _ _ _ (rs_same _ Hr) Hj0) as [p0 Hj].
  unfold parent_parallelism. rewrite Hj. simpl. pose proof (rs_pos _ Hr p) as Hpos. rewrite (par_of_lookup _ _ _ Hj) in *. simpl in *.
  destruct (0 <? p0) eqn:E; bool_to_prop.
  - exists jobs, p0. rewrite (par_of_lookup _ _ _ Hj). by split_and!.
  - destruct (Hrec jobs p _ Hp Hr Hj) as (jobs' & -> & Hr' & Hg); [simpl; lia|]. exists jobs', 0. split_and!; try done; lia.
Qed.

Lemma co_process_fold top rec l ps : forall jobs q0,
  rec_ok top rec -> (forall p, p ∈ ps -> p < top /\ is_Some (jobs0 !! p)) -> resolving jobs ->
  0 <= q0 -> (0 < q0 -> par_of jobs l = q0) ->
  exists jobs' q, foldR (co_process_step rec l) (jobs, q0) ps = Some (Ok (jobs', q)) /\ resolving jobs' /\
    grows (top - 1) jobs jobs' /\ 0 <= q /\ (0 < q -> par_of jobs' l = q) /\ (l ∈ ps -> 0 < par_of jobs l -> 0 < q) /\
    (0 < q0 -> 0 < par_of jobs l -> 0 < q).
Proof.
  induction ps as [|p ps IH]; intros jobs q0 Hrec Hps Hr Hq0 Hl; simpl.
  { exists jobs, q0. split_and!; try done. intros Hin. set_solver. }
  destruct (Hps p) as [Hp Hj]; [by left|].
  destruct (parent_parallelism_spec top rec jobs p Hrec Hp Hj Hr) as (jobs1 & q1 & E1 & Hr1 & Hg1 & Hq1 & Hs1 & Hp1).
  unfold co_process_step at 1. cbn [fst snd]. rewrite E1. cbn [rbind].
  set (q2 := if decide (p = l) then q1 else q0).
  assert (0 < par_of jobs l -> par_of jobs1 l = par_of jobs l) as Hkeep by apply (gr_keep _ _ _ Hg1).
  destruct (IH jobs1 q2) as (jobs' & q & -> & Hr' & Hg' & Hq & Hql & Hin & Hq02); [done|intros; apply Hps; by right|done|..].
  - unfold q2. by case_decide.
  - unfold q2. case_decide as Hpl; [by subst|]. intros Hpos. rewrite Hkeep, Hl; [done|done|]. rewrite Hl; lia.
  - exists jobs', q. split_and!; try done.
    + eapply grows_trans; [|exact Hg1|exact Hg']. lia.
    + rewrite elem_of_cons. intros [->|Hi] Hpos; [|apply Hin; [done|by rewrite Hkeep]].
      apply Hq02; [|by rewrite Hkeep]. unfold q2. rewrite decide_True by done. by rewrite Hp1.
    + intros Hpos Hlp. apply Hq02; [|by rewrite Hkeep]. unfold q2. case_decide as Hpl; [subst; by rewrite Hp1|done].
Qed.

(** Storing a parallelism for a job that has none. *)
Lemma store_parallelism jobs id j q :
  resolving jobs -> jobs !! id = Some j -> jn_parallelism j = 0 -> 0 <= q ->
  (0 < q -> exists p, inherits_from id p /\ p < id /\ par_of jobs p = q) ->
  resolving (<[id := set_jn_parallelism q j]> jobs) /\ grows id jobs (<[id := set_jn_parallelism q j]> jobs).
Proof.
  intros Hr Hj Hz Hq Hinh. pose proof (par_of_lookup _ _ _ Hj) as Hpar.
  assert (par_of jobs0 id = 0) as H0.
  { pose proof (jo_pos Hok id). destruct (decide (0 < par_of jobs0 id)) as [Hlt|]; [|lia].
    rewrite <- (rs_keep _ Hr id Hlt) in Hlt. lia. }
  split; [split|split].
  - unfold same_jobs. rewrite (rs_same _ Hr). by apply same_jobs_insert.
  - intros k. rewrite par_of_insert. case_decide; [done|]. by apply Hr.
  - intros k Hk. rewrite par_of_insert. case_decide as Hd; [subst; lia|]. by apply Hr.
  - intros k Hk Hpos. rewrite par_of_insert in Hpos. case_decide as Hd.
    + subst. destruct (Hinh Hpos) as (p & Hi & Hlt & Hp). exists p. split; [done|].
      rewrite !par_of_insert, decide_False, decide_True by (done || lia). done.
    + destruct (rs_inh _ Hr k Hk Hpos) as (p & Hi & Hp). exists p. split; [done|].
      rewrite !par_of_insert, (decide_False (P := k = id)) by done. case_decide as Hpi; [|done]. subst. lia.
  - by apply same_jobs_insert.
  - intros k Hk. rewrite par_of_insert. case_decide; [subst; lia|done].
  - intros k Hk. by rewrite lookup_insert_ne by lia.
Qed.

(** The parallelism a job takes from its parents. *)
Definition from_parents (rec : gmap JobId JobNode -> JobNode -> run DagError (gmap JobId JobNode * Z))
    (jobs : gmap JobId JobNode) (job : JobNode) (ps : list JobId) : run DagError (gmap JobId JobNode * Z) :=
  match ps with
  | [p] => parent_parallelism rec jobs p
  | _ => if is_co_process_job job then
           do* left_job_id := Some (get_parent_job_id jobs job) in
           foldR (co_process_step rec left_job_id) (jobs, 0) ps
         else Some (Panic "not implemented")
  end.

Lemma from_parents_spec rec jobs id job ps :
  rec_ok id rec -> c2p !! id = Some ps -> resolving jobs -> jobs !! id = Some job -> jn_parallelism job = 0 ->
  exists jobs1 q, from_parents rec jobs job ps = Some (Ok (jobs1, q)) /\
    resolving jobs1 /\ grows (id - 1) jobs jobs1 /\ 0 <= q /\
    (0 < q -> exists p, inherits_from id p /\ p < id /\ par_of jobs1 p = q) /\ (parents_positive jobs id -> 0 < q).
Proof.
  intros Hrec Ep Hr Hj Hz. destruct (same_jobs_lookup jobs jobs0 id job) as [p0 Hj0]; [symmetry; apply Hr|done|].
  pose proof (jo_left Hok _ _ _ Ep Hj0) as Hleft. pose proof (fun p => jo_parents Hok id ps p Ep) as Hps.
  assert (set_jn_parallelism 0 (set_jn_parallelism p0 job) = job) as Hjob by (destruct job; simpl in *; by subst).
  assert (parents_positive jobs id -> forall p, p ∈ ps -> 0 < par_of jobs p) as Hpp.
  { intros (ps' & Hps' & H). rewrite Ep in Hps'. by simplify_eq. }
  assert ((exists p, ps = [p]) \/ ~ exists p, ps = [p]) as [(p & ->)|Hn] by (destruct ps as [|? [|]]; naive_solver).
  - destruct (Hps p) as [Hp Hsome]; [by left|].
    destruct (parent_parallelism_spec id rec jobs p Hrec Hp Hsome Hr) as (jobs1 & q & E & Hr1 & Hg1 & Hq & Hqp & Hpq).
    exists jobs1, q. split_and!; try done.
    + apply (grows_weaken _ p); [lia|done].
    + intros Hpos. exists p. split_and!; [|done|auto]. exists [p], (set_jn_parallelism p0 job). split_and!; try done; [by left|by left].
    + intros H. specialize (Hpp H p ltac:(by left)). rewrite Hpq; done.
  - assert (is_co_process_job job = true /\ exists l, l ∈ ps /\ forall jobs, same_jobs jobs0 jobs -> get_parent_job_id jobs job = Ok l)
      as [Hco (l & Hl & Hgl)].
    { rewrite Hjob in Hleft. destruct ps as [|p [|]]; [done|exfalso; eauto|done]. }
    assert (from_parents rec jobs job ps = foldR (co_process_step rec l) (jobs, 0) ps) as ->.
    { unfold from_parents. destruct ps as [|p [|]]; [|exfalso; eauto|]; rewrite Hco, (Hgl _ (rs_same _ Hr)); done. }
    destruct (co_process_fold id rec l ps jobs 0 Hrec Hps Hr) as (jobs1 & q & E & Hr1 & Hg1 & Hq & Hql & Hin & _); [done|lia|].
    exists jobs1, q. split_and!; try done.
    + intros Hpos. exists l. split_and!; [|by apply Hps|auto]. exists ps, (set_jn_parallelism p0 job).
      split_and!; try done. right. intros jobs' Hs. rewrite Hjob. auto.
    + intros H. apply Hin; [done|]. by apply Hpp.
Qed.

Lemma gpp0_spec fuel : forall jobs id job,
  resolving jobs -> jobs !! id = Some job -> jn_parallelism job = 0 -> (Z.to_nat id < fuel)%nat ->
  exists jobs', get_parent_parallelism0 fuel c2p jobs job = Some (Ok (jobs', 0)) /\ resolving jobs' /\ grows id jobs jobs' /\
    (parents_positive jobs id -> 0 < par_of jobs' id).
Proof.
  induction fuel as [|fuel IH]; intros jobs id job Hr Hj Hz Hf; [lia|].
  assert (forall jobs1 k jk, resolving jobs1 -> jobs1 !! k = Some jk -> jn_job_id jk = k /\ 0 <= k) as Hids.
  { intros jobs1 k jk Hr1 Hjk. destruct (same_jobs_lookup jobs1 jobs0 k jk) as [pk Hpk]; [symmetry; apply Hr1|done|].
    by apply (jo_id Hok) in Hpk. }
  destruct (Hids _ _ _ Hr Hj) as [Hid Hnn]. cbn [get_parent_parallelism0]. rewrite Hid.
  destruct (c2p !! id) as [ps|] eqn:Ep; [|exists jobs; split_and!; try done; intros (ps & Hps & _); congruence].
  assert (rec_ok id (get_parent_parallelism0 fuel c2p)) as Hrec.
  { intros jobs1 k jk Hk Hr1 Hjk Hzk. destruct (Hids _ _ _ Hr1 Hjk) as [_ Hkn].
    destruct (IH jobs1 k jk Hr1 Hjk Hzk) as (jobs' & ? & ? & ? & _); [lia|]. eauto. }
  destruct (from_parents_spec _ jobs id job ps Hrec Ep Hr Hj Hz) as (jobs1 & q & E & Hr1 & Hg1 & Hq & Hinh & Hpos).
  unfold from_parents in E. rewrite E. cbn [rbind].
  assert (jobs1 !! id = Some job) as Hj1 by (rewrite (gr_above _ _ _ Hg1 id) by lia; done). rewrite Hj1. cbn [unwrap rbind].
  destruct (store_parallelism jobs1 id job q Hr1 Hj1 Hz Hq Hinh) as [Hr2 Hg2].
  eexists. split_and!; [done|done| |].
  - eapply grows_trans; [|exact Hg1|exact Hg2]. lia.
  - intros Hpp. rewrite par_of_insert, decide_True by done. auto.
Qed.

(** ** Rounds *)
Lemma elem_of_no_parallelism jobs id : resolving jobs ->
  id ∈ no_parallelism_jobs jobs <-> is_Some (jobs !! id) /\ par_of jobs id = 0.
Proof.
  intros Hr. unfold no_parallelism_jobs. rewrite elem_of_sort_by_key, list_elem_of_omap.
  assert (forall k j, jobs !! k = Some j -> jn_job_id j = k) as Hids.
  { intros k j Hj. destruct (same_jobs_lookup jobs jobs0 k j) as [q Hq]; [symmetry; apply Hr|done|]. by apply (jo_id Hok) in Hq as [<- _]. }
  split.
  - intros ([k j] & Hin & Heq). apply elem_of_hiter in Hin. simpl in Heq. case_decide as Hz; simplify_eq.
    rewrite (Hids _ _ Hin), (par_of_lookup _ _ _ Hin). split; [by eexists|done].
  - intros [[j Hj] Hz]. exists (id, j). rewrite elem_of_hiter. split; [done|]. simpl. rewrite (par_of_lookup _ _ _ Hj) in Hz.
    rewrite decide_True by done. by rewrite (Hids _ _ Hj).
Qed.

Definition keeps (jobs jobs' : gmap JobId JobNode) : Prop := forall id, 0 < par_of jobs id -> par_of jobs' id = par_of jobs id.

Lemma parents_positive_keeps jobs jobs' id : keeps jobs jobs' -> parents_positive jobs id -> parents_positive jobs' id.
Proof. intros Hk (ps & Hps & Hall). exists ps. split; [done|]. intros p Hp. rewrite Hk; auto. Qed.

Definition round_step (fuel : nat) (jobs : gmap JobId JobNode) (job_id : JobId) : run DagError (gmap JobId JobNode) :=
  do* job_node := Some (unwrap "called `Option::unwrap()` on a `None` value" (jobs !! job_id)) in
  if 0 <? jn_parallelism job_node then Some (Ok jobs)
  else do* (jobs, _) := get_parent_parallelism0 fuel c2p jobs job_node in Some (Ok jobs).

Lemma round_step_spec fuel jobs id : resolving jobs -> is_Some (jobs !! id) -> (Z.to_nat id < fuel)%nat ->
  exists jobs', round_step fuel jobs id = Some (Ok jobs') /\ resolving jobs' /\ keeps jobs jobs' /\
    (parents_positive jobs id -> 0 < par_of jobs' id).
Proof.
  intros Hr [j Hj] Hf. unfold round_step. rewrite Hj. cbn [unwrap rbind].
  pose proof (rs_pos _ Hr id) as Hpos. rewrite (par_of_lookup _ _ _ Hj) in Hpos.
  destruct (0 <? jn_parallelism j) eqn:E; bool_to_prop.
  - exists jobs. split_and!; try done. intros _. by rewrite (par_of_lookup _ _ _ Hj).
  - destruct (gpp0_spec fuel jobs id j Hr Hj) as (jobs' & -> & Hr' & Hg & Hp); [lia|done|].
    exists jobs'. split_and!; try done. intros k. apply (gr_keep _ _ _ Hg).
Qed.

Lemma round_fold fuel ids : forall jobs,
  resolving jobs -> (forall id, id ∈ ids -> is_Some (jobs0 !! id) /\ (Z.to_nat id < fuel)%nat) ->
  exists jobs', foldR (round_step fuel) jobs ids = Some (Ok jobs') /\ resolving jobs' /\ keeps jobs jobs' /\
    (forall id, id ∈ ids -> parents_positive jobs id -> 0 < par_of jobs' id).
Proof.
  induction ids as [|id ids IH]; intros jobs Hr Hids; simpl; [exists jobs; split_and!; try done; intros; set_solver|].
  destruct (Hids id) as [[j0 Hj0] Hf]; [by left|]. destruct (same_jobs_lookup _ _ _ _ (rs_same _ Hr) Hj0) as [q Hq].
  destruct (round_step_spec fuel jobs id Hr) as (jobs1 & -> & Hr1 & Hk1 & Hp1); [by eexists|done|]. cbn [rbind].
  destruct (IH jobs1 Hr1) as (jobs' & -> & Hr' & Hk' & Hp'); [intros; apply Hids; by right|].
  exists jobs'. split_and!; try done.
  - intros k Hk. rewrite Hk', Hk1; [done|done|]. by rewrite Hk1.
  - intros k [->|Hin]%elem_of_cons Hpp.
    + pose proof (Hp1 Hpp) as Hpos. by rewrite Hk'.
    + apply Hp'; [done|]. by eapply parents_positive_keeps.
Qed.

(** Some job without a parallelism has parents that all have one. *)
Lemma ready_job jobs id : resolving jobs -> (forall k, is_Some (jobs0 !! k) -> c2p !! k = None -> 0 < par_of jobs0 k) ->
  is_Some (jobs0 !! id) -> par_of jobs id = 0 -> exists k, is_Some (jobs0 !! k) /\ par_of jobs k = 0 /\ parents_positive jobs k.
Proof.
  intros Hr Hroot. remember (Z.to_nat id) as n eqn:Hn. revert id Hn. induction (lt_wf n) as [n _ IH]. intros id -> Hid Hz.
  destruct (c2p !! id) as [ps|] eqn:Ep; cycle 1.
  { pose proof (Hroot id Hid Ep) as Hpos. rewrite <- (rs_keep _ Hr id Hpos) in Hpos. lia. }
  destruct (decide (Exists (fun p => par_of jobs p = 0) ps)) as [Hex|Hnot].
  - apply Exists_exists in Hex as (p & Hp & Hpz). destruct (jo_parents Hok _ _ _ Ep Hp) as [Hlt [jp Hjp]].
    destruct (jo_id Hok _ _ Hjp) as [_ Hpn]. apply (IH (Z.to_nat p)) with (id := p); [lia|done|by eexists|done].
  - exists id. split_and!; try done. exists ps. split; [done|]. intros p Hp. pose proof (rs_pos _ Hr p).
    destruct (decide (par_of jobs p = 0)); [|lia]. exfalso. apply Hnot, Exists_exists. eauto.
Qed.

(** The jobs that have no parallelism yet. *)
Definition zeros (jobs : gmap JobId JobNode) : gset JobId := list_to_set (no_parallelism_jobs jobs).

Lemma elem_of_zeros jobs id : resolving jobs -> id ∈ zeros jobs <-> is_Some (jobs !! id) /\ par_of jobs id = 0.
Proof. intros Hr. unfold zeros. rewrite elem_of_list_to_set. by apply elem_of_no_parallelism. Qed.

Lemma same_jobs_is_Some jobs id : resolving jobs -> is_Some (jobs !! id) <-> is_Some (jobs0 !! id).
Proof.
  intros Hr. split; intros [j Hj].
  - destruct (same_jobs_lookup jobs jobs0 id j) as [q Hq]; [symmetry; apply Hr|done|by eexists].
  - destruct (same_jobs_lookup _ _ _ _ (rs_same _ Hr) Hj) as [q Hq]. by eexists.
Qed.

Lemma round_spec fuel jobs :
  resolving jobs -> (forall id, is_Some (jobs0 !! id) -> (Z.to_nat id < fuel)%nat) ->
  exists jobs', get_parent_parallelism fuel c2p jobs = Some (Ok (jobs', length (no_parallelism_jobs jobs))) /\ resolving jobs' /\
    keeps jobs jobs' /\ (no_parallelism_jobs jobs = [] -> jobs' = jobs) /\
    (forall id, id ∈ zeros jobs -> parents_positive jobs id -> 0 < par_of jobs' id).
Proof.
  intros Hr Hf. destruct (round_fold fuel (no_parallelism_jobs jobs) jobs Hr) as (jobs' & E & Hr' & Hk & Hp).
  { intros id Hid. apply elem_of_no_parallelism in Hid as [Hs _]; [|done]. rewrite same_jobs_is_Some in Hs by done. auto. }
  exists jobs'. unfold get_parent_parallelism. fold (round_step fuel). rewrite E. split_and!; try done.
  - intros Hnil. rewrite Hnil in E. simpl in E. by simplify_eq.
  - intros id Hid. apply Hp. unfold zeros in Hid. by rewrite elem_of_list_to_set in Hid.
Qed.

(** With a parallelism at every job without parents, the loop ends with one at
    every job. *)
Lemma build_parallelism_spec fuel rounds : forall jobs,
  (forall k, is_Some (jobs0 !! k) -> c2p !! k = None -> 0 < par_of jobs0 k) ->
  (forall id, is_Some (jobs0 !! id) -> (Z.to_nat id < fuel)%nat) ->
  resolving jobs -> (size (zeros jobs) < rounds)%nat ->
  exists jobs', build_parallelism rounds fuel c2p jobs = Some (Ok jobs') /\ resolving jobs' /\
    forall id, is_Some (jobs0 !! id) -> 0 < par_of jobs' id.
Proof.
  induction rounds as [|rounds IH]; intros jobs Hroot Hf Hr Hn; [lia|]. cbn [build_parallelism].
  destruct (round_spec fuel jobs Hr Hf) as (jobs1 & -> & Hr1 & Hk & Hnil & Hready). cbn [rbind]. case_decide as Hz.
  - apply nil_length_inv in Hz. rewrite (Hnil Hz) in *. exists jobs. split_and!; try done. intros id Hid.
    pose proof (rs_pos _ Hr id). destruct (decide (par_of jobs id = 0)) as [H0|]; [|lia].
    assert (id ∈ no_parallelism_jobs jobs) as Hin by (apply elem_of_no_parallelism; [done|by rewrite same_jobs_is_Some]).
    rewrite Hz in Hin. set_solver.
  - apply IH; [done|done|done|]. enough (zeros jobs1 ⊂ zeros jobs) as Hsub by (apply subset_size in Hsub; lia).
    assert (exists id, id ∈ no_parallelism_jobs jobs) as [id Hid] by (destruct (no_parallelism_jobs jobs) as [|x ?]; [done|exists x; by left]).
    apply elem_of_no_parallelism in Hid as [Hs H0]; [|done]. rewrite same_jobs_is_Some in Hs by done.
    destruct (ready_job jobs id Hr Hroot Hs H0) as (k & Hks & Hk0 & Hpp).
    assert (k ∈ zeros jobs) as Hkz by (apply elem_of_zeros; [done|by rewrite same_jobs_is_Some]).
    pose proof (Hready k Hkz Hpp) as Hkpos. apply elem_of_subset. split.
    + intros x Hx. apply elem_of_zeros in Hx as [Hx Hx0]; [|done]. apply elem_of_zeros; [done|].
      rewrite same_jobs_is_Some in Hx |- * by done. split; [done|].
      pose proof (rs_pos _ Hr x). destruct (decide (par_of jobs x = 0)); [done|]. rewrite Hk in Hx0; lia.
    + intros Hsub. specialize (Hsub k Hkz). apply elem_of_zeros in Hsub as [_ Hsub]; [lia|done].
Qed.

(** A job without parents and without a parallelism keeps the loop going. *)
Lemma build_parallelism_diverges fuel rounds : forall jobs k,
  (forall id, is_Some (jobs0 !! id) -> (Z.to_nat id < fuel)%nat) ->
  is_Some (jobs0 !! k) -> c2p !! k = None -> par_of jobs0 k = 0 -> resolving jobs ->
  build_parallelism rounds fuel c2p jobs = None.
Proof.
  induction rounds as [|rounds IH]; intros jobs k Hf Hs Hc H0 Hr; [done|]. cbn [build_parallelism].
  destruct (round_spec fuel jobs Hr Hf) as (jobs1 & -> & Hr1 & _ & _ & _). cbn [rbind].
  assert (k ∈ no_parallelism_jobs jobs) as Hin.
  { apply elem_of_no_parallelism; [done|]. rewrite same_jobs_is_Some by done. split; [done|].
    pose proof (rs_pos _ Hr k). destruct (decide (par_of jobs k = 0)) as [|Hne]; [done|].
    destruct (rs_inh _ Hr k H0) as (p & (ps & j & Hps & _) & _); [lia|]. congruence. }
  rewrite decide_False; [by eapply IH|]. destruct (no_parallelism_jobs jobs); [set_solver|done].
Qed.

Lemma resolving_start : resolving jobs0.
Proof. split; try done; [apply Hok|]. intros id H0 Hpos. lia. Qed.
End resolve.

(** ** The walk from a source to its sink *)

(** [StreamGraph::new] of a raw graph. *)
Definition sg_of (g : RawStreamGraph) : StreamGraph := mkStreamGraph (sources g) (dag g).

Section walk.
Context (g : RawStreamGraph) (Hg : ginv g []).

Definition type_at (i : nat) (t : OperatorType) : Prop := a_type <$> abs g !! i = Some t.

(** The next operator of the same job. *)
Definition next (i c : nat) : Prop :=
  exists n e, raw_nodes (dag g) !! i = Some n /\ sn_operator_type n <> OT_Sink /\ children (dag g) i = [(e, c)].

Inductive job_path : nat -> list nat -> list (EdgeIndex * NodeIndex) -> Prop :=
  | jp_sink i n : raw_nodes (dag g) !! i = Some n -> sn_operator_type n = OT_Sink -> job_path i [i] (children (dag g) i)
  | jp_next i c js cs : next i c -> job_path c js cs -> job_path i (i :: js) cs.

Lemma node_at i : (i < length (raw_nodes (dag g)))%nat ->
  exists n, raw_nodes (dag g) !! i = Some n /\ abs g !! i = Some (abs_node n).
Proof.
  intros Hi. destruct (lookup_lt_is_Some_2 _ _ Hi) as [n Hn]. exists n. split; [done|]. unfold abs. by rewrite list_lookup_fmap, Hn.
Qed.

(** The children of a node, when no stream is held. *)
Lemma children_cases i n : raw_nodes (dag g) !! i = Some n ->
  match children (dag g) i with
  | [] => sn_operator_type n = OT_Sink
  | [(_, c)] => (i < c < length (raw_nodes (dag g)))%nat /\
      exists m, raw_nodes (dag g) !! c = Some m /\ i ∈ a_parents (abs_node m) /\
        (sn_operator_type m = OT_Source <-> sn_operator_type n = OT_Sink)
  | _ => False
  end.
Proof.
  intros Hn. assert (abs g !! i = Some (abs_node n)) as Ha by (unfold abs; by rewrite list_lookup_fmap, Hn).
  pose proof (children_shape g [] i _ Hg Ha) as Hc. destruct (children (dag g) i) as [|[e c] [|]]; [|..|done].
  - destruct Hc as [?|?]; [done|set_solver].
  - destruct Hc as (_ & Hlt & b & (m & Hm & ->)%abs_lookup & Hp & Hty). split; [split; [done|by apply lookup_lt_Some in Hm]|]. by exists m.
Qed.

Lemma next_spec i c : next i c -> (i < c < length (raw_nodes (dag g)))%nat /\
  exists m, raw_nodes (dag g) !! c = Some m /\ i ∈ a_parents (abs_node m) /\ sn_operator_type m <> OT_Source.
Proof.
  intros (n & e & Hn & Hty & Hc). pose proof (children_cases i n Hn) as H. rewrite Hc in H. destruct H as (Hlt & m & Hm & Hp & Hs).
  split; [done|]. exists m. split_and!; try done. tauto.
Qed.

Lemma job_path_exists i : (i < length (raw_nodes (dag g)))%nat -> exists js cs, job_path i js cs.
Proof.
  remember (length (raw_nodes (dag g)) - i)%nat as k eqn:Hk. revert i Hk.
  induction (lt_wf k) as [k _ IH]. intros i -> Hi. destruct (node_at i Hi) as (n & Hn & _).
  destruct (decide (sn_operator_type n = OT_Sink)) as [Hs|Hs]; [eexists _, _; by eapply jp_sink|].
  pose proof (children_cases i n Hn) as Hc. destruct (children (dag g) i) as [|[e c] [|]] eqn:Ec; try done.
  assert (next i c) as Hnext by (by exists n, e). destruct (next_spec i c Hnext) as [Hlt _].
  destruct (IH (length (raw_nodes (dag g)) - c)%nat) with (i := c) as (js & cs & Hp); [lia|done|lia|].
  exists (i :: js), cs. by eapply jp_next.
Qed.

(** The nodes of a path. *)
Definition nodes_at (js : list nat) : list StreamNode := omap (fun i => raw_nodes (dag g) !! i) js.

Lemma child_ids_ok cs : (forall c, c ∈ cs -> (c.2 < length (raw_nodes (dag g)))%nat) ->
  child_ids (sg_of g) cs = Ok ((fun c => Z.of_nat c.2) <$> cs).
Proof.
  intros Hcs. unfold child_ids.
  assert (forall acc, foldM (fun acc c => let* n := stream_node (sg_of g) c.2 in Ok (acc ++ [job_id_from (sn_id n)])) acc cs =
    Ok (E := DagError) (acc ++ ((fun c => Z.of_nat c.2) <$> cs))) as H; [|by rewrite H].
  induction cs as [|c cs IH]; intros acc; [simpl; by rewrite app_nil_r|]. cbn [foldM].
  destruct (node_at c.2) as (n & Hn & _); [apply Hcs; by left|]. unfold stream_node, dag_index. simpl. rewrite Hn. simpl.
  rewrite IH by (intros; apply Hcs; by right). rewrite <- app_assoc. simpl. unfold job_id_from. by rewrite (ri_ids g (proj1 Hg) _ _ Hn).
Qed.

Lemma children_range i n : raw_nodes (dag g) !! i = Some n -> forall c, c ∈ children (dag g) i -> (c.2 < length (raw_nodes (dag g)))%nat.
Proof.
  intros Hn [e c] Hin. apply elem_of_children in Hin as (ed & He & _ & Ht). apply list_elem_of_lookup_2 in He.
  pose proof (ri_edges g (proj1 Hg)) as Hed. rewrite Forall_forall in Hed. specialize (Hed _ He). simpl. lia.
Qed.

(** The walk returns the path it goes. *)
Definition walk_result (acc : list StreamNode) (par : Z) (jid : JobId) (js : list nat) (cs : list (EdgeIndex * NodeIndex)) : JobNode :=
  mkJobNode
    (foldl (fun jid n => if decide (sn_operator_type n = OT_Source) then sn_id n else jid) jid (nodes_at js))
    (foldl (fun p n => Z.max p (sn_parallelism n)) par (nodes_at js))
    (acc ++ nodes_at js) ((fun c => Z.of_nat c.2) <$> cs) [].

Lemma walk_job_path i js cs : job_path i js cs -> forall fuel acc par jid,
  (length (raw_nodes (dag g)) - i < fuel)%nat ->
  walk_job fuel (sg_of g) i acc par jid = Some (Ok (walk_result acc par jid js cs)).
Proof.
  induction 1 as [i n Hn Hty|i c js cs Hnext Hp IH]; intros fuel acc par jid Hf; (destruct fuel as [|fuel]; [lia|]);
    cbn [walk_job]; unfold stream_node, dag_index; cbn [sg_of sg_dag].
  - rewrite Hn. cbn [unwrap rbind]. rewrite (decide_True (P := sn_operator_type n = OT_Sink)) by done.
    rewrite child_ids_ok by (by eapply children_range). cbn [rbind].
    unfold walk_result, nodes_at. cbn [omap list_omap]. rewrite Hn. cbn [foldl]. done.
  - destruct (next_spec i c Hnext) as [Hlt _]. destruct Hnext as (n & e & Hn & Hty & Hc).
    rewrite Hn, Hc. cbn [unwrap rbind snd]. rewrite (decide_False (P := sn_operator_type n = OT_Sink)) by done.
    rewrite IH by lia. unfold walk_result. cbn [nodes_at omap list_omap]. rewrite Hn. cbn [foldl]. by rewrite <- app_assoc.
Qed.

(** ** Who owns an operator *)
Lemma next_det i c c' : next i c -> next i c' -> c = c'.
Proof. intros (n & e & _ & _ & H) (n' & e' & _ & _ & H'). rewrite H in H'. by simplify_eq. Qed.

Lemma next_inj i i' c : next i c -> next i' c -> i = i'.
Proof.
  intros Hi Hi'. apply next_spec in Hi as (_ & m & Hm & Hp & Hty). apply next_spec in Hi' as (_ & m' & Hm' & Hp' & _). simplify_eq.
  assert (abs g !! c = Some (abs_node m)) as Ha by (unfold abs; by rewrite list_lookup_fmap, Hm).
  pose proof (sh_nodes _ _ (proj2 Hg) _ _ Ha) as Hok. unfold node_ok in Hok. rewrite decide_False in Hok by done.
  destruct Hok as (p & b & Hps & _). rewrite Hps in Hp, Hp'. set_solver.
Qed.

Definition is_source_at (i : nat) : Prop := exists n, raw_nodes (dag g) !! i = Some n /\ sn_operator_type n = OT_Source.

Lemma next_not_source i c : next i c -> ~ is_source_at c.
Proof. intros Hn (n & Hc & Hty). apply next_spec in Hn as (_ & m & Hm & _ & Hm'). by simplify_eq. Qed.

Lemma owner_unique s s' j : is_source_at s -> is_source_at s' -> rtc next s j -> rtc next s' j -> s = s'.
Proof.
  intros Hs Hs' H. revert j H s' Hs'.
  refine (rtc_ind_r (fun j => forall s', is_source_at s' -> rtc next s' j -> s = s') s _ _); [intros s' Hs' H'|intros j c Hsj Hn IH s' Hs' H'].
  - apply rtc_inv_r in H' as [->|(k & _ & Hk)]; [done|]. by apply next_not_source in Hk.
  - apply rtc_inv_r in H' as [->|(k & Hk & Hkc)]; [by apply next_not_source in Hn|].
    rewrite (next_inj _ _ _ Hkc Hn) in Hk. by apply IH.
Qed.

Lemma parent_child p j n : raw_nodes (dag g) !! j = Some n -> p ∈ a_parents (abs_node n) -> exists e, (e, j) ∈ children (dag g) p.
Proof.
  intros Hn Hin. assert (abs g !! j = Some (abs_node n)) as Ha by (unfold abs; by rewrite list_lookup_fmap, Hn).
  rewrite (abs_parents g _ _ (proj1 Hg) Ha) in Hin. apply list_elem_of_fmap in Hin as (ed & Hed & Hin).
  apply list_elem_of_filter in Hin as [Ht Hin]. apply list_elem_of_lookup in Hin as [e He]. exists e. apply elem_of_children. by exists ed.
Qed.

Definition is_sink_node (k : nat) : Prop := exists n, raw_nodes (dag g) !! k = Some n /\ sn_operator_type n = OT_Sink.

Lemma sink_unique s k k' : is_sink_node k -> is_sink_node k' -> rtc next s k -> rtc next s k' -> k = k'.
Proof.
  intros (n & Hn & Hty) (n' & Hn' & Hty') H. induction H as [x|x y z Hxy _ IH]; intros H'; apply rtc_inv in H' as [<-|(y' & Hxy' & H')].
  - done.
  - destruct Hxy' as (? & ? & ? & ? & _). by simplify_eq.
  - destruct Hxy as (? & ? & ? & ? & _). by simplify_eq.
  - rewrite (next_det _ _ _ Hxy' Hxy) in H'. auto.
Qed.

Lemma owner_exists j : (j < length (raw_nodes (dag g)))%nat -> exists s, is_source_at s /\ rtc next s j.
Proof.
  induction (lt_wf j) as [j _ IH]. intros Hj. destruct (node_at j Hj) as (n & Hn & Ha).
  destruct (decide (sn_operator_type n = OT_Source)) as [Hs|Hs]; [exists j; split; [by exists n|done]|].
  pose proof (sh_nodes _ _ (proj2 Hg) _ _ Ha) as Hok. unfold node_ok in Hok. rewrite decide_False in Hok by done.
  destruct Hok as (p & b & Hps & Hb & Hnk & _). destruct (abs_lookup _ _ _ Hb) as (m & Hm & ->).
  assert (p < j)%nat as Hlt by (eapply (sh_order _ _ (proj2 Hg) _ _ _ Ha); rewrite Hps; by left).
  destruct (IH p Hlt) as (s & Hs' & Hr); [by apply lookup_lt_Some in Hm|]. exists s. split; [done|].
  eapply rtc_r; [done|]. exists m.
  destruct (parent_child p j n Hn) as [e He]; [rewrite Hps; by left|].
  exists e. split_and!; try done. pose proof (children_cases p m Hm) as Hc.
  destruct (children (dag g) p) as [|[e' c'] [|]]; [set_solver| |done]. f_equal. set_solver.
Qed.

Lemma rtc_next_le i j : rtc next i j -> (i <= j)%nat.
Proof. induction 1 as [|x y z Hn _ IH]; [done|]. apply next_spec in Hn as [? _]. lia. Qed.

Lemma job_path_elem i js cs : job_path i js cs -> forall j, j ∈ js <-> rtc next i j.
Proof.
  induction 1 as [i n Hn Hty|i c js cs Hnext Hp IH]; intros j.
  - rewrite list_elem_of_singleton. split; [by intros ->|]. intros H. apply rtc_inv in H as [?|(k & (n' & e & Hn' & Hty' & _) & _)]; [done|]. by simplify_eq.
  - rewrite elem_of_cons, IH. split.
    + intros [->|H]; [done|]. by eapply rtc_l.
    + intros H. apply rtc_inv in H as [->|(k & Hk & H)]; [by left|]. right. by rewrite (next_det _ _ _ Hnext Hk).
Qed.

Lemma job_path_NoDup i js cs : job_path i js cs -> NoDup js.
Proof.
  induction 1 as [i n Hn Hty|i c js cs Hnext Hp IH]; [apply NoDup_singleton|]. apply NoDup_cons. split; [|done].
  rewrite (job_path_elem _ _ _ Hp). intros H%rtc_next_le. apply next_spec in Hnext as [? _]. lia.
Qed.

(** The path begins with its source and ends with the sink whose children it has. *)
Lemma job_path_ends i js cs : job_path i js cs ->
  head js = Some i /\ exists k n, last js = Some k /\ raw_nodes (dag g) !! k = Some n /\ sn_operator_type n = OT_Sink /\ cs = children (dag g) k.
Proof.
  induction 1 as [i n Hn Hty|i c js cs Hnext Hp [IH1 IH2]]; (split; [done|]); [by exists i, n|].
  destruct IH2 as (k & n & Hk & ?). exists k, n. split; [|done]. destruct js; [done|]. by rewrite last_cons_cons.
Qed.

Lemma nodes_at_lookup js : Forall (fun j => (j < length (raw_nodes (dag g)))%nat) js ->
  forall k, nodes_at js !! k = js !! k ≫= (fun i => raw_nodes (dag g) !! i).
Proof.
  unfold nodes_at. induction 1 as [|j js Hj _ IH]; intros k; [done|]. destruct (node_at j Hj) as (n & Hn & _).
  cbn [omap list_omap]. rewrite Hn. destruct k; simpl; [done|]. apply IH.
Qed.

Lemma job_path_range i js cs : job_path i js cs -> Forall (fun j => (j < length (raw_nodes (dag g)))%nat) js.
Proof.
  induction 1 as [i n Hn Hty|i c js cs Hnext Hp IH]; (constructor; [|done]); [by apply lookup_lt_Some in Hn|].
  apply next_spec in Hnext as [? _]. lia.
Qed.

(** Every operator is on the path of exactly one source. *)
Lemma paths_partition ss paths :
  (forall i, i ∈ ss <-> is_source_at i) -> NoDup ss ->
  Forall2 (fun s js => exists cs, job_path s js cs) ss paths ->
  concat paths ≡ₚ seq 0 (length (raw_nodes (dag g))).
Proof.
  intros Hss Hnd Hp.
  assert (forall j, j ∈ concat paths <-> exists s, s ∈ ss /\ rtc next s j) as Hin.
  { clear Hss Hnd. induction Hp as [|s js ss paths (cs & Hpath) _ IH]; intros j; simpl; [set_solver|].
    rewrite elem_of_app, (job_path_elem _ _ _ Hpath), IH. split; [intros [?|(s' & ? & ?)]; set_solver|].
    intros (s' & [->|?]%elem_of_cons & ?); [by left|right; eauto]. }
  apply NoDup_Permutation; [|apply NoDup_seq|].
  - clear Hin. assert (forall i, i ∈ ss -> is_source_at i) as Hsrc by (intros; by apply Hss). clear Hss.
    induction Hp as [|s js ss paths (cs & Hpath) Hp IH]; simpl; [constructor|].
    apply NoDup_cons in Hnd as [Hs Hnd]. apply NoDup_app. split_and!; [by eapply job_path_NoDup| |apply IH; [done|set_solver]].
    intros j Hj Hin. rewrite (job_path_elem _ _ _ Hpath) in Hj.
    assert (exists s', s' ∈ ss /\ rtc next s' j) as (s' & Hs' & Hr).
    { clear - Hp Hin. induction Hp as [|s' js' ss paths (cs' & Hpath') _ IH]; simpl in Hin; [set_solver|].
      apply elem_of_app in Hin as [Hin|Hin]; [exists s'; split; [by left|by apply (job_path_elem _ _ _ Hpath')]|].
      destruct (IH Hin) as (x & ? & ?). exists x. split; [by right|done]. }
    apply Hs. rewrite (owner_unique s s' j); [done|apply Hsrc; set_solver|apply Hsrc; set_solver|done|done].
  - intros j. rewrite Hin, elem_of_seq. split.
    + intros (s & Hs & Hr). split; [lia|]. simpl. apply Hss in Hs as (n & Hn & _). apply lookup_lt_Some in Hn.
      apply rtc_inv_r in Hr as [->|(k & _ & Hk)]; [done|]. apply next_spec in Hk as [? _]. lia.
    + intros [_ Hj]. destruct (owner_exists j Hj) as (s & Hs & Hr). exists s. split; [by apply Hss|done].
Qed.

(** ** The job of a source *)
Definition job_at (s : nat) (j : JobNode) : Prop :=
  exists js cs, job_path s js cs /\ j = walk_result [] DEFAULT_PARALLELISM 0 js cs.

Lemma job_path_det s js cs js' cs' : job_path s js cs -> job_path s js' cs' -> js = js' /\ cs = cs'.
Proof.
  intros H. revert js' cs'. induction H as [i n Hn Hty|i c js cs Hnext Hp IH]; intros js' cs' H';
    inversion H' as [i' n' Hn' Hty'|i' c' js'' cs'' Hnext' Hp']; subst; try done.
  - destruct Hnext' as (? & ? & ? & ? & _). by simplify_eq.
  - destruct Hnext as (? & ? & ? & ? & _). by simplify_eq.
  - rewrite <- (next_det _ _ _ Hnext Hnext') in Hp'. by destruct (IH _ _ Hp') as [-> ->].
Qed.

Lemma job_at_det s j j' : job_at s j -> job_at s j' -> j = j'.
Proof. intros (js & cs & Hp & ->) (js' & cs' & Hp' & ->). by destruct (job_path_det _ _ _ _ _ Hp Hp') as [-> ->]. Qed.

Lemma job_path_rest s js cs : job_path s js cs -> forall j, j ∈ tail js -> ~ is_source_at j.
Proof.
  intros Hp. inversion Hp as [i n Hn Hty|i c js' cs' Hnext Hp']; subst; simpl; [set_solver|].
  intros j. rewrite (job_path_elem _ _ _ Hp'). intros Hr. apply rtc_inv_r in Hr as [->|(k & _ & Hk)]; by eapply next_not_source.
Qed.

Lemma job_path_nodes s js cs n : job_path s js cs -> raw_nodes (dag g) !! s = Some n -> nodes_at js = n :: nodes_at (tail js).
Proof.
  intros Hp Hn. apply job_path_ends in Hp as [Hh _]. destruct js as [|j js]; [done|]. simpl in Hh. simplify_eq.
  unfold nodes_at. cbn [omap list_omap tail]. by rewrite Hn.
Qed.

Lemma job_at_id s j : is_source_at s -> job_at s j -> jn_job_id j = Z.of_nat s.
Proof.
  intros (n & Hn & Hty) (js & cs & Hp & ->). unfold walk_result. cbn [jn_job_id].
  rewrite (job_path_nodes _ _ _ _ Hp Hn). cbn [foldl]. rewrite decide_True, (ri_ids g (proj1 Hg) _ _ Hn) by done.
  pose proof (job_path_rest _ _ _ Hp) as Hrest. revert Hrest. generalize (Z.of_nat s), (tail js). clear -Hg.
  intros z l. induction l as [|j l IH]; intros Hrest; [done|]. unfold nodes_at in *. cbn [omap list_omap].
  destruct (raw_nodes (dag g) !! j) as [m|] eqn:Em; [|apply IH; set_solver]. cbn [foldl].
  rewrite decide_False; [apply IH; set_solver|]. intros Hty. apply (Hrest j); [by left|]. by exists m.
Qed.

(** The sink of a job, and its children. *)
Lemma job_at_sink s j : job_at s j -> exists k n, rtc next s k /\ raw_nodes (dag g) !! k = Some n /\ sn_operator_type n = OT_Sink /\
  last (jn_stream_nodes j) = Some n /\ jn_child_job_ids j = (fun c => Z.of_nat c.2) <$> children (dag g) k.
Proof.
  intros (js & cs & Hp & ->). destruct (job_path_ends _ _ _ Hp) as (_ & k & n & Hk & Hn & Hty & ->). exists k, n.
  split_and!; try done.
  - apply (job_path_elem _ _ _ Hp). by apply last_Some_elem_of.
  - simpl. apply last_Some in Hk as [js' ->]. unfold nodes_at. rewrite omap_app. cbn [omap list_omap]. rewrite Hn. apply last_snoc.
Qed.

Lemma job_at_exists s : is_source_at s -> exists j, job_at s j.
Proof.
  intros (n & Hn & _). destruct (job_path_exists s) as (js & cs & Hp); [by apply lookup_lt_Some in Hn|]. eexists. by exists js, cs.
Qed.

(** A job and the job behind it. *)
Lemma job_child s j c : job_at s j -> Z.of_nat c ∈ jn_child_job_ids j -> exists k m, rtc next s k /\
  raw_nodes (dag g) !! c = Some m /\ sn_operator_type m = OT_Source /\ k ∈ a_parents (abs_node m) /\ (s < c)%nat /\
  sn_id <$> last (jn_stream_nodes j) = Some (Z.of_nat k).
Proof.
  intros Hj Hc. destruct (job_at_sink s j Hj) as (k & n & Hr & Hn & Hty & Hl & Hcs). rewrite Hcs in Hc.
  apply list_elem_of_fmap in Hc as ([e c'] & Heq & Hin). simpl in Heq. apply Nat2Z.inj in Heq as <-.
  pose proof (children_cases k n Hn) as Hcc. destruct (children (dag g) k) as [|[e' c'] [|]]; [set_solver| |done].
  apply list_elem_of_singleton in Hin. simplify_eq. destruct Hcc as (Hlt & m & Hm & Hp & Hiff). exists k, m.
  split_and!; try done; [tauto|apply rtc_next_le in Hr; lia|]. rewrite Hl. simpl. by rewrite (ri_ids g (proj1 Hg) _ _ Hn).
Qed.

Lemma parent_job c m k : raw_nodes (dag g) !! c = Some m -> sn_operator_type m = OT_Source -> k ∈ a_parents (abs_node m) ->
  exists s j, is_source_at s /\ job_at s j /\ rtc next s k /\ Z.of_nat c ∈ jn_child_job_ids j /\
    sn_id <$> last (jn_stream_nodes j) = Some (Z.of_nat k).
Proof.
  intros Hm Hty Hk. assert (abs g !! c = Some (abs_node m)) as Ha by (unfold abs; by rewrite list_lookup_fmap, Hm).
  pose proof (sh_nodes _ _ (proj2 Hg) _ _ Ha) as Hok. unfold node_ok in Hok. rewrite decide_True in Hok by done.
  rewrite Forall_forall in Hok. specialize (Hok k Hk). destruct (abs g !! k) as [b|] eqn:Eb; [|done]. simpl in Hok. simplify_eq.
  destruct (abs_lookup _ _ _ Eb) as (n & Hn & ->). simpl in Hok.
  destruct (owner_exists k) as (s & Hs & Hr); [by apply lookup_lt_Some in Hn|]. destruct (job_at_exists s Hs) as [j Hj].
  exists s, j. split_and!; try done.
  all: destruct (job_at_sink s j Hj) as (k' & n' & Hr' & Hn' & Hty' & Hl & Hcs).
  all: assert (k' = k) as -> by (eapply sink_unique; unfold is_sink_node; eauto).
  - rewrite Hcs. apply list_elem_of_fmap. destruct (parent_child k c m Hm Hk) as [e He]. by exists (e, c).
  - simplify_eq. rewrite Hl. simpl. by rewrite (ri_ids g (proj1 Hg) _ _ Hn).
Qed.

(** ** The builder *)
Lemma elem_of_sources i : i ∈ sources g <-> is_source_at i.
Proof.
  rewrite (ri_sources g (proj1 Hg)), list_elem_of_filter, elem_of_seq. unfold is_source_at. split.
  - intros [Ht _]. destruct (abs g !! i) as [b|] eqn:E; [|done]. apply abs_lookup in E as (n & Hn & ->). simpl in Ht. exists n. split; [done|]. congruence.
  - intros (n & Hn & Hty). unfold abs. rewrite list_lookup_fmap, Hn. simpl. rewrite Hty. split; [done|]. apply lookup_lt_Some in Hn. lia.
Qed.

Lemma NoDup_sources : NoDup (sources g).
Proof. rewrite (ri_sources g (proj1 Hg)). apply NoDup_filter, NoDup_seq. Qed.

Lemma build_fold fuel ss : (length (raw_nodes (dag g)) < fuel)%nat -> Forall is_source_at ss ->
  exists jl, Forall2 job_at ss jl /\ forall b,
    foldR (fun b s => do* j := build_job_node fuel (sg_of g) s in Some (Ok (add_job b j))) b ss = Some (Ok (foldl add_job b jl)).
Proof.
  intros Hf. induction 1 as [|s ss (n & Hn & Hty) _ IH]; [by exists []|]. destruct IH as (jl & Hjl & Hfold).
  destruct (job_path_exists s) as (js & cs & Hp); [by apply lookup_lt_Some in Hn|].
  exists (walk_result [] DEFAULT_PARALLELISM 0 js cs :: jl). split; [constructor; [by exists js, cs|done]|].
  intros b. cbn [foldR foldl]. unfold build_job_node at 1. rewrite (walk_job_path _ _ _ Hp) by lia. cbn [rbind]. apply Hfold.
Qed.
End walk.

(** The maps of the builder, from the list of jobs. *)
Lemma jobs_of_list jl : NoDup (jn_job_id <$> jl) -> forall id j,
  jb_jobs (foldl add_job (mkBuilder ∅ ∅) jl) !! id = Some j <-> j ∈ jl /\ jn_job_id j = id.
Proof.
  induction jl as [|x jl IH] using rev_ind; intros Hnd id j; [simpl; set_solver|].
  rewrite foldl_app. cbn [foldl add_job jb_jobs]. rewrite fmap_app, NoDup_app in Hnd. destruct Hnd as (Hnd & Hx & _).
  rewrite elem_of_app, list_elem_of_singleton. destruct (decide (id = jn_job_id x)) as [->|Hne].
  - rewrite lookup_insert_eq. split; [intros; simplify_eq; auto|]. intros [[Hin|Hin] Hid]; [|by rewrite Hin]. exfalso.
    apply (Hx (jn_job_id x)); [|by left]. apply list_elem_of_fmap. eauto.
  - rewrite lookup_insert_ne by done. rewrite IH by done. split; [naive_solver|]. intros [[Hi| ->] Hj]; naive_solver.
Qed.

Lemma c2p_of_list jl c : Forall (fun j => (length (jn_child_job_ids j) <= 1)%nat) jl ->
  c2p_job_id_map (foldl add_job (mkBuilder ∅ ∅) jl) !! c =
  match filter (fun j => c ∈ jn_child_job_ids j) jl with [] => None | l => Some (jn_job_id <$> l) end.
Proof.
  induction jl as [|x jl IH] using rev_ind; intros Hl; [done|]. apply Forall_app in Hl as [Hl Hx]. rewrite Forall_singleton in Hx.
  rewrite foldl_app, filter_app. cbn [foldl add_job c2p_job_id_map]. specialize (IH Hl).
  set (m := c2p_job_id_map _) in *. destruct (jn_child_job_ids x) as [|d [|]] eqn:Ex; simpl in Hx; [| |lia]; cbn [foldl].
  - rewrite (filter_cons_False _ x []), filter_nil, app_nil_r; [done|]. rewrite Ex. set_solver.
  - unfold add_c2p. destruct (decide (d = c)) as [->|Hne].
    + rewrite lookup_insert_eq, IH, (filter_cons_True _ x []), filter_nil by (rewrite Ex; set_solver).
      destruct (filter _ jl); simpl; [done|]. by rewrite fmap_app.
    + rewrite lookup_insert_ne, IH by done. rewrite (filter_cons_False _ x []), filter_nil, app_nil_r; [done|]. rewrite Ex. set_solver.
Qed.

Lemma get_job_id_by_sink_spec jobs k p :
  (exists j, jobs !! p = Some j /\ sn_id <$> last (jn_stream_nodes j) = Some k) ->
  (forall q j, jobs !! q = Some j -> sn_id <$> last (jn_stream_nodes j) = Some k -> jn_job_id j = p) ->
  get_job_id_by_sink jobs k = Some p.
Proof.
  intros (j & Hj & Hk) Hu. unfold get_job_id_by_sink.
  destruct (list_find _ _) as [[n j']|] eqn:E; simpl.
  - apply list_find_Some in E as (Hn & Hk' & _). apply list_elem_of_lookup_2 in Hn. apply list_elem_of_fmap in Hn as ([q j''] & -> & Hin).
    apply elem_of_hiter in Hin. f_equal. by eapply Hu.
  - apply list_find_None in E. rewrite Forall_forall in E. exfalso. apply (E j); [|done].
    apply list_elem_of_fmap. exists (p, j). split; [done|]. by apply elem_of_hiter.
Qed.

Section builder.
Context (g : RawStreamGraph) (Hg : ginv g []).
Context (jl : list JobNode) (Hjl : Forall2 (job_at g) (sources g) jl).

Definition the_c2p : gmap JobId (list JobId) := c2p_job_id_map (foldl add_job (mkBuilder ∅ ∅) jl).
Definition the_jobs : gmap JobId JobNode :=
  (fun j => set_jn_parents (default [] (the_c2p !! jn_job_id j)) j) <$> jb_jobs (foldl add_job (mkBuilder ∅ ∅) jl).

Lemma jl_ids : jn_job_id <$> jl = Z.of_nat <$> sources g.
Proof.
  assert (Forall (is_source_at g) (sources g)) as Hs by (apply Forall_forall; intros i Hi; by apply (elem_of_sources g Hg)).
  revert Hjl Hs. clear -Hg. induction 1 as [|s j ss jl Hj _ IH]; intros Hs; [done|]. apply Forall_cons in Hs as [Hs Hss].
  rewrite !fmap_cons, IH by done. f_equal. by apply (job_at_id g Hg).
Qed.

Lemma jl_NoDup : NoDup (jn_job_id <$> jl).
Proof. rewrite jl_ids. apply NoDup_fmap_2; [apply _|]. by apply NoDup_sources. Qed.

Lemma elem_of_jl j : j ∈ jl <-> exists s, is_source_at g s /\ job_at g s j.
Proof.
  split.
  - intros Hj. apply list_elem_of_lookup in Hj as [i Hi]. destruct (Forall2_lookup_r _ _ _ _ _ Hjl Hi) as (s & Hs & Hsj).
    exists s. split; [|done]. apply (elem_of_sources g Hg). by eapply list_elem_of_lookup_2.
  - intros (s & Hs & Hj). apply (elem_of_sources g Hg) in Hs. apply list_elem_of_lookup in Hs as [i Hi].
    destruct (Forall2_lookup_l _ _ _ _ _ Hjl Hi) as (j' & Hj' & Hsj). apply list_elem_of_lookup. exists i. rewrite Hj'. f_equal.
    by eapply job_at_det.
Qed.

Lemma the_jobs_lookup id j : the_jobs !! id = Some j <->
  exists s j0, id = Z.of_nat s /\ is_source_at g s /\ job_at g s j0 /\ j = set_jn_parents (default [] (the_c2p !! id)) j0.
Proof.
  unfold the_jobs. rewrite lookup_fmap_Some. split.
  - intros (j0 & <- & Hj0). apply jobs_of_list in Hj0 as [Hin Hid]; [|apply jl_NoDup]. apply elem_of_jl in Hin as (s & Hs & Hsj).
    exists s, j0. split_and!; try done; [by rewrite <- Hid, (job_at_id g Hg s)|by rewrite Hid].
  - intros (s & j0 & -> & Hs & Hsj & ->). exists j0. pose proof (job_at_id g Hg s j0 Hs Hsj) as Hid. split; [by rewrite Hid|].
    apply jobs_of_list; [apply jl_NoDup|]. split; [|done]. apply elem_of_jl. eauto.
Qed.

Lemma jl_children : Forall (fun j => (length (jn_child_job_ids j) <= 1)%nat) jl.
Proof.
  apply Forall_forall. intros j Hj. apply elem_of_jl in Hj as (s & Hs & Hsj).
  destruct (job_at_sink g s j Hsj) as (k & n & _ & Hn & _ & _ & ->). rewrite length_fmap.
  pose proof (children_cases g Hg k n Hn) as Hc. destruct (children (dag g) k) as [|[] [|]]; simpl; [lia|lia|done].
Qed.

(** The parents of a job: the jobs whose sink its source reads. *)
Lemma the_c2p_lookup id ps : the_c2p !! id = Some ps ->
  ps <> [] /\ NoDup ps /\ forall p, p ∈ ps <-> exists s j, p = Z.of_nat s /\ is_source_at g s /\ job_at g s j /\ id ∈ jn_child_job_ids j.
Proof.
  unfold the_c2p. rewrite c2p_of_list by apply jl_children. intros H.
  assert (filter (fun j => id ∈ jn_child_job_ids j) jl <> [] /\ ps = jn_job_id <$> filter (fun j => id ∈ jn_child_job_ids j) jl) as [Hne ->]
    by (destruct (filter _ jl); by simplify_eq).
  split_and!.
  - by intros Hn%fmap_nil_inv.
  - apply NoDup_fmap_filter, jl_NoDup.
  - intros p. rewrite list_elem_of_fmap. split.
    + intros (j & -> & Hj). apply list_elem_of_filter in Hj as [Hc Hj]. apply elem_of_jl in Hj as (s & Hs & Hsj).
      exists s, j. split_and!; try done. by apply (job_at_id g Hg).
    + intros (s & j & -> & Hs & Hsj & Hc). exists j. split; [by rewrite (job_at_id g Hg s)|]. apply list_elem_of_filter. split; [done|].
      apply elem_of_jl. eauto.
Qed.

Lemma the_c2p_None id : the_c2p !! id = None -> forall s j, is_source_at g s -> job_at g s j -> id ∉ jn_child_job_ids j.
Proof.
  unfold the_c2p. rewrite c2p_of_list by apply jl_children. intros H s j Hs Hsj Hc.
  assert (j ∈ filter (fun j => id ∈ jn_child_job_ids j) jl) as Hin by (apply list_elem_of_filter; split; [done|]; apply elem_of_jl; eauto).
  destruct (filter _ jl); [set_solver|done].
Qed.

Lemma foldl_max_ge (ns : list StreamNode) z : z <= foldl (fun p n => Z.max p (sn_parallelism n)) z ns.
Proof. revert z. induction ns as [|n ns IH]; intros z; simpl; [lia|]. etrans; [|apply IH]. lia. Qed.

Lemma job_at_first s j n : raw_nodes (dag g) !! s = Some n -> job_at g s j -> jn_stream_nodes j !! 0%nat = Some n.
Proof. intros Hn (js & cs & Hp & ->). unfold walk_result. cbn [jn_stream_nodes app]. by rewrite (job_path_nodes g _ _ _ _ Hp Hn). Qed.

(** A job id in a list of children is the index of a source. *)
Lemma child_index s j id : job_at g s j -> id ∈ jn_child_job_ids j -> exists c, id = Z.of_nat c.
Proof. intros Hj Hid. destruct (job_at_sink g s j Hj) as (k & n & _ & _ & _ & _ & Hc). rewrite Hc in Hid. apply list_elem_of_fmap in Hid as (x & -> & _). eauto. Qed.

(** Several parents: the source feeds a co-process operator. *)
Lemma co_process_next c m j : raw_nodes (dag g) !! c = Some m -> sn_operator_type m = OT_Source -> job_at g c j ->
  (2 <= length (a_parents (abs_node m)))%nat -> is_co_process_job j = true.
Proof.
  intros Hm Hty (js & cs & Hp & ->) Hlen. inversion Hp as [i n Hn Hty'|i c' js' cs' Hnext Hp']; subst; [simplify_eq; congruence|].
  destruct (next_spec g Hg c c' Hnext) as (Hlt & n & Hn & Hin & Hns).
  assert (abs g !! c' = Some (abs_node n)) as Ha by (unfold abs; by rewrite list_lookup_fmap, Hn).
  pose proof (sh_nodes _ _ (proj2 Hg) _ _ Ha) as Hok. unfold node_ok in Hok. rewrite decide_False in Hok by done.
  destruct Hok as (p & b & Hps & Hb & _ & _ & _ & _ & Hone & _). rewrite Hps in Hin. apply list_elem_of_singleton in Hin as <-.
  unfold abs in Hb. rewrite list_lookup_fmap, Hm in Hb. cbn in Hb. simplify_eq. destruct Hone as [Hone|Hco]; [simpl in *; lia|].
  unfold is_co_process_job, has_type. apply bool_decide_eq_true. apply list_find_elem_of with n; [|done].
  unfold walk_result, nodes_at. cbn [jn_stream_nodes app]. apply list_elem_of_omap. exists c'. split; [|done]. right. apply (job_path_elem g _ _ _ Hp'). done.
Qed.

(** The left parent is found by the last id of the source. *)
Lemma left_parent c m j : raw_nodes (dag g) !! c = Some m -> sn_operator_type m = OT_Source -> job_at g c j -> a_parents (abs_node m) <> [] ->
  exists s js, is_source_at g s /\ job_at g s js /\ Z.of_nat c ∈ jn_child_job_ids js /\
    forall jobs ps, same_jobs the_jobs jobs -> get_parent_job_id jobs (set_jn_parallelism 0 (set_jn_parents ps j)) = Ok (Z.of_nat s).
Proof.
  intros Hm Hty Hj Hne. pose proof (ri_parents g (proj1 Hg) _ _ Hm) as Hids.
  destruct (last (sn_parent_ids m)) as [z|] eqn:El; cycle 1.
  { apply last_None in El. exfalso. apply Hne. simpl. by rewrite El. }
  apply last_Some_elem_of in El as Hz. rewrite Hids in Hz. apply list_elem_of_fmap in Hz as (ed & -> & Hed).
  assert (e_source ed ∈ a_parents (abs_node m)) as Hk.
  { assert (abs g !! c = Some (abs_node m)) as Ha by (unfold abs; by rewrite list_lookup_fmap, Hm).
    rewrite (abs_parents g _ _ (proj1 Hg) Ha). apply list_elem_of_fmap. by exists ed. }
  destruct (parent_job g Hg c m (e_source ed) Hm Hty Hk) as (s & js & Hs & Hjs & Hr & Hc & Hl).
  exists s, js. split_and!; try done. intros jobs ps Hsame. unfold get_parent_job_id. cbn [set_jn_parallelism set_jn_parents jn_stream_nodes].
  rewrite (job_at_first c j m Hm Hj). simpl. rewrite El. simpl. rewrite (get_job_id_by_sink_spec jobs (Z.of_nat (e_source ed)) (Z.of_nat s)); [done|..].
  - assert (the_jobs !! Z.of_nat s = Some (set_jn_parents (default [] (the_c2p !! Z.of_nat s)) js)) as Hjob
      by (apply the_jobs_lookup; by exists s, js).
    destruct (same_jobs_lookup _ _ _ _ Hsame Hjob) as [q Hq]. eexists. split; [exact Hq|]. done.
  - intros q jq Hjq Hlq. destruct (same_jobs_lookup jobs the_jobs q jq) as [pq Hpq]; [done|done|].
    apply the_jobs_lookup in Hpq as (sq & j0 & -> & Hsq & Hjq0 & Heq).
    assert (jn_job_id jq = jn_job_id j0 /\ jn_stream_nodes jq = jn_stream_nodes j0) as [Hidq Hsn]
      by (destruct jq, j0; unfold set_jn_parallelism, set_jn_parents in Heq; simpl in *; by simplify_eq).
    rewrite Hidq, (job_at_id g Hg sq j0 Hsq Hjq0). f_equal. rewrite Hsn in Hlq.
    destruct (job_at_sink g sq j0 Hjq0) as (k & n & Hrk & Hn & Hsink & Hlast & _). rewrite Hlast in Hlq. simpl in Hlq.
    rewrite (ri_ids g (proj1 Hg) _ _ Hn) in Hlq. simplify_eq. by apply (owner_unique g Hg sq s (e_source ed)).
Qed.

Lemma the_jobs_ok : jobs_ok the_c2p the_jobs.
Proof.
  split.
  - intros id j Hj. apply the_jobs_lookup in Hj as (s & j0 & -> & Hs & Hj0 & ->). split; [|lia]. simpl. by apply (job_at_id g Hg).
  - intros id. unfold par_of. destruct (the_jobs !! id) as [j|] eqn:E; [|simpl; lia]. simpl.
    apply the_jobs_lookup in E as (s & j0 & -> & Hs & (js & cs & _ & ->) & ->). simpl. apply foldl_max_ge.
  - intros id ps p Hps Hp. apply the_c2p_lookup in Hps as (_ & _ & Hel). apply Hel in Hp as (s & j & -> & Hs & Hj & Hc).
    destruct (child_index s j id Hj Hc) as [c ->]. destruct (job_child g Hg s j c Hj Hc) as (k & m & _ & _ & _ & _ & Hlt & _).
    split; [lia|]. eexists. apply the_jobs_lookup. eauto 6.
  - intros id ps j Hps Hj. apply the_jobs_lookup in Hj as (c & j0 & -> & (m & Hm & Hty) & Hj0 & ->).
    apply the_c2p_lookup in Hps as (Hne & Hnd & Hel).
    assert (forall p, p ∈ ps -> exists s k, p = Z.of_nat s /\ is_source_at g s /\ rtc (next g) s k /\ k ∈ a_parents (abs_node m)) as Hpar.
    { intros p Hp. apply Hel in Hp as (s & j & -> & Hs & Hj & Hc). destruct (job_child g Hg s j c Hj Hc) as (k & m' & Hr & Hm' & _ & Hk & _).
      simplify_eq. exists s, k. done. }
    destruct ps as [|p1 [|p2 ps]]; [done|done|]. split.
    + change (is_co_process_job j0 = true). apply (co_process_next c m j0 Hm Hty Hj0).
      destruct (Hpar p1) as (s1 & k1 & -> & Hs1 & Hr1 & Hk1); [by left|]. destruct (Hpar p2) as (s2 & k2 & -> & Hs2 & Hr2 & Hk2); [by right; left|].
      destruct (a_parents (abs_node m)) as [|x [|]]; simpl; [set_solver| |lia]. exfalso.
      apply list_elem_of_singleton in Hk1 as ->. apply list_elem_of_singleton in Hk2 as ->.
      rewrite (owner_unique g Hg s1 s2 x Hs1 Hs2 Hr1 Hr2) in Hnd. apply NoDup_cons in Hnd as [Hn _]. set_solver.
    + destruct (left_parent c m j0 Hm Hty Hj0) as (s & js & Hs & Hjs & Hc & Hleft).
      { destruct (Hpar p1) as (? & k & _ & _ & _ & Hk); [by left|]. intros He. rewrite He in Hk. set_solver. }
      exists (Z.of_nat s). split; [apply Hel; eauto 6|]. intros jobs Hsame. by apply Hleft.
Qed.
End builder.

(** ** What the builder returns *)

(** The sources the user registered: those without parents. *)
Definition user_source (g : RawStreamGraph) (n : StreamNode) : Prop :=
  n ∈ raw_nodes (dag g) /\ sn_operator_type n = OT_Source /\ sn_parent_ids n = [].

Lemma build_job_nodes_spec g fuel : ginv g [] -> (length (raw_nodes (dag g)) < fuel)%nat ->
  exists jl, Forall2 (job_at g) (sources g) jl /\
    build_job_nodes fuel (sg_of g) = Some (Ok (mkBuilder (the_c2p jl) (the_jobs jl))).
Proof.
  intros Hg Hf. destruct (build_fold g Hg fuel (sources g) Hf) as (jl & Hjl & Hfold).
  { apply Forall_forall. intros i Hi. by apply (elem_of_sources g Hg). }
  exists jl. split; [done|]. unfold build_job_nodes. cbn [sg_of sg_sources]. fold (sg_of g). rewrite Hfold. cbn [rbind]. done.
Qed.

Lemma the_jobs_index g jl id : ginv g [] -> Forall2 (job_at g) (sources g) jl -> is_Some (the_jobs jl !! id) ->
  exists s, id = Z.of_nat s /\ (s < length (raw_nodes (dag g)))%nat.
Proof.
  intros Hg Hjl [j Hj]. apply (the_jobs_lookup g Hg jl Hjl) in Hj as (s & j0 & -> & (n & Hn & _) & _). exists s. split; [done|]. by apply lookup_lt_Some in Hn.
Qed.

(** A job without parents is that of a user source. *)
Lemma root_job g jl id : ginv g [] -> Forall2 (job_at g) (sources g) jl -> is_Some (the_jobs jl !! id) -> the_c2p jl !! id = None ->
  exists s n j, id = Z.of_nat s /\ raw_nodes (dag g) !! s = Some n /\ user_source g n /\ job_at g s j /\ par_of (the_jobs jl) id = jn_parallelism j.
Proof.
  intros Hg Hjl [j' Hj'] Hc. pose proof Hj' as Hlk. apply (the_jobs_lookup g Hg jl Hjl) in Hj' as (s & j & -> & (n & Hn & Hty) & Hj & ->).
  exists s, n, j. split_and!; try done; [|by rewrite (par_of_lookup _ _ _ Hlk)].
  split_and!; [by eapply list_elem_of_lookup_2|done|].
  destruct (sn_parent_ids n) as [|z zs] eqn:Ez; [done|]. exfalso.
  destruct (parent_job g Hg s n (Z.to_nat z) Hn Hty) as (s' & j' & Hs' & Hj' & _ & Hin & _); [simpl; rewrite Ez; by left|].
  by apply (the_c2p_None g Hg jl Hjl _ Hc s' j' Hs' Hj').
Qed.

Lemma zeros_size g jl jobs : ginv g [] -> Forall2 (job_at g) (sources g) jl -> resolving (the_c2p jl) (the_jobs jl) jobs ->
  (size (zeros jobs) <= length (raw_nodes (dag g)))%nat.
Proof.
  intros Hg Hjl Hr. pose proof (the_jobs_ok g Hg jl Hjl) as Hok.
  transitivity (size (list_to_set (C := gset Z) (Z.of_nat <$> seq 0 (length (raw_nodes (dag g)))))).
  - apply subseteq_size. intros id Hid. apply (elem_of_zeros _ _ Hok) in Hid as [Hs _]; [|done].
    rewrite (same_jobs_is_Some _ _ _ _ Hr) in Hs. destruct (the_jobs_index g jl id Hg Hjl Hs) as (s & -> & Hlt).
    apply elem_of_list_to_set, list_elem_of_fmap. exists s. split; [done|]. apply elem_of_seq. lia.
  - rewrite size_list_to_set; [by rewrite length_fmap, length_seq|]. apply NoDup_fmap_2; [apply _|]. apply NoDup_seq.
Qed.

Lemma builder_spec g fuel : ginv g [] -> (forall n, user_source g n -> 0 < sn_parallelism n) -> (length (raw_nodes (dag g)) < fuel)%nat ->
  exists jl jobs, Forall2 (job_at g) (sources g) jl /\ builder_build fuel (sg_of g) = Some (Ok jobs) /\
    resolving (the_c2p jl) (the_jobs jl) jobs /\ forall id, is_Some (the_jobs jl !! id) -> 0 < par_of jobs id.
Proof.
  intros Hg Hpos Hf. destruct (build_job_nodes_spec g fuel Hg Hf) as (jl & Hjl & Hb).
  pose proof (the_jobs_ok g Hg jl Hjl) as Hok. pose proof (resolving_start _ _ Hok) as Hr.
  destruct (build_parallelism_spec _ _ Hok fuel fuel (the_jobs jl)) as (jobs & E & Hr' & Hall).
  - intros k Hk Hc. destruct (root_job g jl k Hg Hjl Hk Hc) as (s & n & j & -> & Hn & Hu & (js & cs & Hp & ->) & ->).
    simpl. rewrite (job_path_nodes g _ _ _ _ Hp Hn). cbn [foldl]. specialize (Hpos n Hu).
    pose proof (foldl_max_ge (nodes_at g (tail js)) (Z.max DEFAULT_PARALLELISM (sn_parallelism n))). lia.
  - intros id Hid. destruct (the_jobs_index g jl id Hg Hjl Hid) as (s & -> & Hs). lia.
  - done.
  - pose proof (zeros_size g jl _ Hg Hjl Hr). lia.
  - exists jl, jobs. split_and!; try done. unfold builder_build. rewrite Hb. cbn [rbind c2p_job_id_map jb_jobs]. done.
Qed.

(** In the job of a user source every operator has the parallelism of the source. *)
Lemma user_path_par g s n k m : ginv g [] -> raw_nodes (dag g) !! s = Some n -> user_source g n ->
  rtc (next g) s k -> raw_nodes (dag g) !! k = Some m ->
  sn_parallelism m = sn_parallelism n /\ sn_operator_type m <> OT_WindowAssigner /\ (sn_operator_type m = OT_Source -> k = s).
Proof.
  intros Hg Hn (_ & Hty & Hps) H. revert k H m.
  refine (rtc_ind_r (fun k => forall m, raw_nodes (dag g) !! k = Some m -> _) s _ _); [intros m Hm; simplify_eq; by rewrite Hty|].
  intros i c Hi Hic IH m Hm. destruct (next_spec g Hg i c Hic) as (Hlt & m' & Hm' & Hin & Hns). simplify_eq.
  destruct (node_at g i) as (b & Hb & Hab); [lia|]. destruct (IH b Hb) as (Hpar & Hnw & Hsrc).
  assert (abs g !! c = Some (abs_node m)) as Ha by (unfold abs; by rewrite list_lookup_fmap, Hm).
  pose proof (sh_nodes _ _ (proj2 Hg) _ _ Ha) as Hok. unfold node_ok in Hok. rewrite decide_False in Hok by done.
  destruct Hok as (p & b' & Hp & Hb' & _ & Hpeq & Hred & Hwin & _). rewrite Hp in Hin. apply list_elem_of_singleton in Hin as <-. simplify_eq.
  split_and!; [| |done].
  - destruct Hpeq as [Heq|[Hr _]]; [simpl in Heq; congruence|]. by destruct (Hnw (Hred Hr)).
  - intros Hw. destruct (Hwin Hw) as (Hbs & k1 & kn & ? & ? & Hk & _). assert (i = s) as -> by (by apply Hsrc). simplify_eq.
    simpl in Hk. by rewrite Hps in Hk.
Qed.

(** ** Nodes and edges of the job graph *)

(** The nodes are the jobs in the order of the map, and the index maps to them. *)
Definition indexed (jobs : gmap JobId JobNode) (jg : JobGraph) : Prop :=
  raw_nodes (jg_dag jg) = (hiter jobs).*2 /\
  forall id i, job_node_indies jg !! id = Some i <-> exists j, hiter jobs !! i = Some (id, j).

Lemma add_job_nodes_spec (l : list (JobId * JobNode)) : NoDup l.*1 -> Z.of_nat (length l) <= 2 ^ 32 - 1 ->
  exists jg, foldM add_job_node JobGraph_new l = Ok jg /\ raw_nodes (jg_dag jg) = l.*2 /\ raw_edges (jg_dag jg) = [] /\
    forall id i, job_node_indies jg !! id = Some i <-> exists j, l !! i = Some (id, j).
Proof.
  induction l as [|[id j] l IH] using rev_ind; intros Hnd Hlen.
  { exists JobGraph_new. simpl. rewrite raw_nodes_new, raw_edges_new. split_and!; try done. intros id i. rewrite lookup_empty. naive_solver. }
  rewrite fmap_app, NoDup_app in Hnd. destruct Hnd as (Hnd & Hid & _). rewrite length_app in Hlen. simpl in Hlen.
  destruct IH as (jg & E & Hn & He & Hi); [done|lia|]. rewrite foldM_app, E. cbn [mbind res_bind foldM]. unfold add_job_node.
  assert (is_Some (add_node (jg_dag jg) j)) as [[ni d] Ea] by (apply add_node_room; unfold has_room; rewrite Hn, length_fmap; lia).
  cbn [snd fst]. rewrite Ea. simpl. apply add_node_inv in Ea as (-> & Hn' & He'). eexists. split_and!; [done|..]; simpl.
  - by rewrite Hn', Hn, fmap_app.
  - by rewrite He'.
  - rewrite Hn, length_fmap. intros id' i. rewrite lookup_insert_Some, Hi. setoid_rewrite lookup_snoc_Some. split.
    + intros [[<- <-]|[Hne (j' & Hj')]]; [exists j; by right|]. exists j'. left. split; [|done]. by apply lookup_lt_Some in Hj'.
    + intros (j' & [[Hlt Hj']|[-> Heq]]); [right|left; by simplify_eq]. split; [|by exists j']. intros <-.
      apply (Hid id); [|by left]. apply list_elem_of_fmap. exists (id, j'). split; [done|]. by eapply list_elem_of_lookup_2.
Qed.

(** The edge out of a job: it has at most one child. *)
Definition edge_of (jg : JobGraph) (i : NodeIndex) : option (Edge JobEdge) :=
  ja ← raw_nodes (jg_dag jg) !! i;
  c ← head (jn_child_job_ids ja);
  ic ← job_node_indies jg !! c;
  jb ← raw_nodes (jg_dag jg) !! ic;
  match job_edge ja jb with Ok w => Some (mkEdge i ic w) | _ => None end.

(** What the edges need of the nodes: one child at most, which is there and has a
    greater id. *)
Record linkable (jg : JobGraph) : Prop := {
  lk_one : forall i ja, raw_nodes (jg_dag jg) !! i = Some ja -> (length (jn_child_job_ids ja) <= 1)%nat;
  lk_child : forall i ja c, raw_nodes (jg_dag jg) !! i = Some ja -> c ∈ jn_child_job_ids ja ->
    exists ic jb, job_node_indies jg !! c = Some ic /\ raw_nodes (jg_dag jg) !! ic = Some jb /\ jn_job_id jb = c /\
      0 <= jn_job_id ja < jn_job_id jb
}.

Definition rank (jg : JobGraph) (i : NodeIndex) : nat := default 0%nat ((fun j => Z.to_nat (jn_job_id j)) <$> raw_nodes (jg_dag jg) !! i).

Lemma job_edge_cases ja jb : (exists w, job_edge ja jb = Ok w) \/ job_edge ja jb = Err ReduceOutputParallelismConflict.
Proof. unfold job_edge. destruct (is_reduce_job jb), (is_reduce_job ja); repeat case_decide; eauto. Qed.

Lemma build_job_edge_spec jg i : linkable jg -> (i < length (raw_nodes (jg_dag jg)))%nat ->
  Forall (fun e => (rank jg (e_source e) < rank jg (e_target e))%nat) (raw_edges (jg_dag jg)) -> has_room (raw_edges (jg_dag jg)) ->
  match build_job_edge jg i with
  | Ok jg' => raw_nodes (jg_dag jg') = raw_nodes (jg_dag jg) /\ job_node_indies jg' = job_node_indies jg /\
      raw_edges (jg_dag jg') = raw_edges (jg_dag jg) ++ option_list (edge_of jg i) /\
      (forall ja c, raw_nodes (jg_dag jg) !! i = Some ja -> c ∈ jn_child_job_ids ja -> is_Some (edge_of jg i)) /\
      Forall (fun e => (rank jg (e_source e) < rank jg (e_target e))%nat) (raw_edges (jg_dag jg'))
  | Err e => e = ReduceOutputParallelismConflict
  | Panic _ => False
  end.
Proof.
  intros Hl Hi Hrank Hroom. destruct (lookup_lt_is_Some_2 _ _ Hi) as [ja Hja]. unfold build_job_edge, dag_index, edge_of. rewrite Hja. simpl.
  pose proof (lk_one jg Hl i ja Hja) as Hone. pose proof (fun c => lk_child jg Hl i ja c Hja) as Hchild.
  destruct (jn_child_job_ids ja) as [|c [|]] eqn:Ec; simpl in Hone; [| |lia]; simpl.
  { split_and!; try done; [by rewrite app_nil_r|]. intros ja' c Hj Hc. simplify_eq. rewrite Ec in Hc. set_solver. }
  destruct (Hchild c) as (ic & jb & Hic & Hjb & Hid & Hlt); [by left|]. rewrite Hic. simpl. rewrite Hjb. simpl.
  destruct (job_edge_cases ja jb) as [[w Hw]|Hw]; rewrite Hw; simpl; [|done].
  assert (rank jg i < rank jg ic)%nat as Hr by (unfold rank; rewrite Hja, Hjb; simpl; lia).
  pose proof (add_edge_acyclic _ _ (jg_dag jg) i ic w Hi (lookup_lt_Some _ _ _ Hjb) Hroom (ranked_no_path _ (rank jg) _ _ Hrank Hr)) as Hok.
  destruct (add_edge (jg_dag jg) i ic w) as [[ei d]| |] eqn:Ea; try done. simpl.
  apply add_edge_inv in Ea as (_ & Hn & He & _). split_and!; try done.
  rewrite He. apply Forall_app. split; [done|]. by constructor.
Qed.
Lemma edge_of_ext jg jg' i : raw_nodes (jg_dag jg') = raw_nodes (jg_dag jg) -> job_node_indies jg' = job_node_indies jg ->
  edge_of jg' i = edge_of jg i.
Proof. intros Hn Hi. unfold edge_of. by rewrite Hn, Hi. Qed.

Lemma build_edges_fold js : forall jg, linkable jg -> Forall (fun i => (i < length (raw_nodes (jg_dag jg)))%nat) js ->
  Forall (fun e => (rank jg (e_source e) < rank jg (e_target e))%nat) (raw_edges (jg_dag jg)) ->
  Z.of_nat (length (raw_edges (jg_dag jg)) + length js) <= 2 ^ 32 - 1 ->
  match foldM build_job_edge jg js with
  | Ok jg' => raw_nodes (jg_dag jg') = raw_nodes (jg_dag jg) /\ job_node_indies jg' = job_node_indies jg /\
      raw_edges (jg_dag jg') = raw_edges (jg_dag jg) ++ omap (edge_of jg) js /\
      (forall i ja c, i ∈ js -> raw_nodes (jg_dag jg) !! i = Some ja -> c ∈ jn_child_job_ids ja -> is_Some (edge_of jg i))
  | Err e => e = ReduceOutputParallelismConflict
  | Panic _ => False
  end.
Proof.
  induction js as [|i js IH]; intros jg Hl Hjs Hrank Hlen; cbn [foldM omap list_omap].
  { split_and!; try done; [by rewrite app_nil_r|set_solver]. }
  apply Forall_cons in Hjs as [Hi Hjs]. simpl in Hlen.
  pose proof (build_job_edge_spec jg i Hl Hi Hrank) as Hstep. destruct (build_job_edge jg i) as [jg1| |];
    [|apply Hstep; unfold has_room; lia|apply Hstep; unfold has_room; lia].
  destruct Hstep as (Hn & Hid & He & Hsome & Hrank1); [unfold has_room; lia|].
  assert (length (option_list (edge_of jg i)) <= 1)%nat by (destruct (edge_of jg i); simpl; lia).
  specialize (IH jg1). destruct (foldM build_job_edge jg1 js) as [jg'| |].
  - destruct IH as (Hn' & Hid' & He' & Hsome').
    + destruct Hl as [H1 H2]. split; intros; rewrite ?Hn, ?Hid in *; eauto.
    + by rewrite Hn.
    + unfold rank in *. by rewrite Hn.
    + rewrite He, length_app. lia.
    + split_and!; [congruence|congruence| |].
      * rewrite He', He, <- app_assoc. f_equal. assert (omap (edge_of jg1) js = omap (edge_of jg) js) as ->.
        { apply list_omap_ext, Forall_Forall2_diag, Forall_forall. intros k _. by apply edge_of_ext. }
        by destruct (edge_of jg i).
      * intros k ja c [->|Hk]%elem_of_cons Hja Hc; [by eapply Hsome|]. rewrite <- (edge_of_ext jg jg1) by done.
        eapply Hsome'; [done|by rewrite Hn|done].
  - apply IH; [|by rewrite Hn|unfold rank in *; by rewrite Hn|rewrite He, length_app; lia].
    destruct Hl as [H1 H2]. split; intros; rewrite ?Hn, ?Hid in *; eauto.
  - apply IH; [|by rewrite Hn|unfold rank in *; by rewrite Hn|rewrite He, length_app; lia].
    destruct Hl as [H1 H2]. split; intros; rewrite ?Hn, ?Hid in *; eauto.
Qed.

(** The greatest parallelism of the operators of a job. *)
Definition own_parallelism (j : JobNode) : Z := foldl (fun p n => Z.max p (sn_parallelism n)) 0 (jn_stream_nodes j).

Lemma omap_lookup_seq {A} (l : list A) : omap (fun i => l !! i) (seq 0 (length l)) = l.
Proof.
  induction l as [|x l IH] using rev_ind; [done|]. rewrite length_app, Nat.add_1_r, seq_S, omap_app. cbn [omap list_omap].
  simpl. rewrite list_lookup_middle by done. f_equal. rewrite <- IH at 2. apply list_omap_ext, Forall_Forall2_diag, Forall_forall.
  intros i [_ Hi]%elem_of_seq. by rewrite lookup_app_l.
Qed.

(** ** The jobs after the resolution *)
Section resolved.
Context (g : RawStreamGraph) (Hg : ginv g []) (jl : list JobNode) (Hjl : Forall2 (job_at g) (sources g) jl).
Context (jobs : gmap JobId JobNode) (Hr : resolving (the_c2p jl) (the_jobs jl) jobs).
Context (Hpos : forall id, is_Some (the_jobs jl !! id) -> 0 < par_of jobs id).

Lemma resolved_lookup id j : jobs !! id = Some j -> exists s j0, id = Z.of_nat s /\ is_source_at g s /\ job_at g s j0 /\
  jn_job_id j = id /\ jn_stream_nodes j = jn_stream_nodes j0 /\ jn_child_job_ids j = jn_child_job_ids j0 /\
  jn_parent_job_ids j = default [] (the_c2p jl !! id) /\ jn_parallelism j0 = own_parallelism j /\
  0 < jn_parallelism j /\ par_of (the_jobs jl) id = jn_parallelism j0.
Proof.
  intros Hj. destruct (same_jobs_lookup jobs (the_jobs jl) id j) as [p Hp]; [symmetry; apply Hr|done|].
  pose proof (Hpos id ltac:(by eexists)) as Hpj. rewrite (par_of_lookup _ _ _ Hj) in Hpj. pose proof (par_of_lookup _ _ _ Hp) as Hpar.
  apply (the_jobs_lookup g Hg jl Hjl) in Hp as (s & j0 & -> & Hs & Hj0 & Heq). exists s, j0.
  assert (jn_job_id j = jn_job_id j0 /\ jn_stream_nodes j = jn_stream_nodes j0 /\ jn_child_job_ids j = jn_child_job_ids j0 /\
    jn_parent_job_ids j = default [] (the_c2p jl !! Z.of_nat s) /\ p = jn_parallelism j0) as (H1 & H2 & H3 & H4 & ->)
    by (destruct j, j0; unfold set_jn_parallelism, set_jn_parents in Heq; simpl in *; by simplify_eq).
  split_and!; try done; [rewrite H1; by apply (job_at_id g Hg)|].
  destruct Hj0 as (js & cs & _ & ->). unfold own_parallelism. rewrite H2. done.
Qed.

Lemma resolved_exists s j0 : is_source_at g s -> job_at g s j0 -> exists j, jobs !! Z.of_nat s = Some j.
Proof.
  intros Hs Hj0. destruct (same_jobs_lookup (the_jobs jl) jobs (Z.of_nat s) (set_jn_parents (default [] (the_c2p jl !! Z.of_nat s)) j0)) as [p Hp];
    [apply Hr|apply (the_jobs_lookup g Hg jl Hjl); by exists s, j0|eauto].
Qed.

Lemma resolved_keys : (hiter jobs).*1 ≡ₚ jn_job_id <$> jl.
Proof.
  apply NoDup_Permutation; [apply NoDup_hiter_fst|by apply (jl_NoDup g Hg)|]. intros id. rewrite elem_of_hiter_keys.
  rewrite (jl_ids g Hg jl Hjl), list_elem_of_fmap. split.
  - intros [j Hj]. destruct (resolved_lookup id j Hj) as (s & _ & -> & Hs & _). exists s. split; [done|]. by apply (elem_of_sources g Hg).
  - intros (s & -> & Hs). apply (elem_of_sources g Hg) in Hs. destruct (job_at_exists g Hg s Hs) as [j0 Hj0].
    destruct (resolved_exists s j0 Hs Hj0) as [j Hj]. eauto.
Qed.

(** The jobs share out the operators. *)
Lemma resolved_partition : concat (jn_stream_nodes <$> (hiter jobs).*2) ≡ₚ raw_nodes (dag g).
Proof.
  set (f := fun id => default [] (jn_stream_nodes <$> jobs !! id)).
  assert (jn_stream_nodes <$> (hiter jobs).*2 = f <$> (hiter jobs).*1) as ->.
  { rewrite <- !list_fmap_compose. apply list_fmap_ext. intros i [id j] Hij. apply list_elem_of_lookup_2, elem_of_hiter in Hij.
    unfold f. simpl. by rewrite Hij. }
  assert (forall l l' : list JobId, l ≡ₚ l' -> concat (f <$> l) ≡ₚ concat (f <$> l')) as Hconcat.
  { intros l l'. induction 1 as [| |x y l|]; simpl; [done|by f_equiv| |by etrans]. rewrite !app_assoc. f_equiv. apply Permutation_app_comm. }
  rewrite (Hconcat _ _ resolved_keys).
  assert (exists paths, Forall2 (fun s js => exists cs, job_path g s js cs) (sources g) paths /\
    concat (f <$> (jn_job_id <$> jl)) = nodes_at g (concat paths)) as (paths & Hpaths & ->).
  { assert (Forall (is_source_at g) (sources g)) as Hss by (apply Forall_forall; intros k Hk; by apply (elem_of_sources g Hg)).
    assert (forall s j, is_source_at g s -> job_at g s j -> f (jn_job_id j) = jn_stream_nodes j) as Hf.
    { intros s j Hs Hj. destruct (resolved_exists s j Hs Hj) as [j' Hj']. unfold f. rewrite (job_at_id g Hg s j Hs Hj), Hj'. simpl.
      destruct (resolved_lookup _ _ Hj') as (s' & j0 & Heq & _ & Hj0 & _ & -> & _). apply Nat2Z.inj in Heq as <-. by rewrite (job_at_det g s j j0). }
    revert Hss Hf. clear -Hjl. induction Hjl as [|s j ss l Hj Hl IH]; intros Hss Hf; [by exists []|]. apply Forall_cons in Hss as [Hs Hss].
    destruct (IH Hl Hss Hf) as (paths & Hp & Hc). destruct Hj as (js & cs & Hpath & Heq). exists (js :: paths). split; [constructor; eauto|].
    rewrite !fmap_cons. cbn [concat]. rewrite Hc, (Hf s j Hs) by (by exists js, cs). subst j. cbn [walk_result jn_stream_nodes app].
    unfold nodes_at. by rewrite omap_app. }
  unfold nodes_at. rewrite (paths_partition g Hg (sources g) paths); [|apply (elem_of_sources g Hg)|apply (NoDup_sources g Hg)|done].
  by rewrite omap_lookup_seq.
Qed.
End resolved.

(** ** The job graph *)

(** A job runs from its source, whose id it has, to its sink; it has a parallelism,
    its own or that of a parent. *)
Definition job_ok (jg : JobGraph) (j : JobNode) : Prop :=
  (exists src snk, head (jn_stream_nodes j) = Some src /\ sn_operator_type src = OT_Source /\ sn_id src = jn_job_id j /\
    last (jn_stream_nodes j) = Some snk /\ sn_operator_type snk = OT_Sink) /\
  0 < jn_parallelism j /\
  (jn_parallelism j = own_parallelism j \/ own_parallelism j = 0 /\
    exists jp, jp ∈ raw_nodes (jg_dag jg) /\ jn_job_id jp ∈ jn_parent_job_ids j /\ jn_parallelism j = jn_parallelism jp).

(** The operators of a job are a path of the stream graph from its source to its sink,
    and its children are the jobs behind that sink. *)
Definition job_from (g : RawStreamGraph) (j : JobNode) : Prop := exists s js cs,
  is_source_at g s /\ jn_job_id j = Z.of_nat s /\ job_path g s js cs /\
  jn_stream_nodes j = nodes_at g js /\ jn_child_job_ids j = (fun c => Z.of_nat c.2) <$> cs.

Record job_graph_ok (g : RawStreamGraph) (jg : JobGraph) : Prop := {
  (** every operator is in exactly one job *)
  jg_partition : concat (jn_stream_nodes <$> raw_nodes (jg_dag jg)) ≡ₚ raw_nodes (dag g);
  jg_ids : NoDup (jn_job_id <$> raw_nodes (jg_dag jg));
  jg_jobs : Forall (job_ok jg) (raw_nodes (jg_dag jg));
  jg_paths : Forall (job_from g) (raw_nodes (jg_dag jg));
  jg_index : forall id i, job_node_indies jg !! id = Some i <-> exists j, raw_nodes (jg_dag jg) !! i = Some j /\ jn_job_id j = id;
  (** an edge for every job behind a sink, of the kind [job_edge] says *)
  jg_edges : forall a b w, mkEdge a b w ∈ raw_edges (jg_dag jg) <-> exists ja jb,
    raw_nodes (jg_dag jg) !! a = Some ja /\ raw_nodes (jg_dag jg) !! b = Some jb /\
    jn_job_id jb ∈ jn_child_job_ids ja /\ job_edge ja jb = Ok w;
  jg_linked : forall a ja id, raw_nodes (jg_dag jg) !! a = Some ja -> id ∈ jn_child_job_ids ja ->
    exists b jb w, raw_nodes (jg_dag jg) !! b = Some jb /\ jn_job_id jb = id /\ mkEdge a b w ∈ raw_edges (jg_dag jg);
  jg_one_child : NoDup (e_source <$> raw_edges (jg_dag jg));
  jg_order : forall a b ja jb w, mkEdge a b w ∈ raw_edges (jg_dag jg) ->
    raw_nodes (jg_dag jg) !! a = Some ja -> raw_nodes (jg_dag jg) !! b = Some jb -> jn_job_id ja < jn_job_id jb
}.

Section linked.
Context (g : RawStreamGraph) (Hg : ginv g []) (jl : list JobNode) (Hjl : Forall2 (job_at g) (sources g) jl).
Context (jobs : gmap JobId JobNode) (Hr : resolving (the_c2p jl) (the_jobs jl) jobs).
Context (Hpos : forall id, is_Some (the_jobs jl !! id) -> 0 < par_of jobs id).
Context (jg : JobGraph) (Hn : raw_nodes (jg_dag jg) = (hiter jobs).*2).
Context (Hi : forall id i, job_node_indies jg !! id = Some i <-> exists j, hiter jobs !! i = Some (id, j)).

Lemma node_of_job i j : raw_nodes (jg_dag jg) !! i = Some j <-> hiter jobs !! i = Some (jn_job_id j, j).
Proof.
  rewrite Hn, list_lookup_fmap. split.
  - destruct (hiter jobs !! i) as [[id j']|] eqn:E; [|done]. simpl. intros. simplify_eq.
    apply list_elem_of_lookup_2 in E as Hin. apply elem_of_hiter in Hin.
    by destruct (resolved_lookup g Hg jl Hjl jobs Hr Hpos _ _ Hin) as (? & ? & ? & ? & ? & -> & _).
  - intros H. by rewrite H.
Qed.

Lemma job_in_map i j : raw_nodes (jg_dag jg) !! i = Some j -> jobs !! jn_job_id j = Some j.
Proof. intros H. apply node_of_job in H. apply list_elem_of_lookup_2 in H. by apply elem_of_hiter in H. Qed.

Lemma linked_index id i : job_node_indies jg !! id = Some i <-> exists j, raw_nodes (jg_dag jg) !! i = Some j /\ jn_job_id j = id.
Proof.
  rewrite Hi. split.
  - intros (j & Hj). exists j. assert (jn_job_id j = id) as Hid; [|split; [|done]; apply node_of_job; by rewrite Hid].
    apply list_elem_of_lookup_2 in Hj as Hin. apply elem_of_hiter in Hin.
    by destruct (resolved_lookup g Hg jl Hjl jobs Hr Hpos _ _ Hin) as (? & ? & ? & ? & ? & -> & _).
  - intros (j & Hj & <-). exists j. by apply node_of_job.
Qed.

Lemma linked_linkable : linkable jg.
Proof.
  split.
  - intros i ja Hja. apply job_in_map in Hja. destruct (resolved_lookup g Hg jl Hjl jobs Hr Hpos _ _ Hja) as (s & j0 & _ & Hs & Hj0 & _ & _ & -> & _).
    pose proof (jl_children g Hg jl Hjl) as Hc. rewrite Forall_forall in Hc. apply Hc. apply (elem_of_jl g Hg jl Hjl). eauto.
  - intros i ja c Hja Hc. apply job_in_map in Hja.
    destruct (resolved_lookup g Hg jl Hjl jobs Hr Hpos _ _ Hja) as (s & j0 & Hid & Hs & Hj0 & _ & _ & Hch & _). rewrite Hch in Hc.
    destruct (child_index g s j0 c Hj0 Hc) as [ci ->].
    destruct (job_child g Hg s j0 ci Hj0 Hc) as (k & m & _ & Hm & Hty & _ & Hlt & _).
    assert (is_source_at g ci) as Hsc by (by exists m). destruct (job_at_exists g Hg ci Hsc) as [jc0 Hjc0].
    destruct (resolved_exists g Hg jl Hjl jobs Hr ci jc0 Hsc Hjc0) as [jb Hjb].
    destruct (resolved_lookup g Hg jl Hjl jobs Hr Hpos _ _ Hjb) as (_ & _ & _ & _ & _ & Hidb & _).
    assert ((Z.of_nat ci, jb) ∈ hiter jobs) as Hin by (by apply elem_of_hiter). apply list_elem_of_lookup in Hin as [ic Hic].
    exists ic, jb. split_and!; [apply Hi; eauto|apply node_of_job; by rewrite Hidb|done|lia|lia].
Qed.

Lemma linked_jobs i j : raw_nodes (jg_dag jg) !! i = Some j -> job_ok jg j.
Proof.
  intros Hj. apply job_in_map in Hj.
  destruct (resolved_lookup g Hg jl Hjl jobs Hr Hpos _ _ Hj) as (s & j0 & Hid & (n & Hn' & Hty) & Hj0 & _ & Hsn & _ & Hps & Hown & Hp & Hpar).
  split_and!; [|done|].
  - destruct (job_at_sink g s j0 Hj0) as (k & m & _ & Hm & Hmt & Hl & _). exists n, m. rewrite Hsn. split_and!; try done.
    + pose proof (job_at_first g s j0 n Hn' Hj0) as Hf. by destruct (jn_stream_nodes j0).
    + by rewrite (ri_ids g (proj1 Hg) _ _ Hn').
  - destruct (decide (own_parallelism j = 0)) as [Hz|Hnz]; cycle 1.
    + left. pose proof (rs_keep _ _ _ Hr (jn_job_id j)) as Hk. rewrite (par_of_lookup _ _ _ Hj), Hpar, Hown in Hk. apply Hk.
      pose proof (foldl_max_ge (jn_stream_nodes j) 0). unfold own_parallelism in *. lia.
    + right. split; [done|]. destruct (rs_inh _ _ _ Hr (jn_job_id j)) as (p & (ps & j1 & Hps' & Hin & _) & Hpp).
      { rewrite Hpar, Hown. done. } { by rewrite (par_of_lookup _ _ _ Hj). }
      rewrite (par_of_lookup _ _ _ Hj) in Hpp. unfold par_of in Hpp. destruct (jobs !! p) as [jp|] eqn:Ep; simpl in Hpp; [|lia].
      destruct (resolved_lookup g Hg jl Hjl jobs Hr Hpos _ _ Ep) as (_ & _ & _ & _ & _ & Hidp & _).
      exists jp. split_and!; [|by rewrite Hps, Hps', Hidp|done]. rewrite Hn. apply list_elem_of_fmap. exists (p, jp). split; [done|]. by apply elem_of_hiter.
Qed.

Lemma linked_NoDup : NoDup (jn_job_id <$> raw_nodes (jg_dag jg)).
Proof.
  replace (jn_job_id <$> raw_nodes (jg_dag jg)) with (hiter jobs).*1; [apply NoDup_hiter_fst|].
  rewrite Hn, <- list_fmap_compose. apply list_fmap_ext. intros i [id j] Hij. simpl. apply list_elem_of_lookup_2, elem_of_hiter in Hij.
  by destruct (resolved_lookup g Hg jl Hjl jobs Hr Hpos _ _ Hij) as (? & ? & ? & ? & ? & -> & _).
Qed.
End linked.

Lemma edge_of_Some jg a b w : linkable jg ->
  (forall id i, job_node_indies jg !! id = Some i <-> exists j, raw_nodes (jg_dag jg) !! i = Some j /\ jn_job_id j = id) ->
  edge_of jg a = Some (mkEdge a b w) <-> exists ja jb, raw_nodes (jg_dag jg) !! a = Some ja /\ raw_nodes (jg_dag jg) !! b = Some jb /\
    jn_job_id jb ∈ jn_child_job_ids ja /\ job_edge ja jb = Ok w.
Proof.
  intros Hl Hi. unfold edge_of. split.
  - destruct (raw_nodes (jg_dag jg) !! a) as [ja|] eqn:Ea; [|done]. simpl. destruct (jn_child_job_ids ja) as [|c cs] eqn:Ec; [done|]. simpl.
    destruct (job_node_indies jg !! c) as [ic|] eqn:Eic; [|done]. simpl. destruct (raw_nodes (jg_dag jg) !! ic) as [jb|] eqn:Eb; [|done]. simpl.
    destruct (job_edge ja jb) as [w'| |] eqn:Ew; intros; simplify_eq. exists ja, jb. split_and!; try done.
    apply Hi in Eic as (jb' & Hjb' & <-). simplify_eq. rewrite Ec. by left.
  - intros (ja & jb & Ha & Hb & Hc & Hw). rewrite Ha. simpl. pose proof (lk_one jg Hl a ja Ha) as Hone.
    destruct (jn_child_job_ids ja) as [|c [|]]; [set_solver| |simpl in Hone; lia]. apply list_elem_of_singleton in Hc as <-. simpl.
    rewrite (proj2 (Hi (jn_job_id jb) b)) by eauto. simpl. rewrite Hb. simpl. by rewrite Hw.
Qed.

Lemma edge_of_source jg i e : edge_of jg i = Some e -> e_source e = i.
Proof.
  unfold edge_of. intros H. repeat (case_match; simplify_eq/=; try done).
  destruct (raw_nodes (jg_dag jg) !! i) as [ja|]; simpl in H; [|done]. destruct (head _); simpl in H; [|done].
  destruct (job_node_indies jg !! _); simpl in H; [|done]. destruct (raw_nodes (jg_dag jg) !! _) as [jb|]; simpl in H; [|done].
  destruct (job_edge ja jb); by simplify_eq.
Qed.

Lemma NoDup_edge_sources jg js : NoDup js -> NoDup (e_source <$> omap (edge_of jg) js).
Proof.
  induction 1 as [|i js Hi Hnd IH]; [constructor|]. cbn [omap list_omap]. destruct (edge_of jg i) as [e|] eqn:E; [|done].
  rewrite fmap_cons. constructor; [|done]. rewrite (edge_of_source _ _ _ E). intros Hin. apply Hi.
  apply list_elem_of_fmap in Hin as (e' & -> & He'). apply list_elem_of_omap in He' as (k & Hk & He'). by rewrite (edge_of_source _ _ _ He').
Qed.

Lemma job_graph_builds g fuel :
  built g [] -> (forall n, user_source g n -> 0 < sn_parallelism n) -> (length (raw_nodes (dag g)) < fuel)%nat ->
  match job_graph_build fuel (sg_of g) with
  | Some (Ok jg) => job_graph_ok g jg
  | Some (Err e) => e = ReduceOutputParallelismConflict
  | Some (Panic _) | None => False
  end.
Proof.
  intros Hb Hu Hf. destruct (built_ok _ _ Hb) as [Hraw Hs _]. assert (ginv g []) as Hg by done.
  destruct (builder_spec g fuel Hg Hu Hf) as (jl & jobs & Hjl & E & Hr & Hpos). unfold job_graph_build. rewrite E. cbn [rbind].
  assert (Z.of_nat (length (hiter jobs)) <= 2 ^ 32 - 1) as Hlen.
  { rewrite <- (length_fmap fst), (resolved_keys g Hg jl Hjl jobs Hr Hpos), (jl_ids g Hg jl Hjl), length_fmap, (ri_sources g Hraw).
    destruct (ri_gen g Hraw) as [_ Hle]. etrans; [|exact Hle]. apply inj_le. etrans; [apply length_filter|]. by rewrite length_seq. }
  destruct (add_job_nodes_spec (hiter jobs)) as (jg & -> & Hn & He & Hi); [apply NoDup_hiter_fst|done|]. cbn [rbind].
  pose proof (linked_linkable g Hg jl Hjl jobs Hr Hpos jg Hn Hi) as Hl.
  pose proof (linked_index g Hg jl Hjl jobs Hr Hpos jg Hn Hi) as Hidx. unfold build_job_edges.
  pose proof (hiter_index_perm jn_job_id _ _ Hidx) as Hperm.
  assert (forall i, i ∈ (hiter (job_node_indies jg)).*2 <-> (i < length (raw_nodes (jg_dag jg)))%nat) as Hin.
  { intros i. rewrite Hperm, elem_of_seq. lia. }
  assert (NoDup (hiter (job_node_indies jg)).*2) as Hnd by (rewrite Hperm; apply NoDup_seq).
  assert (length (hiter (job_node_indies jg)).*2 <= length (raw_nodes (jg_dag jg)))%nat as Hle by (by rewrite Hperm, length_seq).
  pose proof (build_edges_fold (hiter (job_node_indies jg)).*2 jg Hl) as Hfold. rewrite He in Hfold.
  specialize (Hfold (proj2 (Forall_forall _ _) (fun i Hii => proj1 (Hin i) Hii)) (Forall_nil_2 _)).
  rewrite Hn, !length_fmap in Hle. specialize (Hfold ltac:(rewrite length_fmap; simpl; lia)).
  destruct (foldM build_job_edge jg _) as [jg'| |]; [|done|done]. destruct Hfold as (Hn' & Hi' & He' & Hsome).
  pose proof (fun a b w => edge_of_Some jg a b w Hl Hidx) as Hedge.
  assert (forall a b w, mkEdge a b w ∈ raw_edges (jg_dag jg') <-> edge_of jg a = Some (mkEdge a b w)) as Hel.
  { intros a b w. rewrite He'. simpl. rewrite list_elem_of_omap. split.
    - intros (k & Hk & Hke). pose proof (edge_of_source _ _ _ Hke) as Hks. simpl in Hks. by subst k.
    - intros H. exists a. split; [|done]. apply Hin. apply Hedge in H as (ja & _ & Ha & _). by apply lookup_lt_Some in Ha. }
  split; rewrite ?Hn', ?Hi'.
  - rewrite Hn. by apply (resolved_partition g Hg jl Hjl jobs Hr Hpos).
  - by apply (linked_NoDup g Hg jl Hjl jobs Hr Hpos).
  - apply Forall_forall. intros j Hj. apply list_elem_of_lookup in Hj as [i Hj].
    pose proof (linked_jobs g Hg jl Hjl jobs Hr Hpos jg Hn i j Hj) as Hok. unfold job_ok in *. by rewrite Hn'.
  - rewrite Hn. apply Forall_fmap, Forall_forall. intros [id j] Hj. apply elem_of_hiter in Hj.
    destruct (resolved_lookup g Hg jl Hjl jobs Hr Hpos _ _ Hj) as (s & j0 & -> & Hsrc & (js & cs & Hp & ->) & Hid & Hsn & Hc & _).
    exists s, js, cs. done.
  - done.
  - intros a b w. by rewrite Hel, Hedge.
  - intros a ja id Ha Hid. destruct (Hsome a ja id) as [[a' b w] Eab]; [by apply Hin; apply lookup_lt_Some in Ha|done|done|].
    pose proof (edge_of_source _ _ _ Eab) as Hs'. simpl in Hs'. subst a'. pose proof Eab as Hab. apply Hedge in Hab as (ja' & jb & Ha' & Hb' & Hc & _).
    rewrite Ha in Ha'. injection Ha' as <-. exists b, jb, w. rewrite Hel. split_and!; [done| |done]. pose proof (lk_one jg Hl a ja Ha) as Hone.
    destruct (jn_child_job_ids ja) as [|c [|]]; [set_solver|set_solver|simpl in Hone; lia].
  - rewrite He'. simpl. by apply NoDup_edge_sources.
  - intros a b ja jb w Hab Ha Hb'. apply Hel, Hedge in Hab as (ja' & jb' & Ha' & Hb'' & Hc & _). simplify_eq.
    destruct (lk_child jg Hl a ja' _ Ha' Hc) as (ic & jc & Hic & Hjc & Hid & Hlt). rewrite Hid in Hlt. lia.
Qed.

(** C19: For the stream graph of a program that has ended all its streams, with a
    parallelism at every user source, the builder ends and gives a job graph in
    which the jobs share out the operators, every job runs from a source to a sink
    with a positive parallelism of its own or of a parent, and the edges are exactly
    those from a job to the jobs behind its sink; the only error is a reduction whose
    output has another parallelism. *)
Theorem job_graph_spec g fuel :
  built g [] -> (forall n, user_source g n -> 0 < sn_parallelism n) -> (length (raw_nodes (dag g)) < fuel)%nat ->
  match job_graph_build fuel (sg_of g) with
  | Some (Ok jg) => job_graph_ok g jg
  | Some (Err e) => e = ReduceOutputParallelismConflict
  | Some (Panic _) | None => False
  end.
Proof. apply job_graph_builds. Qed.

(** A user source with parallelism 0 makes the resolution of the parallelism go
    on for ever: no amount of fuel gives a job graph, and [JobParallelismNotFound] is
    never reached. *)
Theorem zero_parallelism_diverges g n fuel :
  built g [] -> user_source g n -> sn_parallelism n = 0 -> (length (raw_nodes (dag g)) < fuel)%nat ->
  job_graph_build fuel (sg_of g) = None.
Proof.
  intros Hb Hu H0 Hf. destruct (built_ok _ _ Hb) as [Hr Hs _]. assert (ginv g []) as Hg by done.
  destruct (build_job_nodes_spec g fuel Hg Hf) as (jl & Hjl & Hbn). pose proof (the_jobs_ok g Hg jl Hjl) as Hok.
  destruct Hu as (Hin & Hty & Hps). apply list_elem_of_lookup in Hin as [s Hn]. assert (is_source_at g s) as Hsrc by (by exists n).
  destruct (job_at_exists g Hg s Hsrc) as [j Hj].
  assert (the_jobs jl !! Z.of_nat s = Some (set_jn_parents (default [] (the_c2p jl !! Z.of_nat s)) j)) as Hlk
    by (apply (the_jobs_lookup g Hg jl Hjl); by exists s, j).
  unfold job_graph_build, builder_build. rewrite Hbn. cbn [rbind c2p_job_id_map jb_jobs].
  rewrite (build_parallelism_diverges _ _ Hok fuel fuel (the_jobs jl) (Z.of_nat s)); [done|..].
  - intros id Hid. destruct (the_jobs_index g jl id Hg Hjl Hid) as (s' & -> & Hlt). lia.
  - by eexists.
  - destruct (the_c2p jl !! Z.of_nat s) as [ps|] eqn:Ec; [|done]. exfalso.
    apply (the_c2p_lookup g Hg jl Hjl) in Ec as (Hne & _ & Hel). destruct ps as [|p ps]; [done|].
    destruct (proj1 (Hel p) ltac:(by left)) as (s' & j' & -> & Hs' & Hj' & Hc).
    destruct (job_child g Hg s' j' s Hj' Hc) as (k & m & _ & Hm & _ & Hk & _). simplify_eq. simpl in Hk. rewrite Hps in Hk. set_solver.
  - rewrite (par_of_lookup _ _ _ Hlk). destruct Hj as (js & cs & Hp & ->). simpl.
    assert (forall k m, k ∈ js -> raw_nodes (dag g) !! k = Some m -> sn_parallelism m = 0) as Hall.
    { intros k m Hk Hm. apply (job_path_elem g _ _ _ Hp) in Hk. rewrite <- H0.
      by eapply (user_path_par g s n k m Hg Hn); [|done|done]; split_and!; [eapply list_elem_of_lookup_2| |]. }
    unfold DEFAULT_PARALLELISM, nodes_at. clear -Hall. induction js as [|k js IH]; [done|]. cbn [omap list_omap].
    destruct (raw_nodes (dag g) !! k) as [m|] eqn:Em; [|apply IH; set_solver]. cbn [foldl]. rewrite (Hall k m); [|by left|done]. apply IH. set_solver.
  - by apply resolving_start.
Qed.
End job_graph.

(** ** Examples *)
#[local] Existing Instance ListDag.
#[local] Existing Instance id_order.

(** A decidable form of the condition on the user sources. *)
Definition sources_positive (g : RawStreamGraph) : bool :=
  forallb (fun n => negb (bool_decide (sn_operator_type n = OT_Source)) || negb (bool_decide (sn_parent_ids n = [])) || (0 <? sn_parallelism n))
    (raw_nodes (dag g)).

Lemma sources_positive_spec g : sources_positive g = true -> forall n, user_source g n -> 0 < sn_parallelism n.
Proof.
  intros H n (Hin & Hty & Hps). unfold sources_positive in H. rewrite forallb_forall in H.
  specialize (H n (proj1 (list_elem_of_In _ _) Hin)). rewrite !bool_decide_true in H by done. by apply Z.ltb_lt in H.
Qed.

Definition run_ok {E A} (r : run E A) : bool := match r with Some (Ok _) => true | _ => false end.

Definition job_view (j : JobNode) : JobId * Z * list OperatorId * list JobId * list JobId :=
  (jn_job_id j, jn_parallelism j, sn_id <$> jn_stream_nodes j, jn_child_job_ids j, jn_parent_job_ids j).

(** The jobs of the aggregation: the reduction has its own parallelism, the output
    job takes it. *)
Example ex_aggregate_jobs :
  match job_graph_build 20 (sg_of (prog_graph ex_aggregate)) with
  | Some (Ok jg) => job_view <$> raw_nodes (jg_dag jg) =
      [(8, 3, [8; 9; 10], [], [4]); (4, 3, [4; 5; 6; 7], [8], [0]); (0, 2, [0; 1; 2; 3], [4], [])] /\
      raw_edges (jg_dag jg) = [mkEdge 1 0 Forward; mkEdge 2 1 ReBalance]
  | _ => False
  end.
Proof. vm_compute. split; reflexivity. Qed.

Lemma job_graph_spec_witness :
  match job_graph_build 20 (sg_of (prog_graph ex_aggregate)) with
  | Some (Ok jg) => job_graph_ok (prog_graph ex_aggregate) jg
  | _ => False
  end.
Proof.
  assert (built (prog_graph ex_aggregate) []) as Hb by (apply (prog_built ex_aggregate); vm_compute; reflexivity).
  pose proof (job_graph_spec (prog_graph ex_aggregate) 20 Hb) as H.
  specialize (H (sources_positive_spec (prog_graph ex_aggregate) ltac:(vm_compute; reflexivity))).
  specialize (H ltac:(apply Nat.ltb_lt; vm_compute; reflexivity)).
  assert (run_ok (job_graph_build 20 (sg_of (prog_graph ex_aggregate))) = true) as Hr by (vm_compute; reflexivity).
  destruct (job_graph_build 20 (sg_of (prog_graph ex_aggregate))) as [[jg|e|m]|]; [exact H|discriminate Hr|exact H|exact H].
Defined.

Definition ex_zero : list ApiCall := [register_source (ex_source 0); add_sink 0 ex_sink].

Lemma zero_parallelism_diverges_witness : job_graph_build 50 (sg_of (prog_graph ex_zero)) = None.
Proof.
  assert (built (prog_graph ex_zero) []) as Hb by (apply (prog_built ex_zero); vm_compute; reflexivity).
  destruct (raw_nodes (dag (prog_graph ex_zero)) !! 0%nat) as [n|] eqn:E; [|vm_compute in E; discriminate E].
  apply (zero_parallelism_diverges (prog_graph ex_zero) n 50 Hb).
  - split; [eapply list_elem_of_lookup_2, E|]. vm_compute in E. injection E as <-. split; reflexivity.
  - vm_compute in E. injection E as <-. reflexivity.
  - apply Nat.ltb_lt. vm_compute. reflexivity.
Defined.
