(* ===== verification/ExecutionGraph.v ===== *)
(** * ExecutionGraph: the tasks of the jobs and the edges between them

    src/rlink/src/dag/execution_graph.rs: a job of parallelism [p] becomes [p] tasks,
    each with its part of the input; a forward edge of the job graph becomes a
    memory edge from every task to the task of the same number, a re-balancing edge
    becomes a network edge from every task to every task. The theorem says that the
    graph has exactly these nodes and edges. *)
From Stdlib Require Import ZArith Lia Sorted.
From stdpp Require Import base strings numbers option sets gmap list relations pretty.
From S2P Require Import Prelude Bytes Runtime Graph Schema StreamGraph JobGraph.

Section execution_graph.
Context {DA : DagApi} {HO : HashOrder}.

(** ** The operators of the stream graph *)

(** [RawStreamGraph::operators]: the entries, without the node indices. *)
Definition graph_operators (g : RawStreamGraph) : res DagError (gmap OperatorId StreamOperator) :=
  foldM (fun m operator_id =>
      let* (_, op) := unwrap "called `Option::unwrap()` on a `None` value" (operators g !! operator_id) in
      Ok (<[operator_id := op]> m))
    ∅ (hiter (operators g)).*1.

(** [RawStreamGraph::pop_operators]: the same, taken out of the graph. *)
Definition pop_operators (g : RawStreamGraph)
    : res DagError (gmap OperatorId (NodeIndex * StreamOperator) * gmap OperatorId StreamOperator) :=
  foldM (fun s operator_id =>
      let* (_, op) := unwrap "called `Option::unwrap()` on a `None` value" (s.1 !! operator_id) in
      Ok (delete operator_id s.1, <[operator_id := op]> s.2))
    (operators g, ∅) (hiter (operators g)).*1.

(** ** The graph *)
Record ExecutionNode := mkExecutionNode {
  en_task_id : TaskId;
  en_stream_nodes : list StreamNode;
  en_input_split : InputSplit;
  en_daemon : bool
}.

Record ExecutionGraph := mkExecutionGraph {
  node_indies : gmap TaskId NodeIndex;
  eg_dag : Dag ExecutionNode ExecutionEdge
}.

Definition ExecutionGraph_new : ExecutionGraph := mkExecutionGraph ∅ Dag_new.

(** The graph under construction with the nodes of every job. *)
Abbreviation building := (ExecutionGraph * gmap JobId (list NodeIndex))%type.

(** The body of the loop over the task numbers. *)
Definition add_task (job_node : JobNode) (input_splits : list InputSplit) (s : building) (task_number : Z)
    : res DagError building :=
  let '(g, execution_node_indies) := s in
  let task_id := mkTaskId (jn_job_id job_node) task_number (jn_parallelism job_node) in
  let* input_split := unwrap "index out of bounds" (input_splits !! Z.to_nat task_number) in
  let* daemon := is_daemon_job job_node in
  let execution_node := mkExecutionNode task_id (jn_stream_nodes job_node) input_split daemon in
  let* (node_index, d) := unwrap "graph is full" (add_node (eg_dag g) execution_node) in
  Ok (mkExecutionGraph (<[task_id := node_index]> (node_indies g)) d,
      <[jn_job_id job_node := default [] (execution_node_indies !! jn_job_id job_node) ++ [node_index]]> execution_node_indies).

(** The error of a source that does not give one split per task. *)
Definition illegal_splits (name : string) (parallelism : Z) (len : nat) : DagError :=
  IllegalInputSplitSize (name +:+ "'s parallelism = " +:+ pretty parallelism +:+ ", but input_splits size = " +:+ pretty len).

(** The body of the loop over the jobs. *)
Definition add_job_tasks (job_graph : JobGraph) (operators : gmap OperatorId StreamOperator) (s : building) (node_index : NodeIndex)
    : res DagError building :=
  let* job_node := dag_index (jg_dag job_graph) node_index in
  let* source_stream_node := unwrap "index out of bounds" (jn_stream_nodes job_node !! 0%nat) in
  let* operator := ok_or (operators !! sn_id source_stream_node) (OperatorNotFound (sn_id source_stream_node)) in
  match operator with
  | StreamSource op =>
      let* input_splits := match if_create_input_splits (operator_fn op) (jn_parallelism job_node) with
                           | Ok l => Ok l | Err e => Err (OtherApiError e) | Panic p => Panic p
                           end in
      if decide (Z.of_nat (length input_splits) <> jn_parallelism job_node) then
        Err (illegal_splits (if_name (operator_fn op)) (jn_parallelism job_node) (length input_splits))
      else if decide (jn_parallelism job_node = 0) then Err JobParallelismNotFound
      else foldM (add_task job_node input_splits) s (Z.of_nat <$> seq 0 (Z.to_nat (jn_parallelism job_node)))
  | _ => Err SourceNotFound
  end.

Definition build_nodes (job_graph : JobGraph) (operators : gmap OperatorId StreamOperator) (g : ExecutionGraph) : res DagError building :=
  foldM (add_job_tasks job_graph operators) (g, ∅) (hiter (job_node_indies job_graph)).*2.

Definition add_execution_edge (w : ExecutionEdge) (g : ExecutionGraph) (ends : NodeIndex * NodeIndex) : res DagError ExecutionGraph :=
  let* (_, d) := map_cycle (add_edge (eg_dag g) ends.1 ends.2 w) in
  Ok (mkExecutionGraph (node_indies g) d).

(** The edges for one edge of the job graph: the two loops. *)
Definition link_tasks (job_edge : JobEdge) (ns cs : list NodeIndex) (g : ExecutionGraph) : res DagError ExecutionGraph :=
  match job_edge with
  | Forward =>
      foldM (fun g number =>
          let* node_index := unwrap "index out of bounds" (ns !! number) in
          let* child_node_index := unwrap "index out of bounds" (cs !! number) in
          add_execution_edge EE_Memory g (node_index, child_node_index))
        g (seq 0 (length ns))
  | ReBalance =>
      foldM (fun g node_index => foldM (fun g c => add_execution_edge EE_Network g (node_index, c)) g cs) g ns
  end.

(** The body of the loop over the children of a job. *)
Definition link_child (job_graph : JobGraph) (m : gmap JobId (list NodeIndex)) (ns : list NodeIndex)
    (g : ExecutionGraph) (child : EdgeIndex * NodeIndex) : res DagError ExecutionGraph :=
  let* child_job_node := dag_index (jg_dag job_graph) child.2 in
  let* cs := ok_or (m !! jn_job_id child_job_node) (JobNotFound (jn_job_id child_job_node)) in
  let* job_edge := dag_edge (jg_dag job_graph) child.1 in
  link_tasks job_edge ns cs g.

Definition link_job (job_graph : JobGraph) (m : gmap JobId (list NodeIndex)) (g : ExecutionGraph) (kv : JobId * list NodeIndex)
    : res DagError ExecutionGraph :=
  let* job_node_index := ok_or (job_node_indies job_graph !! kv.1) (JobNotFound kv.1) in
  foldM (link_child job_graph m kv.2) g (children (jg_dag job_graph) job_node_index).

Definition build_edges (job_graph : JobGraph) (m : gmap JobId (list NodeIndex)) (g : ExecutionGraph) : res DagError ExecutionGraph :=
  foldM (link_job job_graph m) g (hiter m).

Definition execution_graph_build (job_graph : JobGraph) (operators : gmap OperatorId StreamOperator) : res DagError ExecutionGraph :=
  let* (g, m) := build_nodes job_graph operators ExecutionGraph_new in
  build_edges job_graph m g.

(** ** Lemmas on the operators *)
Lemma operators_fold (ops : gmap OperatorId (NodeIndex * StreamOperator)) ks : forall acc : gmap OperatorId StreamOperator,
  (forall k, k ∈ ks -> is_Some (ops !! k)) ->
  exists m, foldM (E := DagError) (fun m operator_id =>
      let* (_, op) := unwrap "called `Option::unwrap()` on a `None` value" (ops !! operator_id) in
      Ok (<[operator_id := op]> m)) acc ks = Ok m /\
    forall k, m !! k = if decide (k ∈ ks) then snd <$> ops !! k else acc !! k.
Proof.
  induction ks as [|k ks IH]; intros acc Hks; simpl; [by exists acc|].
  destruct (Hks k) as [[i op] Hop]; [by left|]. rewrite Hop. simpl.
  destruct (IH (<[k := op]> acc)) as (m & E & Hm); [intros; apply Hks; by right|]. exists m. split; [done|].
  intros k'. rewrite Hm. destruct (decide (k' = k)) as [->|Hne].
  - rewrite lookup_insert_eq, Hop, (decide_True (P := k ∈ k :: ks)) by (by left). by case_decide.
  - rewrite lookup_insert_ne by done. apply decide_ext. set_solver.
Qed.

Lemma graph_operators_ok g : graph_operators g = Ok (snd <$> operators g).
Proof.
  unfold graph_operators. destruct (operators_fold (operators g) (hiter (operators g)).*1 ∅) as (m & -> & Hm).
  { intros k. apply elem_of_hiter_keys. }
  f_equal. apply map_eq. intros k. rewrite Hm, lookup_fmap. case_decide as Hk; [done|].
  rewrite elem_of_hiter_keys, <- eq_None_not_Some in Hk. by rewrite Hk, lookup_empty.
Qed.

Lemma pop_fold ks : NoDup ks -> forall (ops : gmap OperatorId (NodeIndex * StreamOperator)) (acc : gmap OperatorId StreamOperator),
  (forall k, k ∈ ks -> is_Some (ops !! k)) ->
  exists ops' m, foldM (E := DagError) (fun s operator_id =>
      let* (_, op) := unwrap "called `Option::unwrap()` on a `None` value" (s.1 !! operator_id) in
      Ok (delete operator_id s.1, <[operator_id := op]> s.2)) (ops, acc) ks = Ok (ops', m) /\
    forall k, ops' !! k = (if decide (k ∈ ks) then None else ops !! k) /\ m !! k = (if decide (k ∈ ks) then snd <$> ops !! k else acc !! k).
Proof.
  induction 1 as [|k ks Hk Hnd IH]; intros ops acc Hks; simpl; [by exists ops, acc|].
  destruct (Hks k) as [[i op] Hop]; [by left|]. rewrite Hop. simpl.
  destruct (IH (delete k ops) (<[k := op]> acc)) as (ops' & m & E & Hm).
  { intros k' Hk'. rewrite lookup_delete_ne by (by intros ->). apply Hks. by right. }
  exists ops', m. split; [done|]. intros k'. destruct (Hm k') as [-> ->]. destruct (decide (k' = k)) as [->|Hne].
  - destruct (decide (k ∈ ks)); [done|]. destruct (decide (k ∈ k :: ks)) as [|Hn]; [|destruct Hn; by left].
    by rewrite lookup_delete_eq, lookup_insert_eq, Hop.
  - rewrite lookup_delete_ne, lookup_insert_ne by done. split; apply decide_ext; set_solver.
Qed.

(** Popping the operators leaves none behind. *)
Lemma pop_operators_ok g : pop_operators g = Ok (∅, snd <$> operators g).
Proof.
  unfold pop_operators. destruct (pop_fold (hiter (operators g)).*1 (NoDup_hiter_fst _) (operators g) ∅) as (ops' & m & -> & Hm).
  { intros k. apply elem_of_hiter_keys. }
  f_equal. f_equal; apply map_eq; intros k; destruct (Hm k) as [H1 H2]; [rewrite H1, lookup_empty|rewrite H2, lookup_fmap];
    case_decide as Hk; try done; rewrite elem_of_hiter_keys, <- eq_None_not_Some in Hk; by rewrite Hk.
Qed.

(** ** The nodes *)

(** The tasks of a job, with the splits of its source. *)
Definition job_daemon (j : JobNode) : bool := default false (sn_daemon <$> head (jn_stream_nodes j)).

Definition job_task (j : JobNode) (n : nat) : TaskId := mkTaskId (jn_job_id j) (Z.of_nat n) (jn_parallelism j).

Definition job_nodes (r : JobNode * list InputSplit) : list ExecutionNode :=
  imap (fun n split => mkExecutionNode (job_task r.1 n) (jn_stream_nodes r.1) split (job_daemon r.1)) r.2.

(** The index holds exactly the nodes. *)
Definition indexes (m : gmap TaskId NodeIndex) (ns : list ExecutionNode) : Prop :=
  forall t i, m !! t = Some i <-> exists n, ns !! i = Some n /\ en_task_id n = t.

Lemma indexes_snoc m ns n : indexes m ns -> en_task_id n ∉ en_task_id <$> ns -> indexes (<[en_task_id n := length ns]> m) (ns ++ [n]).
Proof.
  intros Hm Hn t i. rewrite lookup_insert_Some, (Hm t i). setoid_rewrite lookup_snoc_Some. split.
  - intros [[<- <-]|[Hne (n' & Hn' & Ht)]]; [exists n; auto|]. exists n'. split; [|done]. left. split; [by apply lookup_lt_Some in Hn'|done].
  - intros (n' & [[Hlt Hn']|[-> ->]] & <-); [|by left]. right. split; [|eauto]. intros He. apply Hn. rewrite He.
    apply list_elem_of_fmap. exists n'. split; [done|]. by eapply list_elem_of_lookup_2.
Qed.

Lemma length_job_nodes r : length (job_nodes r) = length r.2.
Proof. apply length_imap. Qed.

Lemma add_tasks_spec j splits (s : building) k :
  (k <= length splits)%nat -> jn_stream_nodes j <> [] -> s.2 !! jn_job_id j = None ->
  Z.of_nat (length (raw_nodes (eg_dag s.1)) + k) <= 2 ^ 32 - 1 ->
  NoDup (en_task_id <$> raw_nodes (eg_dag s.1) ++ job_nodes (j, splits)) -> indexes (node_indies s.1) (raw_nodes (eg_dag s.1)) ->
  exists s', foldM (add_task j splits) s (Z.of_nat <$> seq 0 k) = Ok s' /\
    raw_nodes (eg_dag s'.1) = raw_nodes (eg_dag s.1) ++ take k (job_nodes (j, splits)) /\
    raw_edges (eg_dag s'.1) = raw_edges (eg_dag s.1) /\ indexes (node_indies s'.1) (raw_nodes (eg_dag s'.1)) /\
    s'.2 = if decide (k = 0%nat) then s.2 else <[jn_job_id j := seq (length (raw_nodes (eg_dag s.1))) k]> s.2.
Proof.
  intros Hk Hsn Hnone. induction k as [|k IH]; intros Hroom Hnd Hidx; [exists s; simpl; by rewrite app_nil_r|].
  destruct IH as ([g m] & E & Hn & He & Hi & Hm); [lia|lia|done|done|]. cbn [fst snd] in *.
  rewrite seq_S, fmap_app, foldM_app, E. cbn [mbind res_bind foldM fmap list_fmap]. unfold add_task. cbn [Nat.add].
  destruct (lookup_lt_is_Some_2 splits k) as [sp Hsp]; [lia|]. rewrite Nat2Z.id, Hsp. cbn [unwrap mbind res_bind].
  unfold is_daemon_job. destruct (jn_stream_nodes j) as [|src rest] eqn:Esn; [done|]. cbn [lookup list_lookup unwrap mbind res_bind].
  set (n := mkExecutionNode _ _ _ _). assert (job_nodes (j, splits) !! k = Some n) as Hnk.
  { unfold job_nodes. rewrite list_lookup_imap. simpl. rewrite Hsp. simpl. unfold job_daemon. by rewrite Esn. }
  assert (length (take k (job_nodes (j, splits))) = k) as Hlk by (rewrite length_take, length_job_nodes; simpl; lia).
  assert (is_Some (add_node (eg_dag g) n)) as [[ni d] Ea].
  { apply add_node_room. unfold has_room. rewrite Hn, length_app, Hlk. lia. }
  rewrite Ea. cbn [unwrap mbind res_bind]. apply add_node_inv in Ea as (-> & Hn' & He'). eexists. split; [done|]. cbn [fst snd eg_dag node_indies].
  assert (raw_nodes d = raw_nodes (eg_dag s.1) ++ take (S k) (job_nodes (j, splits))) as Hd.
  { rewrite Hn', Hn, (take_S_r _ _ n Hnk). by rewrite app_assoc. }
  split_and!; [done|congruence| |].
  - rewrite Hn'. apply (indexes_snoc _ _ n Hi). rewrite <- (take_drop_middle _ _ _ Hnk), app_assoc, <- Hn, fmap_app, fmap_cons in Hnd.
    apply NoDup_app in Hnd as (_ & Hnd & _). intros Hin. apply (Hnd _ Hin). by left.
  - rewrite decide_False by done. rewrite Hm, seq_S, Hn, length_app, Hlk. case_decide as H0; subst; simpl.
    + by rewrite Hnone, Nat.add_0_r.
    + by rewrite lookup_insert_eq, insert_insert_eq.
Qed.

Lemma job_nodes_tasks r : en_task_id <$> job_nodes r = job_task r.1 <$> seq 0 (length r.2).
Proof.
  unfold job_nodes. rewrite fmap_imap. unfold compose. apply list_eq. intros i. rewrite list_lookup_imap, list_lookup_fmap.
  destruct (r.2 !! i) as [sp|] eqn:E; simpl.
  - rewrite lookup_seq_lt by (by apply lookup_lt_Some in E). done.
  - by rewrite lookup_seq_ge by (by apply lookup_ge_None in E).
Qed.

#[global] Instance job_task_inj j : Inj (=) (=) (job_task j).
Proof. intros a b H. unfold job_task in H. simplify_eq. lia. Qed.

Lemma NoDup_tasks rs : NoDup ((fun r => jn_job_id r.1) <$> rs) -> NoDup (en_task_id <$> concat (job_nodes <$> rs)).
Proof.
  induction rs as [|r rs IH]; [constructor|]. rewrite !fmap_cons, NoDup_cons. intros [Hr Hnd]. cbn [concat].
  rewrite fmap_app, NoDup_app. split_and!; [|intros t Ht Ht'|by apply IH].
  - rewrite job_nodes_tasks. apply NoDup_fmap_2; [apply _|]. apply NoDup_seq.
  - apply Hr. rewrite job_nodes_tasks in Ht. apply list_elem_of_fmap in Ht as (n & -> & _).
    apply list_elem_of_fmap in Ht' as (en & Heq & Hen). apply elem_of_concat in Hen as (l & Hen & Hl).
    apply list_elem_of_fmap in Hl as (r' & -> & Hr'). apply list_elem_of_fmap. exists r'. split; [|done].
    assert (en_task_id en ∈ en_task_id <$> job_nodes r') as Hin by (apply list_elem_of_fmap; eauto).
    rewrite job_nodes_tasks in Hin. apply list_elem_of_fmap in Hin as (n' & Heq' & _). rewrite Heq' in Heq. unfold job_task in Heq. by simplify_eq.
Qed.

(** What the tasks and edges need of the job graph. *)
Section expand.
Context (jg : JobGraph) (ops : gmap OperatorId StreamOperator).

(** The input format a job starts with. *)
Definition job_source (j : JobNode) (f : InputFormat) : Prop :=
  exists src op, head (jn_stream_nodes j) = Some src /\ ops !! sn_id src = Some (StreamSource op) /\ operator_fn op = f.

Record expandable : Prop := {
  xp_ids : NoDup (jn_job_id <$> raw_nodes (jg_dag jg));
  xp_jobs : forall j, j ∈ raw_nodes (jg_dag jg) -> 0 <= jn_job_id j /\ 0 < jn_parallelism j /\ exists f, job_source j f;
  xp_index : forall id i, job_node_indies jg !! id = Some i <-> exists j, raw_nodes (jg_dag jg) !! i = Some j /\ jn_job_id j = id;
  xp_edges : forall a b w, mkEdge a b w ∈ raw_edges (jg_dag jg) -> exists ja jb,
    raw_nodes (jg_dag jg) !! a = Some ja /\ raw_nodes (jg_dag jg) !! b = Some jb /\ jn_job_id ja < jn_job_id jb /\
    (w = Forward -> jn_parallelism ja = jn_parallelism jb);
  xp_one : NoDup (e_source <$> raw_edges (jg_dag jg))
}.
Hypothesis Hx : expandable.

(** The outcomes of asking the source of a job for its splits. *)
Definition splits_for (r : JobNode * list InputSplit) : Prop :=
  exists f, job_source r.1 f /\ if_create_input_splits f (jn_parallelism r.1) = Ok r.2 /\ Z.of_nat (length r.2) = jn_parallelism r.1.

Definition split_error (j : JobNode) (e : DagError) : Prop :=
  exists f, job_source j f /\
    match if_create_input_splits f (jn_parallelism j) with
    | Ok l => Z.of_nat (length l) <> jn_parallelism j /\ e = illegal_splits (if_name f) (jn_parallelism j) (length l)
    | Err msg => e = OtherApiError msg
    | Panic _ => False
    end.

Definition split_panic (j : JobNode) (p : string) : Prop :=
  exists f, job_source j f /\ if_create_input_splits f (jn_parallelism j) = Panic p.

(** The nodes are the tasks of the jobs done so far, and the map has their indices. *)
Record nodes_inv (rs : list (JobNode * list InputSplit)) (s : building) : Prop := {
  ni_splits : Forall splits_for rs;
  ni_ids : NoDup ((fun r => jn_job_id r.1) <$> rs);
  ni_nodes : raw_nodes (eg_dag s.1) = concat (job_nodes <$> rs);
  ni_edges : raw_edges (eg_dag s.1) = [];
  ni_index : indexes (node_indies s.1) (raw_nodes (eg_dag s.1));
  ni_job : forall id l, s.2 !! id = Some l -> exists r, r ∈ rs /\ jn_job_id r.1 = id /\
    Forall2 (fun i n => raw_nodes (eg_dag s.1) !! i = Some n) l (job_nodes r);
  ni_dom : forall r, r ∈ rs -> is_Some (s.2 !! jn_job_id r.1)
}.

Definition task_total (js : list JobNode) : nat := sum_list_with (fun j => Z.to_nat (jn_parallelism j)) js.

Lemma length_nodes rs : Forall splits_for rs -> length (concat (job_nodes <$> rs)) = task_total rs.*1.
Proof.
  induction 1 as [|r rs (f & _ & _ & Hl) _ IH]; [done|]. rewrite !fmap_cons. cbn [concat]. rewrite length_app, length_job_nodes, IH.
  unfold task_total. cbn [sum_list_with]. lia.
Qed.

Lemma task_total_app l1 l2 : task_total (l1 ++ l2) = (task_total l1 + task_total l2)%nat.
Proof. apply sum_list_with_app. Qed.

Lemma Forall2_lookup_seq {A} (l1 l2 : list A) : Forall2 (fun i x => (l1 ++ l2) !! i = Some x) (seq (length l1) (length l2)) l2.
Proof.
  apply Forall2_same_length_lookup_2; [by rewrite length_seq|]. intros i k x Hk Hx2. apply lookup_seq in Hk as [-> _].
  by rewrite lookup_app_r, Nat.add_comm, Nat.add_sub by lia.
Qed.

Lemma add_job_tasks_spec rs s i j : nodes_inv rs s -> raw_nodes (jg_dag jg) !! i = Some j ->
  jn_job_id j ∉ (fun r => jn_job_id r.1) <$> rs -> Z.of_nat (task_total (rs.*1 ++ [j])) <= 2 ^ 32 - 1 ->
  match add_job_tasks jg ops s i with
  | Ok s' => exists splits, nodes_inv (rs ++ [(j, splits)]) s'
  | Err e => split_error j e
  | Panic p => split_panic j p
  end.
Proof.
  intros Hinv Hj Hid Hroom. destruct (xp_jobs Hx j) as (_ & Hpos & f & Hf); [by eapply list_elem_of_lookup_2|].
  pose proof Hf as (src & op & Hsrc & Hop & <-). unfold add_job_tasks, dag_index. rewrite Hj. cbn [unwrap mbind res_bind].
  rewrite <- head_lookup, Hsrc. cbn [unwrap mbind res_bind]. rewrite Hop. cbn [ok_or mbind res_bind].
  destruct (if_create_input_splits _ _) as [splits|e|p] eqn:Esp; cbn [mbind res_bind];
    [|exists (operator_fn op); by rewrite Esp|by exists (operator_fn op)].
  case_decide as Hlen; [exists (operator_fn op); by rewrite Esp|]. rewrite decide_False by lia.
  assert (splits_for (j, splits)) as Hsp by (by exists (operator_fn op)).
  assert (NoDup ((fun r => jn_job_id r.1) <$> rs ++ [(j, splits)])) as Hnd.
  { rewrite fmap_app. apply NoDup_app. split_and!; [apply Hinv| |apply NoDup_singleton]. intros id Hin Heq. apply list_elem_of_singleton in Heq as ->. done. }
  assert (Z.to_nat (jn_parallelism j) = length splits) as Hpar by (simpl in *; lia).
  destruct (add_tasks_spec j splits s (length splits)) as (s' & E & Hn & He & Hi & Hm).
  - done.
  - intros Hnil. by rewrite Hnil in Hsrc.
  - apply eq_None_not_Some. intros [l Hl]. apply (ni_job _ _ Hinv) in Hl as (r & Hr & Heq & _). apply Hid. apply list_elem_of_fmap. by exists r.
  - rewrite (ni_nodes _ _ Hinv), length_nodes by apply Hinv. rewrite task_total_app in Hroom. unfold task_total in *. simpl in *. lia.
  - rewrite (ni_nodes _ _ Hinv). pose proof (NoDup_tasks _ Hnd) as Ht. by rewrite fmap_app, concat_app in Ht; simpl in Ht; rewrite app_nil_r in Ht.
  - apply Hinv.
  - rewrite Hpar, E. exists splits. rewrite take_ge in Hn by (by rewrite length_job_nodes). rewrite decide_False in Hm by (simpl in *; lia).
    split.
    + apply Forall_app. split; [apply Hinv|]. by constructor.
    + done.
    + by rewrite Hn, (ni_nodes _ _ Hinv), fmap_app, concat_app; simpl; rewrite app_nil_r.
    + rewrite He. apply Hinv.
    + done.
    + intros id l Hl. rewrite Hm, lookup_insert_Some in Hl. rewrite Hn. destruct Hl as [[<- <-]|[Hne Hl]].
      * exists (j, splits). split_and!; [set_solver|done|]. rewrite <- (length_job_nodes (j, splits)) at 1. apply Forall2_lookup_seq.
      * apply (ni_job _ _ Hinv) in Hl as (r & Hr & Heq & Hl). exists r. split_and!; [set_solver|done|].
        eapply Forall2_impl; [exact Hl|]. intros k n Hk. simpl. by apply lookup_app_l_Some.
    + intros r [Hr| ->%list_elem_of_singleton]%elem_of_app; rewrite Hm.
      * destruct (ni_dom _ _ Hinv r Hr) as [l Hl]. destruct (decide (jn_job_id j = jn_job_id r.1)) as [->|Hne];
          [rewrite lookup_insert_eq; by eexists|rewrite lookup_insert_ne by done; by eexists].
      * rewrite lookup_insert_eq. by eexists.
Qed.

Lemma add_jobs_fold js jl : Forall2 (fun i j => raw_nodes (jg_dag jg) !! i = Some j) js jl -> forall rs s,
  nodes_inv rs s -> NoDup (jn_job_id <$> rs.*1 ++ jl) -> Z.of_nat (task_total (rs.*1 ++ jl)) <= 2 ^ 32 - 1 ->
  match foldM (add_job_tasks jg ops) s js with
  | Ok s' => exists rs', rs'.*1 = jl /\ nodes_inv (rs ++ rs') s'
  | Err e => exists j, j ∈ jl /\ split_error j e
  | Panic p => exists j, j ∈ jl /\ split_panic j p
  end.
Proof.
  induction 1 as [|i j js jl Hij Hl IH]; intros rs s Hinv Hnd Hroom; cbn [foldM].
  { exists []. by rewrite app_nil_r. }
  assert (jn_job_id j ∉ (fun r => jn_job_id r.1) <$> rs) as Hfresh.
  { rewrite fmap_app, fmap_cons, NoDup_app in Hnd. destruct Hnd as (_ & Hd & _). intros Hin. apply (Hd (jn_job_id j)); [|by left].
    rewrite <- list_fmap_compose. exact Hin. }
  assert (Z.of_nat (task_total (rs.*1 ++ [j])) <= 2 ^ 32 - 1) as Hroom1 by (rewrite cons_middle, app_assoc, task_total_app in Hroom; lia).
  pose proof (add_job_tasks_spec rs s i j Hinv Hij Hfresh Hroom1) as Hstep. destruct (add_job_tasks jg ops s i) as [s1|e|p];
    [|exists j; split; [by left|done]|exists j; split; [by left|done]].
  destruct Hstep as [splits Hinv1]. specialize (IH _ _ Hinv1). rewrite (fmap_app fst) in IH. simpl in IH. rewrite <- app_assoc in IH. simpl in IH.
  specialize (IH Hnd Hroom). destruct (foldM _ s1 js) as [s'|e|p].
  - destruct IH as (rs' & Heq & Hinv'). exists ((j, splits) :: rs'). split; [simpl; by f_equal|]. by rewrite cons_middle, app_assoc.
  - destruct IH as (j' & Hj' & ?). exists j'. split; [by right|done].
  - destruct IH as (j' & Hj' & ?). exists j'. split; [by right|done].
Qed.

Lemma nodes_inv_new : nodes_inv [] (ExecutionGraph_new, ∅).
Proof. split; simpl; rewrite ?raw_nodes_new, ?raw_edges_new; try done; try constructor; intros; set_solver. Qed.

Lemma build_nodes_spec : Z.of_nat (task_total (raw_nodes (jg_dag jg))) <= 2 ^ 32 - 1 ->
  match build_nodes jg ops ExecutionGraph_new with
  | Ok s => exists rs, rs.*1 ≡ₚ raw_nodes (jg_dag jg) /\ nodes_inv rs s
  | Err e => exists j, j ∈ raw_nodes (jg_dag jg) /\ split_error j e
  | Panic p => exists j, j ∈ raw_nodes (jg_dag jg) /\ split_panic j p
  end.
Proof.
  intros Hroom. unfold build_nodes. pose proof (hiter_index_perm jn_job_id _ _ (xp_index Hx)) as Hperm.
  set (js := (hiter (job_node_indies jg)).*2) in *.
  assert (Forall2 (fun i j => raw_nodes (jg_dag jg) !! i = Some j) js (omap (fun i => raw_nodes (jg_dag jg) !! i) js)) as Hjs.
  { assert (Forall (fun i => i < length (raw_nodes (jg_dag jg)))%nat js) as Hlt by (rewrite Hperm; apply Forall_forall; intros i [_ H]%elem_of_seq; done).
    clear Hperm. induction Hlt as [|i l Hi _ IH]; [constructor|]. destruct (lookup_lt_is_Some_2 _ _ Hi) as [j Hj]. cbn [omap list_omap]. rewrite Hj. by constructor. }
  assert (omap (fun i => raw_nodes (jg_dag jg) !! i) js ≡ₚ raw_nodes (jg_dag jg)) as Hjl by (rewrite Hperm; by rewrite omap_lookup_seq).
  pose proof (add_jobs_fold _ _ Hjs [] _ nodes_inv_new) as Hf. simpl in Hf. unfold task_total in *. rewrite Hjl in Hf. specialize (Hf (xp_ids Hx) Hroom).
  destruct (foldM _ _ js) as [s|e|p].
  - destruct Hf as (rs & Heq & Hinv). exists rs. by rewrite Heq.
  - destruct Hf as (j & Hj & He). exists j. by rewrite <- Hjl.
  - destruct Hf as (j & Hj & He). exists j. by rewrite <- Hjl.
Qed.

(** ** The edges *)

(** The edges between the tasks of two jobs. *)
Definition task_edges (w : JobEdge) (ns cs : list NodeIndex) : list (Edge ExecutionEdge) :=
  match w with
  | Forward => zip_with (fun a b => mkEdge a b EE_Memory) ns cs
  | ReBalance => concat ((fun a => (fun b => mkEdge a b EE_Network) <$> cs) <$> ns)
  end.

Definition node_rank (ns : list ExecutionNode) (i : NodeIndex) : nat :=
  default 0%nat ((fun n => Z.to_nat (job_id (en_task_id n))) <$> ns !! i).

Section linking.
Context (ns0 : list ExecutionNode).

Definition goes_up (e : Edge ExecutionEdge) : Prop :=
  (node_rank ns0 (e_source e) < node_rank ns0 (e_target e))%nat /\
  (e_source e < length ns0)%nat /\ (e_target e < length ns0)%nat.

(** The step adds these edges to any graph on these nodes that has room. *)
Definition adds (step : ExecutionGraph -> res DagError ExecutionGraph) (es : list (Edge ExecutionEdge)) : Prop :=
  forall g, raw_nodes (eg_dag g) = ns0 -> Forall goes_up (raw_edges (eg_dag g)) -> Forall goes_up es ->
  Z.of_nat (length (raw_edges (eg_dag g)) + length es) <= 2 ^ 32 - 1 ->
  exists g', step g = Ok g' /\ raw_nodes (eg_dag g') = ns0 /\ node_indies g' = node_indies g /\
    raw_edges (eg_dag g') = raw_edges (eg_dag g) ++ es.

Lemma adds_fold {X} (step : ExecutionGraph -> X -> res DagError ExecutionGraph) (f : X -> list (Edge ExecutionEdge)) l :
  (forall x, x ∈ l -> adds (fun g => step g x) (f x)) -> adds (fun g => foldM step g l) (concat (f <$> l)).
Proof.
  induction l as [|x l IH]; intros Hl g Hn Hg Hup Hroom.
  { exists g. split_and!; try done. simpl. by rewrite app_nil_r. }
  rewrite fmap_cons in *. cbn [concat foldM] in *. rewrite length_app in Hroom. apply Forall_app in Hup as [Hup1 Hup2].
  destruct (Hl x ltac:(by left) g Hn Hg Hup1 ltac:(lia)) as (g1 & -> & Hn1 & Hi1 & He1).
  destruct (IH ltac:(intros; apply Hl; by right) g1 Hn1) as (g2 & E & Hn2 & Hi2 & He2).
  - rewrite He1. by apply Forall_app.
  - done.
  - rewrite He1, length_app. lia.
  - exists g2. split_and!; [done|done|congruence|]. by rewrite He2, He1, app_assoc.
Qed.

Lemma adds_edge w p : adds (fun g => add_execution_edge w g p) [mkEdge p.1 p.2 w].
Proof.
  intros g Hn Hg Hup Hroom. apply Forall_singleton in Hup as (Hr & Hs & Ht). simpl in *. unfold add_execution_edge.
  assert (is_ok (add_edge (eg_dag g) p.1 p.2 w) = true) as Hok.
  { apply add_edge_acyclic; rewrite ?Hn; try done; [unfold has_room; lia|]. apply (ranked_no_path _ (node_rank ns0)); [|done].
    eapply Forall_impl; [exact Hg|]. by intros e (? & _). }
  destruct (add_edge (eg_dag g) p.1 p.2 w) as [[ei d]| |] eqn:Ea; try done. simpl. apply add_edge_inv in Ea as (_ & Hn' & He & _).
  eexists. split_and!; [done|simpl; congruence|done|done].
Qed.

Lemma adds_link_tasks w ns cs : (w = Forward -> length ns = length cs) -> adds (link_tasks w ns cs) (task_edges w ns cs).
Proof.
  intros Hw. destruct w; unfold link_tasks, task_edges.
  - replace (zip_with _ ns cs) with
      (concat ((fun k => match ns !! k, cs !! k with Some a, Some b => [mkEdge a b EE_Memory] | _, _ => [] end) <$> seq 0 (length ns))).
    + apply adds_fold. intros k [_ Hk]%elem_of_seq.
      destruct (lookup_lt_is_Some_2 ns k) as [a Ha]; [lia|]. destruct (lookup_lt_is_Some_2 cs k) as [b Hb]; [rewrite <- Hw by done; lia|].
      rewrite Ha, Hb. cbn [unwrap mbind res_bind]. apply (adds_edge EE_Memory (a, b)).
    + specialize (Hw eq_refl). revert cs Hw. induction ns as [|a ns IH]; intros [|b cs] Hl; simpl in *; try done.
      rewrite <- IH by lia. f_equal. by rewrite <- fmap_S_seq, <- list_fmap_compose.
  - apply adds_fold. intros a _. replace ((fun b => mkEdge a b EE_Network) <$> cs) with (concat ((fun b => [mkEdge a b EE_Network]) <$> cs)).
    + apply adds_fold. intros b _. apply (adds_edge EE_Network (a, b)).
    + clear Hw. induction cs as [|b cs IH]; [done|]. rewrite !fmap_cons. cbn [concat app]. by rewrite IH.
Qed.
End linking.

Section linked.
Context (rs : list (JobNode * list InputSplit)) (g0 : ExecutionGraph) (m : gmap JobId (list NodeIndex)).
Context (Hinv : nodes_inv rs (g0, m)) (Hrs : rs.*1 ≡ₚ raw_nodes (jg_dag jg)).

(** The nodes of a job. *)
Lemma job_indices j : j ∈ raw_nodes (jg_dag jg) -> exists splits ns, (j, splits) ∈ rs /\ m !! jn_job_id j = Some ns /\
  Forall2 (fun i n => raw_nodes (eg_dag g0) !! i = Some n) ns (job_nodes (j, splits)).
Proof.
  intros Hj. rewrite <- Hrs in Hj. apply list_elem_of_fmap in Hj as ([j' splits] & -> & Hr). simpl.
  destruct (ni_dom _ _ Hinv _ Hr) as [ns Hns]. pose proof (ni_job _ _ Hinv _ _ Hns) as ([j2 splits2] & Hr2 & Hid & Hl).
  exists splits, ns. split_and!; [done|done|]. by rewrite (NoDup_fmap_eq _ _ _ _ (ni_ids _ _ Hinv) Hr Hr2 (eq_sym Hid)).
Qed.

Definition tasks_at (i : NodeIndex) : option (list NodeIndex) := j ← raw_nodes (jg_dag jg) !! i; m !! jn_job_id j.

(** The edges of the tasks that stand for an edge of the job graph. *)
Definition expand (e : Edge JobEdge) : list (Edge ExecutionEdge) :=
  match tasks_at (e_source e), tasks_at (e_target e) with
  | Some ns, Some cs => task_edges (e_weight e) ns cs
  | _, _ => []
  end.

(** Every node of the job graph has its tasks. *)
Lemma tasks_at_spec i j : raw_nodes (jg_dag jg) !! i = Some j -> exists splits ns, (j, splits) ∈ rs /\ tasks_at i = Some ns /\
  m !! jn_job_id j = Some ns /\ Forall2 (fun i n => raw_nodes (eg_dag g0) !! i = Some n) ns (job_nodes (j, splits)) /\
  Z.of_nat (length ns) = jn_parallelism j.
Proof.
  intros Hj. destruct (job_indices j) as (splits & ns & Hr & Hm & Hl); [by eapply list_elem_of_lookup_2|].
  exists splits, ns. unfold tasks_at. rewrite Hj. simpl. split_and!; try done.
  pose proof (proj1 (Forall_forall _ _) (ni_splits _ _ Hinv) _ Hr) as (f & _ & _ & Hlen). simpl in Hlen.
  by rewrite (Forall2_length _ _ _ Hl), length_job_nodes.
Qed.

Lemma adds_link_child ei e ns : raw_edges (jg_dag jg) !! ei = Some e -> tasks_at (e_source e) = Some ns ->
  adds (raw_nodes (eg_dag g0)) (fun g => link_child jg m ns g (ei, e_target e)) (expand e).
Proof.
  intros He Hns. destruct e as [a b w]. simpl in *. destruct (xp_edges Hx a b w) as (ja & jb & Ha & Hb & _ & Hw); [by eapply list_elem_of_lookup_2|].
  destruct (tasks_at_spec a ja Ha) as (_ & ns' & _ & Ea & _ & _ & Hla). destruct (tasks_at_spec b jb Hb) as (_ & cs & _ & Eb & Hm & _ & Hlb). simplify_eq.
  unfold expand, link_child, dag_index, dag_edge. simpl. rewrite Hns, Hb, Eb, He. cbn [unwrap ok_or mbind res_bind fmap option_fmap option_map e_weight].
  rewrite Hm. cbn [ok_or mbind res_bind]. apply adds_link_tasks. intros Hf. specialize (Hw Hf). lia.
Qed.

Definition job_index (id : JobId) : NodeIndex := default 0%nat (job_node_indies jg !! id).

Definition child_edges (p : EdgeIndex * NodeIndex) : list (Edge ExecutionEdge) :=
  match raw_edges (jg_dag jg) !! p.1 with Some e => expand e | None => [] end.

Lemma adds_link_job id ns : m !! id = Some ns ->
  adds (raw_nodes (eg_dag g0)) (fun g => link_job jg m g (id, ns)) (concat (child_edges <$> children (jg_dag jg) (job_index id))).
Proof.
  intros Hm. pose proof (ni_job _ _ Hinv _ _ Hm) as (r & Hr & Hid & _).
  assert (r.1 ∈ raw_nodes (jg_dag jg)) as Hj by (rewrite <- Hrs; apply list_elem_of_fmap; eauto). apply list_elem_of_lookup in Hj as [i Hi].
  assert (job_node_indies jg !! id = Some i) as Hidx by (apply (xp_index Hx); eauto).
  unfold link_job, job_index. simpl. rewrite Hidx. cbn [ok_or mbind res_bind from_option]. unfold Datatypes.id.
  apply adds_fold. intros [ei c] Hc. rewrite children_perm in Hc. apply list_elem_of_fmap in Hc as ([ei' e] & Heq & Hin). simpl in Heq.
  apply elem_of_incident in Hin as [He Hs]. simplify_eq. unfold child_edges. simpl. rewrite He. apply adds_link_child; [done|].
  unfold tasks_at. by rewrite Hi.
Qed.

(** All edges, whatever the orders of the maps and of the children. *)
Lemma all_edges_perm :
  concat ((fun kv => concat (child_edges <$> children (jg_dag jg) (job_index kv.1))) <$> hiter m) ≡ₚ concat (expand <$> raw_edges (jg_dag jg)).
Proof.
  assert (forall i, concat (child_edges <$> children (jg_dag jg) i) ≡ₚ concat (expand <$> filter (fun e => e_source e = i) (raw_edges (jg_dag jg)))) as Hout.
  { intros i. rewrite children_perm, <- list_fmap_compose, <- incident_snd, <- list_fmap_compose. apply concat_fmap_perm.
    intros [ei e] Hin. apply elem_of_incident in Hin as [He _]. unfold compose, child_edges. simpl. by rewrite He. }
  rewrite (concat_fmap_perm _ (fun kv => concat (expand <$> filter (fun e => e_source e = job_index kv.1) (raw_edges (jg_dag jg))))) by (intros; apply Hout).
  rewrite (concat_fmap_concat expand). apply concat_perm, fmap_Permutation.
  assert (job_index <$> (hiter m).*1 ≡ₚ seq 0 (length (raw_nodes (jg_dag jg)))) as Hidx.
  { assert ((hiter m).*1 ≡ₚ jn_job_id <$> raw_nodes (jg_dag jg)) as ->.
    { apply NoDup_Permutation; [apply NoDup_hiter_fst|apply (xp_ids Hx)|]. intros id. rewrite elem_of_hiter_keys, list_elem_of_fmap. split.
      - intros [l Hl]. apply (ni_job _ _ Hinv) in Hl as (r & Hr & <- & _). exists r.1. split; [done|]. rewrite <- Hrs. apply list_elem_of_fmap; eauto.
      - intros (j & -> & Hj). destruct (job_indices j Hj) as (? & ns & _ & Hns & _). by eexists. }
    match goal with |- ?a ≡ₚ ?b => cut (a = b); [by intros ->|] end. apply list_eq. intros i. rewrite !list_lookup_fmap. destruct (raw_nodes (jg_dag jg) !! i) as [j|] eqn:Ej; simpl.
    - rewrite lookup_seq_lt by (by apply lookup_lt_Some in Ej). unfold job_index. by rewrite (proj2 (xp_index Hx _ i)) by eauto.
    - by rewrite lookup_seq_ge by (by apply lookup_ge_None in Ej). }
  transitivity (filter (fun e => (e_source e < length (raw_nodes (jg_dag jg)))%nat) (raw_edges (jg_dag jg))).
  - by rewrite <- group_edges, <- Hidx, <- !list_fmap_compose.
  - rewrite filter_all; [done|]. apply Forall_forall. intros [a b w] He. apply (xp_edges Hx) in He as (ja & _ & Ha & _).
    by apply lookup_lt_Some in Ha.
Qed.

(** Every node is a task of a job. *)
Lemma node_task a n : raw_nodes (eg_dag g0) !! a = Some n -> exists r k split, r ∈ rs /\ r.2 !! k = Some split /\
  n = mkExecutionNode (job_task r.1 k) (jn_stream_nodes r.1) split (job_daemon r.1).
Proof.
  intros Hn. pose proof (ni_nodes _ _ Hinv) as Heq. simpl in Heq. rewrite Heq in Hn. apply list_elem_of_lookup_2, elem_of_concat in Hn as (l & Hn & Hl).
  apply list_elem_of_fmap in Hl as (r & -> & Hr). apply list_elem_of_lookup in Hn as [k Hk]. unfold job_nodes in Hk.
  rewrite list_lookup_imap in Hk. destruct (r.2 !! k) as [sp|] eqn:Esp; simplify_eq/=. eauto 10.
Qed.

Lemma NoDup_task_ids : NoDup (en_task_id <$> raw_nodes (eg_dag g0)).
Proof. pose proof (ni_nodes _ _ Hinv) as Heq. simpl in Heq. rewrite Heq. apply NoDup_tasks, Hinv. Qed.

Lemma same_job r j : r ∈ rs -> j ∈ raw_nodes (jg_dag jg) -> jn_job_id r.1 = jn_job_id j -> r.1 = j.
Proof.
  intros Hr Hj Hid. apply (NoDup_fmap_eq jn_job_id _ _ _ (xp_ids Hx)); [|done|done]. rewrite <- Hrs. apply list_elem_of_fmap; eauto.
Qed.

(** The k-th node of a job is the one of its k-th task. *)
Lemma task_position i j ns a k : raw_nodes (jg_dag jg) !! i = Some j -> tasks_at i = Some ns ->
  ns !! k = Some a <-> exists n, raw_nodes (eg_dag g0) !! a = Some n /\ en_task_id n = job_task j k.
Proof.
  intros Hj Hns. destruct (tasks_at_spec i j Hj) as (splits & ns' & Hr & Hns' & _ & Hl & _). rewrite Hns in Hns'. simplify_eq.
  assert (forall k n, job_nodes (j, splits) !! k = Some n -> en_task_id n = job_task j k) as Hjn.
  { intros k' n Hn. unfold job_nodes in Hn. rewrite list_lookup_imap in Hn. simpl in Hn. destruct (splits !! k'); simplify_eq/=. done. }
  split.
  - intros Hk. destruct (Forall2_lookup_l _ _ _ _ _ Hl Hk) as (n & Hn & Ha). eauto.
  - intros (n & Ha & Ht). destruct (node_task a n Ha) as (r & k' & sp & Hr' & Hsp & ->). simpl in Ht.
    assert (r.1 = j) as Hrj by (apply same_job; [done|by eapply list_elem_of_lookup_2|]; unfold job_task in Ht; by simplify_eq).
    rewrite Hrj in Ht. apply job_task_inj in Ht as ->.
    assert (r = (j, splits)) as -> by (apply (NoDup_fmap_eq _ _ _ _ (ni_ids _ _ Hinv) Hr' Hr); by rewrite Hrj).
    simpl in *. assert (job_nodes (j, splits) !! k = Some (mkExecutionNode (job_task j k) (jn_stream_nodes j) sp (job_daemon j))) as Hn
      by (unfold job_nodes; rewrite list_lookup_imap; simpl; by rewrite Hsp).
    destruct (Forall2_lookup_r _ _ _ _ _ Hl Hn) as (a' & Ha' & Hna). rewrite Ha'. f_equal.
    by apply (NoDup_fmap_index _ _ _ _ _ _ NoDup_task_ids Hna Ha).
Qed.

Lemma elem_of_tasks i j ns a : raw_nodes (jg_dag jg) !! i = Some j -> tasks_at i = Some ns ->
  a ∈ ns <-> exists n, raw_nodes (eg_dag g0) !! a = Some n /\ job_id (en_task_id n) = jn_job_id j.
Proof.
  intros Hj Hns. rewrite list_elem_of_lookup. setoid_rewrite (task_position i j ns a _ Hj Hns). split.
  - intros (k & n & Ha & Ht). exists n. by rewrite Ht.
  - intros (n & Ha & Ht). destruct (node_task a n Ha) as (r & k & sp & Hr & _ & ->). simpl in Ht. exists k. eexists. split; [done|]. simpl. f_equal.
    apply same_job; [done|by eapply list_elem_of_lookup_2|done].
Qed.

Lemma NoDup_tasks_at i j ns : raw_nodes (jg_dag jg) !! i = Some j -> tasks_at i = Some ns -> NoDup ns.
Proof.
  intros Hj Hns. apply NoDup_alt. intros k k' a Hk Hk'. apply (task_position i j ns a _ Hj Hns) in Hk as (n & Ha & Ht).
  apply (task_position i j ns a _ Hj Hns) in Hk' as (n' & Ha' & Ht'). simplify_eq. rewrite Ht in Ht'. by apply job_task_inj in Ht'.
Qed.

(** When two tasks are linked, by the edge between their jobs. *)
Definition task_linked (w : JobEdge) (na nb : ExecutionNode) (k : ExecutionEdge) : Prop :=
  match w with
  | Forward => k = EE_Memory /\ task_number (en_task_id na) = task_number (en_task_id nb)
  | ReBalance => k = EE_Network
  end.

Lemma elem_of_expand e a b k : e ∈ raw_edges (jg_dag jg) -> mkEdge a b k ∈ expand e <-> exists ja jb na nb,
  raw_nodes (jg_dag jg) !! e_source e = Some ja /\ raw_nodes (jg_dag jg) !! e_target e = Some jb /\
  raw_nodes (eg_dag g0) !! a = Some na /\ raw_nodes (eg_dag g0) !! b = Some nb /\
  job_id (en_task_id na) = jn_job_id ja /\ job_id (en_task_id nb) = jn_job_id jb /\ task_linked (e_weight e) na nb k.
Proof.
  destruct e as [i c w]. intros He. destruct (xp_edges Hx i c w He) as (ja & jb & Hja & Hjb & _ & Hw). simpl.
  destruct (tasks_at_spec i ja Hja) as (_ & ns & _ & Ens & _). destruct (tasks_at_spec c jb Hjb) as (_ & cs & _ & Ecs & _ & _).
  unfold expand. simpl. rewrite Ens, Ecs. destruct w; simpl.
  - rewrite elem_of_lookup_zip_with. split.
    + intros (k' & a' & b' & Heq & Ha & Hb). simplify_eq. apply (task_position i ja ns _ _ Hja Ens) in Ha as (na & Hna & Hta).
      apply (task_position c jb cs _ _ Hjb Ecs) in Hb as (nb & Hnb & Htb). exists ja, jb, na, nb. by rewrite Hta, Htb.
    + intros (ja' & jb' & na & nb & ? & ? & Hna & Hnb & Hia & Hib & -> & Hnum). simplify_eq.
      destruct (proj1 (list_elem_of_lookup ns a)) as [k' Hk']; [apply (elem_of_tasks i ja ns a Hja Ens); eauto|].
      exists k', a, b. split_and!; [done|done|]. apply (task_position c jb cs _ _ Hjb Ecs). exists nb. split; [done|].
      apply (task_position i ja ns _ _ Hja Ens) in Hk' as (na' & Hna' & Hta). simplify_eq. rewrite Hta in Hnum. simpl in Hnum.
      destruct (node_task b nb Hnb) as (r & kb & sp & Hr & _ & ->). simpl in *. assert (kb = k') as -> by lia. f_equal.
      apply same_job; [done|by eapply list_elem_of_lookup_2|done].
  - rewrite elem_of_concat. setoid_rewrite list_elem_of_fmap. split.
    + intros (l & Hl & a' & -> & Ha). apply list_elem_of_fmap in Hl as (b' & Heq & Hb). simplify_eq.
      apply (elem_of_tasks i ja ns _ Hja Ens) in Ha as (na & Hna & Hta). apply (elem_of_tasks c jb cs _ Hjb Ecs) in Hb as (nb & Hnb & Htb). eauto 12.
    + intros (ja' & jb' & na & nb & ? & ? & Hna & Hnb & Hia & Hib & ->). simplify_eq.
      eexists. split; [|exists a; split; [done|]; apply (elem_of_tasks i ja ns a Hja Ens); eauto].
      apply list_elem_of_fmap. exists b. split; [done|]. apply (elem_of_tasks c jb cs b Hjb Ecs). eauto.
Qed.

Lemma expand_up e : e ∈ raw_edges (jg_dag jg) -> Forall (goes_up (raw_nodes (eg_dag g0))) (expand e).
Proof.
  intros He. apply Forall_forall. intros [a b k] Hin. apply (elem_of_expand e a b k He) in Hin as (ja & jb & na & nb & Hja & Hjb & Hna & Hnb & Hia & Hib & _).
  destruct e as [i c w]. destruct (xp_edges Hx i c w He) as (ja' & jb' & Hja' & Hjb' & Hlt & _). simpl in *. simplify_eq.
  destruct (xp_jobs Hx ja) as (Hpos & _); [by eapply list_elem_of_lookup_2|].
  split_and!; simpl; [|by apply lookup_lt_Some in Hna|by apply lookup_lt_Some in Hnb]. unfold node_rank. rewrite Hna, Hnb. simpl. lia.
Qed.

(** How many edges an edge of the job graph stands for. *)
Definition edge_count (e : Edge JobEdge) : nat :=
  match raw_nodes (jg_dag jg) !! e_source e, raw_nodes (jg_dag jg) !! e_target e with
  | Some ja, Some jb =>
      match e_weight e with
      | Forward => Z.to_nat (jn_parallelism ja)
      | ReBalance => Z.to_nat (jn_parallelism ja) * Z.to_nat (jn_parallelism jb)
      end
  | _, _ => 0
  end.

Lemma length_expand e : e ∈ raw_edges (jg_dag jg) -> length (expand e) = edge_count e.
Proof.
  destruct e as [i c w]. intros He. destruct (xp_edges Hx i c w He) as (ja & jb & Hja & Hjb & _ & Hw).
  destruct (tasks_at_spec i ja Hja) as (_ & ns & _ & Ens & _ & _ & Hln). destruct (tasks_at_spec c jb Hjb) as (_ & cs & _ & Ecs & _ & _ & Hlc).
  unfold expand, edge_count. simpl. rewrite Ens, Ecs, Hja, Hjb. destruct w; simpl.
  - rewrite length_zip_with. specialize (Hw eq_refl). lia.
  - rewrite <- Hln, <- Hlc, !Nat2Z.id. clear. induction ns as [|a ns IH]; [done|]. rewrite fmap_cons. cbn [concat length]. rewrite length_app, length_fmap, IH. lia.
Qed.

Definition edge_ends {E} (e : Edge E) : NodeIndex * NodeIndex := (e_source e, e_target e).

Lemma NoDup_expand e : e ∈ raw_edges (jg_dag jg) -> NoDup (edge_ends <$> expand e).
Proof.
  destruct e as [i c w]. intros He. destruct (xp_edges Hx i c w He) as (ja & jb & Hja & Hjb & _ & Hw).
  destruct (tasks_at_spec i ja Hja) as (_ & ns & _ & Ens & _ & _ & Hln). destruct (tasks_at_spec c jb Hjb) as (_ & cs & _ & Ecs & _ & _ & Hlc).
  pose proof (NoDup_tasks_at i ja ns Hja Ens) as Hns. pose proof (NoDup_tasks_at c jb cs Hjb Ecs) as Hcs.
  unfold expand. simpl. rewrite Ens, Ecs. destruct w; simpl.
  - apply (NoDup_fmap_1 fst). rewrite <- list_fmap_compose. specialize (Hw eq_refl).
    replace ((fst ∘ edge_ends) <$> zip_with _ ns cs) with ns; [done|].
    clear -Hw Hln Hlc. assert (length ns = length cs) as Hl by lia. clear -Hl. revert cs Hl. induction ns as [|a ns IH]; intros [|b cs] Hl; simpl in *; try done.
    f_equal. apply IH. lia.
  - clear -Hns Hcs. induction Hns as [|a ns Ha Hns IH]; [constructor|]. rewrite fmap_cons. cbn [concat]. rewrite fmap_app. apply NoDup_app. split_and!.
    + rewrite <- list_fmap_compose. apply NoDup_fmap_2; [|done]. intros x y Hxy. by simplify_eq/=.
    + intros p Hp Hp'. apply Ha. rewrite <- list_fmap_compose in Hp. apply list_elem_of_fmap in Hp as (b & -> & _).
      apply list_elem_of_fmap in Hp' as (e & Heq & Hin). apply elem_of_concat in Hin as (l & Hin & Hl). apply list_elem_of_fmap in Hl as (a' & -> & Ha').
      apply list_elem_of_fmap in Hin as (b' & -> & _). by simplify_eq/=.
    + done.
Qed.

Lemma NoDup_all_edges : NoDup (edge_ends <$> concat (expand <$> raw_edges (jg_dag jg))).
Proof.
  rewrite fmap_concat, <- list_fmap_compose. pose proof (xp_one Hx) as Hone. pose proof (fun e => elem_of_expand e) as Hex. pose proof NoDup_expand as Hnd.
  assert (forall e, e ∈ raw_edges (jg_dag jg) -> e ∈ raw_edges (jg_dag jg)) as Hsub by done. revert Hone Hsub.
  generalize (raw_edges (jg_dag jg)) at 1 2 4 as es. induction es as [|e es IH]; intros Hone Hsub; [constructor|].
  rewrite fmap_cons in Hone. apply NoDup_cons in Hone as [He Hone]. rewrite fmap_cons. cbn [concat]. apply NoDup_app. split_and!.
  - apply Hnd, Hsub. by left.
  - intros [a b] Hp Hp'. apply He. apply elem_of_concat in Hp' as (l & Hp' & Hl). apply list_elem_of_fmap in Hl as (e' & -> & He').
    apply list_elem_of_fmap in Hp as ([a1 b1 k1] & Heq1 & Hin1). apply list_elem_of_fmap in Hp' as ([a2 b2 k2] & Heq2 & Hin2). unfold edge_ends in Heq1, Heq2. simplify_eq/=.
    apply Hex in Hin1 as (ja & _ & na & _ & Hja & _ & Hna & _ & Hia & _); [|apply Hsub; by left].
    apply Hex in Hin2 as (ja' & _ & na' & _ & Hja' & _ & Hna' & _ & Hia' & _); [|apply Hsub; by right]. simplify_eq.
    apply list_elem_of_fmap. exists e'. split; [|done].
    eapply (NoDup_fmap_index _ _ _ _ _ _ (xp_ids Hx) Hja Hja'). congruence.
  - apply IH; [done|]. intros; apply Hsub; by right.
Qed.
End linked.

(** ** The execution graph *)
Definition edge_total : nat := sum_list_with edge_count (raw_edges (jg_dag jg)).

Record execution_graph_ok (eg : ExecutionGraph) : Prop := {
  (** every task of every job, once *)
  eg_tasks : en_task_id <$> raw_nodes (eg_dag eg) ≡ₚ
    concat ((fun j => job_task j <$> seq 0 (Z.to_nat (jn_parallelism j))) <$> raw_nodes (jg_dag jg));
  eg_ids : NoDup (en_task_id <$> raw_nodes (eg_dag eg));
  (** a task has the operators of its job and the split of its number *)
  eg_nodes : forall n, n ∈ raw_nodes (eg_dag eg) -> exists j f splits k, j ∈ raw_nodes (jg_dag jg) /\ job_source j f /\
    if_create_input_splits f (jn_parallelism j) = Ok splits /\ splits !! k = Some (en_input_split n) /\
    en_task_id n = job_task j k /\ en_stream_nodes n = jn_stream_nodes j /\ en_daemon n = job_daemon j;
  eg_index : indexes (node_indies eg) (raw_nodes (eg_dag eg));
  (** the edges are those of the job graph, task by task *)
  eg_edges : forall a b k, mkEdge a b k ∈ raw_edges (eg_dag eg) <-> exists e ja jb na nb, e ∈ raw_edges (jg_dag jg) /\
    raw_nodes (jg_dag jg) !! e_source e = Some ja /\ raw_nodes (jg_dag jg) !! e_target e = Some jb /\
    raw_nodes (eg_dag eg) !! a = Some na /\ raw_nodes (eg_dag eg) !! b = Some nb /\
    job_id (en_task_id na) = jn_job_id ja /\ job_id (en_task_id nb) = jn_job_id jb /\ task_linked (e_weight e) na nb k;
  eg_once : NoDup (edge_ends <$> raw_edges (eg_dag eg));
  eg_up : Forall (goes_up (raw_nodes (eg_dag eg))) (raw_edges (eg_dag eg))
}.

Lemma edges_spec rs g0 m : nodes_inv rs (g0, m) -> rs.*1 ≡ₚ raw_nodes (jg_dag jg) -> Z.of_nat edge_total <= 2 ^ 32 - 1 ->
  exists eg, build_edges jg m g0 = Ok eg /\ raw_nodes (eg_dag eg) = raw_nodes (eg_dag g0) /\ node_indies eg = node_indies g0 /\
    raw_edges (eg_dag eg) ≡ₚ concat (expand m <$> raw_edges (jg_dag jg)).
Proof.
  intros Hinv Hrs Hroom. pose proof (ni_edges _ _ Hinv) as He0. simpl in He0. pose proof (all_edges_perm rs g0 m Hinv Hrs) as Hall.
  assert (Forall (goes_up (raw_nodes (eg_dag g0))) (concat (expand m <$> raw_edges (jg_dag jg)))) as Hup.
  { apply Forall_forall. intros e Hin. apply elem_of_concat in Hin as (l & Hin & Hl). apply list_elem_of_fmap in Hl as (e' & -> & He').
    exact (proj1 (Forall_forall _ _) (expand_up rs g0 m Hinv Hrs e' He') e Hin). }
  assert (length (concat (expand m <$> raw_edges (jg_dag jg))) = edge_total) as Hlen.
  { unfold edge_total. assert (forall e, e ∈ raw_edges (jg_dag jg) -> length (expand m e) = edge_count e) as Hc by (by apply (length_expand rs g0 m)).
    revert Hc. generalize (raw_edges (jg_dag jg)) as es. induction es as [|e es IH]; intros Hc; [done|]. rewrite fmap_cons. cbn [concat sum_list_with].
    rewrite length_app, Hc, IH; [done| |by left]. intros; apply Hc; by right. }
  destruct (adds_fold (raw_nodes (eg_dag g0)) (link_job jg m) (fun kv => concat (child_edges m <$> children (jg_dag jg) (job_index kv.1))) (hiter m))
    with (g := g0) as (eg & E & Hn & Hi & He).
  - intros [id ns] Hin. apply elem_of_hiter in Hin. by apply (adds_link_job rs g0 m Hinv Hrs).
  - done.
  - rewrite He0. constructor.
  - by rewrite Hall.
  - rewrite He0, Hall, Hlen. simpl. lia.
  - exists eg. split_and!; try done. rewrite He, He0. simpl. done.
Qed.

Lemma execution_graph_expand : Z.of_nat (task_total (raw_nodes (jg_dag jg))) <= 2 ^ 32 - 1 -> Z.of_nat edge_total <= 2 ^ 32 - 1 ->
  match execution_graph_build jg ops with
  | Ok eg => execution_graph_ok eg
  | Err e => exists j, j ∈ raw_nodes (jg_dag jg) /\ split_error j e
  | Panic p => exists j, j ∈ raw_nodes (jg_dag jg) /\ split_panic j p
  end.
Proof.
  intros Hroom Hroom'. unfold execution_graph_build. pose proof (build_nodes_spec Hroom) as Hb.
  destruct (build_nodes jg ops ExecutionGraph_new) as [[g0 m]|e|p]; cbn [mbind res_bind]; [|done|done]. destruct Hb as (rs & Hrs & Hinv).
  destruct (edges_spec rs g0 m Hinv Hrs Hroom') as (eg & -> & Hn & Hi & He). split; rewrite ?Hn, ?Hi.
  - pose proof (ni_nodes _ _ Hinv) as Heq. simpl in Heq. rewrite Heq, fmap_concat, <- Hrs, <- !list_fmap_compose. apply concat_fmap_perm.
    intros r Hr. pose proof (proj1 (Forall_forall _ _) (ni_splits _ _ Hinv) _ Hr) as (f & _ & _ & Hlen). unfold compose.
    rewrite job_nodes_tasks. by rewrite <- Hlen, Nat2Z.id.
  - by apply (NoDup_task_ids rs g0 m).
  - intros n Hin. apply list_elem_of_lookup in Hin as [a Ha]. destruct (node_task rs g0 m Hinv a n Ha) as (r & k & sp & Hr & Hsp & ->).
    pose proof (proj1 (Forall_forall _ _) (ni_splits _ _ Hinv) _ Hr) as (f & Hf & Hc & _). exists r.1, f, r.2, k. split_and!; try done.
    rewrite <- Hrs. apply list_elem_of_fmap. eauto.
  - apply (ni_index _ _ Hinv).
  - intros a b k. rewrite He, elem_of_concat. split.
    + intros (l & Hin & Hl). apply list_elem_of_fmap in Hl as (e & -> & Hin'). exists e. apply (elem_of_expand rs g0 m Hinv Hrs e a b k Hin') in Hin. naive_solver.
    + intros (e & ja & jb & na & nb & Hin & H). exists (expand m e). split; [|by apply list_elem_of_fmap_2].
      apply (elem_of_expand rs g0 m Hinv Hrs e a b k Hin). eauto 10.
  - rewrite He. by apply (NoDup_all_edges rs g0 m).
  - rewrite He. apply Forall_forall. intros e Hin. apply elem_of_concat in Hin as (l & Hin & Hl). apply list_elem_of_fmap in Hl as (e' & -> & He').
    exact (proj1 (Forall_forall _ _) (expand_up rs g0 m Hinv Hrs e' He') e Hin).
Qed.
End expand.

(** The job graph of a program can be expanded. *)
Lemma job_graph_expandable g jg : built g [] -> job_graph_ok g jg -> expandable jg (snd <$> operators g).
Proof.
  intros Hb Hjg. destruct (built_ok _ _ Hb) as [Hraw _ _]. split.
  - apply Hjg.
  - intros j Hj. pose proof (proj1 (Forall_forall _ _) (jg_jobs _ _ Hjg) j Hj) as ((src & _ & Hsrc & Hty & Hid & _) & Hpar & _).
    assert (src ∈ raw_nodes (dag g)) as Hin.
    { rewrite <- (jg_partition _ _ Hjg). apply elem_of_concat. exists (jn_stream_nodes j). split; [|by apply list_elem_of_fmap_2].
      destruct (jn_stream_nodes j); simplify_eq/=. by left. }
    apply list_elem_of_lookup in Hin as [i Hi]. pose proof (ri_ids g Hraw i src Hi) as Hids. destruct (ri_ops g Hraw i src Hi) as (op & Hop & Ht).
    split_and!; [lia|done|]. rewrite Hty in Ht. destruct op as [op| | | | | | | |]; try done. exists (operator_fn op), src, op. split_and!; try done.
    rewrite lookup_fmap, Hids, Hop. done.
  - apply Hjg.
  - intros a b w He. pose proof He as (ja & jb & Ha & Hb' & _ & Hw)%(jg_edges _ _ Hjg). exists ja, jb. split_and!; try done.
    + by eapply (jg_order _ _ Hjg).
    + intros ->. unfold job_edge in Hw. destruct (is_reduce_job jb), (is_reduce_job ja); repeat case_decide; try done; by apply dec_stable.
  - apply Hjg.
Qed.

(** For the job graph of a program, where the tasks and edges fit into a graph,
    the builder gives one task for every number below the parallelism of every job,
    each with the operators of its job and the split of its number, and links two
    tasks exactly as the edge between their jobs says: same numbers in memory, all
    pairs over the network, each pair once. It fails only when a source fails to
    give one split per task. *)
Theorem execution_graph_spec g jg ops :
  built g [] -> job_graph_ok g jg -> graph_operators g = Ok ops ->
  Z.of_nat (task_total (raw_nodes (jg_dag jg))) <= 2 ^ 32 - 1 -> Z.of_nat (edge_total jg) <= 2 ^ 32 - 1 ->
  match execution_graph_build jg ops with
  | Ok eg => execution_graph_ok jg ops eg
  | Err e => exists j, j ∈ raw_nodes (jg_dag jg) /\ split_error ops j e
  | Panic p => exists j, j ∈ raw_nodes (jg_dag jg) /\ split_panic ops j p
  end.
Proof.
  intros Hb Hjg Hops. rewrite graph_operators_ok in Hops. simplify_eq.
  apply execution_graph_expand. by apply job_graph_expandable.
Qed.
End execution_graph.

(** ** Examples *)
#[local] Existing Instance ListDag.
#[local] Existing Instance id_order.

Definition ok_value {E A} (r : res E A) : option A := match r with Ok a => Some a | _ => None end.

(** The execution graph of a program. *)
Definition prog_jobs (cs : list ApiCall) : option JobGraph :=
  r ← job_graph_build 20 (sg_of (prog_graph cs)); ok_value r.

Definition prog_tasks (cs : list ApiCall) : option ExecutionGraph :=
  jg ← prog_jobs cs; ops ← ok_value (graph_operators (prog_graph cs)); ok_value (execution_graph_build jg ops).

Definition task_view (n : ExecutionNode) : TaskId * Z := (en_task_id n, split_number (en_input_split n)).

(** Two mapping tasks feed three reducing tasks over the network, each of which has
    its output task beside it. *)
Example ex_aggregate_tasks :
  match prog_tasks ex_aggregate with
  | Some eg => task_view <$> raw_nodes (eg_dag eg) =
      [(mkTaskId 8 0 3, 0); (mkTaskId 8 1 3, 1); (mkTaskId 8 2 3, 2); (mkTaskId 4 0 3, 0); (mkTaskId 4 1 3, 1); (mkTaskId 4 2 3, 2);
       (mkTaskId 0 0 2, 0); (mkTaskId 0 1 2, 1)] /\
      raw_edges (eg_dag eg) = [mkEdge 3 0 EE_Memory; mkEdge 4 1 EE_Memory; mkEdge 5 2 EE_Memory;
        mkEdge 6 3 EE_Network; mkEdge 6 4 EE_Network; mkEdge 6 5 EE_Network;
        mkEdge 7 3 EE_Network; mkEdge 7 4 EE_Network; mkEdge 7 5 EE_Network]
  | None => False
  end.
Proof. vm_compute. split; reflexivity. Qed.

Lemma prog_jobs_ok cs jg : built (prog_graph cs) [] -> sources_positive (prog_graph cs) = true ->
  (length (raw_nodes (dag (prog_graph cs))) <? 20)%nat = true -> prog_jobs cs = Some jg -> job_graph_ok (prog_graph cs) jg.
Proof.
  intros Hb Hs Hl Hjg. pose proof (job_graph_builds (prog_graph cs) 20 Hb (sources_positive_spec _ Hs) (proj1 (Nat.ltb_lt _ _) Hl)) as H.
  unfold prog_jobs in Hjg. destruct (job_graph_build 20 (sg_of (prog_graph cs))) as [[jg'| |]|]; try discriminate Hjg. by injection Hjg as ->.
Qed.

(** The bounds of the theorem, evaluated. *)
Definition fits (jg : JobGraph) : bool :=
  (Z.of_nat (task_total (raw_nodes (jg_dag jg))) <=? 2 ^ 32 - 1) && (Z.of_nat (edge_total jg) <=? 2 ^ 32 - 1).

Lemma execution_graph_spec_witness :
  match prog_jobs ex_aggregate, graph_operators (prog_graph ex_aggregate) with
  | Some jg, Ok ops => match execution_graph_build jg ops with Ok eg => execution_graph_ok jg ops eg | _ => False end
  | _, _ => False
  end.
Proof.
  assert (built (prog_graph ex_aggregate) []) as Hb by (apply (prog_built ex_aggregate); vm_compute; reflexivity).
  assert (is_ok (unwrap (E := unit) "" (prog_tasks ex_aggregate)) = true) as Ht by (vm_compute; reflexivity). unfold prog_tasks in Ht.
  assert (match prog_jobs ex_aggregate with Some jg => fits jg | None => false end = true) as Hf by (vm_compute; reflexivity).
  pose proof (prog_jobs_ok ex_aggregate) as Hjg. destruct (prog_jobs ex_aggregate) as [jg|]; [|discriminate Hf].
  specialize (Hjg jg Hb ltac:(vm_compute; reflexivity) ltac:(vm_compute; reflexivity) eq_refl).
  apply andb_true_iff in Hf as [Hf1 Hf2]. apply Z.leb_le in Hf1, Hf2.
  pose proof (fun ops Ho => execution_graph_spec (prog_graph ex_aggregate) jg ops Hb Hjg Ho Hf1 Hf2) as H.
  destruct (graph_operators (prog_graph ex_aggregate)) as [ops| |]; [|discriminate Ht|discriminate Ht].
  specialize (H ops eq_refl). cbn [mbind option_bind ok_value] in Ht.
  destruct (execution_graph_build jg ops) as [eg| |]; [exact H|discriminate Ht|discriminate Ht].
Defined.
