(* ===== verification/PhysicGraph.v ===== *)
(** * PhysicGraph: chains of tasks and their allocation to workers

    src/rlink/src/dag/physic_graph.rs and [DagManager] of src/rlink/src/dag/mod.rs:
    tasks that are linked in memory must share a process, so the memory edges are
    followed in both directions to collect a chain; the chains are dealt out to the
    workers in turn. The search consumes the edges of a copy of the graph.

    The theorems say that a chain holds exactly the tasks connected in memory, that a
    task with an edge is deployed on one worker, when it is deployed once, and which
    tasks are not deployed at all. *)
From Stdlib Require Import ZArith Lia Sorted.
From stdpp Require Import base strings numbers option sets gmap list relations pretty.
From S2P Require Import Prelude Bytes Runtime Graph Schema StreamGraph JobGraph ExecutionGraph.

Section physic_graph.
Context {DA : DagApi} {HO : HashOrder}.

Record ForwardTaskChain := mkChain { tasks : list ExecutionNode }.

(** [Iterator::min_by_key]: the first of the smallest elements. *)
Fixpoint min_by_key {A} (key : A -> Z) (x : A) (l : list A) : A :=
  match l with
  | [] => x
  | y :: l' => min_by_key key (if key y <? key x then y else x) l'
  end.

Definition chain_task_id {E} (c : ForwardTaskChain) : res E TaskId :=
  match tasks c with
  | [] => Panic "called `Option::unwrap()` on a `None` value"
  | x :: l => Ok (en_task_id (min_by_key (fun n => job_id (en_task_id n)) x l))
  end.

Record PhysicGraph := mkPhysicGraph { task_groups : gmap JobId (list ForwardTaskChain) }.

Definition PhysicGraph_new : PhysicGraph := mkPhysicGraph ∅.

Abbreviation EDag := (Dag ExecutionNode ExecutionEdge).

(** ** The search *)

(** The memory edges of a list of edges with their other ends. *)
Definition memory_edges {E} (d : EDag) (l : list (EdgeIndex * NodeIndex)) : res E (list (EdgeIndex * NodeIndex)) :=
  foldM (fun acc p => let* w := dag_edge d p.1 in Ok (if decide (w = EE_Memory) then acc ++ [p] else acc)) [] l.

(** The edges are removed one after the other, by the indices they had at first. *)
Definition remove_edges (d : EDag) (l : list (EdgeIndex * NodeIndex)) : EDag := foldl (fun d p => remove_edge d p.1) d l.

Definition get_parents {E} (node_index : NodeIndex) (d : EDag) : res E (list NodeIndex * EDag) :=
  let* l := memory_edges d (parents d node_index) in Ok (l.*2, remove_edges d l).

Definition get_children {E} (node_index : NodeIndex) (d : EDag) : res E (list NodeIndex * EDag) :=
  let* l := memory_edges d (children d node_index) in Ok (l.*2, remove_edges d l).

(** Searching from each of some nodes, the results put together. *)
Definition search_all {E} (search : NodeIndex -> EDag -> run E (list NodeIndex * EDag)) (s : list NodeIndex * EDag) (l : list NodeIndex)
    : run E (list NodeIndex * EDag) :=
  foldR (fun s p => do* (p_indies, d) := search p s.2 in Some (Ok (s.1 ++ p_indies, d))) s l.

Fixpoint search {E} (fuel : nat) (node_index : NodeIndex) (d : EDag) : run E (list NodeIndex * EDag) :=
  match fuel with
  | O => None
  | S fuel =>
      do* (ps, d) := Some (get_parents node_index d) in
      do* (node_indies, d) := search_all (search fuel) ([node_index], d) ps in
      do* (cs, d) := Some (get_children node_index d) in
      search_all (search fuel) (node_indies, d) cs
  end.

(** ** The chains *)

(** The ends of all edges, and those of the memory edges. *)
Definition edge_sets (es : list (Edge ExecutionEdge)) : gset NodeIndex * gset NodeIndex :=
  foldl (fun s e =>
      let f := match e_weight e with EE_Memory => {[e_source e]} ∪ ({[e_target e]} ∪ s.2) | EE_Network => s.2 end in
      ({[e_source e]} ∪ ({[e_target e]} ∪ s.1), f)) (∅, ∅) es.

Definition execution_nodes {E} (d : EDag) (l : list NodeIndex) : res E (list ExecutionNode) :=
  foldM (fun acc i => let* n := dag_index d i in Ok (acc ++ [n])) [] l.

(** The loop over the tasks with memory edges. *)
Fixpoint forward_loop {E} (fuel sfuel : nat) (d : EDag) (forward_task_set : gset NodeIndex) : run E (list ForwardTaskChain) :=
  match fuel with
  | O => None
  | S fuel =>
      match head (hash_order (elements forward_task_set)) with
      | Some node_index =>
          do* (forward_node_indies, _) := search sfuel node_index d in
          do* ts := Some (execution_nodes d forward_node_indies) in
          do* chains := forward_loop fuel sfuel d (forward_task_set ∖ list_to_set forward_node_indies) in
          Some (Ok (mkChain ts :: chains))
      | None => Some (Ok [])
      end
  end.

Definition merge_forward_task {E} (d : EDag) : run E (list ForwardTaskChain) :=
  match raw_edges d with
  | [] => Some (Ok ((fun n => mkChain [n]) <$> raw_nodes d))
  | es =>
      let '(all_task_set, forward_task_set) := edge_sets es in
      do* ns := Some (execution_nodes d (filter (fun i => i ∉ forward_task_set) (hash_order (elements all_task_set)))) in
      let hash_chains := (fun n => mkChain [n]) <$> ns in
      do* forward_chains := forward_loop (S (size forward_task_set)) (S (length es)) d forward_task_set in
      Some (Ok (forward_chains ++ hash_chains))
  end.

Definition add_chain {E} (g : PhysicGraph) (chain : ForwardTaskChain) : res E PhysicGraph :=
  let* t := chain_task_id chain in
  Ok (mkPhysicGraph (<[job_id t := default [] (task_groups g !! job_id t) ++ [chain]]> (task_groups g))).

Definition physic_graph_build {E} (d : EDag) : run E PhysicGraph :=
  do* chains := merge_forward_task d in
  Some (foldM add_chain PhysicGraph_new chains).

(** ** The workers *)
Record TaskInstance := mkTaskInstance {
  ti_task_id : TaskId;
  ti_stream_nodes : list StreamNode;
  ti_input_split : InputSplit;
  ti_daemon : bool
}.

Record WorkerManagerInstance := mkWorkerInstance {
  wi_worker_manager_id : string;
  wi_task_instances : list TaskInstance
}.

Definition task_instance (n : ExecutionNode) : TaskInstance :=
  mkTaskInstance (en_task_id n) (en_stream_nodes n) (en_input_split n) (en_daemon n).

(** The body of the loop: the next worker in turn gets the tasks of the chain. *)
Definition place_chain {E} (s : list WorkerManagerInstance * nat) (chain : ForwardTaskChain) : res E (list WorkerManagerInstance * nat) :=
  let '(ws, i) := s in
  if decide (length ws = 0%nat) then Panic "attempt to calculate the remainder with a divisor of zero"
  else
    let index := (i mod length ws)%nat in
    let* w := unwrap "index out of bounds" (ws !! index) in
    Ok (<[index := mkWorkerInstance (wi_worker_manager_id w) (wi_task_instances w ++ (task_instance <$> tasks chain))]> ws, S i).

(** [Vec::with_capacity(n)] has room for at least [n] elements; the code makes as
    many workers as there is room for. *)
Definition alloc_by_instance {E} (capacity : nat) (g : PhysicGraph) : res E (list WorkerManagerInstance) :=
  let ws := (fun index => mkWorkerInstance ("worker_manager_" +:+ pretty index) []) <$> seq 0 capacity in
  let* (ws, _) := foldM place_chain (ws, 0%nat) (concat (hiter (task_groups g)).*2) in
  Ok ws.

(** ** The manager of the graphs *)
Record DagManager := mkDagManager {
  dm_stream_graph : StreamGraph;
  dm_job_graph : JobGraph;
  dm_execution_graph : ExecutionGraph;
  dm_physic_graph : PhysicGraph
}.

Definition DagManager_try_from (fuel : nat) (raw_stream_graph : RawStreamGraph) : run DagError DagManager :=
  let stream_graph := mkStreamGraph (sources raw_stream_graph) (dag raw_stream_graph) in
  do* job_graph := job_graph_build fuel stream_graph in
  do* ops := Some (graph_operators raw_stream_graph) in
  do* execution_graph := Some (execution_graph_build job_graph ops) in
  do* physic_graph := physic_graph_build (eg_dag execution_graph) in
  Some (Ok (mkDagManager stream_graph job_graph execution_graph physic_graph)).

(** ** Removing edges by old indices

    An index that was valid still names the same edge, or none: a moved edge leaves
    its index free for ever. *)
Lemma remove_old_indices {A} (es : list A) l : NoDup l -> forall cur,
  (forall j, j ∈ l -> (j < length cur)%nat -> cur !! j = es !! j) ->
  exists removed, cur ≡ₚ removed ++ foldl (fun c j => swap_remove j c) cur l /\
    Forall (fun e => exists j, j ∈ l /\ es !! j = Some e) removed /\
    match l with j :: _ => (j < length cur)%nat -> removed <> [] | [] => True end.
Proof.
  induction 1 as [|j l Hj Hnd IH]; intros cur Hcur; simpl; [by exists []|].
  destruct (decide (j < length cur)%nat) as [Hlt|Hge].
  - destruct (lookup_lt_is_Some_2 cur j Hlt) as [e He]. destruct (IH (swap_remove j cur)) as (rm & Hperm & Hrm & _).
    { intros k Hk Hlk. rewrite length_swap_remove in Hlk by done. rewrite lookup_swap_remove_ne; [|by intros ->|done].
      apply Hcur; [by right|lia]. }
    exists (e :: rm). split_and!; [|constructor|done].
    + simpl. rewrite <- Hperm. symmetry. by apply swap_remove_perm.
    + exists j. split; [by left|]. rewrite <- Hcur; [done|by left|done].
    + eapply Forall_impl; [exact Hrm|]. intros x (k & Hk & Hx). exists k. split; [by right|done].
  - rewrite swap_remove_ge by lia. destruct (IH cur) as (rm & Hperm & Hrm & _); [intros; apply Hcur; [by right|done]|].
    exists rm. split_and!; [done| |done]. eapply Forall_impl; [exact Hrm|]. intros x (k & Hk & Hx). exists k. split; [by right|done].
Qed.

Lemma raw_edges_remove (d : EDag) l : raw_edges (remove_edges d l) = foldl (fun c j => swap_remove j c) (raw_edges d) l.*1.
Proof.
  unfold remove_edges. revert d. induction l as [|p l IH]; intros d; [done|]. rewrite fmap_cons. cbn [foldl]. by rewrite IH, remove_edge_edges.
Qed.

Lemma raw_nodes_remove (d : EDag) l : raw_nodes (remove_edges d l) = raw_nodes d.
Proof. unfold remove_edges. revert d. induction l as [|p l IH]; intros d; simpl; [done|]. by rewrite IH, remove_edge_nodes. Qed.

Definition is_memory (e : Edge ExecutionEdge) : Prop := e_weight e = EE_Memory.

#[global] Instance is_memory_dec e : Decision (is_memory e).
Proof. unfold is_memory. apply _. Defined.

Lemma memory_edges_ok {E} (d : EDag) l : (forall p, p ∈ l -> (p.1 < length (raw_edges d))%nat) ->
  memory_edges (E := E) d l = Ok (filter (fun p => e_weight <$> raw_edges d !! p.1 = Some EE_Memory) l).
Proof.
  intros Hl. unfold memory_edges. induction l as [|p l IH] using rev_ind; [done|].
  rewrite foldM_app, IH by set_solver. cbn [mbind res_bind foldM]. unfold dag_edge.
  destruct (lookup_lt_is_Some_2 (raw_edges d) p.1) as [e He]; [apply Hl; set_solver|]. rewrite filter_app, filter_cons, filter_nil, He. simpl.
  destruct (decide (e_weight e = EE_Memory)) as [Hw|Hw]; [rewrite decide_True by congruence; done|]. by rewrite decide_False, app_nil_r by congruence.
Qed.

(** One direction of the search: the memory edges of a node at the end [f], with the
    nodes at the other end [h]. *)
Lemma memory_step {E} f h (d : EDag) i l : l ≡ₚ (fun p => (p.1, h p.2)) <$> incident f i (raw_edges d) ->
  exists l' rm, memory_edges (E := E) d l = Ok l' /\
    (forall q, q ∈ l'.*2 <-> exists e, e ∈ raw_edges d /\ is_memory e /\ f e = i /\ h e = q) /\
    raw_edges d ≡ₚ rm ++ raw_edges (remove_edges d l') /\ Forall (fun e => is_memory e /\ f e = i) rm /\ (l' <> [] -> rm <> []) /\
    l'.*2 ≡ₚ h <$> filter (fun e => is_memory e /\ f e = i) (raw_edges d).
Proof.
  intros Hl. assert (forall p, p ∈ l -> exists e, raw_edges d !! p.1 = Some e /\ f e = i /\ h e = p.2) as Hin.
  { intros [k q] Hp. rewrite Hl in Hp. apply list_elem_of_fmap in Hp as ([k' e] & Heq & Hp). apply elem_of_incident in Hp as [He Hf]. simplify_eq/=. eauto. }
  rewrite memory_edges_ok by (intros p (e & He & _)%Hin; by apply lookup_lt_Some in He).
  set (l' := filter _ l). assert (forall p, p ∈ l' -> exists e, raw_edges d !! p.1 = Some e /\ is_memory e /\ f e = i /\ h e = p.2) as Hin'.
  { intros p [Hw Hp]%list_elem_of_filter. destruct (Hin p Hp) as (e & He & Hf & Hh). rewrite He in Hw. simplify_eq/=. eauto. }
  assert (l'.*2 ≡ₚ h <$> filter (fun e => is_memory e /\ f e = i) (raw_edges d)) as Hperm.
  { unfold l'. rewrite Hl. clear. rewrite filter_fmap, <- list_fmap_compose. unfold compose. simpl.
    rewrite <- (list_filter_filter is_memory (fun e => f e = i)), <- incident_snd.
    rewrite (filter_fmap snd is_memory), <- list_fmap_compose. unfold compose. simpl.
    match goal with |- ?a ≡ₚ ?b => cut (a = b); [by intros ->|] end. f_equal. apply filter_ext_in.
    intros [k e] Hin. apply elem_of_incident in Hin as [He _]. simpl. rewrite He. simpl. unfold is_memory. split; intros Hw; [by injection Hw|by rewrite Hw]. }
  destruct (remove_old_indices (raw_edges d) l'.*1) with (cur := raw_edges d) as (rm & Hrm & Hall & Hne).
  { unfold l'. apply NoDup_fmap_filter. rewrite Hl, <- list_fmap_compose. unfold compose. simpl.
    apply NoDup_fmap_2_strong; [|apply NoDup_incident]. intros [k e] [k' e'] Hx Hy Heq. simpl in Heq. subst k'.
    apply elem_of_incident in Hx as [Hx _]. apply elem_of_incident in Hy as [Hy _]. by simplify_eq. }
  { done. }
  exists l', rm. split_and!; [done| | | | |done].
  - intros q. rewrite Hperm, list_elem_of_fmap. setoid_rewrite list_elem_of_filter. naive_solver.
  - by rewrite raw_edges_remove.
  - eapply Forall_impl; [exact Hall|]. intros e (j & Hj & He). simpl. apply list_elem_of_fmap in Hj as (p & -> & Hp).
    destruct (Hin' p Hp) as (e' & He' & ? & ? & _). by simplify_eq.
  - intros Hl'. destruct l' as [|p l'']; [done|]. apply Hne. destruct (Hin' p) as (e & He & _); [by left|]. by apply lookup_lt_Some in He.
Qed.

(** ** What a search finds *)

(** Two tasks linked in memory, in either direction. *)
Definition memory_adj (es : list (Edge ExecutionEdge)) (x y : NodeIndex) : Prop :=
  exists e, e ∈ es /\ is_memory e /\ ((e_source e = x /\ e_target e = y) \/ (e_source e = y /\ e_target e = x)).

Definition both_in (l : list NodeIndex) (e : Edge ExecutionEdge) : Prop := e_source e ∈ l /\ e_target e ∈ l.

(** No memory edge leaves the list. *)
Definition closed (es : list (Edge ExecutionEdge)) (l : list NodeIndex) : Prop :=
  forall e, e ∈ es -> is_memory e -> e_source e ∈ l \/ e_target e ∈ l -> both_in l e.

(** What is left of the edges of [d] are those of [d']; the others lie within [l]. *)
Definition consumed (d d' : EDag) (l : list NodeIndex) : Prop :=
  raw_nodes d' = raw_nodes d /\ exists rm, raw_edges d ≡ₚ rm ++ raw_edges d' /\ Forall (fun e => is_memory e /\ both_in l e) rm.

Lemma consumed_refl d l : consumed d d l.
Proof. split; [done|]. by exists []. Qed.

Lemma consumed_trans d1 d2 d3 l l' : consumed d1 d2 l -> consumed d2 d3 l' -> l ⊆ l' -> consumed d1 d3 l'.
Proof.
  intros [Hn (rm & Hp & Hrm)] [Hn' (rm' & Hp' & Hrm')] Hl. split; [congruence|]. exists (rm ++ rm'). split.
  - by rewrite Hp, Hp', app_assoc.
  - apply Forall_app. split; [|done]. eapply Forall_impl; [exact Hrm|]. intros e (Hm & H1 & H2). split; [done|]. split; by apply Hl.
Qed.

Lemma consumed_elem d d' l e : consumed d d' l -> e ∈ raw_edges d -> is_memory e -> e ∈ raw_edges d' \/ both_in l e.
Proof.
  intros [_ (rm & Hp & Hrm)] He Hm. rewrite Hp in He. apply elem_of_app in He as [He|He]; [|by left].
  right. by apply (proj1 (Forall_forall _ _) Hrm).
Qed.

Lemma consumed_sub d d' l e : consumed d d' l -> e ∈ raw_edges d' -> e ∈ raw_edges d.
Proof. intros [_ (rm & Hp & _)] He. rewrite Hp. apply elem_of_app. by right. Qed.

Lemma consumed_length d d' l : consumed d d' l -> (length (raw_edges d') <= length (raw_edges d))%nat.
Proof. intros [_ (rm & Hp & _)]. rewrite Hp, length_app. lia. Qed.

Lemma memory_adj_sub es es' x y : (forall e, e ∈ es -> e ∈ es') -> rtc (memory_adj es) x y -> rtc (memory_adj es') x y.
Proof. intros Hsub. apply rtc_subrel. intros a b (e & He & H). exists e. auto. Qed.

Record found (i : NodeIndex) (d : EDag) (l : list NodeIndex) (d' : EDag) : Prop := {
  fd_self : i ∈ l;
  fd_consumed : consumed d d' l;
  fd_closed : closed (raw_edges d) l;
  fd_reach : forall x, x ∈ l -> rtc (memory_adj (raw_edges d)) i x
}.

(** During a search from [i] in [d0]: what has been found, and what will be. *)
Record searching (i : NodeIndex) (d0 : EDag) (acc pend : list NodeIndex) (d : EDag) : Prop := {
  sc_self : i ∈ acc;
  sc_consumed : consumed d0 d (acc ++ pend);
  sc_closed : forall e, e ∈ raw_edges d0 -> is_memory e -> (e_source e ∈ acc /\ e_source e <> i) \/ (e_target e ∈ acc /\ e_target e <> i) ->
    both_in (acc ++ pend) e;
  sc_reach : forall x, x ∈ acc ++ pend -> rtc (memory_adj (raw_edges d0)) i x
}.

Lemma searching_step i d0 acc p pend d lp d' : searching i d0 acc (p :: pend) d -> found p d lp d' -> searching i d0 (acc ++ lp) pend d'.
Proof.
  intros [Hi Hc Hcl Hr] [Hp Hc' Hcl' Hr'].
  assert (forall x, x ∈ acc ++ p :: pend -> x ∈ (acc ++ lp) ++ pend) as Hsub by set_solver.
  assert (forall x, x ∈ lp -> x ∈ (acc ++ lp) ++ pend) as Hsub' by set_solver. split.
  - set_solver.
  - assert (consumed d d' ((acc ++ lp) ++ pend)) as Hc2.
    { eapply consumed_trans; [exact Hc'|apply consumed_refl|]. intros x. apply Hsub'. }
    eapply consumed_trans; [exact Hc|exact Hc2|]. intros x. apply Hsub.
  - intros e He Hm Hend. destruct (consumed_elem _ _ _ _ Hc He Hm) as [Hd|[H1 H2]]; [|split; by apply Hsub].
    assert (((e_source e ∈ acc /\ e_source e <> i) \/ (e_target e ∈ acc /\ e_target e <> i)) \/ (e_source e ∈ lp \/ e_target e ∈ lp)) as [Ha|Hlp] by set_solver.
    + destruct (Hcl e He Hm Ha). split; by apply Hsub.
    + destruct (Hcl' e Hd Hm Hlp). split; by apply Hsub'.
  - intros x Hx. assert (x ∈ acc ++ p :: pend \/ x ∈ lp) as [Hx'|Hx'] by set_solver; [by apply Hr|].
    transitivity p; [apply Hr; set_solver|]. eapply memory_adj_sub; [|by apply Hr']. intros e. by apply (consumed_sub _ _ _ _ Hc).
Qed.

(** A search for each of some nodes. *)
Lemma search_all_spec {E} (srch : NodeIndex -> EDag -> run E (list NodeIndex * EDag)) n i d0 pend : forall acc d,
  (forall p d, (length (raw_edges d) < n)%nat -> exists l d', srch p d = Some (Ok (l, d')) /\ found p d l d') ->
  (pend <> [] -> length (raw_edges d) < n)%nat -> searching i d0 acc pend d ->
  exists acc' d', search_all srch (acc, d) pend = Some (Ok (acc', d')) /\ searching i d0 acc' [] d' /\ consumed d d' acc' /\
    (forall x, x ∈ acc ++ pend -> x ∈ acc').
Proof.
  induction pend as [|p pend IH]; intros acc d Hs Hlen Hsc.
  { exists acc, d. split_and!; [done|done|apply consumed_refl|]. intros x. by rewrite app_nil_r. }
  specialize (Hlen ltac:(done)). destruct (Hs p d Hlen) as (lp & d1 & E1 & Hf). pose proof (searching_step _ _ _ _ _ _ _ _ Hsc Hf) as Hsc1.
  pose proof (fd_consumed _ _ _ _ Hf) as Hc1.
  destruct (IH (acc ++ lp) d1 Hs) as (acc' & d' & E2 & Hsc' & Hc2 & Hin); [|done|].
  { intros _. pose proof (consumed_length _ _ _ Hc1). lia. }
  exists acc', d'. split_and!.
  - unfold search_all in *. cbn [foldR fst snd]. rewrite E1. cbn [rbind]. exact E2.
  - done.
  - eapply consumed_trans; [exact Hc1|exact Hc2|]. intros x Hx. apply Hin. set_solver.
  - intros x Hx. pose proof (fd_self _ _ _ _ Hf). apply Hin. set_solver.
Qed.

Lemma search_spec {E} fuel : forall i (d : EDag), (length (raw_edges d) < fuel)%nat ->
  exists l d', search (E := E) fuel i d = Some (Ok (l, d')) /\ found i d l d'.
Proof.
  induction fuel as [|fuel IH]; intros i d Hlen; [lia|]. cbn [search].
  destruct (memory_step (E := E) e_target e_source d i (parents d i) (parents_perm _ _ _ _)) as (lp & rm & Ep & Hps & Hrm & Hall & Hne & _).
  unfold get_parents at 1. rewrite Ep. cbn [mbind res_bind rbind]. set (d1 := remove_edges d lp) in *.
  assert (consumed d d1 ([i] ++ lp.*2)) as Hc1.
  { split; [apply raw_nodes_remove|]. exists rm. split; [done|]. apply Forall_forall. intros e He.
    destruct (proj1 (Forall_forall _ _) Hall e He) as [Hm Ht]. split; [done|]. split; [|rewrite Ht; by left].
    right. apply Hps. exists e. split_and!; try done. rewrite Hrm. apply elem_of_app. by left. }
  destruct (search_all_spec (search (E := E) fuel) fuel i d lp.*2 [i] d1) as (acc1 & d2 & E1 & Hsc1 & Hc2 & Hin1).
  { exact IH. }
  { intros Hl. assert (lp <> []) as Hl' by (by intros ->). specialize (Hne Hl'). rewrite Hrm, length_app in Hlen. destruct rm; [done|]. simpl in *. lia. }
  { split; [by left|done| |].
    - intros e He Hm [[Hs Hn]|[Hs Hn]]; apply list_elem_of_singleton in Hs; done.
    - intros x [->%list_elem_of_singleton|Hx]%elem_of_app; [done|]. apply Hps in Hx as (e & He & Hm & Ht & Hs). apply rtc_once. exists e. auto. }
  rewrite E1. cbn [rbind]. pose proof (sc_consumed _ _ _ _ _ Hsc1) as Hd2. rewrite app_nil_r in Hd2.
  destruct (memory_step (E := E) e_source e_target d2 i (children d2 i) (children_perm _ _ _ _)) as (lc & rm' & Ec & Hcs & Hrm' & Hall' & Hne' & _).
  unfold get_children at 1. rewrite Ec. cbn [mbind res_bind rbind]. set (d3 := remove_edges d2 lc) in *.
  assert (consumed d2 d3 (acc1 ++ lc.*2)) as Hc3.
  { split; [apply raw_nodes_remove|]. exists rm'. split; [done|]. apply Forall_forall. intros e He.
    destruct (proj1 (Forall_forall _ _) Hall' e He) as [Hm Ht]. split; [done|]. split; apply elem_of_app; [left; rewrite Ht; apply Hsc1|right].
    apply Hcs. exists e. split_and!; try done. rewrite Hrm'. apply elem_of_app. by left. }
  destruct (search_all_spec (search (E := E) fuel) fuel i d lc.*2 acc1 d3) as (l & d' & E2 & Hsc & _ & Hin).
  { exact IH. }
  { intros Hl. assert (lc <> []) as Hl' by (by intros ->). specialize (Hne' Hl'). pose proof (consumed_length _ _ _ Hd2).
    rewrite Hrm', length_app in *. destruct rm'; [done|]. simpl in *. lia. }
  { split; [apply Hsc1| | |].
    - eapply consumed_trans; [exact Hd2|exact Hc3|]. intros x Hx. apply elem_of_app. by left.
    - intros e He Hm Hend. destruct (sc_closed _ _ _ _ _ Hsc1 e He Hm Hend) as [H1 H2]. rewrite app_nil_r in H1, H2. split; apply elem_of_app; by left.
    - intros x [Hx|Hx]%elem_of_app; [apply (sc_reach _ _ _ _ _ Hsc1); by rewrite app_nil_r|].
      apply Hcs in Hx as (e & He & Hm & Hs & Ht). apply rtc_once. exists e. split; [|auto]. by apply (consumed_sub _ _ _ _ Hd2). }
  exists l, d'. split; [done|]. destruct Hsc as [Hi Hc Hcl Hr]. rewrite app_nil_r in *. split; [done|done| |done].
  intros e He Hm Hend. destruct (decide (e_source e = i)) as [Hs|Hs].
  - destruct (consumed_elem _ _ _ _ Hd2 He Hm) as [Hd|[H1 H2]]; [|split; apply Hin, elem_of_app; by left].
    split; [by rewrite Hs|]. apply Hin, elem_of_app. right. apply Hcs. eauto 10.
  - destruct (decide (e_target e = i)) as [Ht|Ht]; [|apply Hcl; [done|done|naive_solver]].
    split; [|by rewrite Ht]. apply Hin, elem_of_app. left. apply Hin1, elem_of_app. right. apply Hps. eauto 10.
Qed.

(** A search gives the tasks connected in memory, and it ends. *)
Lemma found_component i d l d' x : found i d l d' -> x ∈ l <-> rtc (memory_adj (raw_edges d)) i x.
Proof.
  intros [Hi _ Hcl Hr]. split; [apply Hr|]. revert x. apply rtc_ind_r; [done|]. intros y z _ (e & He & Hm & H) Hy.
  destruct (Hcl e He Hm) as [H1 H2]; destruct H as [[<- <-]|[<- <-]]; auto.
Qed.

(** ** Searches that find every task once

    Where no task has two memory edges into it or out of it, the edges of a node are
    removed with the indices they have, and the search runs up and then down a path. *)
Definition mem_degree (f : Edge ExecutionEdge -> NodeIndex) (i : NodeIndex) (es : list (Edge ExecutionEdge)) : nat :=
  length (filter (fun e => is_memory e /\ f e = i) es).

Definition linear (d : EDag) : Prop :=
  forall i, (mem_degree e_source i (raw_edges d) <= 1)%nat /\ (mem_degree e_target i (raw_edges d) <= 1)%nat.

Lemma mem_degree_split f i es rm es' : es ≡ₚ rm ++ es' -> mem_degree f i es = (mem_degree f i rm + mem_degree f i es')%nat.
Proof. intros Hp. unfold mem_degree. rewrite Hp, filter_app, length_app. done. Qed.

Lemma linear_consumed d d' l : linear d -> consumed d d' l -> linear d'.
Proof.
  intros Hd [_ (rm & Hp & _)] i. destruct (Hd i) as [H1 H2].
  rewrite (mem_degree_split _ _ _ _ _ Hp) in H1. rewrite (mem_degree_split _ _ _ _ _ Hp) in H2. lia.
Qed.

Lemma mem_degree_consumed f i d d' l : consumed d d' l -> (mem_degree f i (raw_edges d') <= mem_degree f i (raw_edges d))%nat.
Proof. intros [_ (rm & Hp & _)]. rewrite (mem_degree_split _ _ _ _ _ Hp). lia. Qed.

Lemma mem_degree_pos f e es : e ∈ es -> is_memory e -> (1 <= mem_degree f (f e) es)%nat.
Proof.
  intros He Hm. unfold mem_degree. assert (e ∈ filter (fun e' => is_memory e' /\ f e' = f e) es) as Hin by (apply list_elem_of_filter; done).
  destruct (filter _ es); [by apply elem_of_nil in Hin|]. simpl. lia.
Qed.

(** One direction at a node of a linear graph: nothing to do, or one edge, which is
    removed; nothing is left at the two ends. *)
Lemma linear_step {E} f h (d : EDag) i l : l ≡ₚ (fun p => (p.1, h p.2)) <$> incident f i (raw_edges d) ->
  (mem_degree f i (raw_edges d) <= 1)%nat -> (forall j, mem_degree h j (raw_edges d) <= 1)%nat ->
  exists l', memory_edges (E := E) d l = Ok l' /\
    ((l' = [] /\ mem_degree f i (raw_edges d) = 0%nat) \/
     exists k q e, l' = [(k, q)] /\ e ∈ raw_edges d /\ is_memory e /\ f e = i /\ h e = q /\
       mem_degree h q (raw_edges (remove_edges d l')) = 0%nat /\
       raw_nodes (remove_edges d l') = raw_nodes d /\ raw_edges d ≡ₚ e :: raw_edges (remove_edges d l')).
Proof.
  intros Hl Hi Hh. destruct (memory_step (E := E) f h d i l Hl) as (l' & rm & -> & _ & Hrm & Hall & Hne & Hperm).
  exists l'. split; [done|]. assert (length l' = mem_degree f i (raw_edges d)) as Hlen.
  { unfold mem_degree. rewrite <- (length_fmap snd), Hperm, length_fmap. done. }
  destruct l' as [|[k q] [|]]; [left; done| |simpl in Hlen; lia]. right. exists k, q.
  specialize (Hne ltac:(done)). destruct rm as [|e rm]; [done|]. apply Forall_cons in Hall as [[Hm Hf] Hall].
  assert (rm = []) as ->.
  { destruct rm as [|e' rm]; [done|]. apply Forall_cons in Hall as [[Hm' Hf'] _]. unfold mem_degree in Hi. rewrite Hrm, filter_app in Hi.
    rewrite !filter_cons_True in Hi by done. simpl in Hi. lia. }
  assert (e ∈ raw_edges d) as He by (rewrite Hrm; by left).
  assert (h e = q) as Hq.
  { assert (h e ∈ h <$> filter (fun e => is_memory e /\ f e = i) (raw_edges d)) as Hin.
    { apply list_elem_of_fmap_2, list_elem_of_filter. done. }
    rewrite <- Hperm in Hin. simpl in Hin. by apply list_elem_of_singleton in Hin. }
  exists e. split_and!; try done; [|apply raw_nodes_remove].
  specialize (Hh q). rewrite (mem_degree_split _ _ _ _ _ Hrm) in Hh. pose proof (mem_degree_pos h e [e] ltac:(by left) Hm) as Hp. rewrite Hq in Hp. lia.
Qed.

Section ranked.
Context (rank : NodeIndex -> nat).

Definition ranked (d : EDag) : Prop := Forall (fun e => rank (e_source e) < rank (e_target e))%nat (raw_edges d).

Lemma ranked_consumed d d' l : ranked d -> consumed d d' l -> ranked d'.
Proof. intros Hd [_ (rm & Hp & _)]. unfold ranked in *. rewrite Hp in Hd. by apply Forall_app in Hd as [_ Hd]. Qed.

Lemma edge_consumed (d d' : EDag) e : raw_nodes d' = raw_nodes d -> raw_edges d ≡ₚ e :: raw_edges d' -> is_memory e -> consumed d d' [e_source e; e_target e].
Proof. intros Hn Hp Hm. split; [done|]. exists [e]. split; [done|]. constructor; [|done]. split; [done|]. split; set_solver. Qed.

(** Up from a node with no child left: the search goes along the parents. *)
Lemma search_up {E} fuel : forall i (d : EDag), (length (raw_edges d) < fuel)%nat -> linear d -> ranked d ->
  mem_degree e_source i (raw_edges d) = 0%nat ->
  exists l d', search (E := E) fuel i d = Some (Ok (i :: l, d')) /\ NoDup l /\ Forall (fun x => rank x < rank i)%nat l.
Proof.
  induction fuel as [|fuel IH]; intros i d Hlen Hlin Hrk Hdeg; [lia|]. cbn [search].
  assert (forall d' l, consumed d d' l -> get_children (E := E) i d' = Ok ([], d')) as Hnone.
  { intros d' l Hc. unfold get_children. pose proof (mem_degree_consumed e_source i _ _ _ Hc).
    destruct (linear_step (E := E) e_source e_target d' i (children d' i)) as (l' & -> & [[-> _]|(k & q & e & -> & He & Hm & <- & _)]);
      [apply children_perm|lia|apply (linear_consumed _ _ _ Hlin Hc)|done|]. pose proof (mem_degree_pos e_source e _ He Hm). lia. }
  destruct (linear_step (E := E) e_target e_source d i (parents d i)) as (l' & Ep & Hcase); [apply parents_perm|apply Hlin|apply Hlin|].
  unfold get_parents at 1. rewrite Ep. cbn [mbind res_bind rbind].
  destruct Hcase as [[-> _]|(k & q & e & -> & He & Hm & Ht & Hs & H0 & Hn & Hp)].
  - unfold search_all at 1. cbn [fmap list_fmap foldR rbind]. change (remove_edges d []) with d.
    rewrite (Hnone d [] (consumed_refl _ _)). cbn [rbind]. exists [], d. split_and!; [done|constructor|constructor].
  - set (d1 := remove_edges d _) in *. pose proof (edge_consumed d d1 e Hn Hp Hm) as Hc1.
    assert (rank q < rank i)%nat as Hqi by (rewrite <- Hs, <- Ht; by apply (proj1 (Forall_forall _ _) Hrk)).
    assert (length (raw_edges d1) < fuel)%nat as Hl1 by (rewrite Hp in Hlen; simpl in Hlen; lia).
    destruct (IH q d1) as (l & d2 & E2 & Hnd & Hall); [done|by eapply linear_consumed|by eapply ranked_consumed|done|].
    destruct (search_spec (E := E) fuel q d1 Hl1) as (l0 & d0 & E0 & Hf). rewrite E2 in E0. injection E0 as <- <-.
    unfold search_all at 1. cbn [fmap list_fmap foldR snd fst]. rewrite E2. cbn [rbind app].
    assert (consumed d d2 (i :: q :: l)) as Hc2.
    { eapply consumed_trans; [exact Hc1|eapply consumed_trans; [exact (fd_consumed _ _ _ _ Hf)|apply consumed_refl|]|]; set_solver. }
    rewrite (Hnone d2 _ Hc2). cbn [rbind]. exists (q :: l), d2. split_and!; [done| |].
    + constructor; [|done]. intros Hin. pose proof (proj1 (Forall_forall _ _) Hall _ Hin) as Hlt. simpl in Hlt. lia.
    + constructor; [done|]. eapply Forall_impl; [exact Hall|]. intros x Hx. simpl in Hx. lia.
Qed.

(** Down from a node with no parent left. *)
Lemma search_down {E} fuel : forall i (d : EDag), (length (raw_edges d) < fuel)%nat -> linear d -> ranked d ->
  mem_degree e_target i (raw_edges d) = 0%nat ->
  exists l d', search (E := E) fuel i d = Some (Ok (i :: l, d')) /\ NoDup l /\ Forall (fun x => rank i < rank x)%nat l.
Proof.
  induction fuel as [|fuel IH]; intros i d Hlen Hlin Hrk Hdeg; [lia|]. cbn [search].
  destruct (linear_step (E := E) e_target e_source d i (parents d i)) as (l' & Ep & Hcase); [apply parents_perm|apply Hlin|apply Hlin|].
  unfold get_parents at 1. rewrite Ep. cbn [mbind res_bind rbind].
  destruct Hcase as [[-> _]|(k & q & e & -> & He & Hm & <- & _)]; [|pose proof (mem_degree_pos e_target e _ He Hm); lia].
  unfold search_all at 1. cbn [fmap list_fmap foldR rbind]. change (remove_edges d []) with d. clear Ep.
  destruct (linear_step (E := E) e_source e_target d i (children d i)) as (l' & Ec & Hcase); [apply children_perm|apply Hlin|apply Hlin|].
  unfold get_children at 1. rewrite Ec. cbn [mbind res_bind rbind].
  destruct Hcase as [[-> _]|(k & q & e & -> & He & Hm & Hs & Ht & H0 & Hn & Hp)].
  - exists [], (remove_edges d []). split_and!; [done|constructor|constructor].
  - set (d1 := remove_edges d _) in *. pose proof (edge_consumed d d1 e Hn Hp Hm) as Hc1.
    assert (rank i < rank q)%nat as Hqi by (rewrite <- Hs, <- Ht; by apply (proj1 (Forall_forall _ _) Hrk)).
    assert (length (raw_edges d1) < fuel)%nat as Hl1 by (rewrite Hp in Hlen; simpl in Hlen; lia).
    destruct (IH q d1) as (l & d2 & E2 & Hnd & Hall); [done|by eapply linear_consumed|by eapply ranked_consumed|done|].
    unfold search_all. cbn [fmap list_fmap foldR snd fst]. rewrite E2. cbn [rbind app]. exists (q :: l), d2. split_and!; [done| |].
    + constructor; [|done]. intros Hin. pose proof (proj1 (Forall_forall _ _) Hall _ Hin) as Hlt. simpl in Hlt. lia.
    + constructor; [done|]. eapply Forall_impl; [exact Hall|]. intros x Hx. simpl in Hx. lia.
Qed.

Lemma search_once {E} fuel i (d : EDag) : (length (raw_edges d) < fuel)%nat -> linear d -> ranked d ->
  exists l d', search (E := E) fuel i d = Some (Ok (l, d')) /\ NoDup l.
Proof.
  destruct fuel as [|fuel]; intros Hlen Hlin Hrk; [lia|]. cbn [search].
  destruct (linear_step (E := E) e_target e_source d i (parents d i)) as (lp & Ep & Hcase); [apply parents_perm|apply Hlin|apply Hlin|].
  unfold get_parents at 1. rewrite Ep. cbn [mbind res_bind rbind].
  assert (exists up d2 l0, search_all (search (E := E) fuel) ([i], remove_edges d lp) lp.*2 = Some (Ok (i :: up, d2)) /\ NoDup up /\
    Forall (fun x => rank x < rank i)%nat up /\ consumed d d2 l0) as (up & d2 & l0 & -> & Hup & Hlt & Hc2).
  { destruct Hcase as [[-> _]|(k & q & e & -> & He & Hm & Ht & Hs & H0 & Hn & Hp)].
    - exists [], d, []. split_and!; [done|constructor|constructor|apply consumed_refl].
    - set (d1 := remove_edges d _) in *. pose proof (edge_consumed d d1 e Hn Hp Hm) as Hc1.
      assert (rank q < rank i)%nat as Hqi by (rewrite <- Hs, <- Ht; by apply (proj1 (Forall_forall _ _) Hrk)).
      assert (length (raw_edges d1) < fuel)%nat as Hl1 by (rewrite Hp in Hlen; simpl in Hlen; lia).
      destruct (search_up (E := E) fuel q d1) as (l & d2 & E2 & Hnd & Hall); [done|by eapply linear_consumed|by eapply ranked_consumed|done|].
      destruct (search_spec (E := E) fuel q d1 Hl1) as (l0 & d0 & E0 & Hf). rewrite E2 in E0. injection E0 as <- <-.
      exists (q :: l), d2, (i :: q :: l). unfold search_all. cbn [fmap list_fmap foldR snd fst]. rewrite E2. split_and!; [done| | |].
      + constructor; [|done]. intros Hin. pose proof (proj1 (Forall_forall _ _) Hall _ Hin) as Hl. simpl in Hl. lia.
      + constructor; [done|]. eapply Forall_impl; [exact Hall|]. intros x Hx. simpl in Hx. lia.
      + eapply consumed_trans; [exact Hc1|eapply consumed_trans; [exact (fd_consumed _ _ _ _ Hf)|apply consumed_refl|]|]; set_solver. }
  cbn [rbind]. pose proof (linear_consumed _ _ _ Hlin Hc2) as Hlin2. pose proof (consumed_length _ _ _ Hc2) as Hl2.
  destruct (linear_step (E := E) e_source e_target d2 i (children d2 i)) as (lc & Ec & Hcase'); [apply children_perm|apply Hlin2|apply Hlin2|].
  unfold get_children at 1. rewrite Ec. cbn [mbind res_bind rbind].
  destruct Hcase' as [[-> _]|(k & q & e & -> & He & Hm & Hs & Ht & H0 & Hn & Hp)].
  - eexists _, _. split; [done|]. constructor; [|done]. intros Hin. pose proof (proj1 (Forall_forall _ _) Hlt _ Hin) as Hl. simpl in Hl. lia.
  - set (d3 := remove_edges d2 _) in *. pose proof (edge_consumed d2 d3 e Hn Hp Hm) as Hc3.
    assert (rank i < rank q)%nat as Hqi by (rewrite <- Hs, <- Ht; by apply (proj1 (Forall_forall _ _) (ranked_consumed _ _ _ Hrk Hc2))).
    assert (length (raw_edges d3) < fuel)%nat as Hl3 by (rewrite Hp in Hl2; simpl in Hl2; lia).
    destruct (search_down (E := E) fuel q d3) as (l & d4 & E4 & Hnd & Hall);
      [done|by eapply linear_consumed|eapply ranked_consumed; [|exact Hc3]; by eapply ranked_consumed|done|].
    unfold search_all. cbn [fmap list_fmap foldR snd fst]. rewrite E4. cbn [rbind]. eexists _, _. split; [done|].
    rewrite Forall_forall in Hlt, Hall. change ((i :: up) ++ q :: l) with (i :: (up ++ q :: l)). constructor.
    + rewrite elem_of_app, elem_of_cons. intros [Hin|[->|Hin]]; [specialize (Hlt _ Hin)|lia|specialize (Hall _ Hin)]; lia.
    + apply NoDup_app. split_and!; [done| |].
      * intros x Hx. rewrite elem_of_cons. intros [->|Hin]; specialize (Hlt _ Hx); [lia|]. specialize (Hall _ Hin). lia.
      * constructor; [|done]. intros Hin. specialize (Hall _ Hin). lia.
Qed.
End ranked.

(** ** The chains *)
Lemma memory_adj_sym es x y : memory_adj es x y -> memory_adj es y x.
Proof. intros (e & He & Hm & H). exists e. split_and!; [done|done|tauto]. Qed.

Lemma memory_connected_sym es x y : rtc (memory_adj es) x y -> rtc (memory_adj es) y x.
Proof. induction 1 as [|a b c Hab _ IH]; [done|]. etrans; [exact IH|]. by apply rtc_once, memory_adj_sym. Qed.

Lemma elem_of_edge_sets es i :
  (i ∈ (edge_sets es).1 <-> exists e, e ∈ es /\ (i = e_source e \/ i = e_target e)) /\
  (i ∈ (edge_sets es).2 <-> exists e, e ∈ es /\ is_memory e /\ (i = e_source e \/ i = e_target e)).
Proof.
  unfold edge_sets. induction es as [|e es [IH1 IH2]] using rev_ind; [simpl; split; set_solver|]. rewrite foldl_app. cbn [foldl fst snd].
  split.
  - rewrite !elem_of_union, IH1. setoid_rewrite elem_of_app. set_solver.
  - setoid_rewrite elem_of_app. setoid_rewrite list_elem_of_singleton. destruct (e_weight e) eqn:Ew.
    + rewrite !elem_of_union, !elem_of_singleton, IH2. split.
      * intros [->|[->|(e' & He & H)]]; [exists e; auto..|]. exists e'. auto.
      * intros (e' & [He| ->] & Hm & [->| ->]); auto; right; right; exists e'; auto.
    + rewrite IH2. split.
      * intros (e' & He & H). exists e'. auto.
      * intros (e' & [He| ->] & Hm & H); [exists e'; auto|]. unfold is_memory in Hm. congruence.
Qed.

(** The tasks of a chain are those of these nodes. *)
Definition chain_of (d : EDag) (l : list NodeIndex) (c : ForwardTaskChain) : Prop :=
  Forall2 (fun i n => raw_nodes d !! i = Some n) l (tasks c).

Lemma execution_nodes_ok {E} (d : EDag) l : Forall (fun i => i < length (raw_nodes d))%nat l ->
  exists ns, execution_nodes (E := E) d l = Ok ns /\ Forall2 (fun i n => raw_nodes d !! i = Some n) l ns.
Proof.
  unfold execution_nodes. induction l as [|i l IH] using rev_ind; intros Hl; [by exists []|]. apply Forall_app in Hl as [Hl [Hi _]%Forall_cons].
  destruct (IH Hl) as (ns & E1 & Hns). destruct (lookup_lt_is_Some_2 _ _ Hi) as [n Hn]. exists (ns ++ [n]).
  rewrite foldM_app, E1. cbn [mbind res_bind foldM]. unfold dag_index. rewrite Hn. cbn [unwrap mbind res_bind]. split; [done|].
  apply Forall2_app; [done|]. by constructor.
Qed.

(** A list of nodes that holds exactly what is connected to any of its members. *)
Definition component (d : EDag) (l : list NodeIndex) : Prop :=
  l <> [] /\ forall x y, x ∈ l -> y ∈ l <-> rtc (memory_adj (raw_edges d)) x y.

Definition edges_in_range (d : EDag) : Prop :=
  Forall (fun e => e_source e < length (raw_nodes d) /\ e_target e < length (raw_nodes d))%nat (raw_edges d).

Lemma found_is_component i d l d' : found i d l d' -> component d l.
Proof.
  intros Hf. split; [intros ->; by apply fd_self, elem_of_nil in Hf|]. intros x y Hx. pose proof (found_component i d l d') as Hc.
  rewrite (Hc x Hf) in Hx. rewrite (Hc y Hf). split; intros H.
  - etrans; [by apply memory_connected_sym|done].
  - by etrans.
Qed.

Lemma forward_loop_spec {E} sfuel (d : EDag) : (length (raw_edges d) < sfuel)%nat -> forall fuel (X : gset NodeIndex),
  (size X < fuel)%nat -> (forall x, x ∈ X -> x < length (raw_nodes d))%nat ->
  (forall x y, x ∈ X -> memory_adj (raw_edges d) x y -> y ∈ X) ->
  exists cs ls, forward_loop (E := E) fuel sfuel d X = Some (Ok cs) /\ Forall2 (chain_of d) ls cs /\ Forall (component d) ls /\
    concat (remove_dups <$> ls) ≡ₚ elements X /\ (forall rank, linear d -> ranked rank d -> Forall NoDup ls).
Proof.
  intros Hs. induction fuel as [|fuel IH]; intros X Hsize Hlt Hcl; [lia|]. cbn [forward_loop].
  destruct (hash_order (elements X)) as [|i rest] eqn:Eo; simpl.
  { exists [], []. split_and!; [done..| |done]. pose proof (hash_order_perm _ (elements X)) as Hp. rewrite Eo in Hp. by rewrite <- Hp. }
  assert (i ∈ X) as Hi by (rewrite <- elem_of_elements, <- (hash_order_perm _ (elements X)), Eo; by left).
  destruct (search_spec (E := E) sfuel i d Hs) as (l & d' & Es & Hf). rewrite Es. cbn [rbind].
  assert (forall x, x ∈ l -> x ∈ X) as Hsub.
  { intros x Hx. apply (found_component i d l d' x Hf) in Hx. clear -Hx Hi Hcl. induction Hx as [|x y z Hxy _ IH]; [done|]. apply IH. by eapply Hcl. }
  destruct (execution_nodes_ok (E := E) d l) as (ns & -> & Hns); [apply Forall_forall; intros x Hx; by apply Hlt, Hsub|]. cbn [rbind].
  destruct (IH (X ∖ list_to_set l)) as (cs & ls & -> & H1 & H2 & H3 & H4).
  - assert (size (X ∖ list_to_set l) < size X)%nat; [|lia]. apply subset_size. pose proof (fd_self _ _ _ _ Hf). set_solver.
  - set_solver.
  - intros x y Hx Hxy. apply elem_of_difference in Hx as [Hx Hn]. apply elem_of_difference. split; [by eapply Hcl|].
    rewrite elem_of_list_to_set in Hn |- *. intros Hy. apply Hn. destruct (found_is_component _ _ _ _ Hf) as [_ Hc].
    apply (Hc y x Hy). apply rtc_once. by apply memory_adj_sym.
  - exists (mkChain ns :: cs), (l :: ls). split_and!; [done|by constructor| | |].
    + constructor; [|done]. by eapply found_is_component.
    + rewrite fmap_cons. cbn [concat]. rewrite H3. apply NoDup_Permutation; [|apply NoDup_elements|].
      * apply NoDup_app. split_and!; [apply NoDup_remove_dups| |apply NoDup_elements]. intros x. rewrite elem_of_remove_dups, elem_of_elements. set_solver.
      * intros x. rewrite elem_of_app, elem_of_remove_dups, !elem_of_elements, elem_of_difference, elem_of_list_to_set.
        destruct (decide (x ∈ l)); set_solver.
    + intros rank Hlin Hrk. constructor; [|by eapply H4]. destruct (search_once rank (E := E) sfuel i d Hs Hlin Hrk) as (l0 & d0 & E0 & Hnd).
      rewrite Es in E0. by injection E0 as <- <-.
Qed.

(** The tasks that get a chain: those with an edge, or all where there is none. *)
Definition deployed (d : EDag) : list NodeIndex :=
  match raw_edges d with
  | [] => seq 0 (length (raw_nodes d))
  | es => elements (edge_sets es).1
  end.

Lemma singletons_dedup (l : list NodeIndex) : concat (remove_dups <$> ((fun i => [i]) <$> l)) = l.
Proof. induction l as [|i l IH]; [done|]. rewrite !fmap_cons. cbn [concat]. rewrite IH. done. Qed.

Lemma singletons_NoDup (l : list NodeIndex) : Forall NoDup ((fun i => [i]) <$> l).
Proof. apply Forall_fmap, Forall_true. intros i. apply NoDup_singleton. Qed.

Lemma lonely_component (d : EDag) i : (forall e, e ∈ raw_edges d -> is_memory e -> i <> e_source e /\ i <> e_target e) -> component d [i].
Proof.
  intros Hi. split; [done|]. intros x y ->%list_elem_of_singleton. rewrite list_elem_of_singleton. split; [by intros ->|].
  intros H. inv H as [|? z ? (e & He & Hm & H') _]; [done|]. destruct (Hi e He Hm). naive_solver.
Qed.

Lemma lonely_chains (d : EDag) l : (forall i, i ∈ l -> component d [i]) -> Forall (fun i => i < length (raw_nodes d))%nat l ->
  forall ns, Forall2 (fun i n => raw_nodes d !! i = Some n) l ns ->
  Forall2 (chain_of d) ((fun i => [i]) <$> l) ((fun n => mkChain [n]) <$> ns) /\ Forall (component d) ((fun i => [i]) <$> l).
Proof.
  intros Hl _ ns Hns. split.
  - apply Forall2_fmap. eapply Forall2_impl; [exact Hns|]. intros i n Hn. by constructor.
  - apply Forall_fmap, Forall_forall. intros i Hi. by apply Hl.
Qed.

Lemma merge_forward_task_spec {E} (d : EDag) : edges_in_range d ->
  exists cs ls, merge_forward_task (E := E) d = Some (Ok cs) /\ Forall2 (chain_of d) ls cs /\ Forall (component d) ls /\
    concat (remove_dups <$> ls) ≡ₚ deployed d /\ (forall rank, linear d -> ranked rank d -> Forall NoDup ls).
Proof.
  intros Hr. unfold merge_forward_task, deployed. destruct (raw_edges d) as [|e0 es0] eqn:Ees.
  - destruct (lonely_chains d (seq 0 (length (raw_nodes d)))) with (ns := raw_nodes d) as [H1 H2].
    + intros i _. apply lonely_component. rewrite Ees. set_solver.
    + apply Forall_forall. intros i [_ Hi]%elem_of_seq. done.
    + pose proof (Forall2_lookup_seq [] (raw_nodes d)) as H. exact H.
    + eexists _, _. split_and!; [done|exact H1|exact H2|by rewrite singletons_dedup|]. intros _ _ _. apply singletons_NoDup.
  - rewrite <- Ees. pose proof (elem_of_edge_sets (raw_edges d)) as Hset. destruct (edge_sets (raw_edges d)) as [X Y]. cbn [fst snd] in Hset |- *.
    assert (forall i, i ∈ X -> i < length (raw_nodes d))%nat as HX.
    { intros i Hi. apply Hset in Hi as (e & He & Hend). pose proof (proj1 (Forall_forall _ _) Hr e He) as [? ?]. destruct Hend as [->| ->]; done. }
    assert (Y ⊆ X) as HYX by (intros i Hi; apply Hset in Hi as (e & He & _ & Hend); apply Hset; eauto).
    set (hs := filter (fun i => i ∉ Y) (hash_order (elements X))).
    assert (forall i, i ∈ hs <-> i ∉ Y /\ i ∈ X) as Hhs by (intros i; unfold hs; by rewrite list_elem_of_filter, hash_order_perm, elem_of_elements).
    assert (Forall (fun i => i < length (raw_nodes d))%nat hs) as Hhl by (apply Forall_forall; intros i [_ Hi]%Hhs; by apply HX).
    destruct (execution_nodes_ok (E := E) d hs Hhl) as (ns & -> & Hns). cbn [rbind].
    destruct (forward_loop_spec (E := E) (S (length (raw_edges d))) d ltac:(lia) (S (size Y)) Y ltac:(lia)) as (cs & ls & -> & H1 & H2 & H3 & H6).
    { intros i Hi. apply HX, HYX, Hi. }
    { intros x y _ (e & He & Hm & H). apply Hset. exists e. split_and!; [done|done|]. destruct H as [[_ <-]|[<- _]]; auto. }
    cbn [rbind]. destruct (lonely_chains d hs) with (ns := ns) as [H4 H5]; [|done|done|].
    { intros i [Hi _]%Hhs. apply lonely_component. intros e He Hm. split; intros ->; apply Hi, Hset; eauto. }
    exists (cs ++ ((fun n => mkChain [n]) <$> ns)), (ls ++ ((fun i => [i]) <$> hs)). split_and!; [done|by apply Forall2_app|by apply Forall_app| |
      intros rank Hlin Hrk; apply Forall_app; split; [by eapply H6|apply singletons_NoDup]].
    rewrite fmap_app, concat_app, H3, singletons_dedup. apply NoDup_Permutation; [|apply NoDup_elements|].
    + apply NoDup_app. split_and!; [apply NoDup_elements| |].
      * intros x Hx%elem_of_elements [Hn _]%Hhs. done.
      * unfold hs. apply NoDup_filter. rewrite hash_order_perm. apply NoDup_elements.
    + intros x. rewrite elem_of_app, !elem_of_elements, Hhs. destruct (decide (x ∈ Y)); set_solver.
Qed.

(** ** Groups of chains *)
Definition chain_key (c : ForwardTaskChain) : JobId :=
  match tasks c with [] => 0 | x :: l => job_id (en_task_id (min_by_key (fun n => job_id (en_task_id n)) x l)) end.

Lemma add_chains_ok {E} cs : Forall (fun c => tasks c <> []) cs ->
  foldM (E := E) add_chain PhysicGraph_new cs = Ok (mkPhysicGraph (group_by chain_key cs)).
Proof.
  induction cs as [|c cs IH] using rev_ind; intros Hcs; [done|]. apply Forall_app in Hcs as [Hcs [Hc _]%Forall_cons].
  assert (exists t, chain_task_id (E := E) c = Ok t /\ job_id t = chain_key c) as (t & Et & Ek).
  { unfold chain_task_id, chain_key. destruct (tasks c) as [|x l]; [done|]. eauto. }
  rewrite foldM_app, IH by done. cbn [mbind res_bind foldM]. unfold add_chain. rewrite Et. cbn [mbind res_bind task_groups]. rewrite Ek.
  unfold group_by at 3. by rewrite foldl_app.
Qed.

Lemma group_by_values {A} (key : A -> Z) (l : list A) : concat (hiter (group_by key l)).*2 ≡ₚ l.
Proof.
  unfold hiter. rewrite hash_order_perm. unfold group_by. induction l as [|x l IH] using rev_ind; [done|]. rewrite foldl_app. cbn [foldl].
  set (m := foldl _ ∅ l) in *. rewrite <- insert_delete_eq, map_to_list_insert by apply lookup_delete_eq. rewrite fmap_cons. cbn [concat snd].
  rewrite <- IH. destruct (m !! key x) as [v|] eqn:Ev; simpl.
  - rewrite <- (map_to_list_delete m (key x) v Ev). rewrite fmap_cons. cbn [concat snd]. rewrite <- !app_assoc. apply Permutation_app_head, Permutation_app_comm.
  - rewrite delete_id by done. apply Permutation_cons_append.
Qed.

(** ** Dealing out the chains *)

(** What the k-th of n workers gets. *)
Definition dealt {A} (n k : nat) (l : list A) : list A := (filter (fun p => (p.1 mod n)%nat = k) (imap pair l)).*2.

Lemma dealt_snoc {A} n k (l : list A) x : dealt n k (l ++ [x]) = dealt n k l ++ (if decide ((length l mod n)%nat = k) then [x] else []).
Proof.
  unfold dealt. rewrite imap_app, filter_app, fmap_app. f_equal. simpl. rewrite Nat.add_0_r, filter_cons, filter_nil. cbn [fst]. by case_decide.
Qed.

Lemma elem_of_dealt {A} n k (l : list A) x : x ∈ dealt n k l <-> exists p, l !! p = Some x /\ (p mod n)%nat = k.
Proof.
  unfold dealt. rewrite list_elem_of_fmap. split.
  - intros ([p y] & -> & [Hp Hin]%list_elem_of_filter). apply elem_of_lookup_imap in Hin as (i & z & Heq & Hi). simplify_eq/=. eauto.
  - intros (p & Hp & Hk). exists (p, x). split; [done|]. apply list_elem_of_filter. split; [done|]. apply elem_of_lookup_imap. eauto.
Qed.

Lemma dealt_perm {A} n (l : list A) : (0 < n)%nat -> concat ((fun k => dealt n k l) <$> seq 0 n) ≡ₚ l.
Proof.
  intros Hn. induction l as [|x l IH] using rev_ind.
  { clear Hn. generalize 0%nat. induction n as [|n IH]; intros s; [done|]. rewrite <- cons_seq, fmap_cons. cbn [concat]. by rewrite IH. }
  assert (forall j m, (j <= length l mod n < j + m)%nat -> concat ((fun k => dealt n k (l ++ [x])) <$> seq j m) ≡ₚ concat ((fun k => dealt n k l) <$> seq j m) ++ [x]) as H.
  { intros j m. revert j. induction m as [|m IHm]; intros j Hj; [lia|]. rewrite <- cons_seq, !fmap_cons. cbn [concat].
    rewrite dealt_snoc. case_decide as He.
    - assert (concat ((fun k => dealt n k (l ++ [x])) <$> seq (S j) m) = concat ((fun k => dealt n k l) <$> seq (S j) m)) as ->.
      { f_equal. apply list_fmap_ext. intros i k [-> _]%lookup_seq. rewrite dealt_snoc, decide_False by lia. apply app_nil_r. }
      rewrite <- !app_assoc. apply Permutation_app_head, Permutation_app_comm.
    - rewrite app_nil_r, IHm by lia. by rewrite app_assoc. }
  rewrite H, IH; [done|]. split; [lia|]. simpl. by apply Nat.mod_upper_bound, Nat.neq_0_lt_0.
Qed.

Definition worker_id (k : nat) : string := "worker_manager_" +:+ pretty k.

Definition chain_instances (c : ForwardTaskChain) : list TaskInstance := task_instance <$> tasks c.

Lemma place_chains {E} n cs : (0 < n)%nat ->
  foldM (E := E) place_chain ((fun k => mkWorkerInstance (worker_id k) []) <$> seq 0 n, 0%nat) cs =
  Ok ((fun k => mkWorkerInstance (worker_id k) (concat (chain_instances <$> dealt n k cs))) <$> seq 0 n, length cs).
Proof.
  intros Hn. induction cs as [|c cs IH] using rev_ind; [done|]. rewrite foldM_app, IH. cbn [mbind res_bind foldM]. unfold place_chain.
  rewrite length_fmap, length_seq, decide_False by lia. pose proof (Nat.mod_upper_bound (length cs) n ltac:(lia)) as Hlt.
  rewrite list_lookup_fmap, lookup_seq_lt by done. cbn [unwrap mbind res_bind fmap option_fmap option_map wi_worker_manager_id wi_task_instances Nat.add].
  do 2 f_equal; [|rewrite length_app; simpl; lia]. apply list_eq. intros k. rewrite list_lookup_fmap.
  destruct (decide (k < n)%nat) as [Hk|Hk].
  - rewrite lookup_seq_lt by done. simpl. rewrite dealt_snoc. destruct (decide ((length cs mod n)%nat = k)) as [He|He].
    + subst k. rewrite list_lookup_insert_eq by (rewrite length_fmap, length_seq; done). f_equal. f_equal. rewrite fmap_app, concat_app. simpl. by rewrite app_nil_r.
    + rewrite list_lookup_insert_ne by done. rewrite list_lookup_fmap, lookup_seq_lt by done. simpl. by rewrite app_nil_r.
  - rewrite lookup_seq_ge by lia. simpl. apply lookup_ge_None_2. rewrite length_insert, length_fmap, length_seq. lia.
Qed.

(** ** The allocation *)

(** A place for every task that is deployed, the same for tasks linked in memory;
    each worker has exactly its tasks, and has them once if the graph is linear. *)
Record placement_ok (d : EDag) (capacity : nat) (ws : list WorkerManagerInstance) : Prop := {
  pl_ids : wi_worker_manager_id <$> ws = worker_id <$> seq 0 capacity;
  pl_place : exists place : NodeIndex -> nat,
    (forall i, i ∈ deployed d -> place i < capacity)%nat /\
    (forall i j, memory_adj (raw_edges d) i j -> place i = place j) /\
    (forall k w t, ws !! k = Some w -> t ∈ wi_task_instances w <-> exists i n, i ∈ deployed d /\ raw_nodes d !! i = Some n /\ place i = k /\ t = task_instance n);
  pl_once : forall rank, linear d -> ranked rank d ->
    concat (wi_task_instances <$> ws) ≡ₚ task_instance <$> omap (fun i => raw_nodes d !! i) (deployed d)
}.

Lemma NoDup_concat_lookup {A} (ls : list (list A)) p q l l' x : NoDup (concat ls) -> ls !! p = Some l -> ls !! q = Some l' -> x ∈ l -> x ∈ l' -> p = q.
Proof.
  revert p q. induction ls as [|l0 ls IH]; intros p q Hnd Hp Hq Hx Hx'; [done|]. cbn [concat] in Hnd. apply NoDup_app in Hnd as (_ & Hd & Hnd).
  destruct p as [|p], q as [|q]; simplify_eq/=; [done| | |f_equal; by eapply IH].
  - destruct (Hd x Hx). apply elem_of_concat. exists l'. split; [done|]. by eapply list_elem_of_lookup_2.
  - destruct (Hd x Hx'). apply elem_of_concat. exists l. split; [done|]. by eapply list_elem_of_lookup_2.
Qed.

Section placed.
Context (d : EDag) (capacity : nat) (Hcap : (0 < capacity)%nat).
Context (ls : list (list NodeIndex)) (cs : list ForwardTaskChain) (Hcs : Forall2 (chain_of d) ls cs).
Context (Hcomp : Forall (component d) ls) (Hdep : concat (remove_dups <$> ls) ≡ₚ deployed d).
Context (Honce : forall rank, linear d -> ranked rank d -> Forall NoDup ls).

Definition position (i : NodeIndex) : nat := default 0%nat (fst <$> list_find (fun l => i ∈ l) ls).

Lemma position_unique p l i : ls !! p = Some l -> i ∈ l -> position i = p.
Proof.
  intros Hp Hi. unfold position. destruct (list_find (fun l => i ∈ l) ls) as [[q l']|] eqn:E; simpl.
  - apply list_find_Some in E as (Hq & Hi' & _). assert (NoDup (concat (remove_dups <$> ls))) as Hnd.
    { rewrite Hdep. unfold deployed. destruct (raw_edges d); [apply NoDup_seq|apply NoDup_elements]. }
    eapply (NoDup_concat_lookup _ q p (remove_dups l') (remove_dups l) i Hnd); rewrite ?list_lookup_fmap, ?Hp, ?Hq, ?elem_of_remove_dups; done.
  - apply list_find_None in E. rewrite Forall_forall in E. destruct (E l); [by eapply list_elem_of_lookup_2|done].
Qed.

Lemma elem_of_deployed i : i ∈ deployed d <-> exists p l, ls !! p = Some l /\ i ∈ l.
Proof.
  rewrite <- Hdep, elem_of_concat. split.
  - intros (l & Hi & Hl). apply list_elem_of_fmap in Hl as (l' & -> & Hl'). apply list_elem_of_lookup in Hl' as [p Hp]. exists p, l'.
    by rewrite elem_of_remove_dups in Hi.
  - intros (p & l & Hp & Hi). exists (remove_dups l). rewrite elem_of_remove_dups. split; [done|]. apply list_elem_of_fmap_2. by eapply list_elem_of_lookup_2.
Qed.

Lemma adj_deployed i j : memory_adj (raw_edges d) i j -> i ∈ deployed d.
Proof.
  intros (e & He & _ & Hend). unfold deployed. destruct (raw_edges d) as [|e0 es]; [by apply elem_of_nil in He|].
  apply elem_of_elements, elem_of_edge_sets. exists e. destruct Hend as [[<- _]|[_ <-]]; auto.
Qed.

Lemma chain_tasks_omap : tasks <$> cs = (fun l => omap (fun i => raw_nodes d !! i) l) <$> ls.
Proof.
  pose proof Hcs as H. clear -H. induction H as [|l c ls' cs' Hl _ IH]; [done|]. rewrite !fmap_cons. f_equal; [|done]. clear -Hl. unfold chain_of in Hl.
  induction Hl as [|i n l ns Hn _ IH]; [done|]. cbn [omap list_omap]. rewrite Hn. by f_equal.
Qed.

Lemma placed_ok : placement_ok d capacity
  ((fun k => mkWorkerInstance (worker_id k) (concat (chain_instances <$> dealt capacity k cs))) <$> seq 0 capacity).
Proof.
  split.
  - rewrite <- list_fmap_compose. done.
  - exists (fun i => (position i mod capacity)%nat). split_and!.
    + intros i _. apply Nat.mod_upper_bound. lia.
    + intros i j Hij. f_equal. pose proof (adj_deployed i j Hij) as Hi. apply elem_of_deployed in Hi as (p & l & Hp & Hi).
      rewrite (position_unique p l i Hp Hi). symmetry. apply (position_unique p l j Hp).
      destruct (proj1 (Forall_forall _ _) Hcomp l) as [_ Hc]; [by eapply list_elem_of_lookup_2|]. apply (Hc i j Hi). by apply rtc_once.
    + intros k w t Hw. rewrite list_lookup_fmap in Hw. destruct (seq 0 capacity !! k) as [k'|] eqn:Ek; simplify_eq/=. apply lookup_seq in Ek as [-> Hk]. simpl.
      rewrite elem_of_concat. split.
      * intros (l & Ht & Hl). apply list_elem_of_fmap in Hl as (c & -> & Hc). apply elem_of_dealt in Hc as (p & Hp & Hpk).
        destruct (Forall2_lookup_r _ _ _ _ _ Hcs Hp) as (l & Hl & Hch). apply list_elem_of_fmap in Ht as (n & -> & Hn). apply list_elem_of_lookup in Hn as [j Hj].
        destruct (Forall2_lookup_r _ _ _ _ _ Hch Hj) as (i & Hi & Hin). apply list_elem_of_lookup_2 in Hi. exists i, n. split_and!; [|done| |done].
        -- apply elem_of_deployed. eauto.
        -- by rewrite (position_unique p l i Hl Hi).
      * intros (i & n & Hi & Hn & Hpos & ->). apply elem_of_deployed in Hi as (p & l & Hp & Hi). rewrite (position_unique p l i Hp Hi) in Hpos.
        destruct (Forall2_lookup_l _ _ _ _ _ Hcs Hp) as (c & Hc & Hch). exists (chain_instances c). split.
        -- apply list_elem_of_lookup in Hi as [j Hj]. destruct (Forall2_lookup_l _ _ _ _ _ Hch Hj) as (n' & Hn' & Heq). simplify_eq.
           apply list_elem_of_fmap_2. by eapply list_elem_of_lookup_2.
        -- apply list_elem_of_fmap_2, elem_of_dealt. eauto.
  - intros rank Hlin Hrk. specialize (Honce rank Hlin Hrk). rewrite <- list_fmap_compose. unfold compose. cbn [wi_task_instances].
    rewrite (concat_fmap_concat chain_instances (fun k => dealt capacity k cs)), dealt_perm by done.
    change chain_instances with (fmap (M := list) task_instance ∘ tasks). rewrite list_fmap_compose, <- fmap_concat, chain_tasks_omap.
    apply fmap_Permutation. rewrite <- Hdep. clear -Honce. induction Honce as [|l ls Hl _ IH]; [done|].
    rewrite !fmap_cons. cbn [concat]. rewrite omap_app, IH. apply Permutation_app_tail.
    assert (remove_dups l ≡ₚ l) as ->; [|done]. apply NoDup_Permutation; [apply NoDup_remove_dups|done|]. intros x. apply elem_of_remove_dups.
Qed.
End placed.

Lemma Forall2_perm_r {A B} (R : A -> B -> Prop) l k k' : Forall2 R l k -> k ≡ₚ k' -> exists l', l ≡ₚ l' /\ Forall2 R l' k'.
Proof.
  intros Hl Hp. revert l Hl. induction Hp as [|x k k' _ IH|x y k|k1 k2 k3 _ IH1 _ IH2]; intros l Hl.
  - inv Hl. by exists [].
  - inv Hl as [|a ? l1 ? Ha Hl1]. destruct (IH _ Hl1) as (l' & Hl' & H'). exists (a :: l'). split; [by constructor|by constructor].
  - inv Hl as [|a ? l1 ? Ha Hl1]. inv Hl1 as [|b ? l2 ? Hb Hl2]. exists (b :: a :: l2). split; [apply Permutation_swap|by repeat constructor].
  - destruct (IH1 _ Hl) as (l2 & Hl2 & H2). destruct (IH2 _ H2) as (l3 & Hl3 & H3). exists l3. split; [by etrans|done].
Qed.

Lemma allocation_ok {E E'} (d : EDag) capacity : edges_in_range d -> (0 < capacity)%nat ->
  exists pg ws, physic_graph_build (E := E) d = Some (Ok pg) /\ alloc_by_instance (E := E') capacity pg = Ok ws /\ placement_ok d capacity ws.
Proof.
  intros Hr Hcap. destruct (merge_forward_task_spec (E := E) d Hr) as (cs & ls & Em & Hcs & Hcomp & Hdep & Honce).
  assert (Forall (fun c => tasks c <> []) cs) as Hne.
  { apply Forall_forall. intros c Hc Hnil. apply list_elem_of_lookup in Hc as [p Hp]. destruct (Forall2_lookup_r _ _ _ _ _ Hcs Hp) as (l & Hl & Hch).
    unfold chain_of in Hch. rewrite Hnil in Hch. apply Forall2_nil_inv_r in Hch as ->. destruct (proj1 (Forall_forall _ _) Hcomp []) as [? _]; [by eapply list_elem_of_lookup_2|done]. }
  unfold physic_graph_build. rewrite Em. cbn [rbind]. rewrite (add_chains_ok (E := E) cs Hne).
  exists (mkPhysicGraph (group_by chain_key cs)). unfold alloc_by_instance. cbn [task_groups].
  pose proof (group_by_values chain_key cs) as Hperm. set (cs' := concat (hiter (group_by chain_key cs)).*2) in *.
  destruct (Forall2_perm_r _ _ _ cs' Hcs (symmetry Hperm)) as (ls' & Hls & Hcs').
  change (fun index : nat => mkWorkerInstance ("worker_manager_" +:+ pretty index) []) with (fun k => mkWorkerInstance (worker_id k) []).
  rewrite (place_chains (E := E') capacity cs' Hcap). cbn [mbind res_bind]. eexists. split_and!; [done|done|].
  apply (placed_ok d capacity Hcap ls' cs' Hcs').
  - by rewrite <- Hls.
  - by rewrite <- Hls.
  - intros rank Hlin Hrk. rewrite <- Hls. by eapply Honce.
Qed.

(** ** The tasks of a program *)

(** Two memory edges into a task come from two forward edges into its job. *)
Definition one_forward_parent (jg : JobGraph) : Prop :=
  NoDup (e_target <$> filter (fun e => e_weight e = Forward) (raw_edges (jg_dag jg))).

Lemma same_node (d : EDag) a b na nb : NoDup (en_task_id <$> raw_nodes d) -> raw_nodes d !! a = Some na -> raw_nodes d !! b = Some nb ->
  en_task_id na = en_task_id nb -> a = b.
Proof. apply NoDup_fmap_index. Qed.

Lemma degree_le_1 f (es : list (Edge ExecutionEdge)) i : NoDup (edge_ends <$> es) ->
  (forall e e', e ∈ es -> e' ∈ es -> is_memory e -> is_memory e' -> f e = i -> f e' = i -> edge_ends e = edge_ends e') -> (mem_degree f i es <= 1)%nat.
Proof.
  intros Hnd Hu. unfold mem_degree. assert (NoDup (edge_ends <$> filter (fun e => is_memory e /\ f e = i) es)) as Hf by (by apply NoDup_fmap_filter).
  destruct (filter _ es) as [|e [|e' l]] eqn:El; simpl; try lia. exfalso.
  assert (e ∈ filter (fun e => is_memory e /\ f e = i) es) as [[? ?] ?]%list_elem_of_filter by (rewrite El; by left).
  assert (e' ∈ filter (fun e => is_memory e /\ f e = i) es) as [[? ?] ?]%list_elem_of_filter by (rewrite El; right; by left).
  rewrite !fmap_cons in Hf. apply NoDup_cons in Hf as [Hf _]. apply Hf. rewrite (Hu e e') by done. by left.
Qed.

(** A memory edge, with the forward edge it stands for. *)
Lemma memory_edge_job jg ops eg a b : execution_graph_ok jg ops eg -> mkEdge a b EE_Memory ∈ raw_edges (eg_dag eg) -> exists e ja jb na nb,
  e ∈ filter (fun e => e_weight e = Forward) (raw_edges (jg_dag jg)) /\
  raw_nodes (jg_dag jg) !! e_source e = Some ja /\ raw_nodes (jg_dag jg) !! e_target e = Some jb /\
  raw_nodes (eg_dag eg) !! a = Some na /\ raw_nodes (eg_dag eg) !! b = Some nb /\
  job_id (en_task_id na) = jn_job_id ja /\ job_id (en_task_id nb) = jn_job_id jb /\ task_number (en_task_id na) = task_number (en_task_id nb).
Proof.
  intros Hok Hab. apply (eg_edges _ _ _ Hok) in Hab as (e & ja & jb & na & nb & He & H1 & H2 & H3 & H4 & H5 & H6 & H7).
  exists e, ja, jb, na, nb. rewrite list_elem_of_filter. destruct (e_weight e); simpl in H7; [|done]. destruct H7 as [_ H7]. by split_and!.
Qed.

(** A job and a number tell the tasks apart. *)
Lemma same_task jg ops eg a b na nb j : expandable jg ops -> execution_graph_ok jg ops eg ->
  raw_nodes (eg_dag eg) !! a = Some na -> raw_nodes (eg_dag eg) !! b = Some nb -> j ∈ raw_nodes (jg_dag jg) ->
  job_id (en_task_id na) = jn_job_id j -> job_id (en_task_id nb) = jn_job_id j -> task_number (en_task_id na) = task_number (en_task_id nb) -> a = b.
Proof.
  intros Hx Hok Ha Hb Hj Hia Hib Hnum. apply (same_node (eg_dag eg) a b na nb); [apply Hok|done|done|].
  destruct (eg_nodes _ _ _ Hok na) as (j1 & _ & _ & k1 & Hj1 & _ & _ & _ & Ht1 & _); [by eapply list_elem_of_lookup_2|].
  destruct (eg_nodes _ _ _ Hok nb) as (j2 & _ & _ & k2 & Hj2 & _ & _ & _ & Ht2 & _); [by eapply list_elem_of_lookup_2|].
  rewrite Ht1, Ht2 in *. simpl in *. rewrite (NoDup_fmap_eq _ _ j1 j (xp_ids _ _ Hx)), (NoDup_fmap_eq _ _ j2 j (xp_ids _ _ Hx)) by done. f_equal. lia.
Qed.

Lemma linear_tasks jg ops eg : expandable jg ops -> execution_graph_ok jg ops eg -> one_forward_parent jg -> linear (eg_dag eg).
Proof.
  intros Hx Hok Hone i. pose proof (xp_ids _ _ Hx) as Hids.
  split; apply degree_le_1; try apply Hok; intros [a b w] [a' b' w'] He He' Hmm Hmm'; unfold is_memory in *; simpl in *; subst w w'; intros <- ->;
    unfold edge_ends; simpl; f_equal.
  - destruct (memory_edge_job _ _ _ _ _ Hok He) as (e & ja & jb & na & nb & [_ Hin]%list_elem_of_filter & Ha & Hb & Hna & Hnb & Hia & Hib & Hnum).
    destruct (memory_edge_job _ _ _ _ _ Hok He') as (e' & ja' & jb' & na' & nb' & [_ Hin']%list_elem_of_filter & Ha' & Hb' & Hna' & Hnb' & Hia' & Hib' & Hnum').
    assert (na' = na) as -> by congruence. pose proof (NoDup_fmap_index _ _ _ _ _ _ Hids Ha Ha' ltac:(congruence)) as Hs.
    rewrite (NoDup_fmap_eq _ _ _ _ (xp_one _ _ Hx) Hin Hin' Hs) in Hb. assert (jb' = jb) as -> by congruence.
    eapply (same_task jg ops eg b b' nb nb' jb); try done; [by eapply list_elem_of_lookup_2|congruence].
  - destruct (memory_edge_job _ _ _ _ _ Hok He) as (e & ja & jb & na & nb & Hin & Ha & Hb & Hna & Hnb & Hia & Hib & Hnum).
    destruct (memory_edge_job _ _ _ _ _ Hok He') as (e' & ja' & jb' & na' & nb' & Hin' & Ha' & Hb' & Hna' & Hnb' & Hia' & Hib' & Hnum').
    assert (nb' = nb) as -> by congruence. pose proof (NoDup_fmap_index _ _ _ _ _ _ Hids Hb Hb' ltac:(congruence)) as Hs.
    rewrite (NoDup_fmap_eq _ _ _ _ Hone Hin Hin' Hs) in Ha. assert (ja' = ja) as -> by congruence.
    eapply (same_task jg ops eg a a' na na' ja); try done; [by eapply list_elem_of_lookup_2|congruence].
Qed.

(** C40: In any execution graph, with fuel for one more call than there are edges, the
    search from a task ends and returns exactly the tasks connected to it by memory
    edges, in any direction, although the indices it removes edges with may be out
    of date. *)
Theorem search_connected {E} (d : EDag) i :
  exists l d', search (E := E) (S (length (raw_edges d))) i d = Some (Ok (l, d')) /\
    forall x, x ∈ l <-> rtc (memory_adj (raw_edges d)) i x.
Proof.
  destruct (search_spec (E := E) (S (length (raw_edges d))) i d ltac:(lia)) as (l & d' & Es & Hf).
  exists l, d'. split; [done|]. intros x. by eapply found_component.
Qed.

Lemma execution_in_range jg ops eg : execution_graph_ok jg ops eg -> edges_in_range (eg_dag eg).
Proof. intros Hok. eapply Forall_impl; [apply (eg_up _ _ _ Hok)|]. intros e (_ & H). exact H. Qed.

Lemma execution_ranked jg ops eg : execution_graph_ok jg ops eg -> ranked (node_rank (raw_nodes (eg_dag eg))) (eg_dag eg).
Proof. intros Hok. eapply Forall_impl; [apply (eg_up _ _ _ Hok)|]. intros e (H & _). exact H. Qed.

(** C20: From the program to the workers, for a program that has ended its streams, has a
    parallelism at its sources, and whose tasks and edges fit into a graph (as far as there
    is a job graph). [DagManager::try_from] ends in one of these ways. It gives the graphs:
    those of the job graph; then with at least one worker the allocation gives every task
    that has an edge (every task, where there is no edge) a place on one worker, tasks linked
    in memory the same one, and where no job has two forward parents every such task is there
    exactly once. It fails with [ReduceOutputParallelismConflict], because the building of the
    job graph does. Or the job graph is built and a source fails to give its splits, with an
    error or a panic. *)
Theorem program_deployment g fuel capacity :
  built g [] -> (forall n, user_source g n -> 0 < sn_parallelism n) -> (length (raw_nodes (dag g)) < fuel)%nat ->
  (forall jg, job_graph_build fuel (sg_of g) = Some (Ok jg) ->
     Z.of_nat (task_total (raw_nodes (jg_dag jg))) <= 2 ^ 32 - 1 /\ Z.of_nat (edge_total jg) <= 2 ^ 32 - 1) -> (0 < capacity)%nat ->
  match DagManager_try_from fuel g with
  | Some (Ok dm) => let jg := dm_job_graph dm in
      job_graph_build fuel (sg_of g) = Some (Ok jg) /\ job_graph_ok g jg /\ execution_graph_ok jg (snd <$> operators g) (dm_execution_graph dm) /\
      exists ws, alloc_by_instance (E := unit) capacity (dm_physic_graph dm) = Ok ws /\
        placement_ok (eg_dag (dm_execution_graph dm)) capacity ws /\
        (one_forward_parent jg -> concat (wi_task_instances <$> ws) ≡ₚ
           task_instance <$> omap (fun i => raw_nodes (eg_dag (dm_execution_graph dm)) !! i) (deployed (eg_dag (dm_execution_graph dm))))
  | Some (Err e) =>
      (job_graph_build fuel (sg_of g) = Some (Err e) /\ e = ReduceOutputParallelismConflict) \/
      exists jg j, job_graph_build fuel (sg_of g) = Some (Ok jg) /\ j ∈ raw_nodes (jg_dag jg) /\ split_error (snd <$> operators g) j e
  | Some (Panic p) =>
      exists jg j, job_graph_build fuel (sg_of g) = Some (Ok jg) /\ j ∈ raw_nodes (jg_dag jg) /\ split_panic (snd <$> operators g) j p
  | None => False
  end.
Proof.
  intros Hb Hu Hf Hfit Hcap. pose proof (job_graph_builds g fuel Hb Hu Hf) as Hok.
  unfold DagManager_try_from. fold (sg_of g). destruct (job_graph_build fuel (sg_of g)) as [[jg|e|p]|]; cbn [rbind]; [|by left|done..].
  destruct (Hfit jg eq_refl) as [Ht He]. pose proof (job_graph_expandable g jg Hb Hok) as Hx. pose proof (execution_graph_expand jg _ Hx Ht He) as Heg.
  rewrite graph_operators_ok. cbn [rbind].
  destruct (execution_graph_build jg (snd <$> operators g)) as [eg|e|p]; cbn [rbind].
  2: { destruct Heg as (j & Hj & Hs). right. by exists jg, j. }
  2: { destruct Heg as (j & Hj & Hs). by exists jg, j. }
  destruct (allocation_ok (E := DagError) (E' := unit) (eg_dag eg) capacity (execution_in_range _ _ _ Heg) Hcap) as (pg & ws & -> & Ea & Hp). cbn [rbind dm_job_graph].
  split_and!; [done..|]. exists ws. split_and!; [done|done|].
  intros Hone. apply (pl_once _ _ _ Hp (node_rank (raw_nodes (eg_dag eg)))); [by eapply linear_tasks|by eapply execution_ranked].
Qed.

Lemma dag_manager_inv fuel g dm : DagManager_try_from fuel g = Some (Ok dm) ->
  dm_stream_graph dm = sg_of g /\
  job_graph_build fuel (sg_of g) = Some (Ok (dm_job_graph dm)) /\
  execution_graph_build (dm_job_graph dm) (snd <$> operators g) = Ok (dm_execution_graph dm) /\
  physic_graph_build (E := DagError) (eg_dag (dm_execution_graph dm)) = Some (Ok (dm_physic_graph dm)).
Proof.
  unfold DagManager_try_from. fold (sg_of g). destruct (job_graph_build fuel (sg_of g)) as [[jg| |]|]; cbn [rbind]; try done.
  rewrite graph_operators_ok. cbn [rbind]. destruct (execution_graph_build jg (snd <$> operators g)) as [eg| |] eqn:Eeg; cbn [rbind]; try done.
  destruct (physic_graph_build (eg_dag eg)) as [[pg| |]|] eqn:Epg; cbn [rbind]; try done. intros [= <-]. done.
Qed.

(** A task without any edge, in a graph that has edges, is on no worker: the
    chains are collected from the ends of the edges. *)
Theorem edgeless_tasks_lost d capacity i n pg ws :
  edges_in_range d -> NoDup (en_task_id <$> raw_nodes d) -> raw_edges d <> [] ->
  raw_nodes d !! i = Some n -> (forall e, e ∈ raw_edges d -> i <> e_source e /\ i <> e_target e) ->
  physic_graph_build (E := unit) d = Some (Ok pg) -> alloc_by_instance (E := unit) capacity pg = Ok ws ->
  forall w t, w ∈ ws -> t ∈ wi_task_instances w -> ti_task_id t <> en_task_id n.
Proof.
  intros Hr Hnd He Hn Hi Hpg Hws w t Hw Ht Heq. destruct (decide (0 < capacity)%nat) as [Hcap|Hcap].
  - destruct (allocation_ok (E := unit) (E' := unit) d capacity Hr Hcap) as (pg' & ws' & Hpg' & Hws' & Hp). rewrite Hpg in Hpg'. injection Hpg' as <-.
    rewrite Hws in Hws'. injection Hws' as <-. destruct (pl_place _ _ _ Hp) as (place & _ & _ & Hiff). apply list_elem_of_lookup in Hw as [k Hk].
    apply (Hiff k w t Hk) in Ht as (j & n' & Hj & Hn' & _ & ->). simpl in Heq.
    assert (j = i) as -> by (by apply (same_node d j i n' n)). unfold deployed in Hj. destruct (raw_edges d) as [|e0 es]; [done|].
    apply elem_of_elements, elem_of_edge_sets in Hj as (e & He' & Hend). destruct (Hi e He'). naive_solver.
  - replace capacity with 0%nat in Hws by lia. unfold alloc_by_instance in Hws. cbn [seq fmap list_fmap] in Hws.
    destruct (concat (hiter (task_groups pg)).*2) as [|c cs]; simpl in Hws; [|done]. simplify_eq. by apply elem_of_nil in Hw.
Qed.
End physic_graph.

(** ** Examples *)
#[local] Existing Instance ListDag.

Definition prog_deployed (HO : HashOrder) (cs : list ApiCall) (capacity : nat) : option (list (list TaskId)) :=
  match DagManager_try_from 20 (prog_graph cs) with
  | Some (Ok dm) =>
      match alloc_by_instance (E := unit) capacity (dm_physic_graph dm) with
      | Ok ws => Some ((fun w => ti_task_id <$> wi_task_instances w) <$> ws)
      | _ => None
      end
  | _ => None
  end.

(** The aggregation on two workers: every reducing task has its output task beside
    it. *)
Example ex_aggregate_deployed : prog_deployed id_order ex_aggregate 2 = Some
  [[mkTaskId 4 1 3; mkTaskId 8 1 3; mkTaskId 4 0 3; mkTaskId 8 0 3; mkTaskId 0 1 2];
   [mkTaskId 8 2 3; mkTaskId 4 2 3; mkTaskId 0 0 2]].
Proof. vm_compute. reflexivity. Qed.

(** Beside the aggregation a source with its sink: that job has no edges. *)
Definition ex_isolated : list ApiCall := ex_aggregate ++ [register_source (ex_source 1); add_sink 11 ex_sink].

Example ex_isolated_tasks : prog_jobs ex_isolated ≫= (fun jg => Some (job_view <$> raw_nodes (jg_dag jg))) = Some
  [(11, 1, [11; 12], [], []); (8, 3, [8; 9; 10], [], [4]); (4, 3, [4; 5; 6; 7], [8], [0]); (0, 2, [0; 1; 2; 3], [4], [])].
Proof. vm_compute. reflexivity. Qed.

(** It is never deployed. *)
Example ex_isolated_lost : match prog_deployed id_order ex_isolated 2 with
  | Some ws => forallb (fun t => negb (job_id t =? 11)) (concat ws) = true
  | None => False
  end.
Proof. vm_compute. reflexivity. Qed.

(** Another order of the hash tables. *)
Definition swap_order : HashOrder.
Proof.
  refine {| hash_order := fun A l => match l with a :: b :: c :: r => a :: c :: b :: r | _ => l end |}.
  intros A [|a [|b [|c r]]]; try reflexivity. apply perm_skip, Permutation_swap.
Defined.

(** Two connected sources: a stale edge index makes the search come back to the
    co-process task, and it is deployed twice. *)
Example ex_connect_twice : prog_deployed swap_order ex_connect 1 =
  Some [[mkTaskId 8 0 1; mkTaskId 5 0 1; mkTaskId 0 0 1; mkTaskId 2 0 1; mkTaskId 5 0 1]].
Proof. vm_compute. reflexivity. Qed.

#[local] Existing Instance id_order.

Lemma program_deployment_witness :
  match DagManager_try_from 20 (prog_graph ex_aggregate) with
  | Some (Ok dm) => exists ws, alloc_by_instance (E := unit) 2 (dm_physic_graph dm) = Ok ws /\
      placement_ok (eg_dag (dm_execution_graph dm)) 2 ws /\
      concat (wi_task_instances <$> ws) ≡ₚ
        task_instance <$> omap (fun i => raw_nodes (eg_dag (dm_execution_graph dm)) !! i) (deployed (eg_dag (dm_execution_graph dm)))
  | _ => False
  end.
Proof.
  assert (built (prog_graph ex_aggregate) []) as Hb by (apply (prog_built ex_aggregate); vm_compute; reflexivity).
  assert (run_ok (DagManager_try_from 20 (prog_graph ex_aggregate)) = true) as Hr by (vm_compute; reflexivity).
  pose (fwd := fun jg : JobGraph => bool_decide (NoDup (e_target <$> filter (fun e => e_weight e = Forward) (raw_edges (jg_dag jg))))).
  assert (match job_graph_build 20 (sg_of (prog_graph ex_aggregate)) with Some (Ok jg) => fits jg && fwd jg | _ => false end = true) as Hf
    by (vm_compute; reflexivity).
  destruct (job_graph_build 20 (sg_of (prog_graph ex_aggregate))) as [[jg| |]|] eqn:Ejg; [|discriminate Hf..].
  apply andb_true_iff in Hf as [Hf Hone]. apply andb_true_iff in Hf as [Hf1 Hf2]. apply Z.leb_le in Hf1, Hf2. apply bool_decide_eq_true in Hone.
  pose proof (program_deployment (prog_graph ex_aggregate) 20 2 Hb
    (sources_positive_spec (prog_graph ex_aggregate) ltac:(vm_compute; reflexivity)) ltac:(apply Nat.ltb_lt; vm_compute; reflexivity)) as H.
  specialize (H ltac:(intros jg'; rewrite Ejg; intros [= <-]; split; [exact Hf1|exact Hf2]) ltac:(lia)).
  destruct (DagManager_try_from 20 (prog_graph ex_aggregate)) as [[dm| |]|]; [|discriminate Hr..].
  destruct H as (Hj & _ & _ & ws & H1 & H2 & H3). exists ws. split; [exact H1|]. split; [exact H2|]. apply H3. rewrite Ejg in Hj. injection Hj as <-. exact Hone.
Defined.

(** A reduction of parallelism 2 connected to a source of parallelism 1. *)
Definition ex_conflict : list ApiCall :=
  [register_source (ex_source 1); register_source (ex_source 1); key_by 1 ex_key_by; window 2 ex_window;
   reduce 5 (ex_reduce 2); connect 0 [Co_Data 6] ex_co; connected_add_sink 13 ex_sink].

Example ex_conflict_error : match DagManager_try_from 20 (prog_graph ex_conflict) with Some (Err e) => e = ReduceOutputParallelismConflict | _ => False end.
Proof. vm_compute. reflexivity. Qed.

(** Three tasks and one edge between two of them. *)
Definition ex_node (j : JobId) : ExecutionNode := mkExecutionNode (mkTaskId j 0 1) [] InputSplit_default false.

Definition ex_dag : Dag ExecutionNode ExecutionEdge :=
  match add_node Dag_new (ex_node 0) with
  | Some (_, d) =>
      match add_node d (ex_node 1) with
      | Some (_, d) =>
          match add_node d (ex_node 2) with
          | Some (_, d) => match add_edge d 0%nat 1%nat EE_Memory with Ok (_, d) => d | _ => Dag_new end
          | None => Dag_new
          end
      | None => Dag_new
      end
  | None => Dag_new
  end.

Lemma edgeless_tasks_lost_witness :
  match physic_graph_build (E := unit) ex_dag with
  | Some (Ok pg) =>
      match alloc_by_instance (E := unit) 2 pg with
      | Ok ws => forall w t, w ∈ ws -> t ∈ wi_task_instances w -> ti_task_id t <> mkTaskId 2 0 1
      | _ => False
      end
  | _ => False
  end.
Proof.
  assert (match physic_graph_build (E := unit) ex_dag with Some (Ok pg) => is_ok (alloc_by_instance (E := unit) 2 pg) | _ => false end = true) as Hr
    by (vm_compute; reflexivity).
  destruct (physic_graph_build (E := unit) ex_dag) as [[pg| |]|] eqn:Epg; [|discriminate Hr..].
  destruct (alloc_by_instance (E := unit) 2 pg) as [ws| |] eqn:Ews; [|discriminate Hr..].
  apply (edgeless_tasks_lost ex_dag 2 2 (ex_node 2) pg ws).
  - constructor; [|constructor]. split; apply Nat.ltb_lt; vm_compute; reflexivity.
  - change (NoDup [mkTaskId 0 0 1; mkTaskId 1 0 1; mkTaskId 2 0 1]). apply (bool_decide_unpack _). vm_compute. exact I.
  - intros H. discriminate H.
  - vm_compute. reflexivity.
  - intros e He. change (e ∈ [mkEdge 0%nat 1%nat EE_Memory]) in He. apply list_elem_of_singleton in He as ->. split; discriminate.
  - exact Epg.
  - exact Ews.
Defined.
