(* ===== verification/DagMetadata.v ===== *)
(** * DagMetadata: the graphs as the workers get them

    src/rlink/src/dag/utils.rs and src/rlink/src/dag/metadata.rs: the coordinator turns
    the graphs into plain lists of nodes and edges that name each other by a string,
    which a worker can read from JSON and ask for the neighbours of its task.

    The nodes are collected from the ends of the edges, so a node without edges is only
    listed in a graph that has none at all. The theorem says which nodes are found, and
    that the neighbours of every job and of every task are those of the graph
    nevertheless, edge by edge. *)
From Stdlib Require Import ZArith Lia.
From stdpp Require Import base strings numbers option sets gmap list relations pretty.
From S2P Require Import Prelude Bytes Runtime Graph Schema StreamGraph JobGraph ExecutionGraph PhysicGraph.

Record JsonNode (N : Type) := mkJsonNode { jd_id : string; jd_detail : N }.
Arguments mkJsonNode {N} _ _.
Arguments jd_id {N} _.
Arguments jd_detail {N} _.

Record JsonEdge (E : Type) := mkJsonEdge { je_source : string; je_target : string; je_detail : E }.
Arguments mkJsonEdge {E} _ _ _.
Arguments je_source {E} _.
Arguments je_target {E} _.
Arguments je_detail {E} _.

Record JsonDag (N E : Type) := mkJsonDag { jd_nodes : list (JsonNode N); jd_edges : list (JsonEdge E) }.
Arguments mkJsonDag {N E} _ _.
Arguments jd_nodes {N E} _.
Arguments jd_edges {N E} _.

(** [Iterator::find]. *)
Definition iter_find {A} (P : A -> Prop) `{forall x, Decision (P x)} (l : list A) : option A := snd <$> list_find P l.

(** [self.index(i).to_string()]. *)
Definition index_string (i : NodeIndex) : string := pretty (Z.of_nat i).

Section json_dag.
Context {DA : DagApi} {HO : HashOrder} {Er N E : Type}.
Implicit Types d : Dag N E.

Definition crate_json_node d (node_index : NodeIndex) : res Er (JsonNode N) :=
  let* n := dag_index d node_index in Ok (mkJsonNode (index_string node_index) n).

(** The body of the loop over the edges. *)
Definition add_json_edge d (s : gmap string (JsonNode N) * list (JsonEdge E)) (edge : Edge E)
    : res Er (gmap string (JsonNode N) * list (JsonEdge E)) :=
  let '(node_map, edges) := s in
  let* source_json_node := crate_json_node d (e_source edge) in
  let* target_json_node := crate_json_node d (e_target edge) in
  Ok (<[jd_id target_json_node := target_json_node]> (<[jd_id source_json_node := source_json_node]> node_map),
      edges ++ [mkJsonEdge (jd_id source_json_node) (jd_id target_json_node) (e_weight edge)]).

(** The nodes of a graph without edges are counted by an [i32]. *)
Definition add_json_node (s : gmap string (JsonNode N) * Z) (node : N) : gmap string (JsonNode N) * Z :=
  let '(node_map, n) := s in
  (<[pretty n := mkJsonNode (pretty n) node]> node_map, wrap_i 32 (n + 1)).

Definition JsonDag_from d : res Er (JsonDag N E) :=
  let* (node_map, edges) :=
    match raw_edges d with
    | [] => Ok ((foldl add_json_node (∅, 0) (raw_nodes d)).1, [])
    | es => foldM (add_json_edge d) (∅, []) es
    end in
  Ok (mkJsonDag (hiter node_map).*2 edges).

Definition get_node (jd : JsonDag N E) (id : string) : option (JsonNode N) := iter_find (fun node => jd_id node = id) (jd_nodes jd).

Definition gets (jd : JsonDag N E) (node_id : string) (parent : bool) : res Er (list (JsonNode N * JsonEdge E)) :=
  foldM (fun acc edge =>
      if decide ((if parent then je_target edge else je_source edge) = node_id) then
        let* node := unwrap "called `Option::unwrap()` on a `None` value" (get_node jd (if parent then je_source edge else je_target edge)) in
        Ok (acc ++ [(node, edge)])
      else Ok acc) [] (jd_edges jd).

Definition json_parents (jd : JsonDag N E) (parent_node_id : string) : res Er (list (JsonNode N * JsonEdge E)) := gets jd parent_node_id true.
Definition json_children (jd : JsonDag N E) (child_node_id : string) : res Er (list (JsonNode N * JsonEdge E)) := gets jd child_node_id false.

Definition details (l : list (JsonNode N * JsonEdge E)) : list (N * E) := (fun p => (jd_detail p.1, je_detail p.2)) <$> l.

(** ** The reference

    The nodes that are listed, and the neighbours of a node in the graph, in the order of
    the edges. *)
Definition listed d (i : NodeIndex) : Prop :=
  raw_edges d = [] \/ exists e, e ∈ raw_edges d /\ (i = e_source e \/ i = e_target e).

Definition neighbours (near far : Edge E -> NodeIndex) d (i : NodeIndex) : list (N * E) :=
  omap (fun e => if decide (near e = i) then (fun n => (n, e_weight e)) <$> raw_nodes d !! far e else None) (raw_edges d).

Definition graph_parents : Dag N E -> NodeIndex -> list (N * E) := neighbours e_target e_source.
Definition graph_children : Dag N E -> NodeIndex -> list (N * E) := neighbours e_source e_target.

Definition edges_inside d : Prop :=
  Forall (fun e => (e_source e < length (raw_nodes d))%nat /\ (e_target e < length (raw_nodes d))%nat) (raw_edges d).

(** ** Lemmas *)
Lemma index_string_inj i j : index_string i = index_string j -> i = j.
Proof. unfold index_string. intros H%(inj pretty). lia. Qed.

Lemma wrapped_string_inj i j : Z.of_nat i < 2 ^ 32 -> Z.of_nat j < 2 ^ 32 ->
  pretty (wrap_i 32 (Z.of_nat i)) = pretty (wrap_i 32 (Z.of_nat j)) -> i = j.
Proof.
  intros Hi Hj H%(inj pretty). unfold wrap_i in H. change (2 ^ (32 - 1)) with 2147483648 in H. change (2 ^ 32) with 4294967296 in *.
  assert ((Z.of_nat i + 2147483648) mod 4294967296 = (Z.of_nat j + 2147483648) mod 4294967296) as H' by lia. clear H.
  Z.to_euclidean_division_equations. lia.
Qed.

(** The name of a node in the list. *)
Definition node_name d (i : NodeIndex) : string :=
  match raw_edges d with [] => pretty (wrap_i 32 (Z.of_nat i)) | _ => index_string i end.

Definition fits_u32 d : Prop := Z.of_nat (length (raw_nodes d)) < 2 ^ 32.

Lemma node_name_inj d i j : fits_u32 d -> (i < length (raw_nodes d))%nat -> (j < length (raw_nodes d))%nat ->
  node_name d i = node_name d j -> i = j.
Proof.
  unfold fits_u32, node_name. intros Hf Hi Hj. destruct (raw_edges d); [apply wrapped_string_inj; lia|apply index_string_inj].
Qed.

(** The map holds the nodes of a set of indices under their names. *)
Definition shows d (P : NodeIndex -> Prop) (m : gmap string (JsonNode N)) : Prop :=
  forall k x, m !! k = Some x <-> exists i n, P i /\ raw_nodes d !! i = Some n /\ k = node_name d i /\ x = mkJsonNode k n.

Lemma shows_insert d P m i n : fits_u32 d -> shows d P m -> raw_nodes d !! i = Some n ->
  shows d (fun j => j = i \/ P j) (<[node_name d i := mkJsonNode (node_name d i) n]> m).
Proof.
  intros Hf Hm Hi k x. rewrite lookup_insert_Some, (Hm k x). split.
  - intros [[<- <-]|[Hne (j & n' & ? & ? & -> & ->)]]; [by exists i, n; eauto|exists j, n'; eauto].
  - intros (j & n' & Hj & Hn & -> & ->). destruct (decide (node_name d i = node_name d j)) as [Heq|Hne].
    + left. assert (i = j) as <- by (apply (node_name_inj d); eauto using lookup_lt_Some). by simplify_eq.
    + right. split; [done|]. exists j, n'. destruct Hj as [->|Hj]; [done|eauto].
Qed.

Lemma shows_ext d P Q m : (forall i, P i <-> Q i) -> shows d P m -> shows d Q m.
Proof. intros HPQ Hm k x. rewrite (Hm k x). by setoid_rewrite HPQ. Qed.

Lemma add_json_nodes_spec d l1 l2 m : fits_u32 d -> raw_edges d = [] -> raw_nodes d = l1 ++ l2 ->
  shows d (fun i => i < length l1)%nat m ->
  shows d (fun i => i < length (raw_nodes d))%nat (foldl add_json_node (m, wrap_i 32 (Z.of_nat (length l1))) l2).1.
Proof.
  intros Hf He. revert l1 m. induction l2 as [|n l2 IH]; intros l1 m Hl Hm; simpl.
  { rewrite Hl, app_nil_r. done. }
  replace (wrap_i 32 (wrap_i 32 (Z.of_nat (length l1)) + 1)) with (wrap_i 32 (Z.of_nat (length (l1 ++ [n])))).
  2:{ rewrite length_app, Nat2Z.inj_add. unfold wrap_i. change (Z.of_nat (length [n])) with 1. change (2 ^ (32 - 1)) with 2147483648.
      change (2 ^ 32) with 4294967296. f_equal. generalize (Z.of_nat (length l1)). intros z.
      replace (z + 1 + 2147483648) with ((z + 2147483648) + 1) by lia. set (y := z + 2147483648).
      replace (y mod 4294967296 - 2147483648 + 1 + 2147483648) with (y mod 4294967296 + 1) by lia.
      by rewrite Zplus_mod_idemp_l. }
  apply IH; [by rewrite <- app_assoc|].
  assert (pretty (wrap_i 32 (Z.of_nat (length l1))) = node_name d (length l1)) as -> by (unfold node_name; by rewrite He).
  eapply shows_ext; [|apply (shows_insert _ _ _ (length l1) n Hf Hm); rewrite Hl; by apply list_lookup_middle].
  intros i. rewrite length_app. simpl. lia.
Qed.

Lemma add_json_edges_spec d es : fits_u32 d -> raw_edges d <> [] -> edges_inside d -> (forall e, e ∈ es -> e ∈ raw_edges d) ->
  forall P m acc, shows d P m -> exists m',
    foldM (add_json_edge d) (m, acc) es = Ok (m', acc ++ ((fun e => mkJsonEdge (index_string (e_source e)) (index_string (e_target e)) (e_weight e)) <$> es)) /\
    shows d (fun i => P i \/ exists e, e ∈ es /\ (i = e_source e \/ i = e_target e)) m'.
Proof.
  intros Hf He Hin. assert (forall i, node_name d i = index_string i) as Hname by (intros i; unfold node_name; by destruct (raw_edges d)).
  induction es as [|e es IH]; intros Hsub P m acc Hm.
  { exists m. rewrite fmap_nil, app_nil_r. split; [done|]. eapply shows_ext; [|done]. set_solver. }
  unfold edges_inside in Hin. pose proof Hin as Hin'. rewrite Forall_forall in Hin'. destruct (Hin' e (Hsub e ltac:(by left))) as [[a Ha]%lookup_lt_is_Some_2 [b Hb]%lookup_lt_is_Some_2].
  cbn [foldM add_json_edge]. unfold crate_json_node, dag_index. rewrite Ha, Hb. cbn.
  edestruct (IH ltac:(intros; apply Hsub; by right)) as (m' & -> & Hm').
  { rewrite <- !Hname. apply shows_insert; [done| |done]. apply shows_insert; done. }
  exists m'. split; [by rewrite <- app_assoc|]. eapply shows_ext; [|exact Hm']. intros i. simpl. set_solver.
Qed.

(** What a list of nodes and edges says of a graph. *)
Record lists d (jd : JsonDag N E) : Prop := {
  ls_edges : jd_edges jd = (fun e => mkJsonEdge (node_name d (e_source e)) (node_name d (e_target e)) (e_weight e)) <$> raw_edges d;
  ls_nodes : forall x, x ∈ jd_nodes jd <-> exists i n, listed d i /\ raw_nodes d !! i = Some n /\ x = mkJsonNode (node_name d i) n
}.

Lemma JsonDag_from_ok d : fits_u32 d -> edges_inside d -> exists jd, JsonDag_from d = Ok jd /\ lists d jd.
Proof.
  intros Hf Hin. assert (shows d (fun _ => False) ∅) as H0 by (intros k x; rewrite lookup_empty; split; [done|naive_solver]).
  assert (exists m, (match raw_edges d with [] => Ok ((foldl add_json_node (∅, 0) (raw_nodes d)).1, [])
      | es => foldM (add_json_edge d) (∅, []) es end : res Er _) =
    Ok (m, (fun e => mkJsonEdge (node_name d (e_source e)) (node_name d (e_target e)) (e_weight e)) <$> raw_edges d) /\
    forall k x, m !! k = Some x <-> exists i n, listed d i /\ raw_nodes d !! i = Some n /\ k = node_name d i /\ x = mkJsonNode k n) as (m & Em & Hm).
  { destruct (raw_edges d) as [|e0 es] eqn:He.
    - eexists. split; [done|]. intros k x.
      assert (shows d (fun i => i < length (@nil N))%nat ∅) as H1 by (eapply shows_ext; [|exact H0]; simpl; lia).
      rewrite (add_json_nodes_spec d [] (raw_nodes d) ∅ Hf He eq_refl H1 k x).
      unfold listed. split; [naive_solver|]. intros (i & n & _ & Hn & Hrest). exists i, n. split; [by eapply lookup_lt_Some|done].
    - rewrite <- He. destruct (add_json_edges_spec d (raw_edges d) Hf) with (P := fun _ : nat => False) (m := ∅ : gmap string (JsonNode N)) (acc := @nil (JsonEdge E))
        as (m & Em & Hm); [congruence|done|done|done|]. exists m. split.
      + rewrite Em. simpl. do 2 f_equal. apply list_fmap_ext. intros i e _. unfold node_name. by rewrite He.
      + intros k x. rewrite (Hm k x). unfold listed. assert (raw_edges d <> []) as Hne by congruence. clear -Hne.
        split; intros (i & n & Hi & Hrest); exists i, n; (split; [|exact Hrest]); destruct Hi as [Hi|Hi]; [done|by right|done|by right]. }
  unfold JsonDag_from. rewrite Em. cbn. eexists. split; [done|]. split; [done|]. cbn. intros x. rewrite list_elem_of_fmap. split.
  - intros ([k y] & -> & Hk). apply elem_of_hiter, Hm in Hk as (i & n & ? & ? & -> & ->). eauto.
  - intros (i & n & Hl & Hn & ->). exists (node_name d i, mkJsonNode (node_name d i) n). split; [done|]. apply elem_of_hiter, Hm. eauto 6.
Qed.

(** ** Looking up and following *)
Lemma iter_find_Some {A} (P : A -> Prop) `{forall x, Decision (P x)} l x :
  (forall y, y ∈ l -> P y -> y = x) -> x ∈ l -> P x -> iter_find P l = Some x.
Proof.
  intros Hu Hx HP. unfold iter_find. destruct (list_find P l) as [[i y]|] eqn:Ef.
  - apply list_find_Some in Ef as (Hy & HPy & _). simpl. f_equal. apply Hu; [by eapply list_elem_of_lookup_2|done].
  - apply list_find_None in Ef. rewrite Forall_forall in Ef. by destruct (Ef x Hx).
Qed.

Lemma iter_find_None {A} (P : A -> Prop) `{forall x, Decision (P x)} l : (forall y, y ∈ l -> ~ P y) -> iter_find P l = None.
Proof. intros Hn. unfold iter_find. rewrite (proj2 (list_find_None P l)); [done|]. by apply Forall_forall. Qed.

Lemma edge_listed d e : e ∈ raw_edges d -> listed d (e_source e) /\ listed d (e_target e).
Proof. intros He. split; right; exists e; eauto. Qed.

Section of_graph.
Context (d : Dag N E) (jd : JsonDag N E) (Hf : fits_u32 d) (Hin : edges_inside d) (Hjd : lists d jd).

Lemma get_node_listed i n : listed d i -> raw_nodes d !! i = Some n -> get_node jd (node_name d i) = Some (mkJsonNode (node_name d i) n).
Proof.
  intros Hl Hn. apply iter_find_Some; [|apply (ls_nodes _ _ Hjd); eauto|done].
  intros y (j & n' & _ & Hj & ->)%(ls_nodes _ _ Hjd) Heq. simpl in Heq.
  assert (j = i) as -> by (apply (node_name_inj d); eauto using lookup_lt_Some). by simplify_eq.
Qed.

Lemma gets_spec (parent : bool) i : (i < length (raw_nodes d))%nat ->
  details <$> gets jd (node_name d i) parent = Ok (if parent then graph_parents d i else graph_children d i).
Proof.
  intros Hi. set (near := if parent then e_target (E := E) else e_source). set (far := if parent then e_source (E := E) else e_target).
  assert (forall es acc, (forall e, e ∈ es -> e ∈ raw_edges d) -> details <$> foldM (fun acc edge =>
      if decide ((if parent then je_target edge else je_source edge) = node_name d i) then
        let* node := unwrap "called `Option::unwrap()` on a `None` value" (get_node jd (if parent then je_source edge else je_target edge)) in
        Ok (acc ++ [(node, edge)])
      else Ok acc) acc ((fun e => mkJsonEdge (node_name d (e_source e)) (node_name d (e_target e)) (e_weight e)) <$> es) =
    (Ok (details acc ++ omap (fun e => if decide (near e = i) then (fun n => (n, e_weight e)) <$> raw_nodes d !! far e else None) es) : res Er _)) as Hfold.
  { induction es as [|e es IH]; intros acc Hsub; [by rewrite app_nil_r|]. rewrite fmap_cons. cbn [foldM].
    unfold edges_inside in Hin. rewrite Forall_forall in Hin. destruct (Hin e (Hsub e ltac:(by left))) as [Hs Ht].
    destruct (edge_listed d e (Hsub e ltac:(by left))) as [Ls Lt].
    assert (far e < length (raw_nodes d))%nat as [n Hn]%lookup_lt_is_Some_2 by (by destruct parent).
    assert (near e < length (raw_nodes d))%nat as Hnear by (by destruct parent). assert (listed d (far e)) as Lf by (by destruct parent).
    replace (if parent then je_target (mkJsonEdge (node_name d (e_source e)) (node_name d (e_target e)) (e_weight e))
       else je_source (mkJsonEdge (node_name d (e_source e)) (node_name d (e_target e)) (e_weight e))) with (node_name d (near e)) by (by destruct parent).
    replace (if parent then je_source (mkJsonEdge (node_name d (e_source e)) (node_name d (e_target e)) (e_weight e))
       else je_target (mkJsonEdge (node_name d (e_source e)) (node_name d (e_target e)) (e_weight e))) with (node_name d (far e)) by (by destruct parent).
    destruct (decide (near e = i)) as [Heq|Hne].
    - rewrite decide_True by congruence. rewrite (get_node_listed (far e) n Lf Hn). cbn. rewrite IH by (intros; apply Hsub; by right).
      rewrite decide_True by done. rewrite Hn. cbn. unfold details. by rewrite fmap_app, <- app_assoc.
    - rewrite decide_False by (intros H; apply Hne, (node_name_inj d); done). cbn. rewrite IH by (intros; apply Hsub; by right).
      by rewrite decide_False by done. }
  unfold gets. rewrite (ls_edges _ _ Hjd), Hfold by done. by destruct parent.
Qed.

Lemma unlisted_alone i : ~ listed d i -> graph_parents d i = [] /\ graph_children d i = [].
Proof.
  intros Hl. assert (forall near far es, (forall e, e ∈ es -> near e <> i) ->
    omap (fun e : Edge E => if decide (near e = i) then (fun n => (n, e_weight e)) <$> raw_nodes d !! far e else None) es = []) as Hz.
  { intros near far es. induction es as [|e es IH]; intros Hes; [done|]. simpl. rewrite decide_False by (apply Hes; by left). apply IH. intros; apply Hes; by right. }
  split; apply Hz; intros e He <-; apply Hl, (edge_listed d e He).
Qed.

(** Finding a node by a key of its own. *)
Lemma find_by_key {K} `{EqDecision K} (key : N -> K) i n : NoDup (key <$> raw_nodes d) -> raw_nodes d !! i = Some n ->
  (listed d i -> iter_find (fun x => key (jd_detail x) = key n) (jd_nodes jd) = Some (mkJsonNode (node_name d i) n)) /\
  (~ listed d i -> iter_find (fun x => key (jd_detail x) = key n) (jd_nodes jd) = None).
Proof.
  intros Hnd Hn. split; intros Hl.
  - apply iter_find_Some; [|apply (ls_nodes _ _ Hjd); eauto|done].
    intros y (j & n' & _ & Hj & ->)%(ls_nodes _ _ Hjd) Heq. simpl in Heq.
    assert (j = i) as -> by (by eapply (NoDup_fmap_index key)). by simplify_eq.
  - apply iter_find_None. intros y (j & n' & Hj & Hn' & ->)%(ls_nodes _ _ Hjd) Heq. simpl in Heq.
    assert (j = i) as -> by (by eapply (NoDup_fmap_index key)). done.
Qed.

Lemma find_key_none {K} `{EqDecision K} (key : N -> K) k : k ∉ key <$> raw_nodes d ->
  iter_find (fun x => key (jd_detail x) = k) (jd_nodes jd) = None.
Proof.
  intros Hk. apply iter_find_None. intros y (j & n' & _ & Hn' & ->)%(ls_nodes _ _ Hjd) Heq. simpl in Heq. apply Hk. subst k.
  apply list_elem_of_fmap. exists n'. split; [done|]. by eapply list_elem_of_lookup_2.
Qed.
End of_graph.
End json_dag.

(** ** Neighbours *)
Section neighbours.
Context {DA : DagApi}.

Lemma neighbours_filter {N E} near far (d : Dag N E) i :
  neighbours near far d i = omap (fun e => (fun n => (n, e_weight e)) <$> raw_nodes d !! far e) (filter (fun e => near e = i) (raw_edges d)).
Proof. unfold neighbours. induction (raw_edges d) as [|e es IH]; [done|].
  rewrite filter_cons. case_decide as Hd; cbn [omap list_omap]; [by rewrite decide_True, IH|by rewrite decide_False, IH]. Qed.

Lemma elem_of_neighbours {N E} near far (d : Dag N E) y n w : (n, w) ∈ neighbours near far d y <->
  exists e, e ∈ raw_edges d /\ near e = y /\ raw_nodes d !! far e = Some n /\ e_weight e = w.
Proof.
  rewrite neighbours_filter, list_elem_of_omap. split.
  - intros (e & [He Hin]%list_elem_of_filter & Hs). apply fmap_Some in Hs as (n' & Hn & ?). simplify_eq. eauto.
  - intros (e & Hin & He & Hn & <-). exists e. rewrite list_elem_of_filter, Hn. done.
Qed.

Lemma single_edge {E} (es : list (Edge E)) e i : NoDup (e_source <$> es) -> e ∈ es -> e_target e = i ->
  (forall e', e' ∈ es -> e_target e' = i -> e_source e' = e_source e) -> filter (fun e => e_target e = i) es = [e].
Proof.
  intros Hnd He Hi Hu. assert (filter (fun e => e_target e = i) es ≡ₚ [e]) as Hp; [|by apply Permutation_singleton_r in Hp].
  apply NoDup_Permutation; [eapply NoDup_filter, NoDup_fmap_1, Hnd|apply NoDup_singleton|]. intros x. rewrite list_elem_of_filter, list_elem_of_singleton.
  split; [intros [Hx Hin]|by intros ->]. eapply (NoDup_fmap_eq e_source); eauto.
Qed.

End neighbours.

(** ** The metadata of a program *)
Section dag_metadata.
Context {DA : DagApi} {HO : HashOrder}.

Record DagMetadata := mkDagMetadata {
  md_stream_graph : JsonDag StreamNode StreamEdge;
  md_job_graph : JsonDag JobNode JobEdge;
  md_execution_graph : JsonDag ExecutionNode ExecutionEdge
}.

Definition DagMetadata_from {Er} (dag_manager : DagManager) : res Er DagMetadata :=
  let* stream_graph := JsonDag_from (sg_dag (dm_stream_graph dag_manager)) in
  let* job_graph := JsonDag_from (jg_dag (dm_job_graph dag_manager)) in
  let* execution_graph := JsonDag_from (eg_dag (dm_execution_graph dag_manager)) in
  Ok (mkDagMetadata stream_graph job_graph execution_graph).

Definition get_stream_node (md : DagMetadata) (operator_id : OperatorId) : option (JsonNode StreamNode) :=
  iter_find (fun node => sn_id (jd_detail node) = operator_id) (jd_nodes (md_stream_graph md)).

Definition md_stream_node (md : DagMetadata) (operator_id : OperatorId) : option StreamNode := jd_detail <$> get_stream_node md operator_id.

Definition get_job_node (md : DagMetadata) (id : JobId) : option (JsonNode JobNode) :=
  iter_find (fun node => jn_job_id (jd_detail node) = id) (jd_nodes (md_job_graph md)).

Definition md_job_node (md : DagMetadata) (id : JobId) : option JobNode := jd_detail <$> get_job_node md id.

Definition job_parents {Er} (md : DagMetadata) (child_job_id : JobId) : res Er (list (JobNode * JobEdge)) :=
  match get_job_node md child_job_id with
  | Some node => details <$> json_parents (md_job_graph md) (jd_id node)
  | None => Ok []
  end.

Definition job_children {Er} (md : DagMetadata) (parent_job_id : JobId) : res Er (list (JobNode * JobEdge)) :=
  match get_job_node md parent_job_id with
  | Some node => details <$> json_children (md_job_graph md) (jd_id node)
  | None => Ok []
  end.

Definition get_execution_node (md : DagMetadata) (task_id : TaskId) : option (JsonNode ExecutionNode) :=
  iter_find (fun node => en_task_id (jd_detail node) = task_id) (jd_nodes (md_execution_graph md)).

Definition execution_parents {Er} (md : DagMetadata) (child_task_id : TaskId) : res Er (list (ExecutionNode * ExecutionEdge)) :=
  match get_execution_node md child_task_id with
  | Some node => details <$> json_parents (md_execution_graph md) (jd_id node)
  | None => Ok []
  end.

Definition execution_children {Er} (md : DagMetadata) (parent_task_id : TaskId) : res Er (list (ExecutionNode * ExecutionEdge)) :=
  match get_execution_node md parent_task_id with
  | Some node => details <$> json_children (md_execution_graph md) (jd_id node)
  | None => Ok []
  end.

(** What the metadata says of the graphs of a program. *)
Record metadata_ok (g : RawStreamGraph) (jg : JobGraph) (eg : ExecutionGraph) (md : DagMetadata) : Prop := {
  (** every operator is found *)
  mo_operator : forall n, n ∈ raw_nodes (dag g) -> md_stream_node md (sn_id n) = Some n;
  (** a job is found unless it is the one without edges among others with edges *)
  mo_job : forall i j, raw_nodes (jg_dag jg) !! i = Some j ->
    (listed (jg_dag jg) i -> md_job_node md (jn_job_id j) = Some j) /\ (~ listed (jg_dag jg) i -> md_job_node md (jn_job_id j) = None);
  (** the neighbours are those of the graph *)
  mo_job_neighbours : forall Er i j, raw_nodes (jg_dag jg) !! i = Some j ->
    job_parents (Er := Er) md (jn_job_id j) = Ok (graph_parents (jg_dag jg) i) /\
    job_children (Er := Er) md (jn_job_id j) = Ok (graph_children (jg_dag jg) i);
  mo_task_neighbours : forall Er i n, raw_nodes (eg_dag eg) !! i = Some n ->
    execution_parents (Er := Er) md (en_task_id n) = Ok (graph_parents (eg_dag eg) i) /\
    execution_children (Er := Er) md (en_task_id n) = Ok (graph_children (eg_dag eg) i);
  (** what is not in a graph is not found *)
  mo_no_job : forall id, id ∉ jn_job_id <$> raw_nodes (jg_dag jg) -> md_job_node md id = None;
  mo_no_task : forall Er t, t ∉ en_task_id <$> raw_nodes (eg_dag eg) ->
    execution_parents (Er := Er) md t = Ok [] /\ execution_children (Er := Er) md t = Ok []
}.

#[global] Instance listed_dec {N E} (d : Dag N E) i : Decision (listed d i).
Proof.
  destruct (raw_edges d) as [|e0 es] eqn:He; [left; by left|].
  destruct (decide (Exists (fun e => i = e_source e \/ i = e_target e) (raw_edges d))) as [Hx|Hx]; rewrite Exists_exists in Hx.
  - left. right. naive_solver.
  - right. intros [H|H]; [congruence|naive_solver].
Defined.

(** Finding a node, then following its edges. *)
Lemma found_neighbours {Er N E K} `{EqDecision K} (d : Dag N E) jd (key : N -> K) (parent : bool) i n :
  fits_u32 d -> edges_inside d -> lists d jd -> NoDup (key <$> raw_nodes d) -> raw_nodes d !! i = Some n ->
  match iter_find (fun x => key (jd_detail x) = key n) (jd_nodes jd) with
  | Some node => details <$> gets (Er := Er) jd (jd_id node) parent
  | None => Ok []
  end = Ok (if parent then graph_parents d i else graph_children d i).
Proof.
  intros Hf Hin Hjd Hnd Hn. destruct (find_by_key d jd Hjd key i n Hnd Hn) as [Hyes Hno]. destruct (decide (listed d i)) as [Hl|Hl].
  - rewrite (Hyes Hl). cbn [jd_id]. apply gets_spec; eauto using lookup_lt_Some.
  - rewrite (Hno Hl). destruct (unlisted_alone d i Hl) as [-> ->]. by destruct parent.
Qed.

Lemma operator_listed g i n : ginv g [] -> raw_nodes (dag g) !! i = Some n -> listed (dag g) i.
Proof.
  intros [Hg Hs] Hn. assert (abs g !! i = Some (abs_node n)) as Ha by (unfold abs; by rewrite list_lookup_fmap, Hn). right.
  destruct (decide (a_type (abs_node n) = OT_Sink)) as [Hty|Hty].
  - pose proof (sh_nodes _ _ Hs _ _ Ha) as Hok. unfold node_ok in Hok. rewrite decide_False in Hok by (by rewrite Hty).
    destruct Hok as (p & b & Hp & _). assert (p ∈ a_parents (abs_node n)) as Hin by (rewrite Hp; set_solver).
    rewrite (abs_parents g _ _ Hg Ha) in Hin. apply list_elem_of_fmap in Hin as (e & _ & He). apply list_elem_of_filter in He as [<- He]. eauto.
  - pose proof (sh_cover _ _ Hs _ _ Ha Hty) as Hin. rewrite app_nil_l, <- (edge_sources_perm g Hg) in Hin.
    apply list_elem_of_fmap in Hin as (e & -> & He). eauto.
Qed.

Lemma job_edges_inside g jg : job_graph_ok g jg -> edges_inside (jg_dag jg).
Proof.
  intros Hok. apply Forall_forall. intros [a b w] He. apply (jg_edges _ _ Hok) in He as (ja & jb & Ha & Hb & _). simpl. eauto using lookup_lt_Some.
Qed.

Lemma length_jobs g jg : job_graph_ok g jg -> (length (raw_nodes (jg_dag jg)) <= length (raw_nodes (dag g)))%nat.
Proof.
  intros Hok. rewrite <- (jg_partition _ _ Hok). generalize (jg_jobs _ _ Hok). generalize (raw_nodes (jg_dag jg)) as js.
  induction 1 as [|j js Hj _ IH]; [simpl; lia|]. destruct Hj as [(src & _ & Hh & _) _].
  rewrite fmap_cons. cbn [concat]. rewrite length_app. destruct (jn_stream_nodes j); [done|]. simpl. lia.
Qed.

Lemma metadata_of_graphs {Er} g ops dm :
  built g [] -> dm_stream_graph dm = sg_of g -> job_graph_ok g (dm_job_graph dm) ->
  execution_graph_ok (dm_job_graph dm) ops (dm_execution_graph dm) -> fits_u32 (eg_dag (dm_execution_graph dm)) ->
  exists md, DagMetadata_from (Er := Er) dm = Ok md /\ metadata_ok g (dm_job_graph dm) (dm_execution_graph dm) md.
Proof.
  intros Hb Hsg Hjg Heg Hfe. destruct (built_ok _ _ Hb) as [Hg Hs _]. unfold DagMetadata_from. rewrite Hsg. cbn [sg_of sg_dag].
  destruct (ri_gen g Hg) as [_ Hlen]. assert (fits_u32 (dag g)) as Hfs by (unfold fits_u32; lia).
  assert (fits_u32 (jg_dag (dm_job_graph dm))) as Hfj by (unfold fits_u32; pose proof (length_jobs _ _ Hjg); lia).
  assert (edges_inside (dag g)) as His by (eapply Forall_impl; [apply (ri_edges g Hg)|]; simpl; lia).
  pose proof (job_edges_inside _ _ Hjg) as Hij. pose proof (execution_in_range _ _ _ Heg) as Hie.
  destruct (JsonDag_from_ok (Er := Er) _ Hfs His) as (js & -> & Ls). destruct (JsonDag_from_ok (Er := Er) _ Hfj Hij) as (jj & -> & Lj).
  destruct (JsonDag_from_ok (Er := Er) _ Hfe Hie) as (je & -> & Le). eexists. split; [done|]. split; cbn.
  - intros n Hn. apply list_elem_of_lookup in Hn as [i Hn]. unfold md_stream_node, get_stream_node. cbn.
    assert (NoDup (sn_id <$> raw_nodes (dag g))) as Hnd.
    { apply NoDup_alt. intros a b id Ha Hb'. rewrite list_lookup_fmap, fmap_Some in Ha, Hb'. destruct Ha as (na & Ha & ->), Hb' as (nb & Hb' & Heq).
      apply (ri_ids g Hg) in Ha, Hb'. lia. }
    destruct (find_by_key _ _ Ls sn_id i n Hnd Hn) as [-> _]; [done|]. by eapply operator_listed.
  - intros i j Hj. unfold md_job_node, get_job_node. cbn. destruct (find_by_key _ _ Lj jn_job_id i j (jg_ids _ _ Hjg) Hj) as [Hy Hn].
    split; intros Hl; [by rewrite (Hy Hl)|by rewrite (Hn Hl)].
  - intros Er' i j Hj. split; [apply (found_neighbours _ _ jn_job_id true i j Hfj Hij Lj (jg_ids _ _ Hjg) Hj)|apply (found_neighbours _ _ jn_job_id false i j Hfj Hij Lj (jg_ids _ _ Hjg) Hj)].
  - intros Er' i n Hn. split; [apply (found_neighbours _ _ en_task_id true i n Hfe Hie Le (eg_ids _ _ _ Heg) Hn)|apply (found_neighbours _ _ en_task_id false i n Hfe Hie Le (eg_ids _ _ _ Heg) Hn)].
  - intros id Hid. unfold md_job_node, get_job_node. cbn. by rewrite (find_key_none _ _ Lj).
  - intros Er' t Ht. unfold execution_parents, execution_children, get_execution_node. cbn. by rewrite (find_key_none _ _ Le).
Qed.

(** The graphs of a program that ends its streams, has a parallelism at its sources and
    whose tasks and edges fit into a graph. *)
Record program_graphs (g : RawStreamGraph) (dm : DagManager) : Prop := {
  pg_built : built g [];
  pg_sources : forall n, user_source g n -> 0 < sn_parallelism n;
  pg_manager : exists fuel, (length (raw_nodes (dag g)) < fuel)%nat /\ DagManager_try_from fuel g = Some (Ok dm);
  pg_tasks : Z.of_nat (task_total (raw_nodes (jg_dag (dm_job_graph dm)))) <= 2 ^ 32 - 1;
  pg_edges : Z.of_nat (edge_total (dm_job_graph dm)) <= 2 ^ 32 - 1
}.

Lemma length_tasks jg ops eg : execution_graph_ok jg ops eg -> length (raw_nodes (eg_dag eg)) = task_total (raw_nodes (jg_dag jg)).
Proof.
  intros Hok. rewrite <- (length_fmap en_task_id), (eg_tasks _ _ _ Hok). unfold task_total.
  induction (raw_nodes (jg_dag jg)) as [|j js IH]; [done|]. rewrite fmap_cons. cbn [concat sum_list_with].
  by rewrite length_app, length_fmap, length_seq, IH.
Qed.

Lemma program_graphs_ok g dm : program_graphs g dm -> dm_stream_graph dm = sg_of g /\
  job_graph_ok g (dm_job_graph dm) /\ execution_graph_ok (dm_job_graph dm) (snd <$> operators g) (dm_execution_graph dm) /\
  fits_u32 (eg_dag (dm_execution_graph dm)).
Proof.
  intros [Hb Hu (fuel & Hf & Hdm) Ht He]. destruct (dag_manager_inv _ _ _ Hdm) as (Hsg & Hjg & Heg & _).
  pose proof (job_graph_builds g fuel Hb Hu Hf) as Hok. rewrite Hjg in Hok.
  pose proof (execution_graph_expand _ _ (job_graph_expandable g _ Hb Hok) Ht He) as Hx. rewrite Heg in Hx.
  split_and!; [done|done|done|]. unfold fits_u32. rewrite (length_tasks _ _ _ Hx). lia.
Qed.

(** C24: The metadata a worker gets is equivalent to the graphs: for every program whose
    graphs have been built, making it succeeds, it finds every operator, and the
    parents and children it gives for any job and any task are exactly the neighbours
    in the graph with the kinds of their edges, in the order of the edges. A job is
    found exactly when it has an edge or no job has one. *)
Theorem dag_metadata_spec {Er} g dm :
  program_graphs g dm ->
  exists md, DagMetadata_from (Er := Er) dm = Ok md /\ metadata_ok g (dm_job_graph dm) (dm_execution_graph dm) md.
Proof. intros Hp. destruct (program_graphs_ok _ _ Hp) as (Hsg & Hjg & Heg & Hf). by eapply metadata_of_graphs; [apply (pg_built _ _ Hp)|..]. Qed.
End dag_metadata.

(** ** Examples *)
#[local] Existing Instance ListDag.
#[local] Existing Instance id_order.

Definition prog_manager (cs : list ApiCall) : option DagManager :=
  match DagManager_try_from 20 (prog_graph cs) with Some (Ok dm) => Some dm | _ => None end.

Definition prog_ok (cs : list ApiCall) : bool :=
  is_ok (run_prog cs) && bool_decide (prog_live cs = []) && sources_positive (prog_graph cs) && (length (raw_nodes (dag (prog_graph cs))) <? 20)%nat &&
  match prog_manager cs with Some dm => fits (dm_job_graph dm) | None => false end.

Lemma prog_graphs cs dm : prog_ok cs = true -> prog_manager cs = Some dm -> program_graphs (prog_graph cs) dm.
Proof.
  unfold prog_ok. intros Hok Hdm. rewrite Hdm in Hok. apply andb_true_iff in Hok as [Hok Hf]. apply andb_true_iff in Hok as [Hok Hlen].
  apply andb_true_iff in Hok as [Hok Hs]. apply andb_true_iff in Hok as [Hr Hl]. apply bool_decide_eq_true in Hl. apply andb_true_iff in Hf as [Hf1 Hf2].
  split; [rewrite <- Hl; by apply prog_built|by apply sources_positive_spec| |by apply Z.leb_le|by apply Z.leb_le].
  exists 20%nat. split; [by apply Nat.ltb_lt|]. unfold prog_manager in Hdm. destruct (DagManager_try_from 20 (prog_graph cs)) as [[d| |]|]; by simplify_eq.
Qed.

(** The names of the nodes a worker finds for the aggregation beside an isolated source
    and sink: the job of the latter is missing. *)
Example ex_isolated_metadata :
  match prog_manager ex_isolated with
  | Some dm => match DagMetadata_from (Er := unit) dm with
               | Ok md => (md_job_node md 11, jn_job_id <$> md_job_node md 4, (fun p => jn_job_id p.1) <$> match job_parents (Er := unit) md 4 with Ok l => l | _ => [] end)
               | _ => (None, None, [])
               end
  | None => (None, None, [])
  end = (None, Some 4, [0]).
Proof. vm_compute. reflexivity. Qed.

Lemma dag_metadata_spec_witness :
  match prog_manager ex_aggregate with
  | Some dm => exists md, DagMetadata_from (Er := unit) dm = Ok md /\ metadata_ok (prog_graph ex_aggregate) (dm_job_graph dm) (dm_execution_graph dm) md
  | None => False
  end.
Proof.
  assert (prog_ok ex_aggregate = true) as Hok by (vm_compute; reflexivity).
  assert (match prog_manager ex_aggregate with Some _ => true | None => false end = true) as Hm by (vm_compute; reflexivity).
  pose proof (fun dm => prog_graphs ex_aggregate dm Hok) as Hg. destruct (prog_manager ex_aggregate) as [dm|]; [|discriminate Hm].
  apply (dag_metadata_spec (prog_graph ex_aggregate) dm). apply Hg. reflexivity.
Defined.
