(* ===== verification/Window.v ===== *)
(** * Window: event-time windows

    [TimeWindow] and [Window] (src/rlink/src/core/window.rs) and the sliding
    window assigner (src/rlink/src/functions/window/mod.rs). Timestamps are [u64]
    milliseconds; the assigner computes in [i64], so the definitions keep the
    conversions and the wrap-around. The assigning loop has fuel: [slide] is
    subtracted until the start leaves the window size, so
    [size / slide + 2] tests are enough ([assign_loop_run]). *)
From Stdlib Require Import ZArith Lia Sorted.
From stdpp Require Import base strings numbers option sets gmap list.
From S2P Require Import Prelude.

(** ** Windows *)
Record TimeWindow := mkTimeWindow { start : Z; end_ : Z }.

Definition intersects (w other : TimeWindow) : bool :=
  (start w <=? end_ other) && (start other <=? end_ w).

Definition cover (w other : TimeWindow) : TimeWindow :=
  mkTimeWindow (Z.min (start w) (start other)) (Z.max (end_ w) (end_ other)).

Definition get_window_start_with_offset {E} (timestamp offset window_size : Z) : res E Z :=
  let timestamp := wrap_i 64 timestamp in
  let window_size := wrap_i 64 window_size in
  r ← rem_i64 (timestamp -i64 offset +i64 window_size) window_size;
  Ok (timestamp -i64 r).

Inductive Window : Type := Window_TimeWindow (w : TimeWindow).

#[global] Instance TimeWindow_eq_dec : EqDecision TimeWindow.
Proof. solve_decision. Defined.
#[global] Instance TimeWindow_countable : Countable TimeWindow.
Proof.
  apply (inj_countable' (fun w => (start w, end_ w)) (fun '(s, e) => mkTimeWindow s e)).
  by intros [].
Defined.
#[global] Instance Window_eq_dec : EqDecision Window.
Proof. solve_decision. Defined.
#[global] Instance Window_countable : Countable Window.
Proof. apply (inj_countable' (fun '(Window_TimeWindow w) => w) Window_TimeWindow). by intros []. Defined.

(** The trait [TWindow] for [Window]. *)
Definition max_timestamp (w : Window) : Z := match w with Window_TimeWindow t => end_ t end.
Definition min_timestamp (w : Window) : Z := match w with Window_TimeWindow t => start t end.

Definition Window_default : Window := Window_TimeWindow (mkTimeWindow 0 0).

(** ** The sliding event-time assigner *)
Definition Offset_forward (millis : Z) : Z := wrap_i 64 millis.
Definition Offset_back (millis : Z) : Z := wrap_i 64 (wrap_i 64 millis * -1).

Record SlidingEventTimeWindows := mkSliding { sw_size : Z; sw_slide : Z; sw_offset : Z }.

(** The durations are given by their milliseconds ([Duration::as_millis], a [u128]). *)
Definition SlidingEventTimeWindows_new {E} (size slide : Z) (offset : option Z)
    : res E SlidingEventTimeWindows :=
  let size := wrap_u 64 size in
  let slide := wrap_u 64 slide in
  let offset := default 0 offset in
  if (slide <=? wrap_u 64 (wrap_i 64 (Z.abs offset))) || (size <=? 0)
  then Panic "SlidingEventTimeWindows parameters must satisfy offset.abs() < slide and size > 0"
  else Ok (mkSliding size slide offset).

(** The loop of [assign_windows]; [ws] is the vector filled so far. *)
Fixpoint assign_loop {E} (fuel : nat) (size slide timestamp start : Z) (ws : list Window)
    : res E (list Window) :=
  match fuel with
  | O => Panic "assign_windows: out of fuel"
  | S fuel' =>
      if wrap_i 64 timestamp -i64 wrap_i 64 size <? start then
        let ws :=
          if 0 <=? start
          then ws ++ [Window_TimeWindow (mkTimeWindow (wrap_u 64 start) (wrap_u 64 start +u64 size))]
          else ws in
        assign_loop fuel' size slide timestamp (start -i64 wrap_i 64 slide) ws
      else Ok ws
  end.

Definition assign_windows {E} (w : SlidingEventTimeWindows) (timestamp : Z) : res E (list Window) :=
  if sw_slide w =? 0 then Panic "attempt to divide by zero" else
  last_start ← get_window_start_with_offset timestamp (sw_offset w) (sw_slide w);
  let last_start := if last_start <? 0 then 0 else last_start in
  ws ← assign_loop (Z.to_nat (sw_size w / sw_slide w) + 2)
         (sw_size w) (sw_slide w) timestamp last_start [];
  Ok (sort_by_key min_timestamp ws).

(** ** Specification *)

(** An assigner as [SlidingEventTimeWindows_new] builds it, and a timestamp
    small enough for the [i64] arithmetic (year 4147 in milliseconds is below 2 ^ 46). *)
Definition sliding_wf (w : SlidingEventTimeWindows) : Prop :=
  0 < sw_size w < 2 ^ 61 /\ 0 < sw_slide w < 2 ^ 61 /\ Z.abs (sw_offset w) < sw_slide w.

Definition timestamp_wf (ts : Z) : Prop := 0 <= ts < 2 ^ 61.

(** [s] starts a window of the assigner that contains [ts]: it lies on the grid
    [offset + k * slide], or it is 0 when the grid has no start in [0, ts]. *)
Definition window_start_for (w : SlidingEventTimeWindows) (ts s : Z) : Prop :=
  0 <= s /\ s <= ts < s + sw_size w /\
  ((s - sw_offset w) mod sw_slide w = 0 \/ (s = 0 /\ ts < sw_offset w mod sw_slide w)).

Definition window_at (w : SlidingEventTimeWindows) (s : Z) : Window :=
  Window_TimeWindow (mkTimeWindow s (s + sw_size w)).

(** ** Lemmas *)

(** The descending starts the loop visits, without the machine arithmetic. *)
Fixpoint starts (n : nat) (slide s : Z) : list Z :=
  match n with
  | O => []
  | S n' => s :: starts n' slide (s - slide)
  end.

Lemma elem_of_starts n slide s x :
  x ∈ starts n slide s <-> exists k, (k < n)%nat /\ x = s - Z.of_nat k * slide.
Proof.
  revert s; induction n as [|n IH]; intros s; simpl.
  - rewrite elem_of_nil. split; [done|]. intros (k & ? & _). lia.
  - rewrite elem_of_cons, IH. split.
    + intros [->|(k & Hk & ->)]; [exists 0%nat|exists (S k)]; split; lia.
    + intros ([|k] & Hk & ->); [left; lia|right; exists k; split; lia].
Qed.

Section assign.
Context (w : SlidingEventTimeWindows) (ts : Z) (Hw : sliding_wf w) (Hts : timestamp_wf ts).

(** Number of starts greater than [ts - size] from [s] downwards. *)
Definition steps (s : Z) : nat := Z.to_nat ((s - (ts - sw_size w) + sw_slide w - 1) / sw_slide w).

Lemma steps_le s : s <= ts -> (steps s <= Z.to_nat (sw_size w / sw_slide w) + 1)%nat.
Proof using Hw.
  destruct Hw as (? & ? & ?). intros Hs. unfold steps.
  assert ((s - (ts - sw_size w) + sw_slide w - 1) / sw_slide w <= sw_size w / sw_slide w + 1).
  { rewrite <- Z.div_add by lia. apply Z.div_le_mono; lia. }
  assert (0 <= sw_size w / sw_slide w) by (apply Z.div_pos; lia). lia.
Qed.

Lemma steps_spec s k : - 2 ^ 62 <= s -> (Z.of_nat k < Z.of_nat (steps s) <-> ts - sw_size w < s - Z.of_nat k * sw_slide w).
Proof using Hw.
  destruct Hw as (? & ? & ?). intros _. unfold steps. set (d := s - (ts - sw_size w)).
  assert (Z.of_nat k < (d + sw_slide w - 1) / sw_slide w <-> Z.of_nat k * sw_slide w < d) as Hk.
  { split; intros.
    - assert (Z.of_nat k + 1 <= (d + sw_slide w - 1) / sw_slide w) by lia.
      assert (sw_slide w * ((d + sw_slide w - 1) / sw_slide w) <= d + sw_slide w - 1)
        by (apply Z.mul_div_le; lia). nia.
    - apply Z.lt_le_trans with (Z.of_nat k + 1); [lia|]. apply Z.div_le_lower_bound; lia. }
  destruct (Z.le_gt_cases 0 ((d + sw_slide w - 1) / sw_slide w)); lia.
Qed.

(** With enough fuel the loop stops, having pushed the window of every
    nonnegative start it visited. *)
Lemma assign_loop_run {E} fuel s ws :
  - 2 ^ 62 <= s <= ts -> (steps s < fuel)%nat ->
  assign_loop (E:=E) fuel (sw_size w) (sw_slide w) ts s ws =
    Ok (ws ++ (window_at w <$> filter (fun x => 0 <= x) (starts (steps s) (sw_slide w) s))).
Proof using Hw Hts.
  destruct Hw as (? & ? & ?). unfold timestamp_wf in Hts.
  revert s ws; induction fuel as [|fuel IH]; intros s ws Hs Hf; [lia|]. simpl assign_loop.
  rewrite !(wrap_i64_small ts), !(wrap_i64_small (sw_size w)), !(wrap_i64_small (sw_slide w)) by lia.
  rewrite (wrap_i64_small (ts - _)) by lia.
  pose proof (steps_spec s 0 (proj1 Hs)) as Hst0. rewrite Z.mul_0_l, Z.sub_0_r in Hst0.
  destruct (Z.ltb_spec (ts - sw_size w) s) as [Hlt|Hge].
  - rewrite (wrap_i64_small (s - _)) by lia.
    assert (steps s = S (steps (s - sw_slide w))) as Hst.
    { unfold steps. replace (s - sw_slide w - (ts - sw_size w) + sw_slide w - 1)
        with ((s - (ts - sw_size w) + sw_slide w - 1) + (-1) * sw_slide w) by lia.
      rewrite Z.div_add by lia.
      assert (0 < (s - (ts - sw_size w) + sw_slide w - 1) / sw_slide w)
        by (apply Z.div_str_pos; lia). lia. }
    rewrite IH by lia. rewrite Hst. cbn [starts]. rewrite filter_cons.
    destruct (Z.leb_spec 0 s); case_decide; try lia; [|done].
    rewrite !wrap_u64_small by (rewrite ?wrap_u64_small; lia).
    cbn [fmap list_fmap]. by rewrite <- (assoc_L (++)).
  - assert (steps s = 0%nat) as -> by lia. simpl. by rewrite app_nil_r.
Qed.

(** The aligned start computed from the remainder. *)
Lemma window_start_value {E} :
  get_window_start_with_offset (E:=E) ts (sw_offset w) (sw_slide w) =
    Ok (ts - Z.rem (ts - sw_offset w + sw_slide w) (sw_slide w)).
Proof using Hw Hts.
  destruct Hw as (? & ? & ?). unfold timestamp_wf in Hts. unfold get_window_start_with_offset.
  rewrite !(wrap_i64_small ts), !(wrap_i64_small (sw_slide w)) by lia.
  rewrite (wrap_i64_small (ts - _)), (wrap_i64_small (_ + _)) by lia.
  unfold rem_i64. destruct (Z.eqb_spec (sw_slide w) 0); [lia|].
  destruct (Z.eqb_spec (sw_slide w) (-1)); [lia|]. cbn [andb]. run_bind.
  rewrite wrap_i64_small; [done|].
  pose proof (Z.rem_bound_pos (ts - sw_offset w + sw_slide w) (sw_slide w)). lia.
Qed.

(** The greatest grid point not after [ts], clamped at 0 by the code. *)
Definition last_start : Z := Z.max 0 (ts - (ts - sw_offset w) mod sw_slide w).

Lemma window_start_last {E} :
  (s ← get_window_start_with_offset (E:=E) ts (sw_offset w) (sw_slide w);
   Ok (if s <? 0 then 0 else s)) = Ok last_start.
Proof using Hw Hts.
  rewrite window_start_value. run_bind. f_equal. unfold last_start.
  destruct Hw as (? & ? & ?). unfold timestamp_wf in Hts.
  rewrite Z.rem_mod_nonneg by lia.
  replace (ts - sw_offset w + sw_slide w) with (ts - sw_offset w + 1 * sw_slide w) by lia.
  rewrite Z_mod_plus_full. crush.
Qed.

Lemma last_start_range : 0 <= last_start <= ts.
Proof using Hw Hts.
  destruct Hw as (? & ? & ?). unfold timestamp_wf, last_start in *.
  pose proof (Z.mod_pos_bound (ts - sw_offset w) (sw_slide w)). lia.
Qed.

(** The nonnegative starts the loop visits are those the specification names. *)
Lemma elem_of_assigned s :
  s ∈ filter (fun x => 0 <= x) (starts (steps last_start) (sw_slide w) last_start) <->
  window_start_for w ts s.
Proof using Hw Hts.
  pose proof last_start_range as Hlr. pose proof Hw as (Hsz & Hsl & Ho). pose proof Hts as Ht.
  unfold timestamp_wf in Ht.
  rewrite list_elem_of_filter, elem_of_starts. unfold window_start_for.
  pose proof (Z.mod_pos_bound (ts - sw_offset w) (sw_slide w)) as Hm.
  pose proof (Z.mod_pos_bound (sw_offset w) (sw_slide w)) as Hom.
  pose proof (Z.div_mod (ts - sw_offset w) (sw_slide w)) as Hd.
  pose proof (Z.div_mod (sw_offset w) (sw_slide w)) as Hod.
  set (q := (ts - sw_offset w) / sw_slide w) in *. set (m := (ts - sw_offset w) mod sw_slide w) in *.
  set (oq := sw_offset w / sw_slide w) in *. set (om := sw_offset w mod sw_slide w) in *.
  assert (Hls : last_start = Z.max 0 (ts - m)) by done.
  split.
  - intros (Hs0 & k & Hk & ->). apply Nat2Z.inj_lt in Hk.
    apply steps_spec in Hk; [|lia]. split; [done|]. split; [lia|].
    destruct (Z.le_gt_cases 0 (ts - m)) as [Hp|Hn].
    + left. replace (last_start - Z.of_nat k * sw_slide w - sw_offset w)
        with ((q - Z.of_nat k) * sw_slide w) by lia. apply Z_mod_mult.
    + right. assert (last_start = 0) as Hl0 by lia. split; [nia|].
      assert (q + oq <= -1) by nia. nia.
  - intros (Hs0 & Hin & [Hal|[-> Hlt]]).
    + apply Z.div_exact in Hal; [|lia]. set (p := (s - sw_offset w) / sw_slide w) in *.
      assert (p <= q) by nia. assert (0 <= ts - m) by nia.
      split; [done|]. exists (Z.to_nat (q - p)).
      assert (s = last_start - Z.of_nat (Z.to_nat (q - p)) * sw_slide w) by nia.
      split; [|done]. apply Nat2Z.inj_lt, steps_spec; lia.
    + assert (q + oq <= -1) by nia. assert (last_start = 0) as -> by nia.
      split; [done|]. exists 0%nat. split; [|lia]. apply Nat2Z.inj_lt, steps_spec; lia.
Qed.

Lemma NoDup_starts n s : NoDup (starts n (sw_slide w) s).
Proof using Hw.
  destruct Hw as (? & ? & ?). revert s; induction n as [|n IH]; intros s; simpl; constructor; [|done].
  rewrite elem_of_starts. intros (k & ? & ?). nia.
Qed.

Lemma length_starts n slide s : length (starts n slide s) = n.
Proof using. revert s; induction n; intros s; simpl; auto. Qed.

(** The value of [assign_windows]. *)
Lemma assign_windows_run {E} :
  assign_windows (E:=E) w ts =
    Ok (sort_by_key min_timestamp
          (window_at w <$> filter (fun x => 0 <= x) (starts (steps last_start) (sw_slide w) last_start))).
Proof using Hw Hts.
  pose proof Hw as (? & ? & ?). unfold assign_windows.
  destruct (Z.eqb_spec (sw_slide w) 0); [lia|]. pose proof last_start_range.
  pose proof (window_start_last (E:=E)) as Hl.
  destruct (get_window_start_with_offset ts _ _) as [s0| |]; try discriminate Hl.
  revert Hl; run_bind; intros [= Hl]. rewrite Hl, assign_loop_run; [done|lia|].
  pose proof (steps_le last_start). lia.
Qed.
End assign.

(** What [SlidingEventTimeWindows::new] accepts is what the assigner needs. *)
Lemma SlidingEventTimeWindows_new_ok {E} size slide offset w :
  0 <= size < 2 ^ 61 -> 0 <= slide < 2 ^ 61 -> Z.abs (default 0 offset) < 2 ^ 63 ->
  SlidingEventTimeWindows_new (E:=E) size slide offset = Ok w -> sliding_wf w.
Proof.
  intros Hs Hl Ho. unfold SlidingEventTimeWindows_new.
  rewrite !(wrap_u64_small size), !(wrap_u64_small slide), (wrap_i64_small (Z.abs _)) by lia.
  rewrite wrap_u64_small by lia. crush. intros; simplify_eq. unfold sliding_wf; simpl; lia.
Qed.

(** C14: for an assigner with [size > 0], [slide > 0] and [|offset| < slide] and a
    representable timestamp, [assign_windows] terminates without panicking and
    returns, in strictly increasing order of start, exactly the windows
    from [s] (inclusive) to [s + size] (exclusive) that contain the timestamp and whose start is a
    nonnegative point of the grid [offset + k * slide] (or 0, before the first
    nonnegative grid point); at most [size / slide + 1] of them. *)
Theorem assign_windows_correct (w : SlidingEventTimeWindows) (ts : Z) :
  sliding_wf w -> timestamp_wf ts ->
  exists ws, assign_windows (E:=string) w ts = Ok ws /\
    StronglySorted (fun a b => min_timestamp a < min_timestamp b) ws /\
    (forall win, win ∈ ws <-> exists s, window_start_for w ts s /\ win = window_at w s) /\
    Z.of_nat (length ws) <= sw_size w / sw_slide w + 1.
Proof.
  intros Hw Hts. eexists. split; [by apply assign_windows_run|]. split_and!.
  - apply sorted_by_strict; [apply sort_by_key_sorted|].
    rewrite sort_by_key_perm, <- list_fmap_compose.
    change (min_timestamp ∘ window_at w) with (fun s : Z => s). rewrite list_fmap_id.
    by apply NoDup_filter, NoDup_starts.
  - intros win. rewrite elem_of_sort_by_key, list_elem_of_fmap.
    split; intros (s & H1 & H2); exists s; split; try done; by apply elem_of_assigned.
  - rewrite length_sort_by_key, length_fmap.
    pose proof (length_filter (fun x => 0 <= x) (starts (steps w ts (last_start w ts)) (sw_slide w) (last_start w ts))).
    rewrite length_starts in H. pose proof (steps_le w ts Hw (last_start w ts) (proj2 (last_start_range w ts Hw Hts))).
    destruct Hw as (? & ? & ?). assert (0 <= sw_size w / sw_slide w) by (apply Z.div_pos; lia). lia.
Qed.

Lemma assign_windows_correct_witness :
  sliding_wf (mkSliding 20 10 3) /\ timestamp_wf 35 /\
  exists ws, assign_windows (E:=string) (mkSliding 20 10 3) 35 = Ok ws /\
    StronglySorted (fun a b => min_timestamp a < min_timestamp b) ws /\
    (forall win, win ∈ ws <-> exists s, window_start_for (mkSliding 20 10 3) 35 s /\
       win = window_at (mkSliding 20 10 3) s) /\
    Z.of_nat (length ws) <= 3.
Proof.
  split; [unfold sliding_wf; simpl; lia|]. split; [unfold timestamp_wf; lia|].
  apply (assign_windows_correct (mkSliding 20 10 3) 35); [unfold sliding_wf; simpl; lia|].
  unfold timestamp_wf; lia.
Defined.

Example assign_windows_35 :
  assign_windows (E:=string) (mkSliding 20 10 3) 35 =
    Ok [window_at (mkSliding 20 10 3) 23; window_at (mkSliding 20 10 3) 33].
Proof. vm_compute. reflexivity. Qed.
