(* ===== verification/Element.v ===== *)
(** * Element: stream elements and their wire format (src/rlink/src/core/element.rs)

    The four kinds of element that flow through a job (records, watermarks,
    stream statuses and checkpoint barriers), the operations on them, the trait
    [Partition] and the trait [Serde] for each. The buffer of a record is the
    [Buffer] of the interface [SerBuffer]; bytes go through [BytesApi].

    The equality of two records is that of their value bytes ([record_eqb]).
    Serialization keeps less than the whole element: [Element_sent e e'] says
    which parts of [e] reach the other side as [e']. *)
From Stdlib Require Import ZArith Lia Sorted.
From stdpp Require Import base strings numbers option sets gmap list.
From S2P Require Import Prelude Bytes BTreeMap Runtime Window.

Definition SER_DE_RECORD : Z := 1.
Definition SER_DE_WATERMARK : Z := 2.
Definition SER_DE_STREAM_STATUS : Z := 3.
Definition SER_DE_BARRIER : Z := 4.

(** The timestamps of the constants of src/rlink/src/core/watermark.rs. *)
Definition MAX_WATERMARK : Z := 253402185600000.
Definition MIN_WATERMARK : Z := 0.
Definition IDLE_WATERMARK : Z := MAX_WATERMARK + 1.

Section element.
Context {BA : BytesApi} {SB : SerBuffer}.

(** ** Records *)
Record record := mkRecord {
  r_partition_num : Z;
  r_timestamp : Z;
  r_channel_key : ChannelKey;
  r_location_windows : option (list Window);
  r_trigger_window : option Window;
  r_values : Buffer
}.

(** [Record::new]; [Record::with_capacity] differs only in the memory reserved. *)
Definition Record_new : record := mkRecord 0 0 ChannelKey_default None None buf_new.

(** [impl Ord for Record] and [impl PartialEq for Record]: on the value bytes. *)
Definition record_cmp (r other : record) : comparison :=
  slice_cmp (as_slice (r_values r)) (as_slice (r_values other)).
Definition record_eqb (r other : record) : bool :=
  bool_decide (as_slice (r_values r) = as_slice (r_values other)).

Definition arity (r : record) : Z := buf_len (r_values r).

Definition set_values (v : Buffer) (r : record) : record :=
  mkRecord (r_partition_num r) (r_timestamp r) (r_channel_key r)
    (r_location_windows r) (r_trigger_window r) v.

Definition extend (r other : record) : res string record :=
  v ← buf_extend (r_values r) (r_values other); Ok (set_values v r).

Definition set_timestamp (ts : Z) (r : record) : record :=
  mkRecord (r_partition_num r) ts (r_channel_key r)
    (r_location_windows r) (r_trigger_window r) (r_values r).

Definition set_location_windows (windows : list Window) (r : record) : record :=
  mkRecord (r_partition_num r) (r_timestamp r) (r_channel_key r)
    (Some windows) (r_trigger_window r) (r_values r).

Definition location_windows (r : record) : list Window := default [] (r_location_windows r).

Definition min_location_window (r : record) : option Window :=
  match r_location_windows r with
  | Some windows => windows !! 0%nat
  | None => None
  end.

Definition max_location_window (r : record) : option Window :=
  match r_location_windows r with
  | Some windows =>
      if (0 <? length windows)%nat then windows !! (length windows - 1)%nat else None
  | None => None
  end.

Definition set_window_trigger (window : Window) (r : record) : record :=
  mkRecord (r_partition_num r) (r_timestamp r) (r_channel_key r)
    (r_location_windows r) (Some window) (r_values r).

Definition record_set_partition (p : Z) (r : record) : record :=
  mkRecord p (r_timestamp r) (r_channel_key r)
    (r_location_windows r) (r_trigger_window r) (r_values r).

Definition record_set_channel_key (k : ChannelKey) (r : record) : record :=
  mkRecord (r_partition_num r) (r_timestamp r) k
    (r_location_windows r) (r_trigger_window r) (r_values r).

Definition record_serialize (r : record) (bytes : list Z) : res string (list Z) :=
  let value_len := buf_len (r_values r) in
  let bytes := put_u8 SER_DE_RECORD bytes in
  let bytes := put_u16 (r_partition_num r) bytes in
  let bytes := put_u64 (r_timestamp r) bytes in
  let bytes := put_u32 (wrap_u 32 value_len) bytes in
  let data_slice := as_slice (r_values r) in
  _ ← assert_that (Z.of_nat (length data_slice) =? value_len) "assertion failed";
  Ok (put_slice data_slice bytes).

Definition record_deserialize (bytes : list Z) : res string (record * list Z) :=
  '(flag, bytes) ← get_u8 bytes;
  _ ← assert_that (flag =? SER_DE_RECORD) "Invalid `Record` flag";
  '(partition_num, bytes) ← get_u16 bytes;
  '(timestamp, bytes) ← get_u64 bytes;
  '(value_len, bytes) ← get_u32 bytes;
  _ ← assert_that (remaining bytes =? value_len) "assertion failed";
  '(values, bytes) ← unwrap "split_to out of bounds" (split_to value_len bytes);
  Ok (mkRecord partition_num timestamp ChannelKey_default None None (buf_from values), bytes).

#[global] Instance record_Serde : Serde record := {|
  capacity := fun r => 15 + buf_len (r_values r);
  serialize := record_serialize;
  deserialize := record_deserialize
|}.

(** ** Watermarks *)
Record Watermark := mkWatermark {
  w_partition_num : Z;
  w_timestamp : Z;
  w_channel_key : ChannelKey;
  w_location_windows : option (list Window);
  w_downstream : bool;
  w_drop_windows : option (list Window)
}.

Definition Watermark_new (timestamp : Z) : Watermark :=
  mkWatermark 0 timestamp ChannelKey_default None false None.

Definition watermark_set_location_windows (windows : list Window) (w : Watermark) : Watermark :=
  mkWatermark (w_partition_num w) (w_timestamp w) (w_channel_key w)
    (Some windows) (w_downstream w) (w_drop_windows w).

Definition min_location_windows (w : Watermark) : option Window :=
  match w_location_windows w with
  | Some windows => windows !! 0%nat
  | None => None
  end.

Definition is_min (w : Watermark) : bool := w_timestamp w =? MIN_WATERMARK.
Definition is_max (w : Watermark) : bool := w_timestamp w =? MAX_WATERMARK.
Definition watermark_end (w : Watermark) : bool := is_max w.

Definition watermark_set_partition (p : Z) (w : Watermark) : Watermark :=
  mkWatermark p (w_timestamp w) (w_channel_key w)
    (w_location_windows w) (w_downstream w) (w_drop_windows w).

Definition watermark_set_channel_key (k : ChannelKey) (w : Watermark) : Watermark :=
  mkWatermark (w_partition_num w) (w_timestamp w) k
    (w_location_windows w) (w_downstream w) (w_drop_windows w).

Definition watermark_serialize (w : Watermark) (bytes : list Z) : res string (list Z) :=
  Ok (put_u64 (w_timestamp w) (put_u16 (w_partition_num w) (put_u8 SER_DE_WATERMARK bytes))).

Definition watermark_deserialize (bytes : list Z) : res string (Watermark * list Z) :=
  '(flag, bytes) ← get_u8 bytes;
  _ ← assert_that (flag =? SER_DE_WATERMARK) "Invalid `Watermark` flag";
  '(partition_num, bytes) ← get_u16 bytes;
  '(timestamp, bytes) ← get_u64 bytes;
  Ok (mkWatermark partition_num timestamp ChannelKey_default None false None, bytes).

#[global] Instance watermark_Serde : Serde Watermark := {|
  capacity := fun _ => 11;
  serialize := watermark_serialize;
  deserialize := watermark_deserialize
|}.

(** ** Stream statuses *)
Record StreamStatus := mkStreamStatus {
  ss_partition_num : Z;
  ss_timestamp : Z;
  ss_channel_key : ChannelKey;
  ss_end : bool
}.

Definition StreamStatus_new (timestamp : Z) (end_ : bool) : StreamStatus :=
  mkStreamStatus 0 timestamp ChannelKey_default end_.

Definition stream_status_set_partition (p : Z) (s : StreamStatus) : StreamStatus :=
  mkStreamStatus p (ss_timestamp s) (ss_channel_key s) (ss_end s).

Definition stream_status_set_channel_key (k : ChannelKey) (s : StreamStatus) : StreamStatus :=
  mkStreamStatus (ss_partition_num s) (ss_timestamp s) k (ss_end s).

Definition stream_status_serialize (s : StreamStatus) (bytes : list Z) : res string (list Z) :=
  let end_ := if ss_end s then 1 else 0 in
  Ok (put_u64 (ss_timestamp s) (put_u8 end_ (put_u8 SER_DE_STREAM_STATUS bytes))).

Definition stream_status_deserialize (bytes : list Z) : res string (StreamStatus * list Z) :=
  '(flag, bytes) ← get_u8 bytes;
  _ ← assert_that (flag =? SER_DE_STREAM_STATUS) "Invalid `StreamStatus` flag";
  '(end_, bytes) ← get_u8 bytes;
  '(timestamp, bytes) ← get_u64 bytes;
  Ok (mkStreamStatus 0 timestamp ChannelKey_default (end_ =? 1), bytes).

#[global] Instance stream_status_Serde : Serde StreamStatus := {|
  capacity := fun _ => 10;
  serialize := stream_status_serialize;
  deserialize := stream_status_deserialize
|}.

(** ** Barriers *)
Record Barrier := mkBarrier {
  b_partition_num : Z;
  b_checkpoint_id : CheckpointId;
  b_completed_checkpoint_id : CheckpointId
}.

Definition Barrier_new (checkpoint_id : CheckpointId) : Barrier := mkBarrier 0 checkpoint_id 0.

Definition set_completed_checkpoint_id (id : CheckpointId) (b : Barrier) : Barrier :=
  if b_completed_checkpoint_id b <? id
  then mkBarrier (b_partition_num b) (b_checkpoint_id b) id
  else b.

Definition completed_checkpoint_id (b : Barrier) : option CheckpointId :=
  if ck_is_default (b_completed_checkpoint_id b) then None
  else Some (b_completed_checkpoint_id b).

Definition barrier_set_partition (p : Z) (b : Barrier) : Barrier :=
  mkBarrier p (b_checkpoint_id b) (b_completed_checkpoint_id b).

Definition barrier_serialize (b : Barrier) (bytes : list Z) : res string (list Z) :=
  Ok (put_u64 (b_completed_checkpoint_id b) (put_u64 (b_checkpoint_id b)
       (put_u16 (b_partition_num b) (put_u8 SER_DE_BARRIER bytes)))).

Definition barrier_deserialize (bytes : list Z) : res string (Barrier * list Z) :=
  '(flag, bytes) ← get_u8 bytes;
  _ ← assert_that (flag =? SER_DE_BARRIER) "Invalid `Barrier` flag";
  '(partition_num, bytes) ← get_u16 bytes;
  '(checkpoint_id, bytes) ← get_u64 bytes;
  '(completed_checkpoint_id, bytes) ← get_u64 bytes;
  Ok (mkBarrier partition_num checkpoint_id completed_checkpoint_id, bytes).

#[global] Instance barrier_Serde : Serde Barrier := {|
  capacity := fun _ => 19;
  serialize := barrier_serialize;
  deserialize := barrier_deserialize
|}.

(** ** Elements *)
Inductive Element : Type :=
  | Element_Record (r : record)
  | Element_Watermark (w : Watermark)
  | Element_StreamStatus (s : StreamStatus)
  | Element_Barrier (b : Barrier).

Definition new_watermark (timestamp : Z) : Element := Element_Watermark (Watermark_new timestamp).
Definition max_watermark : Element := new_watermark MAX_WATERMARK.
Definition new_stream_status (timestamp : Z) (end_ : bool) : Element :=
  Element_StreamStatus (StreamStatus_new timestamp end_).
Definition new_barrier (checkpoint_id : CheckpointId) : Element :=
  Element_Barrier (Barrier_new checkpoint_id).

Definition is_record (e : Element) : bool :=
  match e with Element_Record _ => true | _ => false end.
Definition is_watermark (e : Element) : bool :=
  match e with Element_Watermark _ => true | _ => false end.
Definition is_stream_status (e : Element) : bool :=
  match e with Element_StreamStatus _ => true | _ => false end.
Definition is_barrier (e : Element) : bool :=
  match e with Element_Barrier _ => true | _ => false end.

Definition into_record {E} (e : Element) : res E record :=
  match e with Element_Record r => Ok r | _ => Panic "Element is not Record" end.
Definition as_watermark {E} (e : Element) : res E Watermark :=
  match e with Element_Watermark w => Ok w | _ => Panic "Element is not Watermark" end.
Definition as_stream_status {E} (e : Element) : res E StreamStatus :=
  match e with Element_StreamStatus s => Ok s | _ => Panic "Element is not StreamStatus" end.
Definition as_barrier {E} (e : Element) : res E Barrier :=
  match e with Element_Barrier b => Ok b | _ => Panic "Element is not Barrier" end.

Definition set_channel_key (k : ChannelKey) (e : Element) : Element :=
  match e with
  | Element_Record r => Element_Record (record_set_channel_key k r)
  | Element_Watermark w => Element_Watermark (watermark_set_channel_key k w)
  | Element_StreamStatus s => Element_StreamStatus (stream_status_set_channel_key k s)
  | Element_Barrier b => Element_Barrier b
  end.

Definition partition (e : Element) : Z :=
  match e with
  | Element_Record r => r_partition_num r
  | Element_StreamStatus s => ss_partition_num s
  | Element_Watermark w => w_partition_num w
  | Element_Barrier b => b_partition_num b
  end.

Definition set_partition (p : Z) (e : Element) : Element :=
  match e with
  | Element_Record r => Element_Record (record_set_partition p r)
  | Element_StreamStatus s => Element_StreamStatus (stream_status_set_partition p s)
  | Element_Watermark w => Element_Watermark (watermark_set_partition p w)
  | Element_Barrier b => Element_Barrier (barrier_set_partition p b)
  end.

Definition element_capacity (e : Element) : Z :=
  match e with
  | Element_Record r => capacity r
  | Element_Watermark w => capacity w
  | Element_StreamStatus s => capacity s
  | Element_Barrier b => capacity b
  end.

Definition element_serialize (e : Element) (bytes : list Z) : res string (list Z) :=
  match e with
  | Element_Record r => serialize r bytes
  | Element_Watermark w => serialize w bytes
  | Element_StreamStatus s => serialize s bytes
  | Element_Barrier b => serialize b bytes
  end.

Definition element_deserialize (bytes : list Z) : res string (Element * list Z) :=
  tag ← unwrap "index out of bounds" (bytes !! 0%nat);
  if tag =? SER_DE_RECORD then
    '(r, bytes) ← deserialize bytes; Ok (Element_Record r, bytes)
  else if tag =? SER_DE_WATERMARK then
    '(w, bytes) ← deserialize bytes; Ok (Element_Watermark w, bytes)
  else if tag =? SER_DE_STREAM_STATUS then
    '(s, bytes) ← deserialize bytes; Ok (Element_StreamStatus s, bytes)
  else if tag =? SER_DE_BARRIER then
    '(b, bytes) ← deserialize bytes; Ok (Element_Barrier b, bytes)
  else Panic "Unknown tag".

#[global] Instance element_Serde : Serde Element := {|
  capacity := element_capacity;
  serialize := element_serialize;
  deserialize := element_deserialize
|}.
End element.

(** ** What serialization keeps *)
Section sent.
Context {BA : BytesApi} {SB : SerBuffer}.

(** The values of the Rust types whose length field does not overflow. *)
Definition record_wf (r : record) : Prop :=
  in_u 16 (r_partition_num r) /\ in_u 64 (r_timestamp r) /\ in_u 32 (buf_len (r_values r)).
Definition watermark_wf (w : Watermark) : Prop :=
  in_u 16 (w_partition_num w) /\ in_u 64 (w_timestamp w).
Definition stream_status_wf (s : StreamStatus) : Prop := in_u 64 (ss_timestamp s).
Definition barrier_wf (b : Barrier) : Prop :=
  in_u 16 (b_partition_num b) /\ in_u 64 (b_checkpoint_id b) /\ in_u 64 (b_completed_checkpoint_id b).

Definition Element_wf (e : Element) : Prop :=
  match e with
  | Element_Record r => record_wf r
  | Element_Watermark w => watermark_wf w
  | Element_StreamStatus s => stream_status_wf s
  | Element_Barrier b => barrier_wf b
  end.

(** A record arrives with its partition, timestamp and value bytes (in a buffer made
    of them), and without its channel key and windows. *)
Definition record_sent (r r' : record) : Prop :=
  r_partition_num r' = r_partition_num r /\ r_timestamp r' = r_timestamp r /\
  as_slice (r_values r') = as_slice (r_values r) /\
  r_channel_key r' = ChannelKey_default /\ r_location_windows r' = None /\ r_trigger_window r' = None /\
  r_values r' = buf_from (as_slice (r_values r)).

Definition watermark_sent (w w' : Watermark) : Prop :=
  w' = mkWatermark (w_partition_num w) (w_timestamp w) ChannelKey_default None false None.

(** A stream status arrives without its partition. *)
Definition stream_status_sent (s s' : StreamStatus) : Prop :=
  s' = StreamStatus_new (ss_timestamp s) (ss_end s).

Definition Element_sent (e e' : Element) : Prop :=
  match e, e' with
  | Element_Record r, Element_Record r' => record_sent r r'
  | Element_Watermark w, Element_Watermark w' => watermark_sent w w'
  | Element_StreamStatus s, Element_StreamStatus s' => stream_status_sent s s'
  | Element_Barrier b, Element_Barrier b' => b' = b
  | _, _ => False
  end.

Definition tag_of (e : Element) : Z :=
  match e with
  | Element_Record _ => SER_DE_RECORD
  | Element_Watermark _ => SER_DE_WATERMARK
  | Element_StreamStatus _ => SER_DE_STREAM_STATUS
  | Element_Barrier _ => SER_DE_BARRIER
  end.

(** The bytes of an element: tag, then the fields. *)
Definition wire (e : Element) : list Z :=
  be_encode 1 (tag_of e) ++
  match e with
  | Element_Record r =>
      be_encode 2 (r_partition_num r) ++ be_encode 8 (r_timestamp r) ++
      be_encode 4 (wrap_u 32 (buf_len (r_values r))) ++ as_slice (r_values r)
  | Element_Watermark w => be_encode 2 (w_partition_num w) ++ be_encode 8 (w_timestamp w)
  | Element_StreamStatus s =>
      be_encode 1 (if ss_end s then 1 else 0) ++ be_encode 8 (ss_timestamp s)
  | Element_Barrier b =>
      be_encode 2 (b_partition_num b) ++ be_encode 8 (b_checkpoint_id b) ++
      be_encode 8 (b_completed_checkpoint_id b)
  end.

Lemma element_serialize_wire e b : serialize e b = Ok (b ++ wire e).
Proof.
  destruct e as [r|w|s|b']; cbn [serialize element_Serde element_serialize
    record_Serde watermark_Serde stream_status_Serde barrier_Serde];
    unfold record_serialize, watermark_serialize, stream_status_serialize, barrier_serialize, wire;
    rewrite ?buf_len_slice, ?Z.eqb_refl; cbn [assert_that]; put_bytes; done.
Qed.

Lemma length_wire e : Z.of_nat (length (wire e)) = capacity e.
Proof.
  unfold wire. destruct e as [r|w|s|b]; cbn [capacity element_Serde element_capacity
    record_Serde watermark_Serde stream_status_Serde barrier_Serde];
    rewrite !length_app, !length_be_encode, ?buf_len_slice; lia.
Qed.

Lemma be_encode_1 v : in_u 8 v -> be_encode 1 v = [v].
Proof.
  intros Hv. Transparent be_encode. simpl. Opaque be_encode.
  rewrite Z.div_1_r, Z.mod_small by done. done.
Qed.

Lemma tag_of_u8 e : in_u 8 (tag_of e).
Proof. unfold in_u. destruct e; simpl; unfold SER_DE_RECORD, SER_DE_WATERMARK, SER_DE_STREAM_STATUS, SER_DE_BARRIER; lia. Qed.

Lemma wire_tag e : wire e !! 0%nat = Some (tag_of e).
Proof. unfold wire. by rewrite be_encode_1 by apply tag_of_u8. Qed.

(** The reading of the length field of a record and of the bytes after it,
    whatever follows: everything that the format can get wrong is decided here. *)
Lemma record_deserialize_wire r extra :
  in_u 16 (r_partition_num r) -> in_u 64 (r_timestamp r) ->
  record_deserialize (wire (Element_Record r) ++ extra) =
    if buf_len (r_values r) + Z.of_nat (length extra) =? wrap_u 32 (buf_len (r_values r)) then
      '(values, bytes) ← unwrap "split_to out of bounds"
        (split_to (wrap_u 32 (buf_len (r_values r))) (as_slice (r_values r) ++ extra));
      Ok (mkRecord (r_partition_num r) (r_timestamp r) ChannelKey_default None None (buf_from values), bytes)
    else Panic "assertion failed".
Proof.
  intros Hp Ht. unfold record_deserialize, wire. cbn [tag_of].
  rewrite <- !(assoc_L (++)), get_u8_encode by (unfold in_u, SER_DE_RECORD; lia). run_bind.
  cbn [assert_that Z.eqb SER_DE_RECORD]. run_bind.
  rewrite get_u16_encode by done. run_bind. rewrite get_u64_encode by done. run_bind.
  rewrite get_u32_encode by by apply wrap_u_range. run_bind. unfold remaining.
  rewrite length_app, Nat2Z.inj_add, <- buf_len_slice. unfold assert_that. by case_match.
Qed.

Lemma record_roundtrip r : record_wf r ->
  exists r', record_deserialize (wire (Element_Record r)) = Ok (r', []) /\ record_sent r r'.
Proof.
  intros (Hp & Ht & Hl). rewrite <- (app_nil_r (wire _)), record_deserialize_wire by done.
  rewrite wrap_u_small, Z.add_0_r, Z.eqb_refl by done.
  rewrite buf_len_slice, split_to_app. run_bind. eexists. split; [done|].
  unfold record_sent; simpl. by rewrite buf_from_slice.
Qed.

(** Every kind of element: its bytes are read back, tag first. *)
Lemma element_deserialize_wire e : Element_wf e ->
  exists e', deserialize (wire e) = Ok (e', []) /\ Element_sent e e'.
Proof.
  intros Hwf. cbn [deserialize element_Serde]. unfold element_deserialize.
  rewrite wire_tag. cbn [unwrap]. run_bind. destruct e as [r|w|s|b]; cbn -[wire deserialize].
  - destruct (record_roundtrip r Hwf) as (r' & Hr & Hs).
    cbn [deserialize record_Serde]. rewrite Hr. run_bind. by exists (Element_Record r').
  - destruct Hwf as [H1 H2]. cbn [deserialize watermark_Serde]. unfold watermark_deserialize, wire.
    rewrite <- ?(assoc_L (++)), get_u8_encode by apply (tag_of_u8 (Element_Watermark w)). run_bind.
    cbn [assert_that Z.eqb tag_of SER_DE_WATERMARK Pos.eqb]. run_bind.
    rewrite get_u16_encode by done. run_bind.
    rewrite <- (app_nil_r (be_encode 8 _)), get_u64_encode by done. run_bind. by eexists.
  - cbn [deserialize stream_status_Serde]. unfold stream_status_deserialize, wire.
    rewrite <- ?(assoc_L (++)), get_u8_encode by apply (tag_of_u8 (Element_StreamStatus s)). run_bind.
    cbn [assert_that Z.eqb tag_of SER_DE_STREAM_STATUS Pos.eqb]. run_bind.
    rewrite get_u8_encode by (unfold in_u; case_match; lia). run_bind.
    rewrite <- (app_nil_r (be_encode 8 _)), get_u64_encode by done. run_bind. eexists. split; [done|].
    unfold Element_sent, stream_status_sent, StreamStatus_new. by destruct (ss_end s).
  - destruct Hwf as (H1 & H2 & H3). cbn [deserialize barrier_Serde]. unfold barrier_deserialize, wire.
    rewrite <- ?(assoc_L (++)), get_u8_encode by apply (tag_of_u8 (Element_Barrier b)). run_bind.
    cbn [assert_that Z.eqb tag_of SER_DE_BARRIER Pos.eqb]. run_bind.
    rewrite get_u16_encode by done. run_bind. rewrite get_u64_encode by done. run_bind.
    rewrite <- (app_nil_r (be_encode 8 _)), get_u64_encode by done. run_bind.
    eexists; split; [done|]. by destruct b.
Qed.

#[global] Instance Element_SerdeOk : SerdeOk Element Element_wf Element_sent.
Proof.
  intros e Hwf. exists (wire e). split; [apply element_serialize_wire|].
  split; [apply length_wire|]. by apply element_deserialize_wire.
Qed.

(** What arrives has the same bytes as what was sent. *)
Lemma wire_sent e e' : Element_sent e e' -> wire e' = wire e.
Proof.
  destruct e, e'; simpl; try done.
  - intros (H1 & H2 & H3 & _). unfold wire. by rewrite !buf_len_slice, H1, H2, H3.
  - by intros ->.
  - by intros ->.
  - by intros ->.
Qed.

(** C31: round trip of the wire format. For every element whose fields are in the
    range of their types and whose value bytes are fewer than 2 ^ 32, [to_bytes]
    succeeds with exactly [capacity] bytes, [deserialize] consumes them all, and
    the element obtained agrees with the one sent on everything the format
    carries ([Element_sent]); sending it on produces the same bytes again. *)
Theorem element_roundtrip (e : Element) :
  Element_wf e ->
  exists bytes e', to_bytes e = Ok bytes /\ Z.of_nat (length bytes) = capacity e /\
    deserialize bytes = Ok (e', []) /\ Element_sent e e' /\ to_bytes e' = Ok bytes.
Proof.
  intros Hwf. destruct (element_deserialize_wire e Hwf) as (e' & Hd & Hs).
  exists (wire e), e'. split_and!; [apply element_serialize_wire|apply length_wire|done|done|].
  unfold to_bytes. by rewrite element_serialize_wire, (wire_sent e e').
Qed.

(** the length check of a record. Bytes appended to a serialized record, or
    a record whose value bytes overflow the 32-bit length field, make
    [deserialize] panic: it never returns a record with other value bytes. *)
Theorem record_deserialize_rejects (r : record) (extra : list Z) :
  in_u 16 (r_partition_num r) -> in_u 64 (r_timestamp r) ->
  0 < Z.of_nat (length extra) < 2 ^ 32 /\ in_u 32 (buf_len (r_values r)) \/
  extra = [] /\ 2 ^ 32 <= buf_len (r_values r) ->
  (bytes ← to_bytes (Element_Record r); deserialize (A:=Element) (bytes ++ extra))
    = Panic "assertion failed".
Proof.
  intros Hp Ht Hcase. unfold to_bytes. rewrite element_serialize_wire. run_bind.
  cbn [deserialize element_Serde app]. unfold element_deserialize.
  rewrite lookup_app_l, wire_tag by (unfold wire; rewrite length_app, length_be_encode; lia).
  cbn [unwrap tag_of Z.eqb SER_DE_RECORD Pos.eqb]. run_bind.
  cbn [deserialize record_Serde]. rewrite record_deserialize_wire by done.
  assert (0 <= wrap_u 32 (buf_len (r_values r)) < 2 ^ 32) as Hr by (apply wrap_u_range; lia).
  destruct (Z.eqb_spec (buf_len (r_values r) + Z.of_nat (length extra)) (wrap_u 32 (buf_len (r_values r))))
    as [He|]; [|done].
  destruct Hcase as [[Hx Hb]|[-> Hb]]; [rewrite wrap_u_small in He by done|simpl in He]; lia.
Qed.
End sent.

Section evaluated.
#[local] Existing Instances be_bytes_api list_buffer.

Definition example_record : record :=
  mkRecord 2 3 (mkChannelKey (mkTaskId 1 0 1) (mkTaskId 2 0 1)) (Some []) None ([7; 8] : list Z).

Lemma element_roundtrip_witness :
  exists bytes e', to_bytes (Element_Record example_record) = Ok bytes /\
    Z.of_nat (length bytes) = 17 /\ deserialize bytes = Ok (e', []) /\
    Element_sent (Element_Record example_record) e' /\ to_bytes e' = Ok bytes.
Proof.
  apply (element_roundtrip (Element_Record example_record)).
  unfold Element_wf, record_wf, in_u; simpl; lia.
Defined.

Lemma record_deserialize_rejects_witness :
  (bytes ← to_bytes (Element_Record example_record); deserialize (A:=Element) (bytes ++ [0]))
    = Panic "assertion failed".
Proof. apply (record_deserialize_rejects example_record [0]); unfold in_u; simpl; lia. Defined.

Example example_record_bytes :
  to_bytes (Element_Record example_record) =
    Ok [1; 0; 2; 0; 0; 0; 0; 0; 0; 0; 3; 0; 0; 0; 2; 7; 8].
Proof. vm_compute. reflexivity. Qed.
End evaluated.
