(* ===== verification/Percentile.v ===== *)
(** * Percentile: counters of values over a scale

    src/rlink/src/functions/percentile/mod.rs. A scale is an ordered list of boundaries;
    a container holds one big-endian [u64] counter per boundary and the total at its
    end. The writer counts a value at the first boundary that is not below it; the reader
    walks the counters down from the top until it has passed the share of the values
    above the water line.

    An [f64] is a [spec_float] of the Standard Library, the IEEE 754 arithmetic with a
    mantissa of 53 bits. The theorems say where a value is counted, what a container
    holds after any sequence of values, and which of them the reader finds; [merge] is
    right as long as no byte of a counter overflows. *)
From Stdlib Require Import ZArith Lia Floats.SpecFloat.
From stdpp Require Import base strings numbers option list sorting.
From S2P Require Import Prelude Bytes.

(** ** [f64] *)
Abbreviation f64 := spec_float.

#[global] Instance f64_eq_dec : EqDecision f64.
Proof. solve_decision. Defined.

(** [z as f64] *)
Definition f64_from (z : Z) : f64 := binary_normalize 53 1024 z 0 false.

Definition f64_mul : f64 -> f64 -> f64 := SFmul 53 1024.
Definition f64_div : f64 -> f64 -> f64 := SFdiv 53 1024.

(** [x as u64]: towards zero, into the range of the type. *)
Definition f64_to_u64 (x : f64) : Z :=
  match x with
  | S754_zero _ | S754_nan | S754_infinity true | S754_finite true _ _ => 0
  | S754_infinity false => U64_MAX
  | S754_finite false m e => Z.min U64_MAX (Z.shiftl (Zpos m) e)
  end.

Definition F64_MAX : f64 := S754_finite false (2 ^ 53 - 1) 971.

(** ** Containers *)
Definition get_percentile_capacity (scale : list f64) : Z := Z.shiftl (Z.of_nat (length scale) + 1) 3.

Section percentile.
Context {E : Type}.

Definition counter_index (scale : list f64) : nat := Nat.shiftl (length scale) 3.

(** Eight bytes, each index checked. *)
Definition read (count_container : list Z) (index : nat) : res E Z :=
  match take 8 (drop index count_container) with
  | [_; _; _; _; _; _; _; _] as c => Ok (be_decode c)
  | _ => Panic "index out of bounds"
  end.

Definition write (count_container : list Z) (index : nat) (value : Z) : res E (list Z) :=
  if (index + 8 <=? length count_container)%nat then Ok (list_inserts index (be_encode 8 value) count_container)
  else Panic "index out of bounds".

Definition incr_counter (scale : list f64) (count_container : list Z) : res E (list Z) :=
  let* c := read count_container (counter_index scale) in
  write count_container (counter_index scale) (wrap_u 64 (c + 1)).

Definition num (nums : list f64) (k : nat) : res E f64 := unwrap "index out of bounds" (nums !! k).

(** [while i < j]; every turn makes [j - i] smaller. *)
Fixpoint search_loop (fuel : nat) (nums : list f64) (target : f64) (i j : nat) : res E (option nat) :=
  match fuel with
  | O => Panic "fuel"
  | S fuel =>
      if (i <? j)%nat then
        let mid := Nat.div2 (i + j) in
        let* mid_value := num nums mid in
        if SFeqb mid_value target then Ok (Some mid)
        else if SFltb mid_value target then
          let* next := num nums (mid + 1) in
          if SFltb target next then Ok (Some (mid + 1)%nat) else search_loop fuel nums target (mid + 1) j
        else if (mid =? 0)%nat then Ok (Some mid)
        else
          let* prev := num nums (mid - 1) in
          if SFltb prev target then Ok (Some mid) else search_loop fuel nums target i mid
      else Ok None
  end.

Definition search (scale : list f64) (target : f64) : res E (option nat) :=
  search_loop (S (length scale)) scale target 0 (length scale).

Definition position_in_value_array (scale : list f64) (val : f64) : res E (option nat) :=
  let* last := match length scale with O => Panic "index out of bounds" | S n => num scale n end in
  if SFleb last val then Ok (Some (length scale - 1)%nat)
  else
    let* first := num scale 0 in
    if SFleb val first then Ok (Some 0%nat) else search scale val.

Definition accumulate (scale : list f64) (count_container : list Z) (value : f64) : res E (list Z) :=
  let* count_container := incr_counter scale count_container in
  let* index := position_in_value_array scale value in
  match index with
  | Some index =>
      let begin_index := Nat.shiftl index 3 in
      let* n := read count_container begin_index in
      write count_container begin_index (wrap_u 64 (n + 1))
  | None => Ok count_container
  end.

(** [for i in 0..self.count_container.len()], in [u8]. *)
Definition percentile_merge (count_container other : list Z) : res E (list Z) :=
  foldM (fun cc i =>
    let* a := unwrap "index out of bounds" (cc !! i) in
    let* b := unwrap "index out of bounds" (other !! i) in
    Ok (<[i := wrap_u 8 (a + b)]> cc)) count_container (seq 0 (length count_container)).

(** ** The reader *)
Definition get_counter (scale : list f64) (count_container : list Z) : res E Z := read count_container (counter_index scale).

Definition adjust (input max : Z) : Z :=
  if input <=? 1 then 1 else if max <=? input then max else input.

(** [while index > 0], from the top. *)
Fixpoint scan (scale : list f64) (count_container : list Z) (percent_xx_pos : Z) (index : nat) (scanned : Z) : res E f64 :=
  match index with
  | O => Ok F64_MAX
  | S index =>
      let* scale_counter := read count_container (Nat.shiftl index 3) in
      if 0 =? scale_counter then scan scale count_container percent_xx_pos index scanned
      else
        let scanned := wrap_u 64 (scanned + scale_counter) in
        if percent_xx_pos <=? scanned then num scale index
        else scan scale count_container percent_xx_pos index scanned
  end.

Definition percent_pos (counter water_line : Z) : Z :=
  let percent_right_value := f64_div (f64_from (100 - water_line)) (f64_from 100) in
  adjust (f64_to_u64 (f64_mul (f64_from counter) percent_right_value)) counter.

Definition get_result (scale : list f64) (count_container : list Z) (water_line : Z) : res E f64 :=
  if 100 <? water_line then Panic "waterLine must be less than 100.0 and more than 0.0"
  else
    let* counter := get_counter scale count_container in
    scan scale count_container (percent_pos counter water_line) (length scale) 0.
End percentile.

(** ** The order of floats *)
Definition not_nan (x : f64) : Prop := x <> S754_nan.

(** A float that is a number, as the triple its comparison goes by. *)
Definition rank (x : f64) : Z * Z * Z :=
  match x with
  | S754_infinity true => (-2, 0, 0)
  | S754_finite true m e => (-1, - e, Zneg m)
  | S754_zero _ | S754_nan => (0, 0, 0)
  | S754_finite false m e => (1, e, Zpos m)
  | S754_infinity false => (2, 0, 0)
  end.

Definition rank_lt (x y : f64) : Prop :=
  let '(a, b, c) := rank x in
  let '(a', b', c') := rank y in
  a < a' \/ a = a' /\ (b < b' \/ b = b' /\ c < c').

Lemma rank_lt_trans x y z : rank_lt x y -> rank_lt y z -> rank_lt x z.
Proof. unfold rank_lt. destruct (rank x) as [[??]?], (rank y) as [[??]?], (rank z) as [[??]?]. lia. Qed.

Lemma rank_lt_irrefl x : ~ rank_lt x x.
Proof. unfold rank_lt. destruct (rank x) as [[??]?]. lia. Qed.

Lemma rank_lt_le x y z : rank_lt x y -> ~ rank_lt z y -> rank_lt x z.
Proof. unfold rank_lt. destruct (rank x) as [[??]?], (rank y) as [[??]?], (rank z) as [[??]?]. lia. Qed.

(** The three outcomes of a comparison. *)
Lemma SFcompare_rank x y : not_nan x -> not_nan y ->
  match SFcompare x y with
  | Some Lt => rank_lt x y
  | Some Eq => rank x = rank y
  | Some Gt => rank_lt y x
  | None => False
  end.
Proof.
  unfold rank_lt, not_nan. intros Hx Hy.
  destruct x as [sx|sx| |sx mx ex], y as [sy|sy| |sy my ey]; try done; destruct sx; try destruct sy; simpl; try lia; try done;
    (destruct (Z.compare_spec ex ey); [subst|lia|lia]); change (Pos.compare_cont Eq mx my) with (Pos.compare mx my);
    destruct (Pos.compare_spec mx my); simpl; subst; try done; lia.
Qed.

Lemma SFltb_lt x y : not_nan x -> not_nan y -> SFltb x y = true <-> rank_lt x y.
Proof.
  intros Hx Hy. pose proof (SFcompare_rank x y Hx Hy) as H. unfold SFltb. destruct (SFcompare x y) as [[]|]; split; try done.
  - intros Hl. unfold rank_lt in Hl. rewrite H in Hl. by apply (rank_lt_irrefl y) in Hl.
  - intros Hl. by apply (rank_lt_trans _ _ _ Hl), rank_lt_irrefl in H.
Qed.

Lemma SFleb_le x y : not_nan x -> not_nan y -> SFleb x y = true <-> ~ rank_lt y x.
Proof.
  intros Hx Hy. pose proof (SFcompare_rank x y Hx Hy) as H. unfold SFleb. destruct (SFcompare x y) as [[]|]; split; try done.
  - intros _ Hl. unfold rank_lt in Hl. rewrite H in Hl. by apply (rank_lt_irrefl y) in Hl.
  - intros _ Hl. by apply (rank_lt_trans _ _ _ Hl), rank_lt_irrefl in H.
Qed.

Lemma SFeqb_eq x y : not_nan x -> not_nan y -> SFeqb x y = true <-> ~ rank_lt x y /\ ~ rank_lt y x.
Proof.
  intros Hx Hy. pose proof (SFcompare_rank x y Hx Hy) as H. unfold SFeqb. destruct (SFcompare x y) as [[]|]; split; try done; try tauto.
  intros _. unfold rank_lt. rewrite H. split; apply rank_lt_irrefl.
Qed.

Lemma not_le_lt x y : not_nan x -> not_nan y -> SFleb x y = false -> rank_lt y x.
Proof. intros Hx Hy. pose proof (SFcompare_rank x y Hx Hy) as H. unfold SFleb. by destruct (SFcompare x y) as [[]|]. Qed.

Lemma div2_between i j : (i < j)%nat -> (i <= Nat.div2 (i + j) < j)%nat.
Proof. intros H. rewrite Nat.div2_div. split; [apply Nat.div_le_lower_bound; lia|apply Nat.Div0.div_lt_upper_bound; lia]. Qed.

Lemma SFcompare_nan x : SFcompare x S754_nan = None.
Proof. by destruct x. Qed.

(** ** Where a value is counted *)

(** A scale with growing boundaries. *)
Record scale_ok (scale : list f64) : Prop := {
  so_ne : scale <> [];
  so_nan : Forall not_nan scale;
  so_sorted : forall k x y, scale !! k = Some x -> scale !! S k = Some y -> SFltb x y = true
}.

(** The first boundary that is not below the value, the last one where there is none;
    what is not a number is counted with the first. *)
Definition bucket (scale : list f64) (v : f64) : nat :=
  match v with
  | S754_nan => 0%nat
  | _ => match list_find (fun s => SFleb v s = true) scale with Some (k, _) => k | None => (length scale - 1)%nat end
  end.

Section buckets.
Context {E : Type}.
Context (scale : list f64) (Hok : scale_ok scale).

Lemma scale_not_nan k x : scale !! k = Some x -> not_nan x.
Proof. intros Hx. pose proof (so_nan _ Hok) as H. rewrite Forall_lookup in H. eauto. Qed.
#[local] Hint Resolve scale_not_nan : core.

Lemma scale_lt a b x y : (a < b)%nat -> scale !! a = Some x -> scale !! b = Some y -> rank_lt x y.
Proof.
  revert y. induction b as [|b IH]; intros y Hab Hx Hy; [lia|].
  destruct (lookup_lt_is_Some_2 scale b) as [z Hz]; [apply lookup_lt_Some in Hy; lia|].
  pose proof (so_sorted _ Hok b z y Hz Hy) as Hs. apply SFltb_lt in Hs; [|eauto|eauto].
  destruct (decide (a = b)) as [->|Hne]; [by simplify_eq|]. eapply rank_lt_trans; [apply IH; [lia|done|done]|done].
Qed.

Lemma scale_length : (0 < length scale)%nat.
Proof. pose proof (so_ne _ Hok). destruct scale; [done|simpl; lia]. Qed.

(** The place is right when the boundary before it is below the value and its own is not. *)
Lemma bucket_at v k : not_nan v -> (k < length scale)%nat ->
  (forall x, scale !! k = Some x -> S k = length scale \/ ~ rank_lt x v) ->
  (forall j y, scale !! j = Some y -> S j = k -> rank_lt y v) -> bucket scale v = k.
Proof.
  intros Hv Hk Hat Hbefore. destruct (lookup_lt_is_Some_2 scale k Hk) as [x Hx].
  assert (forall j y, scale !! j = Some y -> (j < k)%nat -> SFleb v y <> true) as Hlow.
  { intros j y Hy Hj. destruct (lookup_lt_is_Some_2 scale (k - 1)) as [z Hz]; [lia|]. pose proof (Hbefore (k - 1)%nat z Hz ltac:(lia)) as Hz'.
    rewrite SFleb_le by eauto. intros Hn. apply Hn. destruct (decide (j = k - 1)%nat) as [->|]; [by simplify_eq|].
    eapply rank_lt_trans; [eapply (scale_lt j (k - 1)); [lia|done|done]|done]. }
  assert (match list_find (fun s => SFleb v s = true) scale with Some (i, _) => i | None => (length scale - 1)%nat end = k) as Hf.
  { destruct (list_find _ scale) as [[i y]|] eqn:Ef.
    - apply list_find_Some in Ef as (Hy & Hle & Hmin). destruct (lt_eq_lt_dec i k) as [[Hlt|He]|Hgt]; [by destruct (Hlow i y Hy Hlt)|done|].
      exfalso. apply (Hmin k x Hx Hgt). destruct (Hat x Hx) as [He|Hn]; [|by apply SFleb_le; eauto]. apply lookup_lt_Some in Hy. lia.
    - destruct (Hat x Hx) as [He|Hn]; [lia|]. apply list_find_None in Ef. rewrite Forall_lookup in Ef. destruct (Ef k x Hx). apply SFleb_le; eauto. }
  unfold bucket. by destruct v.
Qed.

Lemma num_ok k x : scale !! k = Some x -> num (E := E) scale k = Ok x.
Proof. intros Hx. unfold num. by rewrite Hx. Qed.

(** The loop keeps the value between its two ends. *)
Lemma search_loop_bucket v fuel : not_nan v ->
  (forall z, scale !! (length scale - 1)%nat = Some z -> rank_lt v z) -> (forall z, scale !! 0%nat = Some z -> rank_lt z v) ->
  forall i j lo hi, (j - i < fuel)%nat -> (0 < j <= length scale)%nat -> scale !! i = Some lo -> ~ rank_lt v lo ->
    scale !! (j - 1)%nat = Some hi -> ~ rank_lt hi v ->
    search_loop (E := E) fuel scale v i j = Ok (Some (bucket scale v)).
Proof.
  intros Hv Hlast Hfirst. induction fuel as [|fuel IH]; intros i j lo hi Hf Hj Hi Hlo Hhi Hup; [lia|]. cbn [search_loop].
  assert (i < j)%nat as Hij.
  { destruct (decide (i < j)%nat) as [|Hn]; [done|]. destruct Hup. eapply rank_lt_le; [|done]. by apply (scale_lt (j - 1) i hi lo); [lia|..]. }
  rewrite (proj2 (Nat.ltb_lt i j) Hij). cbv zeta. pose proof (div2_between i j Hij) as Hmid. set (mid := Nat.div2 (i + j)) in *.
  destruct (lookup_lt_is_Some_2 scale mid) as [m Hm]; [lia|]. rewrite (num_ok mid m Hm). run_bind.
  destruct (SFeqb m v) eqn:Eeq.
  { apply SFeqb_eq in Eeq as [H1 H2]; [|eauto..]. f_equal. f_equal. symmetry. apply bucket_at; [done|lia| |].
    - intros x Hx. right. by simplify_eq.
    - intros q y Hy Hq. eapply rank_lt_le; [|exact H2]. by apply (scale_lt q mid); [lia|..]. }
  destruct (SFltb m v) eqn:Elt.
  - apply SFltb_lt in Elt; [|eauto..]. destruct (lookup_lt_is_Some_2 scale (mid + 1)) as [n Hn].
    { destruct (decide (mid = length scale - 1)%nat) as [He|]; [|lia]. rewrite He in Hm. apply Hlast in Hm. by apply (rank_lt_trans _ _ _ Elt), rank_lt_irrefl in Hm. }
    rewrite (num_ok (mid + 1) n Hn). run_bind. destruct (SFltb v n) eqn:En.
    + apply SFltb_lt in En; [|eauto..]. f_equal. f_equal. symmetry. apply bucket_at; [done|by apply lookup_lt_Some in Hn| |].
      * intros x Hx. right. simplify_eq. intros Hc. by apply (rank_lt_trans _ _ _ En), rank_lt_irrefl in Hc.
      * intros q y Hy Hq. assert (q = mid) as -> by lia. by simplify_eq.
    + eapply (IH (mid + 1)%nat j n hi); [lia|lia|done| |done|done]. rewrite <- SFltb_lt by eauto. by rewrite En.
  - assert (rank_lt v m) as Hvm.
    { pose proof (SFcompare_rank m v ltac:(eauto) Hv) as Hc. unfold SFeqb, SFltb in Eeq, Elt. by destruct (SFcompare m v) as [[]|]. }
    destruct (Nat.eqb_spec mid 0) as [H0|H0].
    { exfalso. rewrite H0 in Hm. apply Hfirst in Hm. by apply (rank_lt_trans _ _ _ Hm), rank_lt_irrefl in Hvm. }
    destruct (lookup_lt_is_Some_2 scale (mid - 1)) as [p Hp]; [lia|]. rewrite (num_ok (mid - 1) p Hp). run_bind. destruct (SFltb p v) eqn:Ep.
    + apply SFltb_lt in Ep; [|eauto..]. f_equal. f_equal. symmetry. apply bucket_at; [done|lia| |].
      * intros x Hx. right. simplify_eq. intros Hc. by apply (rank_lt_trans _ _ _ Hvm), rank_lt_irrefl in Hc.
      * intros q y Hy Hq. assert (q = mid - 1)%nat as -> by lia. by simplify_eq.
    + eapply (IH i mid lo p); [lia|lia|done|done|done|]. rewrite <- SFltb_lt by eauto. by rewrite Ep.
Qed.

(** What is not a number goes to the left until it is at the first boundary. *)
Lemma search_loop_nan fuel : forall j, (j < fuel)%nat -> (0 < j <= length scale)%nat -> search_loop (E := E) fuel scale S754_nan 0 j = Ok (Some 0%nat).
Proof.
  induction fuel as [|fuel IH]; intros j Hf Hj; [lia|]. cbn [search_loop]. rewrite (proj2 (Nat.ltb_lt 0 j)) by lia. cbv zeta.
  pose proof (div2_between 0 j ltac:(lia)) as Hmid. set (mid := Nat.div2 (0 + j)) in *.
  destruct (lookup_lt_is_Some_2 scale mid) as [m Hm]; [lia|]. rewrite (num_ok mid m Hm). run_bind. unfold SFeqb, SFltb. rewrite SFcompare_nan.
  destruct (Nat.eqb_spec mid 0) as [->|H0]; [done|]. destruct (lookup_lt_is_Some_2 scale (mid - 1)) as [p Hp]; [lia|]. rewrite (num_ok (mid - 1) p Hp). run_bind.
  rewrite SFcompare_nan. apply IH; lia.
Qed.

Lemma position_bucket v : position_in_value_array (E := E) scale v = Ok (Some (bucket scale v)).
Proof.
  pose proof scale_length as Hlen. unfold position_in_value_array. destruct (length scale) as [|n] eqn:En; [lia|].
  destruct (lookup_lt_is_Some_2 scale n) as [z Hz]; [lia|]. destruct (lookup_lt_is_Some_2 scale 0) as [a Ha]; [lia|].
  rewrite (num_ok n z Hz), (num_ok 0 a Ha). run_bind. destruct (decide (v = S754_nan)) as [->|Hv].
  { unfold SFleb. rewrite SFcompare_nan. change (SFcompare S754_nan a) with (@None comparison). cbv iota. unfold search. rewrite En. apply search_loop_nan; lia. }
  destruct (SFleb z v) eqn:Ez.
  { apply SFleb_le in Ez; [|eauto..]. f_equal. f_equal. symmetry. apply bucket_at; [done|lia|intros; left; lia|].
    intros q y Hy Hq. eapply rank_lt_le; [|exact Ez]. by apply (scale_lt q n); [lia|..]. }
  destruct (SFleb v a) eqn:Ea.
  { apply SFleb_le in Ea; [|eauto..]. f_equal. f_equal. symmetry. apply bucket_at; [done|lia| |intros; lia]. intros x Hx. right. by simplify_eq. }
  assert (rank_lt v z) as Hvz by (apply (not_le_lt z v); eauto). assert (rank_lt a v) as Hav by (apply (not_le_lt v a); eauto).
  unfold search. rewrite En. eapply (search_loop_bucket v (S (S n)) Hv); rewrite ?En; [| |lia|lia|done| | |].
  - intros w Hw. replace (S n - 1)%nat with n in Hw by lia. by simplify_eq.
  - intros w Hw. by simplify_eq.
  - intros Hc. by apply (rank_lt_trans _ _ _ Hc), rank_lt_irrefl in Hav.
  - replace (S n - 1)%nat with n by lia. done.
  - intros Hc. by apply (rank_lt_trans _ _ _ Hc), rank_lt_irrefl in Hvz.
Qed.

Lemma bucket_lt v : (bucket scale v < length scale)%nat.
Proof.
  pose proof scale_length. unfold bucket. destruct v; try lia;
    (destruct (list_find _ scale) as [[k x]|] eqn:Ef; [|lia]; apply list_find_Some in Ef as [Hk _]; by apply lookup_lt_Some in Hk).
Qed.
End buckets.

(** ** What a container holds *)
Section containers.
Context {E : Type}.

Definition container (cs : list Z) : list Z := concat (be_encode 8 <$> cs).

Lemma length_container cs : length (container cs) = (8 * length cs)%nat.
Proof. unfold container. induction cs as [|c cs IH]; [done|]. rewrite fmap_cons. cbn [concat]. rewrite length_app, length_be_encode, IH. simpl length. lia. Qed.

Lemma container_split cs k v : cs !! k = Some v -> exists l1 l2, cs = l1 ++ v :: l2 /\ length (container l1) = Nat.shiftl k 3 /\
  container cs = container l1 ++ be_encode 8 v ++ container l2.
Proof.
  intros Hk. exists (take k cs), (drop (S k) cs). pose proof (take_drop_middle cs k v Hk) as Hs. split_and!; [done| |].
  - rewrite length_container, length_take, Nat.shiftl_mul_pow2. apply lookup_lt_Some in Hk. simpl. lia.
  - rewrite <- Hs at 1. unfold container. rewrite fmap_app, fmap_cons, concat_app. done.
Qed.

(** Bytes behind the counters are not touched. *)
Lemma read_container cs ex k v : cs !! k = Some v -> in_u 64 v -> read (E := E) (container cs ++ ex) (Nat.shiftl k 3) = Ok v.
Proof.
  intros Hk Hv. destruct (container_split cs k v Hk) as (l1 & l2 & _ & Hlen & ->). unfold read. rewrite <- app_assoc, <- Hlen, drop_app_length, <- app_assoc.
  rewrite take_app_le by by rewrite length_be_encode. rewrite take_ge by by rewrite length_be_encode.
  rewrite <- (be_decode_encode 8 v Hv) at 2. reflexivity.
Qed.

Lemma write_container cs ex k v : (k < length cs)%nat -> write (E := E) (container cs ++ ex) (Nat.shiftl k 3) v = Ok (container (<[k := v]> cs) ++ ex).
Proof.
  intros Hk. destruct (lookup_lt_is_Some_2 cs k Hk) as [c Hc]. destruct (container_split cs k c Hc) as (l1 & l2 & Hcs & Hlen & Hcon). unfold write.
  assert (length l1 = k) as Hl by (rewrite length_container, Nat.shiftl_mul_pow2 in Hlen; simpl in Hlen; lia).
  rewrite (proj2 (Nat.leb_le _ _)) by (rewrite length_app, length_container, Nat.shiftl_mul_pow2; simpl; lia). f_equal. rewrite Hcon, <- Hlen, <- !app_assoc.
  rewrite <- (Nat.add_0_r (length (container l1))), list_inserts_app_r, list_inserts_0_r by by rewrite !length_be_encode.
  rewrite Hcs, <- (Nat.add_0_r k), <- Hl, insert_app_r. unfold container. rewrite fmap_app, concat_app, <- !app_assoc. cbn [insert list_insert]. rewrite fmap_cons. cbn [concat]. by rewrite <- app_assoc.
Qed.

Context (scale : list f64) (Hok : scale_ok scale).

(** How many of the values are counted at a place, and at a place or above it. *)
Definition count_at (vs : list f64) (k : nat) : Z := Z.of_nat (length (filter (fun v => bucket scale v = k) vs)).
Definition above (vs : list f64) (k : nat) : Z := Z.of_nat (length (filter (fun v => (k <= bucket scale v)%nat) vs)).

Definition counts (vs : list f64) : list Z := (count_at vs <$> seq 0 (length scale)) ++ [Z.of_nat (length vs)].

Lemma counts_lookup vs k : (k < length scale)%nat -> counts vs !! k = Some (count_at vs k).
Proof.
  intros Hk. unfold counts. rewrite lookup_app_l by (by rewrite length_fmap, length_seq). rewrite list_lookup_fmap, lookup_seq_lt by done. done.
Qed.

Lemma counts_total vs : counts vs !! length scale = Some (Z.of_nat (length vs)).
Proof. unfold counts. rewrite lookup_app_r; rewrite length_fmap, length_seq; [|done]. by rewrite Nat.sub_diag. Qed.

Lemma count_at_le vs k : 0 <= count_at vs k <= Z.of_nat (length vs).
Proof. unfold count_at. pose proof (length_filter (fun v => bucket scale v = k) vs). lia. Qed.

Lemma count_at_snoc vs v k : count_at (vs ++ [v]) k = count_at vs k + if decide (bucket scale v = k) then 1 else 0.
Proof. unfold count_at. rewrite filter_app, length_app, filter_cons, filter_nil. destruct (decide (bucket scale v = k)); simpl; lia. Qed.

(** One more value. *)
Lemma accumulate_counts vs ex v : Z.of_nat (length vs) + 1 < 2 ^ 64 ->
  accumulate (E := E) scale (container (counts vs) ++ ex) v = Ok (container (counts (vs ++ [v])) ++ ex).
Proof.
  intros Hlen. pose proof (bucket_lt scale Hok v) as Hb. set (b := bucket scale v) in *. pose proof (count_at_le vs b) as Hc.
  assert (length (counts vs) = S (length scale)) as Hl by (unfold counts; rewrite length_app, length_fmap, length_seq; simpl; lia).
  unfold accumulate, incr_counter, counter_index. rewrite (read_container _ _ _ _ (counts_total vs)) by (unfold in_u; lia). run_bind.
  rewrite wrap_u_small by (unfold in_u; lia). rewrite write_container by lia. run_bind. rewrite position_bucket by done. run_bind. cbv zeta. fold b.
  rewrite (read_container _ _ b (count_at vs b)); [|rewrite list_lookup_insert_ne by lia; by apply counts_lookup|unfold in_u; lia]. run_bind.
  rewrite wrap_u_small by (unfold in_u; lia). rewrite write_container by (rewrite length_insert; lia). f_equal. f_equal. f_equal. apply list_eq. intros k.
  destruct (lt_eq_lt_dec k (length scale)) as [[Hk|Hk]|Hk].
  - rewrite counts_lookup, count_at_snoc by done. fold b. destruct (decide (b = k)) as [->|Hne].
    + apply list_lookup_insert_eq. rewrite length_insert. lia.
    + rewrite list_lookup_insert_ne, list_lookup_insert_ne, counts_lookup by lia. by rewrite Z.add_0_r.
  - subst k. rewrite list_lookup_insert_ne, list_lookup_insert_eq, counts_total by lia. f_equal. rewrite length_app. simpl. lia.
  - rewrite !lookup_ge_None_2; [done|unfold counts; rewrite length_app, length_fmap, length_seq; simpl; lia|rewrite !length_insert; lia].
Qed.

(** A new container of zeros, with room for the counters at least. *)
Definition zeroed (n : nat) : list Z := replicate n 0.

Lemma zeroed_counts n : (Z.to_nat (get_percentile_capacity scale) <= n)%nat ->
  zeroed n = container (counts []) ++ zeroed (n - Z.to_nat (get_percentile_capacity scale)).
Proof.
  assert (counts [] = replicate (S (length scale)) 0) as ->.
  { rewrite replicate_S_end. unfold counts. f_equal. generalize 0%nat. induction (length scale) as [|m IH]; intros a; [done|]. cbn [seq]. rewrite fmap_cons. cbn. f_equal. apply IH. }
  unfold zeroed, get_percentile_capacity. rewrite Z.shiftl_mul_pow2 by lia. replace (Z.to_nat _) with (S (length scale) * 8)%nat by lia. intros Hn.
  replace n with (S (length scale) * 8 + (n - S (length scale) * 8))%nat at 1 by lia. rewrite replicate_add. f_equal. clear Hn.
  induction (S (length scale)) as [|m IH]; [done|]. cbn [replicate]. unfold container in *. rewrite fmap_cons. cbn [concat]. rewrite <- IH. cbn [Nat.mul]. rewrite replicate_add. done.
Qed.

Lemma accumulate_all vs ex : Z.of_nat (length vs) < 2 ^ 64 ->
  foldM (accumulate (E := E) scale) (container (counts []) ++ ex) vs = Ok (container (counts vs) ++ ex).
Proof.
  induction vs as [|v vs IH] using rev_ind; intros Hlen; [done|]. rewrite length_app in Hlen. simpl in Hlen.
  rewrite foldM_app, IH by lia. cbn [mbind res_bind foldM]. by rewrite accumulate_counts by lia.
Qed.

(** ** Reading *)
Lemma above_S vs k : above vs k = above vs (S k) + count_at vs k.
Proof.
  unfold above, count_at. induction vs as [|v vs IH]; [done|]. rewrite !filter_cons.
  repeat destruct (decide _); simpl; lia.
Qed.

Lemma above_0 vs : above vs 0 = Z.of_nat (length vs).
Proof. unfold above. induction vs as [|v vs IH]; [done|]. rewrite filter_cons, decide_True by lia. simpl. lia. Qed.

Lemma above_top vs : above vs (length scale) = 0.
Proof.
  unfold above. induction vs as [|v vs IH]; [done|]. pose proof (bucket_lt scale Hok v). by rewrite filter_cons, decide_False by lia.
Qed.

(** The walk down stops at the place of the value that is [pos]-th from the top. *)
Lemma scan_finds vs ex pos index : Z.of_nat (length vs) < 2 ^ 64 -> (index <= length scale)%nat -> pos <= Z.of_nat (length vs) -> above vs index < pos ->
  exists k r, scan (E := E) scale (container (counts vs) ++ ex) pos index (above vs index) = Ok r /\ scale !! k = Some r /\ above vs (S k) < pos <= above vs k.
Proof.
  intros Hlen. induction index as [|index IH]; intros Hi Hpos Hab; [rewrite above_0 in Hab; lia|]. cbn [scan].
  pose proof (count_at_le vs index) as Hc. pose proof (above_S vs index) as HS.
  rewrite (read_container _ _ _ _ (counts_lookup vs index ltac:(lia))) by (unfold in_u; lia). run_bind. destruct (Z.eqb_spec 0 (count_at vs index)) as [H0|H0].
  - assert (above vs (S index) = above vs index) as -> by lia. apply IH; lia.
  - assert (0 <= above vs (S index) /\ above vs index <= Z.of_nat (length vs)) as Hr.
    { unfold above. pose proof (length_filter (fun v => (index <= bucket scale v)%nat) vs). lia. }
    cbv zeta. rewrite wrap_u_small by (unfold in_u; lia). rewrite <- HS. destruct (Z.leb_spec pos (above vs index)) as [Hp|Hp].
    + destruct (lookup_lt_is_Some_2 scale index) as [r Hr']; [lia|]. exists index, r. rewrite (num_ok scale index r Hr'). done.
    + apply IH; lia.
Qed.

Lemma percent_pos_range n w : 1 <= n -> 1 <= percent_pos n w <= n.
Proof. intros Hn. unfold percent_pos, adjust. destruct (Z.leb_spec (f64_to_u64 (f64_mul (f64_from n) (f64_div (f64_from (100 - w)) (f64_from 100)))) 1); [lia|]. destruct (Z.leb_spec n (f64_to_u64 (f64_mul (f64_from n) (f64_div (f64_from (100 - w)) (f64_from 100))))); lia. Qed.

Lemma get_counter_counts vs ex : Z.of_nat (length vs) < 2 ^ 64 -> get_counter (E := E) scale (container (counts vs) ++ ex) = Ok (Z.of_nat (length vs)).
Proof. intros Hlen. unfold get_counter, counter_index. apply read_container; [apply counts_total|unfold in_u; lia]. Qed.

(** Without values the answer is the greatest float. *)
Lemma empty_result n w : (Z.to_nat (get_percentile_capacity scale) <= n)%nat -> w <= 100 -> get_result (E := E) scale (zeroed n) w = Ok F64_MAX.
Proof.
  intros Hn Hw. unfold get_result. rewrite (proj2 (Z.ltb_ge 100 w) Hw), zeroed_counts, get_counter_counts by done. run_bind. generalize (zeroed (n - Z.to_nat (get_percentile_capacity scale))). intros ex. generalize (percent_pos (Z.of_nat (length (@nil f64))) w). intros pos.
  assert (forall index, (index <= length scale)%nat -> scan (E := E) scale (container (counts []) ++ ex) pos index 0 = Ok F64_MAX) as H; [|by apply H].
  induction index as [|index IH]; intros Hi; [done|]. cbn [scan]. rewrite (read_container _ _ _ _ (counts_lookup [] index ltac:(lia))) by done. run_bind. apply IH. lia.
Qed.
End containers.

(** ** Merging *)
Lemma merge_bytes {E} a b : length a = length b -> (forall k x y, a !! k = Some x -> b !! k = Some y -> 0 <= x + y < 256) ->
  percentile_merge (E := E) a b = Ok (zip_with Z.add a b).
Proof.
  intros Hlen Hb. unfold percentile_merge.
  assert (forall n, (n <= length a)%nat -> foldM (fun cc i => let* x := unwrap "index out of bounds" (cc !! i) in let* y := unwrap "index out of bounds" (b !! i) in
    Ok (<[i := wrap_u 8 (x + y)]> cc)) a (seq 0 n) = Ok (E := E) (zip_with Z.add (take n a) (take n b) ++ drop n a)) as H; cycle 1.
  { rewrite H by done. by rewrite !take_ge, drop_ge, app_nil_r by lia. }
  induction n as [|n IH]; intros Hn; [done|]. rewrite seq_S, foldM_app, IH by lia. cbn [mbind res_bind foldM Nat.add].
  destruct (lookup_lt_is_Some_2 a n) as [x Hx]; [lia|]. destruct (lookup_lt_is_Some_2 b n) as [y Hy]; [lia|].
  set (l := zip_with Z.add (take n a) (take n b)). assert (length l = n) as Hl by (unfold l; rewrite length_zip_with, !length_take; lia).
  rewrite (drop_S a x n Hx). rewrite lookup_app_r by lia. replace (n - length l)%nat with 0%nat by lia. cbn [lookup list_lookup unwrap mbind res_bind].
  rewrite Hy. cbn [unwrap mbind res_bind]. rewrite wrap_u_small by (apply (Hb n); done). f_equal.
  rewrite <- (Nat.add_0_r n) at 1. rewrite <- Hl at 1. rewrite insert_app_r. cbn [insert list_insert].
  rewrite (take_S_r a n x Hx), (take_S_r b n y Hy), zip_with_app by (rewrite !length_take; lia). by rewrite <- app_assoc.
Qed.

Lemma be_decode_add l : forall l', length l = length l' -> be_decode (zip_with Z.add l l') = be_decode l + be_decode l'.
Proof.
  induction l as [|x l IH]; intros [|y l'] Hlen; try done. cbn [zip_with]. injection Hlen as Hlen. rewrite !be_decode_cons, IH by done.
  rewrite length_zip_with, Hlen, Nat.min_id. lia.
Qed.

(** Where no byte overflows, a merged container holds the sums. *)
Lemma merge_counts {E} cs cs' : length cs = length cs' -> Forall (in_u 64) cs -> Forall (in_u 64) cs' ->
  (forall k x y, container cs !! k = Some x -> container cs' !! k = Some y -> x + y < 256) ->
  exists cc, percentile_merge (E := E) (container cs) (container cs') = Ok cc /\
    forall k v v', cs !! k = Some v -> cs' !! k = Some v' -> read (E := E) cc (Nat.shiftl k 3) = Ok (v + v').
Proof.
  intros Hlen Hcs Hcs' Hno. exists (zip_with Z.add (container cs) (container cs')). split.
  - apply merge_bytes; [by rewrite !length_container, Hlen|]. intros k x y Hx Hy. split; [|by eapply Hno].
    assert (forall ds, Forall (fun z => 0 <= z) (container ds)) as Hpos.
    { unfold container. induction ds as [|d ds IH]; [constructor|]. rewrite fmap_cons. cbn [concat]. apply Forall_app. split; [|done].
      generalize 8%nat. induction n as [|n IHn]; cbn [be_encode]; [constructor|]. constructor; [apply Z.mod_pos_bound; lia|done]. }
    pose proof (Hpos cs) as H1. pose proof (Hpos cs') as H2. rewrite Forall_lookup in H1, H2. specialize (H1 _ _ Hx). specialize (H2 _ _ Hy). cbn in *. lia.
  - intros k v v' Hv Hv'. destruct (container_split cs k v Hv) as (l1 & l2 & _ & H1 & ->). destruct (container_split cs' k v' Hv') as (l1' & l2' & _ & H1' & ->).
    rewrite zip_with_app by congruence. rewrite zip_with_app by by rewrite !length_be_encode. unfold read.
    rewrite drop_app_length' by (rewrite length_zip_with; lia). rewrite take_app_length' by (by rewrite length_zip_with, !length_be_encode).
    rewrite Forall_lookup in Hcs, Hcs'. transitivity (Ok (E := E) (be_decode (zip_with Z.add (be_encode 8 v) (be_encode 8 v')))); [reflexivity|].
    rewrite be_decode_add, !be_decode_encode; [done|by eapply Hcs'|by eapply Hcs|by rewrite !length_be_encode].
Qed.

(** C38: Counting any values over a growing scale never fails, and the reader then finds the
    boundary of the value it is asked for: with [pos] the share of the values above the
    water line, cut to a whole number between 1 and their count, it returns the boundary
    at which the value that is [pos]-th from the top is counted, that is the first
    boundary not below that value, or the last one. *)
Theorem percentile_result {E} scale vs n w :
  scale_ok scale -> vs <> [] -> Z.of_nat (length vs) < 2 ^ 64 -> (Z.to_nat (get_percentile_capacity scale) <= n)%nat -> 0 <= w <= 100 ->
  exists cc k r,
    foldM (accumulate (E := E) scale) (zeroed n) vs = Ok cc /\ get_result (E := E) scale cc w = Ok r /\ scale !! k = Some r /\
    above scale vs (S k) < percent_pos (Z.of_nat (length vs)) w <= above scale vs k /\
    1 <= percent_pos (Z.of_nat (length vs)) w <= Z.of_nat (length vs).
Proof.
  intros Hok Hne Hlen Hn Hw. assert (1 <= Z.of_nat (length vs)) as H1 by (destruct vs; [done|simpl; lia]). rewrite (zeroed_counts scale n Hn).
  pose proof (percent_pos_range (Z.of_nat (length vs)) w H1) as Hpos. pose proof (above_top scale Hok vs) as Htop. set (ex := zeroed (n - _)).
  destruct (scan_finds (E := E) scale vs ex (percent_pos (Z.of_nat (length vs)) w) (length scale)) as (k & r & Hs & Hk & Hab); [done|done|lia|lia|].
  exists (container (counts scale vs) ++ ex), k, r. split_and!; try done; try lia; [by apply accumulate_all|].
  unfold get_result. rewrite (proj2 (Z.ltb_ge 100 w)) by lia. rewrite get_counter_counts by done. run_bind. by rewrite Htop in Hs.
Qed.

(** ** Examples *)
Definition ex_scale : list f64 := f64_from <$> [1; 2; 5; 10; 100].
Definition ex_values : list f64 := f64_from <$> [0; 1; 2; 3; 7; 7; 11; 1000].

Lemma ex_scale_ok : scale_ok ex_scale.
Proof.
  split; [done|by repeat constructor|]. intros k x y Hx Hy.
  do 5 (destruct k as [|k]; [vm_compute in Hx, Hy; by simplify_eq|]). vm_compute in Hy. by destruct k.
Qed.

(** The second value from the top of eight is 11, counted at 100. *)
Example ex_percentile : (let* cc := foldM (accumulate (E := unit) ex_scale) (zeroed 48) ex_values in get_result ex_scale cc 70) = Ok (f64_from 100).
Proof. vm_compute. reflexivity. Qed.

(** 29 percent of 100 values is 28 of them in [f64]. *)
Example ex_rounded : percent_pos 100 71 = 28.
Proof. vm_compute. reflexivity. Qed.

(** The carry of a byte is lost by [merge]: 200 and 100 make 44. *)
Example ex_merge_carry : (let* cc := percentile_merge (E := unit) (container [200]) (container [100]) in read cc 0) = Ok 44.
Proof. vm_compute. reflexivity. Qed.

Lemma percentile_result_witness : exists cc k r,
  foldM (accumulate (E := unit) ex_scale) (zeroed 48) ex_values = Ok cc /\ get_result (E := unit) ex_scale cc 70 = Ok r /\ ex_scale !! k = Some r /\
  above ex_scale ex_values (S k) < percent_pos 8 70 <= above ex_scale ex_values k /\ 1 <= percent_pos 8 70 <= 8.
Proof. apply (percentile_result (E := unit) ex_scale ex_values 48 70); [apply ex_scale_ok|discriminate|reflexivity|apply le_n|lia]. Defined.
