(* ===== verification/SchemaReduce.v ===== *)
(** * SchemaReduce: aggregating columns

    src/rlink/src/functions/reduce/schema_reduce.rs and
    src/rlink/src/functions/column_locate.rs: a reduce function made of descriptors
    (count, sum, max, min, percentile of a column). Opening it turns the descriptors into
    aggregations for the schema of the input; every record is then folded, column by
    column, into the record of the state.

    The typed columns of a buffer belong to the serbuffer crate: the class [SerColumns]
    has its readers and writers, with the law that what has been written as the types say
    is read back. The theorem says what the state holds after any sequence of records. *)
From Stdlib Require Import ZArith Lia Floats.SpecFloat.
From stdpp Require Import base strings numbers option list.
From S2P Require Import Prelude Bytes Runtime Schema Window Element Percentile.

(** ** Typed values *)
Inductive Value : Type :=
  | V_Bool (b : bool)
  | V_Int (t : DataType) (z : Z)
  | V_F32 (x : f64)
  | V_F64 (x : f64)
  | V_Binary (l : list Z)
  | V_String (l : list Z).

Definition value_type (v : Value) : DataType :=
  match v with
  | V_Bool _ => DT_Boolean | V_Int t _ => t | V_F32 _ => DT_Float32 | V_F64 _ => DT_Float64
  | V_Binary _ => DT_Binary | V_String _ => DT_String
  end.

(** [as_writer] and one [set_T] per column; [as_reader] (or [as_reader_mut]) and [get_T]. *)
Class SerColumns {SB : SerBuffer} {ST : SerTypes} := {
  buf_write : list Z -> list Value -> option Buffer;
  buf_get : list Z -> Buffer -> nat -> DataType -> option Value;
  buf_write_get : forall types vs, Forall2 (fun ty v => ty = data_type_id (value_type v)) types vs ->
    exists b, buf_write types vs = Some b /\ forall k v, vs !! k = Some v -> buf_get types b k (value_type v) = Some v
}.

(** ** Columns *)
Inductive ColumnLocate : Type := CL_Index (index : nat) | CL_Name (name : string).

Section schema_reduce.
Context {SB : SerBuffer} {ST : SerTypes} {SC : SerColumns} {E : Type}.

Definition unwrapped {A} (o : option A) : res E A := unwrap "called `Result::unwrap()` on an `Err` value" o.

Definition to_column (c : ColumnLocate) (schema : Schema) : res E (nat * Field) :=
  match c with
  | CL_Index index => let* f := schema_field schema index in Ok (index, f)
  | CL_Name name => unwrap "called `Option::unwrap()` on a `None` value" (column_with_name schema name)
  end.

(** ** Aggregations *)
Inductive BasicAggType : Type := Agg_Sum | Agg_Max | Agg_Min.

Definition agg_type_name (t : BasicAggType) : string := match t with Agg_Sum => "sum" | Agg_Max => "max" | Agg_Min => "min" end.

Inductive AggregationDescriptor : Type :=
  | AD_Count
  | AD_Sum (c : ColumnLocate)
  | AD_Max (c : ColumnLocate)
  | AD_Min (c : ColumnLocate)
  | AD_Pct (c : ColumnLocate) (scale : list f64).

Inductive Aggregation : Type :=
  | CountAggregation (output_field : Field)
  | BasicAggregation (column_index : nat) (agg_type : BasicAggType) (input_field output_field : Field)
  | PctAggregation (column_index : nat) (scale : list f64) (count_container : list Z) (input_field output_field : Field).

Definition CountAggregation_new : Aggregation := CountAggregation (Field_new "count" DT_UInt64).

Definition BasicAggregation_new (column_index : nat) (agg_type : BasicAggType) (input_field : Field) : Aggregation :=
  BasicAggregation column_index agg_type input_field
    (Field_new (agg_type_name agg_type +:+ "(" +:+ f_name input_field +:+ ")") (f_data_type input_field)).

(** The container has the capacity that [Vec::with_capacity] gave it. *)
Definition PctAggregation_new (vec_capacity : Z -> nat) (column_index : nat) (input_field : Field) (scale : list f64) : Aggregation :=
  PctAggregation column_index scale (replicate (vec_capacity (get_percentile_capacity scale)) 0) input_field
    (Field_new ("pct(" +:+ f_name input_field +:+ ")") DT_Binary).

Definition is_value_agg (t : DataType) : bool := match t with DT_Boolean | DT_Binary | DT_String => false | _ => true end.

Definition create_basic_agg (column_index : nat) (agg_type : BasicAggType) (input_field : Field) : res E Aggregation :=
  if is_value_agg (f_data_type input_field) then Ok (BasicAggregation_new column_index agg_type input_field)
  else Panic "un-support DataType".

Context (vec_capacity : Z -> nat).

Definition to_aggregation (d : AggregationDescriptor) (schema : Schema) : res E Aggregation :=
  match d with
  | AD_Count => Ok CountAggregation_new
  | AD_Sum c => let* (index, field) := to_column c schema in create_basic_agg index Agg_Sum field
  | AD_Max c => let* (index, field) := to_column c schema in create_basic_agg index Agg_Max field
  | AD_Min c => let* (index, field) := to_column c schema in create_basic_agg index Agg_Min field
  | AD_Pct c scale => let* (index, field) := to_column c schema in Ok (PctAggregation_new vec_capacity index field scale)
  end.

Definition output_field (a : Aggregation) : Field :=
  match a with CountAggregation f | BasicAggregation _ _ _ f | PctAggregation _ _ _ _ f => f end.

Definition agg_len (a : Aggregation) : Z :=
  match a with CountAggregation f | BasicAggregation _ _ _ f => f_len f | PctAggregation _ scale _ _ _ => get_percentile_capacity scale end.

(** ** Arithmetic of a column: [Add] and [PartialOrd] of the ten number types *)
Definition wrap_type (t : DataType) (z : Z) : Z :=
  match t with
  | DT_Int8 => wrap_i 8 z | DT_UInt8 => wrap_u 8 z | DT_Int16 => wrap_i 16 z | DT_UInt16 => wrap_u 16 z
  | DT_Int32 => wrap_i 32 z | DT_UInt32 => wrap_u 32 z | DT_Int64 => wrap_i 64 z | DT_UInt64 => wrap_u 64 z
  | _ => z
  end.

Definition value_add (a b : Value) : Value :=
  match a, b with
  | V_Int t x, V_Int _ y => V_Int t (wrap_type t (x + y))
  | V_F32 x, V_F32 y => V_F32 (SFadd 24 128 x y)
  | V_F64 x, V_F64 y => V_F64 (SFadd 53 1024 x y)
  | _, _ => a
  end.

Definition value_gt (a b : Value) : bool :=
  match a, b with
  | V_Int _ x, V_Int _ y => y <? x
  | V_F32 x, V_F32 y | V_F64 x, V_F64 y => SFltb y x
  | _, _ => false
  end.

Definition basic_agg (t : BasicAggType) (basic_value record_value : Value) : Value :=
  match t with
  | Agg_Sum => value_add basic_value record_value
  | Agg_Max => if value_gt basic_value record_value then basic_value else record_value
  | Agg_Min => if value_gt basic_value record_value then record_value else basic_value
  end.

(** [ValueAgg]: [read_value] and [read_record] of the number type [t]. *)
Definition value_agg_read (t : DataType) (types : list Z) (b : Buffer) (index : nat) : res E Value := unwrapped (buf_get types b index t).

Definition get_int (types : list Z) (b : Buffer) (index : nat) (t : DataType) : res E Z :=
  let* v := unwrapped (buf_get types b index t) in
  match v with V_Int _ z => Ok z | _ => Panic "called `Result::unwrap()` on an `Err` value" end.

Definition get_binary (types : list Z) (b : Buffer) (index : nat) : res E (list Z) :=
  let* v := unwrapped (buf_get types b index DT_Binary) in
  match v with V_Binary l => Ok l | _ => Panic "called `Result::unwrap()` on an `Err` value" end.

(** [Aggregation::reduce], for each kind: what is written to the next column. *)
Definition count_reduce (value_reader : option (list Z * Buffer)) (value_index : nat) : res E Value :=
  match value_reader with
  | Some (types, b) => let* basic_value := get_int types b value_index DT_UInt64 in Ok (V_Int DT_UInt64 (wrap_u 64 (basic_value + 1)))
  | None => Ok (V_Int DT_UInt64 1)
  end.

Definition basic_reduce (column_index : nat) (agg_type : BasicAggType) (t : DataType)
    (value_reader : option (list Z * Buffer)) (value_index : nat) (record_reader : list Z * Buffer) : res E Value :=
  let* record_value := value_agg_read t record_reader.1 record_reader.2 column_index in
  match value_reader with
  | Some (types, b) => let* basic_value := value_agg_read t types b value_index in Ok (basic_agg agg_type basic_value record_value)
  | None => Ok record_value
  end.

(** The percentile counts in the buffer of the state itself, which the new record replaces. *)
Definition pct_reduce (column_index : nat) (scale : list f64) (count_container : list Z)
    (value_reader : option (list Z * Buffer)) (value_index : nat) (record_reader : list Z * Buffer) : res E Value :=
  let* record_value := get_int record_reader.1 record_reader.2 column_index DT_Int64 in
  match value_reader with
  | Some (types, b) =>
      let* stat_value := get_binary types b value_index in
      let* stat_value := accumulate scale stat_value (f64_from record_value) in Ok (V_Binary stat_value)
  | None => let* count_container := accumulate scale count_container (f64_from record_value) in Ok (V_Binary count_container)
  end.

Definition agg_reduce (a : Aggregation) (value_reader : option (list Z * Buffer)) (value_index : nat) (record_reader : list Z * Buffer) : res E Value :=
  match a with
  | CountAggregation _ => count_reduce value_reader value_index
  | BasicAggregation column_index agg_type input_field _ => basic_reduce column_index agg_type (f_data_type input_field) value_reader value_index record_reader
  | PctAggregation column_index scale count_container _ _ => pct_reduce column_index scale count_container value_reader value_index record_reader
  end.

(** ** The reduce function *)
Record SchemaReduceFunction := mkSchemaReduce {
  sr_parallelism : Z;
  sr_schema : Schema;
  sr_val_schema : Schema;
  sr_val_len : Z;
  sr_agg_descriptors : list AggregationDescriptor;
  sr_agg_operators : list Aggregation
}.

Definition SchemaReduce_new (agg_descriptors : list AggregationDescriptor) (parallelism : Z) : SchemaReduceFunction :=
  mkSchemaReduce parallelism Schema_empty Schema_empty 0 agg_descriptors [].

Definition agg_schema (f : SchemaReduceFunction) (schema : Schema) : res E (list Aggregation * list Field * Z) :=
  foldM (fun '(aggs, fs, len) d =>
    let* agg := to_aggregation d schema in
    Ok (aggs ++ [agg], fs ++ [output_field agg], len + agg_len agg)) ([], [], 0) (sr_agg_descriptors f).

Definition sr_schema_fn (f : SchemaReduceFunction) (input_schema : FnSchema) : res E FnSchema :=
  let* schema := fn_schema_first input_schema in
  let* (_, val_fields, _) := agg_schema f schema in
  Ok (FnSchema_Single (Schema_new val_fields)).

Definition sr_open (f : SchemaReduceFunction) (input_schema : FnSchema) : res E SchemaReduceFunction :=
  let* schema := fn_schema_first input_schema in
  let* out := sr_schema_fn f input_schema in
  let* val_schema := into_single out in
  let* (agg_operators, _, val_len) := agg_schema f schema in
  Ok (mkSchemaReduce (sr_parallelism f) schema val_schema val_len (sr_agg_descriptors f) agg_operators).

(** The loop over the aggregations. *)
Fixpoint agg_loop (aggs : list Aggregation) (index : nat) (value_reader : option (list Z * Buffer)) (record_reader : list Z * Buffer) : res E (list Value) :=
  match aggs with
  | [] => Ok []
  | a :: aggs =>
      let* v := agg_reduce a value_reader index record_reader in
      let* vs := agg_loop aggs (S index) value_reader record_reader in
      Ok (v :: vs)
  end.

Definition sr_reduce (f : SchemaReduceFunction) (value : option record) (r : record) : res E record :=
  let types := type_ids (sr_val_schema f) in
  let value_reader := (fun v => (types, r_values v)) <$> value in
  let* vs := agg_loop (sr_agg_operators f) 0 value_reader (type_ids (sr_schema f), r_values r) in
  let* b := unwrapped (buf_write types vs) in
  Ok (set_values b Record_new).

(** The records of a window and key, from the first on. *)
Definition reduce_all (f : SchemaReduceFunction) (rs : list record) : res E (option record) :=
  foldM (fun acc r => let* v := sr_reduce f acc r in Ok (Some v)) None rs.
End schema_reduce.

(** ** What an aggregation computes *)
Definition column (k : nat) (rows : list (list Value)) : list Value := omap (fun row => row !! k) rows.

Definition agg_holds (a : Aggregation) (rows : list (list Value)) (v : Value) : Prop :=
  match a with
  | CountAggregation _ => v = V_Int DT_UInt64 (wrap_u 64 (Z.of_nat (length rows)))
  | BasicAggregation k t _ _ => exists v0 vs, column k rows = v0 :: vs /\ v = foldl (basic_agg t) v0 vs
  | PctAggregation k scale _ _ _ => exists zs ex, column k rows = V_Int DT_Int64 <$> zs /\ v = V_Binary (container (counts scale (f64_from <$> zs)) ++ ex)
  end.

Section schema_reduce_lemmas.
Context {SB : SerBuffer} {ST : SerTypes} {SC : SerColumns} {E : Type}.
Context (vec_capacity : Z -> nat) (Hcap : forall n, 0 <= n -> (Z.to_nat n <= vec_capacity n)%nat).
Context (s : Schema).

(** A row of the types of the schema; the buffer of a record that reads as a row. A
    64-bit column holds integers. *)
Definition row_fits (row : list Value) : Prop :=
  Forall2 (fun f v => f_data_type f = value_type v /\ (f_data_type f = DT_Int64 -> exists z, v = V_Int DT_Int64 z)) (fields s) row.

Definition reads (types : list Z) (b : Buffer) (row : list Value) : Prop :=
  forall k v, row !! k = Some v -> buf_get types b k (value_type v) = Some v.

(** A descriptor that can be used with the schema: its column exists and has a number
    type, for a percentile the 64-bit integers. *)
Definition descriptor_ok (d : AggregationDescriptor) : Prop :=
  match d with
  | AD_Count => True
  | AD_Sum c | AD_Max c | AD_Min c => exists k f, to_column (E := E) c s = Ok (k, f) /\ is_value_agg (f_data_type f) = true
  | AD_Pct c scale => scale_ok scale /\ exists k f, to_column (E := E) c s = Ok (k, f) /\ f_data_type f = DT_Int64
  end.

Lemma to_column_field c k f : to_column (E := E) c s = Ok (k, f) -> fields s !! k = Some f.
Proof.
  destruct c as [i|n]; unfold to_column.
  - unfold schema_field. destruct (fields s !! i) as [f'|] eqn:Ei; cbn; [|done]. by intros [= <- <-].
  - unfold column_with_name. destruct (list_find _ _) as [[i f']|] eqn:Ef; cbn; [|done]. intros [= <- <-]. by apply list_find_Some in Ef as [? _].
Qed.

(** What opening makes of such descriptors. *)
Definition agg_ok (a : Aggregation) : Prop :=
  field_wf (output_field a) /\
  match a with
  | CountAggregation f => f_data_type f = DT_UInt64
  | BasicAggregation k _ f out => fields s !! k = Some f /\ f_data_type out = f_data_type f
  | PctAggregation k scale cc f out => fields s !! k = Some f /\ f_data_type f = DT_Int64 /\ f_data_type out = DT_Binary /\ scale_ok scale /\
      exists n, (Z.to_nat (get_percentile_capacity scale) <= n)%nat /\ cc = zeroed n
  end.

Lemma to_aggregation_ok d : descriptor_ok d -> exists a, to_aggregation (E := E) vec_capacity d s = Ok a /\ agg_ok a.
Proof.
  assert (forall c t, (exists k f, to_column (E := E) c s = Ok (k, f) /\ is_value_agg (f_data_type f) = true) ->
    exists a, (let* (index, field) := to_column c s in create_basic_agg index t field) = Ok (E := E) a /\ agg_ok a) as Hbasic.
  { intros c t (k & f & Hc & Hf). rewrite Hc. run_bind. unfold create_basic_agg. rewrite Hf. eexists. split; [done|].
    split; [apply Field_new_wf|]. by apply to_column_field in Hc. }
  destruct d as [|c|c|c|c scale]; cbn [descriptor_ok to_aggregation]; [|apply Hbasic..|].
  - intros _. eexists. split; [done|]. by split; [apply Field_new_wf|].
  - intros (Hsc & k & f & Hc & Hf). rewrite Hc. run_bind. eexists. split; [done|]. split; [apply Field_new_wf|]. apply to_column_field in Hc. cbn.
    split_and!; try done. eexists. split; [|done]. apply Hcap. unfold get_percentile_capacity. apply Z.shiftl_nonneg. lia.
Qed.

Lemma column_snoc k rows row v : row !! k = Some v -> column k (rows ++ [row]) = column k rows ++ [v].
Proof. intros Hv. unfold column. rewrite omap_app. cbn. by rewrite Hv. Qed.

Lemma basic_agg_type t a b : value_type a = value_type b -> value_type (basic_agg t a b) = value_type a.
Proof. intros H. destruct t; cbn [basic_agg]; [by destruct a, b|by destruct (value_gt a b)..]. Qed.

(** One record more. *)
Definition state_reads (rows : list (list Value)) (a : Aggregation) (index : nat) (vr : option (list Z * Buffer)) : Prop :=
  match vr with
  | None => rows = []
  | Some (types, b) => exists v, agg_holds a rows v /\ value_type v = f_data_type (output_field a) /\ buf_get types b index (value_type v) = Some v
  end.

Lemma row_at row k f : row_fits row -> fields s !! k = Some f -> exists v, row !! k = Some v /\ value_type v = f_data_type f /\
  (f_data_type f = DT_Int64 -> exists z, v = V_Int DT_Int64 z).
Proof. intros Hr Hf. destruct (Forall2_lookup_l _ _ _ _ _ Hr Hf) as (v & Hv & Ht & Hz). eauto. Qed.

Lemma agg_step a rows row vr index types b : agg_ok a -> row_fits row -> reads types b row -> Z.of_nat (length rows) + 1 < 2 ^ 64 -> state_reads rows a index vr ->
  exists v, agg_reduce (E := E) a vr index (types, b) = Ok v /\ agg_holds a (rows ++ [row]) v /\ value_type v = f_data_type (output_field a).
Proof.
  intros [_ Hok] Hfit Hrd Hlen Hst. destruct a as [fo|k t f fo|k scale cc f fo]; cbn [agg_reduce output_field agg_holds] in *; unfold count_reduce, basic_reduce, pct_reduce, value_agg_read; cbn [fst snd].
  - destruct vr as [[ty sb]|]; cbn in Hst.
    + destruct Hst as (v & -> & Ht & Hg). unfold get_int. rewrite Hok in Ht. cbn in Hg. rewrite Hg. cbn. eexists. split; [done|]. split; [|done].
      rewrite length_app. cbn. f_equal. rewrite (wrap_u_small 64 (Z.of_nat (length rows))) by (unfold in_u; lia). f_equal. lia.
    + subst rows. eexists. split; [done|]. by split.
  - destruct Hok as [Hf Ho]. destruct (row_at row k f Hfit Hf) as (rv & Hrv & Hrt & _). rewrite <- Hrt, (Hrd k rv Hrv). cbn. rewrite (column_snoc k rows row rv Hrv).
    destruct vr as [[ty sb]|]; cbn in Hst.
    + destruct Hst as (v & (v0 & vs & Hcol & Hv) & Ht & Hg). assert (value_type v = value_type rv) as Hvt by congruence. rewrite <- Hvt, Hg. cbn. eexists. split; [done|]. split.
      * exists v0, (vs ++ [rv]). rewrite Hcol. split; [done|]. rewrite foldl_app. cbn. by rewrite Hv.
      * rewrite basic_agg_type by done. congruence.
    + subst rows. eexists. split; [done|]. split; [by exists rv, []|congruence].
  - destruct Hok as (Hf & Hi & Ho & Hsc & n & Hn & Hcc). destruct (row_at row k f Hfit Hf) as (rv & Hrv & Hrt & Hz). destruct (Hz Hi) as [z ->].
    unfold get_int. pose proof (Hrd k _ Hrv) as Hg. cbn in Hg. rewrite Hg. cbn. rewrite (column_snoc k rows row _ Hrv).
    destruct vr as [[ty sb]|]; cbn in Hst.
    + destruct Hst as (v & (zs & ex & Hcol & ->) & Ht & Hg'). cbn in Hg'. unfold get_binary. rewrite Hg'. cbn. rewrite accumulate_counts; [|done|].
      * cbn. eexists. split; [done|]. split; [|done]. exists (zs ++ [z]), ex. rewrite Hcol, !fmap_app. done.
      * rewrite length_fmap. assert (length zs <= length rows)%nat; [|lia]. rewrite <- (length_fmap (V_Int DT_Int64) zs), <- Hcol. unfold column. apply length_omap_le.
    + subst rows. rewrite Hcc, (zeroed_counts scale n Hn), accumulate_counts by (done || (cbn; lia)). cbn. eexists. split; [done|]. split; [|done]. by exists [z], (zeroed (n - Z.to_nat (get_percentile_capacity scale))).
Qed.

(** ** The whole record *)
Definition out_types (aggs : list Aggregation) : list Z := f_type_id <$> (output_field <$> aggs).

Definition agg_values (aggs : list Aggregation) (rows : list (list Value)) (vs : list Value) : Prop :=
  Forall2 (fun a v => agg_holds a rows v /\ value_type v = f_data_type (output_field a)) aggs vs.

Lemma agg_loop_ok rows row vr types b aggs : row_fits row -> reads types b row -> Z.of_nat (length rows) + 1 < 2 ^ 64 -> forall index,
  Forall agg_ok aggs -> (forall j a, aggs !! j = Some a -> state_reads rows a (index + j) vr) ->
  exists vs, agg_loop (E := E) aggs index vr (types, b) = Ok vs /\ agg_values aggs (rows ++ [row]) vs.
Proof.
  intros Hfit Hrd Hlen. induction aggs as [|a aggs IH]; intros index Hok Hst; [exists []; by split; [|constructor]|]. apply Forall_cons in Hok as [Ha Hok].
  destruct (agg_step a rows row vr index types b Ha Hfit Hrd Hlen) as (v & Hv & Hh & Ht); [specialize (Hst 0%nat a eq_refl); by rewrite Nat.add_0_r in Hst|].
  destruct (IH (S index) Hok) as (vs & Hvs & Hall); [intros j a' Ha'; specialize (Hst (S j) a' Ha'); by rewrite Nat.add_succ_r in Hst|].
  exists (v :: vs). cbn [agg_loop]. rewrite Hv. run_bind. rewrite Hvs. split; [done|]. by constructor.
Qed.

(** The record of the state reads as the results of the aggregations. *)
Definition state_ok (aggs : list Aggregation) (rows : list (list Value)) (acc : option record) : Prop :=
  match acc with
  | None => rows = []
  | Some r => exists vs, agg_values aggs rows vs /\ reads (out_types aggs) (r_values r) vs
  end.

Lemma sr_reduce_ok f rows row acc r : sr_schema f = s -> type_ids (sr_val_schema f) = out_types (sr_agg_operators f) -> Forall agg_ok (sr_agg_operators f) ->
  row_fits row -> reads (type_ids s) (r_values r) row -> Z.of_nat (length rows) + 1 < 2 ^ 64 -> state_ok (sr_agg_operators f) rows acc ->
  exists v, sr_reduce (E := E) f acc r = Ok v /\ state_ok (sr_agg_operators f) (rows ++ [row]) (Some v).
Proof.
  intros Hs Hty Hok Hfit Hrd Hlen Hst. unfold sr_reduce. rewrite Hs, Hty.
  destruct (agg_loop_ok rows row ((fun v => (out_types (sr_agg_operators f), r_values v)) <$> acc) (type_ids s) (r_values r) (sr_agg_operators f) Hfit Hrd Hlen 0%nat Hok) as (vs & Hvs & Hall).
  { intros j a Ha. destruct acc as [sv|]; cbn in *; [|done]. destruct Hst as (vs & Hall & Hrs). destruct (Forall2_lookup_l _ _ _ _ _ Hall Ha) as (v & Hv & Hh & Ht).
    exists v. split_and!; [done|done|by apply Hrs]. }
  rewrite Hvs. run_bind. destruct (buf_write_get (out_types (sr_agg_operators f)) vs) as (buf & Hb & Hget).
  { unfold out_types. apply Forall2_fmap_l, Forall2_fmap_l. rewrite Forall_forall in Hok. eapply Forall2_impl; [apply Forall2_same_length_lookup_2|].
    - by apply Forall2_length in Hall.
    - intros j a v Ha Hv. exact (conj (list_elem_of_lookup_2 _ _ _ Ha) (Forall2_lookup_lr _ _ _ _ _ _ Hall Ha Hv)).
    - cbn. intros a v (Hin & _ & ->). destruct (Hok a Hin) as [[_ ->] _]. done. }
  rewrite Hb. cbn. eexists. split; [done|]. exists vs. split; [done|]. exact Hget.
Qed.

Lemma agg_schema_ok ds p : Forall descriptor_ok ds -> exists aggs len, agg_schema (E := E) vec_capacity (SchemaReduce_new ds p) s = Ok (aggs, output_field <$> aggs, len) /\
  Forall agg_ok aggs /\ Forall2 (fun d a => to_aggregation (E := E) vec_capacity d s = Ok a) ds aggs.
Proof.
  intros Hok. unfold agg_schema. cbn [sr_agg_descriptors SchemaReduce_new].
  assert (forall as0 len0, exists aggs len, foldM (fun '(aggs, fs, len) d => let* agg := to_aggregation vec_capacity d s in Ok (aggs ++ [agg], fs ++ [output_field agg], len + agg_len agg))
    (as0, output_field <$> as0, len0) ds = Ok (E := E) (as0 ++ aggs, output_field <$> (as0 ++ aggs), len) /\ Forall agg_ok aggs /\
    Forall2 (fun d a => to_aggregation (E := E) vec_capacity d s = Ok a) ds aggs) as H; [|exact (H [] 0)].
  induction Hok as [|d ds Hd _ IH]; intros as0 len0; [exists [], len0; rewrite app_nil_r; by split_and!|].
  destruct (to_aggregation_ok d Hd) as (a & Ha & Hao). cbn [foldM]. rewrite Ha. run_bind. destruct (IH (as0 ++ [a]) (len0 + agg_len a)) as (aggs & len & Hf & Hall & H2).
  exists (a :: aggs), len. rewrite fmap_app in Hf. cbn [fmap list_fmap] in Hf. rewrite Hf, <- app_assoc. split_and!; [done|by constructor|by constructor].
Qed.
End schema_reduce_lemmas.

(** ** Integer columns: the sum at the width of the type, the maximum and the minimum *)
Lemma wrap_type_add t x y : wrap_type t (wrap_type t x + y) = wrap_type t (x + y).
Proof.
  assert (forall w x y, 0 < w -> wrap_u w (wrap_u w x + y) = wrap_u w (x + y)) as Hu by (intros w a b Hw; unfold wrap_u; by rewrite Z.add_mod_idemp_l by lia).
  assert (forall w x y, 0 < w -> wrap_i w (wrap_i w x + y) = wrap_i w (x + y)) as Hi.
  { intros w a b Hw. unfold wrap_i. f_equal. replace (((a + 2 ^ (w - 1)) mod 2 ^ w - 2 ^ (w - 1)) + b + 2 ^ (w - 1)) with ((a + 2 ^ (w - 1)) mod 2 ^ w + b) by lia.
    rewrite Z.add_mod_idemp_l by lia. f_equal. lia. }
  destruct t; cbn [wrap_type]; (done || (apply Hu; lia) || (apply Hi; lia)).
Qed.

Lemma int_column t z zs : wrap_type t z = z ->
  foldl (basic_agg Agg_Sum) (V_Int t z) (V_Int t <$> zs) = V_Int t (wrap_type t (z + foldr Z.add 0 zs)) /\
  foldl (basic_agg Agg_Max) (V_Int t z) (V_Int t <$> zs) = V_Int t (foldl Z.max z zs) /\
  foldl (basic_agg Agg_Min) (V_Int t z) (V_Int t <$> zs) = V_Int t (foldl Z.min z zs).
Proof.
  intros Hz. split_and!.
  - rewrite <- Hz at 1. clear Hz. revert z. induction zs as [|y zs IH]; intros z; [cbn; by rewrite Z.add_0_r|]. rewrite fmap_cons. cbn [foldl foldr basic_agg value_add].
    rewrite wrap_type_add, IH. f_equal. f_equal. lia.
  - clear Hz. revert z. induction zs as [|y zs IH]; intros z; [done|]. rewrite fmap_cons. cbn [foldl basic_agg value_gt].
    destruct (Z.ltb_spec y z); rewrite IH; do 2 f_equal; lia.
  - clear Hz. revert z. induction zs as [|y zs IH]; intros z; [done|]. rewrite fmap_cons. cbn [foldl basic_agg value_gt].
    destruct (Z.ltb_spec y z); rewrite IH; do 2 f_equal; lia.
Qed.

(** A column of integers is summed at the width of its type; its maximum and minimum are
    those of the numbers. *)
Definition int_holds (rows : list (list Value)) (a : Aggregation) (v : Value) : Prop :=
  match a with
  | BasicAggregation k t _ _ => forall ty z zs, column k rows = V_Int ty <$> (z :: zs) -> wrap_type ty z = z ->
      v = V_Int ty (match t with Agg_Sum => wrap_type ty (z + foldr Z.add 0 zs) | Agg_Max => foldl Z.max z zs | Agg_Min => foldl Z.min z zs end)
  | _ => True
  end.

Lemma agg_int_holds a rows v : agg_holds a rows v -> int_holds rows a v.
Proof.
  destruct a as [|k t f fo|]; [done| |done]. intros (v0 & vs & Hcol & ->) ty z zs Hint Hz. rewrite Hcol in Hint. rewrite fmap_cons in Hint. injection Hint as -> ->.
  destruct (int_column ty z zs Hz) as (Hs & Hmax & Hmin). by destruct t.
Qed.

(** An opened function folds any records, and what it has folded it holds. *)
Definition has_row {SB : SerBuffer} {ST : SerTypes} {SC : SerColumns} (s : Schema) (r : record) (row : list Value) : Prop := row_fits s row /\ reads (type_ids s) (r_values r) row.

Lemma sr_opened {SB : SerBuffer} {ST : SerTypes} {SC : SerColumns} {E} vec_capacity s ds p :
  (forall n, 0 <= n -> (Z.to_nat n <= vec_capacity n)%nat) -> Forall (descriptor_ok (E := E) s) ds ->
  exists f, sr_open (E := E) vec_capacity (SchemaReduce_new ds p) (FnSchema_Single s) = Ok f /\ type_ids (sr_val_schema f) = out_types (sr_agg_operators f) /\
    Forall2 (fun d a => to_aggregation (E := E) vec_capacity d s = Ok a) ds (sr_agg_operators f) /\
    forall rs rows, Forall2 (has_row s) rs rows -> Z.of_nat (length rs) < 2 ^ 64 -> exists acc, reduce_all (E := E) f rs = Ok acc /\ state_ok (sr_agg_operators f) rows acc.
Proof.
  intros Hcap Hds. destruct (agg_schema_ok (E := E) vec_capacity Hcap s ds p Hds) as (aggs & len & Ha & Hok & H2).
  set (f := mkSchemaReduce p s (Schema_new (output_field <$> aggs)) len ds aggs). exists f.
  assert (sr_open (E := E) vec_capacity (SchemaReduce_new ds p) (FnSchema_Single s) = Ok f) as Hopen by (unfold sr_open, sr_schema_fn; cbn [fn_schema_first mbind res_bind]; rewrite Ha; reflexivity).
  split_and!; [done|done|done|]. intros rs. unfold reduce_all. induction rs as [|r rs IH] using rev_ind; intros rows Hrows Hlen; [apply Forall2_nil_inv_l in Hrows as ->; by exists None|].
  apply Forall2_app_inv_l in Hrows as (rows1 & rows2 & Hr1 & Hr2 & ->). apply Forall2_cons_inv_l in Hr2 as (row & z & [Hfit Hrd] & Hz & ->). apply Forall2_nil_inv_l in Hz as ->.
  rewrite length_app in Hlen. cbn in Hlen. destruct (IH rows1 Hr1 ltac:(lia)) as (acc & Hf & Hst). rewrite foldM_app, Hf. cbn [mbind res_bind foldM].
  apply Forall2_length in Hr1. destruct (sr_reduce_ok (E := E) s f rows1 row acc r) as (v & Hv & Hst'); try done; [lia|]. rewrite Hv. run_bind. by exists (Some v).
Qed.

(** What a state holds that is not empty. *)
Lemma state_holds {SB : SerBuffer} {ST : SerTypes} {SC : SerColumns} aggs rows acc : state_ok aggs rows acc -> rows <> [] ->
  exists r vs, acc = Some r /\ agg_values aggs rows vs /\ Forall2 (int_holds rows) aggs vs /\ reads (out_types aggs) (r_values r) vs.
Proof.
  intros Hst Hne. destruct acc as [r|]; [|done]. destruct Hst as (vs & Hall & Hrd). exists r, vs. split_and!; [done|done| |done].
  eapply Forall2_impl; [exact Hall|]. intros a v [Hh _]. by apply agg_int_holds.
Qed.

(** Aggregating columns: for descriptors whose columns exist and have number types, the
    function opens, and folding any records into the state never fails and leaves in each
    column what its aggregation promises of that column of the records: their number, the
    fold of the sum, maximum or minimum in the type of the column, or the counters of the
    percentile. For integers that is the sum at their width and their maximum and minimum. *)
Theorem schema_reduce_spec {SB : SerBuffer} {ST : SerTypes} {SC : SerColumns} {E} vec_capacity s ds p rs rows :
  (forall n, 0 <= n -> (Z.to_nat n <= vec_capacity n)%nat) -> Forall (descriptor_ok (E := E) s) ds ->
  Forall2 (fun r row => row_fits s row /\ reads (type_ids s) (r_values r) row) rs rows -> rs <> [] -> Z.of_nat (length rs) < 2 ^ 64 ->
  exists f r, sr_open (E := E) vec_capacity (SchemaReduce_new ds p) (FnSchema_Single s) = Ok f /\ reduce_all (E := E) f rs = Ok (Some r) /\
    Forall2 (fun d a => to_aggregation (E := E) vec_capacity d s = Ok a) ds (sr_agg_operators f) /\
    exists vs, agg_values (sr_agg_operators f) rows vs /\ Forall2 (int_holds rows) (sr_agg_operators f) vs /\ reads (type_ids (sr_val_schema f)) (r_values r) vs.
Proof.
  intros Hcap Hds Hrows Hne Hlen. destruct (sr_opened (E := E) vec_capacity s ds p Hcap Hds) as (f & Hopen & Hty & H2 & Hfold). destruct (Hfold rs rows Hrows Hlen) as (acc & Hacc & Hst).
  destruct (state_holds _ _ _ Hst) as (r & vs & -> & Hv & Hi & Hr); [intros ->; by apply Forall2_nil_inv_r in Hrows|]. exists f, r. rewrite Hty. eauto 10.
Qed.

(** ** Examples *)
Section evaluated.

(** Type numbers in the order of the declaration; buffers that also keep the values
    written to them. *)
Definition ex_types : SerTypes.
Proof. refine {| types_BOOL := 1; types_I8 := 2; types_U8 := 3; types_I16 := 4; types_U16 := 5; types_I32 := 6; types_U32 := 7; types_I64 := 8; types_U64 := 9; types_F32 := 10; types_F64 := 11; types_BINARY := 12; types_STRING := 13 |}. by apply (bool_decide_unpack _). Defined.

#[local] Existing Instance ex_types.

Definition ex_buffer : SerBuffer.
Proof.
  refine {| Buffer := list Z * list Value; buf_new := ([], []); buf_from := fun l => (l, []); as_slice := fst; buf_len := fun b => Z.of_nat (length b.1);
    buf_extend := fun a b => Ok (a.1 ++ b.1, a.2 ++ b.2) |}; try done. intros a b c [= <-]. done.
Defined.

#[local] Existing Instance ex_buffer.

Definition ex_columns : SerColumns.
Proof.
  refine {| buf_write := fun types vs => Some (([] : list Z, vs) : Buffer); buf_get := fun types b k t => v ← b.2 !! k; if decide (value_type v = t) then Some v else None |}.
  intros types vs _. eexists. split; [reflexivity|]. intros k v Hv. cbn. rewrite Hv. cbn. by rewrite decide_True.
Defined.

#[local] Existing Instance ex_columns.

Definition ex_schema : Schema := Schema_new [Field_new "key" DT_UInt8; Field_new "n" DT_Int64].
Definition ex_row (k n : Z) : list Value := [V_Int DT_UInt8 k; V_Int DT_Int64 n].
Definition ex_record (k n : Z) : record := set_values ([], ex_row k n) Record_new.
Definition ex_descriptors : list AggregationDescriptor := [AD_Count; AD_Sum (CL_Name "key"); AD_Max (CL_Index 1); AD_Pct (CL_Name "n") ex_scale].

(** 200 and 100 make 44 in a column of bytes. *)
Example ex_reduced :
  (let* f := sr_open (E := unit) Z.to_nat (SchemaReduce_new ex_descriptors 1) (FnSchema_Single ex_schema) in
   let* r := reduce_all f [ex_record 200 3; ex_record 100 (-7)] in
   Ok (f_name <$> fields (sr_val_schema f), (fun r => take 3 (r_values r).2) <$> r)) =
  Ok (["count"; "sum(key)"; "max(n)"; "pct(n)"], Some [V_Int DT_UInt64 2; V_Int DT_UInt8 44; V_Int DT_Int64 3]).
Proof. vm_compute. reflexivity. Qed.

Lemma schema_reduce_spec_witness : exists f r, sr_open (E := unit) Z.to_nat (SchemaReduce_new ex_descriptors 1) (FnSchema_Single ex_schema) = Ok f /\
  reduce_all (E := unit) f [ex_record 200 3; ex_record 100 (-7)] = Ok (Some r) /\
  exists vs, agg_values (sr_agg_operators f) [ex_row 200 3; ex_row 100 (-7)] vs /\ Forall2 (int_holds [ex_row 200 3; ex_row 100 (-7)]) (sr_agg_operators f) vs /\ reads (type_ids (sr_val_schema f)) (r_values r) vs.
Proof.
  destruct (schema_reduce_spec (E := unit) Z.to_nat ex_schema ex_descriptors 1 [ex_record 200 3; ex_record 100 (-7)] [ex_row 200 3; ex_row 100 (-7)])
    as (f & r & Ho & Hr & _ & Hvs).
  - intros n _. apply le_n.
  - apply Forall_cons_2; [exact I|]. apply Forall_cons_2; [eexists _, _; split; reflexivity|]. apply Forall_cons_2; [eexists _, _; split; reflexivity|].
    apply Forall_cons_2; [split; [apply ex_scale_ok|eexists _, _; split; reflexivity]|apply Forall_nil_2].
  - repeat constructor; try (intros H; discriminate H); try (intros _; eexists; reflexivity); intros [|[|k]] v Hv; try discriminate Hv; injection Hv as <-; reflexivity.
  - discriminate.
  - reflexivity.
  - exists f, r. split; [exact Ho|]. split; [exact Hr|exact Hvs].
Defined.
End evaluated.
