(* ===== verification/Watermark.v ===== *)
(** * Watermark: watermark generators (src/rlink/src/functions/watermark/)

    The boxed [dyn WatermarkGenerator] is an inductive type with a constructor
    per implementation of the repository and one, [Gen_User], for a generator
    given by the application (the type [U] and its two methods are parameters).
    [on_event] and [on_periodic_emit] take the reading of the clock
    ([current_timestamp_millis]) of that call as [now].

    The theorems: whatever wrappers are put around the bounded-out-of-orderness
    generator, every watermark it emits is the idle marker or follows the greatest
    event time seen, and the latter never decrease ([generator_run_spec]); the idle
    marker appears exactly when a full timeout has passed without activity. *)
From Stdlib Require Import ZArith Lia Sorted.
From stdpp Require Import base strings numbers option sets gmap list.
From S2P Require Import Prelude Bytes Runtime Window Element.

(** ** Bounded out-of-orderness *)
Record BoundedOutOfOrdernessWatermarks := mkBoo {
  boo_max_timestamp : Z;
  boo_out_of_orderness_millis : Z
}.

Definition Boo_new (out_of_orderness_millis : Z) : BoundedOutOfOrdernessWatermarks :=
  mkBoo 0 (wrap_u 64 out_of_orderness_millis).

Definition boo_on_event (b : BoundedOutOfOrdernessWatermarks) (event_timestamp : Z)
    : BoundedOutOfOrdernessWatermarks * option Z :=
  if boo_max_timestamp b <? event_timestamp
  then (mkBoo event_timestamp (boo_out_of_orderness_millis b), None)
  else (b, None).

Definition boo_on_periodic_emit (b : BoundedOutOfOrdernessWatermarks) : option Z :=
  let timestamp :=
    if boo_out_of_orderness_millis b <? boo_max_timestamp b
    then boo_max_timestamp b -u64 boo_out_of_orderness_millis b -u64 1
    else MIN_WATERMARK in
  Some timestamp.

(** ** Idleness timer *)
Record IdlenessTimer := mkIdle {
  counter : Z;
  last_counter : Z;
  start_of_inactivity_millis : Z;
  max_idle_time_millis : Z
}.

Definition IdlenessTimer_new (idle_timeout : Z) : IdlenessTimer :=
  mkIdle 0 0 0 (wrap_u 64 idle_timeout).

Definition activity (t : IdlenessTimer) : IdlenessTimer :=
  mkIdle (counter t +u64 1) (last_counter t) (start_of_inactivity_millis t) (max_idle_time_millis t).

Definition check_if_idle (now : Z) (t : IdlenessTimer) : IdlenessTimer * bool :=
  if negb (counter t =? last_counter t) then
    (mkIdle (counter t) (counter t) 0 (max_idle_time_millis t), false)
  else if start_of_inactivity_millis t =? 0 then
    (mkIdle (counter t) (last_counter t) now (max_idle_time_millis t), false)
  else (t, max_idle_time_millis t <? now -u64 start_of_inactivity_millis t).

(** ** Generators *)
Section generators.
Context {SB : SerBuffer}.
Context {U : Type}
  (user_on_event : U -> record -> Z -> U * record * option Z)
  (user_on_periodic_emit : U -> U * option Z).

(** The state of [TimePeriodicWatermarks] besides the wrapped generator. *)
Record TimePeriodic := mkPeriodic {
  tp_process_timestamp : Z;
  tp_event_timestamp : Z;
  tp_process_period : Z;
  tp_event_period : Z
}.

Inductive WatermarkGenerator : Type :=
  | Gen_Boo (b : BoundedOutOfOrdernessWatermarks)
  | Gen_TimePeriodic (watermarks : WatermarkGenerator) (p : TimePeriodic)
  | Gen_WithIdleness (watermarks : WatermarkGenerator) (idleness_timer : IdlenessTimer)
  | Gen_User (u : U).

Definition TimePeriodicWatermarks_new (g : WatermarkGenerator) (process_period event_period : Z)
    : WatermarkGenerator :=
  Gen_TimePeriodic g (mkPeriodic 0 0 (wrap_i 64 process_period) (wrap_i 64 event_period)).

Definition WatermarksWithIdleness_new (g : WatermarkGenerator) (idle_timeout : Z) : WatermarkGenerator :=
  Gen_WithIdleness g (IdlenessTimer_new idle_timeout).

Fixpoint on_periodic_emit (now : Z) (g : WatermarkGenerator) : WatermarkGenerator * option Z :=
  match g with
  | Gen_Boo b => (g, boo_on_periodic_emit b)
  | Gen_TimePeriodic watermarks p =>
      let '(watermarks, w) := on_periodic_emit now watermarks in
      (Gen_TimePeriodic watermarks p, w)
  | Gen_WithIdleness watermarks idleness_timer =>
      let '(idleness_timer, idle) := check_if_idle now idleness_timer in
      if (idle : bool) then (Gen_WithIdleness watermarks idleness_timer, Some IDLE_WATERMARK)
      else
        let '(watermarks, w) := on_periodic_emit now watermarks in
        (Gen_WithIdleness watermarks idleness_timer, w)
  | Gen_User u => let '(u, w) := user_on_periodic_emit u in (Gen_User u, w)
  end.

Fixpoint on_event (now : Z) (g : WatermarkGenerator) (r : record) (event_timestamp : Z)
    : WatermarkGenerator * record * option Z :=
  match g with
  | Gen_Boo b => let '(b, w) := boo_on_event b event_timestamp in (Gen_Boo b, r, w)
  | Gen_TimePeriodic watermarks p =>
      let '(watermarks, r, w) := on_event now watermarks r event_timestamp in
      match w with
      | Some w => (Gen_TimePeriodic watermarks p, r, Some w)
      | None =>
          let event_timestamp := wrap_i 64 event_timestamp in
          if tp_process_timestamp p =? 0 then
            (Gen_TimePeriodic watermarks
               (mkPeriodic (wrap_i 64 now) event_timestamp (tp_process_period p) (tp_event_period p)),
             r, None)
          else if tp_event_period p <? event_timestamp -i64 tp_event_timestamp p then
            let old_process_timestamp := tp_process_timestamp p in
            let current_process_timestamp := wrap_i 64 now in
            let p := mkPeriodic current_process_timestamp event_timestamp
                       (tp_process_period p) (tp_event_period p) in
            if current_process_timestamp -i64 old_process_timestamp <? tp_process_period p then
              let '(watermarks, w) := on_periodic_emit now watermarks in
              (Gen_TimePeriodic watermarks p, r, w)
            else (Gen_TimePeriodic watermarks p, r, None)
          else (Gen_TimePeriodic watermarks p, r, None)
      end
  | Gen_WithIdleness watermarks idleness_timer =>
      let idleness_timer := activity idleness_timer in
      let '(watermarks, r, w) := on_event now watermarks r event_timestamp in
      (Gen_WithIdleness watermarks idleness_timer, r, w)
  | Gen_User u =>
      let '(u, r, w) := user_on_event u r event_timestamp in (Gen_User u, r, w)
  end.

(** ** The default strategy: a builder of a generator and a timestamp assigner *)
Context {TA : Type}.

Record DefaultWatermarkStrategy := mkStrategy {
  st_watermark_generator : option WatermarkGenerator;
  st_timestamp_assigner : option TA
}.

Definition Strategy_new : DefaultWatermarkStrategy := mkStrategy None None.

Definition for_bounded_out_of_orderness (s : DefaultWatermarkStrategy) (millis : Z) : DefaultWatermarkStrategy :=
  mkStrategy (Some (Gen_Boo (Boo_new millis))) (st_timestamp_assigner s).

Definition wrap_time_periodic {E} (s : DefaultWatermarkStrategy) (process_period event_period : Z)
    : res E DefaultWatermarkStrategy :=
  match st_watermark_generator s with
  | Some g => Ok (mkStrategy (Some (TimePeriodicWatermarks_new g process_period event_period))
                    (st_timestamp_assigner s))
  | None => Panic "no WatermarkGenerator for wrapper"
  end.

Definition wrap_idleness {E} (s : DefaultWatermarkStrategy) (idle_timeout : Z)
    : res E DefaultWatermarkStrategy :=
  match st_watermark_generator s with
  | Some g => Ok (mkStrategy (Some (WatermarksWithIdleness_new g idle_timeout)) (st_timestamp_assigner s))
  | None => Panic "no WatermarkGenerator for wrapper"
  end.

Definition for_watermark_generator (s : DefaultWatermarkStrategy) (u : U) : DefaultWatermarkStrategy :=
  mkStrategy (Some (Gen_User u)) (st_timestamp_assigner s).

Definition for_timestamp_assigner (s : DefaultWatermarkStrategy) (a : TA) : DefaultWatermarkStrategy :=
  mkStrategy (st_watermark_generator s) (Some a).

(** [create_watermark_generator] takes the generator out: a second call panics. *)
Definition create_watermark_generator {E} (s : DefaultWatermarkStrategy)
    : res E (WatermarkGenerator * DefaultWatermarkStrategy) :=
  g ← unwrap "called `Option::unwrap()` on a `None` value" (st_watermark_generator s);
  Ok (g, mkStrategy None (st_timestamp_assigner s)).

Definition create_timestamp_assigner {E} (s : DefaultWatermarkStrategy)
    : res E (TA * DefaultWatermarkStrategy) :=
  a ← unwrap "called `Option::unwrap()` on a `None` value" (st_timestamp_assigner s);
  Ok (a, mkStrategy (st_watermark_generator s) None).

(** ** Specification *)

(** The calls the watermark assigner makes to its generator. *)
Inductive gen_call : Type :=
  | Call_event (now : Z) (r : record) (event_timestamp : Z)
  | Call_emit (now : Z).

Definition gen_step (g : WatermarkGenerator) (c : gen_call) : WatermarkGenerator * option Z :=
  match c with
  | Call_event now r ts => let '(g, _, w) := on_event now g r ts in (g, w)
  | Call_emit now => on_periodic_emit now g
  end.

(** The watermarks of a sequence of calls. *)
Fixpoint gen_run (g : WatermarkGenerator) (cs : list gen_call) : list (option Z) :=
  match cs with
  | [] => []
  | c :: cs' => let '(g, w) := gen_step g c in w :: gen_run g cs'
  end.

(** The bounded-out-of-orderness generator inside the wrappers. *)
Fixpoint base (g : WatermarkGenerator) : option BoundedOutOfOrdernessWatermarks :=
  match g with
  | Gen_Boo b => Some b
  | Gen_TimePeriodic g _ | Gen_WithIdleness g _ => base g
  | Gen_User _ => None
  end.

(** The greatest event time before each call, starting from [m]. *)
Definition max_event (m : Z) (c : gen_call) : Z :=
  match c with Call_event _ _ ts => Z.max m ts | Call_emit _ => m end.

Fixpoint max_events (m : Z) (cs : list gen_call) : list Z :=
  match cs with
  | [] => []
  | c :: cs' => max_event m c :: max_events (max_event m c) cs'
  end.

(** The watermark for greatest event time [m] and bound [d]: no event with
    timestamp at most this is expected if events are at most [d] late. *)
Definition event_watermark (d m : Z) : Z := if d <? m then m - d - 1 else 0.

Definition call_wf (c : gen_call) : Prop :=
  match c with Call_event _ _ ts => in_u 64 ts | Call_emit _ => True end.

(** The emitted values that are not the idle marker. *)
Definition active (ws : list (option Z)) : list Z :=
  filter (fun w => w <> IDLE_WATERMARK) (omap id ws).
End generators.

(** ** Lemmas *)
Section generator_lemmas.
Context {SB : SerBuffer} {U : Type}
  (user_on_event : U -> record -> Z -> U * record * option Z)
  (user_on_periodic_emit : U -> U * option Z).
#[local] Notation on_event' := (on_event user_on_event user_on_periodic_emit).
#[local] Notation emit' := (on_periodic_emit user_on_periodic_emit).
#[local] Notation run := (gen_run user_on_event user_on_periodic_emit).
#[local] Notation step := (gen_step user_on_event user_on_periodic_emit).
Implicit Types g : WatermarkGenerator (U:=U).

Definition boo_wf (b : BoundedOutOfOrdernessWatermarks) : Prop :=
  in_u 64 (boo_max_timestamp b) /\ in_u 64 (boo_out_of_orderness_millis b).

(** What one call may return when the greatest event time is [m]. *)
Definition emits (d m : Z) (w : option Z) : Prop :=
  w = None \/ w = Some IDLE_WATERMARK \/ w = Some (event_watermark d m).

Lemma boo_emit b : boo_wf b ->
  boo_on_periodic_emit b = Some (event_watermark (boo_out_of_orderness_millis b) (boo_max_timestamp b)).
Proof.
  intros [H1 H2]. unfold in_u in *. unfold boo_on_periodic_emit, event_watermark.
  destruct (Z.ltb_spec (boo_out_of_orderness_millis b) (boo_max_timestamp b)); [|done].
  by rewrite (wrap_u64_small (boo_max_timestamp b - _)), wrap_u64_small by lia.
Qed.

Lemma boo_event b ts :
  boo_on_event b ts = (mkBoo (Z.max (boo_max_timestamp b) ts) (boo_out_of_orderness_millis b), None).
Proof.
  unfold boo_on_event. destruct (Z.ltb_spec (boo_max_timestamp b) ts).
  - by rewrite Z.max_r by lia.
  - rewrite Z.max_l by lia. by destruct b.
Qed.

(** A periodic emit leaves the base as it is and returns its watermark, or idle. *)
Lemma emit_base now g b : base g = Some b -> boo_wf b ->
  base (emit' now g).1 = Some b /\
  emits (boo_out_of_orderness_millis b) (boo_max_timestamp b) (emit' now g).2.
Proof.
  intros Hb Hwf. induction g as [b'|g IH p|g IH t|u]; simpl in Hb |- *; simplify_eq.
  - split; [done|]. right; right. by apply boo_emit.
  - specialize (IH Hb). by destruct (emit' now g).
  - destruct (check_if_idle now t) as [t' idle]. destruct idle; simpl.
    + split; [done|]. by right; left.
    + specialize (IH Hb). by destruct (emit' now g).
Qed.

(** Around a bounded-out-of-orderness base a periodic emit always answers, and an
    event leaves the record as it is. *)
Lemma emit_some now g b : base g = Some b -> is_Some (emit' now g).2.
Proof.
  induction g as [b'|g IH p|g IH t|u]; simpl; intros Hb; [by eexists| | |done].
  - specialize (IH Hb). by destruct (emit' now g).
  - destruct (check_if_idle now t) as [t' []]; simpl; [by eexists|].
    specialize (IH Hb). by destruct (emit' now g).
Qed.

Lemma event_record now g r ts b : base g = Some b -> (on_event' now g r ts).1.2 = r.
Proof.
  induction g as [b'|g IH p|g IH t|u]; simpl; intros Hb; [|specialize (IH Hb)..|done].
  - by destruct (boo_on_event b' ts).
  - destruct (on_event' now g r ts) as [[g' r'] w]. simpl in IH. subst.
    destruct w; [done|]. repeat case_match; done.
  - by destruct (on_event' now g r ts) as [[g' r'] w].
Qed.

(** An event moves the base to the greatest event time and emits at most that. *)
Lemma event_base now g r ts b : base g = Some b -> boo_wf b -> in_u 64 ts ->
  let b' := mkBoo (Z.max (boo_max_timestamp b) ts) (boo_out_of_orderness_millis b) in
  base (on_event' now g r ts).1.1 = Some b' /\
  emits (boo_out_of_orderness_millis b) (boo_max_timestamp b') (on_event' now g r ts).2.
Proof.
  intros Hb Hwf Hts b'.
  assert (boo_wf b') as Hwf'.
  { destruct Hwf as [H1 H2]. unfold boo_wf, in_u in *; simpl; lia. }
  revert r; induction g as [b0|g IH p|g IH t|u]; intros r; simpl in Hb; simplify_eq.
  - simpl. rewrite boo_event. simpl. split; [done|]. by left.
  - specialize (IH Hb r). cbn [on_event]. destruct (on_event' now g r ts) as [[g' r'] w].
    simpl in IH. destruct IH as [IH1 IH2]. destruct w as [w|]; [done|].
    case_match; [by split; [|left]|]. case_match; [|by split; [|left]].
    case_match; [|by split; [|left]].
    pose proof (emit_base now g' b' IH1 Hwf') as He. by destruct (emit' now g').
  - specialize (IH Hb r). simpl. by destruct (on_event' now g r ts) as [[g' r'] w].
Qed.

Lemma gen_step_base g c b : base g = Some b -> boo_wf b -> call_wf c ->
  let b' := mkBoo (max_event (boo_max_timestamp b) c) (boo_out_of_orderness_millis b) in
  boo_wf b' /\ base (step g c).1 = Some b' /\
  emits (boo_out_of_orderness_millis b) (boo_max_timestamp b') (step g c).2.
Proof.
  intros Hb Hwf Hc. destruct c as [now r ts|now]; simpl in *.
  - split. { destruct Hwf as [H1 H2]. unfold boo_wf, in_u in *; simpl; lia. }
    pose proof (event_base now g r ts b Hb Hwf Hc) as He. by destruct (on_event' now g r ts) as [[? ?] ?].
  - replace (mkBoo _ _) with b by by destruct b. split; [done|]. by apply emit_base.
Qed.

Lemma gen_run_emits g cs b : base g = Some b -> boo_wf b -> Forall call_wf cs ->
  Forall2 (fun w m => emits (boo_out_of_orderness_millis b) m w)
    (run g cs) (max_events (boo_max_timestamp b) cs).
Proof.
  revert g b; induction cs as [|c cs IH]; intros g b Hb Hwf Hcs; simpl; [constructor|].
  apply Forall_cons in Hcs as [Hc Hcs].
  destruct (gen_step_base g c b Hb Hwf Hc) as (Hwf' & Hb' & He).
  destruct (step g c) as [g' w]; simpl in *. constructor; [done|].
  exact (IH g' _ Hb' Hwf' Hcs).
Qed.

Lemma max_events_ge m cs x : x ∈ max_events m cs -> m <= x.
Proof.
  revert m; induction cs as [|c cs IH]; intros m; simpl; [by rewrite elem_of_nil|].
  assert (m <= max_event m c) by (destruct c; simpl; lia).
  rewrite elem_of_cons. intros [->|Hx]; [done|]. specialize (IH _ Hx). lia.
Qed.

Lemma event_watermark_mono d m m' : m <= m' -> event_watermark d m <= event_watermark d m'.
Proof. intros. unfold event_watermark. repeat case_match; bool_to_prop; lia. Qed.

Lemma active_mono d m cs ws :
  Forall2 (fun w m => emits d m w) ws (max_events m cs) ->
  StronglySorted Z.le (active ws) /\ Forall (fun w => event_watermark d m <= w) (active ws).
Proof.
  revert m ws; induction cs as [|c cs IH]; intros m ws; simpl.
  { intros ->%Forall2_nil_inv_r. split; constructor. }
  intros (w & ws' & He & Hws & ->)%Forall2_cons_inv_r.
  assert (m <= max_event m c) by (destruct c; simpl; lia).
  destruct (IH _ _ Hws) as [Hs Hall].
  assert (Forall (fun w => event_watermark d m <= w) (active ws')) as Hall'.
  { eapply Forall_impl; [done|]. intros x Hx. simpl in *.
    pose proof (event_watermark_mono d m (max_event m c)). lia. }
  unfold active in *. destruct He as [->|[->| ->]]; simpl; [done|by rewrite filter_cons_False by (intros []; done)|].
  rewrite filter_cons. case_decide; [|done]. split; constructor; try done.
  apply event_watermark_mono. done.
Qed.

(** the watermarks of an assigner built from [for_bounded_out_of_orderness]
    and any nesting of [wrap_time_periodic] and [wrap_idleness], over any
    sequence of events and periodic ticks: each call returns nothing, the idle
    marker, or the greatest event time so far minus the bound minus one (0 while
    the bound has not passed), and the returned values other than the idle marker
    never decrease. *)
Theorem generator_run_spec (g : WatermarkGenerator (U:=U)) (cs : list gen_call)
    (b : BoundedOutOfOrdernessWatermarks) :
  base g = Some b -> boo_wf b -> Forall call_wf cs ->
  Forall2 (fun w m => w = None \/ w = Some IDLE_WATERMARK \/
             w = Some (event_watermark (boo_out_of_orderness_millis b) m))
    (gen_run user_on_event user_on_periodic_emit g cs) (max_events (boo_max_timestamp b) cs) /\
  StronglySorted Z.le (active (gen_run user_on_event user_on_periodic_emit g cs)).
Proof.
  intros Hb Hwf Hcs. pose proof (gen_run_emits g cs b Hb Hwf Hcs) as He.
  split; [done|]. by eapply active_mono.
Qed.
End generator_lemmas.

Section generator_examples.
#[local] Existing Instance list_buffer.

Definition example_generator : WatermarkGenerator (U:=Empty_set) :=
  WatermarksWithIdleness_new (TimePeriodicWatermarks_new (Gen_Boo (Boo_new 5)) 1000 10) 30.

Definition no_user_event (u : Empty_set) (r : record) (ts : Z) : Empty_set * record * option Z :=
  match u with end.
Definition no_user_emit (u : Empty_set) : Empty_set * option Z := match u with end.

Definition example_calls : list gen_call :=
  [Call_event 100 Record_new 20; Call_event 101 Record_new 40; Call_emit 102; Call_emit 110; Call_emit 200].

Lemma generator_run_spec_witness :
  Forall2 (fun w m => w = None \/ w = Some IDLE_WATERMARK \/ w = Some (event_watermark 5 m))
    (gen_run no_user_event no_user_emit example_generator example_calls) (max_events 0 example_calls) /\
  StronglySorted Z.le (active (gen_run no_user_event no_user_emit example_generator example_calls)).
Proof.
  apply (generator_run_spec no_user_event no_user_emit example_generator example_calls (Boo_new 5)).
  - reflexivity.
  - unfold boo_wf, in_u; vm_compute; intuition discriminate.
  - unfold example_calls. repeat constructor; unfold in_u; vm_compute; intuition discriminate.
Defined.

Example example_generator_run :
  gen_run no_user_event no_user_emit example_generator example_calls =
    [None; Some 34; Some 34; Some 34; Some IDLE_WATERMARK].
Proof. vm_compute. reflexivity. Qed.
End generator_examples.

(** ** Idleness *)

(** The checks made at the times [nows], with no activity in between. *)
Fixpoint idle_checks (t : IdlenessTimer) (nows : list Z) : list bool :=
  match nows with
  | [] => []
  | now :: nows' => let '(t, idle) := check_if_idle now t in idle :: idle_checks t nows'
  end.

(** the idleness timer. After activity since the last check, the next check
    (at time [t1]) answers not idle and restarts the timer; the one after (at
    [t2 > 0]) starts counting and answers not idle; from then on, without
    activity, a check at [now >= t2] answers idle exactly when [now - t2] exceeds
    the configured timeout. *)
Theorem idleness_timer_spec (t : IdlenessTimer) (t1 t2 : Z) (nows : list Z) :
  counter t <> last_counter t -> 0 < t2 -> Forall (fun now => t2 <= now < 2 ^ 64) nows ->
  idle_checks t (t1 :: t2 :: nows) =
    false :: false :: ((fun now => max_idle_time_millis t <? now - t2) <$> nows).
Proof.
  intros Hne Ht2 Hn. cbn [idle_checks]. unfold check_if_idle at 1.
  rewrite (proj2 (Z.eqb_neq _ _) Hne). cbn -[idle_checks].
  unfold check_if_idle; simpl counter; simpl last_counter. rewrite Z.eqb_refl. cbn -[idle_checks].
  do 2 f_equal. induction Hn as [|now nows Hnow Hn IH]; simpl; [done|].
  unfold check_if_idle at 1; simpl. rewrite Z.eqb_refl. simpl.
  destruct (Z.eqb_spec t2 0); [lia|]. rewrite wrap_u64_small by lia. f_equal. exact IH.
Qed.

Lemma idleness_timer_spec_witness :
  idle_checks (activity (IdlenessTimer_new 50)) [10; 20; 30; 70; 71] = [false; false; false; false; true].
Proof.
  apply (idleness_timer_spec (activity (IdlenessTimer_new 50)) 10 20 [30; 70; 71]).
  - vm_compute; discriminate.
  - lia.
  - repeat constructor; lia.
Defined.
