(* ===== verification/Align.v ===== *)
(** * Align: alignment of the inputs of a task
    (src/rlink/src/runtime/worker/runnable/source_runnable.rs)

    A task with several parent tasks receives barriers, stream statuses and
    watermarks from each of them. [AlignManager] counts the arrivals of a batch
    (a checkpoint id or a status timestamp) and fires when all parents have
    delivered it; [WatermarkManager] keeps the latest watermark of each parent
    task and gives the least of them. *)
From Stdlib Require Import ZArith Lia Sorted.
From stdpp Require Import base strings numbers option sets gmap list.
From S2P Require Import Prelude Bytes Runtime Window Element.

(** ** AlignManager *)
Record AlignManager := mkAlign {
  parent_execution_size : Z;
  batch_id : Z;
  reached_size : Z
}.

Definition AlignManager_new (parent_execution_size : Z) : AlignManager :=
  mkAlign parent_execution_size 0 0.

(** [AlignManager::apply]. *)
Definition align_apply {E} (a : AlignManager) (id : Z) : res E (AlignManager * bool) :=
  if parent_execution_size a =? 0 then Ok (a, true)
  else if batch_id a =? id then
    let a := mkAlign (parent_execution_size a) (batch_id a) (reached_size a + 1) in
    if parent_execution_size a <? reached_size a then Panic "internal error: entered unreachable code"
    else Ok (a, reached_size a =? parent_execution_size a)
  else if batch_id a <? id then
    let a := mkAlign (parent_execution_size a) id 1 in
    Ok (a, reached_size a =? parent_execution_size a)
  else Ok (a, false).

(** The answers to a sequence of arrivals. *)
Fixpoint align_run {E} (a : AlignManager) (ids : list Z) : res E (AlignManager * list bool) :=
  match ids with
  | [] => Ok (a, [])
  | id :: ids' =>
      '(a, fired) ← align_apply a id;
      '(a, fires) ← align_run a ids';
      Ok (a, fired :: fires)
  end.

(** ** Watermarks of the parents *)
Record ParentWatermark := mkParent {
  latest_watermark : option Watermark;
  is_dependency : bool
}.

Definition update_watermark (p : ParentWatermark) (watermark : Watermark) : ParentWatermark :=
  match latest_watermark p with
  | Some w =>
      if MAX_WATERMARK <? w_timestamp watermark then mkParent (Some watermark) (is_dependency p)
      else if w_timestamp w <=? w_timestamp watermark then mkParent (Some watermark) (is_dependency p)
      else p
  | None => mkParent (Some watermark) (is_dependency p)
  end.

(** The field [reached_watermarks]: per parent job, one entry per task. *)
Abbreviation WatermarkManager := (gmap JobId (list ParentWatermark)).

Definition WatermarkManager_new (parent_jobs : gmap JobId (list bool)) : WatermarkManager :=
  (fun tasks : list bool => mkParent None <$> tasks) <$> parent_jobs.

Section watermark_manager.
Context {HO : HashOrder}.

(** The inner loop of [min_watermark]: [None] is the early return. *)
Definition min_step (acc : option Watermark) (p : ParentWatermark) : option (option Watermark) :=
  if negb (is_dependency p) then Some acc
  else
    match latest_watermark p with
    | Some watermark =>
        match acc with
        | Some w =>
            if w_timestamp watermark <? w_timestamp w then Some (Some watermark) else Some acc
        | None => Some (Some watermark)
        end
    | None => None
    end.

Fixpoint min_fold (acc : option Watermark) (ps : list ParentWatermark) : option (option Watermark) :=
  match ps with
  | [] => Some acc
  | p :: ps' => acc ← min_step acc p; min_fold acc ps'
  end.

Definition min_watermark (m : WatermarkManager) : option Watermark :=
  match min_fold None (mjoin (hiter m).*2) with
  | Some w => w
  | None => None
  end.

(** [WatermarkManager::apply]. *)
Definition wm_apply {E} (m : WatermarkManager) (watermark : Watermark)
    : res E (WatermarkManager * option Watermark) :=
  if decide (m = ∅) then Ok (m, Some watermark) else
  let source := source_task_id (w_channel_key watermark) in
  match m !! job_id source with
  | Some watermarks =>
      match watermarks !! Z.to_nat (task_number source) with
      | None => Panic "unreached! `task_number` is not below the parent job's parallelism"
      | Some p =>
          if negb (is_dependency p) then Panic "Does not depend on the task"
          else
            let m := <[job_id source :=
              <[Z.to_nat (task_number source) := update_watermark p watermark]> watermarks]> m in
            Ok (m, min_watermark m)
      end
  | None => Panic "unreached! the JobId of `Watermark` is not in the parent jobs list"
  end.

(** [WatermarkManager::watermark_job_check]. *)
Definition watermark_job_check {E} (m : WatermarkManager) (s : StreamStatus) : res E WatermarkManager :=
  let source := source_task_id (ss_channel_key s) in
  match m !! job_id source with
  | Some watermarks =>
      match watermarks !! Z.to_nat (task_number source) with
      | None => Panic "unreached! `task_number` is not below the parent job's parallelism"
      | Some p =>
          match latest_watermark p with
          | None => Ok (delete (job_id source) m)
          | Some _ => Ok m
          end
      end
  | None => Ok m
  end.

(** The calls a source task makes, and the watermarks it passes on. *)
Inductive wm_event : Type :=
  | Wm_watermark (w : Watermark)
  | Wm_status (s : StreamStatus).

Fixpoint wm_run {E} (m : WatermarkManager) (evs : list wm_event)
    : res E (WatermarkManager * list Watermark) :=
  match evs with
  | [] => Ok (m, [])
  | Wm_watermark w :: evs' =>
      '(m, out) ← wm_apply m w;
      '(m, outs) ← wm_run m evs';
      Ok (m, match out with Some w => w :: outs | None => outs end)
  | Wm_status s :: evs' =>
      m ← watermark_job_check m s;
      wm_run m evs'
  end.
End watermark_manager.

(** ** Specification *)

(** The greatest batch id of a sequence of arrivals (0 initially). *)
Definition max_id (ids : list Z) : Z := foldl Z.max 0 ids.

Definition count_id (id : Z) (ids : list Z) : Z := Z.of_nat (length (filter (fun x => x = id) ids)).

(** Answer to the arrival of [id] after [p], for [n > 0] parents. *)
Definition align_fires (n : Z) (p : list Z) (id : Z) : bool :=
  (max_id p <=? id) && (count_id id p + 1 =? n).

(** A parent task that has to deliver watermarks, and its latest one. *)
Definition dependency (m : WatermarkManager) (p : ParentWatermark) : Prop :=
  exists j ps, m !! j = Some ps /\ p ∈ ps /\ is_dependency p = true.

(** ** Lemmas on AlignManager *)
Lemma max_id_snoc p id : max_id (p ++ [id]) = Z.max (max_id p) id.
Proof. unfold max_id. by rewrite foldl_app. Qed.

Lemma count_id_snoc x p id : count_id x (p ++ [id]) = count_id x p + if decide (id = x) then 1 else 0.
Proof.
  unfold count_id. rewrite filter_app, length_app, filter_cons. case_decide; simpl; lia.
Qed.

Lemma max_id_ge p x : x ∈ p -> x <= max_id p.
Proof.
  induction p as [|y p IH] using rev_ind; [by rewrite elem_of_nil|].
  rewrite max_id_snoc, elem_of_app, list_elem_of_singleton. intros [Hx| ->]; [specialize (IH Hx)|]; lia.
Qed.

Lemma count_id_gt p x : max_id p < x -> count_id x p = 0.
Proof.
  intros Hx. unfold count_id. induction p as [|y p IH] using rev_ind; [done|].
  rewrite max_id_snoc in Hx. rewrite filter_app, length_app, filter_cons.
  case_decide; [lia|]. simpl. rewrite Nat2Z.inj_add, IH by lia. done.
Qed.

(** The state after the arrivals [p]. *)
Definition align_after (n : Z) (p : list Z) : AlignManager :=
  mkAlign n (max_id p) (count_id (max_id p) p).

Lemma align_apply_after {E} n p id :
  0 < n -> 0 <= id -> (max_id p <= id -> count_id id p < n) ->
  align_apply (E:=E) (align_after n p) id = Ok (align_after n (p ++ [id]), align_fires n p id).
Proof.
  intros Hn Hid Hc. unfold align_apply, align_after, align_fires. cbn [parent_execution_size batch_id reached_size].
  rewrite max_id_snoc. destruct (Z.eqb_spec n 0); [lia|].
  destruct (Z.eqb_spec (max_id p) id) as [<-|Hne].
  - rewrite Z.max_id, count_id_snoc, decide_True by done. specialize (Hc (Z.le_refl _)).
    destruct (Z.ltb_spec n (count_id (max_id p) p + 1)); [lia|]. by rewrite Z.leb_refl.
  - destruct (Z.ltb_spec (max_id p) id) as [Hlt|Hge].
    + rewrite Z.max_r, count_id_snoc, decide_True, count_id_gt by (done || lia).
      rewrite (proj2 (Z.leb_le _ _)) by lia. done.
    + rewrite Z.max_l, count_id_snoc, decide_False by lia.
      rewrite (proj2 (Z.leb_gt _ _)) by lia. by rewrite Z.add_0_r.
Qed.

Lemma count_id_app_le id p q : count_id id p <= count_id id (p ++ q).
Proof. unfold count_id. rewrite filter_app, length_app. lia. Qed.

Lemma align_run_after {E} n p ids :
  0 < n -> Forall (fun id => 0 <= id /\ count_id id (p ++ ids) <= n) ids ->
  align_run (E:=E) (align_after n p) ids =
    Ok (align_after n (p ++ ids), imap (fun i id => align_fires n (p ++ take i ids) id) ids).
Proof.
  intros Hn. revert p; induction ids as [|id ids IH]; intros p Hall.
  { simpl. by rewrite app_nil_r. }
  apply Forall_cons in Hall as [[Hid Hc] Hall].
  assert (p ++ id :: ids = (p ++ [id]) ++ ids) as Happ by by rewrite <- (assoc_L (++)).
  cbn [align_run]. rewrite align_apply_after; [|done|done|].
  - run_bind. rewrite IH by by rewrite <- Happ. run_bind. rewrite <- Happ. do 2 f_equal.
    rewrite imap_cons. f_equal.
    + by rewrite take_0, app_nil_r.
    + apply imap_ext. intros i x _. unfold compose. cbn [firstn]. by rewrite <- (assoc_L (++)).
  - intros _. rewrite Happ in Hc. pose proof (count_id_app_le id (p ++ [id]) ids) as Hle.
    rewrite count_id_snoc, decide_True in Hle by done. lia.
Qed.

(** ** Lemmas on WatermarkManager *)
Lemma min_fold_spec acc ps :
  match min_fold acc ps with
  | None => exists p, p ∈ ps /\ is_dependency p = true /\ latest_watermark p = None
  | Some o =>
      (forall p, p ∈ ps -> is_dependency p = true -> is_Some (latest_watermark p)) /\
      match o with
      | None => acc = None /\ forall p, p ∈ ps -> is_dependency p = false
      | Some w =>
          (acc = Some w \/ exists p, p ∈ ps /\ is_dependency p = true /\ latest_watermark p = Some w) /\
          (forall w', acc = Some w' -> w_timestamp w <= w_timestamp w') /\
          (forall p w', p ∈ ps -> is_dependency p = true -> latest_watermark p = Some w' ->
             w_timestamp w <= w_timestamp w')
      end
  end.
Proof.
  revert acc; induction ps as [|p ps IH]; intros acc.
  { simpl. split; [intros p Hp; by apply elem_of_nil in Hp|].
    destruct acc as [w|]; split_and!.
    - by left.
    - intros w' [= ->]. lia.
    - intros p w' Hp. by apply elem_of_nil in Hp.
    - done.
    - intros p Hp. by apply elem_of_nil in Hp. }
  cbn [min_fold]. unfold min_step. destruct (is_dependency p) eqn:Hd; cbn [negb].
  2: { specialize (IH acc). cbn [mbind option_bind].
       destruct (min_fold acc ps) as [[w|]|]; setoid_rewrite elem_of_cons.
       - destruct IH as (H1 & H2 & H3 & H4). split_and!; [|destruct H2 as [?|(q & ? & ?)]; eauto|done|].
         + intros q [->|Hq]; [congruence|eauto].
         + intros q w' [->|Hq]; [congruence|eauto].
       - destruct IH as (H1 & H2 & H3). split_and!; [|done|].
         + intros q [->|Hq]; [congruence|eauto].
         + intros q [->|Hq]; [done|eauto].
       - destruct IH as (q & ? & ?). eauto. }
  destruct (latest_watermark p) as [w0|] eqn:Hw; [|exists p; by rewrite elem_of_cons; auto].
  assert (exists a, match acc with
    | Some w => if w_timestamp w0 <? w_timestamp w then Some (Some w0) else Some acc
    | None => Some (Some w0) end = Some (Some a) /\ (a = w0 \/ acc = Some a) /\
      w_timestamp a <= w_timestamp w0 /\
      (forall w', acc = Some w' -> w_timestamp a <= w_timestamp w')) as (a & -> & Hor & Hle & Hacc).
  { destruct acc as [w|]; [destruct (Z.ltb_spec (w_timestamp w0) (w_timestamp w))|];
      eexists; split; try done; split_and!; naive_solver lia. }
  cbn [mbind option_bind]. specialize (IH (Some a)).
  destruct (min_fold (Some a) ps) as [[w|]|]; setoid_rewrite elem_of_cons.
  2: { by destruct IH as (_ & ? & _). }
  2: { destruct IH as (q & ? & ?). eauto. }
  destruct IH as (H1 & H2 & H3 & H4). specialize (H3 a eq_refl).
  split; [intros q [->|Hq]; eauto|]. split_and!.
  - destruct H2 as [[= <-]|(q & ? & ?)]; [|by eauto 6].
    destruct Hor as [->|?]; [right; exists p; auto|by left].
  - intros w' Hw'. specialize (Hacc w' Hw'). lia.
  - intros q w' [->|Hq] Hdq Hwq; [|by eapply H4]. simplify_eq. lia.
Qed.

Section wm_lemmas.
Context {HO : HashOrder}.
Implicit Types m : WatermarkManager.

Lemma elem_of_parents m p : p ∈ mjoin (hiter m).*2 <-> exists j ps, m !! j = Some ps /\ p ∈ ps.
Proof.
  rewrite list_elem_of_join. split.
  - intros (ps & Hp & ([j ps'] & -> & Hin)%list_elem_of_fmap). apply elem_of_hiter in Hin. eauto.
  - intros (j & ps & Hm & Hp). exists ps. split; [done|]. apply list_elem_of_fmap.
    exists (j, ps). by rewrite elem_of_hiter.
Qed.

(** [min_watermark] gives a watermark only when every dependency has one; it is
    one of theirs, and no other is smaller. *)
Lemma min_watermark_spec m :
  match min_watermark m with
  | Some w =>
      (exists p, dependency m p /\ latest_watermark p = Some w) /\
      (forall p, dependency m p -> exists w', latest_watermark p = Some w' /\ w_timestamp w <= w_timestamp w')
  | None =>
      (exists p, dependency m p /\ latest_watermark p = None) \/ (forall p, ~ dependency m p)
  end.
Proof.
  unfold min_watermark. pose proof (min_fold_spec None (mjoin (hiter m).*2)) as H.
  unfold dependency.
  destruct (min_fold None _) as [[w|]|]; setoid_rewrite elem_of_parents in H.
  - destruct H as (H1 & [?|H2] & _ & H3); [done|]. split; [naive_solver|].
    intros p (j & ps & Hm & Hp & Hd). destruct (H1 p) as [w' Hw']; [by eauto|done|].
    exists w'. split; [done|]. eapply H3; eauto.
  - right. intros p (j & ps & Hm & Hp & Hd). destruct H as (_ & _ & H).
    rewrite (H p) in Hd; [done|]. eauto.
  - left. naive_solver.
Qed.

(** ** Progress of the parents *)
Definition parent_le (p p' : ParentWatermark) : Prop :=
  is_dependency p' = is_dependency p /\
  forall w, latest_watermark p = Some w ->
    exists w', latest_watermark p' = Some w' /\ w_timestamp w <= w_timestamp w'.

(** [m'] has only jobs of [m], and each of their tasks is at least as far. *)
Definition wm_le (m m' : WatermarkManager) : Prop :=
  forall j ps', m' !! j = Some ps' -> exists ps, m !! j = Some ps /\ Forall2 parent_le ps ps'.

#[global] Instance parent_le_preorder : PreOrder parent_le.
Proof.
  split.
  - intros p. split; [done|]. intros w ->. exists w. split; [done|lia].
  - intros p1 p2 p3 [H1 H2] [H3 H4]. split; [congruence|]. intros w Hw.
    destruct (H2 w Hw) as (w2 & Hw2 & ?). destruct (H4 w2 Hw2) as (w3 & ? & ?).
    exists w3. split; [done|lia].
Qed.

#[global] Instance wm_le_preorder : PreOrder wm_le.
Proof.
  split.
  - intros m j ps Hps. by exists ps.
  - intros m1 m2 m3 H1 H2 j ps3 H3. destruct (H2 j ps3 H3) as (ps2 & Hm2 & ?).
    destruct (H1 j ps2 Hm2) as (ps1 & ? & ?). exists ps1. split; [done|]. by etrans.
Qed.

Lemma update_watermark_le p w : w_timestamp w <= MAX_WATERMARK -> parent_le p (update_watermark p w).
Proof.
  intros Hw. unfold update_watermark. destruct (latest_watermark p) as [w0|] eqn:E.
  - destruct (Z.ltb_spec MAX_WATERMARK (w_timestamp w)); [lia|].
    destruct (Z.leb_spec (w_timestamp w0) (w_timestamp w)); [|done].
    split; [done|]. intros w1. rewrite E. intros [= <-]. by exists w.
  - split; [done|]. congruence.
Qed.

(** The entry of a parent after a watermark. *)
Lemma update_watermark_latest p w : is_dependency p = true -> exists new,
  update_watermark p w = mkParent (Some new) true /\
  (latest_watermark p = None -> new = w) /\
  (forall old, latest_watermark p = Some old ->
     new = if decide (w_timestamp old <= w_timestamp w \/ MAX_WATERMARK < w_timestamp w) then w else old).
Proof.
  intros Hd. unfold update_watermark. rewrite Hd. destruct (latest_watermark p) as [old|] eqn:E.
  - exists (if decide (w_timestamp old <= w_timestamp w \/ MAX_WATERMARK < w_timestamp w) then w else old).
    split; [|by split; [|intros ? [= <-]]].
    destruct p as [lw d]; cbn in *; subst.
    destruct (Z.ltb_spec MAX_WATERMARK (w_timestamp w)); [rewrite decide_True by auto; done|].
    destruct (Z.leb_spec (w_timestamp old) (w_timestamp w)); [rewrite decide_True by auto; done|].
    rewrite decide_False by lia. done.
  - exists w. split_and!; done.
Qed.

(** The two branches of [wm_apply] that return. *)
Lemma wm_apply_ok {E} m w m' out : wm_apply (E:=E) m w = Ok (m', out) ->
  (m = ∅ /\ m' = m /\ out = Some w) \/
  (m <> ∅ /\ out = min_watermark m' /\ exists ps p,
     let source := source_task_id (w_channel_key w) in
     m !! job_id source = Some ps /\ ps !! Z.to_nat (task_number source) = Some p /\
     is_dependency p = true /\
     m' = <[job_id source := <[Z.to_nat (task_number source) := update_watermark p w]> ps]> m).
Proof.
  unfold wm_apply. case_decide; [intros [= <- <-]; by left|].
  destruct (m !! _) as [ps|] eqn:Hm; [|done]. destruct (ps !! _) as [p|] eqn:Hp; [|done].
  destruct (is_dependency p) eqn:Hd; [|done]. cbn [negb]. intros [= <- <-]. right. eauto 10.
Qed.

Lemma wm_apply_le {E} m w m' out :
  wm_apply (E:=E) m w = Ok (m', out) -> w_timestamp w <= MAX_WATERMARK -> wm_le m m'.
Proof.
  intros [(-> & -> & _)|(_ & _ & ps & p & Hm & Hp & _ & ->)]%wm_apply_ok Hw; [done|].
  intros j ps'. rewrite lookup_insert_Some. intros [[<- <-]|[Hne Hj]]; [|by exists ps'].
  exists ps. split; [done|]. rewrite <- (list_insert_id ps (Z.to_nat _) p Hp) at 1.
  apply Forall2_insert; [done|]. by apply update_watermark_le.
Qed.

Lemma watermark_job_check_le {E} m s m' : watermark_job_check (E:=E) m s = Ok m' -> wm_le m m'.
Proof.
  unfold watermark_job_check. destruct (m !! _) as [ps|]; [|by intros [= <-]].
  destruct (ps !! _) as [p|]; [|done]. destruct (latest_watermark p); intros [= <-]; [done|].
  intros j ps'. rewrite lookup_delete_Some. intros [_ Hj]. by exists ps'.
Qed.

Lemma wm_le_nonempty m m' : wm_le m m' -> m' <> ∅ -> m <> ∅.
Proof.
  intros Hle Hne ->. apply Hne, map_empty. intros j. destruct (m' !! j) as [ps|] eqn:E; [|done].
  destruct (Hle j ps E) as (? & ? & _). by rewrite lookup_empty in *.
Qed.

(** Progress of the parents never lowers the least watermark. *)
Lemma min_watermark_mono m m' w w' :
  wm_le m m' -> min_watermark m = Some w -> min_watermark m' = Some w' -> w_timestamp w <= w_timestamp w'.
Proof.
  intros Hle H1 H2. pose proof (min_watermark_spec m) as Hs. pose proof (min_watermark_spec m') as Hs'.
  rewrite H1 in Hs. rewrite H2 in Hs'. destruct Hs as [_ Hall].
  destruct Hs' as [(p' & (j & ps' & Hm' & Hp' & Hd') & Hw') _].
  destruct (Hle j ps' Hm') as (ps & Hm & HF).
  apply list_elem_of_lookup in Hp' as [i Hi].
  destruct (Forall2_lookup_r _ _ _ _ _ HF Hi) as (p & Hpi & [Hd Hp]).
  destruct (Hall p) as (w0 & Hw0 & ?).
  { exists j, ps. split_and!; [done|by eapply list_elem_of_lookup_2|congruence]. }
  destruct (Hp w0 Hw0) as (w1 & Hw1 & ?). simplify_eq. lia.
Qed.

Definition wm_event_wf (ev : wm_event) : Prop :=
  match ev with Wm_watermark w => w_timestamp w <= MAX_WATERMARK | Wm_status _ => True end.

Lemma wm_run_le {E} m evs m' outs :
  wm_run (E:=E) m evs = Ok (m', outs) -> Forall wm_event_wf evs -> wm_le m m'.
Proof.
  revert m outs; induction evs as [|[w|s] evs IH]; intros m outs; cbn [wm_run]; intros Hr Hwf.
  - by simplify_eq.
  - apply Forall_cons in Hwf as [Hw Hwf].
    destruct (wm_apply m w) as [[m1 o]| |] eqn:E1; [|done..]. revert Hr; run_bind.
    destruct (wm_run m1 evs) as [[m2 os]| |] eqn:E2; [|done..]. run_bind. intros [= <- <-].
    etrans; [by eapply wm_apply_le|]. by eapply IH.
  - apply Forall_cons in Hwf as [_ Hwf].
    destruct (watermark_job_check m s) as [m1| |] eqn:E1; [|done..]. revert Hr; run_bind. intros Hr.
    etrans; [by eapply watermark_job_check_le|]. by eapply IH.
Qed.

(** Every watermark passed on is the least of a later state. *)
Lemma wm_run_outs {E} m evs m' outs :
  wm_run (E:=E) m evs = Ok (m', outs) -> Forall wm_event_wf evs -> m' <> ∅ ->
  Forall (fun o => exists m2, wm_le m m2 /\ min_watermark m2 = Some o) outs /\
  StronglySorted (fun a b => w_timestamp a <= w_timestamp b) outs.
Proof.
  revert m outs; induction evs as [|[w|s] evs IH]; intros m outs Hr Hwf Hne.
  - simpl in Hr. simplify_eq. split; constructor.
  - pose proof (wm_run_le _ _ _ _ Hr Hwf) as Hle. cbn [wm_run] in Hr.
    apply Forall_cons in Hwf as [Hw Hwf].
    destruct (wm_apply m w) as [[m1 o]| |] eqn:E1; [|done..]. revert Hr; run_bind.
    destruct (wm_run m1 evs) as [[m2 os]| |] eqn:E2; [|done..]. run_bind. intros [= <- <-].
    pose proof (wm_apply_le _ _ _ _ E1 Hw) as Hle1.
    destruct (IH _ _ E2 Hwf Hne) as [Hall Hs].
    assert (Forall (fun o => exists m3, wm_le m m3 /\ min_watermark m3 = Some o) os) as Hall'.
    { eapply Forall_impl; [done|]. intros x (m3 & ? & ?). exists m3. split; [by etrans|done]. }
    destruct o as [o|]; [|done].
    apply wm_apply_ok in E1 as [(-> & _)|(_ & Ho & _)].
    { by destruct (wm_le_nonempty _ _ Hle Hne). }
    split; constructor; [by exists m1|done|done|].
    eapply Forall_impl; [exact Hall|]. intros x (m3 & Hle3 & Hx). by eapply min_watermark_mono.
  - cbn [wm_run] in Hr. apply Forall_cons in Hwf as [_ Hwf].
    destruct (watermark_job_check m s) as [m1| |] eqn:E1; [|done..]. revert Hr; run_bind. intros Hr.
    apply watermark_job_check_le in E1. destruct (IH _ _ Hr Hwf Hne) as [Hall Hs].
    split; [|done]. eapply Forall_impl; [exact Hall|].
    intros x (m3 & ? & ?). exists m3. split; [by etrans|done].
Qed.

(** C16: what [apply] does with a watermark. When the manager has parent jobs and
    [apply] returns, exactly one entry has changed: the one of the parent task the
    watermark names, a task this task depends on. It holds the new watermark if the
    parent had none, if the new one is not older or if it is above [MAX_WATERMARK]
    (the idle marker); an older one leaves the entry as it was. The answer is a
    watermark exactly when every parent task the task depends on has delivered one; it
    is then the latest watermark of one of them and the smallest of all. *)
Theorem wm_apply_min (m : WatermarkManager) (w : Watermark) (m' : WatermarkManager) (out : option Watermark) :
  m <> ∅ -> wm_apply (E:=string) m w = Ok (m', out) ->
  (exists ps p new,
     let source := source_task_id (w_channel_key w) in
     let number := Z.to_nat (task_number source) in
     m !! job_id source = Some ps /\ ps !! number = Some p /\ is_dependency p = true /\
     m' = <[job_id source := <[number := mkParent (Some new) true]> ps]> m /\
     (latest_watermark p = None -> new = w) /\
     (forall old, latest_watermark p = Some old ->
        new = if decide (w_timestamp old <= w_timestamp w \/ MAX_WATERMARK < w_timestamp w) then w else old)) /\
  match out with
  | Some o =>
      (exists p, dependency m' p /\ latest_watermark p = Some o) /\
      (forall p, dependency m' p ->
         exists w', latest_watermark p = Some w' /\ w_timestamp o <= w_timestamp w')
  | None => exists p, dependency m' p /\ latest_watermark p = None
  end.
Proof.
  intros Hne [(-> & _)|(_ & -> & ps & p & Hm & Hp & Hd & ->)]%wm_apply_ok; [done|].
  destruct (update_watermark_latest p w Hd) as (new & Hu & Hnone & Hsome).
  split; [exists ps, p, new; rewrite <- Hu; split_and!; done|].
  set (m' := <[_ := _]> m). pose proof (min_watermark_spec m') as Hs.
  destruct (min_watermark m') as [o|]; [done|]. destruct Hs as [Hs|Hs]; [done|].
  destruct (Hs (update_watermark p w)). exists (job_id (source_task_id (w_channel_key w))).
  eexists. split; [apply lookup_insert_eq|]. split; [|by rewrite Hu].
  eapply list_elem_of_lookup_2, list_lookup_insert_eq. by eapply lookup_lt_Some.
Qed.

(** C17: the watermarks a task passes on never decrease while it has parents. Over a
    sequence of watermarks, none above [MAX_WATERMARK] (so no idle marker), and stream
    statuses of its parents after which a parent job still remains, the timestamps of
    the watermarks passed on are non-decreasing; the removal of a job without
    watermarks included. Once every parent job has been removed, [apply] passes on any
    watermark, and nothing is claimed. *)
Theorem wm_run_monotone (m : WatermarkManager) (evs : list wm_event) (m' : WatermarkManager) (outs : list Watermark) :
  wm_run (E:=string) m evs = Ok (m', outs) -> Forall wm_event_wf evs -> m' <> ∅ ->
  StronglySorted (fun a b => w_timestamp a <= w_timestamp b) outs.
Proof. intros. by eapply wm_run_outs. Qed.
End wm_lemmas.

(** barrier and status alignment. With [n > 0] parents, for arrivals in
    which no batch id comes more than [n] times, [apply] never reaches its
    [unreachable!], and it answers true exactly at an arrival whose id is not
    behind an id seen before and which is the [n]-th one with that id. *)
Theorem align_run_spec (n : Z) (ids : list Z) :
  0 < n -> Forall (fun id => 0 <= id /\ count_id id ids <= n) ids ->
  align_run (E:=string) (AlignManager_new n) ids =
    Ok (align_after n ids, imap (fun i id => align_fires n (take i ids) id) ids).
Proof. intros Hn Hall. exact (align_run_after n [] ids Hn Hall). Qed.

(** one more arrival than parents. If the ids of the arrivals [ids] are at
    most [id] and [id] already came [n] times, another arrival of it panics. *)
Theorem align_apply_overflow (n : Z) (ids : list Z) (id : Z) :
  0 < n -> max_id ids = id -> count_id id ids = n ->
  align_apply (E:=string) (align_after n ids) id = Panic "internal error: entered unreachable code".
Proof.
  intros Hn <- Hc. unfold align_apply, align_after; cbn [parent_execution_size batch_id reached_size].
  destruct (Z.eqb_spec n 0); [lia|]. rewrite Z.eqb_refl, Hc.
  by destruct (Z.ltb_spec n (n + 1)); [|lia].
Qed.

(** an idle parent stays idle. Once the latest watermark of a parent is
    above [MAX_WATERMARK] (the idle marker), every later watermark up to
    [MAX_WATERMARK] is rejected as a low level one and changes nothing. *)
Theorem idle_parent_sticky (p : ParentWatermark) (idle : Watermark) (ws : list Watermark) :
  latest_watermark p = Some idle -> MAX_WATERMARK < w_timestamp idle ->
  Forall (fun w => w_timestamp w <= MAX_WATERMARK) ws ->
  foldl update_watermark p ws = p.
Proof.
  intros Hp Hi. induction 1 as [|w ws Hw Hws IH]; simpl; [done|].
  replace (update_watermark p w) with p; [done|]. unfold update_watermark. rewrite Hp.
  destruct (Z.ltb_spec MAX_WATERMARK (w_timestamp w)); [lia|].
  by destruct (Z.leb_spec (w_timestamp idle) (w_timestamp w)); [lia|].
Qed.

(** ** Evaluated examples *)
Section align_examples.
#[local] Existing Instance id_order.

Definition watermark_from (ts job task num : Z) : Watermark :=
  watermark_set_channel_key (mkChannelKey (mkTaskId job task num) TaskId_default) (Watermark_new ts).
Definition status_from (ts job task num : Z) : StreamStatus :=
  stream_status_set_channel_key (mkChannelKey (mkTaskId job task num) TaskId_default) (StreamStatus_new ts false).

(** The unit test [watermark_manager_test]. *)
Definition test_manager : WatermarkManager :=
  WatermarkManager_new {[ 1 := [true; true]; 2 := [true; true; true] ]}.
Definition test_events : list wm_event :=
  [Wm_watermark (watermark_from 10 1 0 2); Wm_status (status_from 20 2 0 3);
   Wm_watermark (watermark_from 9 1 1 2); Wm_watermark (watermark_from 12 1 1 2)].

Lemma wm_run_monotone_witness : exists m',
  wm_run (E:=string) test_manager test_events = Ok (m', [watermark_from 9 1 1 2; watermark_from 10 1 0 2]) /\
  StronglySorted (fun a b => w_timestamp a <= w_timestamp b) [watermark_from 9 1 1 2; watermark_from 10 1 0 2].
Proof.
  eexists. split; [vm_compute; reflexivity|].
  eapply (wm_run_monotone test_manager test_events).
  - vm_compute. reflexivity.
  - repeat constructor; vm_compute; discriminate.
  - vm_compute. discriminate.
Defined.

(** An older watermark of a parent leaves its entry as it was. *)
Definition test_manager_later : WatermarkManager :=
  <[1 := [mkParent (Some (watermark_from 12 1 0 2)) true; mkParent (Some (watermark_from 15 1 1 2)) true]]>
    (delete 2 test_manager).

Lemma wm_apply_min_witness :
  wm_apply (E:=string) test_manager_later (watermark_from 14 1 0 2) =
    Ok (<[1 := [mkParent (Some (watermark_from 14 1 0 2)) true; mkParent (Some (watermark_from 15 1 1 2)) true]]>
          (delete 2 test_manager), Some (watermark_from 14 1 0 2)) /\
  exists m', wm_apply (E:=string) test_manager (watermark_from 10 1 0 2) = Ok (m', None) /\
  exists p, dependency m' p /\ latest_watermark p = None.
Proof.
  split; [vm_compute; reflexivity|]. eexists. split; [vm_compute; reflexivity|].
  refine (proj2 (wm_apply_min test_manager (watermark_from 10 1 0 2) _ None _ _)).
  - vm_compute. discriminate.
  - vm_compute. reflexivity.
Defined.

Lemma align_run_spec_witness :
  align_run (E:=string) (AlignManager_new 2) [5; 5; 7; 6; 7] =
    Ok (align_after 2 [5; 5; 7; 6; 7], [false; true; false; false; true]).
Proof.
  apply (align_run_spec 2 [5; 5; 7; 6; 7]); [lia|].
  repeat constructor; vm_compute; discriminate.
Defined.

Lemma align_apply_overflow_witness :
  align_apply (E:=string) (align_after 2 [5; 5]) 5 = Panic "internal error: entered unreachable code".
Proof. apply (align_apply_overflow 2 [5; 5] 5); [lia|vm_compute; reflexivity..]. Defined.

Lemma idle_parent_sticky_witness :
  foldl update_watermark (mkParent (Some (Watermark_new IDLE_WATERMARK)) true)
    [Watermark_new 10; Watermark_new MAX_WATERMARK] = mkParent (Some (Watermark_new IDLE_WATERMARK)) true.
Proof.
  apply (idle_parent_sticky _ (Watermark_new IDLE_WATERMARK)).
  - reflexivity.
  - vm_compute. reflexivity.
  - repeat constructor; vm_compute; discriminate.
Defined.
End align_examples.
