(* ===== verification/KeyedState.v ===== *)
(** * KeyedState: the keyed window state (src/rlink/src/storage/keyed_state/)

    [MemoryReducingState] is the table of one window: an ordered map from the key
    record to the reduced value. [MemoryWindowState] keeps one table per open
    window of a task. A window that is dropped moves to the process-wide
    [DROP_WINDOW_STATE_STORAGE], from which the downstream operator takes it by
    job, task and window. The storage is passed explicitly.

    The keys of a table are records, which the code compares by their value bytes
    only; the table maps the bytes to the key record and the value.

    The user's reduce function takes its two records by mutable reference; here
    it returns the new value and the record as it leaves it. *)
From Stdlib Require Import ZArith Lia Sorted.
From stdpp Require Import base strings numbers option sets gmap list.
From S2P Require Import Prelude BTreeMap Bytes Runtime Window Element.

Record StateKey := mkStateKey {
  sk_window : Window;
  sk_job_id : JobId;
  sk_task_number : Z
}.

(** [StorageKey]: job and task number. *)
Abbreviation StorageKey := (JobId * Z)%type.

Section keyed_state.
Context {SB : SerBuffer} {HO : HashOrder}.

(** ** One window *)
Record MemoryReducingState := mkReducing {
  rs_state_key : StateKey;
  rs_kv : btree (list Z) (record * record)
}.

Definition MemoryReducingState_new (state_key : StateKey) : MemoryReducingState :=
  mkReducing state_key [].

Definition key_bytes (key : record) : list Z := as_slice (r_values key).

Definition reducing_get (s : MemoryReducingState) (key : record) : option record :=
  snd <$> bt_get (key_bytes key) (rs_kv s).

(** [insert]: a key already present keeps its record, the value is replaced. *)
Definition reducing_insert (s : MemoryReducingState) (key val : record) : MemoryReducingState :=
  let kept := match bt_get (key_bytes key) (rs_kv s) with Some (k, _) => k | None => key end in
  mkReducing (rs_state_key s) (bt_insert (key_bytes key) (kept, val) (rs_kv s)).

Definition reducing_len (s : MemoryReducingState) : Z := Z.of_nat (length (rs_kv s)).

(** One step of [StateIterator::next]. *)
Definition state_record {E : Type} (window : Window) (key val : record) : res E record :=
  match extend key val with
  | Ok key => Ok (set_window_trigger window key)
  | Err _ => Panic "key value merge error"
  | Panic p => Panic p
  end.

(** The records the iterator yields, in order. *)
Fixpoint state_iter {E : Type} (window : Window) (kv : btree (list Z) (record * record)) : res E (list record) :=
  match kv with
  | [] => Ok []
  | (_, (key, val)) :: kv' =>
      r ← state_record window key val;
      rs ← state_iter window kv';
      Ok (r :: rs)
  end.

Definition reducing_iter {E : Type} (s : MemoryReducingState) : res E (list record) :=
  state_iter (sk_window (rs_state_key s)) (rs_kv s).

(** ** The storage of dropped windows *)
Abbreviation DropStorage := (gmap StorageKey (gmap Window MemoryReducingState)).

Definition append_drop_window (st : DropStorage) (storage_key : StorageKey) (window : Window)
    (state : MemoryReducingState) : DropStorage :=
  let task_storage := default ∅ (st !! storage_key) in
  <[storage_key := <[window := state]> task_storage]> st.

Definition remove_drop_window (st : DropStorage) (job_id : JobId) (task_number : Z) (window : Window)
    : DropStorage * option MemoryReducingState :=
  match st !! (job_id, task_number) with
  | Some task_storage =>
      (<[(job_id, task_number) := delete window task_storage]> st, task_storage !! window)
  | None => (st, None)
  end.

(** [MemoryReducingState::from]. *)
Definition MemoryReducingState_from (st : DropStorage) (state_key : StateKey)
    : DropStorage * option MemoryReducingState :=
  remove_drop_window st (sk_job_id state_key) (sk_task_number state_key) (sk_window state_key).

(** ** The windows of a task *)
Record MemoryWindowState := mkWindowState {
  ws_application_id : string;
  ws_job_id : JobId;
  ws_task_number : Z;
  ws_windows : gmap Window MemoryReducingState
}.

Definition MemoryWindowState_new (application_id : string) (job_id : JobId) (task_number : Z)
    : MemoryWindowState := mkWindowState application_id job_id task_number ∅.

Definition set_windows (m : gmap Window MemoryReducingState) (s : MemoryWindowState) : MemoryWindowState :=
  mkWindowState (ws_application_id s) (ws_job_id s) (ws_task_number s) m.

Section merge.
Context (reduce_fun : option record -> record -> record * record).

Definition merge_value (s : MemoryWindowState) (window : Window) (key r : record)
    : MemoryWindowState * record :=
  match ws_windows s !! window with
  | Some state =>
      match reducing_get state key with
      | Some state_record =>
          let '(new_val, r) := reduce_fun (Some state_record) r in
          (set_windows (<[window := reducing_insert state key new_val]> (ws_windows s)) s, r)
      | None =>
          let '(new_val, r) := reduce_fun None r in
          (set_windows (<[window := reducing_insert state key new_val]> (ws_windows s)) s, r)
      end
  | None =>
      let state_key := mkStateKey window (ws_job_id s) (ws_task_number s) in
      let state := MemoryReducingState_new state_key in
      let '(new_val, r) := reduce_fun None r in
      (set_windows (<[window := reducing_insert state key new_val]> (ws_windows s)) s, r)
  end.

(** [TWindowState::merge]; the two branches of the source differ only in copying. *)
Definition merge_windows (s : MemoryWindowState) (windows : list Window) (key r : record)
    : MemoryWindowState * record :=
  foldl (fun '(s, r) window => merge_value s window key r) (s, r) windows.

Definition merge (s : MemoryWindowState) (key r : record) : MemoryWindowState * Z :=
  let s := (merge_windows s (location_windows r) key r).1 in
  (s, Z.of_nat (size (ws_windows s))).
End merge.

(** [TWindowState::windows]: the keys in the iteration order of the hash map. *)
Definition windows (s : MemoryWindowState) : list Window := (hiter (ws_windows s)).*1.

Definition drop_window (st : DropStorage) (s : MemoryWindowState) (window : Window)
    : DropStorage * MemoryWindowState * Z :=
  let '(st, s) :=
    match ws_windows s !! window with
    | Some state =>
        (append_drop_window st (ws_job_id s, ws_task_number s) window state,
         set_windows (delete window (ws_windows s)) s)
    | None => (st, s)
    end in
  (st, s, Z.of_nat (size (ws_windows s))).

(** ** Specification *)

(** The value of window [w] for the key with bytes [k]. *)
Definition lookup_value (s : MemoryWindowState) (w : Window) (k : list Z) : option record :=
  state ← ws_windows s !! w; snd <$> bt_get k (rs_kv state).

(** One merge into one window. *)
Definition merge_op : Type := record * record * Window.

(** The merges of a sequence of inputs: a record goes to each of its windows. *)
Definition merge_ops (inputs : list (record * record)) : list merge_op :=
  '(key, r) ← inputs; w ← location_windows r; [(key, r, w)].

(** What the table should hold: the fold of the reduce function over the
    records of that window and key, in arrival order. *)
Definition reduce_step (reduce_fun : option record -> record -> record * record) (w : Window) (k : list Z)
    (acc : option record) (op : merge_op) : option record :=
  let '(key, r, w') := op in
  if bool_decide (w' = w /\ key_bytes key = k) then Some (reduce_fun acc r).1 else acc.

Definition reduced_value (reduce_fun : option record -> record -> record * record)
    (inputs : list (record * record)) (w : Window) (k : list Z) : option record :=
  foldl (reduce_step reduce_fun w k) None (merge_ops inputs).

(** The tables are ordered maps, each entry filed under the bytes of its key,
    and each table carries the key of its own window. *)
Definition reducing_wf (s : MemoryReducingState) : Prop :=
  bt_wf (rs_kv s) /\ Forall (fun e => key_bytes e.2.1 = e.1) (rs_kv s).

Definition window_state_wf (s : MemoryWindowState) : Prop :=
  map_Forall (fun w state => reducing_wf state /\
    rs_state_key state = mkStateKey w (ws_job_id s) (ws_task_number s)) (ws_windows s).
End keyed_state.

(** ** Lemmas on one table *)
Section keyed_state_lemmas.
Context {SB : SerBuffer} {HO : HashOrder}.
Abbreviation DropStorage := (gmap StorageKey (gmap Window MemoryReducingState)).

Lemma bt_insert_elem {K V} {KO : KeyOrd K} k (v : V) (m : btree K V) e :
  e ∈ bt_insert k v m -> e = (k, v) \/ e ∈ m \/ (e.2 = v /\ exists v', (e.1, v') ∈ m /\ kcmp k e.1 = Eq).
Proof.
  induction m as [|[k1 v1] m IH]; simpl.
  - rewrite list_elem_of_singleton. auto.
  - destruct (kcmp k k1) eqn:E; rewrite !elem_of_cons.
    + intros [->|?]; [right; right; split; [done|]; exists v1; by rewrite elem_of_cons; auto|auto].
    + intros [?|[?|?]]; auto.
    + intros [?|Hin]; [auto|]. destruct (IH Hin) as [?|[?|(? & v' & ? & ?)]]; auto.
      right; right; split; [done|]. exists v'. rewrite elem_of_cons. auto.
Qed.

Lemma reducing_insert_wf s key val : reducing_wf s -> reducing_wf (reducing_insert s key val).
Proof.
  intros [Hwf Hk]. split; [by apply bt_insert_wf|]. cbn [rs_kv reducing_insert].
  apply Forall_forall. intros e He. rewrite Forall_forall in Hk.
  set (kept := match bt_get (key_bytes key) (rs_kv s) with Some (k, _) => k | None => key end) in He.
  assert (key_bytes kept = key_bytes key) as Hkept.
  { subst kept. destruct (bt_get (key_bytes key) (rs_kv s)) as [[k0 v0]|] eqn:E; [|done].
    apply elem_of_bt_get in E; [|done]. exact (Hk _ E). }
  apply bt_insert_elem in He as [->|[He|(He & v' & Hin & Hc)]]; [done|by apply Hk|].
  apply kcmp_eq in Hc. rewrite He, <- Hc. done.
Qed.

Lemma bt_get_reducing_insert s key val k : bt_wf (rs_kv s) ->
  snd <$> bt_get k (rs_kv (reducing_insert s key val)) =
    if bool_decide (key_bytes key = k) then Some val else snd <$> bt_get k (rs_kv s).
Proof.
  intros Hwf. cbn [rs_kv reducing_insert]. case_bool_decide as Hk.
  - subst k. by rewrite bt_get_insert.
  - by rewrite bt_get_insert_ne.
Qed.

Lemma MemoryReducingState_new_wf k : reducing_wf (MemoryReducingState_new k).
Proof. split; constructor. Qed.

(** ** Lemmas on the windows of a task *)
Section merge_lemmas.
Context (reduce_fun : option record -> record -> record * record).

(** A merge rewrites one table and leaves the record to the reduce function. *)
Lemma merge_value_eq s w key r :
  merge_value reduce_fun s w key r =
    (let state := default (MemoryReducingState_new (mkStateKey w (ws_job_id s) (ws_task_number s)))
                    (ws_windows s !! w) in
     let '(v, r) := reduce_fun (lookup_value s w (key_bytes key)) r in
     (set_windows (<[w := reducing_insert state key v]> (ws_windows s)) s, r)).
Proof.
  unfold merge_value, lookup_value, reducing_get. destruct (ws_windows s !! w) as [state|]; cbn; [|done].
  by destruct (bt_get (key_bytes key) (rs_kv state)) as [[k0 v0]|]; cbn.
Qed.

Lemma merge_value_wf s w key r :
  window_state_wf s -> window_state_wf (merge_value reduce_fun s w key r).1.
Proof.
  intros Hwf. rewrite merge_value_eq. destruct (reduce_fun _ r) as [v r']. cbn -[reducing_insert].
  intros w' state'. cbn -[reducing_insert]. rewrite lookup_insert_Some.
  intros [[<- <-]|[_ Hs]]; [|by apply Hwf].
  destruct (ws_windows s !! w) as [state|] eqn:E; cbn -[reducing_insert].
  - destruct (Hwf w state E) as [H1 H2]. split; [by apply reducing_insert_wf|done].
  - split; [apply reducing_insert_wf, MemoryReducingState_new_wf|done].
Qed.

Lemma merge_value_keys s w key r :
  let s' := (merge_value reduce_fun s w key r).1 in
  ws_job_id s' = ws_job_id s /\ ws_task_number s' = ws_task_number s /\
  forall w', is_Some (ws_windows s' !! w') <-> w' = w \/ is_Some (ws_windows s !! w').
Proof.
  cbn zeta. rewrite merge_value_eq. destruct (reduce_fun _ r) as [v r']. cbn -[reducing_insert].
  split_and!; [done|done|]. intros w'. rewrite lookup_insert_is_Some. destruct (decide (w' = w)); naive_solver.
Qed.

Lemma lookup_value_merge s w key r w' k :
  window_state_wf s ->
  lookup_value (merge_value reduce_fun s w key r).1 w' k =
    reduce_step reduce_fun w' k (lookup_value s w' k) (key, r, w).
Proof.
  intros Hwf. rewrite merge_value_eq. destruct (reduce_fun _ r) as [v r'] eqn:Hr.
  cbn [fst]. unfold lookup_value at 1, reduce_step. cbn [ws_windows set_windows].
  destruct (decide (w = w')) as [<-|Hne].
  - rewrite lookup_insert_eq. cbn [mbind option_bind].
    assert (bt_wf (rs_kv (default (MemoryReducingState_new (mkStateKey w (ws_job_id s) (ws_task_number s)))
      (ws_windows s !! w)))) as Hbt.
    { destruct (ws_windows s !! w) as [state|] eqn:E; [by apply (Hwf w state E)|constructor]. }
    rewrite bt_get_reducing_insert by done.
    destruct (decide (key_bytes key = k)) as [<-|Hk].
    + rewrite !bool_decide_eq_true_2 by done. by rewrite Hr.
    + rewrite !bool_decide_eq_false_2 by naive_solver. unfold lookup_value.
      by destruct (ws_windows s !! w).
  - rewrite lookup_insert_ne, bool_decide_eq_false_2 by naive_solver. done.
Qed.

(** A reduce function that leaves its input record as it is. *)
Definition keeps_record : Prop := forall v r, (reduce_fun v r).2 = r.

Lemma merge_windows_ops s ws key r : keeps_record ->
  merge_windows reduce_fun s ws key r =
    (foldl (fun s w => (merge_value reduce_fun s w key r).1) s ws, r).
Proof.
  intros Hk. unfold merge_windows. revert s; induction ws as [|w ws IH]; intros s; simpl; [done|].
  assert (merge_value reduce_fun s w key r = ((merge_value reduce_fun s w key r).1, r)) as ->.
  { rewrite merge_value_eq. pose proof (Hk (lookup_value s w (key_bytes key)) r) as H.
    destruct (reduce_fun _ r). simpl in *. by subst. }
  apply IH.
Qed.

Lemma merge_run s inputs : keeps_record ->
  foldl (fun s '(key, r) => (merge reduce_fun s key r).1) s inputs =
    foldl (fun s '(key, r, w) => (merge_value reduce_fun s w key r).1) s (merge_ops inputs).
Proof.
  intros Hk. revert s; induction inputs as [|[key r] inputs IH]; intros s; simpl; [done|].
  rewrite foldl_app. rewrite <- IH. f_equal. rewrite merge_windows_ops by done. cbn [fst].
  clear. revert s; induction (location_windows r) as [|w ws IH]; intros s; simpl; [done|]. apply IH.
Qed.

Lemma merge_ops_lookup s ops w k : window_state_wf s ->
  let s' := foldl (fun s '(key, r, w) => (merge_value reduce_fun s w key r).1) s ops in
  window_state_wf s' /\
  lookup_value s' w k = foldl (reduce_step reduce_fun w k) (lookup_value s w k) ops.
Proof.
  revert s; induction ops as [|[[key r] w1] ops IH]; intros s Hwf; [done|]. cbn [foldl].
  destruct (IH _ (merge_value_wf s w1 key r Hwf)) as [H1 H2]. split; [done|]. etrans; [exact H2|].
  by rewrite lookup_value_merge.
Qed.
End merge_lemmas.

(** ** Dropping and taking a window *)
Lemma remove_append st k w state :
  remove_drop_window (append_drop_window st k w state) k.1 k.2 w =
    (<[k := delete w (default ∅ (st !! k))]> st, Some state).
Proof.
  unfold remove_drop_window, append_drop_window. destruct k as [j t]; simpl.
  rewrite lookup_insert_eq. f_equal; [|apply lookup_insert_eq].
  by rewrite insert_insert_eq, delete_insert_eq.
Qed.

Lemma remove_removed st k w :
  (remove_drop_window (remove_drop_window st k.1 k.2 w).1 k.1 k.2 w).2 = None.
Proof.
  unfold remove_drop_window. destruct k as [j t]; simpl.
  destruct (st !! (j, t)) as [m|] eqn:E; simpl; [|by rewrite E].
  rewrite lookup_insert_eq. simpl. apply lookup_delete_eq.
Qed.

(** C2: the keyed state computes the reduction. Starting from the empty state of
    a task and merging any sequence of (key, record) inputs with a reduce
    function that does not change its input record, the value held for window
    [w] and key bytes [k] is the left fold of the reduce function over exactly
    the records assigned to [w] with that key, in arrival order; nothing is held
    where there is no such record, and every table stays an ordered map. *)
Theorem merge_refines_reduction (reduce_fun : option record -> record -> record * record)
    (app : string) (job : JobId) (task : Z) (inputs : list (record * record)) (w : Window) (k : list Z) :
  keeps_record reduce_fun ->
  let s := foldl (fun s '(key, r) => (merge reduce_fun s key r).1)
             (MemoryWindowState_new app job task) inputs in
  lookup_value s w k = reduced_value reduce_fun inputs w k /\ window_state_wf s.
Proof.
  intros Hk. cbn zeta. rewrite merge_run by done.
  destruct (merge_ops_lookup reduce_fun (MemoryWindowState_new app job task) (merge_ops inputs) w k) as [H1 H2].
  - intros w' state' H. cbn [ws_windows MemoryWindowState_new] in H. by rewrite lookup_empty in H.
  - split; [|done]. exact H2.
Qed.

(** a dropped window is delivered once. Dropping an open window removes it
    from the task's state and files its table under the task; the first take by
    job, task and window returns that table, and a second one returns nothing. *)
Theorem drop_window_delivered_once (st : DropStorage) (s : MemoryWindowState) (w : Window)
    (state : MemoryReducingState) :
  ws_windows s !! w = Some state ->
  let '(st1, s1, n) := drop_window st s w in
  let key := mkStateKey w (ws_job_id s) (ws_task_number s) in
  ws_windows s1 = delete w (ws_windows s) /\
  n = Z.of_nat (size (ws_windows s)) - 1 /\
  (MemoryReducingState_from st1 key).2 = Some state /\
  (MemoryReducingState_from (MemoryReducingState_from st1 key).1 key).2 = None.
Proof.
  intros Hw. unfold drop_window. rewrite Hw. cbn [ws_windows set_windows]. cbn zeta.
  split; [done|]. split.
  { rewrite map_size_delete_Some by by rewrite Hw. pose proof (map_size_non_empty_iff (ws_windows s)).
    assert (size (ws_windows s) <> 0)%nat; [|lia]. apply map_size_non_empty_iff. intros E. by rewrite E, lookup_empty in Hw. }
  unfold MemoryReducingState_from. cbn [sk_job_id sk_task_number sk_window].
  pose proof (remove_append st (ws_job_id s, ws_task_number s) w state) as H. cbn [fst snd] in H.
  split; [by rewrite H|].
  exact (remove_removed (append_drop_window st (ws_job_id s, ws_task_number s) w state) (ws_job_id s, ws_task_number s) w).
Qed.
End keyed_state_lemmas.

(** ** Evaluated examples *)
Section keyed_state_examples.
#[local] Existing Instances list_buffer id_order.

(** Sums the first value byte; the first record of a key is taken as it is. *)
Definition sum_reduce (value : option record) (r : record) : record * record :=
  match value with
  | Some v =>
      (set_values ([List.hd 0 (as_slice (r_values v)) + List.hd 0 (as_slice (r_values r))] : list Z) r, r)
  | None => (r, r)
  end.

Definition tw (s e : Z) : Window := Window_TimeWindow (mkTimeWindow s e).
Definition rec_of (bytes : list Z) (ws : list Window) : record :=
  set_location_windows ws (set_values (bytes : list Z) Record_new).

Definition example_inputs : list (record * record) :=
  [(rec_of [1] [], rec_of [10] [tw 0 20; tw 10 30]);
   (rec_of [2] [], rec_of [20] [tw 10 30]);
   (rec_of [1] [], rec_of [5] [tw 10 30; tw 20 40])].

Lemma merge_refines_reduction_witness :
  let s := foldl (fun s '(key, r) => (merge sum_reduce s key r).1)
             (MemoryWindowState_new "app" 3 0) example_inputs in
  lookup_value s (tw 10 30) [1] = reduced_value sum_reduce example_inputs (tw 10 30) [1] /\
  window_state_wf s.
Proof.
  apply (merge_refines_reduction sum_reduce "app" 3 0 example_inputs (tw 10 30) [1]).
  intros [v|] r; reflexivity.
Defined.

Example reduced_value_example :
  (fun r => as_slice (r_values r)) <$> reduced_value sum_reduce example_inputs (tw 10 30) [1] = Some [15].
Proof. vm_compute. reflexivity. Qed.

Definition example_state : MemoryWindowState :=
  foldl (fun s '(key, r) => (merge sum_reduce s key r).1) (MemoryWindowState_new "app" 3 0) example_inputs.

Lemma drop_window_delivered_once_witness :
  exists state, ws_windows example_state !! tw 10 30 = Some state /\
  let '(st1, s1, n) := drop_window ∅ example_state (tw 10 30) in
  ws_windows s1 = delete (tw 10 30) (ws_windows example_state) /\ n = 2 /\
  (MemoryReducingState_from st1 (mkStateKey (tw 10 30) 3 0)).2 = Some state /\
  (MemoryReducingState_from (MemoryReducingState_from st1 (mkStateKey (tw 10 30) 3 0)).1
     (mkStateKey (tw 10 30) 3 0)).2 = None.
Proof.
  eexists. split; [vm_compute; reflexivity|].
  apply (drop_window_delivered_once ∅ example_state (tw 10 30)). vm_compute. reflexivity.
Defined.
End keyed_state_examples.
