(* ===== verification/WindowReduce.v ===== *)
(** * WindowReduce: windowed reduction and delivery of dropped windows

    [WindowBaseReduceFunction] (src/rlink/src/functions/system/window_base_reduce.rs)
    reduces records into the keyed window state, drops the windows a watermark
    has passed and tracks, per checkpoint, which of the windows open at the
    checkpoint have been dropped since. [KeyedStateFlatMapFunction]
    (src/rlink/src/functions/system/keyed_state_flat_map.rs) turns the record
    that announces a dropped window into the records of that window.

    The checkpoint handle is JSON text: [JsonApi] states what is used of
    [serde_json] (arrays start with a bracket, objects with a brace, and parsing
    inverts printing). *)
From Stdlib Require Import ZArith Lia Sorted Ascii.
From stdpp Require Import base strings numbers option sets gmap list.
From S2P Require Import Prelude BTreeMap Bytes Runtime Window Element KeyedState.

(** ** Checkpoint handles of a reduction (runnable/reduce_runnable.rs) *)
Record ReduceCheckpointHandle := mkReduceHandle {
  rch_completed_checkpoint_id : option CheckpointId;
  rch_current_windows : list Window
}.

Definition ReduceCheckpointHandle_default : ReduceCheckpointHandle := mkReduceHandle None [].

Class JsonApi := {
  windows_to_json : list Window -> string;
  windows_from_json : string -> option (list Window);
  handle_to_json : ReduceCheckpointHandle -> string;
  handle_from_json : string -> option ReduceCheckpointHandle;
  windows_json : forall ws, windows_from_json (windows_to_json ws) = Some ws;
  windows_json_array : forall ws, exists s, windows_to_json ws = ("[" +:+ s)%string;
  handle_json : forall h, handle_from_json (handle_to_json h) = Some h;
  handle_json_object : forall h, exists s, handle_to_json h = ("{" +:+ s)%string
}.

Section reduce_handle.
Context {JA : JsonApi}.

Definition to_windows_string (h : ReduceCheckpointHandle) : string :=
  windows_to_json (rch_current_windows h).

Definition reduce_handle_to_string (h : ReduceCheckpointHandle) : string := handle_to_json h.

(** [impl From<&str> for ReduceCheckpointHandle]. *)
Definition reduce_handle_from {E : Type} (handle : string) : res E ReduceCheckpointHandle :=
  if decide (handle = "")%string then Ok ReduceCheckpointHandle_default
  else if String.prefix "[" handle then
    windows ← unwrap "called `Result::unwrap()` on an `Err` value" (windows_from_json handle);
    Ok (mkReduceHandle None windows)
  else unwrap "called `Result::unwrap()` on an `Err` value" (handle_from_json handle).
End reduce_handle.

(** [Iterator::min_by_key] and [max_by_key] on ids. *)
Fixpoint min_ck_id (l : list Z) : option Z :=
  match l with
  | [] => None
  | x :: l' => match min_ck_id l' with Some y => Some (Z.min x y) | None => Some x end
  end.

Fixpoint max_ck_id (l : list Z) : option Z :=
  match l with
  | [] => None
  | x :: l' => match max_ck_id l' with Some y => Some (Z.max x y) | None => Some x end
  end.

(** ** WindowBaseReduceFunction *)
Section window_reduce.
Context {SB : SerBuffer} {HO : HashOrder} {JA : JsonApi}.
Context (reduce_func : option record -> record -> record * record).

Record WindowBaseReduceFunction := mkWindowReduce {
  wr_state : option MemoryWindowState;
  wr_window_checkpoints : btree CheckpointId (gmap Window bool);
  wr_skip_windows : list Window;
  wr_windows_gauge : Z
}.

Definition WindowBaseReduceFunction_new : WindowBaseReduceFunction := mkWindowReduce None [] [] 0.

Definition can_skip_window (f : WindowBaseReduceFunction) (window : Window) : bool :=
  match List.find (fun x => (max_timestamp x =? max_timestamp window)
                         && (min_timestamp x =? min_timestamp window)) (wr_skip_windows f) with
  | Some _ => true
  | None => false
  end.

Definition filter_skip_window (f : WindowBaseReduceFunction) (windows : list Window) : list Window :=
  List.filter (fun w => negb (can_skip_window f w)) windows.

Definition wr_initialize_state {E : Type} (f : WindowBaseReduceFunction) (ck_handle : option CheckpointHandle)
    : res E WindowBaseReduceFunction :=
  match ck_handle with
  | Some h =>
      h ← reduce_handle_from (handle h);
      Ok (mkWindowReduce (wr_state f) (wr_window_checkpoints f) (rch_current_windows h) (wr_windows_gauge f))
  | None => Ok f
  end.

(** [open], up to the opening of the user's function. *)
Definition wr_open {E : Type} (f : WindowBaseReduceFunction) (application_id : string) (task_id : TaskId)
    (checkpoint_handle : option CheckpointHandle) : res E WindowBaseReduceFunction :=
  let state := MemoryWindowState_new application_id (job_id task_id) (task_number task_id) in
  wr_initialize_state
    (mkWindowReduce (Some state) (wr_window_checkpoints f) (wr_skip_windows f) (wr_windows_gauge f))
    checkpoint_handle.

Definition wr_merge {E : Type} (f : WindowBaseReduceFunction) (key r : record) : res E WindowBaseReduceFunction :=
  state ← unwrap "called `Option::unwrap()` on a `None` value" (wr_state f);
  let '(state, window_count) := merge reduce_func state key r in
  Ok (mkWindowReduce (Some state) (wr_window_checkpoints f) (wr_skip_windows f) window_count).

Definition wr_reduce {E : Type} (f : WindowBaseReduceFunction) (key r : record) : res E WindowBaseReduceFunction :=
  match wr_skip_windows f, r_location_windows r with
  | _ :: _, Some windows =>
      match filter_skip_window f windows with
      | [] => Ok f
      | filter_windows => wr_merge f key (set_location_windows filter_windows r)
      end
  | _, _ => wr_merge f key r
  end.

(** The loop of [drop_state] over the windows of the state. *)
Definition drop_loop (watermark_timestamp : Z) (st : gmap StorageKey (gmap Window MemoryReducingState))
    (state : MemoryWindowState) (ws : list Window)
    : gmap StorageKey (gmap Window MemoryReducingState) * MemoryWindowState * list Window * Z :=
  foldl (fun '(st, state, drops, cnt) window =>
    if max_timestamp window <=? watermark_timestamp then
      let '(st, state, cnt) := drop_window st state window in
      (st, state, drops ++ [window], cnt)
    else (st, state, drops, cnt)) (st, state, [], 0) ws.

(** [windows.get_mut(w).map(|x| *x = true)] for each dropped window. *)
Definition mark_dropped (drops : list Window) (m : gmap Window bool) : gmap Window bool :=
  foldl (fun m w => alter (fun _ => true) w m) m drops.

Definition drop_record (w : Window) : record := set_window_trigger w Record_new.

Definition drop_state {E : Type} (st : gmap StorageKey (gmap Window MemoryReducingState))
    (f : WindowBaseReduceFunction) (watermark_timestamp : Z)
    : res E (gmap StorageKey (gmap Window MemoryReducingState) * WindowBaseReduceFunction * list record) :=
  state ← unwrap "called `Option::unwrap()` on a `None` value" (wr_state f);
  let '(st, state, drop_windows, window_count) := drop_loop watermark_timestamp st state (windows state) in
  match drop_windows with
  | [] =>
      Ok (st, mkWindowReduce (Some state) (wr_window_checkpoints f) (wr_skip_windows f) window_count, [])
  | _ =>
      let cks := (fun '(id, m) => (id, mark_dropped drop_windows m)) <$> wr_window_checkpoints f in
      Ok (st, mkWindowReduce (Some state) cks (wr_skip_windows f) window_count,
          drop_record <$> sort_by_key max_timestamp drop_windows)
  end.

(** All the windows of the checkpoint have been dropped. *)
Definition all_dropped (m : gmap Window bool) : bool :=
  (length (List.filter (fun '(_, is_completed) => negb is_completed) (hiter m)) =? 0)%nat.

Definition wr_snapshot_state {E : Type} (f : WindowBaseReduceFunction) (context : FunctionSnapshotContext)
    : res E (WindowBaseReduceFunction * option CheckpointHandle) :=
  state ← unwrap "called `Option::unwrap()` on a `None` value" (wr_state f);
  let windows := windows state in
  let windows_map : gmap Window bool := list_to_map ((fun w => (w, false)) <$> windows) in
  let cks := bt_insert (fsc_checkpoint_id context) windows_map (wr_window_checkpoints f) in
  let completed_checkpoint_ids := (List.filter (fun '(_, m) => all_dropped m) cks).*1 in
  let cks := foldl (fun cks id => bt_remove id cks) cks completed_checkpoint_ids in
  cks ← (if 100 <? Z.of_nat (length cks) then
           id ← unwrap "called `Option::unwrap()` on a `None` value" (min_ck_id cks.*1);
           Ok (bt_remove id cks)
         else Ok cks);
  let max_checkpoint_id := max_ck_id completed_checkpoint_ids in
  let handle := reduce_handle_to_string (mkReduceHandle max_checkpoint_id windows) in
  Ok (mkWindowReduce (wr_state f) cks (wr_skip_windows f) (wr_windows_gauge f), Some (mkHandle handle)).

(** ** KeyedStateFlatMapFunction *)
Record KeyedStateFlatMapFunction := mkKeyedFlatMap {
  kf_parent_job_id : JobId;
  kf_task_number : Z
}.

(** [open]: exactly one parent execution; [parents] are their task ids. *)
Definition kf_open {E : Type} (task_id : TaskId) (parents : list TaskId) : res E KeyedStateFlatMapFunction :=
  match parents with
  | [parent] => Ok (mkKeyedFlatMap (job_id parent) (task_number task_id))
  | _ => Panic "KeyedStateMap job can only one parent"
  end.

Definition kf_flat_map_element {E : Type} (st : gmap StorageKey (gmap Window MemoryReducingState))
    (f : KeyedStateFlatMapFunction) (element : Element)
    : res E (gmap StorageKey (gmap Window MemoryReducingState) * list Element) :=
  let* r := into_record element in
  if 0 <? arity r then Panic "drop window's Record is no value" else
  match r_trigger_window r with
  | None => Panic "drop window not found"
  | Some window =>
      let state_key := mkStateKey window (kf_parent_job_id f) (kf_task_number f) in
      let '(st, state) := MemoryReducingState_from st state_key in
      match state with
      | Some reducing_state =>
          let* rs := reducing_iter reducing_state in
          Ok (st, Element_Record <$> rs)
      | None => Ok (st, [])
      end
  end.

(** ** Specification *)

(** At most 100 checkpoints are tracked, in an ordered map, none of them with
    all its windows dropped. *)
Definition tracked_wf (f : WindowBaseReduceFunction) : Prop :=
  bt_wf (wr_window_checkpoints f) /\ (length (wr_window_checkpoints f) <= 100)%nat.
End window_reduce.

(** ** Lemmas on handles and ids *)
Section reduce_handle_lemmas.
Context {JA : JsonApi}.

Lemma reduce_handle_roundtrip {E : Type} h :
  reduce_handle_from (E:=E) (reduce_handle_to_string h) = Ok h.
Proof.
  unfold reduce_handle_from, reduce_handle_to_string. pose proof (handle_json h) as Hj.
  destruct (handle_json_object h) as [s Hs]. rewrite Hs in Hj |- *.
  rewrite decide_False by done. simpl String.prefix. simpl in Hj. cbn. by rewrite Hj.
Qed.

Lemma to_windows_string_roundtrip {E : Type} h :
  reduce_handle_from (E:=E) (to_windows_string h) = Ok (mkReduceHandle None (rch_current_windows h)).
Proof.
  unfold reduce_handle_from, to_windows_string. pose proof (windows_json (rch_current_windows h)) as Hj.
  destruct (windows_json_array (rch_current_windows h)) as [s Hs]. rewrite Hs in Hj |- *.
  rewrite decide_False by done. simpl in Hj. cbn. rewrite Hj. by destruct s.
Qed.
End reduce_handle_lemmas.

Lemma max_ck_id_spec l :
  match max_ck_id l with
  | Some x => x ∈ l /\ forall y, y ∈ l -> y <= x
  | None => l = []
  end.
Proof.
  induction l as [|x l IH]; simpl; [done|]. destruct (max_ck_id l) as [y|].
  - destruct IH as [IH1 IH2]. split.
    + destruct (Z.max_spec x y) as [[_ ->]|[_ ->]]; rewrite elem_of_cons; auto.
    + intros z. rewrite elem_of_cons. intros [->|Hz]; [lia|]. specialize (IH2 z Hz). lia.
  - subst. split; [by left|]. intros y. rewrite list_elem_of_singleton. lia.
Qed.

Lemma min_ck_id_elem l x : min_ck_id l = Some x -> x ∈ l.
Proof.
  revert x; induction l as [|y l IH]; intros x; simpl; [done|]. destruct (min_ck_id l) as [z|].
  - intros [= <-]. destruct (Z.min_spec y z) as [[_ ->]|[_ ->]]; rewrite elem_of_cons; auto.
  - intros [= <-]. by left.
Qed.

Lemma min_ck_id_None l : min_ck_id l = None -> l = [].
Proof. destruct l as [|x l]; simpl; [done|]. by destruct (min_ck_id l). Qed.

(** ** Lemmas on dropping *)
Section drop_lemmas.
Context {SB : SerBuffer} {HO : HashOrder}.
Abbreviation storage := (gmap StorageKey (gmap Window MemoryReducingState)).

Definition storage_lookup (st : storage) (k : StorageKey) (w : Window) : option MemoryReducingState :=
  m ← st !! k; m !! w.

Lemma storage_lookup_append (st : storage) (k : StorageKey) (w : Window) (s : MemoryReducingState)
    (k' : StorageKey) (w' : Window) :
  storage_lookup (append_drop_window st k w s) k' w' =
    if decide (k' = k /\ w' = w) then Some s else storage_lookup st k' w'.
Proof.
  unfold storage_lookup, append_drop_window. destruct (decide (k' = k)) as [->|Hk].
  - rewrite lookup_insert_eq. cbn [mbind option_bind]. destruct (decide (w' = w)) as [->|Hw].
    + by rewrite lookup_insert_eq, decide_True.
    + rewrite lookup_insert_ne, decide_False by naive_solver. by destruct (st !! k).
  - rewrite lookup_insert_ne, decide_False by naive_solver. done.
Qed.

(** One dropped window, as the loop uses it. *)
Lemma drop_window_some (st : storage) (s : MemoryWindowState) (w : Window) (state : MemoryReducingState) : ws_windows s !! w = Some state ->
  exists n, drop_window st s w =
    (append_drop_window st (ws_job_id s, ws_task_number s) w state,
     set_windows (delete w (ws_windows s)) s, n).
Proof. intros H. unfold drop_window. rewrite H. eauto. Qed.

Lemma drop_loop_spec (wm : Z) (ws : list Window) (st : storage) (s : MemoryWindowState)
    (drops : list Window) (cnt : Z) :
  NoDup ws -> (forall w, w ∈ ws -> is_Some (ws_windows s !! w)) ->
  exists st' s' n,
    foldl (fun '(st, state, drops, cnt) window =>
      if max_timestamp window <=? wm then
        let '(st, state, cnt) := drop_window st state window in (st, state, drops ++ [window], cnt)
      else (st, state, drops, cnt)) (st, s, drops, cnt) ws
    = (st', s', drops ++ filter (fun w => max_timestamp w <= wm) ws, n) /\
    ws_application_id s' = ws_application_id s /\
    ws_job_id s' = ws_job_id s /\ ws_task_number s' = ws_task_number s /\
    (forall w, ws_windows s' !! w =
       if decide (w ∈ filter (fun w => max_timestamp w <= wm) ws) then None else ws_windows s !! w) /\
    (forall k w, storage_lookup st' k w =
       if decide (k = (ws_job_id s, ws_task_number s) /\ w ∈ filter (fun w => max_timestamp w <= wm) ws)
       then ws_windows s !! w else storage_lookup st k w).
Proof.
  revert st s drops cnt; induction ws as [|w ws IH]; intros st s drops cnt Hnd Hin.
  { exists st, s, cnt. split_and!; try done.
    - simpl. by rewrite app_nil_r.
    - intros k w. case_decide as Hd; [by destruct Hd as [_ Hd%elem_of_nil]|done]. }
  apply NoDup_cons in Hnd as [Hw Hnd]. cbn [foldl]. rewrite filter_cons.
  destruct (Z.leb_spec (max_timestamp w) wm) as [Hle|Hgt]; case_decide; try lia.
  2: { apply IH; [done|]. intros w' Hw'. apply Hin. by right. }
  destruct (Hin w) as [state Hs]; [by left|]. destruct (drop_window_some st s w state Hs) as [n ->].
  destruct (IH (append_drop_window st (ws_job_id s, ws_task_number s) w state)
    (set_windows (delete w (ws_windows s)) s) (drops ++ [w]) n Hnd) as (st' & s' & n' & Hf & Ha & Hj & Ht & Hws & Hst).
  { intros w' Hw'. cbn [ws_windows set_windows]. rewrite lookup_delete_ne by set_solver.
    apply Hin. by right. }
  cbn [ws_windows ws_job_id ws_task_number ws_application_id set_windows] in *.
  exists st', s', n'. rewrite Hf, <- (assoc_L (++)). split_and!; try done.
  - intros w'. rewrite Hws. destruct (decide (w' = w)) as [->|Hne].
    + rewrite lookup_delete_eq. rewrite (decide_True (P:=w ∈ w :: _)) by by left. by case_decide.
    + rewrite lookup_delete_ne by done. apply decide_ext. rewrite elem_of_cons. naive_solver.
  - intros k w'. rewrite Hst, storage_lookup_append. destruct (decide (w' = w)) as [->|Hne].
    + rewrite decide_False by (intros [_ H']; apply list_elem_of_filter in H' as []; done).
      destruct (decide (k = (ws_job_id s, ws_task_number s))) as [->|?].
      * rewrite !decide_True by (split; [done|by (done || left)]). done.
      * by rewrite !decide_False by naive_solver.
    + rewrite lookup_delete_ne, (decide_False (P:=k = _ /\ w' = w)) by naive_solver.
      apply decide_ext. rewrite elem_of_cons. naive_solver.
Qed.

Lemma mark_dropped_lookup drops (m : gmap Window bool) w :
  mark_dropped drops m !! w = (fun b => b || bool_decide (w ∈ drops)) <$> m !! w.
Proof.
  unfold mark_dropped. revert m; induction drops as [|d drops IH]; intros m; cbn [foldl].
  - rewrite bool_decide_eq_false_2 by apply not_elem_of_nil.
    destruct (m !! w) as [[]|]; done.
  - rewrite IH. destruct (decide (w = d)) as [->|Hne].
    + rewrite lookup_alter_eq, (bool_decide_eq_true_2 (d ∈ d :: drops)) by by left.
      destruct (m !! d) as [[]|]; done.
    + rewrite lookup_alter_ne by done. destruct (m !! w) as [b|]; [|done]. cbn. f_equal.
      f_equal. apply bool_decide_ext. rewrite elem_of_cons. naive_solver.
Qed.

Lemma all_dropped_spec (m : gmap Window bool) : all_dropped m = true <-> map_Forall (fun _ b => b = true) m.
Proof.
  unfold all_dropped. rewrite Nat.eqb_eq. split.
  - intros Hl w b Hw. destruct b; [done|]. apply elem_of_hiter in Hw.
    destruct (List.filter _ (hiter m)) eqn:E; [|done].
    assert ((w, false) ∈ ([] : list (Window * bool))) as []%elem_of_nil.
    rewrite <- E. apply list_elem_of_In, List.filter_In. split; [by apply list_elem_of_In|done].
  - intros Hall. destruct (List.filter _ (hiter m)) as [|[w b] l] eqn:E; [done|].
    assert ((w, b) ∈ (w, b) :: l) as Hin by by left. rewrite <- E in Hin.
    apply list_elem_of_In, List.filter_In in Hin as [Hin Hb].
    apply list_elem_of_In, elem_of_hiter in Hin. rewrite (Hall w b Hin) in Hb. done.
Qed.

Lemma NoDup_windows s : NoDup (windows s).
Proof. apply NoDup_hiter_fst. Qed.

Lemma elem_of_windows s w : w ∈ windows s <-> is_Some (ws_windows s !! w).
Proof. apply elem_of_hiter_keys. Qed.
End drop_lemmas.

(** ** Lemmas on the reduction *)
Section window_reduce_lemmas.
Context {SB : SerBuffer} {HO : HashOrder} {JA : JsonApi}.
Context (reduce_func : option record -> record -> record * record).
Abbreviation storage := (gmap StorageKey (gmap Window MemoryReducingState)).

(** The outcome of [drop_state], for whatever reads it. *)
Lemma drop_state_run (st : storage) (f : WindowBaseReduceFunction) (s : MemoryWindowState) (wm : Z) :
  wr_state f = Some s ->
  exists (st' : storage) (f' : WindowBaseReduceFunction) (s' : MemoryWindowState) (ws : list Window),
    drop_state (E:=string) st f wm = Ok (st', f', drop_record <$> ws) /\ wr_state f' = Some s' /\
    sorted_by max_timestamp ws /\ NoDup ws /\
    (forall w, w ∈ ws <-> is_Some (ws_windows s !! w) /\ max_timestamp w <= wm) /\
    (forall w, ws_windows s' !! w = if decide (w ∈ ws) then None else ws_windows s !! w) /\
    (forall k w, storage_lookup st' k w =
       if decide (k = (ws_job_id s, ws_task_number s) /\ w ∈ ws) then ws_windows s !! w
       else storage_lookup st k w) /\
    Forall2 (fun e e' => e'.1 = e.1 /\ forall w,
       e'.2 !! w = (fun b => b || bool_decide (w ∈ ws)) <$> e.2 !! w)
      (wr_window_checkpoints f) (wr_window_checkpoints f').
Proof.
  intros Hs. unfold drop_state. rewrite Hs. cbn [unwrap]. run_bind. unfold drop_loop.
  destruct (drop_loop_spec wm (windows s) st s [] 0) as (st' & s' & n & -> & _ & Hj & Ht & Hws & Hst).
  { apply NoDup_windows. } { intros w. apply elem_of_windows. }
  cbn [app]. set (ds := filter (fun w => max_timestamp w <= wm) (windows s)) in *.
  exists st', (mkWindowReduce (Some s')
    match ds with
    | [] => wr_window_checkpoints f
    | _ => (fun '(id, m) => (id, mark_dropped ds m)) <$> wr_window_checkpoints f
    end (wr_skip_windows f) n), s', (sort_by_key max_timestamp ds).
  assert (forall w, w ∈ sort_by_key max_timestamp ds <-> w ∈ ds) as Hel by (intros; apply elem_of_sort_by_key).
  split; [|split_and!].
  - destruct ds as [|d ds']; reflexivity.
  - done.
  - apply sort_by_key_sorted.
  - rewrite sort_by_key_perm. apply NoDup_filter, NoDup_windows.
  - intros w. rewrite Hel. unfold ds. rewrite list_elem_of_filter, elem_of_windows. naive_solver.
  - intros w. rewrite Hws. apply decide_ext. by rewrite Hel.
  - intros k w. rewrite Hst. apply decide_ext. by rewrite Hel.
  - destruct ds as [|d ds'] eqn:Hds; cbn [wr_window_checkpoints].
    + apply Forall_Forall2_diag, Forall_forall. intros e _. split; [done|]. intros w.
      cbn [sort_by_key]. rewrite bool_decide_eq_false_2 by apply not_elem_of_nil.
      by destruct (e.2 !! w) as [[]|].
    + apply Forall2_fmap_r, Forall_Forall2_diag, Forall_forall. intros [id m] _. cbn -[mark_dropped].
      split; [done|]. intros w. rewrite mark_dropped_lookup. destruct (m !! w); [|done]. cbn -[sort_by_key].
      do 2 f_equal. apply bool_decide_ext. by rewrite Hel.
Qed.

(** ** Lemmas on snapshots *)
Lemma elem_of_bt_remove {K V : Type} {KO : KeyOrd K} (k : K) (m : btree K V) (e : K * V) :
  bt_wf m -> e ∈ bt_remove k m -> e ∈ m /\ e.1 <> k.
Proof.
  intros Hwf He. split; [by eapply bt_remove_sub|]. intros <-. destruct e as [k v].
  apply elem_of_bt_get in He; [|by apply bt_remove_wf]. simpl in He. by rewrite bt_get_remove in He.
Qed.

(** Removing a list of ids keeps exactly entries with other ids. *)
Lemma bt_remove_all {V : Type} (ids : list Z) (m : btree Z V) : bt_wf m ->
  let m' := foldl (fun m id => bt_remove id m) m ids in
  bt_wf m' /\ (length m' <= length m)%nat /\ forall e, e ∈ m' -> e ∈ m /\ e.1 ∉ ids.
Proof.
  revert m; induction ids as [|id ids IH]; intros m Hwf; cbn [foldl].
  { split_and!; [done|done|]. intros e He. split; [done|apply not_elem_of_nil]. }
  destruct (IH _ (bt_remove_wf id m Hwf)) as (H1 & H2 & H3). split_and!; [done| |].
  - pose proof (length_bt_remove id m). lia.
  - intros e He. destruct (H3 e He) as [Hin Hn]. apply elem_of_bt_remove in Hin as [Hin Hne]; [|done].
    split; [done|]. by apply not_elem_of_cons.
Qed.

(** The windows open now, none of them dropped yet. *)
Definition open_windows (s : MemoryWindowState) : gmap Window bool :=
  list_to_map ((fun w => (w, false)) <$> windows s).

(** The checkpoints a snapshot looks at: those tracked and the new one. *)
Definition snapshot_cks (f : WindowBaseReduceFunction) (s : MemoryWindowState) (id : CheckpointId)
    : btree CheckpointId (gmap Window bool) :=
  bt_insert id (open_windows s) (wr_window_checkpoints f).

(** Every window that was open at the checkpoint has been dropped. *)
Definition completed (m : gmap Window bool) : Prop := map_Forall (fun _ b => b = true) m.

Lemma snapshot_run (f : WindowBaseReduceFunction) (s : MemoryWindowState) (ctx : FunctionSnapshotContext) :
  wr_state f = Some s -> tracked_wf f ->
  let cks := snapshot_cks f s (fsc_checkpoint_id ctx) in
  exists f', wr_snapshot_state (E:=string) f ctx =
      Ok (f', Some (mkHandle (reduce_handle_to_string
        (mkReduceHandle (max_ck_id (List.filter (fun '(_, m) => all_dropped m) cks).*1) (windows s))))) /\
    wr_state f' = wr_state f /\ tracked_wf f' /\
    (forall e, e ∈ wr_window_checkpoints f' -> e ∈ cks /\ ~ completed e.2).
Proof.
  intros Hs [Hwf Hlen]. cbn zeta. unfold wr_snapshot_state. rewrite Hs. cbn [unwrap]. run_bind.
  change (bt_insert (fsc_checkpoint_id ctx) _ _) with (snapshot_cks f s (fsc_checkpoint_id ctx)).
  set (cks := snapshot_cks f s (fsc_checkpoint_id ctx)).
  assert (bt_wf cks) as Hcw by by apply bt_insert_wf.
  assert (length cks <= 101)%nat as Hcl.
  { unfold cks, snapshot_cks. pose proof (length_bt_insert (fsc_checkpoint_id ctx) (open_windows s) (wr_window_checkpoints f)). lia. }
  set (ids := (List.filter (fun '(_, m) => all_dropped m) cks).*1).
  destruct (bt_remove_all ids cks Hcw) as (Hrw & Hrl & Hre).
  set (rest := foldl (fun m id => bt_remove id m) cks ids) in *.
  assert (forall e, e ∈ rest -> e ∈ cks /\ ~ completed e.2) as Hrest.
  { intros e He. destruct (Hre e He) as [Hin Hn]. split; [done|]. intros Hc. apply Hn.
    apply list_elem_of_fmap. exists e. split; [done|]. apply list_elem_of_In, List.filter_In.
    split; [by apply list_elem_of_In|]. destruct e as [id m]. by apply all_dropped_spec. }
  destruct (Z.ltb_spec 100 (Z.of_nat (length rest))) as [Hgt|Hle].
  - destruct (min_ck_id rest.*1) as [id|] eqn:Hmin.
    2: { apply min_ck_id_None in Hmin. destruct rest; [simpl in *; lia|done]. }
    cbn [unwrap]. run_bind. eexists. split_and!; [done|done| |].
    + apply min_ck_id_elem, list_elem_of_fmap in Hmin as ([id' m] & -> & Hin).
      split; [by apply bt_remove_wf|]. cbn [wr_window_checkpoints fst].
      apply elem_of_bt_get in Hin; [|done]. pose proof (length_bt_remove_Some _ _ _ Hin). lia.
    + intros e He. apply Hrest. by eapply bt_remove_sub.
  - run_bind. eexists. split_and!; [done|done| |done]. split; [done|]. cbn [wr_window_checkpoints]. lia.
Qed.

(** ** Lemmas on delivery *)
Lemma state_iter_run {E : Type} (w : Window) (kv : btree (list Z) (record * record)) :
  (forall a b, exists c, buf_extend a b = Ok c) -> Forall (fun e => key_bytes e.2.1 = e.1) kv ->
  exists rs, state_iter (E:=E) w kv = Ok rs /\
    Forall2 (fun e r => as_slice (r_values r) = e.1 ++ as_slice (r_values e.2.2) /\
                        r_trigger_window r = Some w) kv rs.
Proof.
  intros Hext. induction 1 as [|[k [key val]] kv Hk Hkv IH]; [by exists []|].
  destruct IH as (rs & Hrs & HF). cbn [state_iter]. unfold state_record, extend.
  destruct (Hext (r_values key) (r_values val)) as [c Hc]. rewrite Hc. run_bind. rewrite Hrs. run_bind.
  eexists. split; [done|]. constructor; [|done]. cbn.
  rewrite (buf_extend_slice _ _ _ Hc). simpl in Hk. unfold key_bytes in Hk. by rewrite Hk.
Qed.

(** Merging without windows to skip is the merge of the keyed state. *)
Lemma wr_reduce_run (f : WindowBaseReduceFunction) (s : MemoryWindowState) (inputs : list (record * record)) :
  wr_state f = Some s -> wr_skip_windows f = [] ->
  exists f', foldM (E:=string) (fun f '(key, r) => wr_reduce reduce_func f key r) f inputs = Ok f' /\
    wr_state f' = Some (foldl (fun s '(key, r) => (merge reduce_func s key r).1) s inputs).
Proof.
  revert f s; induction inputs as [|[key r] inputs IH]; intros f s Hs Hk; cbn [foldM foldl]; [eauto|].
  unfold wr_reduce. rewrite Hk. unfold wr_merge. rewrite Hs. cbn [unwrap]. run_bind.
  destruct (merge reduce_func s key r) as [s1 n] eqn:Hm. cbn [fst].
  by apply (IH (mkWindowReduce (Some s1) (wr_window_checkpoints f) (wr_skip_windows f) n) s1).
Qed.

Lemma foldl_merge_keys (s : MemoryWindowState) (inputs : list (record * record)) : keeps_record reduce_func ->
  let s' := foldl (fun s '(key, r) => (merge reduce_func s key r).1) s inputs in
  ws_job_id s' = ws_job_id s /\ ws_task_number s' = ws_task_number s.
Proof.
  intros Hk. cbn zeta. rewrite merge_run by done. revert s.
  induction (merge_ops inputs) as [|[[key r] w] ops IH]; intros s; cbn [foldl]; [done|].
  destruct (IH (merge_value reduce_func s w key r).1) as [-> ->].
  by destruct (merge_value_keys reduce_func s w key r) as (-> & -> & _).
Qed.

(** After any inputs a reduction that starts empty holds the reduced values. *)
Lemma wr_reduce_values (app : string) (job task : Z) (inputs : list (record * record)) : keeps_record reduce_func ->
  exists f s, foldM (E:=string) (fun f '(key, r) => wr_reduce reduce_func f key r) (mkWindowReduce (Some (MemoryWindowState_new app job task)) [] [] 0) inputs = Ok f /\
    wr_state f = Some s /\ forall w k, lookup_value s w k = reduced_value reduce_func inputs w k.
Proof.
  intros Hk. destruct (wr_reduce_run (mkWindowReduce (Some (MemoryWindowState_new app job task)) [] [] 0) _ inputs eq_refl eq_refl) as (f & Hf & Hs). exists f. eexists. split; [done|]. split; [exact Hs|].
  intros w k. rewrite merge_run by done. destruct (merge_ops_lookup reduce_func (MemoryWindowState_new app job task) (merge_ops inputs) w k) as [_ H]; [|exact H].
  intros w' st H. cbn in H. by rewrite lookup_empty in H.
Qed.

(** C1: the results of a window. A reduction that starts from the empty state of
    a task, without windows to skip, and takes any inputs; a watermark that
    passes the end of a window [w] some input belongs to; then the flat map of
    the downstream task on the record announcing [w]. The announcement is among
    the records [drop_state] returns, and the flat map yields one record per key
    of [w], in ascending key order, made of the key bytes followed by the bytes
    of the reduction of exactly that key's records in [w], and marked with [w]. *)
Theorem window_results (app : string) (job task wm : Z) (inputs : list (record * record)) (w : Window)
    (key0 : list Z) (st : gmap StorageKey (gmap Window MemoryReducingState)) :
  keeps_record reduce_func -> (forall a b, exists c, buf_extend a b = Ok c) ->
  is_Some (reduced_value reduce_func inputs w key0) -> max_timestamp w <= wm ->
  exists f1 st2 f2 drops st3 rs kvs,
    foldM (E:=string) (fun f '(key, r) => wr_reduce reduce_func f key r)
      (mkWindowReduce (Some (MemoryWindowState_new app job task)) [] [] 0) inputs = Ok f1 /\
    drop_state (E:=string) st f1 wm = Ok (st2, f2, drops) /\ drop_record w ∈ drops /\
    kf_flat_map_element (E:=string) st2 (mkKeyedFlatMap job task) (Element_Record (drop_record w))
      = Ok (st3, Element_Record <$> rs) /\
    StronglySorted klt kvs.*1 /\
    (forall k v, (k, v) ∈ kvs <-> reduced_value reduce_func inputs w k = Some v) /\
    Forall2 (fun kv r => as_slice (r_values r) = kv.1 ++ as_slice (r_values kv.2) /\
                         r_trigger_window r = Some w) kvs rs.
Proof.
  intros Hk Hext [v0 Hv0] Hwm.
  destruct (wr_reduce_run (mkWindowReduce (Some (MemoryWindowState_new app job task)) [] [] 0)
    (MemoryWindowState_new app job task) inputs eq_refl eq_refl) as (f1 & Hf1 & Hs1).
  set (s := foldl _ _ inputs) in Hs1.
  assert (forall k, lookup_value s w k = reduced_value reduce_func inputs w k) as Hlk.
  { intros k. unfold s. rewrite merge_run by done.
    by destruct (merge_ops_lookup reduce_func (MemoryWindowState_new app job task) (merge_ops inputs) w k
      ltac:(intros ? ? H; cbn in H; by rewrite lookup_empty in H)) as [_ ->]. }
  assert (window_state_wf s) as Hwf.
  { unfold s. rewrite merge_run by done.
    by destruct (merge_ops_lookup reduce_func (MemoryWindowState_new app job task) (merge_ops inputs) w key0
      ltac:(intros ? ? H; cbn in H; by rewrite lookup_empty in H)) as [? _]. }
  destruct (foldl_merge_keys (MemoryWindowState_new app job task) inputs Hk) as [Hj Ht].
  fold s in Hj, Ht. cbn [ws_job_id ws_task_number MemoryWindowState_new] in Hj, Ht.
  destruct (drop_state_run st f1 s wm Hs1) as (st2 & f2 & s2 & ws & Hd & _ & _ & _ & Hws & _ & Hst & _).
  pose proof (Hlk key0) as Hl0. rewrite Hv0 in Hl0. unfold lookup_value in Hl0.
  destruct (ws_windows s !! w) as [state|] eqn:Hw; [|done].
  assert (w ∈ ws) as Hin by by apply Hws; rewrite Hw; eauto.
  destruct (Hwf w state Hw) as [[Hbt Hkb] Hsk].
  destruct (state_iter_run (E:=string) w (rs_kv state) Hext Hkb) as (rs & Hrs & HF).
  pose proof (Hst (job, task) w) as Hst2. rewrite Hj, Ht, decide_True, Hw in Hst2 by done.
  exists f1, st2, f2, (drop_record <$> ws), (remove_drop_window st2 job task w).1, rs, ((fun e => (e.1, e.2.2)) <$> rs_kv state).
  split_and!; [done|done|by apply list_elem_of_fmap_2| | | |].
  - unfold kf_flat_map_element. cbn [into_record]. run_bind. unfold arity. cbn [drop_record set_window_trigger r_values Record_new].
    rewrite buf_len_slice, buf_new_slice. cbn [length Z.of_nat Z.ltb Z.compare r_trigger_window drop_record set_window_trigger].
    unfold MemoryReducingState_from, remove_drop_window. cbn [sk_job_id sk_task_number sk_window kf_parent_job_id kf_task_number].
    unfold storage_lookup in Hst2. destruct (st2 !! (job, task)) as [m|]; [|cbn in Hst2; discriminate].
    cbn in Hst2. rewrite Hst2.
    unfold reducing_iter. rewrite Hsk. cbn [sk_window]. rewrite Hrs. run_bind. done.
  - rewrite <- list_fmap_compose. exact Hbt.
  - intros k v. rewrite <- Hlk. unfold lookup_value. rewrite Hw. cbn [mbind option_bind].
    rewrite list_elem_of_fmap. split.
    + intros ([k' [key v']] & Heq & He). apply elem_of_bt_get in He; [|done]. simplify_eq/=. by rewrite He.
    + intros (p & He & ->)%fmap_Some. apply elem_of_bt_get in He; [|done].
      exists (k, p). by destruct p.
  - apply Forall2_fmap_l. exact HF.
Qed.

(** the windows a watermark closes. [drop_state] returns one announcement per
    open window whose end is at most the watermark, ordered by end; exactly those
    windows leave the state, each with its table filed in the storage under the
    task, everything else in state and storage is unchanged, and every tracked
    checkpoint marks exactly those of its windows as dropped. *)
Theorem drop_state_closes (st : gmap StorageKey (gmap Window MemoryReducingState))
    (f : WindowBaseReduceFunction) (s : MemoryWindowState) (wm : Z) :
  wr_state f = Some s ->
  exists st' f' s' ws,
    drop_state (E:=string) st f wm = Ok (st', f', drop_record <$> ws) /\ wr_state f' = Some s' /\
    sorted_by max_timestamp ws /\ NoDup ws /\
    (forall w, w ∈ ws <-> is_Some (ws_windows s !! w) /\ max_timestamp w <= wm) /\
    (forall w, ws_windows s' !! w = if decide (w ∈ ws) then None else ws_windows s !! w) /\
    (forall k w, storage_lookup st' k w =
       if decide (k = (ws_job_id s, ws_task_number s) /\ w ∈ ws) then ws_windows s !! w
       else storage_lookup st k w) /\
    Forall2 (fun e e' => e'.1 = e.1 /\ forall w,
       e'.2 !! w = (fun b => b || bool_decide (w ∈ ws)) <$> e.2 !! w)
      (wr_window_checkpoints f) (wr_window_checkpoints f').
Proof. apply drop_state_run. Qed.

(** the snapshot of a reduction. It never panics; its handle reads back as
    the windows open now together with the greatest checkpoint, among those
    tracked and the new one, all of whose windows have been dropped since
    (none if there is no such checkpoint). At most 100 checkpoints stay tracked,
    each of them with a window still open. *)
Theorem snapshot_state_spec (f : WindowBaseReduceFunction) (s : MemoryWindowState)
    (ctx : FunctionSnapshotContext) :
  wr_state f = Some s -> tracked_wf f ->
  let cks := snapshot_cks f s (fsc_checkpoint_id ctx) in
  exists f' h c, wr_snapshot_state (E:=string) f ctx = Ok (f', Some h) /\
    reduce_handle_from (E:=string) (handle h) = Ok (mkReduceHandle c (windows s)) /\
    match c with
    | Some id => (exists m, (id, m) ∈ cks /\ completed m) /\
                 (forall id' m, (id', m) ∈ cks -> completed m -> id' <= id)
    | None => forall e, e ∈ cks -> ~ completed e.2
    end /\
    wr_state f' = Some s /\ tracked_wf f' /\
    (forall e, e ∈ wr_window_checkpoints f' -> e ∈ cks /\ ~ completed e.2).
Proof.
  intros Hs Hwf. cbn zeta. destruct (snapshot_run f s ctx Hs Hwf) as (f' & Hr & Hs' & Hwf' & He).
  set (cks := snapshot_cks f s (fsc_checkpoint_id ctx)) in *.
  set (ids := (List.filter (fun '(_, m) => all_dropped m) cks).*1) in *.
  assert (forall id, id ∈ ids <-> exists m, (id, m) ∈ cks /\ completed m) as Hids.
  { intros id. unfold ids. rewrite list_elem_of_fmap. split.
    - intros ([id' m] & -> & Hin). apply list_elem_of_In, List.filter_In in Hin as [Hin Hm].
      exists m. split; [by apply list_elem_of_In|by apply all_dropped_spec].
    - intros (m & Hin & Hm). exists (id, m). split; [done|]. apply list_elem_of_In, List.filter_In.
      split; [by apply list_elem_of_In|by apply all_dropped_spec]. }
  exists f'. eexists _, (max_ck_id ids). split_and!; [exact Hr|apply reduce_handle_roundtrip| |congruence|done|done].
  pose proof (max_ck_id_spec ids) as Hmax. destruct (max_ck_id ids) as [id|].
  - destruct Hmax as [Hin Hle]. split; [by apply Hids|]. intros id' m H1 H2. apply Hle, Hids. eauto.
  - intros [id m] Hin Hc. assert (id ∈ ids) as H by (apply Hids; eauto). rewrite Hmax in H. by apply elem_of_nil in H.
Qed.
End window_reduce_lemmas.

(** ** Evaluated examples *)

(** A concrete printer and parser with the shape the code relies on: the first
    character, then the bits of a numbering of the values. *)
Fixpoint bits_print (p : positive) : string :=
  match p with
  | xH => "."
  | xO p => String "0"%char (bits_print p)
  | xI p => String "1"%char (bits_print p)
  end.

Fixpoint bits_parse (s : string) : option positive :=
  match s with
  | EmptyString => None
  | String c s =>
      if String.eqb (String c EmptyString) "." then Some xH
      else if String.eqb (String c EmptyString) "0" then xO <$> bits_parse s
      else xI <$> bits_parse s
  end.

Lemma bits_parse_print p : bits_parse (bits_print p) = Some p.
Proof. induction p as [p IH|p IH|]; cbn; rewrite ?IH; done. Qed.

#[global] Instance ReduceCheckpointHandle_eq_dec : EqDecision ReduceCheckpointHandle.
Proof. solve_decision. Defined.
#[global] Instance ReduceCheckpointHandle_countable : Countable ReduceCheckpointHandle.
Proof.
  apply (inj_countable' (fun h => (rch_completed_checkpoint_id h, rch_current_windows h))
    (fun '(c, w) => mkReduceHandle c w)). by intros [].
Defined.

Definition tagged_parse {A : Type} `{Countable A} (s : string) : option A :=
  match s with EmptyString => None | String _ s => p ← bits_parse s; decode p end.

Lemma tagged_parse_print {A : Type} `{Countable A} (tag : string) (x : A) :
  String.length tag = 1%nat -> tagged_parse (tag +:+ bits_print (encode x)) = Some x.
Proof.
  destruct tag as [|c [|c' tag]]; try discriminate. intros _.
  change (tagged_parse _) with (p ← bits_parse (bits_print (encode x)); decode (A:=A) p).
  rewrite bits_parse_print. apply decode_encode.
Qed.

#[local] Program Instance bits_json : JsonApi := {|
  windows_to_json := fun ws => "[" +:+ bits_print (encode ws);
  windows_from_json := tagged_parse;
  handle_to_json := fun h => "{" +:+ bits_print (encode h);
  handle_from_json := tagged_parse
|}.
Next Obligation. intros ws. by apply (tagged_parse_print "["). Qed.
Next Obligation. intros ws. eauto. Qed.
Next Obligation. intros h. by apply (tagged_parse_print "{"). Qed.
Next Obligation. intros h. eauto. Qed.

Section window_reduce_examples.
#[local] Existing Instances list_buffer id_order bits_json.

Definition example_reduce : WindowBaseReduceFunction :=
  mkWindowReduce (Some example_state)
    [(100, {[ tw 0 20 := false; tw 10 30 := true ]})] [] 0.

Lemma window_results_witness :
  exists f1 st2 f2 drops st3 rs kvs,
    foldM (E:=string) (fun f '(key, r) => wr_reduce sum_reduce f key r)
      (mkWindowReduce (Some (MemoryWindowState_new "app" 3 0)) [] [] 0) example_inputs = Ok f1 /\
    drop_state (E:=string) ∅ f1 30 = Ok (st2, f2, drops) /\ drop_record (tw 10 30) ∈ drops /\
    kf_flat_map_element (E:=string) st2 (mkKeyedFlatMap 3 0) (Element_Record (drop_record (tw 10 30)))
      = Ok (st3, Element_Record <$> rs) /\
    StronglySorted klt kvs.*1 /\
    (forall k v, (k, v) ∈ kvs <-> reduced_value sum_reduce example_inputs (tw 10 30) k = Some v) /\
    Forall2 (fun kv r => as_slice (r_values r) = kv.1 ++ as_slice (r_values kv.2) /\
                         r_trigger_window r = Some (tw 10 30)) kvs rs.
Proof.
  apply (window_results sum_reduce "app" 3 0 30 example_inputs (tw 10 30) [1] ∅).
  - intros [v|] r; reflexivity.
  - intros a b. eexists. reflexivity.
  - vm_compute. eexists. reflexivity.
  - vm_compute. discriminate.
Defined.

Lemma drop_state_closes_witness :
  exists st' f' s' ws,
    drop_state (E:=string) ∅ example_reduce 25 = Ok (st', f', drop_record <$> ws) /\ wr_state f' = Some s' /\
    sorted_by max_timestamp ws /\ NoDup ws /\
    (forall w, w ∈ ws <-> is_Some (ws_windows example_state !! w) /\ max_timestamp w <= 25) /\
    (forall w, ws_windows s' !! w = if decide (w ∈ ws) then None else ws_windows example_state !! w) /\
    (forall k w, storage_lookup st' k w =
       if decide (k = (ws_job_id example_state, ws_task_number example_state) /\ w ∈ ws)
       then ws_windows example_state !! w else storage_lookup ∅ k w) /\
    Forall2 (fun e e' => e'.1 = e.1 /\ forall w,
       e'.2 !! w = (fun b => b || bool_decide (w ∈ ws)) <$> e.2 !! w)
      (wr_window_checkpoints example_reduce) (wr_window_checkpoints f').
Proof. apply (drop_state_closes ∅ example_reduce example_state 25). reflexivity. Defined.

Definition example_context : FunctionSnapshotContext := mkSnapshotContext 7 (mkTaskId 3 0 1) 200 None.

Lemma snapshot_state_spec_witness :
  let cks := snapshot_cks example_reduce example_state 200 in
  exists f' h c, wr_snapshot_state (E:=string) example_reduce example_context = Ok (f', Some h) /\
    reduce_handle_from (E:=string) (handle h) = Ok (mkReduceHandle c (windows example_state)) /\
    match c with
    | Some id => (exists m, (id, m) ∈ cks /\ completed m) /\
                 (forall id' m, (id', m) ∈ cks -> completed m -> id' <= id)
    | None => forall e, e ∈ cks -> ~ completed e.2
    end /\
    wr_state f' = Some example_state /\ tracked_wf f' /\
    (forall e, e ∈ wr_window_checkpoints f' -> e ∈ cks /\ ~ completed e.2).
Proof.
  apply (snapshot_state_spec example_reduce example_state example_context); [reflexivity|].
  split; [repeat constructor|simpl; lia].
Defined.

(** Window [10, 30) closes at watermark 30 and holds 15 for key 1 and 20 for key 2. *)
Example window_results_example :
  (let* f := foldM (E:=string) (fun f '(key, r) => wr_reduce sum_reduce f key r)
      (mkWindowReduce (Some (MemoryWindowState_new "app" 3 0)) [] [] 0) example_inputs in
   let* (st, f, drops) := drop_state ∅ f 30 in
   let* (st, out) := kf_flat_map_element st (mkKeyedFlatMap 3 0) (Element_Record (drop_record (tw 10 30))) in
   Ok ((fun d => r_trigger_window d) <$> drops,
       (fun e => match e with Element_Record r => as_slice (r_values r) | _ => [] end) <$> out))
  = Ok ([Some (tw 0 20); Some (tw 10 30)], [[1; 15]; [2; 20]]).
Proof. vm_compute. reflexivity. Qed.
End window_reduce_examples.
