(* ===== verification/Runnables.v ===== *)
(** * Runnables: the operators of a task and their chain
    (src/rlink/src/runtime/worker/runnable/)

    A task is a chain of runnables; [run] of one processes an element and calls
    [run] of the next. Here a step returns the new state and the ordered list of
    what it does besides: elements passed to the next runnable, checkpoints
    submitted, heartbeats reported. [run_chain] plays these actions in order,
    each element handed on being processed by the rest of the chain before the
    next action. All runnables finish changing their own state and the world
    before or independently of the calls to the next, so the two orders agree.

    The functions of the application (filter, flat map, key selector, timestamp
    assigner, ...) are classes over the function's state; a function that can
    panic returns a [res]. The world holds the storage of dropped windows and the
    reading of the clock. [context] is what a runnable uses of its
    [RunnableContext] after [open]: the id of its task. *)
From Stdlib Require Import ZArith Lia Sorted.
From stdpp Require Import base strings numbers option sets gmap list.
From S2P Require Import Prelude BTreeMap Bytes Runtime Graph Window Element Watermark Align KeyedState WindowReduce.

Section runnables.
Context {SB : SerBuffer} {HO : HashOrder} {JA : JsonApi}.

Record World := mkWorld {
  w_storage : gmap StorageKey (gmap Window MemoryReducingState);
  w_now : Z
}.

Inductive action : Type :=
  | Act_next (e : Element)
  | Act_checkpoint (ck : Checkpoint)
  | Act_write (e : Element)
  | Act_task_end (t : TaskId).

(** ** Function traits (core/function.rs) *)
Class FilterFunction (F : Type) := {
  filter_record : F -> record -> record * bool;
  filter_checkpoint :: CheckpointFunction F
}.

Class FlatMapFunction (F : Type) := {
  flat_map_element : World -> F -> Element -> res string (World * F * list Element);
  flat_map_checkpoint :: CheckpointFunction F
}.

Class KeySelectorFunction (F : Type) := {
  get_key : F -> record -> record * record;
  key_selector_checkpoint :: CheckpointFunction F
}.

Class CoProcessFunction (F : Type) := {
  process_left : F -> record -> F * list record;
  process_right : F -> Z -> record -> F * list record;
  co_process_checkpoint :: CheckpointFunction F
}.

Class OutputFormat (F : Type) := {
  write_element : F -> Element -> res string F;
  output_checkpoint :: CheckpointFunction F
}.

Class TimestampAssigner (F : Type) :=
  extract_timestamp : F -> record -> Z -> res string (F * record * Z).

(** The provided [OutputFormat::write_element] of a user sink. *)
Definition default_write_element {F : Type} (write_record : F -> record -> F) (f : F) (e : Element)
    : res string F := r ← into_record e; Ok (write_record f r).

(** [RunnableContext::checkpoint_context]. *)
Definition checkpoint_context (task_id : TaskId) (operator_id : OperatorId) (checkpoint_id : CheckpointId)
    (completed : option CheckpointId) : FunctionSnapshotContext :=
  mkSnapshotContext operator_id task_id checkpoint_id completed.

(** [checkpoint] of the runnables: snapshot the function, report the handle. *)
Definition make_checkpoint {F : Type} `{CheckpointFunction F} (f : F) (ctx : FunctionSnapshotContext)
    : F * Checkpoint :=
  let '(f, h) := snapshot_state f ctx in
  (f, mkCheckpoint (fsc_operator_id ctx) (fsc_task_id ctx) (fsc_checkpoint_id ctx)
        (fsc_completed_checkpoint_id ctx) (default CheckpointHandle_default h)).

(** The barrier case the runnables share: checkpoint, then pass the barrier on. *)
Definition barrier_step {F : Type} `{CheckpointFunction F} (context : option TaskId) (operator_id : OperatorId)
    (f : F) (b : Barrier) : res string (F * list action) :=
  let* task_id := unwrap "called `Option::unwrap()` on a `None` value" context in
  let '(f, ck) := make_checkpoint f (checkpoint_context task_id operator_id (b_checkpoint_id b) None) in
  Ok (f, [Act_checkpoint ck; Act_next (Element_Barrier b)]).

(** ** FilterRunnable *)
Record FilterRunnable (F : Type) := mkFilterRunnable {
  flt_operator_id : OperatorId;
  flt_context : option TaskId;
  stream_filter : F
}.

Definition filter_run {F : Type} `{FilterFunction F} (w : World) (s : FilterRunnable F) (e : Element)
    : res string (World * FilterRunnable F * list action) :=
  match e with
  | Element_Record r =>
      let '(r, keep) := filter_record (stream_filter F s) r in
      Ok (w, s, if (keep : bool) then [Act_next (Element_Record r)] else [])
  | Element_Barrier b =>
      let* (f, acts) := barrier_step (flt_context F s) (flt_operator_id F s) (stream_filter F s) b in
      Ok (w, mkFilterRunnable F (flt_operator_id F s) (flt_context F s) f, acts)
  | _ => Ok (w, s, [Act_next e])
  end.

(** ** FlatMapRunnable *)
Record FlatMapRunnable (F : Type) := mkFlatMapRunnable {
  fm_operator_id : OperatorId;
  fm_context : option TaskId;
  stream_map : F
}.

Definition flat_map_run {F : Type} `{FlatMapFunction F} (w : World) (s : FlatMapRunnable F) (e : Element)
    : res string (World * FlatMapRunnable F * list action) :=
  match e with
  | Element_Record _ =>
      let* (w, f, elements) := flat_map_element w (stream_map F s) e in
      Ok (w, mkFlatMapRunnable F (fm_operator_id F s) (fm_context F s) f, Act_next <$> elements)
  | Element_Barrier b =>
      let* (f, acts) := barrier_step (fm_context F s) (fm_operator_id F s) (stream_map F s) b in
      Ok (w, mkFlatMapRunnable F (fm_operator_id F s) (fm_context F s) f, acts)
  | _ => Ok (w, s, [Act_next e])
  end.

(** ** KeyByRunnable *)

(** [utils::hash::hash_code]: murmur3 over the bytes, or an I/O error. *)
Context (hash_code : list Z -> option Z).

Record KeyByRunnable (F : Type) := mkKeyByRunnable {
  kb_operator_id : OperatorId;
  kb_context : option TaskId;
  stream_key_by : F;
  kb_partition_size : Z
}.

Definition key_by_run {F : Type} `{KeySelectorFunction F} (w : World) (s : KeyByRunnable F) (e : Element)
    : res string (World * KeyByRunnable F * list action) :=
  match e with
  | Element_Record r =>
      let '(r, key_row) := get_key (stream_key_by F s) r in
      let hash := default 0 (hash_code (as_slice (r_values key_row))) in
      if kb_partition_size F s =? 0
      then Panic "attempt to calculate the remainder with a divisor of zero"
      else
        let partition_num := hash mod kb_partition_size F s in
        Ok (w, s, [Act_next (Element_Record (record_set_partition (wrap_u 16 partition_num) r))])
  | Element_Barrier b =>
      let* (f, acts) := barrier_step (kb_context F s) (kb_operator_id F s) (stream_key_by F s) b in
      Ok (w, mkKeyByRunnable F (kb_operator_id F s) (kb_context F s) f (kb_partition_size F s), acts)
  | _ => Ok (w, s, [Act_next e])
  end.

(** ** CoProcessRunnable *)
Record CoProcessRunnable (F : Type) := mkCoProcessRunnable {
  cp_operator_id : OperatorId;
  cp_context : option TaskId;
  stream_co_process : F;
  cp_parent_jobs : gmap JobId Z
}.

(** The loop of [open] over the parent streams: [find_job] is the search of the
    parent job that holds the stream node. *)
Fixpoint co_process_open_loop (find_job : OperatorId -> option JobId) (index : Z)
    (parent_ids : list OperatorId) (parent_jobs : gmap JobId Z) : res string (gmap JobId Z) :=
  match parent_ids with
  | [] => Ok parent_jobs
  | parent_id :: ids =>
      let* parent_job_id := ok_or (find_job parent_id) "co_process_function parent not found"%string in
      co_process_open_loop find_job (index + 1) ids (<[parent_job_id := index]> parent_jobs)
  end.

Definition co_process_run {F : Type} `{CoProcessFunction F} (w : World) (s : CoProcessRunnable F) (e : Element)
    : res string (World * CoProcessRunnable F * list action) :=
  match e with
  | Element_Record r =>
      let* stream_seq := unwrap "parent job not found"
        (cp_parent_jobs F s !! job_id (source_task_id (r_channel_key r))) in
      let '(f, records) :=
        if stream_seq =? Z.of_nat (size (cp_parent_jobs F s)) - 1
        then process_left (stream_co_process F s) r
        else process_right (stream_co_process F s) stream_seq r in
      Ok (w, mkCoProcessRunnable F (cp_operator_id F s) (cp_context F s) f (cp_parent_jobs F s),
          (fun r => Act_next (Element_Record r)) <$> records)
  | Element_Barrier b =>
      let* (f, acts) := barrier_step (cp_context F s) (cp_operator_id F s) (stream_co_process F s) b in
      Ok (w, mkCoProcessRunnable F (cp_operator_id F s) (cp_context F s) f (cp_parent_jobs F s), acts)
  | _ => Ok (w, s, [Act_next e])
  end.

(** ** WatermarkAssignerRunnable *)
Context {U : Type}
  (user_on_event : U -> record -> Z -> U * record * option Z)
  (user_on_periodic_emit : U -> U * option Z).

Record WatermarkAssignerRunnable (TA S : Type) := mkWatermarkAssigner {
  wa_operator_id : OperatorId;
  wa_context : option TaskId;
  watermark_generator : WatermarkGenerator (U:=U);
  timestamp_assigner : TA;
  watermark_strategy : S;
  wa_watermark : Z
}.

(** [update_watermark_progress]: the special watermarks above the maximum are
    not stored. *)
Definition update_watermark_progress (current watermark : Z) : Z :=
  if MAX_WATERMARK <? watermark then current else watermark.

Definition watermark_assigner_run {TA S : Type} `{TimestampAssigner TA} `{CheckpointFunction S}
    (w : World) (s : WatermarkAssignerRunnable TA S) (e : Element)
    : res string (World * WatermarkAssignerRunnable TA S * list action) :=
  let with_state g a wm strategy :=
    mkWatermarkAssigner TA S (wa_operator_id TA S s) (wa_context TA S s) g a strategy wm in
  match e with
  | Element_Record r =>
      let* (a, r, timestamp) := extract_timestamp (timestamp_assigner TA S s) r 0 in
      let r := set_timestamp timestamp r in
      let '(g, r, watermark) :=
        on_event user_on_event user_on_periodic_emit (w_now w) (watermark_generator TA S s) r timestamp in
      if r_timestamp r <? wa_watermark TA S s
      then Ok (w, with_state g a (wa_watermark TA S s) (watermark_strategy TA S s), [])
      else
        match watermark with
        | Some watermark =>
            let wm := update_watermark_progress (wa_watermark TA S s) watermark in
            Ok (w, with_state g a wm (watermark_strategy TA S s),
                [Act_next (Element_Record r); Act_next (new_watermark wm)])
        | None =>
            Ok (w, with_state g a (wa_watermark TA S s) (watermark_strategy TA S s),
                [Act_next (Element_Record r)])
        end
  | Element_StreamStatus ss =>
      if ss_end ss then Ok (w, s, [Act_next max_watermark; Act_next e])
      else
        let '(g, watermark) :=
          on_periodic_emit user_on_periodic_emit (w_now w) (watermark_generator TA S s) in
        let wm := update_watermark_progress (wa_watermark TA S s) (default MIN_WATERMARK watermark) in
        Ok (w, with_state g (timestamp_assigner TA S s) wm (watermark_strategy TA S s),
            [Act_next (new_watermark wm); Act_next e])
  | Element_Barrier b =>
      let* (strategy, acts) :=
        barrier_step (wa_context TA S s) (wa_operator_id TA S s) (watermark_strategy TA S s) b in
      Ok (w, with_state (watermark_generator TA S s) (timestamp_assigner TA S s) (wa_watermark TA S s) strategy, acts)
  | Element_Watermark _ => Ok (w, s, [Act_next e])
  end.

(** ** WindowAssignerRunnable *)
Record WindowAssignerRunnable := mkWindowAssigner {
  wd_operator_id : OperatorId;
  wd_context : option TaskId;
  stream_window : SlidingEventTimeWindows
}.

#[local] Instance sliding_checkpoint : CheckpointFunction SlidingEventTimeWindows :=
  default_checkpoint_function _.

Definition window_assigner_run (w : World) (s : WindowAssignerRunnable) (e : Element)
    : res string (World * WindowAssignerRunnable * list action) :=
  match e with
  | Element_Record r =>
      let* windows := assign_windows (stream_window s) (r_timestamp r) in
      Ok (w, s, [Act_next (Element_Record (set_location_windows windows r))])
  | Element_Watermark wm =>
      let* windows := assign_windows (stream_window s) (w_timestamp wm) in
      Ok (w, s, [Act_next (Element_Watermark (watermark_set_location_windows windows wm))])
  | Element_Barrier b =>
      let* (f, acts) := barrier_step (wd_context s) (wd_operator_id s) (stream_window s) b in
      Ok (w, mkWindowAssigner (wd_operator_id s) (wd_context s) f, acts)
  | Element_StreamStatus _ => Ok (w, s, [Act_next e])
  end.

(** ** ReduceRunnable *)
Context (reduce_func : option record -> record -> record * record).

Record ReduceRunnable (K : Type) := mkReduceRunnable {
  rd_operator_id : OperatorId;
  rd_context : option TaskId;
  rd_key_by : option K;
  stream_reduce : WindowBaseReduceFunction;
  limited_watermark_window : Window;
  rd_completed_checkpoint_id : option CheckpointId
}.

(** [Record expiration check]. *)
Definition acceptable (limit : Window) (r : record) : bool :=
  match max_location_window r with
  | Some window => min_timestamp limit <=? min_timestamp window
  | None => true
  end.

(** [ReduceRunnable::checkpoint]. *)
Definition reduce_checkpoint (f : WindowBaseReduceFunction) (ctx : FunctionSnapshotContext)
    : res string (WindowBaseReduceFunction * option CheckpointId * Checkpoint) :=
  let* (f, h) := wr_snapshot_state f ctx in
  let* fn_handle := reduce_handle_from (handle (default CheckpointHandle_default h)) in
  let completed := rch_completed_checkpoint_id fn_handle in
  Ok (f, completed,
      mkCheckpoint (fsc_operator_id ctx) (fsc_task_id ctx) (fsc_checkpoint_id ctx) completed
        (mkHandle (to_windows_string fn_handle))).

Definition reduce_run {K : Type} `{KeySelectorFunction K} (w : World) (s : ReduceRunnable K) (e : Element)
    : res string (World * ReduceRunnable K * list action) :=
  match e with
  | Element_Record r =>
      if negb (acceptable (limited_watermark_window K s) r) then Ok (w, s, [])
      else
        let '(r, key) :=
          match rd_key_by K s with
          | Some stream_key_by => get_key stream_key_by r
          | None => (r, Record_new)
          end in
        let* f := wr_reduce reduce_func (stream_reduce K s) key r in
        Ok (w, mkReduceRunnable K (rd_operator_id K s) (rd_context K s) (rd_key_by K s) f
                 (limited_watermark_window K s) (rd_completed_checkpoint_id K s), [])
  | Element_Watermark wm =>
      match min_location_windows wm with
      | Some min_watermark_window =>
          let* (st, f, drop_events) :=
            drop_state (w_storage w) (stream_reduce K s) (min_timestamp min_watermark_window) in
          Ok (mkWorld st (w_now w),
              mkReduceRunnable K (rd_operator_id K s) (rd_context K s) (rd_key_by K s) f
                min_watermark_window (rd_completed_checkpoint_id K s),
              (fun r => Act_next (Element_Record r)) <$> drop_events)
      | None => Panic "watermark must have window on reduce"
      end
  | Element_Barrier b =>
      let* task_id := unwrap "called `Option::unwrap()` on a `None` value" (rd_context K s) in
      let* (f, completed, ck) :=
        reduce_checkpoint (stream_reduce K s) (checkpoint_context task_id (rd_operator_id K s) (b_checkpoint_id b) None) in
      let b := match completed with Some id => set_completed_checkpoint_id id b | None => b end in
      Ok (w, mkReduceRunnable K (rd_operator_id K s) (rd_context K s) (rd_key_by K s) f
               (limited_watermark_window K s) completed,
          [Act_checkpoint ck; Act_next (Element_Barrier b)])
  | Element_StreamStatus _ => Ok (w, s, [Act_next e])
  end.

(** ** SinkRunnable *)
Record SinkRunnable (F : Type) := mkSinkRunnable {
  sk_operator_id : OperatorId;
  sk_context : option TaskId;
  child_parallelism : Z;
  sk_fn_creator : FunctionCreator;
  stream_sink : F
}.

(** [open]: the parallelism the non-record elements are copied to, from the
    parallelism of the only child job and the edge to it. *)
Definition sink_child_parallelism {E : Type} (child_jobs : list (Z * JobEdge)) : res E Z :=
  match child_jobs with
  | [] => Ok 0
  | [(parallelism, edge)] => Ok match edge with Forward => 0 | ReBalance => parallelism end
  | _ => Panic "not implemented"
  end.

(** The copies written to the downstream tasks. *)
Definition sink_copies (n : Z) (e : Element) : list Element :=
  if 0 <? n then (fun index => set_partition (Z.of_nat index) e) <$> seq 0 (Z.to_nat n) else [e].

Definition sink_run {F : Type} `{OutputFormat F} (w : World) (s : SinkRunnable F) (e : Element)
    : res string (World * SinkRunnable F * list action) :=
  let with_sink f := mkSinkRunnable F (sk_operator_id F s) (sk_context F s) (child_parallelism F s) (sk_fn_creator F s) f in
  match e with
  | Element_Record _ =>
      let* f := write_element (stream_sink F s) e in
      Ok (w, with_sink f, [Act_write e])
  | _ =>
      let* (f, acts) :=
        match e with
        | Element_Barrier b =>
            let* task_id := unwrap "called `Option::unwrap()` on a `None` value" (sk_context F s) in
            let '(f, ck) := make_checkpoint (stream_sink F s)
              (checkpoint_context task_id (sk_operator_id F s) (b_checkpoint_id b) (completed_checkpoint_id b)) in
            Ok (f, [Act_checkpoint ck])
        | _ => Ok (stream_sink F s, [])
        end in
      match sk_fn_creator F s with
      | System =>
          let copies := sink_copies (child_parallelism F s) e in
          let* f := foldM write_element f copies in
          Ok (w, with_sink f, acts ++ (Act_write <$> copies))
      | User => Ok (w, with_sink f, acts)
      end
  end.
End runnables.
