(* ===== verification/Task.v ===== *)
(** * Task: the source of a task and its operator chain

    [source_step] is the loop body of [SourceRunnable::run]
    (src/rlink/src/runtime/worker/runnable/source_runnable.rs): it aligns
    barriers, statuses and watermarks of the parents and feeds the chain.
    [run_chain] is the nested calls of [Runnable::run]; [submit_checkpoint]
    (src/rlink/src/runtime/worker/checkpoint.rs) is the bounded report queue.

    What the chain needs of an operator is an interface: [ForwardsBarrier] for
    an operator in the middle and [SinksBarrier] for the last one. The theorem on
    the chain is proved against it, and each runnable is an instance. *)
From Stdlib Require Import ZArith Lia Sorted.
From stdpp Require Import base strings numbers option sets gmap list.
From S2P Require Import Prelude BTreeMap Bytes Runtime Graph Window Element Watermark Align KeyedState WindowReduce Runnables.

(** An arrival: the position of the parent among the parents, and its barrier. *)
Abbreviation arrival := (nat * Barrier)%type.

(** ** The checkpoint report queue *)
Definition CK_CAPACITY : Z := 100.

(** [submit_checkpoint]: [try_send] on the bounded channel; the queue keeps its
    receiver, so it is never disconnected. A checkpoint that does not fit is
    given back. *)
Definition submit_checkpoint (queue : list Checkpoint) (ck : Checkpoint)
    : list Checkpoint * option Checkpoint :=
  if Z.of_nat (length queue) <? CK_CAPACITY then (queue ++ [ck], None) else (queue, Some ck).

Section task.
Context {SB : SerBuffer} {HO : HashOrder} {JA : JsonApi}.

(** ** SourceRunnable *)
Record SourceRunnable (F : Type) := mkSourceRunnable {
  sr_operator_id : OperatorId;
  sr_context : option TaskId;
  sr_task_id : TaskId;
  stream_source : F;
  waiting_end_flags : Z;
  end_flags : Z;
  barrier_alignment : AlignManager;
  stream_status_alignment : AlignManager;
  watermark_manager : WatermarkManager
}.

(** The map [parent_jobs] of [open], from the task ids of the parent executions. *)
Definition mark_parent {E : Type} (m : gmap JobId (list bool)) (p : TaskId) : res E (gmap JobId (list bool)) :=
  let tasks := default (replicate (Z.to_nat (num_tasks p)) false) (m !! job_id p) in
  if (Z.to_nat (task_number p) <? length tasks)%nat
  then Ok (<[job_id p := <[Z.to_nat (task_number p) := true]> tasks]> m)
  else Panic "index out of bounds".

(** [open], after the next runnable and the input format have been opened;
    [parents] are the task ids of the parent executions. *)
Definition source_open {F : Type} (operator_id : OperatorId) (task_id : TaskId) (f : F) (parents : list TaskId)
    : res string (SourceRunnable F) :=
  let parent_execution_size := Z.of_nat (length parents) in
  let* parent_jobs := foldM mark_parent ∅ parents in
  Ok (mkSourceRunnable F operator_id (Some task_id) task_id f
        (if parent_execution_size =? 0 then 1 else parent_execution_size) 0
        (AlignManager_new parent_execution_size) (AlignManager_new parent_execution_size)
        (WatermarkManager_new parent_jobs)).

(** One element of the input iterator. *)
Definition source_step {F : Type} `{!CheckpointFunction F} (s : SourceRunnable F) (e : Element)
    : res string (SourceRunnable F * list action) :=
  let upd f ef ba sa wm := mkSourceRunnable F (sr_operator_id F s) (sr_context F s) (sr_task_id F s)
    f (waiting_end_flags F s) ef ba sa wm in
  match e with
  | Element_Record _ => Ok (s, [Act_next e])
  | Element_Barrier b =>
      let* (ba, is_barrier_align) := align_apply (barrier_alignment F s) (b_checkpoint_id b) in
      let s1 := upd (stream_source F s) (end_flags F s) ba (stream_status_alignment F s) (watermark_manager F s) in
      if is_barrier_align : bool then
        let* (f, acts) := barrier_step (sr_context F s) (sr_operator_id F s) (stream_source F s) b in
        Ok (upd f (end_flags F s) ba (stream_status_alignment F s) (watermark_manager F s), acts)
      else Ok (s1, [])
  | Element_Watermark w =>
      let* (wm, out) := wm_apply (watermark_manager F s) w in
      Ok (upd (stream_source F s) (end_flags F s) (barrier_alignment F s) (stream_status_alignment F s) wm,
          match out with Some min => [Act_next (Element_Watermark min)] | None => [] end)
  | Element_StreamStatus ss =>
      let ef := if ss_end ss then end_flags F s + 1 else end_flags F s in
      let parent_job_terminated := ss_end ss && (waiting_end_flags F s <=? ef) in
      let* wm := watermark_job_check (watermark_manager F s) ss in
      let* (sa, is_align) := align_apply (stream_status_alignment F s) (ss_timestamp ss) in
      Ok (upd (stream_source F s) ef (barrier_alignment F s) sa wm,
          (if is_align : bool then [Act_next (new_stream_status (ss_timestamp ss) parent_job_terminated)] else [])
          ++ (if parent_job_terminated then [Act_task_end (sr_task_id F s)] else []))
  end.

(** The loop over the input iterator. *)
Fixpoint source_run {F : Type} `{!CheckpointFunction F} (s : SourceRunnable F) (es : list Element)
    : res string (SourceRunnable F * list action) :=
  match es with
  | [] => Ok (s, [])
  | e :: es' =>
      let* (s, acts) := source_step s e in
      let* (s, acts') := source_run s es' in
      Ok (s, acts ++ acts')
  end.

(** ** The operator chain *)
Record runnable := mkRunnable {
  rn_state : Type;
  rn_cur : rn_state;
  rn_run : World -> rn_state -> Element -> res string (World * rn_state * list action)
}.

(** [depth] bounds the nesting of calls; the length of the chain is enough. *)
Fixpoint run_chain (depth : nat) (w : World) (rs : list runnable) (e : Element)
    : res string (World * list runnable * list action) :=
  match depth, rs with
  | S depth, r :: rs =>
      let* (w, st, acts) := rn_run r w (rn_cur r) e in
      let* (w, rs, effs) := foldM (fun '(w, rs, effs) act =>
        match act with
        | Act_next e =>
            let* (w, rs, effs') := run_chain depth w rs e in
            Ok (w, rs, effs ++ effs')
        | _ => Ok (w, rs, effs ++ [act])
        end) (w, rs, []) acts in
      Ok (w, mkRunnable (rn_state r) st (rn_run r) :: rs, effs)
  | _, _ => Panic "called `Option::unwrap()` on a `None` value"
  end.

(** ** The interface of an operator towards barriers *)

(** Operator [op] of task [task], in a state satisfying [inv]: on a barrier it
    reports exactly one checkpoint, for the barrier's id, and then passes on a
    barrier with the same id. *)
Class ForwardsBarrier {S : Type} (run : World -> S -> Element -> res string (World * S * list action))
    (inv : S -> Prop) (op : OperatorId) (task : TaskId) :=
  forwards_barrier : forall w s b, inv s -> exists s' ck b',
    run w s (Element_Barrier b) = Ok (w, s', [Act_checkpoint ck; Act_next (Element_Barrier b')]) /\
    inv s' /\ ck_operator_id ck = op /\ ck_task_id ck = task /\
    ck_checkpoint_id ck = b_checkpoint_id b /\ b_checkpoint_id b' = b_checkpoint_id b.

(** The last operator: one checkpoint, then the copies for the downstream tasks. *)
Class SinksBarrier {S : Type} (run : World -> S -> Element -> res string (World * S * list action))
    (inv : S -> Prop) (op : OperatorId) (task : TaskId) :=
  sinks_barrier : forall w s b, inv s -> exists s' ck bs,
    run w s (Element_Barrier b) =
      Ok (w, s', Act_checkpoint ck :: ((fun b => Act_write (Element_Barrier b)) <$> bs)) /\
    inv s' /\ ck_operator_id ck = op /\ ck_task_id ck = task /\
    ck_checkpoint_id ck = b_checkpoint_id b /\
    Forall (fun b' => b_checkpoint_id b' = b_checkpoint_id b) bs.

(** A chain of such operators, with their ids. *)
Inductive chain_ok (task : TaskId) : list OperatorId -> list runnable -> Prop :=
  | chain_ok_sink S cur run inv op :
      SinksBarrier (S:=S) run inv op task -> inv cur ->
      chain_ok task [op] [mkRunnable S cur run]
  | chain_ok_cons S cur run inv op ops rs :
      ForwardsBarrier (S:=S) run inv op task -> inv cur -> chain_ok task ops rs ->
      chain_ok task (op :: ops) (mkRunnable S cur run :: rs).

(** The checkpoints among the actions. *)
Definition checkpoints_of (acts : list action) : list Checkpoint :=
  omap (fun a => match a with Act_checkpoint ck => Some ck | _ => None end) acts.

(** The elements written downstream. *)
Definition writes_of (acts : list action) : list Element :=
  omap (fun a => match a with Act_write e => Some e | _ => None end) acts.

(** ** Lemmas *)
Lemma barrier_step_run {F : Type} `{!CheckpointFunction F} task op (f : F) b :
  exists f' ck, barrier_step (Some task) op f b = Ok (f', [Act_checkpoint ck; Act_next (Element_Barrier b)]) /\
    ck_operator_id ck = op /\ ck_task_id ck = task /\ ck_checkpoint_id ck = b_checkpoint_id b.
Proof.
  unfold barrier_step, make_checkpoint. cbn [unwrap]. run_bind.
  destruct (snapshot_state f _) as [f' h]. eexists f', _. split; [done|]. done.
Qed.

(** *** The runnables as instances *)
#[global] Instance filter_forwards {F : Type} `{!FilterFunction F} op task :
  ForwardsBarrier filter_run (fun s : FilterRunnable F => flt_context F s = Some task /\ flt_operator_id F s = op) op task.
Proof.
  intros w s b [Hc Ho]. cbn [filter_run]. rewrite Hc, Ho.
  destruct (barrier_step_run task op (stream_filter F s) b) as (f' & ck & -> & ? & ? & ?). run_bind.
  do 3 eexists. split; [done|]. split_and!; done.
Qed.

#[global] Instance flat_map_forwards {F : Type} `{!FlatMapFunction F} op task :
  ForwardsBarrier flat_map_run (fun s : FlatMapRunnable F => fm_context F s = Some task /\ fm_operator_id F s = op) op task.
Proof.
  intros w s b [Hc Ho]. cbn [flat_map_run]. rewrite Hc, Ho.
  destruct (barrier_step_run task op (stream_map F s) b) as (f' & ck & -> & ? & ? & ?). run_bind.
  do 3 eexists. split; [done|]. split_and!; done.
Qed.

#[global] Instance key_by_forwards hash {F : Type} `{!KeySelectorFunction F} op task :
  ForwardsBarrier (key_by_run hash) (fun s : KeyByRunnable F => kb_context F s = Some task /\ kb_operator_id F s = op) op task.
Proof.
  intros w s b [Hc Ho]. cbn [key_by_run]. rewrite Hc, Ho.
  destruct (barrier_step_run task op (stream_key_by F s) b) as (f' & ck & -> & ? & ? & ?). run_bind.
  do 3 eexists. split; [done|]. split_and!; done.
Qed.

#[global] Instance co_process_forwards {F : Type} `{!CoProcessFunction F} op task :
  ForwardsBarrier co_process_run (fun s : CoProcessRunnable F => cp_context F s = Some task /\ cp_operator_id F s = op) op task.
Proof.
  intros w s b [Hc Ho]. cbn [co_process_run]. rewrite Hc, Ho.
  destruct (barrier_step_run task op (stream_co_process F s) b) as (f' & ck & -> & ? & ? & ?). run_bind.
  do 3 eexists. split; [done|]. split_and!; done.
Qed.

#[global] Instance watermark_assigner_forwards {U TA S : Type} ue up `{!TimestampAssigner TA} `{!CheckpointFunction S} op task :
  ForwardsBarrier (watermark_assigner_run (U:=U) ue up)
    (fun s : WatermarkAssignerRunnable TA S => wa_context TA S s = Some task /\ wa_operator_id TA S s = op) op task.
Proof.
  intros w s b [Hc Ho]. cbn [watermark_assigner_run]. rewrite Hc, Ho.
  destruct (barrier_step_run task op (watermark_strategy TA S s) b) as (f' & ck & -> & ? & ? & ?). run_bind.
  do 3 eexists. split; [done|]. split_and!; done.
Qed.

#[global] Instance window_assigner_forwards op task :
  ForwardsBarrier window_assigner_run (fun s => wd_context s = Some task /\ wd_operator_id s = op) op task.
Proof.
  intros w s b [Hc Ho]. cbn [window_assigner_run]. rewrite Hc, Ho.
  destruct (barrier_step_run (CheckpointFunction0:=sliding_checkpoint) task op (stream_window s) b) as (f' & ck & -> & ? & ? & ?). run_bind.
  do 3 eexists. split; [done|]. split_and!; done.
Qed.

(** The reduction also needs its function opened and its checkpoints tracked
    within their bound. *)
Definition reduce_inv {K : Type} (op : OperatorId) (task : TaskId) (s : ReduceRunnable K) : Prop :=
  rd_context K s = Some task /\ rd_operator_id K s = op /\
  is_Some (wr_state (stream_reduce K s)) /\ tracked_wf (stream_reduce K s).

#[global] Instance reduce_forwards rf {K : Type} `{!KeySelectorFunction K} op task :
  ForwardsBarrier (reduce_run rf) (reduce_inv (K:=K) op task) op task.
Proof.
  intros w s b (Hc & Ho & [ms Hs] & Ht). cbn [reduce_run]. rewrite Hc, Ho. cbn [unwrap]. run_bind.
  unfold reduce_checkpoint.
  destruct (snapshot_run (stream_reduce K s) ms (checkpoint_context task op (b_checkpoint_id b) None) Hs Ht)
    as (f' & -> & Hs' & Ht' & _). run_bind.
  cbn [from_option id handle]. rewrite reduce_handle_roundtrip. run_bind. cbn [rch_completed_checkpoint_id].
  do 3 eexists. split; [done|]. split_and!; try done.
  - unfold reduce_inv. cbn. rewrite Hs'. eauto.
  - case_match; [|done]. unfold set_completed_checkpoint_id. by case_match.
Qed.

Lemma sink_copies_barrier n b :
  Act_write <$> sink_copies n (Element_Barrier b) =
    (fun b => Act_write (Element_Barrier b)) <$>
      (if 0 <? n then (fun i => barrier_set_partition (Z.of_nat i) b) <$> seq 0 (Z.to_nat n) else [b]).
Proof. unfold sink_copies. destruct (0 <? n); [|done]. by rewrite <- !list_fmap_compose. Qed.

#[global] Instance sink_sinks {F : Type} `{!OutputFormat F} op task :
  SinksBarrier sink_run (fun s : SinkRunnable F => sk_context F s = Some task /\ sk_operator_id F s = op /\
    forall f e, exists f' : F, write_element f e = Ok f') op task.
Proof.
  intros w s b (Hc & Ho & Hw). cbn [sink_run]. rewrite Hc, Ho. cbn [unwrap]. run_bind.
  unfold make_checkpoint. destruct (snapshot_state (stream_sink F s) _) as [f' h]. run_bind.
  assert (forall es (f : F), exists f'', foldM write_element f es = Ok f'') as Hall.
  { induction es as [|e es IH]; intros f; simpl; [eauto|]. destruct (Hw f e) as [f1 ->]. apply IH. }
  destruct (sk_fn_creator F s).
  - destruct (Hall (sink_copies (child_parallelism F s) (Element_Barrier b)) f') as [f'' ->]. run_bind.
    eexists _, _, (if 0 <? child_parallelism F s then
      (fun i => barrier_set_partition (Z.of_nat i) b) <$> seq 0 (Z.to_nat (child_parallelism F s)) else [b]).
    split; [rewrite sink_copies_barrier; reflexivity|]. split_and!; try done.
    destruct (0 <? child_parallelism F s); [|by repeat constructor].
    apply Forall_fmap, Forall_true. by intros i.
  - eexists _, _, []. split; [done|]. split_and!; done.
Qed.

(** Playing the barrier actions of a middle operator: the rest of the chain runs
    once, on the barrier passed on. *)
Lemma run_chain_forward depth w r rs e w1 st ck b :
  rn_run r w (rn_cur r) e = Ok (w1, st, [Act_checkpoint ck; Act_next (Element_Barrier b)]) ->
  run_chain (S depth) w (r :: rs) e =
    (let* (w, rs, effs) := run_chain depth w1 rs (Element_Barrier b) in
     Ok (w, mkRunnable (rn_state r) st (rn_run r) :: rs, Act_checkpoint ck :: effs)).
Proof.
  intros H. cbn [run_chain]. rewrite H. run_bind. cbn [foldM app].
  destruct (run_chain depth w1 rs (Element_Barrier b)) as [[[w2 rs2] effs]| |]; done.
Qed.

(** Actions without an element for the next runnable are the effects. *)
Lemma run_chain_last depth w r e w1 st acts :
  rn_run r w (rn_cur r) e = Ok (w1, st, acts) ->
  Forall (fun a => match a with Act_next _ => False | _ => True end) acts ->
  run_chain (S depth) w [r] e = Ok (w1, [mkRunnable (rn_state r) st (rn_run r)], acts).
Proof.
  intros H Hacts. cbn [run_chain]. rewrite H. run_bind.
  match goal with |- context [foldM ?f ?s acts] => assert (foldM f s acts = Ok (w1, [], acts)) as -> end; [|done].
  enough (forall pre, foldM (fun '(w, rs, effs) act =>
        match act with
        | Act_next e => let* (w, rs, effs') := run_chain depth w rs e in Ok (w, rs, effs ++ effs')
        | _ => Ok (w, rs, effs ++ [act])
        end) (w1, ([] : list runnable), pre) acts = Ok (w1, [], pre ++ acts)) as Hp by apply (Hp []).
  clear H. induction Hacts as [|a acts Ha Hacts IH]; intros pre; cbn [foldM]; [by rewrite app_nil_r|].
  destruct a; try done; rewrite IH, <- (assoc_L (++)); done.
Qed.

(** What a chain does with a barrier: the reports of its operators, then what its sink writes. *)
Definition barrier_effects (cks : list Checkpoint) (bs : list Barrier) : list action :=
  (Act_checkpoint <$> cks) ++ ((fun b => Act_write (Element_Barrier b)) <$> bs).

Lemma chain_barrier task ops rs w b : chain_ok task ops rs ->
  exists rs' cks bs, run_chain (length rs) w rs (Element_Barrier b) = Ok (w, rs', barrier_effects cks bs) /\
    chain_ok task ops rs' /\ ck_operator_id <$> cks = ops /\
    Forall (fun ck => ck_task_id ck = task /\ ck_checkpoint_id ck = b_checkpoint_id b) cks /\
    Forall (fun b' => b_checkpoint_id b' = b_checkpoint_id b) bs.
Proof.
  intros Hok. revert b; induction Hok as [S cur run inv op HS Hinv|S cur run inv op ops rs HF Hinv Hok IH]; intros b.
  - destruct (HS w cur b Hinv) as (s' & ck & bs & Hr & Hinv' & Ho & Ht & Hc & Hbs).
    cbn [length]. rewrite (run_chain_last 0 w (mkRunnable S cur run) _ w s' _ Hr).
    2: { constructor; [done|]. apply Forall_fmap, Forall_forall. by intros. }
    exists [mkRunnable S s' run], [ck], bs. split; [done|]. split; [by econstructor|]. split_and!; [by rewrite <- Ho|by repeat constructor|done].
  - destruct (HF w cur b Hinv) as (s' & ck & b' & Hr & Hinv' & Ho & Ht & Hc & Hb).
    cbn [length]. rewrite (run_chain_forward _ w (mkRunnable S cur run) rs _ w s' ck b' Hr).
    destruct (IH b') as (rs' & cks & bs & -> & Hok' & Hops & Hck & Hwr). run_bind. rewrite Hb in Hck, Hwr.
    exists (mkRunnable S s' run :: rs'), (ck :: cks), bs. split; [done|]. split; [by econstructor|].
    split_and!; [by rewrite fmap_cons, Ho, Hops|by constructor|done].
Qed.

(** *** Watermark order *)

(** The elements passed on respect the watermarks: each record is not older than
    the last watermark passed before it, and watermarks do not decrease. *)
Fixpoint watermark_ordered (cur : Z) (acts : list action) : Prop :=
  match acts with
  | [] => True
  | Act_next (Element_Record r) :: acts' => cur <= r_timestamp r /\ watermark_ordered cur acts'
  | Act_next (Element_Watermark w) :: acts' => cur <= w_timestamp w /\ watermark_ordered (w_timestamp w) acts'
  | _ :: acts' => watermark_ordered cur acts'
  end.

(** The last watermark passed on. *)
Fixpoint last_watermark (cur : Z) (acts : list action) : Z :=
  match acts with
  | [] => cur
  | Act_next (Element_Watermark w) :: acts' => last_watermark (w_timestamp w) acts'
  | _ :: acts' => last_watermark cur acts'
  end.

Lemma watermark_ordered_app cur acts acts' :
  watermark_ordered cur (acts ++ acts') <->
  watermark_ordered cur acts /\ watermark_ordered (last_watermark cur acts) acts'.
Proof.
  revert cur; induction acts as [|a acts IH]; intros cur; simpl; [tauto|].
  destruct a as [[]| | |]; rewrite ?IH; tauto.
Qed.

Section assigner.
Context {U TA S : Type} (ue : U -> record -> Z -> U * record * option Z) (up : U -> U * option Z).
Context `{!TimestampAssigner TA} `{!CheckpointFunction S}.
(** Extracted timestamps are [u64]. *)
Context (extract_u64 : forall a r p a' r' ts, extract_timestamp a r p = Ok (a', r', ts) -> in_u 64 ts).

(** The assigner runs on a list of timed inputs. *)
Fixpoint assigner_run (s : WatermarkAssignerRunnable (U:=U) TA S) (ins : list (World * Element))
    : res string (WatermarkAssignerRunnable (U:=U) TA S * list action) :=
  match ins with
  | [] => Ok (s, [])
  | (w, e) :: ins' =>
      let* (_, s, acts) := watermark_assigner_run ue up w s e in
      let* (s, acts') := assigner_run s ins' in
      Ok (s, acts ++ acts')
  end.

(** The generator is built on bounded out-of-orderness and the current watermark
    is not ahead of it. *)
Definition assigner_inv (s : WatermarkAssignerRunnable (U:=U) TA S) : Prop :=
  exists b, base (watermark_generator TA S s) = Some b /\ boo_wf b /\
    wa_watermark TA S s <= event_watermark (boo_out_of_orderness_millis b) (boo_max_timestamp b).

(** Records, barriers and statuses that do not end the stream. *)
Definition running_input (e : Element) : Prop :=
  match e with
  | Element_Watermark _ => False
  | Element_StreamStatus ss => ss_end ss = false
  | _ => True
  end.

Lemma update_watermark_progress_le cur wm : cur <= MAX_WATERMARK ->
  update_watermark_progress cur wm <= MAX_WATERMARK.
Proof. unfold update_watermark_progress. case_match; bool_to_prop; lia. Qed.

(** What the assigner stores after an answer of the generator lies between the
    old watermark and the generator's. *)
Lemma progress_between d m cur w : cur <= event_watermark d m ->
  (w = IDLE_WATERMARK \/ w = event_watermark d m) ->
  cur <= update_watermark_progress cur w <= event_watermark d m.
Proof.
  intros Hc [->| ->]; unfold update_watermark_progress.
  - change (MAX_WATERMARK <? IDLE_WATERMARK) with true. cbv iota. lia.
  - destruct (MAX_WATERMARK <? _); lia.
Qed.

Lemma assigner_step w s e w' s' acts :
  assigner_inv s -> running_input e -> watermark_assigner_run ue up w s e = Ok (w', s', acts) ->
  assigner_inv s' /\ watermark_ordered (wa_watermark TA S s) acts /\
  last_watermark (wa_watermark TA S s) acts = wa_watermark TA S s'.
Proof.
  intros (b & Hb & Hwf & Hcur) Hin. unfold watermark_assigner_run.
  destruct e as [r|wm|ss|br]; [|done| |].
  - destruct (extract_timestamp _ r 0) as [[[a r1] ts]| |] eqn:Hx; [|done..]. run_bind.
    pose proof (extract_u64 _ _ _ _ _ _ Hx) as Hts.
    set (r2 := set_timestamp ts r1).
    pose proof (event_record ue up (w_now w) (watermark_generator TA S s) r2 ts b Hb) as Hr.
    destruct (event_base ue up (w_now w) (watermark_generator TA S s) r2 ts b Hb Hwf Hts) as [Hb' He].
    destruct (on_event ue up (w_now w) _ r2 ts) as [[g' r'] wmo]. cbn [fst snd] in *. subst r'.
    set (b' := mkBoo (Z.max (boo_max_timestamp b) ts) (boo_out_of_orderness_millis b)) in *.
    assert (boo_wf b') as Hwf' by (destruct Hwf; unfold boo_wf, in_u in *; simpl; lia).
    assert (event_watermark (boo_out_of_orderness_millis b) (boo_max_timestamp b) <=
      event_watermark (boo_out_of_orderness_millis b') (boo_max_timestamp b')) as Hmono
      by (apply event_watermark_mono; simpl; lia).
    assert (forall wm a strategy, wm <= event_watermark (boo_out_of_orderness_millis b') (boo_max_timestamp b') ->
      assigner_inv (mkWatermarkAssigner TA S (wa_operator_id TA S s) (wa_context TA S s) g' a strategy wm))
      as Hinv by (intros; by exists b').
    destruct (Z.ltb_spec (r_timestamp r2) (wa_watermark TA S s)) as [Hlt|Hge].
    { intros [= <- <- <-]. split; [apply Hinv; lia|done]. }
    destruct wmo as [wm|]; intros [= <- <- <-]; [|split; [apply Hinv; lia|simpl; auto]].
    assert (wa_watermark TA S s <= update_watermark_progress (wa_watermark TA S s) wm <=
      event_watermark (boo_out_of_orderness_millis b') (boo_max_timestamp b')) as Hp.
    { apply progress_between; [simpl in *; lia|]. destruct He as [|[[= ->]|[= ->]]]; [done|auto..]. }
    split; [apply Hinv; lia|]. simpl in *. split_and!; try done; lia.
  - simpl in Hin. rewrite Hin.
    destruct (emit_base up (w_now w) (watermark_generator TA S s) b Hb Hwf) as [Hb' He].
    destruct (emit_some up (w_now w) (watermark_generator TA S s) b Hb) as [wm Hwm].
    destruct (on_periodic_emit up (w_now w) _) as [g' wmo]. cbn [fst snd] in *. subst wmo.
    intros [= <- <- <-]. cbn [from_option id].
    assert (wa_watermark TA S s <= update_watermark_progress (wa_watermark TA S s) wm <=
      event_watermark (boo_out_of_orderness_millis b) (boo_max_timestamp b)) as Hp.
    { apply progress_between; [done|]. destruct He as [|[[= ->]|[= ->]]]; [done|auto..]. }
    split; [exists b; simpl; split_and!; [done|done|lia]|]. simpl. split_and!; try done; lia.
  - unfold barrier_step. destruct (wa_context TA S s); [|done]. cbn [unwrap]. run_bind.
    destruct (make_checkpoint _ _) as [st' ck]. run_bind. intros [= <- <- <-].
    split; [by exists b|]. simpl. done.
Qed.

Lemma assigner_run_ordered s ins s' acts :
  assigner_inv s -> Forall (fun i => running_input i.2) ins -> assigner_run s ins = Ok (s', acts) ->
  watermark_ordered (wa_watermark TA S s) acts.
Proof.
  revert s acts; induction ins as [|[w e] ins IH]; intros s acts Hinv Hins; cbn [assigner_run].
  { intros [= <- <-]. done. }
  apply Forall_cons in Hins as [He Hins].
  destruct (watermark_assigner_run ue up w s e) as [[[w1 s1] a1]| |] eqn:E1; [|done..]. run_bind.
  destruct (assigner_step _ _ _ _ _ _ Hinv He E1) as (Hinv1 & Ho & Hl).
  destruct (assigner_run s1 ins) as [[s2 a2]| |] eqn:E2; [|done..]. run_bind. intros [= <- <-].
  apply watermark_ordered_app. split; [done|]. rewrite Hl. by eapply IH.
Qed.
End assigner.

(** *** The source *)
Section source.
Context {F : Type} `{!CheckpointFunction F}.

(** The barriers that complete an alignment, after the arrivals [p]. *)
Fixpoint fired (n : Z) (p : list Z) (bs : list Barrier) : list Barrier :=
  match bs with
  | [] => []
  | b :: bs' =>
      let rest := fired n (p ++ [b_checkpoint_id b]) bs' in
      if align_fires n p (b_checkpoint_id b) then b :: rest else rest
  end.

Definition nexts_of (acts : list action) : list Element :=
  omap (fun a => match a with Act_next e => Some e | _ => None end) acts.

Definition task_ends_of (acts : list action) : list TaskId :=
  omap (fun a => match a with Act_task_end t => Some t | _ => None end) acts.

Lemma source_barriers_run n p bs (s : SourceRunnable F) task :
  0 < n -> sr_context F s = Some task -> barrier_alignment F s = align_after n p ->
  Forall (fun b => 0 <= b_checkpoint_id b /\ count_id (b_checkpoint_id b) (p ++ (b_checkpoint_id <$> bs)) <= n) bs ->
  exists s' acts, source_run s (Element_Barrier <$> bs) = Ok (s', acts) /\
    barrier_alignment F s' = align_after n (p ++ (b_checkpoint_id <$> bs)) /\
    nexts_of acts = Element_Barrier <$> fired n p bs /\
    ck_checkpoint_id <$> checkpoints_of acts = b_checkpoint_id <$> fired n p bs /\
    Forall (fun ck => ck_operator_id ck = sr_operator_id F s /\ ck_task_id ck = task) (checkpoints_of acts).
Proof.
  intros Hn. revert p s; induction bs as [|b bs IH]; intros p s Hc Ha Hall.
  { do 2 eexists. split; [done|]. rewrite app_nil_r. split_and!; try done. }
  apply Forall_cons in Hall as [[Hid Hcnt] Hall].
  cbn [fmap list_fmap] in Hcnt, Hall |- *.
  assert (p ++ b_checkpoint_id b :: (b_checkpoint_id <$> bs) = (p ++ [b_checkpoint_id b]) ++ (b_checkpoint_id <$> bs))
    as Happ by by rewrite <- (assoc_L (++)).
  rewrite Happ in Hcnt, Hall |- *.
  cbn [source_run source_step]. rewrite Ha, align_apply_after; [|done|done|].
  2: { intros _. pose proof (count_id_app_le (b_checkpoint_id b) (p ++ [b_checkpoint_id b]) (b_checkpoint_id <$> bs)) as Hle.
       rewrite count_id_snoc, decide_True in Hle by done. lia. }
  run_bind. cbn [fired]. destruct (align_fires n p (b_checkpoint_id b)).
  - rewrite Hc. destruct (barrier_step_run task (sr_operator_id F s) (stream_source F s) b) as (f' & ck & -> & Ho & Ht & Hck).
    run_bind. match goal with |- context [source_run ?s1 _] => destruct (IH (p ++ [b_checkpoint_id b]) s1) as (s' & acts & -> & Ha' & Hn' & Hi' & Hf') end; try done.
    run_bind. do 2 eexists. split; [done|]. split; [done|]. unfold nexts_of, checkpoints_of in *. cbn.
    rewrite Hn', Hi', Hck. split_and!; try done. by constructor.
  - run_bind. match goal with |- context [source_run ?s1 _] => destruct (IH (p ++ [b_checkpoint_id b]) s1) as (s' & acts & -> & Ha' & Hn' & Hi' & Hf') end; try done.
    run_bind. do 2 eexists. split; [done|]. done.
Qed.

(** *** Barriers with the parent that sent them *)

(** The parents and the ids they have sent. *)
Definition sent (arrived : list arrival) : list (nat * Z) :=
  (fun a => (a.1, b_checkpoint_id a.2)) <$> arrived.

(** With the arrival [a] after the arrivals [before], each of the [n] parents has sent
    [a]'s id, and nothing with a greater id has come before. *)
Definition completes (n : nat) (before : list arrival) (a : arrival) : Prop :=
  Forall (fun parent => (parent, b_checkpoint_id a.2) ∈ sent (before ++ [a])) (seq 0 n) /\
  Forall (fun x => x.2 <= b_checkpoint_id a.2) (sent before).

#[global] Instance completes_decision n before a : Decision (completes n before a).
Proof. unfold completes. apply _. Defined.

(** The barriers that complete a checkpoint. *)
Fixpoint completed (n : nat) (before arrived : list arrival) : list Barrier :=
  match arrived with
  | [] => []
  | a :: arrived' =>
      let rest := completed n (before ++ [a]) arrived' in
      if decide (completes n before a) then a.2 :: rest else rest
  end.

(** Of [n] parents each pair comes once: an id has been counted [n] times exactly when
    every parent has sent it. *)
Lemma count_id_parents n (l : list (nat * Z)) id :
  NoDup l -> Forall (fun x => (x.1 < n)%nat) l ->
  count_id id l.*2 <= Z.of_nat n /\
  (count_id id l.*2 = Z.of_nat n <-> Forall (fun parent => (parent, id) ∈ l) (seq 0 n)).
Proof.
  intros Hnd Hlt.
  assert (count_id id l.*2 = Z.of_nat (length (filter (fun x => x.2 = id) l).*1)) as ->.
  { unfold count_id. rewrite length_fmap. f_equal. clear. induction l as [|x l IH]; [done|].
    cbn [fmap list_fmap]. rewrite !filter_cons. cbn. case_decide; cbn; by rewrite IH. }
  assert (NoDup (filter (fun x => x.2 = id) l).*1) as Hnd1.
  { apply NoDup_fmap_2_strong; [|by apply NoDup_filter].
    intros [i x] [j y] [Hx _]%list_elem_of_filter [Hy _]%list_elem_of_filter Hij. cbn in *. congruence. }
  assert (forall i, i ∈ (filter (fun x => x.2 = id) l).*1 <-> (i, id) ∈ l) as Hel.
  { intros i. rewrite list_elem_of_fmap. setoid_rewrite list_elem_of_filter. split.
    - intros ([j x] & -> & Hx & Hl). cbn in *. by subst.
    - intros Hl. by exists (i, id). }
  generalize dependent (filter (fun x => x.2 = id) l).*1. intros k Hk Hel.
  rewrite Forall_forall in Hlt.
  assert (k ⊆+ seq 0 n) as Hsub.
  { apply NoDup_submseteq; [done|]. intros i Hi%Hel. apply elem_of_seq. specialize (Hlt _ Hi). cbn in *. lia. }
  pose proof (submseteq_length _ _ Hsub) as Hlen. rewrite length_seq in Hlen.
  split; [lia|]. rewrite Forall_forall. split.
  - intros Hn i Hi. apply Hel. rewrite (submseteq_length_Permutation _ _ Hsub); [done|]. rewrite length_seq. lia.
  - intros Hall. enough (seq 0 n ⊆+ k) as Hs%submseteq_length by (rewrite length_seq in Hs; lia).
    apply NoDup_submseteq; [apply NoDup_seq|]. intros i Hi. by apply Hel, Hall.
Qed.

Lemma max_id_le p id : 0 <= id -> max_id p <= id <-> Forall (fun x => x <= id) p.
Proof.
  intros Hid. split.
  - intros Hm. apply Forall_forall. intros x Hx%max_id_ge. lia.
  - intros Hall. induction p as [|x p IH] using rev_ind; [done|].
    apply Forall_app in Hall as [H1 [H2 _]%Forall_cons]. rewrite max_id_snoc. specialize (IH H1). cbn in H2. lia.
Qed.

Lemma sent_ids arrived : (sent arrived).*2 = b_checkpoint_id <$> arrived.*2.
Proof. unfold sent. by rewrite <- !list_fmap_compose. Qed.

(** The alignment counts arrivals, and so tracks the parents. *)
Lemma fired_completed n before arrived :
  NoDup (sent (before ++ arrived)) ->
  Forall (fun a => (a.1 < n)%nat /\ 0 <= b_checkpoint_id a.2) (before ++ arrived) ->
  fired (Z.of_nat n) (b_checkpoint_id <$> before.*2) arrived.*2 = completed n before arrived.
Proof.
  revert before; induction arrived as [|a arrived IH]; intros before Hnd Hall; [done|].
  assert (before ++ a :: arrived = (before ++ [a]) ++ arrived) as Happ by by rewrite <- (assoc_L (++)).
  rewrite Happ in Hnd, Hall. specialize (IH _ Hnd Hall). rewrite !fmap_app in IH. cbn in IH.
  cbn [fmap list_fmap fired completed]. rewrite IH.
  apply Forall_app in Hall as [Hall _].
  assert (align_fires (Z.of_nat n) (b_checkpoint_id <$> before.*2) (b_checkpoint_id a.2) = bool_decide (completes n before a)) as ->.
  { unfold sent in Hnd. rewrite fmap_app in Hnd. apply NoDup_app in Hnd as [Hnd _].
    pose proof (count_id_parents n (sent (before ++ [a])) (b_checkpoint_id a.2)) as Hc.
    destruct Hc as [_ Hc]; [done|..].
    { apply Forall_fmap. eapply Forall_impl; [exact Hall|]. by intros x []. }
    rewrite sent_ids, !fmap_app in Hc. cbn in Hc. rewrite count_id_snoc, decide_True in Hc by done.
    apply Forall_app in Hall as [_ [[_ Hid] _]%Forall_cons].
    unfold align_fires, completes. apply eq_true_iff_eq.
    rewrite andb_true_iff, Z.leb_le, Z.eqb_eq, max_id_le, Hc, bool_decide_eq_true by done.
    rewrite <- sent_ids, Forall_fmap. tauto. }
  unfold bool_decide, decide. by destruct (completes_decision n before a).
Qed.

(** Statuses that end a parent stream. *)
Definition end_statuses (es : list Element) : Z :=
  Z.of_nat (length (List.filter (fun e => match e with Element_StreamStatus ss => ss_end ss | _ => false end) es)).

(** The reports of the end made by [k] end statuses. *)
Definition end_reports (waiting k : Z) : Z := Z.max 0 (k - (waiting - 1)).

Lemma task_ends_app a b : task_ends_of (a ++ b) = task_ends_of a ++ task_ends_of b.
Proof. apply omap_app. Qed.

Lemma source_step_ends (s : SourceRunnable F) e s' acts :
  source_step s e = Ok (s', acts) -> 1 <= waiting_end_flags F s -> 0 <= end_flags F s ->
  end_flags F s' = end_flags F s + end_statuses [e] /\ waiting_end_flags F s' = waiting_end_flags F s /\
  Z.of_nat (length (task_ends_of acts)) =
    end_reports (waiting_end_flags F s) (end_flags F s') - end_reports (waiting_end_flags F s) (end_flags F s).
Proof.
  unfold source_step, end_statuses, end_reports, task_ends_of. intros Hs Hw Hf.
  destruct e as [r|w|ss|b]; cbn [List.filter length].
  - simplify_eq. cbn. lia.
  - destruct (wm_apply _ w) as [[wm out]| |]; [|done..]. revert Hs; run_bind. intros [= <- <-].
    destruct out; cbn; lia.
  - destruct (watermark_job_check _ ss) as [wm| |]; [|done..]. revert Hs; run_bind.
    destruct (align_apply _ _) as [[sa al]| |]; [|done..]. run_bind. intros [= <- <-].
    cbn [end_flags waiting_end_flags]. destruct (ss_end ss); cbn [andb].
    + destruct (Z.leb_spec (waiting_end_flags F s) (end_flags F s + 1)); destruct al; cbn; lia.
    + destruct al; cbn; lia.
  - destruct (align_apply _ _) as [[ba al]| |]; [|done..]. revert Hs; run_bind. destruct al.
    + unfold barrier_step. destruct (sr_context F s); [|done]. cbn [unwrap]. run_bind.
      destruct (make_checkpoint _ _). run_bind. intros [= <- <-]. cbn. lia.
    + intros [= <- <-]. cbn. lia.
Qed.

Lemma source_run_ends es (s : SourceRunnable F) s' acts :
  source_run s es = Ok (s', acts) -> 1 <= waiting_end_flags F s -> 0 <= end_flags F s ->
  Z.of_nat (length (task_ends_of acts)) =
    end_reports (waiting_end_flags F s) (end_flags F s + end_statuses es) -
    end_reports (waiting_end_flags F s) (end_flags F s).
Proof.
  revert s acts; induction es as [|e es IH]; intros s acts; cbn [source_run].
  { intros [= <- <-] _ _. unfold end_statuses. cbn. rewrite Z.add_0_r. lia. }
  destruct (source_step s e) as [[s1 a1]| |] eqn:E1; [|done..]. run_bind.
  destruct (source_run s1 es) as [[s2 a2]| |] eqn:E2; [|done..]. run_bind. intros [= <- <-] Hw Hf.
  destruct (source_step_ends _ _ _ _ E1 Hw Hf) as (He & Hwe & Hl).
  assert (0 <= end_statuses [e]) by (unfold end_statuses; lia).
  specialize (IH _ _ E2 ltac:(lia) ltac:(lia)). rewrite task_ends_app, length_app, Nat2Z.inj_add, Hl, IH, Hwe, He.
  assert (end_statuses (e :: es) = end_statuses [e] + end_statuses es) as ->; [|rewrite Z.add_assoc; lia].
  unfold end_statuses. rewrite (List.filter_app _ [e] es : List.filter _ (e :: es) = _), length_app. lia.
Qed.
End source.

(** ** Properties *)

(** C5: a checkpoint of a whole chain. For a chain of operators that satisfy the
    barrier interface (every runnable of the repository does), what a barrier makes the
    chain do is, in this order: every operator reports exactly one checkpoint, in chain
    order, for that barrier's id and this task; and then the sink writes barriers with
    the same id and nothing else. The chain is ready for the next barrier. *)
Theorem chain_barrier_snapshot (task : TaskId) (ops : list OperatorId) (rs : list runnable) (w : World) (b : Barrier) :
  chain_ok task ops rs ->
  exists rs' cks bs, run_chain (length rs) w rs (Element_Barrier b) = Ok (w, rs', (Act_checkpoint <$> cks) ++ ((fun b' => Act_write (Element_Barrier b')) <$> bs)) /\
    chain_ok task ops rs' /\
    ck_operator_id <$> cks = ops /\
    Forall (fun ck => ck_task_id ck = task /\ ck_checkpoint_id ck = b_checkpoint_id b) cks /\
    Forall (fun b' => b_checkpoint_id b' = b_checkpoint_id b) bs.
Proof. apply chain_barrier. Qed.

(** C15: a source passes on one barrier per aligned checkpoint. A source task with
    [n > 0] parent tasks receives barriers, each from one of its parents, each parent
    sending an id at most once and the parents interleaved in any way. It snapshots and
    passes on a barrier exactly when with it every parent has sent its id and no greater
    id has come before, in the order of arrival; nothing else. A checkpoint overtaken by
    a greater id before its last parent has sent it is never passed on. *)
Theorem source_barriers_aligned {F : Type} `{!CheckpointFunction F} (op : OperatorId) (task : TaskId) (f : F)
    (parents : list TaskId) (arrived : list arrival) (s : SourceRunnable F) :
  source_open op task f parents = Ok s -> parents <> [] -> NoDup (sent arrived) ->
  Forall (fun a => (a.1 < length parents)%nat /\ 0 <= b_checkpoint_id a.2) arrived ->
  exists s' acts, source_run s (Element_Barrier <$> arrived.*2) = Ok (s', acts) /\
    nexts_of acts = Element_Barrier <$> completed (length parents) [] arrived /\
    ck_checkpoint_id <$> checkpoints_of acts = b_checkpoint_id <$> completed (length parents) [] arrived /\
    Forall (fun ck => ck_operator_id ck = op /\ ck_task_id ck = task) (checkpoints_of acts).
Proof.
  intros Ho Hne Hnd Hall. unfold source_open in Ho.
  destruct (foldM mark_parent ∅ parents) as [jobs| |]; [|done..]. revert Ho; run_bind. intros [= <-].
  assert (0 < Z.of_nat (length parents)) as Hn by (destruct parents; [done|simpl; lia]).
  rewrite <- (fired_completed _ [] arrived) by done.
  match goal with |- context [source_run ?s0 _] =>
    destruct (source_barriers_run (Z.of_nat (length parents)) [] arrived.*2 s0 task Hn eq_refl eq_refl)
      as (s' & acts & Hr & _ & H1 & H2 & H3) end.
  { apply Forall_fmap. eapply Forall_impl; [exact Hall|]. intros a [_ Ha]. split; [done|].
    rewrite <- sent_ids. apply count_id_parents; [done|]. apply Forall_fmap. eapply Forall_impl; [exact Hall|]. by intros x []. }
  exists s', acts. split_and!; done.
Qed.

(** the end of a task is reported when all its parents have ended. A source
    task opened with its parent tasks, over any input: it reports the end of the
    task once for every end status from the [n]-th on, where [n] is the number of
    parents (one for a task without parents); in particular it reports nothing
    before [n] end statuses have come, and something once they have. *)
Theorem source_reports_end {F : Type} `{!CheckpointFunction F} (op : OperatorId) (task : TaskId) (f : F)
    (parents : list TaskId) (es : list Element) (s s' : SourceRunnable F) (acts : list action) :
  source_open op task f parents = Ok s -> source_run s es = Ok (s', acts) ->
  Z.of_nat (length (task_ends_of acts)) =
    Z.max 0 (end_statuses es - (Z.max 1 (Z.of_nat (length parents)) - 1)).
Proof.
  intros Ho Hr. unfold source_open in Ho.
  destruct (foldM mark_parent ∅ parents) as [jobs| |]; [|done..]. revert Ho; run_bind. intros [= <-].
  assert ((if Z.of_nat (length parents) =? 0 then 1 else Z.of_nat (length parents)) = Z.max 1 (Z.of_nat (length parents)))
    as Hw by (destruct (Z.eqb_spec (Z.of_nat (length parents)) 0); lia).
  pose proof (source_run_ends _ _ _ _ Hr) as H. cbn [waiting_end_flags end_flags] in H. rewrite Hw in H.
  rewrite H by lia. unfold end_reports. lia.
Qed.

(** watermarks and late records. A watermark assigner over a generator built
    on bounded out-of-orderness (with any wrappers), fed records, barriers and
    running statuses, passes on watermarks that never decrease, and after a
    watermark only records whose timestamp is at least that watermark. *)
Theorem watermark_assigner_ordered {U TA S : Type} (ue : U -> record -> Z -> U * record * option Z)
    (up : U -> U * option Z) `{!TimestampAssigner TA} `{!CheckpointFunction S}
    (s : WatermarkAssignerRunnable TA S) (ins : list (World * Element))
    (s' : WatermarkAssignerRunnable TA S) (acts : list action) :
  (forall a r p a' r' ts, extract_timestamp a r p = Ok (a', r', ts) -> in_u 64 ts) ->
  assigner_inv s -> Forall (fun i => running_input i.2) ins ->
  assigner_run ue up s ins = Ok (s', acts) ->
  watermark_ordered (wa_watermark TA S s) acts.
Proof. intros Hx Hinv Hins Hr. by eapply (assigner_run_ordered ue up Hx). Qed.

(** the idle marker is never sent. Whatever its generator answers, a
    watermark assigner whose current watermark is at most [MAX_WATERMARK] sends
    only watermarks up to [MAX_WATERMARK] of its own: the answer of an idle
    generator is replaced by the current watermark. *)
Theorem watermark_assigner_never_idle {U TA S : Type} (ue : U -> record -> Z -> U * record * option Z)
    (up : U -> U * option Z) `{!TimestampAssigner TA} `{!CheckpointFunction S}
    (w w' : World) (s s' : WatermarkAssignerRunnable TA S) (e : Element) (acts : list action) :
  wa_watermark TA S s <= MAX_WATERMARK -> is_watermark e = false ->
  watermark_assigner_run ue up w s e = Ok (w', s', acts) ->
  wa_watermark TA S s' <= MAX_WATERMARK /\
  Forall (fun e => match e with Element_Watermark wm => w_timestamp wm <= MAX_WATERMARK | _ => True end) (nexts_of acts).
Proof.
  intros Hs He. unfold watermark_assigner_run. pose proof (fun wm => update_watermark_progress_le _ wm Hs) as Hup.
  destruct e as [r|wm|ss|b]; [|done| |].
  - destruct (extract_timestamp _ r 0) as [[[a r1] ts]| |]; [|done..]. run_bind.
    destruct (on_event ue up _ _ _ ts) as [[g r2] wmo].
    case_match; [|destruct wmo]; intros [= <- <- <-]; cbn; (split; [auto|]); repeat constructor; apply Hup.
  - destruct (ss_end ss).
    + intros [= <- <- <-]. split; [done|]. cbn. repeat constructor. done.
    + destruct (on_periodic_emit up _ _) as [g wmo]. intros [= <- <- <-].
      split; [apply Hup|]. cbn. repeat constructor. apply Hup.
  - unfold barrier_step. destruct (wa_context TA S s); [|done]. cbn [unwrap]. run_bind.
    destruct (make_checkpoint _ _). run_bind. intros [= <- <- <-]. cbn. split; [done|]. by repeat constructor.
Qed.

(** partitioning by key. For [0 < partition_size <= 65535], a key-by operator
    passes each record on with a partition below [partition_size] that depends
    only on the bytes of its key; everything else of the record is what the key
    selector left. *)
Theorem key_by_partition (hash_code : list Z -> option Z) {F : Type} `{!KeySelectorFunction F}
    (w : World) (s : KeyByRunnable F) (r r' key : record) :
  0 < kb_partition_size F s < 2 ^ 16 -> get_key (stream_key_by F s) r = (r', key) ->
  exists p, key_by_run hash_code w s (Element_Record r) =
      Ok (w, s, [Act_next (Element_Record (record_set_partition p r'))]) /\
    0 <= p < kb_partition_size F s /\
    p = default 0 (hash_code (as_slice (r_values key))) mod kb_partition_size F s.
Proof.
  intros Hp Hk. cbn [key_by_run]. rewrite Hk.
  destruct (Z.eqb_spec (kb_partition_size F s) 0); [lia|].
  pose proof (Z.mod_pos_bound (default 0 (hash_code (as_slice (r_values key)))) (kb_partition_size F s)).
  eexists. split; [done|]. rewrite wrap_u_small by (unfold in_u; lia). lia.
Qed.

(** distribution of control elements. A system sink with [n > 0] downstream
    tasks writes every watermark, status and barrier to each of the partitions
    [0 .. n-1] exactly once, in order, and writes records as they are. *)
Theorem sink_distributes {F : Type} `{!OutputFormat F} (w w' : World) (s s' : SinkRunnable F) (e : Element)
    (acts : list action) :
  sk_fn_creator F s = System -> 0 < child_parallelism F s ->
  sink_run w s e = Ok (w', s', acts) ->
  if is_record e then writes_of acts = [e]
  else partition <$> writes_of acts = Z.of_nat <$> seq 0 (Z.to_nat (child_parallelism F s)) /\
       Forall (fun c => c = set_partition (partition c) e) (writes_of acts).
Proof.
  intros Hc Hn. unfold sink_run. rewrite Hc.
  assert (forall f acts0, writes_of acts0 = [] ->
    (let* f := foldM write_element f (sink_copies (child_parallelism F s) e) in
     Ok (w, mkSinkRunnable F (sk_operator_id F s) (sk_context F s) (child_parallelism F s) System f,
         acts0 ++ (Act_write <$> sink_copies (child_parallelism F s) e))) = Ok (w', s', acts) ->
    writes_of acts = sink_copies (child_parallelism F s) e) as Hsys.
  { intros f acts0 H0. destruct (foldM _ f _) as [f'| |]; [|done..]. run_bind. intros [= <- <- <-].
    unfold writes_of in *. rewrite omap_app, H0. cbn [app].
    generalize (sink_copies (child_parallelism F s) e). intros l. induction l as [|x l IH]; cbn; [done|]. by rewrite IH. }
  assert (forall k, writes_of k = sink_copies (child_parallelism F s) e ->
    partition <$> writes_of k = Z.of_nat <$> seq 0 (Z.to_nat (child_parallelism F s)) /\
    Forall (fun c => c = set_partition (partition c) e) (writes_of k)) as Hcopies.
  { intros k ->. unfold sink_copies. destruct (Z.ltb_spec 0 (child_parallelism F s)); [|lia].
    assert (forall p, partition (set_partition p e) = p) as Hp by (intros p; by destruct e).
    split.
    - rewrite <- list_fmap_compose. apply list_fmap_ext. intros _ i _. apply Hp.
    - apply Forall_fmap, Forall_true. intros i. cbn. by rewrite Hp. }
  destruct e as [r|wm|ss|b]; cbn [is_record].
  - destruct (write_element _ _); [|done..]. run_bind. by intros [= <- <- <-].
  - run_bind. intros H. by apply Hcopies, (Hsys _ [] eq_refl H).
  - run_bind. intros H. by apply Hcopies, (Hsys _ [] eq_refl H).
  - destruct (sk_context F s); [|done]. cbn [unwrap]. run_bind. destruct (make_checkpoint _ _) as [f ck]. run_bind.
    intros H. apply Hcopies. refine (Hsys _ _ _ H). done.
Qed.
End task.

(** ** Evaluated examples *)
Section task_examples.
#[local] Existing Instances list_buffer id_order bits_json.

#[local] Instance example_selector : KeySelectorFunction unit :=
  {| get_key := fun _ r => (r, r); key_selector_checkpoint := default_checkpoint_function unit |}.
#[local] Instance example_output : OutputFormat (list Element) :=
  {| write_element := fun out e => Ok (out ++ [e]);
     output_checkpoint := default_checkpoint_function (list Element) |}.
#[local] Instance example_assigner : TimestampAssigner unit :=
  fun a r _ => Ok (a, r, wrap_u 64 (List.hd 0 (as_slice (r_values r)))).
#[local] Instance example_unit_checkpoint : CheckpointFunction unit := default_checkpoint_function unit.

Definition example_task : TaskId := mkTaskId 3 0 1.
Definition example_hash (bs : list Z) : option Z := Some (wrap_u 32 (foldl Z.add 0 bs)).

Definition example_chain : list runnable :=
  [mkRunnable _ (mkKeyByRunnable unit 1 (Some example_task) tt 4) (key_by_run example_hash);
   mkRunnable _ (mkReduceRunnable unit 2 (Some example_task) (Some tt) example_reduce Window_default None)
     (reduce_run sum_reduce);
   mkRunnable _ (mkSinkRunnable (list Element) 5 (Some example_task) 2 System []) sink_run].

Definition example_world : World := mkWorld ∅ 1000.

Lemma example_chain_ok : chain_ok example_task [1; 2; 5] example_chain.
Proof.
  apply (chain_ok_cons example_task _ _ _ _ 1 _ _ (key_by_forwards example_hash 1 example_task)); [done|].
  apply (chain_ok_cons example_task _ _ _ _ 2 _ _ (reduce_forwards sum_reduce 2 example_task)).
  { split_and!; [done|done|by eexists|]. split; [repeat constructor|simpl; lia]. }
  apply (chain_ok_sink example_task _ _ _ _ 5 (sink_sinks 5 example_task)).
  split_and!; [done|done|]. intros f e. by eexists.
Qed.

Lemma chain_barrier_snapshot_witness :
  exists rs' cks bs, run_chain 3 example_world example_chain (Element_Barrier (Barrier_new 7)) = Ok (example_world, rs', (Act_checkpoint <$> cks) ++ ((fun b' => Act_write (Element_Barrier b')) <$> bs)) /\
    chain_ok example_task [1; 2; 5] rs' /\
    ck_operator_id <$> cks = [1; 2; 5] /\
    Forall (fun ck => ck_task_id ck = example_task /\ ck_checkpoint_id ck = 7) cks /\
    Forall (fun b' => b_checkpoint_id b' = 7) bs.
Proof.
  apply (chain_barrier_snapshot example_task [1; 2; 5] example_chain example_world (Barrier_new 7)).
  exact example_chain_ok.
Defined.

Definition example_source : SourceRunnable unit :=
  mkSourceRunnable unit 9 (Some example_task) example_task tt 2 0 (AlignManager_new 2) (AlignManager_new 2)
    (WatermarkManager_new {[ 1 := [true; true] ]}).
Definition example_parents : list TaskId := [mkTaskId 1 0 2; mkTaskId 1 1 2].

(** Both parents send 5, the second one 6 and 7; the first sends 7 and then, too late, 6. *)
Definition example_arrivals : list arrival :=
  [(0%nat, Barrier_new 5); (1%nat, Barrier_new 5); (1%nat, Barrier_new 6); (1%nat, Barrier_new 7);
   (0%nat, Barrier_new 7); (0%nat, Barrier_new 6)].

Lemma source_barriers_aligned_witness :
  source_open 9 example_task tt example_parents = Ok example_source /\
  completed 2 [] example_arrivals = [Barrier_new 5; Barrier_new 7] /\
  exists s' acts,
    source_run example_source (Element_Barrier <$> example_arrivals.*2) = Ok (s', acts) /\
    nexts_of acts = Element_Barrier <$> completed 2 [] example_arrivals /\
    ck_checkpoint_id <$> checkpoints_of acts = b_checkpoint_id <$> completed 2 [] example_arrivals /\
    Forall (fun ck => ck_operator_id ck = 9 /\ ck_task_id ck = example_task) (checkpoints_of acts).
Proof.
  split; [vm_compute; reflexivity|]. split; [vm_compute; reflexivity|].
  apply (source_barriers_aligned 9 example_task tt example_parents example_arrivals).
  - vm_compute. reflexivity.
  - discriminate.
  - eapply bool_decide_eq_true_1. vm_compute. reflexivity.
  - repeat constructor; vm_compute; congruence.
Defined.

Lemma source_reports_end_witness : exists s' acts,
  source_run example_source
    [new_stream_status 10 false; new_stream_status 20 true; new_stream_status 20 true] = Ok (s', acts) /\
  Z.of_nat (length (task_ends_of acts)) = 1.
Proof.
  do 2 eexists. split; [vm_compute; reflexivity|].
  eapply (source_reports_end 9 example_task tt example_parents
    [new_stream_status 10 false; new_stream_status 20 true; new_stream_status 20 true]).
  - vm_compute. reflexivity.
  - vm_compute. reflexivity.
Defined.

Definition example_wm_assigner : WatermarkAssignerRunnable (U:=Empty_set) unit unit :=
  mkWatermarkAssigner unit unit 4 (Some example_task) example_generator tt tt 0.

(** Events at 60 and 90, a status, then an event at 84, the watermark itself,
    and a late one at 50. *)
Definition example_timed : list (World * Element) :=
  [(mkWorld ∅ 1000, Element_Record (rec_of [60] [])); (mkWorld ∅ 1001, Element_Record (rec_of [90] []));
   (mkWorld ∅ 1002, new_stream_status 1000 false); (mkWorld ∅ 1003, Element_Record (rec_of [84] []));
   (mkWorld ∅ 1004, Element_Record (rec_of [50] []))].

Lemma watermark_assigner_ordered_witness : exists s' acts,
  assigner_run no_user_event no_user_emit example_wm_assigner example_timed = Ok (s', acts) /\
  watermark_ordered 0 acts.
Proof.
  do 2 eexists. split; [vm_compute; reflexivity|].
  eapply (watermark_assigner_ordered no_user_event no_user_emit example_wm_assigner example_timed).
  - intros a r p a' r' ts [= <- <- <-]. apply wrap_u_range. discriminate.
  - exists (Boo_new 5). split; [reflexivity|]. split; [|vm_compute; discriminate].
    unfold boo_wf, in_u; vm_compute; intuition discriminate.
  - unfold example_timed. repeat constructor.
  - vm_compute. reflexivity.
Defined.

(** A record whose timestamp equals the watermark is still passed on after it. *)
Example watermark_equal_record_passes :
  (let* (_, acts) := assigner_run no_user_event no_user_emit example_wm_assigner example_timed in
   Ok ((fun e => match e with
                 | Element_Record r => (true, r_timestamp r)
                 | Element_Watermark w => (false, w_timestamp w)
                 | _ => (false, -1)
                 end) <$> nexts_of acts))
  = Ok [(true, 60); (true, 90); (false, 84); (false, 84); (false, -1); (true, 84)].
Proof. vm_compute. reflexivity. Qed.

Lemma watermark_assigner_never_idle_witness : exists w' s' acts,
  watermark_assigner_run no_user_event no_user_emit (mkWorld ∅ 5)
    (mkWatermarkAssigner unit unit 4 (Some example_task)
       (Gen_WithIdleness (Gen_Boo (mkBoo 100 5)) (mkIdle 1 1 1 2)) tt tt 42)
    (new_stream_status 10 false) = Ok (w', s', acts) /\
  nexts_of acts = [new_watermark 42; new_stream_status 10 false] /\
  wa_watermark unit unit s' <= MAX_WATERMARK.
Proof.
  do 3 eexists. split; [vm_compute; reflexivity|]. split; [vm_compute; reflexivity|].
  eapply (watermark_assigner_never_idle no_user_event no_user_emit (mkWorld ∅ 5) _
    (mkWatermarkAssigner unit unit 4 (Some example_task)
       (Gen_WithIdleness (Gen_Boo (mkBoo 100 5)) (mkIdle 1 1 1 2)) tt tt 42) _ (new_stream_status 10 false)).
  - vm_compute. discriminate.
  - reflexivity.
  - vm_compute. reflexivity.
Defined.

Lemma key_by_partition_witness :
  exists p, key_by_run example_hash example_world (mkKeyByRunnable unit 1 (Some example_task) tt 4)
      (Element_Record (rec_of [7; 8] [])) =
      Ok (example_world, mkKeyByRunnable unit 1 (Some example_task) tt 4,
          [Act_next (Element_Record (record_set_partition p (rec_of [7; 8] [])))]) /\
    0 <= p < 4 /\ p = default 0 (example_hash [7; 8]) mod 4.
Proof.
  apply (key_by_partition example_hash example_world (mkKeyByRunnable unit 1 (Some example_task) tt 4)
    (rec_of [7; 8] []) (rec_of [7; 8] []) (rec_of [7; 8] [])).
  - simpl; lia.
  - reflexivity.
Defined.

Lemma sink_distributes_witness : exists w' s' acts,
  sink_run example_world (mkSinkRunnable (list Element) 5 (Some example_task) 3 System []) (new_watermark 8)
    = Ok (w', s', acts) /\
  partition <$> writes_of acts = [0; 1; 2] /\
  Forall (fun c => c = set_partition (partition c) (new_watermark 8)) (writes_of acts).
Proof.
  do 3 eexists. split; [vm_compute; reflexivity|].
  eapply (sink_distributes example_world _ (mkSinkRunnable (list Element) 5 (Some example_task) 3 System []) _ (new_watermark 8)).
  - reflexivity.
  - simpl; lia.
  - vm_compute. reflexivity.
Defined.
End task_examples.
