(* ===== verification/Checkpoint.v ===== *)
(** * Checkpoint: alignment and storage of checkpoints at the coordinator
    (src/rlink/src/runtime/coordinator/checkpoint_manager.rs,
     src/rlink/src/storage/checkpoint/)

    The tasks report one checkpoint per operator and task. The align manager
    collects the reports of the current checkpoint id and saves the checkpoint
    when every operator has one from each of its tasks. The storage is the
    interface [CheckpointStorage]; the in-memory storage is an instance, the
    MySQL one is not read here and stays a parameter. An operation that can fail
    after changing its state returns the new state next to the result. *)
From Stdlib Require Import ZArith Lia Sorted.
From stdpp Require Import base strings numbers option sets gmap list.
From S2P Require Import Prelude Runtime.

(** ** Storage interface *)
Class CheckpointStorage (S : Type) := {
  ck_save : S -> string -> string -> CheckpointId -> list Checkpoint -> Z -> S * res string unit;
  ck_load : S -> string -> string -> S * res string (list Checkpoint);
  ck_load_by_checkpoint_id : S -> string -> string -> CheckpointId -> S * res string (list Checkpoint)
}.

(** ** MemoryCheckpointStorage *)
Abbreviation MemoryCheckpointStorage := (gmap CheckpointId (list Checkpoint)).

Section memory_storage.
Context {HO : HashOrder}.

Definition remove_all (ids : list CheckpointId) (m : MemoryCheckpointStorage) : MemoryCheckpointStorage :=
  foldl (fun m id => delete id m) m ids.

(** The cap of [save]: the oldest entries beyond 100 go. *)
Definition cap_history (m : MemoryCheckpointStorage) : MemoryCheckpointStorage :=
  if (100 <? size m)%nat then
    let ids := sort_by_key (fun id => id) (hiter m).*1 in
    remove_all (take (size m - 100) ids) m
  else m.

Definition memory_save (m : MemoryCheckpointStorage) (checkpoint_id : CheckpointId)
    (finish_cks : list Checkpoint) (ttl : Z) : MemoryCheckpointStorage :=
  let m := <[checkpoint_id := finish_cks]> m in
  if checkpoint_id <? ttl then m
  else
    let checkpoint_id_ttl := checkpoint_id - ttl in
    let ttl_ck_ids := List.filter (fun id => id <? checkpoint_id_ttl) (hiter m).*1 in
    cap_history (remove_all ttl_ck_ids m).

#[global] Instance memory_checkpoint_storage : CheckpointStorage MemoryCheckpointStorage := {|
  ck_save := fun m _ _ id cks ttl => (memory_save m id cks ttl, Ok tt);
  ck_load := fun m _ _ => (m, Ok []);
  ck_load_by_checkpoint_id := fun m _ _ _ => (m, Ok [])
|}.
End memory_storage.

(** ** OperatorCheckpoint *)
Record OperatorCheckpoint := mkOperatorCheckpoint {
  oc_job_id : JobId;
  oc_operator_id : OperatorId;
  oc_operator_name : string;
  oc_parallelism : Z;
  oc_current_cks : gmap Z Checkpoint
}.

Definition OperatorCheckpoint_new (job_id : JobId) (operator_id : OperatorId) (name : string) (parallelism : Z)
    : OperatorCheckpoint := mkOperatorCheckpoint job_id operator_id name parallelism ∅.

Definition oc_is_align (oc : OperatorCheckpoint) : bool :=
  Z.of_nat (size (oc_current_cks oc)) =? oc_parallelism oc.

Definition oc_apply (oc : OperatorCheckpoint) (ck : Checkpoint) : OperatorCheckpoint :=
  if oc_is_align oc then oc
  else
    match oc_current_cks oc !! task_number (ck_task_id ck) with
    | Some _ => oc
    | None =>
        mkOperatorCheckpoint (oc_job_id oc) (oc_operator_id oc) (oc_operator_name oc) (oc_parallelism oc)
          (<[task_number (ck_task_id ck) := ck]> (oc_current_cks oc))
    end.

(** ** CheckpointAlignManager *)
Record CheckpointAlignManager (S : Type) := mkCheckpointAlign {
  application_name : string;
  application_id : string;
  checkpoint_ttl : Z;
  current_ck_id : CheckpointId;
  operator_cks : gmap OperatorId OperatorCheckpoint;
  finish_operator_cks : gmap OperatorId OperatorCheckpoint;
  ck_storage : option S
}.
Arguments application_name {S} _.
Arguments application_id {S} _.
Arguments checkpoint_ttl {S} _.
Arguments current_ck_id {S} _.
Arguments operator_cks {S} _.
Arguments finish_operator_cks {S} _.
Arguments ck_storage {S} _.
Arguments mkCheckpointAlign {S} _ _ _ _ _ _ _.

(** A job node: its id, its parallelism, and its stream nodes (id and name). *)
Definition job_operators : Type := JobId * Z * list (OperatorId * string).

Section align_manager.
Context {HO : HashOrder} {S : Type} {CS : CheckpointStorage S}.

(** [CheckpointAlignManager::new], from the job nodes of the DAG. *)
Definition cam_new (name id : string) (ttl : Z) (jobs : list job_operators) (storage : option S)
    : CheckpointAlignManager S :=
  let cks := foldl (fun m '(job_id, parallelism, nodes) =>
    foldl (fun m '(operator_id, operator_name) =>
      <[operator_id := OperatorCheckpoint_new job_id operator_id operator_name parallelism]> m) m nodes)
    (∅ : gmap OperatorId OperatorCheckpoint) jobs in
  mkCheckpointAlign name id ttl 0 cks ∅ storage.

Definition unreached_operators (m : CheckpointAlignManager S) : list OperatorCheckpoint :=
  (List.filter (fun '(_, oc) => negb (oc_is_align oc)) (hiter (operator_cks m))).*2.

Definition cam_is_align (m : CheckpointAlignManager S) : bool :=
  (length (unreached_operators m) =? 0)%nat.

Definition reset_operator (oc : OperatorCheckpoint) : OperatorCheckpoint :=
  OperatorCheckpoint_new (oc_job_id oc) (oc_operator_id oc) (oc_operator_name oc) (oc_parallelism oc).

Definition next_checkpoint (m : CheckpointAlignManager S) (checkpoint_id : CheckpointId) : CheckpointAlignManager S :=
  mkCheckpointAlign (application_name m) (application_id m) (checkpoint_ttl m) checkpoint_id
    (reset_operator <$> operator_cks m) (finish_operator_cks m) (ck_storage m).

(** The checkpoints handed to the storage. *)
Definition collect_cks (cks : gmap OperatorId OperatorCheckpoint) : list Checkpoint :=
  '(_, oc) ← hiter cks; (hiter (oc_current_cks oc)).*2.

Definition cam_apply (m : CheckpointAlignManager S) (ck : Checkpoint) : CheckpointAlignManager S * res string unit :=
  let checkpoint_id := ck_checkpoint_id ck in
  if checkpoint_id <? current_ck_id m then (m, Ok tt)
  else
    let m := if current_ck_id m <? checkpoint_id then next_checkpoint m checkpoint_id else m in
    match operator_cks m !! ck_operator_id ck with
    | None => (m, Err "operator not found"%string)
    | Some oc =>
        let m := mkCheckpointAlign (application_name m) (application_id m) (checkpoint_ttl m) (current_ck_id m)
                   (<[ck_operator_id ck := oc_apply oc ck]> (operator_cks m)) (finish_operator_cks m) (ck_storage m) in
        if cam_is_align m then
          let finish := operator_cks m in
          match ck_storage m with
          | Some storage =>
              let '(storage, r) := ck_save storage (application_name m) (application_id m) (current_ck_id m)
                                     (collect_cks finish) (checkpoint_ttl m) in
              (mkCheckpointAlign (application_name m) (application_id m) (checkpoint_ttl m) (current_ck_id m)
                 (operator_cks m) finish (Some storage), r)
          | None =>
              (mkCheckpointAlign (application_name m) (application_id m) (checkpoint_ttl m) (current_ck_id m)
                 (operator_cks m) finish None, Ok tt)
          end
        else (m, Ok tt)
    end.

(** The completed id used by [load]: the least positive one reported. *)
Definition completed_id (cks : list Checkpoint) : CheckpointId :=
  let ids := List.filter (fun id => 0 <? id) (omap ck_completed_checkpoint_id cks) in
  match ids with
  | [] => 0
  | id :: ids => foldl Z.min id ids
  end.

Definition group_by_operator (cks : list Checkpoint) : gmap OperatorId (list Checkpoint) :=
  group_by ck_operator_id cks.

Definition cam_set_storage (m : CheckpointAlignManager S) (st : S) : CheckpointAlignManager S :=
  mkCheckpointAlign (application_name m) (application_id m) (checkpoint_ttl m) (current_ck_id m)
    (operator_cks m) (finish_operator_cks m) (Some st).

Definition cam_load (m : CheckpointAlignManager S)
    : CheckpointAlignManager S * res string (gmap OperatorId (list Checkpoint)) :=
  match ck_storage m with
  | None => (m, Ok ∅)
  | Some st =>
      let '(st, r) := ck_load st (application_name m) (application_id m) in
      match r with
      | Ok checkpoints =>
          let completed := completed_id checkpoints in
          if ck_is_default completed then (cam_set_storage m st, Ok (group_by_operator checkpoints))
          else
            let '(st, r) := ck_load_by_checkpoint_id st (application_name m) (application_id m) completed in
            (cam_set_storage m st, group_by_operator <$> r)
      | Err e => (cam_set_storage m st, Err e)
      | Panic p => (cam_set_storage m st, Panic p)
      end
  end.

(** [impl Clone for CheckpointAlignManager]. *)
Definition cam_clone (m : CheckpointAlignManager S) : CheckpointAlignManager S :=
  mkCheckpointAlign (application_name m) (application_id m) (checkpoint_ttl m) 0
    (operator_cks m) (finish_operator_cks m) None.

(** ** CheckpointManager: the queue in front of the align manager *)
Record CheckpointManager := mkCheckpointManager {
  cm_align : CheckpointAlignManager S;
  cm_queue : list Checkpoint
}.

(** [apply]: [try_send] on the bounded channel. *)
Definition cm_apply (c : CheckpointManager) (ck : Checkpoint) : CheckpointManager * res string unit :=
  if Z.of_nat (length (cm_queue c)) <? 100
  then (mkCheckpointManager (cm_align c) (cm_queue c ++ [ck]), Ok tt)
  else (c, Err "sending on a full channel"%string).

(** One round of [run_align_task]: the error of [apply] is only logged. *)
Definition cm_align_step (c : CheckpointManager) : CheckpointManager :=
  match cm_queue c with
  | [] => c
  | ck :: q => mkCheckpointManager (cam_apply (cm_align c) ck).1 q
  end.

Definition cm_get (c : CheckpointManager) : CheckpointAlignManager S := cam_clone (cm_align c).

(** ** Specification *)

(** The state after a sequence of reports. *)
Definition cam_run (m : CheckpointAlignManager S) (cks : list Checkpoint) : CheckpointAlignManager S :=
  foldl (fun m ck => (cam_apply m ck).1) m cks.

(** The greatest checkpoint id reported. *)
Definition latest_id (cks : list Checkpoint) : CheckpointId := foldl Z.max 0 (ck_checkpoint_id <$> cks).

(** The first report of checkpoint [id] by task [t] of operator [op]. *)
Definition first_report (cks : list Checkpoint) (id : CheckpointId) (op : OperatorId) (t : Z) : option Checkpoint :=
  List.find (fun ck => (ck_checkpoint_id ck =? id) && (ck_operator_id ck =? op)
                       && (task_number (ck_task_id ck) =? t)) cks.

(** [ops] gives the parallelism of each operator; a report is of one of its tasks. *)
Definition report_wf (ops : gmap OperatorId Z) (ck : Checkpoint) : Prop :=
  exists p, ops !! ck_operator_id ck = Some p /\ 0 <= task_number (ck_task_id ck) < p /\ 0 <= ck_checkpoint_id ck.

(** Every task of every operator has reported checkpoint [id]. *)
Definition reported_by_all (ops : gmap OperatorId Z) (cks : list Checkpoint) (id : CheckpointId) : Prop :=
  forall op p t, ops !! op = Some p -> 0 <= t < p -> is_Some (first_report cks id op t).

(** The state the align manager has after the reports [cks]. *)
Definition cam_inv (ops : gmap OperatorId Z) (m : CheckpointAlignManager S) (cks : list Checkpoint) : Prop :=
  current_ck_id m = latest_id cks /\
  (oc_parallelism <$> operator_cks m) = ops /\
  (forall op oc t, operator_cks m !! op = Some oc ->
     oc_current_cks oc !! t = first_report cks (latest_id cks) op t).
End align_manager.

(** ** Lemmas on maps keyed by task numbers *)
Definition tasks_below (p : Z) : gset Z := list_to_set (Z.of_nat <$> seq 0 (Z.to_nat p)).

Lemma elem_of_tasks_below p t : t ∈ tasks_below p <-> 0 <= t < p.
Proof.
  unfold tasks_below. rewrite elem_of_list_to_set, list_elem_of_fmap. split.
  - intros (n & -> & Hn%elem_of_seq). lia.
  - intros Ht. exists (Z.to_nat t). split; [lia|]. apply elem_of_seq. lia.
Qed.

Lemma size_tasks_below p : 0 <= p -> Z.of_nat (size (tasks_below p)) = p.
Proof.
  intros Hp. unfold tasks_below. rewrite size_list_to_set.
  - rewrite length_fmap, length_seq. lia.
  - apply NoDup_fmap_2; [|apply NoDup_seq]. intros x y ?. lia.
Qed.

(** A map with keys among [0 .. p-1] has size [p] iff it has them all. *)
Lemma size_eq_full {A : Type} (m : gmap Z A) p :
  0 <= p -> (forall t, is_Some (m !! t) -> 0 <= t < p) ->
  Z.of_nat (size m) = p <-> forall t, 0 <= t < p -> is_Some (m !! t).
Proof.
  intros Hp Hdom.
  assert (dom m ⊆ tasks_below p) as Hsub.
  { intros t Ht. apply elem_of_tasks_below, Hdom. by apply elem_of_dom. }
  rewrite <- (size_dom (D:=gset Z) m). split.
  - intros Hsz t Ht. apply elem_of_dom.
    rewrite (set_subseteq_size_equiv (dom m) (tasks_below p)); [by apply elem_of_tasks_below|done|].
    pose proof (size_tasks_below p Hp). lia.
  - intros Hall. rewrite <- (size_tasks_below p Hp). f_equal. apply set_size_proper.
    intros t. rewrite elem_of_dom, elem_of_tasks_below. split; [apply Hdom|apply Hall].
Qed.

(** ** Lemmas on reports *)
Lemma latest_id_snoc cks ck : latest_id (cks ++ [ck]) = Z.max (latest_id cks) (ck_checkpoint_id ck).
Proof. unfold latest_id. by rewrite fmap_app, foldl_app. Qed.

Lemma latest_id_nonneg cks : 0 <= latest_id cks.
Proof. induction cks as [|ck cks IH] using rev_ind; [done|]. rewrite latest_id_snoc. lia. Qed.

Lemma latest_id_ge cks ck : ck ∈ cks -> ck_checkpoint_id ck <= latest_id cks.
Proof.
  induction cks as [|c cks IH] using rev_ind; [by rewrite elem_of_nil|].
  rewrite latest_id_snoc, elem_of_app, list_elem_of_singleton. intros [H| ->]; [specialize (IH H)|]; lia.
Qed.

Lemma first_report_snoc cks ck id op t :
  first_report (cks ++ [ck]) id op t =
    match first_report cks id op t with
    | Some c => Some c
    | None => if (ck_checkpoint_id ck =? id) && (ck_operator_id ck =? op) && (task_number (ck_task_id ck) =? t)
              then Some ck else None
    end.
Proof.
  unfold first_report. induction cks as [|c cks IH]; simpl; [done|].
  destruct ((ck_checkpoint_id c =? id) && _ && _); [done|exact IH].
Qed.

Lemma first_report_some cks id op t c : first_report cks id op t = Some c ->
  c ∈ cks /\ ck_checkpoint_id c = id /\ ck_operator_id c = op /\ task_number (ck_task_id c) = t.
Proof.
  unfold first_report. intros [Hin Hm]%List.find_some. bool_to_prop.
  split; [by apply list_elem_of_In|]. done.
Qed.

Lemma first_report_future cks id op t : latest_id cks < id -> first_report cks id op t = None.
Proof.
  intros Hlt. destruct (first_report cks id op t) as [c|] eqn:E; [|done].
  apply first_report_some in E as (Hin & <- & _). apply latest_id_ge in Hin. lia.
Qed.

Section align_lemmas.
Context {HO : HashOrder} {S : Type} {CS : CheckpointStorage S}.
Context (ops : gmap OperatorId Z) (Hops : map_Forall (fun _ p => 0 <= p) ops).
Implicit Types m : CheckpointAlignManager S.

Lemma cam_is_align_spec m :
  cam_is_align m = true <-> forall op oc, operator_cks m !! op = Some oc -> oc_is_align oc = true.
Proof.
  unfold cam_is_align, unreached_operators. rewrite length_fmap, Nat.eqb_eq. split.
  - intros Hl op oc Hop. destruct (oc_is_align oc) eqn:E; [done|].
    destruct (List.filter _ (hiter (operator_cks m))) eqn:Ef; [|done].
    assert ((op, oc) ∈ ([] : list (OperatorId * OperatorCheckpoint))) as []%elem_of_nil.
    rewrite <- Ef. apply list_elem_of_In, List.filter_In.
    split; [by apply list_elem_of_In, elem_of_hiter|by rewrite E].
  - intros Hall. destruct (List.filter _ (hiter (operator_cks m))) as [|[op oc] l] eqn:Ef; [done|].
    assert ((op, oc) ∈ (op, oc) :: l) as Hin by by left. rewrite <- Ef in Hin.
    apply list_elem_of_In, List.filter_In in Hin as [Hin Hb].
    apply list_elem_of_In, elem_of_hiter in Hin. by rewrite (Hall op oc Hin) in Hb.
Qed.

(** The table of one operator, when it holds the first reports of [id]. *)
Lemma oc_is_align_spec cks id op oc p :
  Forall (report_wf ops) cks -> ops !! op = Some p -> oc_parallelism oc = p ->
  (forall t, oc_current_cks oc !! t = first_report cks id op t) ->
  oc_is_align oc = true <-> forall t, 0 <= t < p -> is_Some (first_report cks id op t).
Proof using Hops.
  intros Hwf Hop Hp Hl. unfold oc_is_align. rewrite Z.eqb_eq, Hp.
  setoid_rewrite <- Hl. apply size_eq_full; [by apply (Hops op)|].
  intros t [c Hc]. rewrite Hl in Hc. apply first_report_some in Hc as (Hin & _ & Ho & <-).
  rewrite Forall_forall in Hwf. destruct (Hwf c Hin) as (p' & Hp' & ? & _). rewrite Ho in Hp'. by simplify_eq.
Qed.

(** A report of the current id goes to its operator's table. *)
Lemma oc_apply_lookup cks ck oc p :
  Forall (report_wf ops) cks -> report_wf ops ck ->
  ops !! ck_operator_id ck = Some p -> oc_parallelism oc = p ->
  (forall t, oc_current_cks oc !! t = first_report cks (ck_checkpoint_id ck) (ck_operator_id ck) t) ->
  forall t, oc_current_cks (oc_apply oc ck) !! t =
    first_report (cks ++ [ck]) (ck_checkpoint_id ck) (ck_operator_id ck) t.
Proof using Hops.
  intros Hwf (p' & Hp' & Ht & _) Hop Hp Hl t. assert (p' = p) as -> by congruence. unfold oc_apply.
  rewrite first_report_snoc, <- Hl, !Z.eqb_refl. cbn [andb].
  destruct (oc_is_align oc) eqn:Ha.
  - destruct (proj1 (oc_is_align_spec cks (ck_checkpoint_id ck) (ck_operator_id ck) oc p Hwf Hop Hp Hl) Ha
      (task_number (ck_task_id ck)) Ht) as [c Hc]. rewrite <- Hl in Hc.
    destruct (Z.eqb_spec (task_number (ck_task_id ck)) t) as [<-|]; [by rewrite Hc|by case_match].
  - destruct (oc_current_cks oc !! task_number (ck_task_id ck)) as [c|] eqn:Hc.
    + destruct (Z.eqb_spec (task_number (ck_task_id ck)) t) as [<-|]; [by rewrite Hc|by case_match].
    + cbn [oc_current_cks]. destruct (Z.eqb_spec (task_number (ck_task_id ck)) t) as [<-|Hne].
      * by rewrite lookup_insert_eq, Hc.
      * rewrite lookup_insert_ne by done. by case_match.
Qed.

(** The manager after the switch to the id of a report that is not late. *)
Definition switched m (ck : Checkpoint) : CheckpointAlignManager S :=
  if current_ck_id m <? ck_checkpoint_id ck then next_checkpoint m (ck_checkpoint_id ck) else m.

Lemma switched_inv m cks ck : cam_inv ops m cks -> current_ck_id m <= ck_checkpoint_id ck ->
  current_ck_id (switched m ck) = ck_checkpoint_id ck /\
  (oc_parallelism <$> operator_cks (switched m ck)) = ops /\ ck_storage (switched m ck) = ck_storage m /\
  (forall op oc t, operator_cks (switched m ck) !! op = Some oc ->
     oc_current_cks oc !! t = first_report cks (ck_checkpoint_id ck) op t).
Proof.
  intros (Hc & Ho & Hl) Hle. unfold switched.
  destruct (Z.ltb_spec (current_ck_id m) (ck_checkpoint_id ck)) as [Hlt|Hge].
  - cbn. split_and!; [done| |done|].
    + rewrite <- Ho, <- map_fmap_compose. apply map_fmap_ext. by intros.
    + intros op oc t. rewrite lookup_fmap_Some. intros (oc' & <- & _). cbn.
      rewrite lookup_empty. symmetry. apply first_report_future. lia.
  - replace (ck_checkpoint_id ck) with (latest_id cks) by lia. split_and!; try done.
Qed.

(** The manager after a report that is not late, before the check. *)
Definition reported m (ck : Checkpoint) (oc : OperatorCheckpoint) : CheckpointAlignManager S :=
  mkCheckpointAlign (application_name (switched m ck)) (application_id (switched m ck))
    (checkpoint_ttl (switched m ck)) (current_ck_id (switched m ck))
    (<[ck_operator_id ck := oc_apply oc ck]> (operator_cks (switched m ck)))
    (finish_operator_cks (switched m ck)) (ck_storage (switched m ck)).

Lemma oc_apply_parallelism oc ck : oc_parallelism (oc_apply oc ck) = oc_parallelism oc.
Proof. unfold oc_apply. by repeat case_match. Qed.

Lemma reported_inv m cks ck oc :
  cam_inv ops m cks -> Forall (report_wf ops) cks -> report_wf ops ck -> current_ck_id m <= ck_checkpoint_id ck ->
  operator_cks (switched m ck) !! ck_operator_id ck = Some oc -> cam_inv ops (reported m ck oc) (cks ++ [ck]).
Proof using Hops.
  intros Hinv Hwf Hck Hle Hoc. destruct (switched_inv m cks ck Hinv Hle) as (Hc & Ho & _ & Hl).
  assert (latest_id (cks ++ [ck]) = ck_checkpoint_id ck) as Hlat.
  { rewrite latest_id_snoc. destruct Hinv as [<- _]. lia. }
  split_and!.
  - cbn. by rewrite Hlat.
  - cbn. rewrite fmap_insert, oc_apply_parallelism, Ho. apply insert_id. by rewrite <- Ho, lookup_fmap, Hoc.
  - rewrite Hlat. intros op oc' t. cbn. rewrite lookup_insert_Some. intros [[<- <-]|[Hne Hop]].
    + eapply oc_apply_lookup; [done|done| |done|]; [|intros; by apply Hl].
      by rewrite <- Ho, lookup_fmap, Hoc.
    + rewrite (Hl op oc' t Hop), first_report_snoc.
      destruct (Z.eqb_spec (ck_operator_id ck) op); [done|]. rewrite andb_false_r. by case_match.
Qed.

(** The whole of [apply] in terms of [reported]. *)
Lemma cam_apply_eq m ck :
  cam_apply m ck =
    if ck_checkpoint_id ck <? current_ck_id m then (m, Ok tt)
    else
      match operator_cks (switched m ck) !! ck_operator_id ck with
      | None => (switched m ck, Err "operator not found"%string)
      | Some oc =>
          let m1 := reported m ck oc in
          if cam_is_align m1 then
            match ck_storage m1 with
            | Some storage =>
                let '(storage, r) := ck_save storage (application_name m1) (application_id m1) (current_ck_id m1)
                                       (collect_cks (operator_cks m1)) (checkpoint_ttl m1) in
                (mkCheckpointAlign (application_name m1) (application_id m1) (checkpoint_ttl m1) (current_ck_id m1)
                   (operator_cks m1) (operator_cks m1) (Some storage), r)
            | None =>
                (mkCheckpointAlign (application_name m1) (application_id m1) (checkpoint_ttl m1) (current_ck_id m1)
                   (operator_cks m1) (operator_cks m1) None, Ok tt)
            end
          else (m1, Ok tt)
      end.
Proof. reflexivity. Qed.

Lemma switched_operator m cks ck : cam_inv ops m cks -> report_wf ops ck ->
  current_ck_id m <= ck_checkpoint_id ck -> exists oc, operator_cks (switched m ck) !! ck_operator_id ck = Some oc.
Proof.
  intros Hinv (p & Hp & _) Hle. destruct (switched_inv m cks ck Hinv Hle) as (_ & Ho & _ & _).
  rewrite <- Ho, lookup_fmap_Some in Hp. destruct Hp as (oc & _ & Hoc). eauto.
Qed.

Lemma cam_inv_ext m m' cks : cam_inv ops m cks -> current_ck_id m' = current_ck_id m ->
  operator_cks m' = operator_cks m -> cam_inv ops m' cks.
Proof. intros (H1 & H2 & H3) E1 E2. unfold cam_inv. by rewrite E1, E2. Qed.

Lemma cam_apply_inv m cks ck :
  cam_inv ops m cks -> Forall (report_wf ops) cks -> report_wf ops ck ->
  cam_inv ops (cam_apply m ck).1 (cks ++ [ck]).
Proof using Hops.
  intros Hinv Hwf Hck. rewrite cam_apply_eq.
  destruct (Z.ltb_spec (ck_checkpoint_id ck) (current_ck_id m)) as [Hlt|Hle].
  - destruct Hinv as (Hc & Ho & Hl). cbn [fst].
    assert (latest_id (cks ++ [ck]) = latest_id cks) as Hlat by (rewrite latest_id_snoc; lia).
    split_and!; [by rewrite Hlat|done|]. intros op oc t Hop. rewrite Hlat, (Hl op oc t Hop), first_report_snoc.
    destruct (Z.eqb_spec (ck_checkpoint_id ck) (latest_id cks)); [lia|]. cbn [andb]. by case_match.
  - destruct (switched_operator m cks ck Hinv Hck Hle) as [oc Hoc]. rewrite Hoc. cbn zeta.
    pose proof (reported_inv m cks ck oc Hinv Hwf Hck Hle Hoc) as Hr.
    destruct (cam_is_align _); [|done]. destruct (ck_storage (reported m ck oc)) as [st|].
    + destruct (ck_save _ _ _ _ _ _). by eapply cam_inv_ext.
    + by eapply cam_inv_ext.
Qed.

Lemma cam_run_inv m cks0 cks : cam_inv ops m cks0 -> Forall (report_wf ops) (cks0 ++ cks) ->
  cam_inv ops (cam_run m cks) (cks0 ++ cks).
Proof using Hops.
  revert m cks0; induction cks as [|ck cks IH]; intros m cks0 Hinv Hwf; cbn [cam_run foldl].
  { by rewrite app_nil_r. }
  apply Forall_app in Hwf as [Hwf0 Hwf]. apply Forall_cons in Hwf as [Hck Hwf].
  replace (cks0 ++ ck :: cks) with ((cks0 ++ [ck]) ++ cks) by by rewrite <- (assoc_L (++)).
  apply IH; [by apply cam_apply_inv|]. rewrite !Forall_app. auto.
Qed.

(** The saved list: one entry per first report. *)
Lemma elem_of_collect m cks c : cam_inv ops m cks -> Forall (report_wf ops) cks ->
  c ∈ collect_cks (operator_cks m) <-> exists op t, first_report cks (latest_id cks) op t = Some c.
Proof.
  intros (_ & Ho & Hl) Hwf. unfold collect_cks. rewrite list_elem_of_bind. split.
  - intros ([op oc] & Hc & Hop). apply elem_of_hiter in Hop.
    apply list_elem_of_fmap in Hc as ([t c'] & -> & Ht). apply elem_of_hiter in Ht.
    exists op, t. by rewrite <- (Hl op oc t Hop).
  - intros (op & t & Hf). pose proof (first_report_some _ _ _ _ _ Hf) as (Hin & _ & Hop & _).
    rewrite Forall_forall in Hwf. destruct (Hwf c Hin) as (p & Hp & _). rewrite Hop, <- Ho, lookup_fmap_Some in Hp.
    destruct Hp as (oc & _ & Hoc). exists (op, oc). split; [|by apply elem_of_hiter].
    apply list_elem_of_fmap. exists (t, c). split; [done|]. apply elem_of_hiter. by rewrite (Hl op oc t Hoc).
Qed.

Lemma reported_by_all_align m cks : cam_inv ops m cks -> Forall (report_wf ops) cks ->
  cam_is_align m = true <-> reported_by_all ops cks (latest_id cks).
Proof using Hops.
  intros (_ & Ho & Hl) Hwf. rewrite cam_is_align_spec. split.
  - intros Hall op p t Hop Ht. pose proof Hop as Hop'. rewrite <- Ho, lookup_fmap_Some in Hop'.
    destruct Hop' as (oc & Hp & Hoc).
    exact (proj1 (oc_is_align_spec cks (latest_id cks) op oc p Hwf Hop Hp (fun t => Hl op oc t Hoc)) (Hall op oc Hoc) t Ht).
  - intros Hall op oc Hoc. assert (ops !! op = Some (oc_parallelism oc)) as Hop by by rewrite <- Ho, lookup_fmap, Hoc.
    apply (oc_is_align_spec cks (latest_id cks) op oc _ Hwf Hop eq_refl (fun t => Hl op oc t Hoc)).
    intros t Ht. by eapply Hall.
Qed.

Lemma NoDup_collect m cks : cam_inv ops m cks -> NoDup (collect_cks (operator_cks m)).
Proof.
  intros (_ & _ & Hl). unfold collect_cks. apply NoDup_bind.
  - intros [op1 oc1] [op2 oc2] c H1 H2 Hc1 Hc2.
    apply elem_of_hiter in H1, H2.
    apply list_elem_of_fmap in Hc1 as ([t1 ?] & -> & Ht1%elem_of_hiter).
    apply list_elem_of_fmap in Hc2 as ([t2 ?] & ? & Ht2%elem_of_hiter). simplify_eq/=.
    rewrite (Hl _ _ _ H1) in Ht1. rewrite (Hl _ _ _ H2) in Ht2.
    apply first_report_some in Ht1 as (_ & _ & ? & _), Ht2 as (_ & _ & ? & _). by simplify_eq.
  - intros [op oc] Hop%elem_of_hiter. apply NoDup_fmap_2_strong.
    + intros [t1 c1] [t2 c2] H1%elem_of_hiter H2%elem_of_hiter ?. simplify_eq/=.
      rewrite (Hl _ _ t1 Hop) in H1. rewrite (Hl _ _ t2 Hop) in H2.
      apply first_report_some in H1 as (_ & _ & _ & ?), H2 as (_ & _ & _ & ?). congruence.
    + apply NoDup_fmap_1 with (f := fst), NoDup_hiter_fst.
  - apply NoDup_fmap_1 with (f := fst), NoDup_hiter_fst.
Qed.

(** Nothing but [apply]'s save changes the names and the ttl. *)
Definition same_config m m' : Prop :=
  application_name m' = application_name m /\ application_id m' = application_id m /\
  checkpoint_ttl m' = checkpoint_ttl m /\ (is_Some (ck_storage m) -> is_Some (ck_storage m')).

Lemma reported_config m ck oc : same_config m (reported m ck oc).
Proof. unfold same_config, reported, switched. by case_match. Qed.

Lemma cam_apply_config m ck : same_config m (cam_apply m ck).1.
Proof.
  rewrite cam_apply_eq. destruct (_ <? _); [by split_and!|].
  destruct (operator_cks (switched m ck) !! _) as [oc|]; [|unfold same_config, switched; by case_match].
  pose proof (reported_config m ck oc) as (H1 & H2 & H3 & H4). cbn zeta.
  destruct (cam_is_align _); [|by split_and!].
  destruct (ck_storage (reported m ck oc)) as [st|]; [|by split_and!].
  destruct (ck_save _ _ _ _ _ _). by split_and!.
Qed.

Lemma cam_run_config m cks : same_config m (cam_run m cks).
Proof.
  revert m; induction cks as [|ck cks IH]; intros m; [by split_and!|].
  change (cam_run m (ck :: cks)) with (cam_run (cam_apply m ck).1 cks).
  destruct (IH (cam_apply m ck).1) as (H5 & H6 & H7 & H8).
  destruct (cam_apply_config m ck) as (H1 & H2 & H3 & H4). split_and!; [congruence..|auto].
Qed.
End align_lemmas.

(** ** What the coordinator saves *)
Section align_claims.
Context {HO : HashOrder} {S : Type} {CS : CheckpointStorage S}.

(** The operator table of a job DAG. *)
Definition jobs_ops (jobs : list job_operators) : gmap OperatorId Z :=
  foldl (fun m '(_, p, nodes) => foldl (fun m '(op, _) => <[op := p]> m) m nodes) ∅ jobs.

Lemma cam_new_ops name id ttl jobs (st : option S) :
  oc_parallelism <$> operator_cks (cam_new name id ttl jobs st) = jobs_ops jobs /\
  map_Forall (fun _ oc => oc_current_cks oc = ∅) (operator_cks (cam_new name id ttl jobs st)).
Proof.
  unfold cam_new, jobs_ops. cbn.
  rewrite <- (fmap_empty oc_parallelism : _ = (∅ : gmap OperatorId Z)).
  assert (map_Forall (fun _ oc => oc_current_cks oc = ∅) (∅ : gmap OperatorId OperatorCheckpoint)) as He
    by apply map_Forall_empty.
  revert He. generalize (∅ : gmap OperatorId OperatorCheckpoint).
  induction jobs as [|[[j p] nodes] jobs IH]; intros m He; cbn; [done|].
  assert (forall m : gmap OperatorId OperatorCheckpoint, map_Forall (fun _ oc => oc_current_cks oc = ∅) m ->
    let m' := foldl (fun m '(op, n) => <[op := OperatorCheckpoint_new j op n p]> m) m nodes in
    foldl (fun m '(op, _) => <[op := p]> m) (oc_parallelism <$> m) nodes = oc_parallelism <$> m' /\
    map_Forall (fun _ oc => oc_current_cks oc = ∅) m') as Hn.
  { clear. induction nodes as [|[op n] nodes IHn]; intros m He; cbn; [done|].
    destruct (IHn (<[op := OperatorCheckpoint_new j op n p]> m)) as [H1 H2].
    - by apply map_Forall_insert_2.
    - rewrite fmap_insert in H1. done. }
  destruct (Hn m He) as [-> H2]. by apply IH.
Qed.

Lemma cam_new_inv name id ttl jobs (st : option S) : cam_inv (jobs_ops jobs) (cam_new name id ttl jobs st) [].
Proof.
  destruct (cam_new_ops name id ttl jobs st) as [H1 H2]. split_and!; [done..|].
  intros op oc t Hop. rewrite (H2 op oc Hop). by rewrite lookup_empty.
Qed.

Lemma jobs_ops_nonneg jobs : Forall (fun '(_, p, _) => 0 <= p) jobs ->
  map_Forall (fun _ p => 0 <= p) (jobs_ops jobs).
Proof.
  unfold jobs_ops. assert (map_Forall (fun _ p => 0 <= p) (∅ : gmap OperatorId Z)) as He by apply map_Forall_empty.
  revert He. generalize (∅ : gmap OperatorId Z).
  induction jobs as [|[[j p] nodes] jobs IH]; intros m He Hj; cbn; [done|].
  apply Forall_cons in Hj as [Hp Hj]. apply IH; [|done]. clear -Hp He. revert m He.
  induction nodes as [|[op n] nodes IHn]; intros m He; cbn; [done|]. by apply IHn, map_Forall_insert_2.
Qed.

(** One report, in a state that satisfies the invariant. *)
Lemma cam_apply_save ops (m : CheckpointAlignManager S) hist ck st :
  map_Forall (fun _ p => 0 <= p) ops -> cam_inv ops m hist -> Forall (report_wf ops) (hist ++ [ck]) ->
  latest_id hist <= ck_checkpoint_id ck -> ck_storage m = Some st ->
  (reported_by_all ops (hist ++ [ck]) (ck_checkpoint_id ck) ->
   exists cks, NoDup cks /\
     (forall c, c ∈ cks <-> exists op t, first_report (hist ++ [ck]) (ck_checkpoint_id ck) op t = Some c) /\
     let saved := ck_save st (application_name m) (application_id m) (ck_checkpoint_id ck) cks (checkpoint_ttl m) in
     ck_storage (cam_apply m ck).1 = Some saved.1 /\ (cam_apply m ck).2 = saved.2) /\
  (~ reported_by_all ops (hist ++ [ck]) (ck_checkpoint_id ck) ->
   ck_storage (cam_apply m ck).1 = Some st /\ (cam_apply m ck).2 = Ok tt).
Proof.
  intros Hops Hinv Hall Hle Hst. pose proof Hall as Hall'. apply Forall_app in Hall' as [Hwf [Hck _]%Forall_cons].
  assert (current_ck_id m <= ck_checkpoint_id ck) as Hle' by (destruct Hinv as [-> _]; lia).
  assert (latest_id (hist ++ [ck]) = ck_checkpoint_id ck) as Hlat by (rewrite latest_id_snoc; lia).
  destruct (switched_operator ops m hist ck Hinv Hck Hle') as [oc Hoc].
  destruct (switched_inv ops m hist ck Hinv Hle') as (Hcur & _ & Hst' & _).
  pose proof (reported_inv ops Hops m hist ck oc Hinv Hwf Hck Hle' Hoc) as Hr.
  pose proof (reported_by_all_align ops Hops _ _ Hr Hall) as Hal. rewrite Hlat in Hal.
  destruct (reported_config m ck oc) as (Hn & Hid & Httl & _).
  rewrite cam_apply_eq. destruct (Z.ltb_spec (ck_checkpoint_id ck) (current_ck_id m)); [lia|].
  rewrite Hoc. cbn zeta. assert (ck_storage (reported m ck oc) = Some st) as Es by (cbn; congruence).
  split; intros Hrep.
  - rewrite (proj2 Hal Hrep), Es. exists (collect_cks (operator_cks (reported m ck oc))).
    split; [by eapply NoDup_collect|split].
    + intros c. rewrite (elem_of_collect ops _ _ c Hr Hall). by rewrite Hlat.
    + rewrite Hn, Hid, Httl. change (current_ck_id (reported m ck oc)) with (current_ck_id (switched m ck)).
      rewrite Hcur. cbn zeta. by destruct (ck_save _ _ _ _ _ _).
  - destruct (cam_is_align (reported m ck oc)) eqn:Ea; [by destruct Hrep; apply Hal|]. done.
Qed.

(** C3: The coordinator saves a checkpoint exactly when it is complete. After
    any history of reports by tasks of the job graph, the current checkpoint id
    is the greatest one reported; a report with a smaller id changes nothing;
    another report makes [apply] call the storage's [save] (with the
    application's name, id and ttl, and with the first report of every task for
    this checkpoint id, each once) if with it every task of every operator has
    reported this id, and leaves the storage as it is otherwise. The result of
    [apply] is the result of [save] in the first case, [Ok] in the others. *)
Theorem checkpoint_saved_iff_complete name id ttl (jobs : list job_operators) (st0 : S) hist ck :
  Forall (fun '(_, p, _) => 0 <= p) jobs ->
  Forall (report_wf (jobs_ops jobs)) (hist ++ [ck]) ->
  let m := cam_run (cam_new name id ttl jobs (Some st0)) hist in
  let complete := reported_by_all (jobs_ops jobs) (hist ++ [ck]) (ck_checkpoint_id ck) in
  current_ck_id m = latest_id hist /\
  (ck_checkpoint_id ck < latest_id hist -> cam_apply m ck = (m, Ok tt)) /\
  exists st, ck_storage m = Some st /\
  (latest_id hist <= ck_checkpoint_id ck -> complete ->
   exists cks, NoDup cks /\
     (forall c, c ∈ cks <-> exists op t, first_report (hist ++ [ck]) (ck_checkpoint_id ck) op t = Some c) /\
     ck_storage (cam_apply m ck).1 = Some (ck_save st name id (ck_checkpoint_id ck) cks ttl).1 /\
     (cam_apply m ck).2 = (ck_save st name id (ck_checkpoint_id ck) cks ttl).2) /\
  (latest_id hist <= ck_checkpoint_id ck -> ~ complete ->
   ck_storage (cam_apply m ck).1 = Some st /\ (cam_apply m ck).2 = Ok tt).
Proof.
  intros Hj Hall m complete. pose proof (jobs_ops_nonneg jobs Hj) as Hops.
  assert (cam_inv (jobs_ops jobs) m hist) as Hinv.
  { apply (cam_run_inv _ Hops _ []); [apply cam_new_inv|]. by apply Forall_app in Hall as []. }
  destruct (cam_run_config (cam_new name id ttl jobs (Some st0)) hist) as (Hn & Hid & Ht & Hs).
  destruct Hs as [st Hst]; [by eexists|]. cbn in Hn, Hid, Ht. fold m in Hn, Hid, Ht.
  split; [apply Hinv|]. split.
  - intros Hlt. rewrite cam_apply_eq. destruct Hinv as [-> _]. by rewrite (proj2 (Z.ltb_lt _ _) Hlt).
  - exists st. split; [done|]. split; intros Hle Hc;
      destruct (cam_apply_save _ m hist ck st Hops Hinv Hall Hle Hst) as [H1 H2]; [|by apply H2].
    destruct (H1 Hc) as (cks & Hnd & Hin & Hsv). rewrite Hn, Hid, Ht in Hsv. by exists cks.
Qed.
End align_claims.

(** ** The in-memory history *)
Lemma remove_all_lookup ids (m : MemoryCheckpointStorage) k :
  remove_all ids m !! k = if decide (k ∈ ids) then None else m !! k.
Proof.
  unfold remove_all. revert m; induction ids as [|id ids IH]; intros m; cbn [foldl].
  { by rewrite decide_False by apply not_elem_of_nil. }
  rewrite IH. destruct (decide (k ∈ ids)) as [Hin|Hin].
  - by rewrite decide_True by by right.
  - destruct (decide (k = id)) as [->|Hne].
    + by rewrite lookup_delete_eq, decide_True by by left.
    + rewrite lookup_delete_ne by done. rewrite decide_False; [done|]. rewrite elem_of_cons. naive_solver.
Qed.

Lemma sorted_split_lt (l : list Z) n x y : StronglySorted Z.lt l -> x ∈ take n l -> y ∈ drop n l -> x < y.
Proof.
  intros Hs. revert n. induction Hs as [|a l Hs IH Hall]; intros [|n]; cbn.
  1-3: intros H ?; by apply elem_of_nil in H.
  rewrite elem_of_cons. intros [->|Hx] Hy; [|by eapply IH].
  rewrite Forall_forall in Hall. apply Hall. by eapply (subseteq_drop n).
Qed.

Section memory_claims.
Context {HO : HashOrder}.

Definition history_ids (m : MemoryCheckpointStorage) : list CheckpointId := sort_by_key (fun id => id) (hiter m).*1.

Lemma history_ids_elem m k : k ∈ history_ids m <-> is_Some (m !! k).
Proof. unfold history_ids. by rewrite elem_of_sort_by_key, elem_of_hiter_keys. Qed.

Lemma history_ids_NoDup m : NoDup (history_ids m).
Proof. unfold history_ids. rewrite sort_by_key_perm. apply NoDup_hiter_fst. Qed.

Lemma history_ids_sorted m : StronglySorted Z.lt (history_ids m).
Proof.
  apply (sorted_by_strict (fun id : Z => id)); [apply sort_by_key_sorted|].
  rewrite list_fmap_id. apply history_ids_NoDup.
Qed.

Lemma cap_history_lookup m k : (100 < size m)%nat ->
  cap_history m !! k = if decide (k ∈ take (size m - 100) (history_ids m)) then None else m !! k.
Proof. intros Hs. unfold cap_history. rewrite (proj2 (Nat.ltb_lt _ _) Hs). apply remove_all_lookup. Qed.

Lemma cap_history_elem m k : (100 < size m)%nat ->
  is_Some (cap_history m !! k) <-> k ∈ drop (size m - 100) (history_ids m).
Proof.
  intros Hs. rewrite cap_history_lookup by done.
  pose proof (history_ids_elem m k) as Hk. pose proof (history_ids_NoDup m) as Hnd.
  rewrite <- (take_drop (size m - 100) (history_ids m)) in Hk, Hnd. rewrite elem_of_app in Hk.
  apply NoDup_app in Hnd as (_ & Hdisj & _).
  destruct (decide (k ∈ _)) as [Hin|Hin]; [|naive_solver].
  split; [by intros []|]. intros H. by destruct (Hdisj k Hin).
Qed.

Lemma cap_history_size m : (size (cap_history m) <= 100)%nat /\ ((100 < size m)%nat -> size (cap_history m) = 100%nat).
Proof.
  destruct (decide (100 < size m)%nat) as [Hs|Hs].
  - enough (size (cap_history m) = 100%nat) by lia.
    rewrite <- (size_dom (D:=gset Z)).
    assert (dom (cap_history m) ≡ (list_to_set (drop (size m - 100) (history_ids m)) : gset Z)) as ->.
    { intros k. by rewrite elem_of_dom, elem_of_list_to_set, cap_history_elem. }
    rewrite size_list_to_set.
    + rewrite length_drop. unfold history_ids. rewrite length_sort_by_key, length_fmap, length_hiter. lia.
    + pose proof (history_ids_NoDup m) as Hnd. rewrite <- (take_drop (size m - 100) (history_ids m)) in Hnd.
      by apply NoDup_app in Hnd as (_ & _ & ?).
  - unfold cap_history. rewrite (proj2 (Nat.ltb_ge _ _)) by lia. split; [lia|done].
Qed.

(** The entries older than [bound] are removed first. *)
Lemma expire_lookup (m : MemoryCheckpointStorage) bound j :
  remove_all (List.filter (fun id => id <? bound) (hiter m).*1) m !! j =
    if decide (j < bound) then None else m !! j.
Proof.
  rewrite remove_all_lookup.
  destruct (decide (j ∈ _)) as [Hin|Hin], (decide (j < bound)) as [Hj|Hj]; try done.
  - apply list_elem_of_In, List.filter_In in Hin as [_ ?]. bool_to_prop. lia.
  - destruct (m !! j) as [v|] eqn:E; [|done]. destruct Hin. apply list_elem_of_In, List.filter_In.
    split; [|bool_to_prop; lia]. apply list_elem_of_In, elem_of_hiter_keys. by rewrite E.
Qed.

Lemma cap_history_sub m j v : cap_history m !! j = Some v -> m !! j = Some v.
Proof. unfold cap_history. case_match; [|done]. rewrite remove_all_lookup. by case_match. Qed.

Lemma cap_history_drops m j : is_Some (m !! j) -> cap_history m !! j = None ->
  size (cap_history m) = 100%nat /\ forall i, is_Some (cap_history m !! i) -> j < i.
Proof.
  intros Hj Hn. destruct (decide (100 < size m)%nat) as [Hs|Hs].
  - split; [by apply cap_history_size|]. intros i. rewrite cap_history_elem by done.
    apply sorted_split_lt; [apply history_ids_sorted|].
    rewrite cap_history_lookup in Hn by done. case_match; [done|]. rewrite Hn in Hj. by destruct Hj.
  - unfold cap_history in Hn. rewrite (proj2 (Nat.ltb_ge _ _)) in Hn by lia. rewrite Hn in Hj. by destruct Hj.
Qed.

(** What the in-memory storage keeps. Saving checkpoint [id] stores it and
    only removes entries. While the id is below the ttl nothing is removed. From
    then on every entry older than [id - ttl] is gone and at most 100 are left,
    and an entry that is not that old is removed only when exactly 100 newer
    ones are kept; so the checkpoint just saved is kept when no entry is newer. *)
Theorem memory_save_spec (m : MemoryCheckpointStorage) id cks ttl k :
  let m0 := <[id := cks]> m in
  let m' := memory_save m id cks ttl in
  (forall v, m' !! k = Some v -> m0 !! k = Some v) /\
  (id < ttl -> m' = m0) /\
  (ttl <= id ->
    (is_Some (m' !! k) -> id - ttl <= k) /\
    (size m' <= 100)%nat /\
    (is_Some (m0 !! k) -> id - ttl <= k -> m' !! k = None ->
       size m' = 100%nat /\ forall j, is_Some (m' !! j) -> k < j)) /\
  (0 <= ttl -> (forall j, is_Some (m !! j) -> j <= id) -> m' !! id = Some cks).
Proof.
  intros m0 m'. unfold m', memory_save. fold m0.
  destruct (Z.ltb_spec id ttl) as [Hlt|Hge].
  { split_and!; [done|done|lia|]. intros _ _. apply lookup_insert_eq. }
  set (m1 := remove_all _ m0).
  assert (forall j, m1 !! j = if decide (j < id - ttl) then None else m0 !! j) as Hm1
    by (intros j; apply expire_lookup).
  split_and!; [| lia | |].
  - intros v Hv%cap_history_sub. rewrite Hm1 in Hv. by case_match.
  - intros _. split_and!; [|apply cap_history_size|].
    + intros [v Hv%cap_history_sub]. rewrite Hm1 in Hv. case_match; [done|lia].
    + intros Hk Hle Hn. apply cap_history_drops; [|done]. rewrite Hm1. by rewrite decide_False by lia.
  - intros Httl Hmax. destruct (cap_history m1 !! id) as [v|] eqn:E.
    + apply cap_history_sub in E. rewrite Hm1 in E. case_match; [done|]. unfold m0 in E. by rewrite lookup_insert_eq in E.
    + destruct (cap_history_drops m1 id) as [Hs Hj]; [|done|].
      { rewrite Hm1, decide_False by lia. unfold m0. by rewrite lookup_insert_eq. }
      exfalso. destruct (map_choose (cap_history m1)) as (i & x & Hi).
      { intros He. by rewrite He, map_size_empty in Hs. }
      pose proof (Hj i (ex_intro _ x Hi)). apply cap_history_sub in Hi. rewrite Hm1 in Hi. case_match; [done|].
      unfold m0 in Hi. rewrite lookup_insert_ne in Hi by lia. specialize (Hmax i (ex_intro _ x Hi)). lia.
Qed.
End memory_claims.

(** ** Examples *)
Definition ex_report (op task id : Z) : Checkpoint :=
  mkCheckpoint op (mkTaskId 0 task 2) id None (mkHandle "").

Definition ex_jobs : list job_operators := [(0, 2, [(1, "source"%string); (2, "sink"%string)])].

Definition ex_hist : list Checkpoint :=
  [ex_report 1 0 7; ex_report 1 1 5; ex_report 2 0 7; ex_report 1 1 7; ex_report 2 0 7].

Lemma checkpoint_saved_iff_complete_witness :
  let HO := id_order in
  let m := cam_run (cam_new "app" "a-1" 1000 ex_jobs (Some (∅ : MemoryCheckpointStorage))) ex_hist in
  current_ck_id m = 7 /\
  cam_apply m (ex_report 2 1 6) = (m, Ok tt) /\
  exists st cks, NoDup cks /\ ex_report 2 1 7 ∈ cks /\
    ck_storage (cam_apply m (ex_report 2 1 7)).1 = Some (memory_save st 7 cks 1000).
Proof.
  assert (forall id, 0 <= id -> Forall (report_wf (jobs_ops ex_jobs)) (ex_hist ++ [ex_report 2 1 id])) as Hwf.
  { intros id Hid. repeat (apply Forall_cons; split; [exists 2; cbn; split; [reflexivity|lia]|]). constructor. }
  assert (Forall (fun '(_, p, _) => 0 <= p) ex_jobs) as Hj by (repeat constructor; lia).
  intros HO m.
  destruct (checkpoint_saved_iff_complete "app" "a-1" 1000 ex_jobs (∅ : MemoryCheckpointStorage) ex_hist
    (ex_report 2 1 6) Hj (Hwf 6 ltac:(lia))) as (Hc & Hlate & _).
  destruct (checkpoint_saved_iff_complete "app" "a-1" 1000 ex_jobs (∅ : MemoryCheckpointStorage) ex_hist
    (ex_report 2 1 7) Hj (Hwf 7 ltac:(lia))) as (_ & _ & st & _ & Hsave & _).
  split; [exact Hc|]. split; [apply Hlate; vm_compute; reflexivity|].
  destruct Hsave as (cks & Hnd & Hin & Hst & _).
  - vm_compute. discriminate.
  - intros op p t Hop Ht.
    assert (map_Forall (fun op p => op = 1 /\ p = 2 \/ op = 2 /\ p = 2) (jobs_ops ex_jobs)) as Hm.
    { repeat (apply map_Forall_insert_2; [lia|]). apply map_Forall_empty. }
    assert (t = 0 \/ t = 1) as [-> | ->] by (destruct (Hm op p Hop); lia);
      destruct (Hm op p Hop) as [[-> ->]|[-> ->]]; eexists; reflexivity.
  - exists st, cks. split; [exact Hnd|]. split; [|exact Hst]. apply Hin. exists 2, 1. reflexivity.
Defined.

Lemma memory_save_spec_witness :
  let HO := id_order in
  let m := <[3 := []]> (<[20 := []]> (∅ : MemoryCheckpointStorage)) in
  memory_save m 50 [] 40 !! 50 = Some [] /\ (size (memory_save m 50 [] 40) <= 100)%nat /\
  (is_Some (memory_save m 50 [] 40 !! 3) -> 10 <= 3).
Proof.
  intros HO m. destruct (memory_save_spec m 50 [] 40 3) as (_ & _ & H1 & H2).
  destruct (H1 ltac:(lia)) as (H3 & H4 & _). split; [|split; [exact H4|exact H3]].
  apply H2; [lia|]. intros j [v Hv]. unfold m in Hv.
  apply lookup_insert_Some in Hv as [[<- _]|[_ Hv]]; [lia|].
  apply lookup_insert_Some in Hv as [[<- _]|[_ Hv]]; [lia|]. discriminate Hv.
Defined.
