(* ===== verification/Cluster.v ===== *)
(** * Cluster: registration, heartbeats and termination of a run
    (src/rlink/src/storage/metadata/mem_metadata_storage.rs,
     src/rlink/src/runtime/coordinator/heart_beat_manager.rs,
     src/rlink/src/runtime/coordinator/mod.rs,
     src/rlink/src/runtime/worker/heart_beat.rs,
     src/rlink/src/runtime/cluster/worker.rs)

    The coordinator keeps the cluster descriptor in a store that the heartbeat
    handler, the registration wait and the heartbeat timer read and write under
    a lock. Each locked operation is a function on the store; one run of the
    cluster (one turn of the loop of [CoordinatorTask::run]) is the step relation
    [step], in which the operations of the coordinator and of the workers
    interleave freely and requests can be lost. *)
From Stdlib Require Import ZArith Lia Sorted.
From Stdlib Require HexString.
From stdpp Require Import base strings numbers option sets gmap list.
From S2P Require Import Prelude Bytes Runtime Checkpoint.

(** ** Heartbeat items (runtime/mod.rs) *)
Inductive HeartbeatItem : Type :=
  | WorkerManagerAddress (addr : string)
  | WorkerManagerWebAddress (addr : string)
  | MetricsAddress (addr : string)
  | HeartBeatStatusItem (status : HeartBeatStatus)
  | TaskThreadId (task_id : TaskId) (thread_id : Z)
  | TaskEnd (task_id : TaskId).

Record HeartbeatRequest := mkHeartbeatRequest {
  hr_task_manager_id : string;
  hr_change_items : list HeartbeatItem
}.

(** ** The in-memory metadata store *)
Abbreviation MetadataStore := (option ClusterDescriptor).

Definition metadata_save (metadata : ClusterDescriptor) (st : MetadataStore) : MetadataStore := Some metadata.

Definition metadata_load (st : MetadataStore) : res string ClusterDescriptor :=
  match st with Some c => Ok c | None => Err "ClusterDescriptor not found"%string end.

Definition update_coordinator_status (st : MetadataStore) (status : ManagerStatus)
    : MetadataStore * res string unit :=
  match st with
  | Some c => (Some (set_coordinator_status status c), Ok tt)
  | None => (st, Err "ClusterDescriptor not found"%string)
  end.

Definition update_task (task_id : TaskId) (f : TaskDescriptor -> TaskDescriptor) (ts : list TaskDescriptor)
    : list TaskDescriptor :=
  (fun td => if bool_decide (td_task_id td = task_id) then f td else td) <$> ts.

Definition set_thread_id (s : string) (td : TaskDescriptor) : TaskDescriptor :=
  mkTaskDescriptor (td_task_id td) (td_operators td) (td_input_split td) (td_daemon td) s (td_terminated td).

Definition set_terminated (td : TaskDescriptor) : TaskDescriptor :=
  mkTaskDescriptor (td_task_id td) (td_operators td) (td_input_split td) (td_daemon td) (td_thread_id td) true.

Definition set_tasks (ts : list TaskDescriptor) (w : WorkerManagerDescriptor) : WorkerManagerDescriptor :=
  mkWorker (wm_status w) (wm_latest_heart_beat_ts w) (wm_latest_heart_beat_status w) (wm_task_manager_id w)
    (wm_task_manager_address w) (wm_metrics_address w) (wm_web_address w) ts.

(** One turn of the loop over the items. *)
Definition apply_item (w : WorkerManagerDescriptor) (item : HeartbeatItem) : WorkerManagerDescriptor :=
  match item with
  | MetricsAddress addr =>
      mkWorker (wm_status w) (wm_latest_heart_beat_ts w) (wm_latest_heart_beat_status w) (wm_task_manager_id w)
        (wm_task_manager_address w) addr (wm_web_address w) (wm_task_descriptors w)
  | WorkerManagerAddress addr =>
      mkWorker (wm_status w) (wm_latest_heart_beat_ts w) (wm_latest_heart_beat_status w) (wm_task_manager_id w)
        addr (wm_metrics_address w) (wm_web_address w) (wm_task_descriptors w)
  | WorkerManagerWebAddress addr =>
      mkWorker (wm_status w) (wm_latest_heart_beat_ts w) (wm_latest_heart_beat_status w) (wm_task_manager_id w)
        (wm_task_manager_address w) (wm_metrics_address w) addr (wm_task_descriptors w)
  | HeartBeatStatusItem status =>
      mkWorker (wm_status w) (wm_latest_heart_beat_ts w) status (wm_task_manager_id w)
        (wm_task_manager_address w) (wm_metrics_address w) (wm_web_address w) (wm_task_descriptors w)
  | TaskThreadId task_id thread_id =>
      set_tasks (update_task task_id (set_thread_id (HexString.of_Z thread_id)) (wm_task_descriptors w)) w
  | TaskEnd task_id => set_tasks (update_task task_id set_terminated (wm_task_descriptors w)) w
  end.

Definition is_task_end (item : HeartbeatItem) : bool :=
  match item with TaskEnd _ => true | _ => false end.

(** [iter_mut().find(..)] followed by updates of what it found. *)
Fixpoint update_first {A} (p : A -> bool) (f : A -> A) (l : list A) : option (list A) :=
  match l with
  | [] => None
  | x :: l => if p x then Some (f x :: l) else cons x <$> update_first p f l
  end.

Definition beat_worker (now : Z) (items : list HeartbeatItem) (status : ManagerStatus)
    (w : WorkerManagerDescriptor) : WorkerManagerDescriptor :=
  foldl apply_item
    (mkWorker status now (wm_latest_heart_beat_status w) (wm_task_manager_id w)
       (wm_task_manager_address w) (wm_metrics_address w) (wm_web_address w) (wm_task_descriptors w)) items.

Definition update_worker_status (now : Z) (st : MetadataStore) (task_manager_id : string)
    (heartbeat_items : list HeartbeatItem) (status : ManagerStatus) : MetadataStore * res string ManagerStatus :=
  match st with
  | None => (st, Err "ClusterDescriptor not found"%string)
  | Some c =>
      match update_first (fun w => bool_decide (wm_task_manager_id w = task_manager_id))
              (beat_worker now heartbeat_items status) (worker_managers c) with
      | None => (st, Err ("TaskManager not found, task_manager_id=" +:+ task_manager_id))
      | Some ws =>
          let c := mkCluster (coordinator_manager c) ws in
          let c := if existsb is_task_end heartbeat_items then flush_coordinator_status c else c in
          (Some c, Ok (cm_status (coordinator_manager c)))
      end
  end.

(** ** The coordinator's loops, one turn each *)
Inductive HeartbeatResult : Type := HR_Timeout | HR_End.

#[global] Instance HeartbeatResult_eq_dec : EqDecision HeartbeatResult.
Proof. solve_decision. Defined.

(** The check of one worker: [Duration::from_millis(..).as_secs() > 50]. *)
Definition heartbeat_late (current_timestamp : Z) (w : WorkerManagerDescriptor) : bool :=
  if current_timestamp <? wm_latest_heart_beat_ts w then false
  else 50 <? (current_timestamp - wm_latest_heart_beat_ts w) / 1000.

(** One turn of [start_heartbeat_timer] on the descriptor it has read. *)
Definition heartbeat_round (current_timestamp : Z) (c : ClusterDescriptor) : option HeartbeatResult :=
  if bool_decide (cm_status (coordinator_manager c) = Terminated) then Some HR_End
  else if existsb (heartbeat_late current_timestamp) (worker_managers c) then Some HR_Timeout
  else None.

(** The test of [waiting_worker_status_fine]. *)
Definition unregister_worker (c : ClusterDescriptor) : option WorkerManagerDescriptor :=
  List.find (fun w => negb (bool_decide (wm_status w = Registered))) (worker_managers c).

(** [gauge_startup_number]: [startup_number] is a [u64]. *)
Definition gauge_startup_number (c : ClusterDescriptor) : ClusterDescriptor :=
  let cm := coordinator_manager c in
  mkCluster
    (mkCoordinator (cm_version cm) (cm_application_id cm) (cm_application_properties cm) (cm_web_address cm)
       (cm_metrics_address cm) (cm_status cm) (cm_v_cores cm) (cm_memory_mb cm) (cm_num_task_managers cm)
       (cm_uptime cm) (wrap_u 64 (cm_startup_number cm + 1)))
    (worker_managers c).

(** The restore loop of [build_checkpoint_manager]: [unwrap] on a missing
    operator or task panics. *)
Definition restore_operator (cks : gmap OperatorId (list Checkpoint)) (task_num : Z) (od : OperatorDescriptor)
    : res string OperatorDescriptor :=
  match cks !! od_operator_id od with
  | None => Panic "called `Option::unwrap()` on a `None` value"%string
  | Some [] => Ok od
  | Some l =>
      match List.find (fun ck => task_number (ck_task_id ck) =? task_num) l with
      | None => Panic "called `Option::unwrap()` on a `None` value"%string
      | Some ck => Ok (mkOperatorDescriptor (od_operator_id od) (ck_checkpoint_id ck)
                         (od_completed_checkpoint_id od) (Some (mkHandle (handle (ck_handle ck)))))
      end
  end.

Fixpoint mapM_res {E A B} (f : A -> res E B) (l : list A) : res E (list B) :=
  match l with
  | [] => Ok []
  | x :: l => let* y := f x in let* ys := mapM_res f l in Ok (y :: ys)
  end.

Definition restore_task (cks : gmap OperatorId (list Checkpoint)) (td : TaskDescriptor) : res string TaskDescriptor :=
  let* ops := mapM_res (restore_operator cks (task_number (td_task_id td))) (td_operators td) in
  Ok (mkTaskDescriptor (td_task_id td) ops (td_input_split td) (td_daemon td) (td_thread_id td) (td_terminated td)).

Definition restore_checkpoints (cks : gmap OperatorId (list Checkpoint)) (c : ClusterDescriptor)
    : res string ClusterDescriptor :=
  if decide (size cks = 0%nat) then Ok c
  else
    let* ws := mapM_res (fun w => let* ts := mapM_res (restore_task cks) (wm_task_descriptors w) in Ok (set_tasks ts w))
                 (worker_managers c) in
    Ok (mkCluster (coordinator_manager c) ws).

(** ** The worker's side *)

(** [report_heartbeat]: the status item is added when there is none. *)
Definition is_status_item (item : HeartbeatItem) : bool :=
  match item with HeartBeatStatusItem _ => true | _ => false end.

Definition report_items (is_panic : bool) (change_items : list HeartbeatItem) : list HeartbeatItem :=
  match List.find is_status_item change_items with
  | Some _ => change_items
  | None => change_items ++ [HeartBeatStatusItem (if is_panic then HB_Panic else HB_Ok)]
  end.

Definition get_worker_manager_descriptor (task_manager_id : string) (c : ClusterDescriptor)
    : option WorkerManagerDescriptor :=
  List.find (fun w => bool_decide (wm_task_manager_id w = task_manager_id)) (worker_managers c).

(** ** One run of the cluster *)

(** A worker process: the heartbeat channel, whether its tasks have been started
    ([waiting_all_task_manager_fine] has returned), whether a thread of it has
    panicked, and the coordinator status it was last told. *)
Record WorkerProc := mkProc {
  wp_channel : list HeartbeatItem;
  wp_started : bool;
  wp_panic : bool;
  wp_coordinator_status : ManagerStatus
}.

Definition proc_new : WorkerProc := mkProc [] false false Pending.

(** Where the coordinator is: in [waiting_worker_status_fine], between its read
    and its update, in [start_heartbeat_timer], there with the descriptor it has
    read at a time, or out of it. *)
Inductive Phase : Type :=
  | Waiting
  | Confirmed
  | Monitoring
  | Checking (c : ClusterDescriptor) (read_at : Z)
  | Stopped (r : HeartbeatResult).

(** The last two fields only record what has happened: the heartbeats handled by
    the coordinator with their times, and the tasks that have announced their end. *)
Record Cluster := mkClusterState {
  cl_now : Z;
  cl_store : MetadataStore;
  cl_phase : Phase;
  cl_procs : gmap string WorkerProc;
  cl_beats : list (string * Z);
  cl_ended : list TaskId
}.

Definition has_task (c : ClusterDescriptor) (id : string) (t : TaskId) : Prop :=
  exists w td, w ∈ worker_managers c /\ wm_task_manager_id w = id /\ td ∈ wm_task_descriptors w /\ td_task_id td = t.

(** What a worker process puts in its channel: its addresses at start-up, then
    the thread ids and the ends of its own tasks, and its own end. *)
Definition may_submit (c : ClusterDescriptor) (id : string) (p : WorkerProc) (item : HeartbeatItem) : Prop :=
  match item with
  | WorkerManagerAddress _ | WorkerManagerWebAddress _ | MetricsAddress _ => True
  | HeartBeatStatusItem status => status = HB_End /\ wp_started p = true
  | TaskThreadId t _ | TaskEnd t => wp_started p = true /\ has_task c id t
  end.

Definition ended_by (item : HeartbeatItem) : list TaskId :=
  match item with TaskEnd t => [t] | _ => [] end.

Definition handled (id : string) (now : Z) (r : res string ManagerStatus) : list (string * Z) :=
  match r with Ok _ => [(id, now)] | _ => [] end.

Inductive step : Cluster -> Cluster -> Prop :=
  | step_tick now st ph ps bs es now' :
      now <= now' ->
      step (mkClusterState now st ph ps bs es) (mkClusterState now' st ph ps bs es)
  | step_submit now c ph ps bs es id p item :
      ps !! id = Some p -> may_submit c id p item ->
      step (mkClusterState now (Some c) ph ps bs es)
        (mkClusterState now (Some c) ph
          (<[id := mkProc (wp_channel p ++ [item]) (wp_started p) (wp_panic p) (wp_coordinator_status p)]> ps)
          bs (ended_by item ++ es))
  | step_panic now st ph ps bs es id p :
      ps !! id = Some p ->
      step (mkClusterState now st ph ps bs es)
        (mkClusterState now st ph
          (<[id := mkProc (wp_channel p) (wp_started p) true (wp_coordinator_status p)]> ps) bs es)
  | step_beat now st ph ps bs es id p st' r (answered : bool) :
      ps !! id = Some p ->
      update_worker_status now st id (report_items (wp_panic p) (wp_channel p)) Registered = (st', r) ->
      step (mkClusterState now st ph ps bs es)
        (mkClusterState now st' ph
          (<[id := mkProc [] (wp_started p) (wp_panic p)
                     (match r with Ok s => if answered then s else wp_coordinator_status p
                                 | _ => wp_coordinator_status p end)]> ps)
          (handled id now r ++ bs) es)
  | step_beat_lost now st ph ps bs es id p :
      ps !! id = Some p ->
      step (mkClusterState now st ph ps bs es)
        (mkClusterState now st ph
          (<[id := mkProc [] (wp_started p) (wp_panic p) (wp_coordinator_status p)]> ps) bs es)
  | step_poll now c ph ps bs es id p :
      ps !! id = Some p -> metadata_load (Some c) = Ok c -> cm_status (coordinator_manager c) = Registered ->
      step (mkClusterState now (Some c) ph ps bs es)
        (mkClusterState now (Some c) ph
          (<[id := mkProc (wp_channel p) true (wp_panic p) (wp_coordinator_status p)]> ps) bs es)
  | step_wait_read now st c ps bs es :
      metadata_load st = Ok c -> unregister_worker c = None ->
      step (mkClusterState now st Waiting ps bs es) (mkClusterState now st Confirmed ps bs es)
  | step_wait_update now st st' ps bs es :
      update_coordinator_status st Registered = (st', Ok tt) ->
      step (mkClusterState now st Confirmed ps bs es) (mkClusterState now st' Monitoring ps bs es)
  | step_timer_read now st c ps bs es :
      metadata_load st = Ok c ->
      step (mkClusterState now st Monitoring ps bs es) (mkClusterState now st (Checking c now) ps bs es)
  | step_timer_check now st c t ps bs es :
      step (mkClusterState now st (Checking c t) ps bs es)
        (mkClusterState now st
          (match heartbeat_round now c with Some r => Stopped r | None => Monitoring end) ps bs es).

(** The descriptor of a run that starts: nothing registered, nothing terminated. *)
Definition fresh_worker (w : WorkerManagerDescriptor) : Prop :=
  wm_status w = Pending /\ Forall (fun td => td_terminated td = false) (wm_task_descriptors w).

Definition fresh_descriptor (c : ClusterDescriptor) : Prop :=
  cm_status (coordinator_manager c) = Pending /\ NoDup (wm_task_manager_id <$> worker_managers c) /\
  Forall fresh_worker (worker_managers c).

(** The run starts when the coordinator has saved the descriptor and allocated
    one process per worker. *)
Definition init (c0 : ClusterDescriptor) (s : Cluster) : Prop :=
  fresh_descriptor c0 /\ cl_store s = metadata_save c0 None /\ cl_phase s = Waiting /\
  map_Forall (fun _ p => p = proc_new) (cl_procs s) /\ cl_beats s = [] /\ cl_ended s = [].

Definition reachable (c0 : ClusterDescriptor) (s : Cluster) : Prop :=
  exists s0, init c0 s0 /\ rtc step s0 s.

(** ** Lemmas on the store *)
Lemma update_first_map {A} (key : A -> string) k (f : A -> A) l :
  NoDup (key <$> l) ->
  update_first (fun x => bool_decide (key x = k)) f l =
    if decide (k ∈ key <$> l) then Some ((fun x => if decide (key x = k) then f x else x) <$> l) else None.
Proof.
  induction l as [|x l IH]; intros Hnd; cbn [update_first].
  { rewrite decide_False; [done|apply not_elem_of_nil]. }
  rewrite fmap_cons in Hnd. apply NoDup_cons in Hnd as [Hx Hnd]. rewrite !fmap_cons.
  destruct (decide (key x = k)) as [<-|Hne].
  - rewrite bool_decide_true by done. rewrite decide_True by by left. do 2 f_equal.
    symmetry. transitivity (id <$> l); [|apply list_fmap_id]. apply list_fmap_ext. intros i y Hy.
    rewrite decide_False; [done|]. intros E. apply Hx. rewrite <- E. apply list_elem_of_fmap_2.
    by eapply list_elem_of_lookup_2.
  - rewrite bool_decide_false by done. rewrite IH by done. destruct (decide (k ∈ key <$> l)) as [Hin|Hin].
    + rewrite decide_True by by right. done.
    + rewrite decide_False; [done|]. rewrite elem_of_cons. naive_solver.
Qed.

(** What the items do to a worker. *)
Lemma foldl_apply_item items w :
  let w' := foldl apply_item w items in
  wm_status w' = wm_status w /\ wm_latest_heart_beat_ts w' = wm_latest_heart_beat_ts w /\
  wm_task_manager_id w' = wm_task_manager_id w /\
  exists g, wm_task_descriptors w' = g <$> wm_task_descriptors w /\
    forall td, td_task_id (g td) = td_task_id td /\
      (td_terminated (g td) = true <-> td_terminated td = true \/ TaskEnd (td_task_id td) ∈ items).
Proof.
  revert w; induction items as [|item items IH]; intros w; cbn [foldl].
  - split_and!; [done..|]. exists id. rewrite list_fmap_id. split; [done|]. intros td. split; [done|].
    rewrite elem_of_nil. naive_solver.
  - destruct (IH (apply_item w item)) as (-> & -> & -> & g & -> & Hg).
    assert (exists h, wm_task_descriptors (apply_item w item) = h <$> wm_task_descriptors w /\
      forall td, td_task_id (h td) = td_task_id td /\
        (td_terminated (h td) = true <-> td_terminated td = true \/ TaskEnd (td_task_id td) = item)) as (h & Eh & Hh).
    { destruct item; try (exists id; rewrite list_fmap_id; split; [done|]; intros td; split; [done|];
        split; [by left|by intros [|]]); cbn.
      - eexists. split; [done|]. intros td; cbn. case_bool_decide; cbn; split; try done; naive_solver.
      - eexists. split; [done|]. intros td; cbn. case_bool_decide as E; cbn; split; try done; [rewrite E|]; naive_solver. }
    split_and!; [by destruct item..|]. exists (g ∘ h). rewrite Eh, list_fmap_compose. split; [done|].
    intros td. cbn. destruct (Hg (h td)) as [E1 E2], (Hh td) as [E3 E4].
    rewrite E1, E2, E3, E4, elem_of_cons. split; [done|]. naive_solver.
Qed.

Lemma beat_worker_spec now items status w :
  let w' := beat_worker now items status w in
  wm_status w' = status /\ wm_latest_heart_beat_ts w' = now /\ wm_task_manager_id w' = wm_task_manager_id w /\
  exists g, wm_task_descriptors w' = g <$> wm_task_descriptors w /\
    forall td, td_task_id (g td) = td_task_id td /\
      (td_terminated (g td) = true <-> td_terminated td = true \/ TaskEnd (td_task_id td) ∈ items).
Proof. exact (foldl_apply_item items _). Qed.

(** The descriptor after a heartbeat of worker [id], before the flush. *)
Definition beat_cluster (now : Z) (id : string) (items : list HeartbeatItem) (status : ManagerStatus)
    (c : ClusterDescriptor) : ClusterDescriptor :=
  mkCluster (coordinator_manager c)
    ((fun w => if decide (wm_task_manager_id w = id) then beat_worker now items status w else w)
       <$> worker_managers c).

Definition flush_if (b : bool) (c : ClusterDescriptor) : ClusterDescriptor :=
  if b then flush_coordinator_status c else c.

Lemma update_worker_status_eq now c id items status :
  NoDup (wm_task_manager_id <$> worker_managers c) ->
  update_worker_status now (Some c) id items status =
    if decide (id ∈ wm_task_manager_id <$> worker_managers c) then
      let c' := flush_if (existsb is_task_end items) (beat_cluster now id items status c) in
      (Some c', Ok (cm_status (coordinator_manager c')))
    else (Some c, Err ("TaskManager not found, task_manager_id=" +:+ id)).
Proof.
  intros Hnd. unfold update_worker_status.
  rewrite (update_first_map wm_task_manager_id id _ _ Hnd). by case_decide.
Qed.

Lemma flush_workers c : worker_managers (flush_coordinator_status c) = worker_managers c.
Proof. unfold flush_coordinator_status. destruct (count_tasks _). by repeat case_match. Qed.

Lemma flush_if_workers b c : worker_managers (flush_if b c) = worker_managers c.
Proof. destruct b; [apply flush_workers|done]. Qed.

Definition all_terminated (c : ClusterDescriptor) : Prop :=
  Forall (fun td => td_terminated td = true) (cluster_tasks c).
Definition some_terminated (c : ClusterDescriptor) : Prop :=
  Exists (fun td => td_terminated td = true) (cluster_tasks c).

(** The status the flush leaves. *)
Lemma flush_status c :
  (all_terminated c -> cm_status (coordinator_manager (flush_coordinator_status c)) = Terminated) /\
  (~ all_terminated c -> some_terminated c ->
     cm_status (coordinator_manager (flush_coordinator_status c)) = Terminating) /\
  (~ all_terminated c -> ~ some_terminated c -> flush_coordinator_status c = c).
Proof.
  unfold flush_coordinator_status. rewrite count_tasks_spec. cbn zeta. fold (cluster_tasks c).
  unfold all_terminated, some_terminated.
  rewrite <- (filter_length_all (fun t => td_terminated t = true)).
  rewrite <- (filter_length_pos (fun t => td_terminated t = true)).
  destruct (Z.eqb_spec (Z.of_nat (length (cluster_tasks c)))
    (Z.of_nat (length (filter (fun t => td_terminated t = true) (cluster_tasks c))))) as [E|E].
  - split_and!; [done|intros H; by destruct H; lia..].
  - destruct (Z.ltb_spec 0 (Z.of_nat (length (filter (fun t => td_terminated t = true) (cluster_tasks c))))) as [L|L];
      split_and!; try done; intros; lia.
Qed.

(** ** The invariant of a run *)

(** The workers and their tasks, which a run never changes. *)
Definition shape (c : ClusterDescriptor) : list (string * list TaskId) :=
  (fun w => (wm_task_manager_id w, td_task_id <$> wm_task_descriptors w)) <$> worker_managers c.

Definition all_registered (c : ClusterDescriptor) : Prop :=
  Forall (fun w => wm_status w = Registered) (worker_managers c).

(** The timestamp of a registered worker is the time of its last heartbeat, as
    far as heartbeats before [t] are concerned. *)
Definition beats_ok (bs : list (string * Z)) (t : Z) (c : ClusterDescriptor) : Prop :=
  forall w, w ∈ worker_managers c -> wm_status w = Registered ->
    (wm_task_manager_id w, wm_latest_heart_beat_ts w) ∈ bs /\
    forall b, (wm_task_manager_id w, b) ∈ bs -> b <= wm_latest_heart_beat_ts w \/ t <= b.

Definition ended_ok (es : list TaskId) (c : ClusterDescriptor) : Prop :=
  forall td, td ∈ cluster_tasks c -> td_terminated td = true -> td_task_id td ∈ es.

(** Past the registration: everyone is registered, and the status says
    [Terminated] only when every task is. *)
Definition running_ok (c : ClusterDescriptor) : Prop :=
  all_registered c /\
  (cm_status (coordinator_manager c) = Registered \/ cm_status (coordinator_manager c) = Terminating \/
   cm_status (coordinator_manager c) = Terminated /\ all_terminated c).

Definition phase_ok (c : ClusterDescriptor) (ph : Phase) : Prop :=
  match ph with
  | Waiting => cm_status (coordinator_manager c) = Pending
  | Confirmed => cm_status (coordinator_manager c) = Pending /\ all_registered c
  | _ => running_ok c
  end.

(** The descriptor the heartbeat timer has read. *)
Definition snapshot_ok (c0 : ClusterDescriptor) (now : Z) (bs : list (string * Z)) (es : list TaskId) (ph : Phase) : Prop :=
  match ph with
  | Checking c t => shape c = shape c0 /\ running_ok c /\ ended_ok es c /\ beats_ok bs t c /\ t <= now
  | Stopped HR_End => exists c, shape c = shape c0 /\ all_terminated c /\ ended_ok es c
  | _ => True
  end.

Definition started_phase (ph : Phase) : Prop := match ph with Waiting | Confirmed => False | _ => True end.

Definition proc_ok (ph : Phase) (es : list TaskId) (p : WorkerProc) : Prop :=
  (wp_started p = true -> started_phase ph) /\
  (forall t, TaskEnd t ∈ wp_channel p -> t ∈ es /\ wp_started p = true).

Record run_inv (c0 : ClusterDescriptor) (s : Cluster) : Prop := mkInv {
  inv_store : exists c, cl_store s = Some c /\ shape c = shape c0 /\ phase_ok c (cl_phase s) /\
    ended_ok (cl_ended s) c /\ beats_ok (cl_beats s) (cl_now s + 1) c;
  inv_ids : NoDup (shape c0).*1;
  inv_log : Forall (fun b => b.2 <= cl_now s) (cl_beats s);
  inv_procs : map_Forall (fun _ => proc_ok (cl_phase s) (cl_ended s)) (cl_procs s);
  inv_snapshot : snapshot_ok c0 (cl_now s) (cl_beats s) (cl_ended s) (cl_phase s)
}.

Lemma shape_ids c : (shape c).*1 = wm_task_manager_id <$> worker_managers c.
Proof. unfold shape. rewrite <- list_fmap_compose. done. Qed.

Lemma elem_of_cluster_tasks c td :
  td ∈ cluster_tasks c <-> exists w, w ∈ worker_managers c /\ td ∈ wm_task_descriptors w.
Proof. unfold cluster_tasks. rewrite list_elem_of_bind. naive_solver. Qed.

Lemma elem_of_beat_workers now id items status c w' :
  w' ∈ worker_managers (beat_cluster now id items status c) ->
  exists w, w ∈ worker_managers c /\
    ((wm_task_manager_id w = id /\ w' = beat_worker now items status w) \/ (wm_task_manager_id w <> id /\ w' = w)).
Proof. cbn. intros (w & -> & Hin)%list_elem_of_fmap. exists w. split; [done|]. case_decide; auto. Qed.

Lemma shape_beat now id items status c : shape (beat_cluster now id items status c) = shape c.
Proof.
  unfold shape. cbn. rewrite <- list_fmap_compose. apply list_fmap_ext. intros i w _. cbn.
  case_decide; [|done]. destruct (beat_worker_spec now items status w) as (_ & _ & -> & g & -> & Hg).
  f_equal. rewrite <- list_fmap_compose. apply list_fmap_ext. intros j td _. cbn. apply Hg.
Qed.

Lemma shape_flush_if b c : shape (flush_if b c) = shape c.
Proof. unfold shape. by rewrite flush_if_workers. Qed.

(** A task of the descriptor after a heartbeat. *)
Lemma elem_of_beat_tasks now id items status c td' :
  td' ∈ cluster_tasks (beat_cluster now id items status c) ->
  exists td, td ∈ cluster_tasks c /\ td_task_id td' = td_task_id td /\
    (td_terminated td' = true -> td_terminated td = true \/ TaskEnd (td_task_id td) ∈ items).
Proof.
  intros (w' & Hw & Htd)%elem_of_cluster_tasks. apply elem_of_beat_workers in Hw as (w & Hw & [[Hid ->]|[_ ->]]).
  - destruct (beat_worker_spec now items status w) as (_ & _ & _ & g & Eg & Hg). rewrite Eg in Htd.
    apply list_elem_of_fmap in Htd as (td & -> & Hin). exists td. destruct (Hg td) as [H1 H2].
    rewrite elem_of_cluster_tasks. split_and!; [by eauto|done|by apply H2].
  - exists td'. rewrite elem_of_cluster_tasks. split_and!; [by eauto|done|by left].
Qed.

(** Terminated tasks stay terminated. *)
Lemma all_terminated_beat now id items status c :
  all_terminated c -> all_terminated (beat_cluster now id items status c).
Proof.
  unfold all_terminated. rewrite !Forall_forall. intros H td' (w' & Hw & Htd)%elem_of_cluster_tasks.
  apply elem_of_beat_workers in Hw as (w & Hw & [[Hid ->]|[_ ->]]).
  - destruct (beat_worker_spec now items status w) as (_ & _ & _ & g & Eg & Hg). rewrite Eg in Htd.
    apply list_elem_of_fmap in Htd as (td & -> & Hin). apply Hg. left. apply H, elem_of_cluster_tasks. eauto.
  - apply H, elem_of_cluster_tasks. eauto.
Qed.

Lemma flush_if_status_cases b c :
  (cm_status (coordinator_manager (flush_if b c)) = cm_status (coordinator_manager c)) \/
  cm_status (coordinator_manager (flush_if b c)) = Terminating \/
  cm_status (coordinator_manager (flush_if b c)) = Terminated /\ all_terminated (flush_if b c).
Proof.
  destruct b; cbn [flush_if]; [|by left]. destruct (flush_status c) as (H1 & H2 & H3).
  unfold all_terminated in *. unfold cluster_tasks at 1. rewrite flush_workers. fold (cluster_tasks c).
  destruct (decide (Forall (fun td => td_terminated td = true) (cluster_tasks c))) as [Ha|Ha]; [by auto|].
  destruct (decide (Exists (fun td => td_terminated td = true) (cluster_tasks c))) as [He|He]; [by auto|].
  left. by rewrite H3.
Qed.

Lemma flush_if_all_terminated b c : all_terminated (flush_if b c) <-> all_terminated c.
Proof. unfold all_terminated, cluster_tasks. by rewrite flush_if_workers. Qed.

(** Once every task is terminated, the flush says so. *)
Lemma flush_if_keeps_terminated b c :
  cm_status (coordinator_manager c) = Terminated -> all_terminated c ->
  cm_status (coordinator_manager (flush_if b c)) = Terminated.
Proof. intros Hs Ha. destruct b; [|done]. by apply flush_status. Qed.

Lemma beat_running_ok now id items c b :
  running_ok c -> running_ok (flush_if b (beat_cluster now id items Registered c)).
Proof.
  intros [Hreg Hst]. split.
  - unfold all_registered in *. rewrite flush_if_workers, Forall_forall in *.
    intros w' (w & Hw & [[_ ->]|[_ ->]])%elem_of_beat_workers; [by apply beat_worker_spec|by apply Hreg].
  - destruct Hst as [Hs|[Hs|[Hs Ha]]].
    1-2: destruct (flush_if_status_cases b (beat_cluster now id items Registered c)) as [E|[E|E]]; [|by auto..];
      rewrite E; cbn; rewrite Hs; auto.
    right. right. split; [|by apply flush_if_all_terminated, all_terminated_beat].
    apply flush_if_keeps_terminated; [done|by apply all_terminated_beat].
Qed.

Lemma ended_beat now id items status es c b :
  ended_ok es c -> (forall t, TaskEnd t ∈ items -> t ∈ es) ->
  ended_ok es (flush_if b (beat_cluster now id items status c)).
Proof.
  intros He Hi td'. unfold cluster_tasks. rewrite flush_if_workers.
  intros (td & Hin & -> & Ht)%elem_of_beat_tasks Htm. destruct (Ht Htm) as [?|?]; [by apply He|by apply Hi].
Qed.

Lemma beats_beat now id items bs c b :
  Forall (fun b => b.2 <= now) bs -> beats_ok bs (now + 1) c ->
  beats_ok ((id, now) :: bs) (now + 1) (flush_if b (beat_cluster now id items Registered c)).
Proof.
  intros Hlog Hb w'. rewrite flush_if_workers, Forall_forall in *.
  intros (w & Hw & [[<- ->]|[Hne ->]])%elem_of_beat_workers Hreg.
  - destruct (beat_worker_spec now items Registered w) as (_ & -> & -> & _). split; [by left|].
    intros b' [E|Hin]%elem_of_cons; [simplify_eq; lia|]. apply Hlog in Hin. cbn in Hin. lia.
  - destruct (Hb w Hw Hreg) as [H1 H2]. split; [by right|].
    intros b' [E|Hin]%elem_of_cons; [simplify_eq|by apply H2].
Qed.

(** A heartbeat handled now is no news for a descriptor read before. *)
Lemma beats_ok_cons bs t c id now : beats_ok bs t c -> t <= now -> beats_ok ((id, now) :: bs) t c.
Proof.
  intros H Ht w Hw Hr. destruct (H w Hw Hr) as [H1 H2]. split; [by right|].
  intros b [E|Hin]%elem_of_cons; [simplify_eq; lia|by apply H2].
Qed.

Lemma beats_ok_later bs t t' c : Forall (fun b => b.2 < t) bs -> beats_ok bs t c -> beats_ok bs t' c.
Proof.
  intros Hlog H w Hw Hr. destruct (H w Hw Hr) as [H1 H2]. split; [done|]. intros b Hb.
  destruct (H2 b Hb); [by left|]. rewrite Forall_forall in Hlog. apply Hlog in Hb. cbn in Hb. lia.
Qed.

Lemma ended_ok_app es es' c : ended_ok es c -> ended_ok (es' ++ es) c.
Proof. intros H td Hin Ht. apply elem_of_app. right. by apply H. Qed.

(** Without a [TaskEnd] the status stays. *)
Lemma beat_pending_status now id items c :
  existsb is_task_end items = false ->
  coordinator_manager (flush_if (existsb is_task_end items) (beat_cluster now id items Registered c)) =
    coordinator_manager c.
Proof. by intros ->. Qed.

Lemma report_items_task_end p items t : TaskEnd t ∈ report_items p items <-> TaskEnd t ∈ items.
Proof.
  unfold report_items. destruct (List.find _ items); [done|].
  rewrite elem_of_app, list_elem_of_singleton. naive_solver.
Qed.

Lemma no_task_end items : (forall t, TaskEnd t ∉ items) -> existsb is_task_end items = false.
Proof.
  intros H. destruct (existsb is_task_end items) eqn:E; [|done].
  apply existsb_exists in E as (i & Hin & Hi). destruct i; try done. apply list_elem_of_In in Hin. by destruct (H task_id).
Qed.

Lemma beat_registered now id items c :
  all_registered c -> forall b, all_registered (flush_if b (beat_cluster now id items Registered c)).
Proof.
  intros Hreg b. unfold all_registered in *. rewrite flush_if_workers, Forall_forall in *.
  intros w' (w & Hw & [[_ ->]|[_ ->]])%elem_of_beat_workers; [by apply beat_worker_spec|by apply Hreg].
Qed.

(** The phases survive a heartbeat whose sender has started only if they have. *)
Lemma beat_phase_ok now id items c ph :
  phase_ok c ph -> (existsb is_task_end items = true -> started_phase ph) ->
  phase_ok (flush_if (existsb is_task_end items) (beat_cluster now id items Registered c)) ph.
Proof.
  intros Hph Hs. destruct ph; cbn in Hph |- *; try by apply beat_running_ok.
  - destruct (existsb is_task_end items) eqn:E; [by destruct (Hs eq_refl)|done].
  - destruct (existsb is_task_end items) eqn:E; [by destruct (Hs eq_refl)|].
    split; [by apply Hph|]. apply (beat_registered now id items c (proj2 Hph) false).
Qed.

Lemma snapshot_ok_beat c0 now bs es ph id r :
  snapshot_ok c0 now bs es ph -> snapshot_ok c0 now (handled id now r ++ bs) es ph.
Proof.
  intros H. destruct ph; try done. cbn in *. destruct H as (H1 & H2 & H3 & H4 & H5). split_and!; try done.
  destruct r; cbn; [by apply beats_ok_cons|done..].
Qed.

Lemma unregister_worker_None c : unregister_worker c = None -> all_registered c.
Proof.
  unfold unregister_worker, all_registered. intros H. rewrite Forall_forall. intros w Hw.
  pose proof (List.find_none _ _ H w (proj1 (list_elem_of_In _ _) Hw)) as E. cbn in E.
  by destruct (decide (wm_status w = Registered)); [|rewrite bool_decide_false in E].
Qed.

Lemma init_inv c0 s : init c0 s -> run_inv c0 s.
Proof.
  intros ((Hp & Hnd & Hf) & Hst & Hph & Hps & Hbs & Hes). split.
  - exists c0. rewrite Hst, Hph, Hes, Hbs. split_and!; [done..| |].
    + intros td (w & Hw & Htd)%elem_of_cluster_tasks Ht. rewrite Forall_forall in Hf.
      destruct (Hf w Hw) as [_ Hn]. rewrite Forall_forall in Hn. apply Hn in Htd. congruence.
    + intros w Hw Hr. rewrite Forall_forall in Hf. destruct (Hf w Hw) as [Hn _]. congruence.
  - by rewrite shape_ids.
  - rewrite Hbs. constructor.
  - rewrite Hph, Hes. intros id p Hid. rewrite (Hps id p Hid). split; [done|]. by intros t []%elem_of_nil.
  - by rewrite Hph.
Qed.

Lemma proc_ok_insert (ps : gmap string WorkerProc) ph es es' id p' :
  map_Forall (fun _ => proc_ok ph es) ps -> (forall t, t ∈ es -> t ∈ es') -> proc_ok ph es' p' ->
  map_Forall (fun _ => proc_ok ph es') (<[id := p']> ps).
Proof.
  intros Hps Hes Hp'. apply map_Forall_insert_2; [done|]. intros i q Hq. destruct (Hps i q Hq) as [H1 H2].
  split; [done|]. intros t Ht. destruct (H2 t Ht). auto.
Qed.

(** A heartbeat preserves the invariant. *)
Lemma step_beat_inv c0 now st ph ps bs es id p st' r a :
  run_inv c0 (mkClusterState now st ph ps bs es) -> ps !! id = Some p ->
  update_worker_status now st id (report_items (wp_panic p) (wp_channel p)) Registered = (st', r) ->
  run_inv c0 (mkClusterState now st' ph (<[id := mkProc [] (wp_started p) (wp_panic p) a]> ps)
                (handled id now r ++ bs) es).
Proof.
  intros [(c & Hst & Hsh & Hph & He & Hb) Hids Hlog Hps Hsn] Hp Hu. cbn in *. subst st.
  set (items := report_items _ _) in Hu. destruct (Hps id p Hp) as [Hs1 Hs2].
  assert (forall t, TaskEnd t ∈ items -> t ∈ es /\ wp_started p = true) as Hi
    by (intros t ?%report_items_task_end; by apply Hs2).
  assert (existsb is_task_end items = true -> started_phase ph) as Hsp.
  { intros E. apply Hs1. apply existsb_exists in E as (i & Hin & Hi'). destruct i; try done.
    apply list_elem_of_In in Hin. by apply (Hi task_id). }
  rewrite update_worker_status_eq in Hu by (by rewrite <- shape_ids, Hsh).
  split; cbn; [| done | | |].
  - case_decide; simplify_eq/=.
    + eexists. split; [done|]. split_and!.
      * by rewrite shape_flush_if, shape_beat.
      * by apply beat_phase_ok.
      * apply ended_beat; [done|]. intros t Ht. by apply Hi.
      * by apply beats_beat.
    + exists c. by split_and!.
  - destruct r; cbn; [|done..]. constructor; [cbn; lia|done].
  - eapply proc_ok_insert; [done|done|]. split; [done|]. by intros t []%elem_of_nil.
  - by apply snapshot_ok_beat.
Qed.

Lemma proc_ok_phase (ps : gmap string WorkerProc) ph ph' es :
  (started_phase ph -> started_phase ph') -> map_Forall (fun _ => proc_ok ph es) ps ->
  map_Forall (fun _ => proc_ok ph' es) ps.
Proof. intros Hph Hps i p Hp. destruct (Hps i p Hp) as [H1 H2]. split; auto. Qed.

(** The check of the heartbeat timer. *)
Lemma step_check_inv c0 now st c t ps bs es :
  run_inv c0 (mkClusterState now st (Checking c t) ps bs es) ->
  run_inv c0 (mkClusterState now st
    (match heartbeat_round now c with Some r => Stopped r | None => Monitoring end) ps bs es).
Proof.
  intros [(c1 & Hst & Hsh & Hph & He & Hb) Hids Hlog Hps Hsn]. cbn in *.
  destruct Hsn as (Hsc & [_ Hrun] & Hec & _ & _).
  split; cbn; [| done | done | |].
  - exists c1. split_and!; try done. by repeat case_match.
  - eapply proc_ok_phase; [|done]. by repeat case_match.
  - unfold heartbeat_round. case_bool_decide as E; [|by destruct (existsb _ _)].
    exists c. split_and!; try done. rewrite E in Hrun. by destruct Hrun as [|[|[_ ?]]].
Qed.

Lemma snapshot_ok_later c0 now now' bs es ph :
  now <= now' -> snapshot_ok c0 now bs es ph -> snapshot_ok c0 now' bs es ph.
Proof. intros Hle H. destruct ph; try done. cbn in *. destruct H as (?&?&?&?&?). split_and!; try done. lia. Qed.

Lemma snapshot_ok_ended c0 now bs es es' ph :
  snapshot_ok c0 now bs es ph -> snapshot_ok c0 now bs (es' ++ es) ph.
Proof.
  intros H. destruct ph as [| | | |[|]]; try done; cbn in *.
  - destruct H as (?&?&?&?&?). split_and!; try done. by apply ended_ok_app.
  - destruct H as (c&?&?&?). exists c. split_and!; try done. by apply ended_ok_app.
Qed.

Lemma step_inv c0 s s' : step s s' -> run_inv c0 s -> run_inv c0 s'.
Proof.
  intros Hstep. destruct Hstep as [now st ph ps bs es now' Hle|now c ph ps bs es id p item Hp Hm
    |now st ph ps bs es id p Hp|now st ph ps bs es id p st' r a Hp Hu|now st ph ps bs es id p Hp
    |now c ph ps bs es id p Hp Hl Hr|now st c ps bs es Hl Hu|now st st' ps bs es Hu|now st c ps bs es Hl
    |now st c t ps bs es].
  4: by intros; eapply step_beat_inv.
  9: by apply step_check_inv.
  all: intros [(c1 & Hst & Hsh & Hph & He & Hb) Hids Hlog Hps Hsn]; cbn in *.
  - split; cbn; [|done| |done|by eapply snapshot_ok_later].
    + exists c1. split_and!; try done. eapply beats_ok_later; [|done].
      eapply Forall_impl; [done|]. cbn. lia.
    + eapply Forall_impl; [done|]. cbn. lia.
  - simplify_eq. split; cbn; [|done|done| |by apply snapshot_ok_ended].
    + exists c1. split_and!; try done. by apply ended_ok_app.
    + destruct (Hps id p Hp) as [H1 H2]. eapply proc_ok_insert; [done|intros; apply elem_of_app; by right|].
      split; [done|]. cbn. intros t [Ht|Ht%list_elem_of_singleton]%elem_of_app.
      * destruct (H2 t Ht). split; [apply elem_of_app; by right|done].
      * subst item. cbn in Hm |- *. split; [by left|by destruct Hm].
  - split; cbn; [by exists c1|done|done| |done].
    eapply proc_ok_insert; [done|done|]. by destruct (Hps id p Hp).
  - split; cbn; [by exists c1|done|done| |done].
    eapply proc_ok_insert; [done|done|]. destruct (Hps id p Hp) as [H1 _]. split; [done|]. by intros t []%elem_of_nil.
  - simplify_eq. split; cbn; [by exists c1|done|done| |done].
    eapply proc_ok_insert; [done|done|]. destruct (Hps id p Hp) as [H1 H2]. split; cbn.
    + intros _. destruct ph; cbn in *; [congruence|destruct Hph; congruence|done..].
    + intros t Ht. by destruct (H2 t Ht).
  - subst st. cbn in Hl. simplify_eq. split; cbn; [|done|done| |done].
    + exists c. split_and!; try done. by apply unregister_worker_None.
    + by eapply proc_ok_phase.
  - subst st. cbn in Hu. simplify_eq. split; cbn; [|done|done|by eapply proc_ok_phase|done].
    eexists. split; [done|]. split_and!; try done. split; [by apply Hph|by left].
  - subst st. cbn in Hl. simplify_eq. split; cbn; [by exists c|done|done|by eapply proc_ok_phase|].
    split_and!; try done. eapply beats_ok_later; [|done]. eapply Forall_impl; [done|]. cbn. lia.
Qed.

Lemma reachable_inv c0 s : reachable c0 s -> run_inv c0 s.
Proof.
  intros (s0 & Hi & Hr). apply init_inv in Hi. induction Hr as [s|s s1 s2 H1 H2 IH]; [done|].
  apply IH. by eapply step_inv.
Qed.

(** ** Claims about a run *)
Lemma shape_tasks c c0 t : shape c = shape c0 ->
  (exists td, td ∈ cluster_tasks c0 /\ td_task_id td = t) -> exists td, td ∈ cluster_tasks c /\ td_task_id td = t.
Proof.
  intros Hsh (td & (w & Hw & Htd)%elem_of_cluster_tasks & <-).
  assert ((wm_task_manager_id w, td_task_id <$> wm_task_descriptors w) ∈ shape c) as Hin.
  { rewrite Hsh. unfold shape. apply list_elem_of_fmap. by exists w. }
  unfold shape in Hin. apply list_elem_of_fmap in Hin as (w' & E & Hw'). injection E as _ E.
  assert (td_task_id td ∈ td_task_id <$> wm_task_descriptors w') as (td' & E' & Htd')%list_elem_of_fmap.
  { rewrite <- E. by apply list_elem_of_fmap_2. }
  exists td'. split; [|done]. apply elem_of_cluster_tasks. eauto.
Qed.

Lemma stopped_end_ended c0 s td :
  run_inv c0 s -> cl_phase s = Stopped HR_End -> td ∈ cluster_tasks c0 -> td_task_id td ∈ cl_ended s.
Proof.
  intros [_ _ _ _ Hsn] Hph Hin. rewrite Hph in Hsn. destruct Hsn as (c & Hsh & Ha & He).
  destruct (shape_tasks c c0 (td_task_id td) Hsh) as (td' & Hin' & <-); [by exists td|].
  apply He; [done|]. unfold all_terminated in Ha. rewrite Forall_forall in Ha. by apply Ha.
Qed.

(** C7: The coordinator ends a run only when the whole job has ended: whatever
    the interleaving of heartbeats, losses and polls, when the heartbeat timer
    returns [End], every task of every worker has announced its end. *)
Theorem run_end_sound c0 s :
  reachable c0 s -> cl_phase s = Stopped HR_End ->
  forall td, td ∈ cluster_tasks c0 -> td_task_id td ∈ cl_ended s.
Proof. intros Hr Hph td Hin. eapply stopped_end_ended; [by apply reachable_inv|done|done]. Qed.

Lemma shape_worker c c0 id : shape c = shape c0 ->
  id ∈ wm_task_manager_id <$> worker_managers c0 -> exists w, w ∈ worker_managers c /\ wm_task_manager_id w = id.
Proof.
  intros Hsh Hin. rewrite <- shape_ids, <- Hsh, shape_ids in Hin.
  apply list_elem_of_fmap in Hin as (w & -> & Hw). by exists w.
Qed.

Lemma heartbeat_late_spec now w : wm_latest_heart_beat_ts w <= now ->
  heartbeat_late now w = true <-> wm_latest_heart_beat_ts w + 51000 <= now.
Proof.
  intros Hle. unfold heartbeat_late. destruct (Z.ltb_spec now (wm_latest_heart_beat_ts w)); [lia|].
  rewrite Z.ltb_lt. split; intros H1.
  - pose proof (Z.mul_div_le (now - wm_latest_heart_beat_ts w) 1000 ltac:(lia)). lia.
  - assert (51 <= (now - wm_latest_heart_beat_ts w) / 1000); [|lia]. apply Z.div_le_lower_bound; lia.
Qed.

(** The last heartbeat of [id] before [t]. *)
Definition last_beat (bs : list (string * Z)) (t : Z) (id : string) (last : Z) : Prop :=
  (id, last) ∈ bs /\ forall b, (id, b) ∈ bs -> b <= last \/ t <= b.

(** The heartbeat timer judges the workers by their last heartbeats. When it
    has read the descriptor at time [t] and answers [Timeout], some worker's last
    heartbeat before [t] is at least 51 seconds old; when it goes on, every
    worker has one that is younger. *)
Theorem heartbeat_timeout_sound c0 s c t :
  reachable c0 s -> cl_phase s = Checking c t ->
  (heartbeat_round (cl_now s) c = Some HR_Timeout ->
     exists id last, id ∈ wm_task_manager_id <$> worker_managers c0 /\
       last_beat (cl_beats s) t id last /\ last + 51000 <= cl_now s) /\
  (heartbeat_round (cl_now s) c = None ->
     forall id, id ∈ wm_task_manager_id <$> worker_managers c0 ->
       exists last, last_beat (cl_beats s) t id last /\ cl_now s < last + 51000).
Proof.
  intros [_ Hids Hlog _ Hsn]%reachable_inv Hph. rewrite Hph in Hsn. destruct Hsn as (Hsh & [Hreg _] & _ & Hb & Ht).
  unfold all_registered in Hreg. rewrite Forall_forall in Hreg. rewrite Forall_forall in Hlog.
  assert (forall w, w ∈ worker_managers c ->
    last_beat (cl_beats s) t (wm_task_manager_id w) (wm_latest_heart_beat_ts w) /\
    wm_latest_heart_beat_ts w <= cl_now s) as Hw.
  { intros w Hin. destruct (Hb w Hin (Hreg w Hin)) as [H1 H2]. split; [by split|]. by apply Hlog in H1. }
  unfold heartbeat_round. case_bool_decide; [by split|].
  destruct (existsb (heartbeat_late (cl_now s)) (worker_managers c)) eqn:E; (split; [intros Hd|intros Hd]); try done.
  - apply existsb_exists in E as (w & Hin%list_elem_of_In & Hl). destruct (Hw w Hin) as [H1 H2].
    exists (wm_task_manager_id w), (wm_latest_heart_beat_ts w). split_and!; [|done|by apply heartbeat_late_spec].
    rewrite <- shape_ids, <- Hsh, shape_ids. by apply list_elem_of_fmap_2.
  - intros id (w & Hin & <-)%(shape_worker c c0 id Hsh). destruct (Hw w Hin) as [H1 H2].
    exists (wm_latest_heart_beat_ts w). split; [done|].
    destruct (heartbeat_late (cl_now s) w) eqn:El.
    + exfalso. assert (existsb (heartbeat_late (cl_now s)) (worker_managers c) = true); [|congruence].
      apply existsb_exists. exists w. by rewrite <- list_elem_of_In.
    + pose proof (heartbeat_late_spec (cl_now s) w H2) as Hls. rewrite El in Hls.
      apply Z.nle_gt. intros Hle%Hls. done.
Qed.

(** No task is started before the whole cluster is up: when some worker
    process runs its tasks, the coordinator has handled a heartbeat of every
    worker, and each is stored as registered. *)
Theorem tasks_start_after_registration c0 s id p :
  reachable c0 s -> cl_procs s !! id = Some p -> wp_started p = true ->
  exists c, cl_store s = Some c /\ all_registered c /\
    forall id', id' ∈ wm_task_manager_id <$> worker_managers c0 -> exists b, (id', b) ∈ cl_beats s.
Proof.
  intros [(c & Hst & Hsh & Hph & _ & Hb) _ _ Hps _]%reachable_inv Hp Hs.
  destruct (Hps id p Hp) as [Hsp _]. specialize (Hsp Hs).
  assert (all_registered c) as Hreg by (destruct (cl_phase s); try done; by destruct Hph).
  exists c. split_and!; [done..|]. intros id' (w & Hw & <-)%(shape_worker c c0 id' Hsh).
  unfold all_registered in Hreg. rewrite Forall_forall in Hreg.
  exists (wm_latest_heart_beat_ts w). by apply Hb; [|apply Hreg].
Qed.

(** ** A worker that polls too late *)
Definition past_registered (st : MetadataStore) : Prop :=
  exists c, st = Some c /\
    (cm_status (coordinator_manager c) = Terminating \/ cm_status (coordinator_manager c) = Terminated).

Definition left_behind (t : TaskId) (id : string) (s : Cluster) : Prop :=
  past_registered (cl_store s) /\ t ∉ cl_ended s /\
  exists p, cl_procs s !! id = Some p /\ wp_started p = false.

Lemma has_task_shape c c0 id t : shape c = shape c0 -> has_task c id t -> has_task c0 id t.
Proof.
  intros Hsh (w & td & Hw & <- & Htd & <-).
  assert ((wm_task_manager_id w, td_task_id <$> wm_task_descriptors w) ∈ shape c0) as Hin.
  { rewrite <- Hsh. unfold shape. apply list_elem_of_fmap. by exists w. }
  unfold shape in Hin. apply list_elem_of_fmap in Hin as (w' & E & Hw'). injection E as E1 E2.
  assert (td_task_id td ∈ td_task_id <$> wm_task_descriptors w') as (td' & E' & Htd')%list_elem_of_fmap.
  { rewrite <- E2. by apply list_elem_of_fmap_2. }
  exists w', td'. split_and!; try done.
Qed.

Lemma left_behind_proc t id s id' p p' now ph bs es st :
  left_behind t id s -> cl_procs s !! id' = Some p -> (wp_started p = false -> wp_started p' = false) ->
  past_registered st -> t ∉ es ->
  left_behind t id (mkClusterState now st ph (<[id' := p']> (cl_procs s)) bs es).
Proof.
  intros (_ & _ & q & Hq & Hs) Hp Hpp Hpast Hes. split_and!; [done|done|]. cbn.
  destruct (decide (id' = id)) as [->|Hne].
  - exists p'. rewrite lookup_insert_eq. split; [done|]. apply Hpp. congruence.
  - exists q. by rewrite lookup_insert_ne.
Qed.

Lemma past_registered_beat now st id items st' r :
  past_registered st -> (forall c, st = Some c -> NoDup (wm_task_manager_id <$> worker_managers c)) ->
  update_worker_status now st id items Registered = (st', r) -> past_registered st'.
Proof.
  intros (c & -> & Hc) Hnd. rewrite update_worker_status_eq by by apply Hnd. case_decide; intros; simplify_eq/=.
  - eexists. split; [done|]. destruct (flush_if_status_cases (existsb is_task_end items)
      (beat_cluster now id items Registered c)) as [E|[E|[E _]]]; rewrite E; auto.
  - by exists c.
Qed.

Lemma left_behind_step c0 t id s s' :
  (forall id', has_task c0 id' t -> id' = id) -> run_inv c0 s -> step s s' -> left_behind t id s -> left_behind t id s'.
Proof.
  intros Huniq Hinv Hstep Hl. pose proof Hl as (Hpast & Hes & q & Hq & Hqs).
  destruct Hinv as [(c1 & Hst & Hsh & Hph & _) Hids _ _ _].
  destruct Hstep as [now st ph ps bs es now' Hle|now c ph ps bs es id1 p item Hp Hm
    |now st ph ps bs es id1 p Hp|now st ph ps bs es id1 p st' r a Hp Hu|now st ph ps bs es id1 p Hp
    |now c ph ps bs es id1 p Hp Hld Hr|now st c ps bs es Hld Hu|now st st' ps bs es Hu|now st c ps bs es Hld
    |now st c t1 ps bs es]; cbn in *.
  - done.
  - apply (left_behind_proc t id _ id1 p _ now ph bs (ended_by item ++ es) (Some c) Hl); cbn; try done.
    rewrite elem_of_app. intros [Ht|Ht]; [|done]. destruct item; cbn in Ht; try by apply elem_of_nil in Ht.
    apply list_elem_of_singleton in Ht as <-. destruct Hm as [Hm1 Hm2].
    assert (c1 = c) as -> by congruence. apply (has_task_shape c c0) in Hm2; [|done].
    rewrite (Huniq id1 Hm2) in Hp. congruence.
  - by apply (left_behind_proc t id _ id1 p _ now ph bs es st Hl).
  - apply (left_behind_proc t id _ id1 p _ now ph _ es st' Hl); cbn; try done.
    eapply past_registered_beat; [done| |done]. intros c ->. simplify_eq. by rewrite <- shape_ids, Hsh.
  - by apply (left_behind_proc t id _ id1 p _ now ph bs es st Hl).
  - destruct Hpast as (c' & ? & [?|?]); simplify_eq; congruence.
  - done.
  - destruct Hpast as (c' & -> & Hc'), Hph as [Hph _]. simplify_eq. rewrite Hph in Hc'. by destruct Hc'.
  - done.
  - done.
Qed.

(** C39: A worker that asks for the status too late is left behind. Once the
    tasks of other workers have ended and the status is past [Registered], a
    worker process that has not started its tasks never starts them, and the run
    never ends: [waiting_all_task_manager_fine0] waits for [Registered] only. *)
Theorem late_worker_stuck c0 s t id :
  reachable c0 s -> has_task c0 id t -> (forall id', has_task c0 id' t -> id' = id) ->
  past_registered (cl_store s) -> t ∉ cl_ended s ->
  (exists p, cl_procs s !! id = Some p /\ wp_started p = false) ->
  forall s', rtc step s s' ->
    (exists p, cl_procs s' !! id = Some p /\ wp_started p = false) /\ cl_phase s' <> Stopped HR_End.
Proof.
  intros Hr Hown Huniq Hpast Hes Hp s' Hss.
  assert (run_inv c0 s' /\ left_behind t id s') as [Hinv (_ & Hes' & Hp')].
  { assert (run_inv c0 s /\ left_behind t id s) as [Hinv Hl] by (split; [by apply reachable_inv|by split_and!]).
    clear -Huniq Hss Hinv Hl. induction Hss as [s|s s1 s2 H1 H2 IH]; [done|].
    apply IH; [by eapply step_inv|by eapply left_behind_step]. }
  split; [done|]. intros Hph. destruct Hown as (w & td & Hw & _ & Htd & <-). apply Hes'.
  eapply stopped_end_ended; [done|done|]. apply elem_of_cluster_tasks. eauto.
Qed.

(** ** The handler and the restore, as functions *)

(** What a heartbeat does to the store. Without a descriptor, or for an
    unknown worker, it is an error and nothing changes. Otherwise only the
    sender's entry changes: it gets the status, the time, and among its tasks
    exactly those with a [TaskEnd] item become terminated. The answer is the
    stored coordinator status, which changes only with a [TaskEnd]: to
    [Terminated] when every task of the cluster is terminated, to [Terminating]
    when only some are. *)
Theorem update_worker_status_spec now c id items status :
  NoDup (wm_task_manager_id <$> worker_managers c) ->
  update_worker_status now None id items status = (None, Err "ClusterDescriptor not found"%string) /\
  (id ∉ wm_task_manager_id <$> worker_managers c ->
     update_worker_status now (Some c) id items status =
       (Some c, Err ("TaskManager not found, task_manager_id=" +:+ id))) /\
  (id ∈ wm_task_manager_id <$> worker_managers c ->
     exists c', update_worker_status now (Some c) id items status =
                  (Some c', Ok (cm_status (coordinator_manager c'))) /\
       Forall2 (fun w w' =>
         (wm_task_manager_id w <> id -> w' = w) /\
         (wm_task_manager_id w = id ->
            wm_task_manager_id w' = id /\ wm_status w' = status /\ wm_latest_heart_beat_ts w' = now /\
            Forall2 (fun td td' => td_task_id td' = td_task_id td /\
              (td_terminated td' = true <-> td_terminated td = true \/ TaskEnd (td_task_id td) ∈ items))
              (wm_task_descriptors w) (wm_task_descriptors w')))
         (worker_managers c) (worker_managers c') /\
       ((forall t, TaskEnd t ∉ items) -> coordinator_manager c' = coordinator_manager c) /\
       (forall t, TaskEnd t ∈ items ->
          (all_terminated c' -> cm_status (coordinator_manager c') = Terminated) /\
          (~ all_terminated c' -> some_terminated c' -> cm_status (coordinator_manager c') = Terminating) /\
          (~ some_terminated c' -> ~ all_terminated c' -> coordinator_manager c' = coordinator_manager c))).
Proof.
  intros Hnd. split; [done|]. rewrite update_worker_status_eq by done. split; intros Hid.
  { by rewrite decide_False. }
  rewrite decide_True by done. eexists. split; [done|]. rewrite flush_if_workers. split_and!.
  - cbn. apply Forall2_fmap_r, Forall_Forall2_diag, Forall_forall. intros w _. split; intros Hw.
    + by rewrite decide_False.
    + rewrite decide_True by done. destruct (beat_worker_spec now items status w) as (-> & -> & -> & g & -> & Hg).
      split_and!; try done. apply Forall2_fmap_r, Forall_Forall2_diag, Forall_forall. intros td _. apply Hg.
  - intros Hn. by rewrite no_task_end.
  - intros t Ht. assert (existsb is_task_end items = true) as ->.
    { apply existsb_exists. exists (TaskEnd t). by rewrite <- list_elem_of_In. }
    unfold all_terminated, some_terminated, cluster_tasks. rewrite !flush_if_workers. cbn [flush_if].
    destruct (flush_status (beat_cluster now id items status c)) as (H1 & H2 & H3).
    split_and!; [exact H1|exact H2|]. intros Hs Ha. by rewrite (H3 Ha Hs).
Qed.

Lemma mapM_res_ok {E A B} (f : A -> res E B) l l' : mapM_res f l = Ok l' <-> Forall2 (fun x y => f x = Ok y) l l'.
Proof.
  revert l'; induction l as [|x l IH]; intros l'; cbn [mapM_res].
  - split; [intros; simplify_eq; constructor|]. intros H. by inv H.
  - split.
    + destruct (f x) as [y| |] eqn:Ef; run_bind; try done. destruct (mapM_res f l) as [ys| |] eqn:Em; run_bind; try done.
      intros; simplify_eq. constructor; [done|]. by apply IH.
    + intros H. inv H as [|? y ? ys Hy Hys]. rewrite Hy. run_bind. by rewrite (proj2 (IH ys) Hys).
Qed.

Lemma mapM_res_total {E A B} (f : A -> res E B) l :
  (forall x, x ∈ l -> exists y, f x = Ok y) -> exists l', mapM_res f l = Ok l'.
Proof.
  induction l as [|x l IH]; intros H; cbn [mapM_res]; [by eexists|].
  destruct (H x) as [y ->]; [by left|]. run_bind. destruct IH as [ys ->]; [intros; apply H; by right|].
  run_bind. by eexists.
Qed.

Definition own_checkpoint (cks : list Checkpoint) (op : OperatorId) (task : Z) : option Checkpoint :=
  List.find (fun ck => task_number (ck_task_id ck) =? task) (filter (fun ck => ck_operator_id ck = op) cks).

Definition restored_operator (od : OperatorDescriptor) (ck : Checkpoint) : OperatorDescriptor :=
  mkOperatorDescriptor (od_operator_id od) (ck_checkpoint_id ck) (od_completed_checkpoint_id od) (Some (ck_handle ck)).

Lemma restore_operator_eq cks task od :
  restore_operator (group_by_operator cks) task od =
    match own_checkpoint cks (od_operator_id od) task with
    | Some ck => Ok (restored_operator od ck)
    | None => Panic "called `Option::unwrap()` on a `None` value"%string
    end.
Proof.
  unfold restore_operator, own_checkpoint. unfold group_by_operator. rewrite group_by_lookup.
  destruct (filter _ cks) as [|c l] eqn:E; [done|].
  destruct (List.find _ (c :: l)) as [ck|]; [|done]. unfold restored_operator. by destruct (ck_handle ck).
Qed.

Lemma own_checkpoint_elem cks op task ck : own_checkpoint cks op task = Some ck ->
  ck ∈ cks /\ ck_operator_id ck = op /\ task_number (ck_task_id ck) = task.
Proof.
  unfold own_checkpoint. intros [Hin Ht]%List.find_some. apply list_elem_of_In, list_elem_of_filter in Hin as [Ho Hin].
  bool_to_prop. done.
Qed.

Definition restored_task (cks : list Checkpoint) (td td' : TaskDescriptor) : Prop :=
  td_task_id td' = td_task_id td /\ td_input_split td' = td_input_split td /\
  Forall2 (fun od od' => exists ck, od' = restored_operator od ck /\ ck ∈ cks /\
      ck_operator_id ck = od_operator_id od /\ task_number (ck_task_id ck) = task_number (td_task_id td))
    (td_operators td) (td_operators td').

Lemma restore_task_ok cks td td' : restore_task (group_by_operator cks) td = Ok td' -> restored_task cks td td'.
Proof.
  unfold restore_task. destruct (mapM_res _ (td_operators td)) as [ops| |] eqn:E; run_bind; try done.
  intros; simplify_eq. apply mapM_res_ok in E. split_and!; [done..|]. cbn. eapply Forall2_impl; [done|]. cbn.
  intros od od' Hod. rewrite restore_operator_eq in Hod.
  destruct (own_checkpoint _ _ _) as [ck|] eqn:Eo; simplify_eq. exists ck. split; [done|]. by apply own_checkpoint_elem.
Qed.

Lemma mapM_res_total_iff {E A B} (f : A -> res E B) l :
  (exists l', mapM_res f l = Ok l') <-> forall x, x ∈ l -> exists y, f x = Ok y.
Proof.
  split; [|apply mapM_res_total]. intros [l' Hl%mapM_res_ok] x [i Hi]%list_elem_of_lookup.
  destruct (Forall2_lookup_l _ _ _ _ _ Hl Hi) as (y & _ & ?). by exists y.
Qed.

(** A continuation that cannot fail. *)
Lemma bind_ok_iff {E A B} (m : res E A) (g : A -> B) : (exists y, (let* x := m in Ok (g x)) = Ok y) <-> exists x, m = Ok x.
Proof. destruct m; run_bind; split; intros [? ?]; try done; by eexists. Qed.

Lemma restore_task_total cks td :
  (exists td', restore_task (group_by_operator cks) td = Ok td') <->
  forall od, od ∈ td_operators td -> is_Some (own_checkpoint cks (od_operator_id od) (task_number (td_task_id td))).
Proof.
  unfold restore_task. rewrite bind_ok_iff, mapM_res_total_iff. setoid_rewrite restore_operator_eq.
  split; intros H od Hod; specialize (H od Hod); destruct (own_checkpoint _ _ _); naive_solver.
Qed.

(** Restoring at start-up. From a non-empty list of loaded checkpoints,
    every operator of every task gets the id and the handle of a checkpoint of
    its own operator and task number, and the restore succeeds exactly when each
    has one; otherwise the coordinator panics. Without checkpoints the
    descriptor is left as it is. *)
Theorem restore_checkpoints_spec cks c :
  (cks = [] -> restore_checkpoints (group_by_operator cks) c = Ok c) /\
  (cks <> [] ->
     (forall c', restore_checkpoints (group_by_operator cks) c = Ok c' ->
        coordinator_manager c' = coordinator_manager c /\
        Forall2 (fun w w' => wm_task_manager_id w' = wm_task_manager_id w /\
                   Forall2 (restored_task cks) (wm_task_descriptors w) (wm_task_descriptors w'))
          (worker_managers c) (worker_managers c')) /\
     ((exists c', restore_checkpoints (group_by_operator cks) c = Ok c') <->
      forall td od, td ∈ cluster_tasks c -> od ∈ td_operators td ->
        is_Some (own_checkpoint cks (od_operator_id od) (task_number (td_task_id td))))).
Proof.
  split; [by intros ->|]. intros Hne. unfold restore_checkpoints.
  destruct (decide (size (group_by_operator cks) = 0%nat)) as [Hz|_].
  { exfalso. destruct cks as [|ck cks]; [done|]. apply map_size_empty_inv in Hz.
    pose proof (group_by_lookup ck_operator_id (ck :: cks) (ck_operator_id ck)) as Hl.
    fold (group_by_operator (ck :: cks)) in Hl. rewrite Hz, lookup_empty in Hl.
    by rewrite filter_cons_True in Hl. }
  set (f := fun w : WorkerManagerDescriptor => _). split.
  - intros c'. destruct (mapM_res f (worker_managers c)) as [ws| |] eqn:E; run_bind; try done.
    intros; simplify_eq/=. split; [done|]. apply mapM_res_ok in E. eapply Forall2_impl; [done|].
    intros w w' Hw. unfold f in Hw. destruct (mapM_res _ (wm_task_descriptors w)) as [ts| |] eqn:Et; simplify_eq/=.
    split; [done|]. apply mapM_res_ok in Et. eapply Forall2_impl; [done|]. intros. by apply restore_task_ok.
  - rewrite bind_ok_iff, mapM_res_total_iff. unfold f.
    setoid_rewrite bind_ok_iff. setoid_rewrite mapM_res_total_iff. setoid_rewrite restore_task_total.
    setoid_rewrite elem_of_cluster_tasks. naive_solver.
Qed.

(** ** Examples *)
Definition ex_task (n : Z) : TaskDescriptor :=
  mkTaskDescriptor (mkTaskId 0 n 2) [mkOperatorDescriptor 5 0 None None] InputSplit_default false "" false.

Definition ex_worker (id : string) (n : Z) : WorkerManagerDescriptor :=
  mkWorker Pending 0 HB_Ok id "" "" "" [ex_task n].

Definition ex_cluster : ClusterDescriptor :=
  mkCluster (mkCoordinator "0.6" "app" no_properties "" "" Pending 1 100 2 0 1)
    [ex_worker "worker_manager_0" 0; ex_worker "worker_manager_1" 1].

Definition ex_init : Cluster :=
  mkClusterState 0 (Some ex_cluster) Waiting
    (<["worker_manager_0" := proc_new]> (<["worker_manager_1" := proc_new]> ∅)) [] [].

Lemma ex_init_ok : init ex_cluster ex_init.
Proof.
  unfold init, fresh_descriptor. split_and!; try done.
  - apply NoDup_cons; split; [set_solver|]. apply NoDup_singleton.
  - repeat constructor.
  - repeat (apply map_Forall_insert_2; [done|]). apply map_Forall_empty.
Qed.

(** One step, its side conditions evaluated. *)
Tactic Notation "run_step" uconstr(c) := eapply rtc_l; [eapply c; solve [vm_compute; reflexivity | lia] |].

Ltac submit_step id i n :=
  eapply rtc_l;
  [eapply (step_submit _ _ _ _ _ _ id _ (TaskEnd (mkTaskId 0 n 2))); [vm_compute; reflexivity|];
   split; [reflexivity|eexists _, _;
     split; [eapply (list_elem_of_lookup_2 _ i); vm_compute; reflexivity|]; split; [reflexivity|];
     split; [by left|reflexivity]] |].

(** From [ex_init]: both workers register. *)
Ltac register_all :=
  exists ex_init; split; [exact ex_init_ok|]; unfold ex_init;
  run_step (step_beat 0 (Some ex_cluster) Waiting _ [] [] "worker_manager_0" proc_new _ _ true);
  run_step (step_beat 0 _ _ _ _ _ "worker_manager_1" proc_new _ _ true);
  run_step step_wait_read; run_step step_wait_update.

(** Both workers start and end their tasks. *)
Lemma ex_end_reachable : exists s, reachable ex_cluster s /\ cl_phase s = Stopped HR_End.
Proof.
  eexists. split.
  - register_all.
    run_step (step_poll 0 _ _ _ _ _ "worker_manager_0"). run_step (step_poll 0 _ _ _ _ _ "worker_manager_1").
    submit_step "worker_manager_0"%string 0%nat 0. submit_step "worker_manager_1"%string 1%nat 1.
    run_step (step_beat 0 _ _ _ _ _ "worker_manager_0" _ _ _ true).
    run_step (step_beat 0 _ _ _ _ _ "worker_manager_1" _ _ _ true).
    run_step step_timer_read. run_step step_timer_check. apply rtc_refl.
  - reflexivity.
Qed.

(** The workers fall silent. *)
Lemma ex_silent_reachable : exists s c, reachable ex_cluster s /\ cl_phase s = Checking c 60000 /\
  heartbeat_round (cl_now s) c = Some HR_Timeout.
Proof.
  eexists _, _. split.
  - register_all. run_step (step_tick _ _ _ _ _ _ 60000). run_step step_timer_read. apply rtc_refl.
  - split; reflexivity.
Qed.

(** The first worker ends its task before the second has asked for the status. *)
Lemma ex_late_reachable : exists s p q, reachable ex_cluster s /\ past_registered (cl_store s) /\
  cl_ended s = [mkTaskId 0 0 2] /\
  cl_procs s !! "worker_manager_0"%string = Some p /\ wp_started p = true /\
  cl_procs s !! "worker_manager_1"%string = Some q /\ wp_started q = false.
Proof.
  eexists _, _, _. split.
  - register_all. run_step (step_poll 0 _ _ _ _ _ "worker_manager_0").
    submit_step "worker_manager_0"%string 0%nat 0.
    run_step (step_beat 0 _ _ _ _ _ "worker_manager_0" _ _ _ true). apply rtc_refl.
  - split; [eexists; split; [reflexivity|by left]|]. split; [reflexivity|].
    split; [vm_compute; reflexivity|]. split; [reflexivity|]. split; [vm_compute; reflexivity|reflexivity].
Qed.

Lemma run_end_sound_witness : exists s, reachable ex_cluster s /\ cl_phase s = Stopped HR_End /\
  forall td, td ∈ cluster_tasks ex_cluster -> td_task_id td ∈ cl_ended s.
Proof.
  destruct ex_end_reachable as (s & Hr & Hp). exists s. split; [exact Hr|]. split; [exact Hp|].
  exact (run_end_sound ex_cluster s Hr Hp).
Defined.

Lemma heartbeat_timeout_sound_witness : exists s id last, reachable ex_cluster s /\
  last_beat (cl_beats s) 60000 id last /\ last + 51000 <= cl_now s.
Proof.
  destruct ex_silent_reachable as (s & c & Hr & Hp & Hh).
  destruct (heartbeat_timeout_sound ex_cluster s c 60000 Hr Hp) as [H _].
  destruct (H Hh) as (id & last & _ & H1 & H2). exists s, id, last. split; [exact Hr|]. split; [exact H1|exact H2].
Defined.

Lemma tasks_start_after_registration_witness : exists s c, reachable ex_cluster s /\
  cl_store s = Some c /\ all_registered c.
Proof.
  destruct ex_late_reachable as (s & p & q & Hr & _ & _ & Hp & Hs & _).
  destruct (tasks_start_after_registration ex_cluster s "worker_manager_0" p Hr Hp Hs) as (c & H1 & H2 & _).
  exists s, c. split; [exact Hr|]. split; [exact H1|exact H2].
Defined.

Lemma late_worker_stuck_witness : exists s, reachable ex_cluster s /\
  forall s', rtc step s s' -> cl_phase s' <> Stopped HR_End.
Proof.
  destruct ex_late_reachable as (s & p & q & Hr & Hpast & He & _ & _ & Hq & Hs).
  exists s. split; [exact Hr|]. intros s' Hss.
  refine (proj2 (late_worker_stuck ex_cluster s (mkTaskId 0 1 2) "worker_manager_1" Hr _ _ Hpast _ _ s' Hss)).
  - exists (ex_worker "worker_manager_1" 1), (ex_task 1).
    split; [right; left|]. split; [reflexivity|]. split; [left|reflexivity].
  - intros id' (w & td & Hw & <- & Htd & Ht). cbn in Hw.
    apply elem_of_cons in Hw as [->|[->|[]%elem_of_nil]%elem_of_cons]; [|reflexivity].
    cbn in Htd. apply elem_of_cons in Htd as [->|[]%elem_of_nil]. discriminate Ht.
  - rewrite He. intros [E|[]%elem_of_nil]%elem_of_cons. discriminate E.
  - exists q. split; [exact Hq|exact Hs].
Defined.

Lemma update_worker_status_spec_witness : exists c',
  update_worker_status 9 (Some ex_cluster) "worker_manager_1" [TaskEnd (mkTaskId 0 1 2)] Registered = (Some c', Ok Terminating).
Proof.
  destruct (update_worker_status_spec 9 ex_cluster "worker_manager_1" [TaskEnd (mkTaskId 0 1 2)] Registered)
    as (_ & _ & H).
  - apply NoDup_cons; split; [set_solver|]. apply NoDup_singleton.
  - destruct H as (c' & Hc & _); [right; left|]. exists c'. rewrite Hc. f_equal. f_equal.
    vm_compute in Hc. injection Hc as <-. reflexivity.
Defined.

Definition ex_cks : list Checkpoint :=
  [mkCheckpoint 5 (mkTaskId 0 1 2) 70 None (mkHandle "b"); mkCheckpoint 5 (mkTaskId 0 0 2) 70 None (mkHandle "a")].

Lemma restore_checkpoints_spec_witness : exists c', restore_checkpoints (group_by_operator ex_cks) ex_cluster = Ok c' /\
  coordinator_manager c' = coordinator_manager ex_cluster.
Proof.
  destruct (restore_checkpoints_spec ex_cks ex_cluster) as [_ H].
  destruct (H ltac:(discriminate)) as [H1 H2]. destruct (proj2 H2) as [c' Hc'].
  - intros td od Htd Hod. cbn in Htd.
    apply elem_of_cons in Htd as [->|[->|[]%elem_of_nil]%elem_of_cons];
      apply elem_of_cons in Hod as [->|[]%elem_of_nil]; eexists; reflexivity.
  - exists c'. split; [exact Hc'|]. apply (H1 c' Hc').
Defined.

Example thread_id_hex : HexString.of_Z 48879 = "0xbeef"%string.
Proof. reflexivity. Qed.
