(* ===== verification/TaskDistribution.v ===== *)
(** * TaskDistribution: the descriptor of a run

    src/rlink/src/runtime/coordinator/task_distribution.rs: the coordinator turns the
    allocation of PhysicGraph into the cluster descriptor of Runtime, from which the
    run of Cluster starts. The theorem joins the two: the descriptor is one a run can
    start from, and [get_worker_manager] finds the worker of every deployed task, the
    same for tasks that are linked in memory. *)
From Stdlib Require Import ZArith Lia.
From stdpp Require Import base strings numbers option sets gmap list relations pretty.
From S2P Require Import Prelude Bytes Runtime Graph Schema StreamGraph JobGraph ExecutionGraph PhysicGraph Checkpoint Cluster.

(** What is read of [Context]. *)
Record Context := mkContext {
  cx_application_id : string;
  cx_num_task_managers : Z;
  cx_metric_addr : string;
  cx_v_cores : Z;
  cx_memory_mb : Z
}.

Section task_distribution.
Context {DA : DagApi} {HO : HashOrder}.

(** [Vec::with_capacity], which reserves room for at least as many elements; the
    version of the crate, set by the build; the current time. *)
Context (with_capacity : Z -> nat) (VERSION : string) (now : Z).

Definition operator_descriptor (n : StreamNode) : OperatorDescriptor := mkOperatorDescriptor (sn_id n) 0 None None.

Definition task_descriptor (t : TaskInstance) : TaskDescriptor :=
  mkTaskDescriptor (ti_task_id t) (operator_descriptor <$> ti_stream_nodes t) (ti_input_split t) (ti_daemon t) "" false.

Definition worker_descriptor (w : WorkerManagerInstance) : WorkerManagerDescriptor :=
  mkWorker Pending 0 HB_Ok (wi_worker_manager_id w) "" "" "" (task_descriptor <$> wi_task_instances w).

Definition build_cluster_descriptor {E} (dag_manager : DagManager) (application_properties : Properties) (context : Context)
    : res E ClusterDescriptor :=
  let* worker_instances := alloc_by_instance (with_capacity (cx_num_task_managers context)) (dm_physic_graph dag_manager) in
  Ok (mkCluster
        (mkCoordinator VERSION (cx_application_id context) application_properties "" (cx_metric_addr context) Pending
           (cx_v_cores context) (cx_memory_mb context) (cx_num_task_managers context) now 0)
        (worker_descriptor <$> worker_instances)).

(** ** Lemmas *)
#[global] Instance worker_id_inj : Inj (=) (=) worker_id.
Proof. intros a b H. unfold worker_id in H. by simplify_eq/=. Qed.

(** What the descriptor of a deployment says. *)
Record descriptor_ok (d : Dag ExecutionNode ExecutionEdge) (c : ClusterDescriptor) : Prop := {
  (** a run can start from it *)
  dc_fresh : fresh_descriptor c;
  (** a deployed task is found on a worker, with its operators *)
  dc_found : forall i n, i ∈ deployed d -> raw_nodes d !! i = Some n -> exists w td,
    get_worker_manager c (en_task_id n) = Some w /\ td ∈ wm_task_descriptors w /\ td_task_id td = en_task_id n /\
    od_operator_id <$> td_operators td = sn_id <$> en_stream_nodes n /\ td_input_split td = en_input_split n;
  (** tasks linked in memory are on the same worker *)
  dc_memory : forall i j ni nj, memory_adj (raw_edges d) i j -> raw_nodes d !! i = Some ni -> raw_nodes d !! j = Some nj ->
    get_worker_manager c (en_task_id ni) = get_worker_manager c (en_task_id nj)
}.

Section descriptor.
Context (d : Dag ExecutionNode ExecutionEdge) (capacity : nat) (ws : list WorkerManagerInstance).
Context (Hnd : NoDup (en_task_id <$> raw_nodes d)) (Hp : placement_ok d capacity ws) (cm : CoordinatorManagerDescriptor) (Hcm : cm_status cm = Pending).
Notation c := (mkCluster cm (worker_descriptor <$> ws)).

Lemma descriptor_fresh : fresh_descriptor c.
Proof.
  split_and!; [done| |].
  - simpl. rewrite <- list_fmap_compose. change (wm_task_manager_id ∘ worker_descriptor) with wi_worker_manager_id.
    rewrite (pl_ids _ _ _ Hp). apply NoDup_fmap_2; [apply _|]. apply NoDup_seq.
  - simpl. apply Forall_fmap, Forall_true. intros w. split; [done|]. simpl. apply Forall_fmap, Forall_true. done.
Qed.

Definition holds (t : TaskId) (w : WorkerManagerDescriptor) : Prop := exists td, td ∈ wm_task_descriptors w /\ td_task_id td = t.

(** The worker [get_worker_manager] returns is the first that holds the task. *)
Lemma get_worker_manager_at t k w :
  worker_managers c !! k = Some w -> holds t w -> (forall k' w', worker_managers c !! k' = Some w' -> holds t w' -> k' = k) ->
  get_worker_manager c t = Some w.
Proof.
  intros Hk Hh Hu. unfold get_worker_manager. destruct (List.find _ (worker_managers c)) as [w'|] eqn:Ef.
  - apply find_some in Ef as [Hin Hb]. apply list_elem_of_In, list_elem_of_lookup in Hin as [k' Hk'].
    assert (holds t w') as Hh'.
    { destruct (List.find _ (wm_task_descriptors w')) as [td|] eqn:Et; [|done]. apply find_some in Et as [Hin Hb'].
      exists td. split; [by apply list_elem_of_In|]. by apply bool_decide_eq_true in Hb'. }
    rewrite (Hu k' w' Hk' Hh') in Hk'. by simplify_eq.
  - exfalso. apply (find_none _ _) with (x := w) in Ef; [|apply list_elem_of_In; by eapply list_elem_of_lookup_2].
    destruct Hh as (td & Htd & Ht). destruct (List.find _ (wm_task_descriptors w)) as [|] eqn:Et; [done|].
    apply (find_none _ _) with (x := td) in Et; [|by apply list_elem_of_In]. by rewrite Ht, bool_decide_true in Et.
Qed.

Lemma descriptor_at : exists place : NodeIndex -> nat,
  (forall i j, memory_adj (raw_edges d) i j -> place i = place j) /\
  forall i n, i ∈ deployed d -> raw_nodes d !! i = Some n -> exists w, ws !! place i = Some w /\ task_instance n ∈ wi_task_instances w /\
    get_worker_manager c (en_task_id n) = Some (worker_descriptor w).
Proof.
  destruct (pl_place _ _ _ Hp) as (place & Hlt & Hadj & Hiff). exists place. split; [done|]. intros i n Hi Hn.
  assert (length ws = capacity) as Hlen by (rewrite <- (length_fmap wi_worker_manager_id), (pl_ids _ _ _ Hp), length_fmap, length_seq; done).
  destruct (lookup_lt_is_Some_2 ws (place i)) as [w Hw]; [rewrite Hlen; by apply Hlt|].
  assert (task_instance n ∈ wi_task_instances w) as Hin by (apply (Hiff _ _ _ Hw); eauto 6).
  exists w. split_and!; [done|done|]. apply (get_worker_manager_at _ (place i)).
  - simpl. by rewrite list_lookup_fmap, Hw.
  - exists (task_descriptor (task_instance n)). split; [by apply list_elem_of_fmap_2|done].
  - intros k w' Hk (td & Htd & Ht). simpl in Hk. rewrite list_lookup_fmap in Hk. destruct (ws !! k) as [w0|] eqn:Ek; simplify_eq/=.
    apply list_elem_of_fmap in Htd as (ti & -> & Hti). apply (Hiff _ _ _ Ek) in Hti as (j & n' & _ & Hn' & <- & ->). simpl in Ht.
    by rewrite (same_node d j i n' n Hnd Hn' Hn Ht).
Qed.

Lemma descriptor_correct : descriptor_ok d c.
Proof.
  destruct descriptor_at as (place & Hadj & Hat). split; [apply descriptor_fresh| |].
  - intros i n Hi Hn. destruct (Hat i n Hi Hn) as (w & _ & Hin & Hg). exists (worker_descriptor w), (task_descriptor (task_instance n)).
    split_and!; [done|by apply list_elem_of_fmap_2|done| |done]. simpl. by rewrite <- list_fmap_compose.
  - intros i j ni nj Hij Hi Hj. destruct (Hat i ni (adj_deployed d i j Hij) Hi) as (w & Hw & _ & ->).
    destruct (Hat j nj (adj_deployed d j i (memory_adj_sym _ _ _ Hij)) Hj) as (w' & Hw' & _ & ->). rewrite (Hadj i j Hij) in Hw. by simplify_eq.
Qed.
End descriptor.

(** The descriptor is made, and is right. *)
Lemma cluster_descriptor_made {E} g fuel dm props ctx :
  (forall n, n <= Z.of_nat (with_capacity n)) ->
  built g [] -> (forall n, user_source g n -> 0 < sn_parallelism n) -> (length (raw_nodes (dag g)) < fuel)%nat ->
  DagManager_try_from fuel g = Some (Ok dm) ->
  Z.of_nat (task_total (raw_nodes (jg_dag (dm_job_graph dm)))) <= 2 ^ 32 - 1 -> Z.of_nat (edge_total (dm_job_graph dm)) <= 2 ^ 32 - 1 ->
  0 < cx_num_task_managers ctx ->
  exists c, build_cluster_descriptor (E := E) dm props ctx = Ok c /\ cx_num_task_managers ctx <= Z.of_nat (length (worker_managers c)) /\
    descriptor_ok (eg_dag (dm_execution_graph dm)) c.
Proof.
  intros Hcap Hb Hu Hf Hdm Ht He Hn. destruct (dag_manager_inv _ _ _ Hdm) as (_ & Hjg & Heg & Hpg).
  pose proof (job_graph_builds g fuel Hb Hu Hf) as Hok. rewrite Hjg in Hok.
  pose proof (execution_graph_expand _ _ (job_graph_expandable _ _ Hb Hok) Ht He) as Hx. rewrite Heg in Hx.
  specialize (Hcap (cx_num_task_managers ctx)). set (cap := with_capacity (cx_num_task_managers ctx)) in *.
  destruct (allocation_ok (E := DagError) (E' := E) _ cap (execution_in_range _ _ _ Hx) ltac:(lia)) as (pg & ws & Hpg' & Hws & Hp).
  rewrite Hpg in Hpg'. injection Hpg' as <-. unfold build_cluster_descriptor. fold cap. rewrite Hws. cbn [mbind res_bind]. eexists. split; [done|]. split.
  - simpl. rewrite length_fmap, <- (length_fmap wi_worker_manager_id), (pl_ids _ _ _ Hp), length_fmap, length_seq. done.
  - eapply descriptor_correct; [apply Hx|exact Hp|done].
Qed.

(** C21: From the program to the start of the run: for a program whose graphs have been
    built, with a positive number of workers, the coordinator makes a descriptor
    with at least that many workers from which a run can start; every deployed task
    is found on its worker with the operators of its job and its input split, and
    tasks linked in memory are found on the same worker. *)
Theorem cluster_descriptor_spec {E} g fuel dm props ctx :
  (forall n, n <= Z.of_nat (with_capacity n)) ->
  built g [] -> (forall n, user_source g n -> 0 < sn_parallelism n) -> (length (raw_nodes (dag g)) < fuel)%nat ->
  DagManager_try_from fuel g = Some (Ok dm) ->
  Z.of_nat (task_total (raw_nodes (jg_dag (dm_job_graph dm)))) <= 2 ^ 32 - 1 -> Z.of_nat (edge_total (dm_job_graph dm)) <= 2 ^ 32 - 1 ->
  0 < cx_num_task_managers ctx ->
  exists c, build_cluster_descriptor (E := E) dm props ctx = Ok c /\ cx_num_task_managers ctx <= Z.of_nat (length (worker_managers c)) /\
    descriptor_ok (eg_dag (dm_execution_graph dm)) c.
Proof. apply cluster_descriptor_made. Qed.
End task_distribution.

(** ** Examples *)
#[local] Existing Instance ListDag.
#[local] Existing Instance id_order.

Definition ex_context : Context := mkContext "app" 2 "127.0.0.1" 1 512.

(** The workers of the aggregation with their tasks. *)
Example ex_aggregate_workers :
  match DagManager_try_from 20 (prog_graph ex_aggregate) with
  | Some (Ok dm) =>
      match build_cluster_descriptor (E := unit) Z.to_nat "0.6.4" 17 dm no_properties ex_context with
      | Ok c => (fun w => (wm_task_manager_id w, td_task_id <$> wm_task_descriptors w)) <$> worker_managers c =
          [("worker_manager_0"%string, [mkTaskId 4 1 3; mkTaskId 8 1 3; mkTaskId 4 0 3; mkTaskId 8 0 3; mkTaskId 0 1 2]);
           ("worker_manager_1"%string, [mkTaskId 8 2 3; mkTaskId 4 2 3; mkTaskId 0 0 2])]
      | _ => False
      end
  | _ => False
  end.
Proof. vm_compute. reflexivity. Qed.

Lemma cluster_descriptor_spec_witness :
  match DagManager_try_from 20 (prog_graph ex_aggregate) with
  | Some (Ok dm) => exists c, build_cluster_descriptor (E := unit) Z.to_nat "0.6.4" 17 dm no_properties ex_context = Ok c /\
      2 <= Z.of_nat (length (worker_managers c)) /\ descriptor_ok (eg_dag (dm_execution_graph dm)) c
  | _ => False
  end.
Proof.
  assert (built (prog_graph ex_aggregate) []) as Hb by (apply (prog_built ex_aggregate); vm_compute; reflexivity).
  assert (match DagManager_try_from 20 (prog_graph ex_aggregate) with Some (Ok dm) => fits (dm_job_graph dm) | _ => false end = true) as Hf
    by (vm_compute; reflexivity).
  destruct (DagManager_try_from 20 (prog_graph ex_aggregate)) as [[dm| |]|] eqn:Edm; [|discriminate Hf..].
  apply andb_true_iff in Hf as [Hf1 Hf2]. apply Z.leb_le in Hf1, Hf2.
  apply (cluster_descriptor_spec Z.to_nat "0.6.4" 17 (prog_graph ex_aggregate) 20 dm no_properties ex_context).
  - intros n. lia.
  - exact Hb.
  - apply sources_positive_spec. vm_compute. reflexivity.
  - apply Nat.ltb_lt. vm_compute. reflexivity.
  - exact Edm.
  - exact Hf1.
  - exact Hf2.
  - reflexivity.
Defined.
