(* ===== verification/WorkerTask.v ===== *)
(** * WorkerTask: from the metadata to the opened chain of a task

    src/rlink/src/runtime/worker/mod.rs ([WorkerTask]) and the [open] side of
    src/rlink/src/runtime/worker/runnable/: a worker runs the user's program again,
    takes the operators of its job out of the stream graph, makes a runnable of each
    and links them; a reduction also gets the key selector of the job before it. Then
    the chain is opened from its end: the runnables ask the metadata for the jobs and
    tasks around them.

    The theorems say that the chain holds the operators of the job in order, that a
    reduction gets the key selector its window was opened on, what every runnable learns
    when it is opened, and that opening never fails by itself. *)
From Stdlib Require Import ZArith Lia.
From stdpp Require Import base strings numbers option sets gmap list relations pretty.
From S2P Require Import Prelude BTreeMap Bytes Runtime Graph Align Runnables Task.
From S2P Require Import Schema StreamGraph JobGraph ExecutionGraph PhysicGraph DagMetadata.

Section worker_task.
Context {DA : DagApi} {HO : HashOrder}.

(** ** The runnables, with their [next_runnable] *)
Inductive Runnable : Type :=
  | R_Source (operator_id : OperatorId) (stream_source : DefaultStreamOperator InputFormat) (next : option Runnable)
  | R_FlatMap (operator_id : OperatorId) (stream_map : DefaultStreamOperator FlatMapFunction) (next : option Runnable)
  | R_Filter (operator_id : OperatorId) (stream_filter : DefaultStreamOperator FilterFunction) (next : option Runnable)
  | R_CoProcess (operator_id : OperatorId) (stream_co_process : DefaultStreamOperator CoProcessFunction) (next : option Runnable)
  | R_KeyBy (operator_id : OperatorId) (stream_key_by : DefaultStreamOperator KeySelectorFunction) (next : option Runnable)
  | R_Reduce (operator_id : OperatorId) (stream_key_by : option (DefaultStreamOperator KeySelectorFunction))
      (stream_reduce : DefaultStreamOperator BaseReduceFunction) (next : option Runnable)
  | R_WatermarkAssigner (operator_id : OperatorId) (watermark_strategy : DefaultStreamOperator WatermarkStrategy) (next : option Runnable)
  | R_WindowAssigner (operator_id : OperatorId) (stream_window : DefaultStreamOperator WindowAssigner) (next : option Runnable)
  | R_Sink (operator_id : OperatorId) (stream_sink : DefaultStreamOperator OutputFormat).

Definition set_next_runnable {E} (next : option Runnable) (r : Runnable) : res E Runnable :=
  match r with
  | R_Source id op _ => Ok (R_Source id op next)
  | R_FlatMap id op _ => Ok (R_FlatMap id op next)
  | R_Filter id op _ => Ok (R_Filter id op next)
  | R_CoProcess id op _ => Ok (R_CoProcess id op next)
  | R_KeyBy id op _ => Ok (R_KeyBy id op next)
  | R_Reduce id k op _ => Ok (R_Reduce id k op next)
  | R_WatermarkAssigner id op _ => Ok (R_WatermarkAssigner id op next)
  | R_WindowAssigner id op _ => Ok (R_WindowAssigner id op next)
  | R_Sink _ _ => Panic "not implemented"
  end.

Abbreviation Operators := (gmap OperatorId StreamOperator).

(** [HashMap::remove]. *)
Definition take_operator {E} (msg : string) (ops : Operators) (id : OperatorId) : res E (StreamOperator * Operators) :=
  let* op := unwrap msg (ops !! id) in Ok (op, delete id ops).

Definition get_dependency_key_by {E} (md : DagMetadata) (operators : Operators) (id : JobId)
    : res E (option (DefaultStreamOperator KeySelectorFunction) * Operators) :=
  let* parents := job_parents md id in
  match parents with
  | [] => Ok (None, operators)
  | [(job_node, _)] =>
      let* stream_node := unwrap "called `Option::unwrap()` on a `None` value"
        (iter_find (fun x => sn_operator_type x = OT_KeyBy) (jn_stream_nodes job_node)) in
      let* (key_by_operator, operators) :=
        take_operator "called `Option::unwrap()` on a `None` value" operators (sn_id stream_node) in
      match key_by_operator with
      | StreamKeyBy stream_operator => Ok (Some stream_operator, operators)
      | _ => Ok (None, operators)
      end
  | _ => Ok (None, operators)
  end.

(** The body of the loop over the operators of the job. *)
Definition make_runnable {E} (md : DagMetadata) (id : JobId) (s : Operators * list Runnable) (n : StreamNode)
    : res E (Operators * list Runnable) :=
  let '(operators, invoke_operators) := s in
  let operator_id := sn_id n in
  let* (operator, operators) := take_operator "operator not found" operators operator_id in
  let* (invoke_operator, operators) :=
    match operator with
    | StreamSource op => Ok (R_Source operator_id op None, operators)
    | StreamFlatMap op => Ok (R_FlatMap operator_id op None, operators)
    | StreamFilter op => Ok (R_Filter operator_id op None, operators)
    | StreamCoProcess op => Ok (R_CoProcess operator_id op None, operators)
    | StreamKeyBy op => Ok (R_KeyBy operator_id op None, operators)
    | StreamReduce op =>
        let* (stream_key_by, operators) := get_dependency_key_by md operators id in
        Ok (R_Reduce operator_id stream_key_by op None, operators)
    | StreamWatermarkAssigner op => Ok (R_WatermarkAssigner operator_id op None, operators)
    | StreamWindowAssigner op => Ok (R_WindowAssigner operator_id op None, operators)
    | StreamSink op => Ok (R_Sink operator_id op, operators)
    end in
  Ok (operators, invoke_operators ++ [invoke_operator]).

(** The loop that links the runnables; the [Vec] is a stack, here with its top first. *)
Fixpoint link_loop {E} (op_dependency : Runnable) (stack : list Runnable) : res E Runnable :=
  match stack with
  | [] => Ok op_dependency
  | invoke_operator :: stack =>
      let* invoke_operator := set_next_runnable (Some op_dependency) invoke_operator in
      link_loop invoke_operator stack
  end.

Definition build_invoke_chain {E} (md : DagMetadata) (id : JobId) (operators : Operators) : res E Runnable :=
  let* job_node := unwrap "Job is not found" (md_job_node md id) in
  let* (_, invoke_operators) := foldM (make_runnable md (jn_job_id job_node)) (operators, []) (jn_stream_nodes job_node) in
  match rev invoke_operators with
  | [] => Panic "called `Option::unwrap()` on a `None` value"
  | op_dependency :: stack => link_loop op_dependency stack
  end.

(** ** The context of a runnable *)
Record RunnableContext := mkRunnableContext {
  rc_dag_metadata : DagMetadata;
  rc_cluster_descriptor : ClusterDescriptor;
  rc_task_descriptor : TaskDescriptor
}.

(** [Context] of core/function.rs. *)
Record FunctionContext := mkFunctionContext {
  fc_application_id : string;
  fc_application_properties : Properties;
  fc_operator_id : OperatorId;
  fc_task_id : TaskId;
  fc_checkpoint_id : CheckpointId;
  fc_completed_checkpoint_id : option CheckpointId;
  fc_checkpoint_handle : option CheckpointHandle;
  fc_input_schema : FnSchema;
  fc_output_schema : FnSchema;
  fc_children : list (ExecutionNode * ExecutionEdge);
  fc_parents : list (ExecutionNode * ExecutionEdge)
}.

Definition rc_job_id (c : RunnableContext) : JobId := job_id (td_task_id (rc_task_descriptor c)).

Definition to_fun_context {E} (c : RunnableContext) (operator_id : OperatorId) : res E FunctionContext :=
  let coordinator_manager := coordinator_manager (rc_cluster_descriptor c) in
  let task_id := td_task_id (rc_task_descriptor c) in
  let* parents := execution_parents (rc_dag_metadata c) task_id in
  let* children := execution_children (rc_dag_metadata c) task_id in
  let* stream_node := unwrap "called `Option::unwrap()` on a `None` value" (md_stream_node (rc_dag_metadata c) operator_id) in
  let* operator := unwrap "called `Option::unwrap()` on a `None` value"
    (iter_find (fun x => od_operator_id x = operator_id) (td_operators (rc_task_descriptor c))) in
  Ok (mkFunctionContext (cm_application_id coordinator_manager) (cm_application_properties coordinator_manager)
        operator_id task_id (od_checkpoint_id operator) (od_completed_checkpoint_id operator) (od_checkpoint_handle operator)
        (sn_input_schema stream_node) (sn_output_schema stream_node) children parents).

Definition parent_jobs {E} (c : RunnableContext) : res E (list (JobNode * JobEdge)) := job_parents (rc_dag_metadata c) (rc_job_id c).
Definition child_jobs {E} (c : RunnableContext) : res E (list (JobNode * JobEdge)) := job_children (rc_dag_metadata c) (rc_job_id c).

Definition children_parallelism {E} (c : RunnableContext) : res E (list Z) :=
  let* l := job_children (rc_dag_metadata c) (rc_job_id c) in Ok ((fun p => jn_parallelism p.1) <$> l).

Definition rc_child_parallelism {E} (c : RunnableContext) : res E Z :=
  let* ps := children_parallelism c in unwrap "called `Option::unwrap()` on a `None` value" (ps !! 0%nat).

Definition rc_job_node {E} (c : RunnableContext) : res E JobNode :=
  unwrap "called `Option::unwrap()` on a `None` value" (md_job_node (rc_dag_metadata c) (rc_job_id c)).

Definition parent_executions {E} (c : RunnableContext) (child_task_id : TaskId) : res E (list (ExecutionNode * ExecutionEdge)) :=
  execution_parents (rc_dag_metadata c) child_task_id.

(** ** Opening *)

(** The [open] of the user's functions. *)
Context (fn_open : FunctionContext -> res string unit).

(** What a runnable has learnt when it is open. *)
Inductive Opened : Type :=
  | O_Source (s : SourceRunnable InputFormat)
  | O_CoProcess (operator_id : OperatorId) (parents : gmap JobId Z)
  | O_KeyBy (operator_id : OperatorId) (partition_size : Z)
  | O_Sink (operator_id : OperatorId) (child_parallelism : Z)
  | O_Other (operator_id : OperatorId).

(** The parent job that holds an operator. *)
Definition find_parent_job (ps : list (JobNode * JobEdge)) (parent_id : OperatorId) : option JobId :=
  (fun p => jn_job_id p.1) <$> iter_find (fun p => is_Some (iter_find (fun x => sn_id x = parent_id) (jn_stream_nodes p.1))) ps.

Definition co_process_open (c : RunnableContext) : res string (gmap JobId Z) :=
  let* job_node := rc_job_node c in
  let* source_stream_node := unwrap "index out of bounds" (jn_stream_nodes job_node !! 0%nat) in
  let* ps := parent_jobs c in
  co_process_open_loop (find_parent_job ps) 0 (sn_parent_ids source_stream_node) ∅.

(** The key selector of a reduction is opened too, its error dropped. *)
Definition open_key_by (k : option (DefaultStreamOperator KeySelectorFunction)) (fc : FunctionContext) : res string unit :=
  match k with
  | Some _ => match fn_open fc with Panic m => Panic m | _ => Ok tt end
  | None => Ok tt
  end.

Fixpoint open_chain (c : RunnableContext) (r : Runnable) : res string (list Opened) :=
  let open_next next :=
    match next with
    | Some r => open_chain c r
    | None => Panic "called `Option::unwrap()` on a `None` value"
    end in
  let open_fn id := let* fc := to_fun_context c id in fn_open fc in
  match r with
  | R_Source id op next =>
      let* l := open_next next in
      let* _ := open_fn id in
      let task_id := td_task_id (rc_task_descriptor c) in
      let* ps := parent_executions c task_id in
      let* s := source_open id task_id (operator_fn op) ((fun p => en_task_id p.1) <$> ps) in
      Ok (O_Source s :: l)
  | R_FlatMap id _ next | R_Filter id _ next | R_WatermarkAssigner id _ next =>
      let* l := open_next next in
      let* _ := open_fn id in
      Ok (O_Other id :: l)
  | R_WindowAssigner id _ next => let* l := open_next next in Ok (O_Other id :: l)
  | R_CoProcess id _ next =>
      let* l := open_next next in
      let* m := co_process_open c in
      let* _ := open_fn id in
      Ok (O_CoProcess id m :: l)
  | R_KeyBy id _ next =>
      let* l := open_next next in
      let* _ := open_fn id in
      let* partition_size := rc_child_parallelism c in
      Ok (O_KeyBy id partition_size :: l)
  | R_Reduce id k _ next =>
      let* l := open_next next in
      let* fc := to_fun_context c id in
      let* _ := fn_open fc in
      let* _ := open_key_by k fc in
      Ok (O_Other id :: l)
  | R_Sink id _ =>
      let* cs := child_jobs c in
      let* n := sink_child_parallelism ((fun p => (jn_parallelism p.1, p.2)) <$> cs) in
      let* _ := open_fn id in
      Ok [O_Sink id n]
  end.

(** [WorkerTask::run] up to the loop of the source: the program has been run on the
    worker and left its operators in [g]. *)
Definition start_task (g : RawStreamGraph) (c : RunnableContext) : res string (list Opened) :=
  let* (_, operators) := match pop_operators g with Ok p => Ok p | Err _ => Err "" | Panic m => Panic m end in
  let* r := build_invoke_chain (rc_dag_metadata c) (rc_job_id c) operators in
  open_chain c r.

(** ** The chain as a list *)
Definition runnable_next (r : Runnable) : option Runnable :=
  match r with
  | R_Source _ _ n | R_FlatMap _ _ n | R_Filter _ _ n | R_CoProcess _ _ n | R_KeyBy _ _ n | R_Reduce _ _ _ n
  | R_WatermarkAssigner _ _ n | R_WindowAssigner _ _ n => n
  | R_Sink _ _ => None
  end.

Fixpoint chain_list (r : Runnable) : list Runnable :=
  r :: match r with
       | R_Source _ _ (Some n) | R_FlatMap _ _ (Some n) | R_Filter _ _ (Some n) | R_CoProcess _ _ (Some n) | R_KeyBy _ _ (Some n)
       | R_Reduce _ _ _ (Some n) | R_WatermarkAssigner _ _ (Some n) | R_WindowAssigner _ _ (Some n) => chain_list n
       | _ => []
       end.

(** A runnable without its link. *)
Definition unlinked (r : Runnable) : Runnable :=
  match r with
  | R_Source id op _ => R_Source id op None
  | R_FlatMap id op _ => R_FlatMap id op None
  | R_Filter id op _ => R_Filter id op None
  | R_CoProcess id op _ => R_CoProcess id op None
  | R_KeyBy id op _ => R_KeyBy id op None
  | R_Reduce id k op _ => R_Reduce id k op None
  | R_WatermarkAssigner id op _ => R_WatermarkAssigner id op None
  | R_WindowAssigner id op _ => R_WindowAssigner id op None
  | R_Sink id op => R_Sink id op
  end.

Definition is_sink_runnable (r : Runnable) : bool := match r with R_Sink _ _ => true | _ => false end.

Lemma link_loop_ok {E} stack : forall dep, Forall (fun r => is_sink_runnable r = false) stack ->
  exists r, link_loop (E := E) dep stack = Ok r /\ unlinked <$> chain_list r = rev (unlinked <$> stack) ++ (unlinked <$> chain_list dep).
Proof.
  induction stack as [|x stack IH]; intros dep Hs; [by exists dep|]. apply Forall_cons in Hs as [Hx Hs]. cbn [link_loop].
  assert (exists y, set_next_runnable (E := E) (Some dep) x = Ok y /\ unlinked <$> chain_list y = unlinked x :: (unlinked <$> chain_list dep)) as (y & -> & Hy)
    by (destruct x; try done; eexists; (split; [reflexivity|]); reflexivity).
  cbn. destruct (IH y Hs) as (r & -> & Hr). exists r. split; [done|]. rewrite Hr, Hy, <- app_assoc. done.
Qed.

(** The runnable the code makes of an operator, given the key selector of a reduction. *)
Definition runnable_of (k : option (DefaultStreamOperator KeySelectorFunction)) (id : OperatorId) (o : StreamOperator) : Runnable :=
  match o with
  | StreamSource op => R_Source id op None
  | StreamFlatMap op => R_FlatMap id op None
  | StreamFilter op => R_Filter id op None
  | StreamCoProcess op => R_CoProcess id op None
  | StreamKeyBy op => R_KeyBy id op None
  | StreamReduce op => R_Reduce id k op None
  | StreamWatermarkAssigner op => R_WatermarkAssigner id op None
  | StreamWindowAssigner op => R_WindowAssigner id op None
  | StreamSink op => R_Sink id op
  end.

Definition runnables_of (ops : Operators) (k : option (DefaultStreamOperator KeySelectorFunction)) (ns : list StreamNode) : list Runnable :=
  omap (fun n => runnable_of k (sn_id n) <$> ops !! sn_id n) ns.

Definition not_reduce (ops : Operators) (n : StreamNode) : Prop :=
  exists o, ops !! sn_id n = Some o /\ OperatorType_from o <> OT_Reduce.

(** Operators without a reduction are only taken out. *)
Lemma make_runnables_plain {E} md jid k ns : forall (ops : Operators) acc, NoDup (sn_id <$> ns) -> Forall (not_reduce ops) ns ->
  exists ops', foldM (make_runnable (E := E) md jid) (ops, acc) ns = Ok (ops', acc ++ runnables_of ops k ns) /\
    forall id, id ∉ sn_id <$> ns -> ops' !! id = ops !! id.
Proof.
  induction ns as [|n ns IH]; intros ops acc Hnd Hns; [exists ops; by rewrite app_nil_r|].
  apply Forall_cons in Hns as [(o & Ho & Hty) Hns]. rewrite fmap_cons in Hnd. apply NoDup_cons in Hnd as [Hn Hnd].
  assert (forall m, m ∈ ns -> sn_id m <> sn_id n) as Hne by (intros m Hm Heq; apply Hn; rewrite <- Heq; by apply list_elem_of_fmap_2).
  destruct (IH (delete (sn_id n) ops) (acc ++ [runnable_of k (sn_id n) o]) Hnd) as (ops' & Ef & Hops').
  { rewrite Forall_forall in Hns |- *. intros m Hm. destruct (Hns m Hm) as (om & Hom & ?). exists om. rewrite lookup_delete_ne; [done|]. intros Heq. by apply (Hne m Hm). }
  exists ops'. split.
  - assert (runnables_of (delete (sn_id n) ops) k ns = runnables_of ops k ns) as Hr.
    { apply list_omap_ext, Forall_Forall2_diag, Forall_forall. intros m Hm. rewrite lookup_delete_ne; [done|]. intros Heq. by apply (Hne m Hm). }
    assert (runnables_of ops k (n :: ns) = runnable_of k (sn_id n) o :: runnables_of ops k ns) as ->
      by (unfold runnables_of; cbn [omap list_omap]; by rewrite Ho).
    rewrite Hr, <- app_assoc in Ef. cbn [foldM make_runnable]. unfold take_operator. rewrite Ho. by destruct o.
  - intros id. rewrite fmap_cons, not_elem_of_cons. intros [Hid Hid2]. rewrite Hops' by done. apply lookup_delete_ne. congruence.
Qed.

(** With one reduction, whose key selector is not an operator of the list. *)
Lemma make_runnables_reduce {E} md jid kid kop (ops : Operators) l1 r op l2 :
  NoDup (sn_id <$> l1 ++ r :: l2) -> Forall (not_reduce ops) l1 -> Forall (not_reduce ops) l2 ->
  ops !! sn_id r = Some (StreamReduce op) -> kid ∉ sn_id <$> l1 ++ r :: l2 -> ops !! kid = Some (StreamKeyBy kop) ->
  (forall ops', ops' !! kid = Some (StreamKeyBy kop) -> get_dependency_key_by (E := E) md ops' jid = Ok (Some kop, delete kid ops')) ->
  exists ops', foldM (make_runnable (E := E) md jid) (ops, []) (l1 ++ r :: l2) = Ok (ops', runnables_of ops (Some kop) (l1 ++ r :: l2)).
Proof.
  rewrite fmap_app, fmap_cons. intros Hnd H1 H2 Hr Hkid Hk Hdep. apply NoDup_app in Hnd as (Hnd1 & Hdisj & Hnd2). apply NoDup_cons in Hnd2 as [Hr2 Hnd2].
  destruct (make_runnables_plain (E := E) md jid (Some kop) l1 ops [] Hnd1 H1) as (ops1 & E1 & Hops1).
  assert (sn_id r ∉ sn_id <$> l1) as Hr1 by (intros Hin; apply (Hdisj _ Hin); by left).
  assert (ops1 !! sn_id r = Some (StreamReduce op)) as Er by (by rewrite (Hops1 _ Hr1)).
  assert (kid <> sn_id r) as Hkr by set_solver. assert (kid ∉ sn_id <$> l1 /\ kid ∉ sn_id <$> l2) as [Hk1 Hk2] by set_solver.
  assert (delete (sn_id r) ops1 !! kid = Some (StreamKeyBy kop)) as Ek by (rewrite lookup_delete_ne, Hops1 by done; done).
  set (ops2 := delete kid (delete (sn_id r) ops1)).
  assert (forall m, m ∈ l2 -> ops2 !! sn_id m = ops !! sn_id m) as Hsame.
  { intros m Hm. apply (list_elem_of_fmap_2 sn_id) in Hm. unfold ops2. rewrite lookup_delete_ne by congruence. rewrite lookup_delete_ne by congruence.
    apply Hops1. intros Hin. apply (Hdisj _ Hin). by right. }
  destruct (make_runnables_plain (E := E) md jid (Some kop) l2 ops2 (runnables_of ops (Some kop) l1 ++ [R_Reduce (sn_id r) (Some kop) op None]) Hnd2) as (ops3 & E3 & _).
  { rewrite Forall_forall in H2 |- *. intros m Hm. destruct (H2 m Hm) as (o & ? & ?). exists o. by rewrite Hsame. }
  exists ops3. rewrite foldM_app, E1. cbn [mbind res_bind app foldM make_runnable]. unfold take_operator. rewrite Er. cbn. rewrite (Hdep _ Ek). cbn. fold ops2. rewrite E3.
  unfold runnables_of. rewrite omap_app. cbn [omap list_omap]. rewrite Hr. cbn. rewrite <- app_assoc. cbn. do 4 f_equal.
  apply list_omap_ext, Forall_Forall2_diag, Forall_forall. intros m Hm. by rewrite Hsame.
Qed.

(** ** Opening a list of runnables, the last one first *)
Definition open_fn (c : RunnableContext) (id : OperatorId) : res string unit := let* fc := to_fun_context c id in fn_open fc.

Definition open_one (c : RunnableContext) (r : Runnable) : res string Opened :=
  match r with
  | R_Source id op _ =>
      let* _ := open_fn c id in
      let task_id := td_task_id (rc_task_descriptor c) in
      let* ps := parent_executions c task_id in
      let* s := source_open id task_id (operator_fn op) ((fun p => en_task_id p.1) <$> ps) in
      Ok (O_Source s)
  | R_FlatMap id _ _ | R_Filter id _ _ | R_WatermarkAssigner id _ _ => let* _ := open_fn c id in Ok (O_Other id)
  | R_WindowAssigner id _ _ => Ok (O_Other id)
  | R_CoProcess id _ _ => let* m := co_process_open c in let* _ := open_fn c id in Ok (O_CoProcess id m)
  | R_KeyBy id _ _ => let* _ := open_fn c id in let* partition_size := rc_child_parallelism c in Ok (O_KeyBy id partition_size)
  | R_Reduce id k _ _ => let* fc := to_fun_context c id in let* _ := fn_open fc in let* _ := open_key_by k fc in Ok (O_Other id)
  | R_Sink id _ =>
      let* cs := child_jobs c in
      let* n := sink_child_parallelism ((fun p => (jn_parallelism p.1, p.2)) <$> cs) in
      let* _ := open_fn c id in
      Ok (O_Sink id n)
  end.

Fixpoint open_list (c : RunnableContext) (l : list Runnable) : res string (list Opened) :=
  match l with
  | [] => Panic "called `Option::unwrap()` on a `None` value"
  | x :: l =>
      if is_sink_runnable x then let* o := open_one c x in Ok [o]
      else let* os := open_list c l in let* o := open_one c x in Ok (o :: os)
  end.

Lemma Runnable_next_ind (P : Runnable -> Prop) : (forall r, (forall n, runnable_next r = Some n -> P n) -> P r) -> forall r, P r.
Proof.
  intros H. fix IH 1. intros r. apply H. destruct r as [id op n|id op n|id op n|id op n|id op n|id k op n|id op n|id op n|id op]; simpl; intros n' Hn;
    [..|discriminate Hn]; (destruct n as [n|]; [|discriminate Hn]); refine (eq_ind n P (IH n) n' _); congruence.
Qed.

Lemma open_chain_list c r : open_chain c r = open_list c (unlinked <$> chain_list r).
Proof.
  revert r. apply Runnable_next_ind. intros r IH.
  assert (forall n, runnable_next r = Some n -> chain_list r = r :: chain_list n) as Hl by (destruct r; simpl; intros m Hm; by subst).
  destruct (runnable_next r) as [n|] eqn:En.
  - rewrite (Hl n eq_refl), fmap_cons. cbn [open_list]. rewrite <- (IH n eq_refl).
    destruct r; cbn in En; try discriminate En; subst; cbn [open_chain unlinked is_sink_runnable open_one]; unfold open_fn;
      (destruct (open_chain c n); cbn; [try done|done|done]); repeat (match goal with |- context [mbind _ ?m] => destruct m; cbn; try done end).
  - assert (chain_list r = [r]) as -> by (destruct r; cbn in En; by subst). destruct r; cbn in En; subst; try done.
    cbn. unfold open_fn. repeat (match goal with |- context [mbind _ ?m] => destruct m; cbn; try done end).
Qed.

Lemma open_list_ok c l x os o : Forall (fun r => is_sink_runnable r = false) l -> is_sink_runnable x = true ->
  Forall2 (fun r o => open_one c r = Ok o) l os -> open_one c x = Ok o -> open_list c (l ++ [x]) = Ok (os ++ [o]).
Proof.
  intros Hl Hx Hos Ho. induction Hos as [|r o' l os Hr _ IH]; cbn [app open_list].
  - by rewrite Hx, Ho.
  - apply Forall_cons in Hl as [-> Hl]. rewrite (IH Hl). cbn. by rewrite Hr.
Qed.

(** ** The loops of [open] over the parents *)
Lemma mark_parents_ok {E} l : Forall (fun p => 0 <= task_number p < num_tasks p) l ->
  (forall p q, p ∈ l -> q ∈ l -> job_id p = job_id q -> num_tasks p = num_tasks q) ->
  forall m : gmap JobId (list bool), (forall p tasks, p ∈ l -> m !! job_id p = Some tasks -> length tasks = Z.to_nat (num_tasks p)) ->
  exists m', foldM (mark_parent (E := E)) m l = Ok m'.
Proof.
  induction 1 as [|p l Hp _ IH]; intros Hsame m Hm; [by exists m|]. cbn [foldM].
  set (tasks := default (replicate (Z.to_nat (num_tasks p)) false) (m !! job_id p)).
  assert (length tasks = Z.to_nat (num_tasks p)) as Hlen.
  { unfold tasks. destruct (m !! job_id p) as [ts|] eqn:Et; simpl; [by apply (Hm p ts); [left|]|apply length_replicate]. }
  assert (mark_parent (E := E) m p = Ok (<[job_id p := <[Z.to_nat (task_number p) := true]> tasks]> m)) as ->
    by (unfold mark_parent; fold tasks; by rewrite (proj2 (Nat.ltb_lt _ _)) by (rewrite Hlen; lia)).
  cbn. apply IH; [set_solver|].
  intros q ts Hq. rewrite lookup_insert_Some. intros [[Heq <-]|[_ Hts]]; [|by apply Hm; [right|]].
  rewrite length_insert, Hlen. f_equal. apply Hsame; [by left|by right|done].
Qed.

Lemma co_process_loop_ok (find : OperatorId -> option JobId) (h : OperatorId -> JobId) ids : forall index (m0 : gmap JobId Z),
  Forall (fun id => find id = Some (h id)) ids -> NoDup (h <$> ids) ->
  exists m, co_process_open_loop find index ids m0 = Ok m /\
    (forall q id, ids !! q = Some id -> m !! h id = Some (index + Z.of_nat q)) /\
    (forall job, job ∉ h <$> ids -> m !! job = m0 !! job) /\ dom m = list_to_set (h <$> ids) ∪ dom m0.
Proof.
  induction ids as [|id ids IH]; intros index m0 Hf Hnd; [exists m0; split_and!; [done|done|done|set_solver]|].
  apply Forall_cons in Hf as [Hid Hf]. rewrite fmap_cons in Hnd. apply NoDup_cons in Hnd as [Hout Hnd]. cbn [co_process_open_loop]. rewrite Hid. cbn.
  destruct (IH (index + 1) (<[h id := index]> m0) Hf Hnd) as (m & -> & Hm & Hm0 & Hdom). exists m. split_and!; [done| | |].
  - intros [|q] id' Hq; cbn in Hq.
    + simplify_eq. rewrite (Hm0 _ Hout), lookup_insert_eq. f_equal. lia.
    + rewrite (Hm q id' Hq). f_equal. lia.
  - intros job. rewrite not_elem_of_cons. intros [Hne Hj]. rewrite (Hm0 _ Hj). apply lookup_insert_ne. congruence.
  - rewrite Hdom, dom_insert_L. set_solver.
Qed.

(** ** The operators of a job and of the jobs before it *)
Section of_program.
Context (g : RawStreamGraph) (Hg : ginv g []) (jg : JobGraph) (Hjg : job_graph_ok g jg).

Abbreviation ops := (snd <$> operators g : Operators).

Lemma operator_at k n : raw_nodes (dag g) !! k = Some n -> sn_id n = Z.of_nat k /\
  exists o, ops !! sn_id n = Some o /\ OperatorType_from o = sn_operator_type n.
Proof.
  intros Hn. pose proof (ri_ids g (proj1 Hg) _ _ Hn) as Hid. split; [done|]. destruct (ri_ops g (proj1 Hg) _ _ Hn) as (o & Ho & Hty).
  exists o. by rewrite Hid, lookup_fmap, Ho.
Qed.

Lemma abs_at k n : raw_nodes (dag g) !! k = Some n -> abs g !! k = Some (abs_node n).
Proof. intros Hn. unfold abs. by rewrite list_lookup_fmap, Hn. Qed.

(** A parent in the same job. *)
Lemma parent_next k n p : raw_nodes (dag g) !! k = Some n -> sn_operator_type n <> OT_Source -> p ∈ a_parents (abs_node n) -> next g p k.
Proof.
  intros Hn Hty Hp. pose proof (sh_nodes _ _ (proj2 Hg) _ _ (abs_at k n Hn)) as Hok. unfold node_ok in Hok. rewrite decide_False in Hok by done.
  destruct Hok as (p' & b & Hps & Hb & Hnk & _). rewrite Hps in Hp. apply list_elem_of_singleton in Hp as ->.
  destruct (abs_lookup _ _ _ Hb) as (m & Hm & ->). destruct (parent_child g Hg p' k n Hn) as [e He]; [rewrite Hps; by left|].
  exists m, e. split_and!; try done. pose proof (children_cases g Hg p' m Hm) as Hc. destruct (children (dag g) p') as [|[e' c'] [|]]; [set_solver| |done]. f_equal. set_solver.
Qed.

Lemma next_only_parent p k n m : next g p k -> raw_nodes (dag g) !! k = Some n -> raw_nodes (dag g) !! p = Some m -> only_parent g n m.
Proof.
  intros Hnext Hn Hm. destruct (next_spec g Hg _ _ Hnext) as (_ & n' & Hn' & Hp & Hns). rewrite Hn in Hn'. injection Hn' as <-.
  eapply (only_parent_abs g k); [apply Hg|done| |done]. pose proof (sh_nodes _ _ (proj2 Hg) _ _ (abs_at _ _ Hn)) as Hok. unfold node_ok in Hok.
  rewrite decide_False in Hok by done. destruct Hok as (q & b & Hq & _). rewrite Hq in Hp |- *. set_solver.
Qed.

(** A job with its path. *)
Definition path_of (j : JobNode) (s : nat) (js : list nat) (cs : list (EdgeIndex * NodeIndex)) : Prop :=
  is_source_at g s /\ jn_job_id j = Z.of_nat s /\ job_path g s js cs /\
  jn_stream_nodes j = nodes_at g js /\ jn_child_job_ids j = (fun c => Z.of_nat c.2) <$> cs.

Lemma job_path_of i j : raw_nodes (jg_dag jg) !! i = Some j -> exists s js cs, path_of j s js cs.
Proof. intros Hj. pose proof (jg_paths _ _ Hjg) as Hp. rewrite Forall_forall in Hp. apply Hp. by eapply list_elem_of_lookup_2. Qed.

Lemma elem_of_job j s js cs n : path_of j s js cs -> n ∈ jn_stream_nodes j <-> exists k, rtc (next g) s k /\ raw_nodes (dag g) !! k = Some n.
Proof.
  intros (_ & _ & Hp & -> & _). unfold nodes_at. rewrite list_elem_of_omap. by setoid_rewrite (job_path_elem g _ _ _ Hp).
Qed.

Lemma NoDup_job_ids j s js cs : path_of j s js cs -> NoDup (sn_id <$> jn_stream_nodes j).
Proof.
  intros (_ & _ & Hp & -> & _). pose proof (job_path_NoDup g Hg _ _ _ Hp) as Hnd. pose proof (job_path_range g Hg _ _ _ Hp) as Hr. clear Hp.
  replace (sn_id <$> nodes_at g js) with (Z.of_nat <$> js); [apply NoDup_fmap_2; [apply _|done]|].
  clear Hnd. induction Hr as [|k js Hk _ IH]; [done|]. unfold nodes_at in *. cbn [omap list_omap]. destruct (node_at g k Hk) as (n & Hn & _).
  rewrite Hn, !fmap_cons, IH. f_equal. by rewrite (ri_ids g (proj1 Hg) _ _ Hn).
Qed.

(** An operator is in one job only. *)
Lemma same_job_index i i' j j' n : raw_nodes (jg_dag jg) !! i = Some j -> raw_nodes (jg_dag jg) !! i' = Some j' ->
  n ∈ jn_stream_nodes j -> n ∈ jn_stream_nodes j' -> i = i'.
Proof.
  intros Hj Hj' Hn Hn'. destruct (job_path_of i j Hj) as (s & js & cs & Hp). destruct (job_path_of i' j' Hj') as (s' & js' & cs' & Hp').
  apply (elem_of_job j s js cs n Hp) in Hn as (k & Hk & Hnk). apply (elem_of_job j' s' js' cs' n Hp') in Hn' as (k' & Hk' & Hnk').
  assert (k = k') as <-. { apply (ri_ids g (proj1 Hg)) in Hnk, Hnk'. lia. }
  assert (s = s') as <- by (eapply (owner_unique g Hg); [apply Hp|apply Hp'|done|done]).
  eapply (NoDup_fmap_index jn_job_id); [apply (jg_ids _ _ Hjg)|done|done|]. destruct Hp as (_ & -> & _), Hp' as (_ & -> & _). done.
Qed.

(** The parents of a source are the sinks of the jobs with an edge to its job. *)
Lemma edge_from_sink i j s js cs a w jp : raw_nodes (jg_dag jg) !! i = Some j -> path_of j s js cs ->
  mkEdge a i w ∈ raw_edges (jg_dag jg) -> raw_nodes (jg_dag jg) !! a = Some jp ->
  exists m k n, raw_nodes (dag g) !! s = Some m /\ k ∈ a_parents (abs_node m) /\ raw_nodes (dag g) !! k = Some n /\ n ∈ jn_stream_nodes jp.
Proof.
  intros Hj Hp He Ha. apply (jg_edges _ _ Hjg) in He as (ja & jb & Ha' & Hj' & Hc & _).
  rewrite Ha in Ha'. injection Ha' as <-. rewrite Hj in Hj'. injection Hj' as <-.
  destruct (job_path_of a jp Ha) as (sp & jsp & csp & Hpp). destruct Hp as (_ & Hid & _). rewrite Hid in Hc.
  destruct (job_path_ends g _ _ _ (proj1 (proj2 (proj2 Hpp)))) as (_ & k & n & Hk & Hn & _ & Hcs). destruct Hpp as (Hsp & Hidp & Hpath & Hns & Hch).
  rewrite Hch, Hcs in Hc. apply list_elem_of_fmap in Hc as ([e c] & Heq & Hin). simpl in Heq. apply Nat2Z.inj in Heq as <-.
  pose proof (children_cases g Hg k n Hn) as Hcc. destruct (children (dag g) k) as [|[e' c'] [|]]; [set_solver| |done].
  apply list_elem_of_singleton in Hin. simplify_eq. destruct Hcc as (_ & m & Hm & Hpm & _). exists m, k, n. split_and!; try done.
  rewrite Hns. unfold nodes_at. apply list_elem_of_omap. exists k. split; [by apply last_Some_elem_of|done].
Qed.

Lemma sink_has_edge i j s js cs m k : raw_nodes (jg_dag jg) !! i = Some j -> path_of j s js cs -> raw_nodes (dag g) !! s = Some m -> k ∈ a_parents (abs_node m) ->
  exists a jp n w, raw_nodes (jg_dag jg) !! a = Some jp /\ raw_nodes (dag g) !! k = Some n /\ n ∈ jn_stream_nodes jp /\ mkEdge a i w ∈ raw_edges (jg_dag jg).
Proof.
  intros Hj Hp Hm Hk. destruct Hp as ((m' & Hm' & Hty) & Hid & _). rewrite Hm in Hm'. injection Hm' as <-.
  destruct (parent_job g Hg s m k Hm Hty Hk) as (sp & jp0 & Hsp & Hjp0 & Hr & Hc & _).
  assert (k < length (raw_nodes (dag g)))%nat as [n Hn]%lookup_lt_is_Some_2.
  { pose proof (sh_order _ _ (proj2 Hg) _ _ _ (abs_at _ _ Hm) Hk). apply lookup_lt_Some in Hm. lia. }
  assert (n ∈ concat (jn_stream_nodes <$> raw_nodes (jg_dag jg))) as Hin by (rewrite (jg_partition _ _ Hjg); by eapply list_elem_of_lookup_2).
  apply elem_of_concat in Hin as (l & Hnl & Hl). apply list_elem_of_fmap in Hl as (jp & -> & Hl). apply list_elem_of_lookup in Hl as [a Ha].
  destruct (job_path_of a jp Ha) as (sp' & jsp & csp & Hpp). pose proof Hnl as Hnl'. apply (elem_of_job jp _ _ _ n Hpp) in Hnl' as (k' & Hr' & Hk').
  assert (k' = k) as ->. { apply (ri_ids g (proj1 Hg)) in Hn, Hk'. lia. }
  assert (sp' = sp) as -> by (eapply (owner_unique g Hg); [apply Hpp|done|done|done]).
  assert (Z.of_nat s ∈ jn_child_job_ids jp) as Hc'.
  { destruct Hpp as (_ & _ & Hpath & _ & ->). destruct Hjp0 as (js0 & cs0 & Hpath0 & ->). destruct (job_path_det g _ _ _ _ _ Hpath Hpath0) as [-> ->]. done. }
  destruct (jg_linked _ _ Hjg a jp _ Ha Hc') as (b & jb & w & Hb & Hidb & He). exists a, jp, n, w. split_and!; try done.
  replace i with b; [done|]. eapply (NoDup_fmap_index jn_job_id); [apply (jg_ids _ _ Hjg)|done|done|]. by rewrite Hidb.
Qed.

(** The operators before a reduction, down to the key-by operator of the job before. *)
Lemma reduce_path s r ir : is_source_at g s -> rtc (next g) s ir -> raw_nodes (dag g) !! ir = Some r -> sn_operator_type r = OT_Reduce ->
  exists iw w m ik k ib b, next g s iw /\ next g iw ir /\ raw_nodes (dag g) !! iw = Some w /\ sn_operator_type w = OT_WindowAssigner /\
    raw_nodes (dag g) !! s = Some m /\ a_parents (abs_node m) = [ik] /\
    raw_nodes (dag g) !! ik = Some k /\ sn_operator_type k = OT_Sink /\ next g ib ik /\ raw_nodes (dag g) !! ib = Some b /\ sn_operator_type b = OT_KeyBy.
Proof.
  intros Hs Hr Hn Hty. assert (forall n p, only_parent g n p -> exists x, a_parents (abs_node n) = [x] /\ raw_nodes (dag g) !! x = Some p) as Hone.
  { intros n p (x & Hx & Hp). exists x. split; [|done]. simpl. rewrite Hx. simpl. by rewrite Nat2Z.id. }
  destruct (reduce_chain g [] ir r Hg Hn Hty) as (w & m & k & b & (iw & Pw & Hw)%Hone & Tw & (is0 & Pm & Hm)%Hone & Tm & (ik & Pk & Hk)%Hone & Tk & (ib & Pb & Hb)%Hone & Tb).
  assert (next g iw ir) as N1 by (apply (parent_next _ r); [done|by rewrite Hty|rewrite Pw; by left]).
  assert (next g is0 iw) as N2 by (apply (parent_next _ w); [done|by rewrite Tw|rewrite Pm; by left]).
  assert (next g ib ik) as N3 by (apply (parent_next _ k); [done|by rewrite Tk|rewrite Pb; by left]).
  assert (is0 = s) as -> by (eapply (owner_unique g Hg); [by exists m|done|by eapply rtc_l, rtc_once|done]).
  exists iw, w, m, ik, k, ib, b. done.
Qed.

Lemma one_reduce s r r' ir ir' : is_source_at g s -> rtc (next g) s ir -> raw_nodes (dag g) !! ir = Some r -> sn_operator_type r = OT_Reduce ->
  rtc (next g) s ir' -> raw_nodes (dag g) !! ir' = Some r' -> sn_operator_type r' = OT_Reduce -> ir = ir'.
Proof.
  intros Hs H1 H2 H3 H1' H2' H3'. destruct (reduce_path s r ir Hs H1 H2 H3) as (iw & _ & _ & _ & _ & _ & _ & N1 & N2 & _).
  destruct (reduce_path s r' ir' Hs H1' H2' H3') as (iw' & _ & _ & _ & _ & _ & _ & N1' & N2' & _).
  rewrite (next_det g _ _ _ N1 N1') in N2. by eapply next_det.
Qed.

(** The only key-by operator of a job is the one before its sink. *)
Lemma key_by_before_sink s ix x ik k : rtc (next g) s ix -> raw_nodes (dag g) !! ix = Some x -> sn_operator_type x = OT_KeyBy ->
  rtc (next g) s ik -> raw_nodes (dag g) !! ik = Some k -> sn_operator_type k = OT_Sink -> next g ix ik.
Proof.
  intros Hx Hnx Tx Hk Hnk Tk. pose proof (children_cases g Hg ix x Hnx) as Hc.
  destruct (children (dag g) ix) as [|[e c] [|]] eqn:Ec; [by rewrite Tx in Hc| |done]. destruct Hc as (Hlt & m & Hm & Hp & Hiff).
  assert (next g ix c) as Nc by (exists x, e; split_and!; [done|by rewrite Tx|done]). pose proof (next_not_source g Hg _ _ Nc) as Hns.
  pose proof (sh_nodes _ _ (proj2 Hg) _ _ (abs_at c m Hm)) as Hok. unfold node_ok in Hok. rewrite decide_False in Hok by (intros T; apply Hns; by exists m).
  destruct Hok as (p & b & Hps & Hb & _ & _ & _ & _ & _ & Hkb). rewrite Hps in Hp. apply list_elem_of_singleton in Hp as <-.
  rewrite (abs_at _ _ Hnx) in Hb. injection Hb as <-. replace ik with c; [done|].
  eapply (sink_unique g s); [exists m; split; [done|by apply Hkb]|by exists k|eapply rtc_r; [exact Hx|exact Nc]|done].
Qed.

(** The one job before a reduction. *)
Lemma reduce_parent i j s js cs r ir : raw_nodes (jg_dag jg) !! i = Some j -> path_of j s js cs ->
  rtc (next g) s ir -> raw_nodes (dag g) !! ir = Some r -> sn_operator_type r = OT_Reduce ->
  exists jp w b, graph_parents (jg_dag jg) i = [(jp, w)] /\ iter_find (fun x => sn_operator_type x = OT_KeyBy) (jn_stream_nodes jp) = Some b /\
    sn_id b ∉ sn_id <$> jn_stream_nodes j /\ b ∈ raw_nodes (dag g) /\ sn_operator_type b = OT_KeyBy /\
    exists w m k, only_parent g r w /\ only_parent g w m /\ only_parent g m k /\ only_parent g k b.
Proof.
  intros Hj Hp Hr Hnr Tr. destruct (reduce_path s r ir (proj1 Hp) Hr Hnr Tr) as (iw & w & m & ik & k & ib & b & N1 & N2 & Hw & Tw & Hm & Pm & Hk & Tk & N3 & Hb & Tb).
  destruct (sink_has_edge i j s js cs m ik Hj Hp Hm) as (a & jp & k' & we & Ha & Hk' & Hin & He); [rewrite Pm; by left|]. simplify_eq.
  destruct (job_path_of a jp Ha) as (sp & jsp & csp & Hpp). pose proof Hin as Hin'. apply (elem_of_job jp _ _ _ _ Hpp) in Hin' as (ik' & Rk & Hik').
  assert (ik' = ik) as ->. { apply (ri_ids g (proj1 Hg)) in Hk, Hik'. lia. }
  assert (rtc (next g) sp ib) as Rb.
  { apply rtc_inv_r in Rk as [->|(y & Ry & Ny)]; [|by rewrite (next_inj g Hg _ _ _ N3 Ny)]. by destruct (next_not_source g Hg _ _ N3 (proj1 Hpp)). }
  assert (b ∈ jn_stream_nodes jp) as Hbin by (apply (elem_of_job jp _ _ _ _ Hpp); eauto).
  exists jp, we, b. split_and!.
  - unfold graph_parents. rewrite neighbours_filter, (single_edge _ (mkEdge a i we) i); [simpl; by rewrite Ha|apply (jg_one_child _ _ Hjg)|done|done|].
    intros [a' b' w'] He' Hb'. cbn in Hb' |- *. subst b'. pose proof He' as Hnode. apply (jg_edges _ _ Hjg) in Hnode as (ja & _ & Ha' & _).
    destruct (edge_from_sink i j s js cs a' w' ja Hj Hp He' Ha') as (m' & x & n' & Hm' & Hx & Hn' & Hin').
    rewrite Hm in Hm'. injection Hm' as <-. rewrite Pm in Hx. apply list_elem_of_singleton in Hx as ->.
    rewrite Hk in Hn'. injection Hn' as <-. by eapply same_job_index.
  - apply iter_find_Some; [|done|done]. intros y Hy Ty. apply (elem_of_job jp _ _ _ _ Hpp) in Hy as (iy & Ry & Hy).
    pose proof (key_by_before_sink sp iy y ik _ Ry Hy Ty Rk Hk Tk) as Ny. rewrite (next_inj g Hg _ _ _ Ny N3) in Hy. by simplify_eq.
  - intros Hid. apply list_elem_of_fmap in Hid as (b' & Hid & Hb'). assert (b' = b) as ->.
    { apply (elem_of_job j _ _ _ _ Hp) in Hb' as (x & _ & Hx). pose proof (ri_ids g (proj1 Hg) _ _ Hx). pose proof (ri_ids g (proj1 Hg) _ _ Hb).
      assert (x = ib) as -> by lia. by simplify_eq. }
    assert (a = i) as -> by (by eapply same_job_index). apply (jg_order _ _ Hjg _ _ _ _ _ He Ha) in Ha. lia.
  - by eapply list_elem_of_lookup_2.
  - done.
  - exists w, m, k. split_and!.
    + by eapply (next_only_parent iw ir).
    + by eapply (next_only_parent s iw).
    + by eapply (only_parent_abs g s); [apply Hg|..].
    + by eapply (next_only_parent ib ik).
Qed.

(** The key selector a reduction's window was opened on. *)
Definition key_selector_of (r : StreamNode) (kop : DefaultStreamOperator KeySelectorFunction) : Prop :=
  exists w m k b, only_parent g r w /\ only_parent g w m /\ only_parent g m k /\ only_parent g k b /\
    ops !! sn_id b = Some (StreamKeyBy kop).

Lemma runnables_sinks k ns : Forall (fun n => n ∈ raw_nodes (dag g)) ns ->
  Forall2 (fun n x => is_sink_runnable x = bool_decide (sn_operator_type n = OT_Sink) /\ unlinked x = x) ns (runnables_of ops k ns).
Proof.
  induction 1 as [|n ns Hn _ IH]; [constructor|]. apply list_elem_of_lookup in Hn as [x Hx]. destruct (operator_at x n Hx) as (_ & o & Ho & Hty).
  unfold runnables_of in *. cbn [omap list_omap]. rewrite Ho. constructor; [|done]. rewrite <- Hty. by destruct o.
Qed.

(** Only the last operator of a job is a sink. *)
Lemma job_sink_last j s js cs : path_of j s js cs -> exists ns n, jn_stream_nodes j = ns ++ [n] /\ sn_operator_type n = OT_Sink /\
  Forall (fun m => sn_operator_type m <> OT_Sink) ns.
Proof.
  intros Hp. pose proof (NoDup_job_ids _ _ _ _ Hp) as Hnd. pose proof (fun n => elem_of_job j s js cs n Hp) as Hel. destruct Hp as (_ & _ & Hpath & Hns & _).
  destruct (job_path_ends g _ _ _ Hpath) as (_ & k & n & Hk & Hn & Hty & _). apply last_Some in Hk as [js' Hjs].
  assert (jn_stream_nodes j = nodes_at g js' ++ [n]) as Heq by (rewrite Hns, Hjs; unfold nodes_at; rewrite omap_app; cbn [omap list_omap]; by rewrite Hn).
  exists (nodes_at g js'), n. split_and!; [done|done|]. apply Forall_forall. intros m Hm Tm. rewrite Heq, fmap_app in Hnd. apply NoDup_app in Hnd as (_ & Hd & _).
  apply (Hd (sn_id m)); [by apply list_elem_of_fmap_2|]. replace m with n; [by left|].
  assert (m ∈ jn_stream_nodes j) as (x & Rx & Hx)%Hel by (rewrite Heq; set_solver). assert (n ∈ jn_stream_nodes j) as (y & Ry & Hy)%Hel by (rewrite Heq; set_solver).
  assert (x = y) as -> by (eapply (sink_unique g s); [by exists m|by exists n|done|done]). by simplify_eq.
Qed.

Lemma job_nodes_in j s js cs : path_of j s js cs -> Forall (fun n => n ∈ raw_nodes (dag g)) (jn_stream_nodes j).
Proof. intros Hp. apply Forall_forall. intros n (k & _ & Hk)%(elem_of_job j s js cs n Hp). by eapply list_elem_of_lookup_2. Qed.


Context (eg : ExecutionGraph) (md : DagMetadata) (Hmd : metadata_ok g jg eg md).

(** The key selector of a reduction is found in the job before it. *)
Lemma dependency_key_by i j s js cs r ir : raw_nodes (jg_dag jg) !! i = Some j -> path_of j s js cs ->
  rtc (next g) s ir -> raw_nodes (dag g) !! ir = Some r -> sn_operator_type r = OT_Reduce ->
  exists kid kop, key_selector_of r kop /\ kid ∉ sn_id <$> jn_stream_nodes j /\ ops !! kid = Some (StreamKeyBy kop) /\
    forall E (ops' : Operators), ops' !! kid = Some (StreamKeyBy kop) -> get_dependency_key_by (E := E) md ops' (jn_job_id j) = Ok (Some kop, delete kid ops').
Proof.
  intros Hj Hp Hr Hnr Tr. destruct (reduce_parent i j s js cs r ir Hj Hp Hr Hnr Tr) as (jp & w & b & Hgp & Hfind & Hout & Hb & Tb & w' & m & k & P1 & P2 & P3 & P4).
  apply list_elem_of_lookup in Hb as [ib Hb]. destruct (operator_at ib b Hb) as (_ & o & Ho & To). rewrite Tb in To. destruct o as [| | | |kop| | | |]; try done.
  exists (sn_id b), kop. split_and!; [by exists w', m, k, b|done|done|]. intros E ops' Hops'. unfold get_dependency_key_by.
  destruct (mo_job_neighbours _ _ _ _ Hmd E i j Hj) as [-> _]. rewrite Hgp. cbn. rewrite Hfind. cbn. unfold take_operator. by rewrite Hops'.
Qed.

Lemma not_reduce_node n : n ∈ raw_nodes (dag g) -> sn_operator_type n <> OT_Reduce -> not_reduce ops n.
Proof. intros [x Hx]%list_elem_of_lookup Hty. destruct (operator_at x n Hx) as (_ & o & Ho & To). exists o. by rewrite To. Qed.

Lemma made_runnables {E} i j : raw_nodes (jg_dag jg) !! i = Some j ->
  exists k ops', foldM (make_runnable (E := E) md (jn_job_id j)) (ops, []) (jn_stream_nodes j) = Ok (ops', runnables_of ops k (jn_stream_nodes j)) /\
    forall r, r ∈ jn_stream_nodes j -> sn_operator_type r = OT_Reduce -> exists kop, k = Some kop /\ key_selector_of r kop.
Proof.
  intros Hj. destruct (job_path_of i j Hj) as (s & js & cs & Hp). pose proof (NoDup_job_ids _ _ _ _ Hp) as Hnd. pose proof (job_nodes_in _ _ _ _ Hp) as Hin.
  destruct (decide (Exists (fun n => sn_operator_type n = OT_Reduce) (jn_stream_nodes j))) as [Hx|Hx]; cycle 1.
  - destruct (make_runnables_plain (E := E) md (jn_job_id j) None (jn_stream_nodes j) ops [] Hnd) as (ops' & Ef & _).
    + rewrite Forall_forall in Hin |- *. intros n Hn. apply not_reduce_node; [by apply Hin|]. intros T. apply Hx, Exists_exists. eauto.
    + exists None, ops'. split; [done|]. intros r Hr Tr. destruct Hx. apply Exists_exists. eauto.
  - apply Exists_exists in Hx as (r & Hr & Tr). pose proof Hr as Hpos. apply (elem_of_job j s js cs r Hp) in Hpos as (ir & Rr & Hir).
    destruct (dependency_key_by i j s js cs r ir Hj Hp Rr Hir Tr) as (kid & kop & Hkey & Hkid & Hk & Hdep).
    assert (forall r', r' ∈ jn_stream_nodes j -> sn_operator_type r' = OT_Reduce -> r' = r) as Hone.
    { intros r' (ir' & Rr' & Hir')%(elem_of_job j s js cs r' Hp) Tr'. rewrite (one_reduce s r' r ir' ir) in Hir' by (done || apply Hp). by simplify_eq. }
    destruct (operator_at ir r Hir) as (_ & o & Ho & To). rewrite Tr in To. destruct o as [| | | | |op| | |]; try done.
    apply list_elem_of_split in Hr as (l1 & l2 & Hl). rewrite Hl in Hnd, Hin, Hkid, Hone |- *.
    assert (forall l, (forall n, n ∈ l -> n ∈ l1 ++ r :: l2 /\ n <> r) -> Forall (not_reduce ops) l) as Hplain.
    { intros l Hl'. apply Forall_forall. intros n Hn. destruct (Hl' n Hn) as [Hin' Hne]. rewrite Forall_forall in Hin. apply not_reduce_node; [by apply Hin|].
      intros T. by apply Hne, Hone. }
    assert (r ∉ l1 /\ r ∉ l2) as [Hr1 Hr2].
    { apply NoDup_fmap_1, NoDup_app in Hnd as (_ & Hd & Hnd2). apply NoDup_cons in Hnd2 as [? _]. split; [|done]. intros H1. apply (Hd r H1). by left. }
    destruct (make_runnables_reduce (E := E) md (jn_job_id j) kid kop ops l1 r op l2 Hnd) as (ops' & Ef);
      [apply Hplain; intros n Hn; split; [set_solver|congruence]|apply Hplain; intros n Hn; split; [set_solver|congruence]|done|done|done|apply Hdep|].
    exists (Some kop), ops'. split; [done|]. intros r' Hr' Tr'. rewrite (Hone r' Hr' Tr'). eauto.
Qed.

Lemma chain_built {E} i j : raw_nodes (jg_dag jg) !! i = Some j -> listed (jg_dag jg) i ->
  exists r k, build_invoke_chain (E := E) md (jn_job_id j) ops = Ok r /\
    unlinked <$> chain_list r = runnables_of ops k (jn_stream_nodes j) /\
    forall n, n ∈ jn_stream_nodes j -> sn_operator_type n = OT_Reduce -> exists kop, k = Some kop /\ key_selector_of n kop.
Proof.
  intros Hj Hl. destruct (made_runnables (E := E) i j Hj) as (k & ops' & Ef & Hk). destruct (job_path_of i j Hj) as (s & js & cs & Hp).
  destruct (job_sink_last _ _ _ _ Hp) as (ns & n & Hns & Tn & Hn). pose proof (job_nodes_in _ _ _ _ Hp) as Hin.
  pose proof (runnables_sinks k _ Hin) as Hsk. unfold build_invoke_chain. destruct (mo_job _ _ _ _ Hmd i j Hj) as [Hjob _]. rewrite (Hjob Hl). cbn. rewrite Ef. cbn.
  rewrite Hns in Hsk |- *. apply Forall2_app_inv_l in Hsk as (xs & ys & Hxs & Hys & Heq). apply Forall2_cons_inv_l in Hys as (x & zs & [Hx Ux] & Hz & ->).
  apply Forall2_nil_inv_l in Hz as ->. rewrite Heq, rev_app_distr. cbn.
  destruct (link_loop_ok (E := E) (rev xs) x) as (r & Er & Hr).
  { apply Forall_forall. intros y Hy. rewrite list_elem_of_In, <- in_rev, <- list_elem_of_In in Hy. apply list_elem_of_lookup in Hy as [q Hq].
    destruct (Forall2_lookup_r _ _ _ _ _ Hxs Hq) as (m & Hm & [-> _]). rewrite Forall_forall in Hn. apply bool_decide_eq_false, Hn. by eapply list_elem_of_lookup_2. }
  exists r, k. split; [done|]. split; [|by rewrite <- Hns]. rewrite Hr.
  assert (unlinked <$> xs = xs) as Hux.
  { clear -Hxs. induction Hxs as [|n x ns xs [_ Ux] _ IH]; [done|]. by rewrite fmap_cons, Ux, IH. }
  assert (rev (unlinked <$> rev xs) = unlinked <$> xs) as -> by (change (rev (map unlinked (rev xs)) = map unlinked xs); by rewrite map_rev, rev_involutive).
  rewrite Hux. f_equal. rewrite bool_decide_true in Hx by done. by destruct x.
Qed.

(** ** Opening the chain of a task *)
Context (Heg : execution_graph_ok jg ops eg).
Context (c : RunnableContext) (Hc : rc_dag_metadata c = md).
Context (i : NodeIndex) (j : JobNode) (Hj : raw_nodes (jg_dag jg) !! i = Some j) (Hl : listed (jg_dag jg) i).
Context (x : NodeIndex) (t : ExecutionNode) (Hx : raw_nodes (eg_dag eg) !! x = Some t) (Ht : td_task_id (rc_task_descriptor c) = en_task_id t).
Context (Hid : job_id (en_task_id t) = jn_job_id j) (Hod : od_operator_id <$> td_operators (rc_task_descriptor c) = sn_id <$> jn_stream_nodes j).

Lemma rc_job : rc_job_id c = jn_job_id j.
Proof. unfold rc_job_id. by rewrite Ht. Qed.

Lemma fun_context_ok n : n ∈ jn_stream_nodes j -> exists fc, to_fun_context (E := string) c (sn_id n) = Ok fc /\
  fc_operator_id fc = sn_id n /\ fc_task_id fc = en_task_id t /\ fc_input_schema fc = sn_input_schema n /\ fc_output_schema fc = sn_output_schema n /\
  fc_parents fc = graph_parents (eg_dag eg) x /\ fc_children fc = graph_children (eg_dag eg) x.
Proof.
  intros Hn. unfold to_fun_context. rewrite Hc, Ht. destruct (mo_task_neighbours _ _ _ _ Hmd string x t Hx) as [-> ->]. cbn.
  destruct (job_path_of i j Hj) as (s & js & cs & Hp). pose proof (job_nodes_in _ _ _ _ Hp) as Hin. rewrite Forall_forall in Hin.
  rewrite (mo_operator _ _ _ _ Hmd n (Hin n Hn)). cbn.
  assert (is_Some (iter_find (fun o => od_operator_id o = sn_id n) (td_operators (rc_task_descriptor c)))) as [o ->].
  { unfold iter_find. assert (sn_id n ∈ od_operator_id <$> td_operators (rc_task_descriptor c)) as Hin' by (rewrite Hod; by apply list_elem_of_fmap_2).
    apply list_elem_of_fmap in Hin' as (o & Ho & Hin'). apply fmap_is_Some. by apply (list_find_elem_of _ _ o). }
  cbn. eexists. split; [done|]. done.
Qed.

(** A task has as many parents as its alignment waits for. *)
Lemma task_in_range p : p ∈ raw_nodes (eg_dag eg) -> exists jb k, jb ∈ raw_nodes (jg_dag jg) /\ en_task_id p = job_task jb k /\ (k < Z.to_nat (jn_parallelism jb))%nat.
Proof.
  intros Hp. assert (en_task_id p ∈ en_task_id <$> raw_nodes (eg_dag eg)) as Hin by (by apply list_elem_of_fmap_2).
  rewrite (eg_tasks _ _ _ Heg) in Hin. apply elem_of_concat in Hin as (l & Hin & Hl'). apply list_elem_of_fmap in Hl' as (jb & -> & Hjb).
  apply list_elem_of_fmap in Hin as (k & -> & Hk). exists jb, k. split_and!; [done|done|]. apply elem_of_seq in Hk. lia.
Qed.

Abbreviation parent_tasks := ((fun p => en_task_id p.1) <$> graph_parents (eg_dag eg) x).

Lemma source_opens {F} id (f : F) : exists s, source_open id (en_task_id t) f parent_tasks = Ok s /\
  waiting_end_flags F s = Z.max 1 (Z.of_nat (length parent_tasks)) /\ barrier_alignment F s = AlignManager_new (Z.of_nat (length parent_tasks)) /\
  stream_status_alignment F s = AlignManager_new (Z.of_nat (length parent_tasks)).
Proof.
  assert (forall p, p ∈ parent_tasks -> exists jb k, jb ∈ raw_nodes (jg_dag jg) /\ p = job_task jb k /\ (k < Z.to_nat (jn_parallelism jb))%nat) as Hr.
  { intros p Hp. apply list_elem_of_fmap in Hp as ([n w] & -> & Hin). apply elem_of_neighbours in Hin as (e & _ & _ & Hn & _).
    apply task_in_range. by eapply list_elem_of_lookup_2. }
  unfold source_open. destruct (mark_parents_ok (E := string) parent_tasks) with (m := ∅ : gmap JobId (list bool)) as (m & ->).
  - apply Forall_forall. intros p (jb & k & _ & -> & Hk)%Hr. simpl. lia.
  - intros p q (jb & k & Hjb & -> & _)%Hr (jb' & k' & Hjb' & -> & _)%Hr Heq. simpl in *. f_equal. by apply (NoDup_fmap_eq jn_job_id _ jb jb' (jg_ids _ _ Hjg)).
  - intros p tasks _. by rewrite lookup_empty.
  - cbn. eexists. split; [done|]. cbn. split_and!; [|done|done]. destruct (Z.eqb_spec (Z.of_nat (length parent_tasks)) 0); lia.
Qed.

(** A job has one child at most. *)
Lemma one_child : (length (graph_children (jg_dag jg) i) <= 1)%nat.
Proof.
  unfold graph_children. rewrite neighbours_filter. etrans; [apply length_omap_le|].
  assert (NoDup (e_source <$> filter (fun e => e_source e = i) (raw_edges (jg_dag jg)))) as Hnd by (apply NoDup_fmap_filter, (jg_one_child _ _ Hjg)).
  pose proof (fun e => proj1 (list_elem_of_filter (fun e => e_source e = i) (raw_edges (jg_dag jg)) e)) as Hf.
  destruct (filter _ _) as [|e [|e' l]]; [simpl; lia|simpl; lia|]. exfalso. rewrite !fmap_cons in Hnd. apply NoDup_cons in Hnd as [Hnd _].
  apply Hnd. destruct (Hf e) as [-> _]; [by left|]. destruct (Hf e') as [-> _]; [by right; left|]. by left.
Qed.

(** The parents of the source, found among the parent jobs. *)
Lemma parent_job_found s js cs src pid : path_of j s js cs -> raw_nodes (dag g) !! s = Some src -> pid ∈ sn_parent_ids src ->
  exists a jp w, find_parent_job (graph_parents (jg_dag jg) i) pid = Some (jn_job_id jp) /\ raw_nodes (jg_dag jg) !! a = Some jp /\
    (jp, w) ∈ graph_parents (jg_dag jg) i /\ pid ∈ sn_id <$> jn_stream_nodes jp.
Proof.
  intros Hp Hs Hpid. destruct (sink_has_edge i j s js cs src (Z.to_nat pid) Hj Hp Hs) as (a & jp & n & w & Ha & Hn & Hin & He); [simpl; by apply list_elem_of_fmap_2|].
  assert (sn_id n = pid) as Hnid.
  { rewrite (ri_ids g (proj1 Hg) _ _ Hn). rewrite (ri_parents g (proj1 Hg) _ _ Hs) in Hpid. apply list_elem_of_fmap in Hpid as (e & -> & _). by rewrite Nat2Z.id. }
  assert ((jp, w) ∈ graph_parents (jg_dag jg) i) as Hps by (apply elem_of_neighbours; by exists (mkEdge a i w)).
  unfold find_parent_job, iter_find at 1.
  destruct (list_find_elem_of (fun p => is_Some (iter_find (fun z => sn_id z = pid) (jn_stream_nodes p.1))) _ (jp, w) Hps) as [[q [jp' w']] Hq].
  { cbn. unfold iter_find. apply fmap_is_Some. by apply (list_find_elem_of _ _ n). }
  rewrite Hq. cbn. apply list_find_Some in Hq as (Hq & Hz & _). cbn in Hz. apply fmap_is_Some in Hz as [[z n'] Hz]. apply list_find_Some in Hz as (Hz & Hn' & _).
  apply list_elem_of_lookup_2 in Hq. pose proof Hq as Hq'. apply elem_of_neighbours in Hq' as (e & _ & _ & Ha' & _).
  exists (e_source e), jp', w'. split_and!; [done|done|done|]. rewrite <- Hn'. apply list_elem_of_fmap_2. by eapply list_elem_of_lookup_2.
Qed.

(** Two parents are never in one job. *)
Lemma parents_apart s js cs src p q a b jp jq : path_of j s js cs -> raw_nodes (dag g) !! s = Some src -> p ∈ sn_parent_ids src -> q ∈ sn_parent_ids src ->
  raw_nodes (jg_dag jg) !! a = Some jp -> raw_nodes (jg_dag jg) !! b = Some jq -> p ∈ sn_id <$> jn_stream_nodes jp -> q ∈ sn_id <$> jn_stream_nodes jq ->
  jn_job_id jp = jn_job_id jq -> p = q.
Proof.
  intros Hp Hs Hpp Hqq Ha Hb Hinp Hinq Heq. assert (a = b) as <- by (eapply (NoDup_fmap_index jn_job_id); [apply (jg_ids _ _ Hjg)|..]; done).
  rewrite Ha in Hb. injection Hb as <-. destruct (job_path_of a jp Ha) as (sp & jsp & csp & Hpp').
  assert (forall y, y ∈ sn_parent_ids src -> y ∈ sn_id <$> jn_stream_nodes jp -> exists k, y = Z.of_nat k /\ is_sink_node g k /\ rtc (next g) sp k) as Hsink.
  { intros y Hy Hin. apply list_elem_of_fmap in Hin as (n & -> & Hin). apply (elem_of_job jp _ _ _ n Hpp') in Hin as (k & Rk & Hk).
    exists k. split_and!; [by apply (ri_ids g (proj1 Hg))| |done]. exists n. split; [done|].
    pose proof (sh_nodes _ _ (proj2 Hg) _ _ (abs_at s src Hs)) as Hok. unfold node_ok in Hok. destruct (proj1 Hp) as (src' & Hs' & Tsrc). rewrite Hs in Hs'. injection Hs' as <-.
    rewrite decide_True in Hok by done. rewrite Forall_forall in Hok. specialize (Hok k). cbn in Hok. rewrite (abs_at k n Hk) in Hok. cbn in Hok.
    assert (k ∈ Z.to_nat <$> sn_parent_ids src) as Hk'.
    { rewrite (ri_ids g (proj1 Hg) _ _ Hk) in Hy. apply (list_elem_of_fmap_2 Z.to_nat) in Hy. by rewrite Nat2Z.id in Hy. }
    specialize (Hok Hk'). congruence. }
  destruct (Hsink p Hpp Hinp) as (kp & -> & Sp & Rp), (Hsink q Hqq Hinq) as (kq & -> & Sq & Rq). f_equal. by eapply (sink_unique g sp).
Qed.

Lemma NoDup_parent_ids s src : raw_nodes (dag g) !! s = Some src -> NoDup (sn_parent_ids src).
Proof.
  intros Hs. pose proof (sh_nodup _ _ (proj2 Hg)) as Hnd. cbn in Hnd. apply abs_at in Hs. apply list_elem_of_lookup_2 in Hs.
  apply (NoDup_fmap_1 Z.to_nat). change (NoDup (a_parents (abs_node src))). revert Hnd. induction (abs g) as [|n l IH]; [by apply elem_of_nil in Hs|].
  rewrite fmap_cons. cbn [concat]. intros (H1 & _ & H2)%NoDup_app. apply elem_of_cons in Hs as [<-|Hs]; [done|by apply IH].
Qed.

Lemma co_process_opens : exists src m, head (jn_stream_nodes j) = Some src /\ co_process_open c = Ok m /\ size m = length (sn_parent_ids src) /\
  forall q pid, sn_parent_ids src !! q = Some pid -> exists jp w, (jp, w) ∈ graph_parents (jg_dag jg) i /\
    pid ∈ sn_id <$> jn_stream_nodes jp /\ m !! jn_job_id jp = Some (Z.of_nat q).
Proof.
  destruct (job_path_of i j Hj) as (s & js & cs & Hp). destruct (proj1 Hp) as (src & Hs & Tsrc).
  assert (jn_stream_nodes j !! 0%nat = Some src) as Hhead.
  { destruct Hp as (_ & _ & Hpath & -> & _). by rewrite (job_path_nodes g s js cs src Hpath Hs). }
  pose proof (fun pid => parent_job_found s js cs src pid Hp Hs) as Hfind. set (ps := graph_parents (jg_dag jg) i) in *.
  set (h := fun pid => default 0 (find_parent_job ps pid)).
  assert (NoDup (h <$> sn_parent_ids src)) as Hnd.
  { apply NoDup_fmap_2_strong; [|by eapply NoDup_parent_ids]. intros p q Hpp Hqq Heq.
    destruct (Hfind p Hpp) as (a & jp & w & Ep & Ha & _ & Hinp). destruct (Hfind q Hqq) as (b & jq & w' & Eq & Hb & _ & Hinq).
    unfold h in Heq. rewrite Ep, Eq in Heq. by eapply (parents_apart s js cs src p q a b jp jq). }
  destruct (co_process_loop_ok (find_parent_job ps) h (sn_parent_ids src) 0 ∅) as (m & Em & Hm & _ & Hdom); [|done|].
  { apply Forall_forall. intros pid Hpid. destruct (Hfind pid Hpid) as (a & jp & w & Ep & _). unfold h. by rewrite Ep. }
  exists src, m. split_and!; [by destruct (jn_stream_nodes j)| | |].
  - unfold co_process_open, rc_job_node, parent_jobs. rewrite Hc, rc_job. destruct (mo_job _ _ _ _ Hmd i j Hj) as [-> _]; [|done]. cbn. rewrite Hhead. cbn.
    destruct (mo_job_neighbours _ _ _ _ Hmd string i j Hj) as [-> _]. cbn. exact Em.
  - rewrite <- (size_dom (D := gset JobId)), Hdom, dom_empty_L, union_empty_r_L. rewrite size_list_to_set by exact Hnd. apply length_fmap.
  - intros q pid Hq. destruct (Hfind pid) as (a & jp & w & Ep & Ha & Hin & Hpid); [by eapply list_elem_of_lookup_2|].
    exists jp, w. split_and!; [done|done|]. pose proof (Hm q pid Hq) as Hmq. unfold h in Hmq. by rewrite Ep in Hmq.
Qed.

(** What an opened runnable knows. *)
Definition opened_id (o : Opened) : OperatorId :=
  match o with O_Source s => sr_operator_id _ s | O_CoProcess id _ | O_KeyBy id _ | O_Sink id _ | O_Other id => id end.

Definition opened_as (o : Opened) : Prop :=
  match o with
  | O_Source s =>
      let n := Z.of_nat (length (graph_parents (eg_dag eg) x)) in
      waiting_end_flags _ s = Z.max 1 n /\ barrier_alignment _ s = AlignManager_new n /\ stream_status_alignment _ s = AlignManager_new n
  | O_CoProcess _ m => exists src, head (jn_stream_nodes j) = Some src /\ size m = length (sn_parent_ids src) /\
      forall q pid, sn_parent_ids src !! q = Some pid -> exists jp w, (jp, w) ∈ graph_parents (jg_dag jg) i /\
        pid ∈ sn_id <$> jn_stream_nodes jp /\ m !! jn_job_id jp = Some (Z.of_nat q)
  | O_KeyBy _ p => exists jc w, graph_children (jg_dag jg) i = [(jc, w)] /\ p = jn_parallelism jc
  | O_Sink _ p => p = match graph_children (jg_dag jg) i with [(jc, ReBalance)] => jn_parallelism jc | _ => 0 end
  | O_Other _ => True
  end.

(** Behind the sink of a job with a key-by operator there is another job. *)
Lemma key_has_child n : n ∈ jn_stream_nodes j -> sn_operator_type n = OT_KeyBy -> graph_children (jg_dag jg) i <> [].
Proof.
  intros Hn Tn Hch. destruct (job_path_of i j Hj) as (s & js & cs & Hp). destruct (job_sink_last _ _ _ _ Hp) as (ns & snk & Hns & Tsnk & _).
  assert (snk ∈ jn_stream_nodes j) as (ik & Rk & Hik)%(elem_of_job j s js cs snk Hp) by (rewrite Hns; set_solver).
  apply (elem_of_job j s js cs n Hp) in Hn as (ib & Rb & Hib). pose proof (key_by_before_sink s ib n ik snk Rb Hib Tn Rk Hik Tsnk) as Hnext.
  assert (behind_key (abs g) ik) as Hb.
  { destruct (next_spec g Hg _ _ Hnext) as (_ & m & Hm & Hin & _). exists (abs_node m), ib, (abs_node n). split_and!; [by apply abs_at|done|by apply abs_at|done]. }
  apply (sh_keyed _ _ (proj2 Hg)) in Hb. cbn [app] in Hb. apply elem_of_concat in Hb as (l & Hil & Hlin). apply list_elem_of_fmap in Hlin as (a & -> & Ha).
  apply list_elem_of_lookup in Ha as [y Ha]. destruct (abs_lookup _ _ _ Ha) as (m & Hm & ->). destruct (parent_child g Hg ik y m Hm Hil) as [e He].
  assert (Z.of_nat y ∈ jn_child_job_ids j) as Hc'.
  { destruct Hp as (_ & _ & Hpath & _ & ->). destruct (job_path_ends g _ _ _ Hpath) as (_ & k & nk & Hk & Hnk & Tnk & ->).
    assert (k = ik) as ->. { eapply (sink_unique g s); [by exists nk|by exists snk|apply (job_path_elem g _ _ _ Hpath); by apply last_Some_elem_of|done]. }
    apply list_elem_of_fmap. by exists (e, y). }
  destruct (jg_linked _ _ Hjg i j _ Hj Hc') as (b & jb & w & Hjb & _ & Hed).
  assert ((jb, w) ∈ graph_children (jg_dag jg) i) as Hin by (apply elem_of_neighbours; by exists (mkEdge i b w)). rewrite Hch in Hin. by apply elem_of_nil in Hin.
Qed.

Context (Hfn : forall fc, fn_open fc = Ok tt).

Lemma opens_fn n : n ∈ jn_stream_nodes j -> open_fn c (sn_id n) = Ok tt.
Proof. intros Hn. unfold open_fn. destruct (fun_context_ok n Hn) as (fc & -> & _). cbn. apply Hfn. Qed.

Lemma opens_one n o k : n ∈ jn_stream_nodes j ->
  OperatorType_from o = sn_operator_type n -> exists ob, open_one c (runnable_of k (sn_id n) o) = Ok ob /\ opened_id ob = sn_id n /\ opened_as ob.
Proof.
  intros Hn To. pose proof (opens_fn n Hn) as Hopen. pose proof (key_has_child n Hn) as Hkey. destruct o as [op| | |op|op|op| | |op]; cbn [runnable_of open_one]; try (rewrite ?Hopen; cbn; by eexists).
  - rewrite Hopen. cbn. unfold parent_executions. rewrite Hc, Ht. destruct (mo_task_neighbours _ _ _ _ Hmd string x t Hx) as [-> _]. cbn.
    destruct (source_opens (sn_id n) (operator_fn op)) as (s & Es & H1 & H2 & H3). rewrite length_fmap in H1, H2, H3.
    rewrite Es. cbn. eexists. split; [done|]. split; [|done]. unfold source_open in Es. destruct (foldM mark_parent ∅ _); cbn in Es; [|done|done]. by injection Es as <-.
  - destruct co_process_opens as (src & m & Hh & -> & Hs & Hm). cbn. rewrite Hopen. cbn. eexists. split; [done|]. split; [done|]. by exists src.
  - rewrite Hopen. cbn. unfold rc_child_parallelism, children_parallelism. rewrite Hc, rc_job. destruct (mo_job_neighbours _ _ _ _ Hmd string i j Hj) as [_ ->]. cbn.
    pose proof one_child as Hone. specialize (Hkey (eq_sym To)). destruct (graph_children (jg_dag jg) i) as [|[jc w] [|]] eqn:Ec; [done| |simpl in Hone; lia].
    cbn. eexists. split; [done|]. split; [done|]. cbn. exists jc, w. rewrite Ec. done.
  - destruct (fun_context_ok n Hn) as (fc & -> & _). cbn. rewrite Hfn. cbn. assert (open_key_by k fc = Ok tt) as -> by (unfold open_key_by; rewrite Hfn; by destruct k).
    cbn. by eexists.
  - unfold child_jobs. rewrite Hc, rc_job. destruct (mo_job_neighbours _ _ _ _ Hmd string i j Hj) as [_ ->]. cbn. pose proof one_child as Hone.
    destruct (graph_children (jg_dag jg) i) as [|[jc w] [|]] eqn:Ec; [| |simpl in Hone; lia]; cbn; rewrite Hopen; cbn; eexists; (split; [done|]);
      (split; [done|]); cbn; rewrite Ec; done.
Qed.

Lemma opens_all ns k : Forall (fun n => n ∈ jn_stream_nodes j) ns ->
  exists os, Forall2 (fun r o => open_one c r = Ok o) (runnables_of ops k ns) os /\ Forall2 (fun n o => opened_id o = sn_id n /\ opened_as o) ns os.
Proof.
  induction 1 as [|n ns Hn _ (os & IH1 & IH2)]; [exists []; by split|]. destruct (job_path_of i j Hj) as (s & js & cs & Hp).
  pose proof (job_nodes_in _ _ _ _ Hp) as Hin. rewrite Forall_forall in Hin. pose proof (Hin n Hn) as Hin'. apply list_elem_of_lookup in Hin' as [y Hy].
  destruct (operator_at y n Hy) as (_ & o & Ho & To). destruct (opens_one n o k Hn To) as (ob & Hob & ?).
  exists (ob :: os). unfold runnables_of in *. cbn [omap list_omap]. rewrite Ho. cbn. split; by constructor.
Qed.

Lemma start_built : exists r k, start_task g c = open_chain c r /\ unlinked <$> chain_list r = runnables_of ops k (jn_stream_nodes j).
Proof.
  destruct (chain_built (E := string) i j Hj Hl) as (r & k & Er & Hr & _). exists r, k. split; [|done].
  unfold start_task. rewrite pop_operators_ok. cbn. rewrite Hc, rc_job. by rewrite Er.
Qed.

Lemma runnables_of_app k l1 l2 : runnables_of ops k (l1 ++ l2) = runnables_of ops k l1 ++ runnables_of ops k l2.
Proof. apply omap_app. Qed.

Lemma plain_runnables k ns : Forall (fun n => n ∈ raw_nodes (dag g)) ns -> Forall (fun n => sn_operator_type n <> OT_Sink) ns ->
  Forall (fun r => is_sink_runnable r = false) (runnables_of ops k ns).
Proof.
  intros Hin Hns. pose proof (runnables_sinks k ns Hin) as Hsk. apply Forall_forall. intros r [q Hq]%list_elem_of_lookup.
  destruct (Forall2_lookup_r _ _ _ _ _ Hsk Hq) as (n & Hn & [-> _]). rewrite Forall_forall in Hns. apply bool_decide_eq_false, Hns. by eapply list_elem_of_lookup_2.
Qed.

Lemma sink_runnable k n : n ∈ raw_nodes (dag g) -> sn_operator_type n = OT_Sink -> exists y, runnables_of ops k [n] = [y] /\ is_sink_runnable y = true.
Proof.
  intros Hn Tn. pose proof (runnables_sinks k [n] ltac:(by apply Forall_singleton)) as Hsk.
  destruct (Forall2_cons_inv_l _ _ _ _ Hsk) as (y & zs & [Hy _] & Hz & Heq). apply Forall2_nil_inv_l in Hz as ->.
  exists y. split; [done|]. by rewrite Hy, bool_decide_true.
Qed.

Lemma start_ok : exists os, start_task g c = Ok os /\ Forall2 (fun n o => opened_id o = sn_id n /\ opened_as o) (jn_stream_nodes j) os.
Proof.
  destruct start_built as (r & k & -> & Hr). destruct (job_path_of i j Hj) as (s & js & cs & Hp).
  destruct (job_sink_last _ _ _ _ Hp) as (ns & n & Hns & Tn & Hplain). pose proof (job_nodes_in _ _ _ _ Hp) as Hin.
  destruct (opens_all (jn_stream_nodes j) k) as (os & H1 & H2); [by apply Forall_forall|]. exists os. split; [|done].
  rewrite open_chain_list, Hr. rewrite Hns in H1, Hin |- *. apply Forall_app in Hin as [Hin1 Hin2]. rewrite Forall_singleton in Hin2.
  destruct (sink_runnable k n Hin2 Tn) as (y & Ey & Hy). rewrite runnables_of_app, Ey in H1 |- *.
  apply Forall2_app_inv_l in H1 as (o1 & o2 & H1 & Ho & ->). apply Forall2_cons_inv_l in Ho as (o & z & Ho & Hz & ->). apply Forall2_nil_inv_l in Hz as ->.
  apply open_list_ok; [by apply plain_runnables|done|done|done].
Qed.
End of_program.

(** The context of a task [t] of a job [j] that is listed: what the coordinator hands to
    the worker. *)
Record task_of (g : RawStreamGraph) (dm : DagManager) (c : RunnableContext) (i : NodeIndex) (j : JobNode) (x : NodeIndex) (t : ExecutionNode) : Prop := {
  to_graphs : program_graphs g dm;
  to_metadata : DagMetadata_from (Er := string) dm = Ok (rc_dag_metadata c);
  to_job : raw_nodes (jg_dag (dm_job_graph dm)) !! i = Some j;
  to_listed : listed (jg_dag (dm_job_graph dm)) i;
  to_task : raw_nodes (eg_dag (dm_execution_graph dm)) !! x = Some t;
  to_job_id : job_id (en_task_id t) = jn_job_id j;
  to_id : td_task_id (rc_task_descriptor c) = en_task_id t;
  to_operators : od_operator_id <$> td_operators (rc_task_descriptor c) = sn_id <$> jn_stream_nodes j
}.

Lemma program_metadata g dm md : program_graphs g dm -> DagMetadata_from (Er := string) dm = Ok md -> ginv g [] /\
  job_graph_ok g (dm_job_graph dm) /\ execution_graph_ok (dm_job_graph dm) (snd <$> operators g) (dm_execution_graph dm) /\
  metadata_ok g (dm_job_graph dm) (dm_execution_graph dm) md.
Proof.
  intros Hp Hmd. destruct (program_graphs_ok _ _ Hp) as (Hsg & Hjg & Heg & Hf). destruct (built_ok _ _ (pg_built _ _ Hp)) as [Hr Hs _].
  destruct (metadata_of_graphs (Er := string) g _ dm (pg_built _ _ Hp) Hsg Hjg Heg Hf) as (md' & Hmd' & Hok). rewrite Hmd in Hmd'. injection Hmd' as <-. done.
Qed.

(** C25: The chain a worker builds for a task: one runnable for every operator of the
    job, in order, each with the operator the program registered under that id; and a
    reduction gets the key selector of the key-by operator its window was opened on,
    although that operator belongs to another job. No operator is missing and the links
    never fail. *)
Theorem worker_chain_spec {E} g dm md i j :
  program_graphs g dm -> DagMetadata_from (Er := string) dm = Ok md ->
  raw_nodes (jg_dag (dm_job_graph dm)) !! i = Some j -> listed (jg_dag (dm_job_graph dm)) i ->
  exists r k, build_invoke_chain (E := E) md (jn_job_id j) (snd <$> operators g) = Ok r /\
    Forall2 (fun n x => exists o, snd <$> operators g !! sn_id n = Some o /\ unlinked x = runnable_of k (sn_id n) o) (jn_stream_nodes j) (chain_list r) /\
    forall n, n ∈ jn_stream_nodes j -> sn_operator_type n = OT_Reduce -> exists kop, k = Some kop /\ key_selector_of g n kop.
Proof.
  intros Hp Hmd Hj Hl. destruct (program_metadata g dm md Hp Hmd) as (Hg & Hjg & Heg & Hm).
  destruct (chain_built g Hg _ Hjg _ _ Hm (E := E) i j Hj Hl) as (r & k & Er & Hr & Hk). exists r, k. split_and!; [done| |done].
  destruct (job_path_of g _ Hjg i j Hj) as (s & js & cs & Hpath). pose proof (job_nodes_in g j s js cs Hpath) as Hin.
  clear -Hg Hr Hin. revert Hr. generalize (chain_list r). induction Hin as [|n ns Hn _ IH]; intros l Hl; [by destruct l|].
  apply list_elem_of_lookup in Hn as [x Hx]. destruct (operator_at g Hg x n Hx) as (_ & o & Ho & _). unfold runnables_of in Hl. cbn [omap list_omap] in Hl.
  rewrite Ho in Hl. cbn in Hl. destruct l as [|y l]; [done|]. rewrite fmap_cons in Hl. injection Hl as Hy Hl. constructor; [|by apply IH].
  exists o. by rewrite <- lookup_fmap.
Qed.

(** C26: Opening the chain of a task, when the functions themselves open: every runnable
    is opened and learns from the metadata what the graph says. The source waits for as
    many ends, barriers and statuses as the task has parents (one, if it has none); a
    co-process operator knows every parent stream by its job, with its position, the left
    one last; a key-by operator has as many partitions as the next job has tasks; and the
    sink repeats its events for those tasks exactly when the records are repartitioned.
    No lookup in the metadata fails, in particular that of the job behind a key-by
    operator. *)
Theorem task_starts g dm c i j x t :
  (forall fc, fn_open fc = Ok tt) -> task_of g dm c i j x t ->
  exists os, start_task g c = Ok os /\
    Forall2 (fun n o => opened_id o = sn_id n /\ opened_as (dm_job_graph dm) (dm_execution_graph dm) i j x o) (jn_stream_nodes j) os.
Proof.
  intros Hfn [Hp Hmd Hj Hl Ht Hjid Hid Hod]. destruct (program_metadata g dm _ Hp Hmd) as (Hg & Hjg & Heg & Hm).
  by eapply (start_ok g Hg _ Hjg _ _ Hm Heg c eq_refl i j Hj Hl x t Ht Hid Hjid Hod).
Qed.

End worker_task.

(** ** Examples *)
#[local] Existing Instance ListDag.
#[local] Existing Instance id_order.

(** The task at a place of the execution graph of a program, with its context. *)
Definition ex_task (cs : list ApiCall) (i x : nat) : option (DagManager * RunnableContext * JobNode * ExecutionNode) :=
  dm ← prog_manager cs;
  md ← option_res (DagMetadata_from (Er := string) dm);
  j ← raw_nodes (jg_dag (dm_job_graph dm)) !! i;
  t ← raw_nodes (eg_dag (dm_execution_graph dm)) !! x;
  let td := mkTaskDescriptor (en_task_id t) ((fun n => mkOperatorDescriptor (sn_id n) 0 None None) <$> en_stream_nodes t) (en_input_split t) (en_daemon t) "" false in
  let cm := mkCoordinator "" "app" no_properties "" "" Pending 0 0 1 0 0 in
  Some (dm, mkRunnableContext md (mkCluster cm []) td, j, t).

Definition ex_task_ok (cs : list ApiCall) (i x : nat) : bool :=
  prog_ok cs &&
  match ex_task cs i x with
  | Some (dm, c, j, t) => bool_decide (listed (jg_dag (dm_job_graph dm)) i) && (job_id (en_task_id t) =? jn_job_id j) &&
      bool_decide (sn_id <$> en_stream_nodes t = sn_id <$> jn_stream_nodes j)
  | None => false
  end.

Lemma ex_task_of cs i x dm c j t : ex_task_ok cs i x = true -> ex_task cs i x = Some (dm, c, j, t) -> task_of (prog_graph cs) dm c i j x t.
Proof.
  unfold ex_task_ok. intros Hok He. rewrite He in Hok. apply andb_true_iff in Hok as [Hprog Hok]. apply andb_true_iff in Hok as [Hok Hops].
  apply andb_true_iff in Hok as [Hl Hid]. apply bool_decide_eq_true in Hl, Hops. apply Z.eqb_eq in Hid. unfold ex_task in He.
  destruct (prog_manager cs) as [dm'|] eqn:Edm; [|done]. cbn [mbind option_bind] in He.
  destruct (DagMetadata_from (Er := string) dm') as [md| |] eqn:Emd; cbn [mbind option_bind option_res] in He; [|done|done].
  destruct (raw_nodes (jg_dag (dm_job_graph dm')) !! i) as [j'|] eqn:Ej; [|done]. cbn [mbind option_bind] in He.
  destruct (raw_nodes (eg_dag (dm_execution_graph dm')) !! x) as [t'|] eqn:Et; [|done].
  cbn [mbind option_bind] in He. injection He as <- <- <- <-. split; try done; [by apply prog_graphs|]. cbn. by rewrite <- list_fmap_compose.
Qed.

(** The chain of the reducing job: the reduction has the key selector of the job before. *)
Definition runnable_name (r : Runnable) : string :=
  match r with
  | R_Source _ op _ => if_name (operator_fn op)
  | R_FlatMap _ op _ => fm_name (operator_fn op)
  | R_Filter _ op _ => ff_name (operator_fn op)
  | R_CoProcess _ op _ => cp_name (operator_fn op)
  | R_KeyBy _ op _ => ks_name (operator_fn op)
  | R_Reduce _ k op _ => br_name (operator_fn op) +:+ "/" +:+ match k with Some k => ks_name (operator_fn k) | None => "" end
  | R_WatermarkAssigner _ op _ => ws_name (operator_fn op)
  | R_WindowAssigner _ op _ => wa_name (operator_fn op)
  | R_Sink _ op => of_name (operator_fn op)
  end.

Example ex_reduce_chain :
  match ex_task ex_aggregate 1 4 with
  | Some (_, c, j, _) =>
      match build_invoke_chain (E := unit) (rc_dag_metadata c) 4 (snd <$> operators (prog_graph ex_aggregate)) with
      | Ok r => Some (runnable_name <$> chain_list r)
      | _ => None
      end
  | None => None
  end = Some ["SystemInputFormat"; "window"; "WindowBaseReduceFunction/key"; "SystemOutputFormat"].
Proof. vm_compute. reflexivity. Qed.

(** Every function opens. *)
Definition ex_open (fc : FunctionContext) : res string unit := Ok tt.

Lemma worker_chain_spec_witness :
  match ex_task ex_aggregate 1 4 with
  | Some (dm, c, j, t) => exists r k, build_invoke_chain (E := unit) (rc_dag_metadata c) (jn_job_id j) (snd <$> operators (prog_graph ex_aggregate)) = Ok r /\
      Forall2 (fun n x => exists o, snd <$> operators (prog_graph ex_aggregate) !! sn_id n = Some o /\ unlinked x = runnable_of k (sn_id n) o)
        (jn_stream_nodes j) (chain_list r) /\
      forall n, n ∈ jn_stream_nodes j -> sn_operator_type n = OT_Reduce -> exists kop, k = Some kop /\ key_selector_of (prog_graph ex_aggregate) n kop
  | None => False
  end.
Proof.
  assert (ex_task_ok ex_aggregate 1 4 = true) as Hok by (vm_compute; reflexivity).
  assert (match ex_task ex_aggregate 1 4 with Some _ => true | None => false end = true) as Hm by (vm_compute; reflexivity).
  pose proof (fun dm c j t => ex_task_of ex_aggregate 1 4 dm c j t Hok) as H. destruct (ex_task ex_aggregate 1 4) as [[[[dm c] j] t]|]; [|discriminate Hm].
  destruct (H dm c j t eq_refl) as [Hp Hmd Hj Hl _ _ _ _]. exact (worker_chain_spec (prog_graph ex_aggregate) dm (rc_dag_metadata c) 1 j Hp Hmd Hj Hl).
Defined.

Lemma task_starts_witness :
  match ex_task ex_aggregate 1 4 with
  | Some (dm, c, j, t) => exists os, start_task ex_open (prog_graph ex_aggregate) c = Ok os /\
      Forall2 (fun n o => opened_id o = sn_id n /\ opened_as (dm_job_graph dm) (dm_execution_graph dm) 1 j 4 o) (jn_stream_nodes j) os
  | None => False
  end.
Proof.
  assert (ex_task_ok ex_aggregate 1 4 = true) as Hok by (vm_compute; reflexivity).
  assert (match ex_task ex_aggregate 1 4 with Some _ => true | None => false end = true) as Hm by (vm_compute; reflexivity).
  pose proof (fun dm c j t => ex_task_of ex_aggregate 1 4 dm c j t Hok) as H. destruct (ex_task ex_aggregate 1 4) as [[[[dm c] j] t]|]; [|discriminate Hm].
  apply (task_starts ex_open (prog_graph ex_aggregate) dm c 1 j 4 t); [reflexivity|exact (H dm c j t eq_refl)].
Defined.
