(* ===== verification/Network.v ===== *)
(** * Network: pulling elements between tasks (src/rlink/src/pub_sub/network/)

    A child task pulls the elements of a parent task in batches: the client sends
    an [ElementRequest] for a channel, the server takes at most a batch from the
    channel's queue and answers with one [ElementResponse] per element and a
    closing one. Both sides cut the byte stream into frames with tokio's
    [LengthDelimitedCodec], which is the class [FrameRead]: four bytes of
    big-endian body length, then the body, at most 3 MiB. A channel is the queue
    of its elements; socket errors are not modelled. *)
From Stdlib Require Import ZArith Lia Sorted.
From stdpp Require Import base strings numbers option sets gmap list.
From S2P Require Import Prelude Bytes Runtime Window Element.

(** ** Framing *)
Definition MAX_FRAME : Z := 1024 * 1024 * 3.

Class FrameRead := {
  next_frame : list Z -> res string (list Z * list Z);
  next_frame_ok : forall body rest, 4 + Z.of_nat (length body) <= MAX_FRAME ->
    next_frame (be_encode 4 (Z.of_nat (length body)) ++ body ++ rest) =
      Ok (be_encode 4 (Z.of_nat (length body)) ++ body, rest)
}.

(** ** Messages *)
Definition HEADER_LEN : Z := 4.
Definition REQUEST_BODY_LEN : Z := 20.

Record ElementRequest := mkElementRequest {
  er_channel_key : ChannelKey;
  er_batch_pull_size : Z;
  er_batch_id : Z
}.

Inductive ResponseCode : Type := RC_Unknown | RC_Ok | RC_BatchFinish | RC_Empty | RC_NoService.

#[global] Instance ResponseCode_eq_dec : EqDecision ResponseCode.
Proof. solve_decision. Defined.

(** [code as u8] and [impl From<u8> for ResponseCode]. *)
Definition code_to_u8 (c : ResponseCode) : Z :=
  match c with RC_Unknown => 0 | RC_Ok => 1 | RC_BatchFinish => 2 | RC_Empty => 3 | RC_NoService => 4 end.

Definition code_from_u8 (v : Z) : ResponseCode :=
  if v =? 1 then RC_Ok else if v =? 2 then RC_BatchFinish else if v =? 3 then RC_Empty
  else if v =? 4 then RC_NoService else RC_Unknown.

(** [impl Display for ResponseCode]. *)
Definition code_to_string (c : ResponseCode) : string :=
  match c with
  | RC_Ok => "OK" | RC_BatchFinish => "BatchFinish" | RC_Empty => "Empty"
  | RC_NoService => "NoService" | RC_Unknown => "Unknown"
  end.

Section network.
Context {BA : BytesApi} {SB : SerBuffer} {FR : FrameRead}.

Record ElementResponse := mkElementResponse {
  resp_code : ResponseCode;
  resp_element : option Element
}.

Definition response_ok (e : Element) : ElementResponse := mkElementResponse RC_Ok (Some e).
Definition response_end (c : ResponseCode) : ElementResponse := mkElementResponse c None.

(** [impl Into<BytesMut> for ElementRequest]. *)
Definition request_into (r : ElementRequest) : res string (list Z) :=
  let buffer := put_u32 (wrap_u 32 REQUEST_BODY_LEN) [] in
  let* buffer := serialize (er_channel_key r) buffer in
  let buffer := put_u16 (er_batch_pull_size r) buffer in
  let buffer := put_u16 (er_batch_id r) buffer in
  let* _ := assert_that (remaining buffer =? HEADER_LEN + REQUEST_BODY_LEN) "assertion failed" in
  Ok buffer.

(** [impl TryFrom<BytesMut> for ElementRequest]. *)
Definition request_try_from (buffer : list Z) : res string ElementRequest :=
  let* (body_len, buffer) := get_u32 buffer in
  let* _ := assert_that (remaining buffer =? body_len) "assertion failed" in
  if negb (body_len =? REQUEST_BODY_LEN) then Err "Illegal request body length"%string
  else
    let* (channel_key, buffer) := deserialize (A:=ChannelKey) buffer in
    let* (batch_pull_size, buffer) := get_u16 buffer in
    let* (batch_id, buffer) := get_u16 buffer in
    Ok (mkElementRequest channel_key batch_pull_size batch_id).

(** [impl Into<BytesMut> for ElementResponse]. *)
Definition response_into (r : ElementResponse) : res string (list Z) :=
  match resp_code r with
  | RC_Ok =>
      let* element := unwrap "called `Option::unwrap()` on a `None` value" (resp_element r) in
      let body_len := 1 + capacity element in
      let buffer := put_u32 (wrap_u 32 body_len) [] in
      let buffer := put_u8 (code_to_u8 RC_Ok) buffer in
      let* buffer := serialize element buffer in
      let* _ := assert_that (remaining buffer =? HEADER_LEN + body_len) "assertion failed" in
      Ok buffer
  | code =>
      let buffer := put_u32 1 [] in
      let buffer := put_u8 (code_to_u8 code) buffer in
      let* _ := assert_that (remaining buffer =? HEADER_LEN + 1) "assertion failed" in
      Ok buffer
  end.

(** [impl TryFrom<BytesMut> for ElementResponse]. *)
Definition response_try_from (buffer : list Z) : res string ElementResponse :=
  let* (body_len, buffer) := get_u32 buffer in
  let* _ := assert_that (remaining buffer =? body_len) "assertion failed" in
  let* (code_value, buffer) := get_u8 buffer in
  match code_from_u8 code_value with
  | RC_Unknown => Err "found unknown code"%string
  | RC_Ok => let* (element, buffer) := deserialize (A:=Element) buffer in Ok (mkElementResponse RC_Ok (Some element))
  | code => Ok (mkElementResponse code None)
  end.

(** ** Server *)

(** [NETWORK_CHANNELS]: the published channels with their queues. *)
Abbreviation NetworkChannels := (gmap ChannelKey (list Element)).

Definition set_network_channel (key : ChannelKey) (q : list Element) (chs : NetworkChannels) : res string NetworkChannels :=
  match chs !! key with
  | Some _ => Panic "network ChannelKey register must unique"%string
  | None => Ok (<[key := q]> chs)
  end.

(** [publish]: one new channel per target; the senders are named by their keys. *)
Definition network_publish (source_task_id : TaskId) (target_task_ids : list TaskId) (chs : NetworkChannels)
    : res string (NetworkChannels * list ChannelKey) :=
  foldM (fun '(chs, senders) target_task_id =>
    let channel_key := mkChannelKey source_task_id target_task_id in
    let* chs := set_network_channel channel_key [] chs in
    Ok (chs, senders ++ [channel_key])) (chs, []) target_task_ids.

Definition get_network_channel (key : ChannelKey) (chs : NetworkChannels) : option (list Element) := chs !! key.

Definition remove_network_channel (key : ChannelKey) (chs : NetworkChannels) : NetworkChannels := delete key chs.

(** [for _ in 0..batch_pull_size] with [try_recv]. *)
Fixpoint batch_receive (n : nat) (q : list Element) : list Element * list Element :=
  match n, q with
  | S n, e :: q => let '(l, q) := batch_receive n q in (e :: l, q)
  | _, _ => ([], q)
  end.

Definition batch_get (key : ChannelKey) (batch_pull_size : Z) (chs : NetworkChannels) : list Element * NetworkChannels :=
  match get_network_channel key chs with
  | Some q => let '(l, q) := batch_receive (Z.to_nat batch_pull_size) q in (l, <[key := q]> chs)
  | None => ([], chs)
  end.

(** The bytes written for a batch. *)
Definition batch_send (element_list : list Element) (batch_pull_size : Z) : res string (list Z) :=
  let* out := foldM (fun out e => let* b := response_into (response_ok e) in Ok (out ++ b)) [] element_list in
  let code := if Z.of_nat (length element_list) =? batch_pull_size then RC_BatchFinish else RC_Empty in
  let* b := response_into (response_end code) in
  Ok (out ++ b).

Definition subscribe_handle (request : ElementRequest) (chs : NetworkChannels) : NetworkChannels * res string (list Z) :=
  let '(element_list, chs) := batch_get (er_channel_key request) (er_batch_pull_size request) chs in
  (chs, batch_send element_list (er_batch_pull_size request)).

(** One message of [session_process0]. *)
Definition session_step (bytes : list Z) (chs : NetworkChannels) : NetworkChannels * res string (list Z) :=
  match (let* (frame, _) := next_frame bytes in request_try_from frame) with
  | Ok request => subscribe_handle request chs
  | Err e => (chs, Err e)
  | Panic p => (chs, Panic p)
  end.

(** ** Client *)
Definition BATCH_PULL_SIZE : Z := 6000.

(** [recv_element]: [n] counts from 0 to [batch_size + 1] in [u16]. *)
Fixpoint recv_loop (fuel : nat) (channel_key : ChannelKey) (bytes : list Z) (element_list : list Element)
    : res string (list Element * list Z) :=
  match fuel with
  | O => Panic "unreachable"%string
  | S fuel =>
      let* (message, bytes) := next_frame bytes in
      let* response := response_try_from message in
      match resp_code response with
      | RC_Ok =>
          let* element := unwrap "called `Option::unwrap()` on a `None` value" (resp_element response) in
          recv_loop fuel channel_key bytes (element_list ++ [set_channel_key channel_key element])
      | RC_BatchFinish | RC_Empty => Ok (element_list, bytes)
      | RC_NoService => Err "remoting no service"%string
      | RC_Unknown => Err "unrecognized remoting code"%string
      end
  end.

Definition recv_element (channel_key : ChannelKey) (batch_size : Z) (bytes : list Z) : res string (list Element * list Z) :=
  recv_loop (Z.to_nat (wrap_u 16 (batch_size + 1))) channel_key bytes [].

(** A client and the server it pulls from: the server's channels, the client's
    next batch id, and the input channel of the child task. *)
Record PullState := mkPull {
  ps_channels : NetworkChannels;
  ps_batch_id : Z;
  ps_input : list Element
}.

(** One turn of the loop of [Client::send]. *)
Definition pull_round (channel_key : ChannelKey) (batch_pull_size : Z) (st : PullState) : PullState * res string unit :=
  let batch_id := wrap_u 16 (ps_batch_id st + 1) in
  match request_into (mkElementRequest channel_key batch_pull_size (ps_batch_id st)) with
  | Ok request =>
      let '(chs, r) := session_step request (ps_channels st) in
      match (let* bytes := r in recv_element channel_key batch_pull_size bytes) with
      | Ok (element_list, _) => (mkPull chs batch_id (ps_input st ++ element_list), Ok tt)
      | Err e => (mkPull chs batch_id (ps_input st), Err e)
      | Panic p => (mkPull chs batch_id (ps_input st), Panic p)
      end
  | Err e => (mkPull (ps_channels st) batch_id (ps_input st), Err e)
  | Panic p => (mkPull (ps_channels st) batch_id (ps_input st), Panic p)
  end.

(** Turns of the loop, while they succeed. *)
Fixpoint pull_rounds (k : nat) (channel_key : ChannelKey) (batch_pull_size : Z) (st : PullState)
    : PullState * res string unit :=
  match k with
  | O => (st, Ok tt)
  | S k =>
      match pull_round channel_key batch_pull_size st with
      | (st, Ok _) => pull_rounds k channel_key batch_pull_size st
      | (st, r) => (st, r)
      end
  end.
End network.

(** ** Lemmas on messages *)
Section message_lemmas.
Context {BA : BytesApi} {SB : SerBuffer} {FR : FrameRead}.

(** A message on the wire: length and body. *)
Definition framed (body : list Z) : list Z := be_encode 4 (Z.of_nat (length body)) ++ body.

Lemma next_framed body rest : 4 + Z.of_nat (length body) <= MAX_FRAME ->
  next_frame (framed body ++ rest) = Ok (framed body, rest).
Proof. intros H. unfold framed. rewrite <- (assoc_L (++)). by apply next_frame_ok. Qed.

Definition request_body (r : ElementRequest) : list Z :=
  TaskId_wire (source_task_id (er_channel_key r)) ++ TaskId_wire (target_task_id (er_channel_key r)) ++
  be_encode 2 (er_batch_pull_size r) ++ be_encode 2 (er_batch_id r).

Definition request_wf (r : ElementRequest) : Prop :=
  ChannelKey_wf (er_channel_key r) /\ in_u 16 (er_batch_pull_size r) /\ in_u 16 (er_batch_id r).

Lemma length_request_body r : length (request_body r) = 20%nat.
Proof. unfold request_body. by rewrite !length_app, !length_TaskId_wire, !length_be_encode. Qed.

Lemma request_into_wire r : request_into r = Ok (framed (request_body r)).
Proof.
  unfold request_into, framed. rewrite length_request_body. cbn zeta. put_bytes.
  rewrite ChannelKey_serialize_wire. run_bind. put_bytes. unfold remaining, request_body.
  rewrite !length_app, !length_be_encode, !length_TaskId_wire. done.
Qed.

Lemma request_decode_wire r : request_wf r -> request_try_from (framed (request_body r)) = Ok r.
Proof.
  intros (H1 & H2 & H3). unfold request_try_from, framed.
  rewrite get_u32_encode by (rewrite length_request_body; unfold in_u; lia). run_bind.
  unfold remaining. rewrite Z.eqb_refl. cbn [assert_that]. run_bind. rewrite length_request_body. cbn [Z.of_nat Z.eqb].
  change (negb (Z.of_nat 20 =? REQUEST_BODY_LEN)) with false. cbn iota. unfold request_body.
  rewrite ChannelKey_deserialize_wire by done. run_bind. rewrite get_u16_encode by done. run_bind.
  rewrite <- (app_nil_r (be_encode 2 (er_batch_id r))), get_u16_encode by done. run_bind. by destruct r.
Qed.

(** What a frame can carry. *)
Definition deliverable (e : Element) : Prop := Element_wf e /\ 5 + capacity e <= MAX_FRAME.

Lemma response_into_ok e : deliverable e -> response_into (response_ok e) = Ok (framed (1 :: wire e)).
Proof.
  intros [_ Hc]. pose proof (length_wire e) as Hl. unfold MAX_FRAME in Hc.
  unfold response_into, framed. cbn [resp_code response_ok resp_element unwrap length]. run_bind.
  cbn zeta. rewrite wrap_u_small by (unfold in_u; lia). put_bytes. rewrite element_serialize_wire. run_bind.
  unfold remaining. rewrite !length_app, !length_be_encode.
  rewrite (proj2 (Z.eqb_eq _ _)) by (unfold HEADER_LEN; cbn [length]; lia).
  cbn [assert_that]. run_bind. rewrite be_encode_1 by (unfold in_u; cbn; lia). cbn [code_to_u8 app].
  rewrite <- (assoc_L (++)). cbn [app]. by replace (Z.of_nat (S (length (wire e)))) with (1 + capacity e) by lia.
Qed.

Definition is_end_code (c : ResponseCode) : Prop := c = RC_BatchFinish \/ c = RC_Empty.

Lemma response_into_end c : is_end_code c -> response_into (response_end c) = Ok (framed [code_to_u8 c]).
Proof.
  intros Hc. assert (in_u 8 (code_to_u8 c)) as Hu by (unfold in_u; destruct c; cbn; lia).
  transitivity (let* _ := assert_that (remaining (put_u8 (code_to_u8 c) (put_u32 1 [])) =? 5) "assertion failed" in
    Ok (E:=string) (put_u8 (code_to_u8 c) (put_u32 1 []))); [by destruct Hc as [-> | ->]|].
  unfold remaining. put_bytes. rewrite be_encode_1 by done. rewrite !length_app, length_be_encode. done.
Qed.

Lemma response_decode_ok e : deliverable e ->
  exists e0, response_try_from (framed (1 :: wire e)) = Ok (mkElementResponse RC_Ok (Some e0)) /\ Element_sent e e0.
Proof.
  intros [Hwf Hc]. unfold MAX_FRAME in Hc. pose proof (length_wire e) as Hl. unfold response_try_from, framed.
  rewrite get_u32_encode by (cbn [length]; unfold in_u; lia). run_bind.
  unfold remaining. rewrite Z.eqb_refl. cbn [assert_that]. run_bind. rewrite get_u8_cons. run_bind.
  change (code_from_u8 1) with RC_Ok. cbn iota.
  destruct (element_deserialize_wire e Hwf) as (e0 & -> & Hs). run_bind. by exists e0.
Qed.

Lemma response_decode_end c : is_end_code c ->
  response_try_from (framed [code_to_u8 c]) = Ok (mkElementResponse c None).
Proof.
  intros Hc. unfold response_try_from, framed. cbn [length].
  rewrite get_u32_encode by (unfold in_u; lia). run_bind. unfold remaining. cbn [length].
  rewrite Z.eqb_refl. cbn [assert_that]. run_bind. rewrite get_u8_cons. run_bind. by destruct Hc as [-> | ->].
Qed.

(** ** Lemmas on a batch *)

(** The element the child task gets for a sent one. *)
Definition received (key : ChannelKey) (e e' : Element) : Prop :=
  exists e0, Element_sent e e0 /\ e' = set_channel_key key e0.

Definition batch_wire (l : list Element) (c : ResponseCode) : list Z :=
  (e ← l; framed (1 :: wire e)) ++ framed [code_to_u8 c].

Lemma batch_send_wire l size : Forall deliverable l ->
  batch_send l size = Ok (batch_wire l (if Z.of_nat (length l) =? size then RC_BatchFinish else RC_Empty)).
Proof.
  intros Hl. unfold batch_send, batch_wire.
  assert (forall out, foldM (fun out e => let* b := response_into (response_ok e) in Ok (out ++ b)) out l
    = Ok (out ++ (e ← l; framed (1 :: wire e)))) as ->.
  { induction Hl as [|e l He Hl IH]; intros out; cbn [foldM mbind list_bind].
    - by rewrite app_nil_r.
    - rewrite response_into_ok by done. run_bind. rewrite IH. by rewrite <- (assoc_L (++)). }
  run_bind. rewrite response_into_end by (destruct (_ =? _); [by left|by right]). by run_bind.
Qed.

Lemma recv_loop_batch key l c fuel acc rest :
  Forall deliverable l -> is_end_code c -> (length l < fuel)%nat ->
  exists els, recv_loop fuel key (batch_wire l c ++ rest) acc = Ok (acc ++ els, rest) /\ Forall2 (received key) l els.
Proof.
  intros Hl Hc. unfold batch_wire. revert fuel acc.
  induction Hl as [|e l He Hl IH]; intros [|fuel] acc Hf; cbn [length] in Hf; try lia; cbn [recv_loop mbind list_bind].
  - rewrite (next_framed [code_to_u8 c]) by (cbn; unfold MAX_FRAME; lia). run_bind.
    rewrite response_decode_end by done. run_bind. exists [].
    destruct Hc as [-> | ->]; cbn [resp_code]; rewrite app_nil_r; by split; constructor.
  - pose proof (length_wire e) as Hw. rewrite <- !(assoc_L (++)), next_framed by (cbn [length]; destruct He; lia). run_bind.
    destruct (response_decode_ok e He) as (e0 & -> & Hs). run_bind. cbn [resp_code resp_element unwrap]. run_bind.
    destruct (IH fuel (acc ++ [set_channel_key key e0])) as (els & Hr & H2); [lia|].
    rewrite (assoc_L (++)). rewrite Hr. exists (set_channel_key key e0 :: els). rewrite <- (assoc_L (++)). split; [done|].
    constructor; [by exists e0|done].
Qed.

Lemma batch_receive_spec n q : batch_receive n q = (take n q, drop n q).
Proof. revert q; induction n as [|n IH]; intros [|e q]; cbn; try done. by rewrite IH. Qed.
End message_lemmas.

(** ** Claims *)
Section network_claims.
Context {BA : BytesApi} {SB : SerBuffer} {FR : FrameRead}.

(** A request for a batch survives the wire: for fields in the range of
    their types it is encoded in 24 bytes, which are one frame of the stream,
    and decoded to the same request. *)
Theorem request_roundtrip r : request_wf r ->
  exists bytes, request_into r = Ok bytes /\ length bytes = 24%nat /\
    (forall rest, next_frame (bytes ++ rest) = Ok (bytes, rest)) /\ request_try_from bytes = Ok r.
Proof.
  intros Hr. exists (framed (request_body r)). split; [apply request_into_wire|]. split; [|split].
  - unfold framed. by rewrite length_app, length_be_encode, length_request_body.
  - intros rest. apply next_framed. rewrite length_request_body. unfold MAX_FRAME. lia.
  - by apply request_decode_wire.
Qed.

Lemma session_step_request r chs : request_wf r ->
  session_step (framed (request_body r)) chs = subscribe_handle r chs.
Proof.
  intros Hr. unfold session_step. rewrite <- (app_nil_r (framed _)), next_framed
    by (rewrite length_request_body; unfold MAX_FRAME; lia).
  run_bind. by rewrite request_decode_wire.
Qed.

Lemma pull_round_eq key size st q :
  ChannelKey_wf key -> 0 <= size < U16_MAX -> in_u 16 (ps_batch_id st) ->
  default [] (ps_channels st !! key) = q -> Forall deliverable q ->
  exists els, Forall2 (received key) (take (Z.to_nat size) q) els /\
    pull_round key size st =
      (mkPull (if decide (is_Some (ps_channels st !! key)) then <[key := drop (Z.to_nat size) q]> (ps_channels st)
               else ps_channels st)
         (wrap_u 16 (ps_batch_id st + 1)) (ps_input st ++ els), Ok tt).
Proof.
  intros Hk Hs Hb Hq Hd. unfold U16_MAX in Hs. set (r := mkElementRequest key size (ps_batch_id st)).
  assert (request_wf r) as Hr by (split_and!; [done|unfold in_u; cbn; lia|done]).
  unfold pull_round. fold r. rewrite request_into_wire, session_step_request by done.
  unfold subscribe_handle, batch_get, get_network_channel. cbn [er_channel_key er_batch_pull_size r].
  assert (Forall deliverable (take (Z.to_nat size) q)) as Hdt by by apply Forall_take.
  assert (forall c, is_end_code c -> exists els, Forall2 (received key) (take (Z.to_nat size) q) els /\
    recv_element key size (batch_wire (take (Z.to_nat size) q) c) = Ok (els, [])) as Hrecv.
  { intros c Hc. unfold recv_element. rewrite wrap_u_small by (unfold in_u; lia).
    destruct (recv_loop_batch key _ c (Z.to_nat (size + 1)) [] [] Hdt Hc) as (els & Hl & H2).
    { rewrite length_take. lia. }
    exists els. split; [done|]. by rewrite app_nil_r in Hl. }
  destruct (ps_channels st !! key) as [q'|] eqn:E; cbn in Hq; [subst q'|subst q].
  - rewrite batch_receive_spec, batch_send_wire by done. run_bind.
    destruct (Hrecv (if Z.of_nat (length (take (Z.to_nat size) q)) =? size then RC_BatchFinish else RC_Empty))
      as (els & H2 & ->); [destruct (_ =? _); [by left|by right]|]. exists els. split; [done|].
    by rewrite decide_True by by eexists.
  - rewrite take_nil in Hrecv. rewrite take_nil, drop_nil, batch_send_wire by constructor. run_bind.
    destruct (Hrecv (if Z.of_nat (length ([] : list Element)) =? size then RC_BatchFinish else RC_Empty))
      as (els & H2 & ->); [destruct (_ =? _); [by left|by right]|]. exists els. split; [done|].
    rewrite decide_False; [done|]. by intros [? ?].
Qed.

(** One pull through the bytes of both messages: the child task gets, in
    order, the first [size] elements of the channel (or all, when there are
    fewer), each with what the wire format carries and with the channel key set;
    they leave the server's queue; no other channel changes; a channel that is
    not published yet gives nothing and no error. *)
Theorem pull_round_spec key size st q :
  ChannelKey_wf key -> 0 <= size < U16_MAX -> in_u 16 (ps_batch_id st) ->
  default [] (ps_channels st !! key) = q -> Forall deliverable q ->
  exists els st', pull_round key size st = (st', Ok tt) /\
    ps_input st' = ps_input st ++ els /\ Forall2 (received key) (take (Z.to_nat size) q) els /\
    default [] (ps_channels st' !! key) = drop (Z.to_nat size) q /\
    (forall k, k <> key -> ps_channels st' !! k = ps_channels st !! k).
Proof.
  intros Hk Hs Hb Hq Hd. destruct (pull_round_eq key size st q Hk Hs Hb Hq Hd) as (els & H2 & He).
  exists els. eexists. split; [exact He|]. clear He. cbn [ps_input ps_channels]. split_and!; [done..| |].
  - case_decide as Hc; [by rewrite lookup_insert_eq|]. destruct (ps_channels st !! key) eqn:E; [by destruct Hc|].
    cbn in Hq. subst q. by rewrite drop_nil.
  - intros k Hne. case_decide; [|done]. by rewrite lookup_insert_ne.
Qed.

(** The pull loop delivers the stream: after [k] turns the child has got, in
    order and once each, the first [k * size] elements of the published channel,
    and the rest is still queued; nothing is lost, duplicated or reordered, and
    the batch id wraps around without effect. *)
Theorem pull_rounds_fifo (k : nat) key size st q :
  ChannelKey_wf key -> 0 <= size < U16_MAX -> in_u 16 (ps_batch_id st) ->
  ps_channels st !! key = Some q -> Forall deliverable q ->
  exists els st', pull_rounds k key size st = (st', Ok tt) /\
    ps_input st' = ps_input st ++ els /\
    Forall2 (received key) (take (k * Z.to_nat size) q) els /\
    ps_channels st' = <[key := drop (k * Z.to_nat size) q]> (ps_channels st).
Proof.
  intros Hk Hs. revert st q; induction k as [|k IH]; intros st q Hb Hq Hd; cbn [pull_rounds].
  - exists [], st. rewrite app_nil_r. split_and!; [done|done|constructor|]. by rewrite drop_0, insert_id.
  - destruct (pull_round_eq key size st q Hk Hs Hb) as (els & H2 & He); [by rewrite Hq|done|].
    rewrite decide_True in He by by rewrite Hq. rewrite He.
    set (st1 := mkPull _ _ _). destruct (IH st1 (drop (Z.to_nat size) q)) as (els' & st' & Hp & Hi & H2' & Hc).
    + apply wrap_u_range. lia.
    + apply lookup_insert_eq.
    + by apply Forall_drop.
    + exists (els ++ els'), st'. split_and!; [done| | |].
      * rewrite Hi. cbn. by rewrite (assoc_L (++)).
      * replace (S k * Z.to_nat size)%nat with (Z.to_nat size + k * Z.to_nat size)%nat by lia.
        rewrite <- take_take_drop. by apply Forall2_app.
      * rewrite Hc. cbn. rewrite insert_insert_eq. f_equal. by rewrite drop_drop.
Qed.
End network_claims.

(** ** Examples *)
Section evaluated.
#[local] Existing Instances be_bytes_api list_buffer.

(** A decoder with the behaviour of the configured codec. *)
Definition be_next_frame (b : list Z) : res string (list Z * list Z) :=
  if (length b <? 4)%nat then Err "framed read nothing"%string
  else
    let n := be_decode (take 4 b) in
    if MAX_FRAME <? 4 + n then Err "framed read error"%string
    else if Z.of_nat (length b) <? 4 + n then Err "framed read nothing"%string
    else Ok (take (Z.to_nat (4 + n)) b, drop (Z.to_nat (4 + n)) b).

#[local] Program Instance be_frame_read : FrameRead := {| next_frame := be_next_frame |}.
Next Obligation.
  intros body rest H. unfold be_next_frame. rewrite !length_app, length_be_encode.
  rewrite (proj2 (Nat.ltb_ge _ _)) by lia. rewrite take_app_length' by by rewrite length_be_encode.
  rewrite be_decode_encode by (unfold in_u, MAX_FRAME in *; lia).
  destruct (Z.ltb_spec MAX_FRAME (4 + Z.of_nat (length body))); [lia|].
  destruct (Z.ltb_spec (Z.of_nat (4 + (length body + length rest))) (4 + Z.of_nat (length body))); [lia|].
  rewrite (assoc_L (++)). rewrite take_app_length', drop_app_length'; [done|..];
    rewrite length_app, length_be_encode; lia.
Qed.

Definition ex_key : ChannelKey := mkChannelKey (mkTaskId 1 0 1) (mkTaskId 2 0 1).

Definition ex_queue : list Element :=
  [Element_Barrier (mkBarrier 0 5 0); new_watermark 7; new_stream_status 9 true].

Definition ex_pull : PullState := mkPull (<[ex_key := ex_queue]> ∅) U16_MAX [].

Lemma ex_key_wf : ChannelKey_wf ex_key.
Proof. unfold ChannelKey_wf, TaskId_wf, in_u; cbn; lia. Qed.

Lemma ex_queue_ok : Forall deliverable ex_queue.
Proof.
  repeat constructor; try (cbn; unfold in_u, MAX_FRAME; lia).
Qed.

Lemma ex_pull_batch_id : in_u 16 (ps_batch_id ex_pull).
Proof. unfold in_u; cbn; unfold U16_MAX; lia. Qed.

Lemma request_roundtrip_witness : exists bytes, request_into (mkElementRequest ex_key 6000 65535) = Ok bytes /\
  request_try_from bytes = Ok (mkElementRequest ex_key 6000 65535).
Proof.
  destruct (request_roundtrip (mkElementRequest ex_key 6000 65535)) as (bytes & H1 & _ & _ & H2).
  - split; [exact ex_key_wf|]. unfold in_u; cbn; lia.
  - exists bytes. split; [exact H1|exact H2].
Defined.

Lemma pull_round_spec_witness : exists els st', pull_round ex_key 2 ex_pull = (st', Ok tt) /\
  ps_input st' = els /\ Forall2 (received ex_key) (take 2 ex_queue) els.
Proof.
  destruct (pull_round_spec ex_key 2 ex_pull ex_queue ex_key_wf ltac:(unfold U16_MAX; lia) ex_pull_batch_id
    ltac:(vm_compute; reflexivity) ex_queue_ok) as (els & st' & H1 & H2 & H3 & _).
  exists els, st'. split; [exact H1|]. split; [exact H2|exact H3].
Defined.

Lemma pull_rounds_fifo_witness : exists els st', pull_rounds 2 ex_key 2 ex_pull = (st', Ok tt) /\
  ps_input st' = els /\ Forall2 (received ex_key) ex_queue els.
Proof.
  destruct (pull_rounds_fifo 2 ex_key 2 ex_pull ex_queue ex_key_wf ltac:(unfold U16_MAX; lia) ex_pull_batch_id
    ltac:(vm_compute; reflexivity) ex_queue_ok) as (els & st' & H1 & H2 & H3 & _).
  exists els, st'. split; [exact H1|]. split; [exact H2|exact H3].
Defined.

(** With the greatest batch size the loop of [recv_element] does not run at all. *)
Example recv_element_max_batch : recv_element ex_key U16_MAX [] = Panic "unreachable"%string.
Proof. reflexivity. Qed.
End evaluated.
