(* ===== verification/Output.v ===== *)
(** * Output: writing elements to the child tasks
    (src/rlink/src/functions/system/system_output_format.rs,
     src/rlink/src/pub_sub/memory/mod.rs, src/rlink/src/pub_sub/mod.rs)

    The sink that ends a job inside the graph. [open] connects it to the channels
    of the child tasks, in memory for a task of the same number in the same
    process, over the network otherwise; [write_element] picks the child task by
    the partition of the element. A channel is the queue of its elements, named
    by the child task (memory) or by the pair of tasks (network): two handles of
    a channel are the same name, so they share the queue. [send] on a full
    channel blocks until there is room, so in every completed call it appends. *)
From Stdlib Require Import ZArith Lia Sorted.
From stdpp Require Import base strings numbers option sets gmap list.
From stdpp Require sorting.
From S2P Require Import Prelude Bytes Runtime Graph Window Element Network.

Inductive ChannelType : Type := CT_Memory | CT_Network.

Inductive Chan : Type := MemChan (t : TaskId) | NetChan (k : ChannelKey).

Section output.
Context {BA : BytesApi} {SB : SerBuffer} {HO : HashOrder}.

(** [MEMORY_CHANNELS] and [NETWORK_CHANNELS]. *)
Record Channels := mkChannels {
  ch_memory : gmap TaskId (list Element);
  ch_network : gmap ChannelKey (list Element)
}.

(** ** Memory channels *)

(** [get]: the channel of a target task, created by whoever asks first. *)
Definition memory_get (target_task_id : TaskId) (chs : Channels) : Channels * Chan :=
  (match ch_memory chs !! target_task_id with
   | Some _ => chs
   | None => mkChannels (<[target_task_id := []]> (ch_memory chs)) (ch_network chs)
   end, MemChan target_task_id).

Definition memory_publish (source_task_id : TaskId) (target_task_ids : list TaskId) (chs : Channels)
    : Channels * list (ChannelKey * Chan) :=
  foldl (fun '(chs, senders) target_task_id =>
    let channel_key := mkChannelKey source_task_id target_task_id in
    let '(chs, sender) := memory_get target_task_id chs in
    (chs, senders ++ [(channel_key, sender)])) (chs, []) target_task_ids.

Definition memory_subscribe (source_task_ids : list TaskId) (target_task_id : TaskId) (chs : Channels)
    : res string (Channels * Chan) :=
  if (length source_task_ids =? 0)%nat then Panic "source TaskId not found"%string
  else Ok (memory_get target_task_id chs).

(** [Sender::send]: to the queue of the channel. *)
Definition chan_send (c : Chan) (e : Element) (chs : Channels) : Channels :=
  match c with
  | MemChan t => mkChannels (alter (fun q => q ++ [e]) t (ch_memory chs)) (ch_network chs)
  | NetChan k => mkChannels (ch_memory chs) (alter (fun q => q ++ [e]) k (ch_network chs))
  end.

(** ** SystemOutputFormat *)
Definition TaskSender : Type := TaskId * Chan.

Record SystemOutputFormat := mkOutput {
  of_task_id : TaskId;
  of_channel_type : ChannelType;
  of_job_senders : list (JobId * list TaskSender)
}.

Definition output_new : SystemOutputFormat := mkOutput TaskId_default CT_Memory [].

(** The senders of one channel type, checked one by one and grouped by job. *)
Definition group_senders (ok : TaskId -> bool) (msg : string) (task_senders : list (ChannelKey * Chan))
    : res string (gmap JobId (list TaskSender)) :=
  foldM (fun m '(channel_key, sender) =>
    let target_task_id := target_task_id channel_key in
    let* _ := assert_that (ok target_task_id) msg in
    Ok (<[job_id target_task_id := default [] (m !! job_id target_task_id) ++ [(target_task_id, sender)]]> m))
    (∅ : gmap JobId (list TaskSender)) task_senders.

Definition sender_number (s : TaskSender) : Z := task_number s.1.

(** [for i in 0..task_senders.len()]: the [i]-th sender is of task [i]. *)
Fixpoint check_numbers (i : Z) (l : list TaskSender) : res string unit :=
  match l with
  | [] => Ok tt
  | s :: l => let* _ := assert_that (sender_number s =? i) "lost task" in check_numbers (i + 1) l
  end.

Definition push_memory_job (acc : list (JobId * list TaskSender)) (js : JobId * list TaskSender)
    : res string (list (JobId * list TaskSender)) :=
  let* _ := assert_that (length js.2 =? 1)%nat "only `Forward` support in memory channel" in
  Ok (acc ++ [js]).

Definition push_network_job (child_parallelism : Z) (acc : list (JobId * list TaskSender)) (js : JobId * list TaskSender)
    : res string (list (JobId * list TaskSender)) :=
  let* _ := assert_that (Z.of_nat (length js.2) =? child_parallelism) "the job `num_tasks` conflict in network channel" in
  let senders := sort_by_key sender_number js.2 in
  let* _ := check_numbers 0 senders in
  Ok (acc ++ [(js.1, senders)]).

Definition edge_tasks (edge : ExecutionEdge) (children : list (TaskId * ExecutionEdge)) : list TaskId :=
  (List.filter (fun '(_, e) => match e, edge with
                               | EE_Memory, EE_Memory | EE_Network, EE_Network => true
                               | _, _ => false
                               end) children).*1.

(** [open], for the task [task_id] with the given child tasks. *)
Definition output_open (o : SystemOutputFormat) (task_id : TaskId) (children : list (TaskId * ExecutionEdge))
    (chs : Channels) : res string (SystemOutputFormat * Channels) :=
  let memory_jobs := edge_tasks EE_Memory children in
  let network_jobs := edge_tasks EE_Network children in
  if (length memory_jobs =? 0)%nat && (length network_jobs =? 0)%nat then Panic "child job not found"%string
  else if (0 <? length memory_jobs)%nat && (0 <? length network_jobs)%nat
  then Panic "only one channel mode(memory/network) support"%string
  else if (0 <? length memory_jobs)%nat then
    let '(chs, task_senders) := memory_publish task_id memory_jobs chs in
    let* job_senders := group_senders (fun t => task_number task_id =? task_number t)
                          "the task `task_number` conflict in memory channel" task_senders in
    let* senders := foldM push_memory_job (of_job_senders o) (hiter job_senders) in
    Ok (mkOutput task_id CT_Memory senders, chs)
  else
    let* (net, keys) := network_publish task_id network_jobs (ch_network chs) in
    let task_senders := (fun k => (k, NetChan k)) <$> keys in
    let* first := unwrap "index out of bounds" (head task_senders) in
    let child_parallelism := num_tasks (target_task_id first.1) in
    let* job_senders := group_senders (fun t => child_parallelism =? num_tasks t)
                          "the task `num_tasks` conflict in network channel" task_senders in
    let* senders := foldM (push_network_job child_parallelism) (of_job_senders o) (hiter job_senders) in
    Ok (mkOutput task_id CT_Network senders, mkChannels (ch_memory chs) net).

(** The sender [write_element] uses for a job, and the element it sends. *)
Definition send_memory (o : SystemOutputFormat) (e : Element) (chs : Channels) (js : JobId * list TaskSender)
    : res string Channels :=
  let* (task_id, sender) := unwrap "index out of bounds" (js.2 !! 0%nat) in
  Ok (chan_send sender (set_channel_key (mkChannelKey (of_task_id o) task_id) e) chs).

Definition send_network (e : Element) (chs : Channels) (js : JobId * list TaskSender) : res string Channels :=
  let* (task_id, sender) := unwrap "called `Option::unwrap()` on a `None` value" (js.2 !! Z.to_nat (partition e)) in
  Ok (chan_send sender e chs).

Definition write_element (o : SystemOutputFormat) (e : Element) (chs : Channels) : res string Channels :=
  match of_channel_type o with
  | CT_Memory =>
      match of_job_senders o with
      | [js] => send_memory o e chs js
      | jss => foldM (send_memory o e) chs jss
      end
  | CT_Network =>
      match of_job_senders o with
      | [js] => send_network e chs js
      | jss => foldM (send_network e) chs jss
      end
  end.

(** [close]: the end of the stream, on every channel. *)
Definition output_close (o : SystemOutputFormat) (chs : Channels) : Channels :=
  let stream_status := Element_StreamStatus (StreamStatus_new 0 true) in
  foldl (fun chs '(_, task_senders) => foldl (fun chs '(_, sender) => chan_send sender stream_status chs) chs task_senders)
    chs (of_job_senders o).
End output.

(** ** Lemmas on [open] *)
Section output_lemmas.
Context {BA : BytesApi} {SB : SerBuffer} {HO : HashOrder}.

Lemma network_publish_ok src ts (chs chs' : gmap ChannelKey (list Element)) keys :
  network_publish src ts chs = Ok (chs', keys) ->
  keys = mkChannelKey src <$> ts /\ NoDup ts /\
  (forall k, chs' !! k = if decide (k ∈ mkChannelKey src <$> ts) then Some [] else chs !! k).
Proof.
  unfold network_publish. change (mkChannelKey src <$> ts) with ([] ++ (mkChannelKey src <$> ts)).
  enough (forall acc, foldM (fun '(chs, senders) target_task_id =>
      let channel_key := mkChannelKey src target_task_id in
      let* chs := set_network_channel channel_key [] chs in Ok (chs, senders ++ [channel_key])) (chs, acc) ts = Ok (chs', keys) ->
    keys = acc ++ (mkChannelKey src <$> ts) /\ NoDup ts /\
    (forall t, t ∈ ts -> chs !! mkChannelKey src t = None) /\
    forall k, chs' !! k = if decide (k ∈ mkChannelKey src <$> ts) then Some [] else chs !! k) as H.
  { intros Hf. destruct (H [] Hf) as (? & ? & _ & ?). by split_and!. }
  revert chs; induction ts as [|t ts IH]; intros chs acc; cbn [foldM].
  - intros ?. simplify_eq. rewrite fmap_nil, app_nil_r. split_and!; [done|constructor|by intros t []%elem_of_nil|].
    intros k. rewrite decide_False; [done|apply not_elem_of_nil].
  - cbn zeta. unfold set_network_channel at 1. destruct (chs !! mkChannelKey src t) eqn:Et; run_bind; [done|].
    intros Hf. apply IH in Hf as (-> & Hnd & Hnone & Hl). rewrite fmap_cons, <- (assoc_L (++)).
    split_and!; [done| | |].
    + apply NoDup_cons. split; [|done]. intros Hin. specialize (Hnone t Hin). by rewrite lookup_insert_eq in Hnone.
    + intros t' [->|Hin]%elem_of_cons; [done|]. specialize (Hnone t' Hin).
      rewrite lookup_insert_ne in Hnone; [done|]. intros E. injection E as ->.
      by rewrite lookup_insert_eq in Hnone.
    + intros k. rewrite Hl. destruct (decide (k ∈ mkChannelKey src <$> ts)) as [Hk|Hk].
      * by rewrite decide_True by by right.
      * destruct (decide (k = mkChannelKey src t)) as [->|Hne].
        -- by rewrite lookup_insert_eq, decide_True by by left.
        -- rewrite lookup_insert_ne by done. rewrite decide_False; [done|]. by rewrite elem_of_cons; intros [|].
Qed.

Definition net_senders (src : TaskId) (ts : list TaskId) : list TaskSender :=
  (fun t => (t, NetChan (mkChannelKey src t))) <$> ts.

Lemma group_senders_ok (ok : TaskId -> bool) msg l m :
  group_senders ok msg l = Ok m <->
  Forall (fun x => ok (target_task_id x.1) = true) l /\
  m = group_by (fun s : TaskSender => job_id s.1) ((fun x => (target_task_id x.1, x.2)) <$> l).
Proof.
  unfold group_senders, group_by. generalize (∅ : gmap JobId (list TaskSender)).
  induction l as [|[k c] l IH]; intros m0; cbn [foldM fmap list_fmap foldl].
  - split; [intros; simplify_eq; by split|]. by intros [_ ->].
  - rewrite Forall_cons. cbn [fst snd]. cbn zeta. unfold assert_that at 1.
    destruct (ok (target_task_id k)); run_bind.
    + rewrite IH. split; [intros [? ?]|intros [[_ ?] ?]]; by split_and!.
    + split; [done|]. by intros [[? _] _].
Qed.

Lemma check_numbers_ok i l : check_numbers i l = Ok tt <-> forall (j : nat) s, l !! j = Some s -> sender_number s = i + Z.of_nat j.
Proof.
  revert i; induction l as [|s l IH]; intros i; cbn [check_numbers]; [by split|].
  unfold assert_that. destruct (Z.eqb_spec (sender_number s) i) as [E|E]; run_bind.
  - rewrite IH. split.
    + intros H [|j] s' Hs; cbn in Hs; [simplify_eq; lia|]. rewrite (H j s' Hs). lia.
    + intros H j s' Hs. rewrite (H (Datatypes.S j) s' Hs). lia.
  - split; [done|]. intros H. specialize (H 0%nat s eq_refl). lia.
Qed.

Lemma push_network_ok p acc l acc' :
  foldM (push_network_job p) acc l = Ok acc' <->
  acc' = acc ++ ((fun js => (js.1, sort_by_key sender_number js.2)) <$> l) /\
  Forall (fun js => Z.of_nat (length js.2) = p /\ check_numbers 0 (sort_by_key sender_number js.2) = Ok tt) l.
Proof.
  revert acc; induction l as [|js l IH]; intros acc; cbn [foldM].
  - rewrite fmap_nil, app_nil_r. split; [intros; simplify_eq; by split|]. by intros [-> _].
  - rewrite Forall_cons, fmap_cons. unfold push_network_job at 1. unfold assert_that at 1.
    destruct (Z.eqb_spec (Z.of_nat (length js.2)) p) as [E|E]; run_bind.
    + cbn zeta. destruct (check_numbers 0 _) as [[]| |] eqn:Ec; run_bind.
      * rewrite IH, <- (assoc_L (++)). split; [intros [? ?]|intros [? [_ ?]]]; by split_and!.
      * split; [done|]. by intros [_ [[_ ?] _]].
      * split; [done|]. by intros [_ [[_ ?] _]].
    + split; [done|]. by intros [_ [[? _] _]].
Qed.

Definition over_network (ts : list TaskId) : list (TaskId * ExecutionEdge) := (fun t => (t, EE_Network)) <$> ts.

Lemma edge_tasks_network ts : edge_tasks EE_Network (over_network ts) = ts /\ edge_tasks EE_Memory (over_network ts) = [].
Proof.
  unfold edge_tasks, over_network. induction ts as [|t ts [IH1 IH2]]; [done|]. cbn. split; [by f_equal|done].
Qed.

(** [open] over the network, its parts put together. *)
Lemma output_open_network self t ts chs o chs' :
  output_open output_new self (over_network (t :: ts)) chs = Ok (o, chs') <->
  exists net,
    network_publish self (t :: ts) (ch_network chs) = Ok (net, mkChannelKey self <$> (t :: ts)) /\
    chs' = mkChannels (ch_memory chs) net /\
    Forall (fun u => num_tasks u = num_tasks t) (t :: ts) /\
    let groups := hiter (group_by (fun s : TaskSender => job_id s.1) (net_senders self (t :: ts))) in
    Forall (fun js => Z.of_nat (length js.2) = num_tasks t /\ check_numbers 0 (sort_by_key sender_number js.2) = Ok tt) groups /\
    o = mkOutput self CT_Network ((fun js => (js.1, sort_by_key sender_number js.2)) <$> groups).
Proof.
  unfold output_open. destruct (edge_tasks_network (t :: ts)) as [-> ->]. cbn [length Nat.eqb andb Nat.ltb Nat.leb].
  destruct (network_publish self (t :: ts) (ch_network chs)) as [[net keys]| |] eqn:Ep; run_bind.
  2-3: split; [done|]; intros (net & ? & _); done.
  pose proof (network_publish_ok _ _ _ _ _ Ep) as (-> & _ & _).
  cbn [fmap list_fmap head unwrap]. run_bind. cbn [fst target_task_id].
  set (senders := (mkChannelKey self t, NetChan (mkChannelKey self t)) :: _).
  assert ((fun x => (target_task_id x.1, x.2)) <$> senders = net_senders self (t :: ts)) as Hsn.
  { unfold senders, net_senders. cbn. f_equal. change list_fmap with (@fmap list list_fmap).
    rewrite <- !list_fmap_compose. by apply list_fmap_ext. }
  assert (Forall (fun x => (num_tasks t =? num_tasks (target_task_id x.1)) = true) senders <->
    Forall (fun u => num_tasks u = num_tasks t) (t :: ts)) as Hfa.
  { change senders with ((fun k => (k, NetChan k)) <$> (mkChannelKey self <$> (t :: ts))). rewrite !Forall_fmap.
    apply Forall_proper; [|done]. intros u. cbn. rewrite Z.eqb_eq. naive_solver. }
  destruct (group_senders _ _ senders) as [m| |] eqn:Eg; run_bind.
  2-3: split; [done|]; intros (net' & _ & _ & Hall & _); exfalso;
    assert (group_senders (fun u => num_tasks t =? num_tasks u) "the task `num_tasks` conflict in network channel" senders = Ok _)
      as Hok by (apply group_senders_ok; split; [by apply Hfa|reflexivity]); congruence.
  apply group_senders_ok in Eg as [Hall ->]. rewrite Hsn. apply Hfa in Hall.
  destruct (foldM _ _ _) as [acc| |] eqn:Ef; run_bind.
  2-3: split; [done|]; intros (net' & _ & _ & _ & Hp & ->); exfalso;
    assert (foldM (push_network_job (num_tasks t)) (of_job_senders output_new)
      (hiter (group_by (fun s : TaskSender => job_id s.1) (net_senders self (t :: ts)))) = Ok _) as Hok
      by (apply push_network_ok; split; [reflexivity|exact Hp]); congruence.
  apply push_network_ok in Ef as [-> Hp]. split.
  - intros; simplify_eq. exists net. by split_and!.
  - intros (net' & ? & -> & _ & _ & ->). by simplify_eq.
Qed.
(** ** Where [open] leads *)

(** The senders [open] leaves: for every job of a child task one list, in which
    the [i]-th sender is that of the job's task [i]. *)
Definition routes (self : TaskId) (ts : list TaskId) (p : Z) (o : SystemOutputFormat) : Prop :=
  of_channel_type o = CT_Network /\ NoDup (of_job_senders o).*1 /\
  (forall t, t ∈ ts -> job_id t ∈ (of_job_senders o).*1) /\
  forall job senders, (job, senders) ∈ of_job_senders o ->
    Z.of_nat (length senders) = p /\
    forall (i : nat) s, senders !! i = Some s ->
      job_id s.1 = job /\ task_number s.1 = Z.of_nat i /\ num_tasks s.1 = p /\
      s.2 = NetChan (mkChannelKey self s.1) /\ s.1 ∈ ts.

Lemma elem_of_net_senders self ts (s : TaskSender) :
  s ∈ net_senders self ts <-> s.1 ∈ ts /\ s.2 = NetChan (mkChannelKey self s.1).
Proof.
  unfold net_senders. rewrite list_elem_of_fmap. destruct s as [t c]. cbn. split.
  - by intros (t' & E & ?); simplify_eq.
  - intros [? ->]. by exists t.
Qed.

Lemma output_open_routes self t ts chs o chs' :
  output_open output_new self (over_network (t :: ts)) chs = Ok (o, chs') -> routes self (t :: ts) (num_tasks t) o.
Proof.
  intros (net & _ & _ & Hnum & Hg & ->)%output_open_network. set (groups := hiter _) in *.
  rewrite Forall_forall in Hg. rewrite Forall_forall in Hnum. split_and!; [done| | |].
  - cbn. rewrite <- list_fmap_compose. apply (NoDup_hiter_fst (HO:=HO)).
  - intros u Hu. cbn. rewrite <- list_fmap_compose. apply (elem_of_hiter_keys (HO:=HO)).
    rewrite group_by_lookup. destruct (filter _ _) as [|x l] eqn:E; [|by eexists]. exfalso.
    assert ((u, NetChan (mkChannelKey self u)) ∈ ([] : list TaskSender)) as []%elem_of_nil.
    rewrite <- E. apply list_elem_of_filter. split; [done|]. by apply elem_of_net_senders.
  - intros job senders Hin. cbn in Hin. apply list_elem_of_fmap in Hin as ([job' l] & ? & Hin). simplify_eq/=.
    destruct (Hg _ Hin) as [Hlen Hchk]. cbn in Hlen, Hchk. rewrite length_sort_by_key. split; [done|].
    intros i s Hs. pose proof (proj1 (check_numbers_ok 0 _) Hchk i s Hs) as Hn.
    assert (s ∈ l) as Hsl by (apply (elem_of_sort_by_key sender_number); by eapply list_elem_of_lookup_2).
    apply elem_of_hiter, group_by_Some in Hin as [-> _]. apply list_elem_of_filter in Hsl as [<- Hsl].
    change (s ∈ net_senders self (t :: ts)) in Hsl. apply elem_of_net_senders in Hsl as [H1 H2]. split_and!; [done|unfold sender_number in Hn; lia|by apply Hnum|done|done].
Qed.

(** The sender for a partition. *)
Lemma routes_pick self ts p o e : routes self ts p o -> 0 <= partition e < p ->
  forall js, js ∈ of_job_senders o ->
    let u := mkTaskId js.1 (partition e) p in
    js.2 !! Z.to_nat (partition e) = Some (u, NetChan (mkChannelKey self u)) /\ u ∈ ts.
Proof.
  intros (_ & _ & _ & Hr) He [job senders] Hin. destruct (Hr job senders Hin) as [Hlen Hs].
  destruct (lookup_lt_is_Some_2 senders (Z.to_nat (partition e))) as [[u c] Hu]; [lia|].
  destruct (Hs _ _ Hu) as (H1 & H2 & H3 & H4 & H5). cbn in *.
  assert (u = mkTaskId job (partition e) p) as -> by (destruct u; cbn in *; f_equal; lia). by subst c.
Qed.

(** ** Lemmas on [write_element] *)
Definition append_to (e : Element) (m : gmap ChannelKey (list Element)) (k : ChannelKey) : gmap ChannelKey (list Element) :=
  alter (fun q => q ++ [e]) k m.

Lemma append_all_lookup e ks m k : NoDup ks ->
  foldl (append_to e) m ks !! k = if decide (k ∈ ks) then (fun q => q ++ [e]) <$> m !! k else m !! k.
Proof.
  intros Hnd. revert m; induction Hnd as [|k' ks Hk Hnd IH]; intros m; cbn [foldl].
  - rewrite decide_False; [done|apply not_elem_of_nil].
  - rewrite IH. unfold append_to. destruct (decide (k ∈ ks)) as [Hin|Hin].
    + rewrite decide_True by by right. rewrite lookup_alter_ne; [done|]. by intros ->.
    + destruct (decide (k = k')) as [->|Hne].
      * by rewrite lookup_alter_eq, decide_True by by left.
      * rewrite lookup_alter_ne by done. rewrite decide_False; [done|]. rewrite elem_of_cons. by intros [|].
Qed.

(** The channels of the senders at an index. *)
Lemma foldM_send_network e jss (key : JobId -> ChannelKey) chs :
  (forall js, js ∈ jss -> exists t, js.2 !! Z.to_nat (partition e) = Some (t, NetChan (key js.1))) ->
  foldM (send_network e) chs jss =
    Ok (mkChannels (ch_memory chs) (foldl (append_to e) (ch_network chs) (key <$> jss.*1))).
Proof.
  revert chs; induction jss as [|js jss IH]; intros chs H; cbn [foldM fmap list_fmap foldl].
  { by destruct chs. }
  unfold send_network at 1. destruct (H js) as [t ->]; [by left|]. cbn [unwrap]. run_bind.
  rewrite IH; [done|]. intros. apply H. by right.
Qed.

Lemma write_element_network o e chs : of_channel_type o = CT_Network ->
  write_element o e chs = foldM (send_network e) chs (of_job_senders o).
Proof.
  intros Ht. unfold write_element. rewrite Ht. destruct (of_job_senders o) as [|js [|]]; try done.
  cbn [foldM]. by destruct (send_network e chs js).
Qed.
End output_lemmas.

(** ** The children of a well-formed job graph *)
Section children.
Context {BA : BytesApi} {SB : SerBuffer} {HO : HashOrder}.

Definition job_tasks (p : Z) (job : JobId) : list TaskId :=
  (fun n : nat => mkTaskId job (Z.of_nat n) p) <$> seq 0 (Z.to_nat p).

(** All the tasks of the jobs, each with parallelism [p]. *)
Definition jobs_tasks (p : Z) (jobs : list JobId) : list TaskId := jobs ≫= job_tasks p.

Lemma elem_of_jobs_tasks p jobs t :
  t ∈ jobs_tasks p jobs -> job_id t ∈ jobs /\ num_tasks t = p.
Proof.
  unfold jobs_tasks. rewrite list_elem_of_bind. intros (job & Hin & Hjob).
  apply list_elem_of_fmap in Hin as (n & -> & _). done.
Qed.

Lemma filter_job_tasks p job job' :
  filter (fun t => job_id t = job) (job_tasks p job') = if decide (job' = job) then job_tasks p job' else [].
Proof.
  unfold job_tasks. generalize (seq 0 (Z.to_nat p)). intros l. case_decide as E.
  - induction l as [|n l IH]; [done|]. cbn [fmap list_fmap]. rewrite filter_cons_True by done. by f_equal.
  - induction l as [|n l IH]; [done|]. cbn [fmap list_fmap]. by rewrite filter_cons_False.
Qed.

Lemma filter_jobs_tasks p jobs job : NoDup jobs -> job ∈ jobs ->
  filter (fun t => job_id t = job) (jobs_tasks p jobs) = job_tasks p job.
Proof.
  unfold jobs_tasks. induction 1 as [|x jobs Hx Hnd IH]; [by intros []%elem_of_nil|].
  rewrite bind_cons, filter_app, filter_job_tasks. intros [->|Hin]%elem_of_cons.
  - rewrite decide_True by done.
    assert (filter (fun t => job_id t = x) (jobs ≫= job_tasks p) = []) as ->; [|by rewrite app_nil_r].
    clear -Hx. induction jobs as [|y jobs IH]; [done|]. apply not_elem_of_cons in Hx as [Hne Hx].
    rewrite bind_cons, filter_app, filter_job_tasks, decide_False by done. by apply IH.
  - rewrite decide_False by (intros ->; done). by apply IH.
Qed.

Lemma NoDup_jobs_tasks p jobs : NoDup jobs -> NoDup (jobs_tasks p jobs).
Proof.
  intros Hnd. apply NoDup_bind; [|intros job _|done].
  - intros j1 j2 t _ _ H1 H2. apply list_elem_of_fmap in H1 as (n1 & -> & _), H2 as (n2 & E & _). by injection E.
  - apply NoDup_fmap_2, NoDup_seq. intros x y E. injection E. lia.
Qed.

Lemma network_publish_total self ts (net : gmap ChannelKey (list Element)) :
  NoDup ts -> (forall t, t ∈ ts -> net !! mkChannelKey self t = None) ->
  exists net', network_publish self ts net = Ok (net', mkChannelKey self <$> ts).
Proof.
  intros Hnd Hnone. enough (exists net' keys, network_publish self ts net = Ok (net', keys)) as (net' & keys & Hp).
  { exists net'. pose proof (network_publish_ok _ _ _ _ _ Hp) as (-> & _). done. }
  unfold network_publish. match goal with |- context [foldM ?f _ _] => set (add := f) end.
  generalize ([] : list ChannelKey). revert net Hnone.
  induction Hnd as [|t ts Ht Hnd IH]; intros net Hnone acc; cbn [foldM]; [by eexists _, _|].
  unfold add at 1. cbn zeta. unfold set_network_channel at 1. rewrite (Hnone t) by by left. run_bind. apply IH.
  intros u Hu. rewrite lookup_insert_ne; [apply Hnone; by right|]. intros E. injection E as ->. done.
Qed.

(** Senders with the numbers of all the tasks pass the check. *)
Lemma check_numbers_all p (l : list TaskSender) : 0 <= p ->
  sender_number <$> l ≡ₚ Z.of_nat <$> seq 0 (Z.to_nat p) ->
  Z.of_nat (length l) = p /\ check_numbers 0 (sort_by_key sender_number l) = Ok tt.
Proof.
  intros Hp Hl. split.
  { apply Permutation_length in Hl. rewrite !length_fmap, length_seq in Hl. lia. }
  assert (sender_number <$> sort_by_key sender_number l = Z.of_nat <$> seq 0 (Z.to_nat p)) as E.
  { apply (sorting.StronglySorted_unique Z.le).
    - pose proof (sort_by_key_sorted sender_number l) as Hs. unfold sorted_by in Hs.
      induction Hs as [|x l' Hs IH Hall]; [constructor|]. cbn. constructor; [done|]. rewrite Forall_fmap. exact Hall.
    - clear Hl. generalize 0%nat. induction (Z.to_nat p) as [|n IH]; intros a; csimpl; [constructor|]. constructor; [apply IH|].
      rewrite Forall_fmap, Forall_forall. intros x Hx%elem_of_seq. cbn. lia.
    - by rewrite sort_by_key_perm. }
  apply check_numbers_ok. intros j x Hj.
  assert ((sender_number <$> sort_by_key sender_number l) !! j = Some (sender_number x)) as Hx by by rewrite list_lookup_fmap, Hj.
  rewrite E, list_lookup_fmap in Hx. destruct (seq 0 (Z.to_nat p) !! j) as [n|] eqn:En; [|done].
  apply lookup_seq in En as [-> _]. cbn in Hx. injection Hx as <-. lia.
Qed.

Lemma filter_net_senders self job ts :
  filter (fun s : TaskSender => job_id s.1 = job) (net_senders self ts) = net_senders self (filter (fun t => job_id t = job) ts).
Proof.
  unfold net_senders. induction ts as [|t ts IH]; [done|]. cbn [fmap list_fmap]. rewrite !filter_cons. cbn.
  destruct (decide (job_id t = job)); [cbn; f_equal|]; exact IH.
Qed.

Lemma sender_numbers self ts : sender_number <$> net_senders self ts = task_number <$> ts.
Proof. unfold net_senders. rewrite <- list_fmap_compose. done. Qed.
End children.

(** ** Claims *)
Section output_claims.
Context {BA : BytesApi} {SB : SerBuffer} {HO : HashOrder}.

(** Elements reach the task of their partition. After [open] of the output
    of task [self] to the tasks [ts] over the network, the channel to each of
    them is published and empty, and writing an element with partition [i]
    appends it to the channels from [self] to task [i] of each child job, once
    each, and to no other channel. *)
Theorem network_output_routes self t ts chs o chs' :
  output_open output_new self (over_network (t :: ts)) chs = Ok (o, chs') ->
  (forall u, u ∈ t :: ts -> ch_network chs' !! mkChannelKey self u = Some []) /\
  forall e chs1, 0 <= partition e < num_tasks t ->
    exists chs2, write_element o e chs1 = Ok chs2 /\ ch_memory chs2 = ch_memory chs1 /\
      forall k, ch_network chs2 !! k =
        if decide (source_task_id k = self /\ target_task_id k ∈ t :: ts /\ task_number (target_task_id k) = partition e)
        then (fun q => q ++ [e]) <$> ch_network chs1 !! k else ch_network chs1 !! k.
Proof.
  intros Hopen. split.
  - apply output_open_network in Hopen as (net & Hp & -> & _). apply network_publish_ok in Hp as (_ & _ & Hl).
    intros u Hu. cbn. rewrite Hl, decide_True; [done|]. by apply list_elem_of_fmap_2.
  - pose proof (output_open_routes _ _ _ _ _ _ Hopen) as (Hct & Hnd & Hjobs & Hr). intros e chs1 He.
    set (key := fun job : JobId => mkChannelKey self (mkTaskId job (partition e) (num_tasks t))).
    exists (mkChannels (ch_memory chs1) (foldl (append_to e) (ch_network chs1) (key <$> (of_job_senders o).*1))).
    pose proof (routes_pick _ _ _ _ e (output_open_routes _ _ _ _ _ _ Hopen) He) as Hpick.
    split; [|split; [done|]].
    + rewrite write_element_network by done. apply foldM_send_network. intros js Hjs.
      destruct (Hpick js Hjs) as [Hu _]. by eexists.
    + intros k. cbn [ch_network]. rewrite append_all_lookup
        by (apply NoDup_fmap_2; [intros x y E; by injection E|done]).
      assert (k ∈ key <$> (of_job_senders o).*1 <->
        source_task_id k = self /\ target_task_id k ∈ t :: ts /\ task_number (target_task_id k) = partition e) as Hiff.
      { rewrite list_elem_of_fmap. split.
        - intros (job & -> & (js & -> & Hjs)%list_elem_of_fmap). by destruct (Hpick js Hjs) as [_ Hin].
        - intros (Hs & Hin & Hn). exists (job_id (target_task_id k)). split; [|by apply Hjobs].
          unfold key.
          apply output_open_network in Hopen as (_ & _ & _ & Hnum & _). rewrite Forall_forall in Hnum.
          specialize (Hnum _ Hin). destruct k as [a [b c d]]. cbn in *. congruence. }
      destruct (decide (k ∈ key <$> (of_job_senders o).*1)) as [Hk|Hk].
      * by rewrite decide_True by by apply Hiff.
      * rewrite decide_False; [done|]. by intros ?%Hiff.
Qed.

(** [open] succeeds on the graphs the DAG builder makes: when the child
    tasks are, in any order, all the tasks of some jobs of the same positive
    parallelism, and none of the channels is published yet. *)
Lemma output_open_total self p jobs ts chs :
  NoDup jobs -> jobs <> [] -> 0 < p -> ts ≡ₚ jobs_tasks p jobs ->
  (forall t, t ∈ ts -> ch_network chs !! mkChannelKey self t = None) ->
  exists o chs', output_open output_new self (over_network ts) chs = Ok (o, chs').
Proof.
  intros Hnd Hne Hp Hts Hnone.
  assert (forall t, t ∈ ts -> num_tasks t = p) as Hnum by (intros t; rewrite Hts; by intros [_ ?]%elem_of_jobs_tasks).
  destruct ts as [|t ts].
  { exfalso. destruct jobs as [|job jobs]; [done|]. apply Permutation_nil_l in Hts.
    unfold jobs_tasks in Hts. rewrite bind_cons in Hts. symmetry in Hts. apply app_eq_nil in Hts as [Hts _].
    apply (f_equal length) in Hts. unfold job_tasks in Hts. rewrite length_fmap, length_seq in Hts. cbn in Hts. lia. }
  destruct (network_publish_total self (t :: ts) (ch_network chs)) as [net Hpub]; [|done|].
  { rewrite Hts. by apply NoDup_jobs_tasks. }
  eexists _, _. apply output_open_network. exists net. split; [done|]. split; [reflexivity|]. split.
  { apply Forall_forall. intros u Hu. rewrite !Hnum; [done|by left|done]. }
  split; [|reflexivity]. rewrite (Hnum t) by by left. apply Forall_forall. intros [job l] Hin.
  apply elem_of_hiter, group_by_Some in Hin as [-> Hl]. apply check_numbers_all; [lia|].
  cbn [snd] in *. rewrite filter_net_senders in *. rewrite sender_numbers.
  assert (job ∈ jobs) as Hjob.
  { destruct (filter (fun u => job_id u = job) (t :: ts)) as [|u l] eqn:E; [done|].
    assert (u ∈ u :: l) as Hu by by left. rewrite <- E, list_elem_of_filter, Hts in Hu. destruct Hu as [<- Hu].
    by apply elem_of_jobs_tasks in Hu as [? _]. }
  rewrite Hts, filter_jobs_tasks by done. unfold job_tasks. by rewrite <- list_fmap_compose.
Qed.
End output_claims.

(** ** Examples *)
Section evaluated.
#[local] Existing Instances be_bytes_api list_buffer id_order.

Definition ex_self : TaskId := mkTaskId 1 0 1.
Definition ex_children : list TaskId := [mkTaskId 5 1 2; mkTaskId 9 0 2; mkTaskId 5 0 2; mkTaskId 9 1 2].
Definition ex_channels : Channels := mkChannels ∅ ∅.

Lemma network_output_routes_witness : exists o chs' chs2,
  output_open output_new ex_self (over_network ex_children) ex_channels = Ok (o, chs') /\
  write_element o (new_watermark 3) chs' = Ok chs2 /\
  ch_network chs2 !! mkChannelKey ex_self (mkTaskId 9 0 2) = Some [new_watermark 3] /\
  ch_network chs2 !! mkChannelKey ex_self (mkTaskId 9 1 2) = Some [].
Proof.
  destruct (output_open output_new ex_self (over_network ex_children) ex_channels) as [[o chs']| |] eqn:E.
  2-3: vm_compute in E; discriminate E.
  destruct (network_output_routes ex_self (mkTaskId 5 1 2) [mkTaskId 9 0 2; mkTaskId 5 0 2; mkTaskId 9 1 2]
    ex_channels o chs' E) as [H1 H2].
  destruct (H2 (new_watermark 3) chs') as (chs2 & Hw & _ & Hl); [vm_compute; split; [discriminate|reflexivity]|].
  exists o, chs', chs2. split; [reflexivity|]. split; [exact Hw|]. split.
  - rewrite Hl, H1 by (right; left). reflexivity.
  - rewrite Hl, H1 by (do 3 right; left). reflexivity.
Defined.
End evaluated.
