(* ===== verification/Exchange.v ===== *)
(** * Exchange: tasks find each other

    src/rlink/src/functions/system/system_input_format.rs and the subscribing side of
    src/rlink/src/pub_sub/network/client.rs: the source that begins a job inside the graph
    subscribes to its parent tasks, in memory or over the network, and merges the two
    receivers. The sink on the other side is in Output.

    The theorems join the two sides over the graphs of a program: every task whose job
    has a next one can open its output, and a task subscribes to exactly the channels
    that its parents publish for it. *)
From Stdlib Require Import ZArith Lia.
From stdpp Require Import base strings numbers option sets gmap list relations.
From S2P Require Import Prelude BTreeMap Bytes Runtime Graph Window Element Align Runnables Task Network Output.
From S2P Require Import Schema StreamGraph JobGraph ExecutionGraph PhysicGraph DagMetadata WorkerTask.

Section system_input.
Context {BA : BytesApi} {SB : SerBuffer} {DA : DagApi} {HO : HashOrder}.

(** ** Subscribing over the network

    The subscriptions posted to the client thread: the channel and the queue that is to
    receive it, one queue for all the parents of a task. *)
Definition network_subscribe (source_task_ids : list TaskId) (target : TaskId) (posts : list ChannelKey)
    : res string (list ChannelKey * TaskId) :=
  let* _ := unwrap "index out of bounds" (head source_task_ids) in
  Ok (foldl (fun posts source => posts ++ [mkChannelKey source target]) posts source_task_ids, target).

(** ** SystemInputFormat *)
Record SystemInput := mkSystemInput {
  si_memory_receiver : option Chan;
  si_network_receiver : option TaskId;
  si_task_id : TaskId
}.

Definition SystemInput_new : SystemInput := mkSystemInput None None TaskId_default.

(** The parents by the kind of their edge. *)
Definition parent_jobs_of (edge : ExecutionEdge) (parents : list (ExecutionNode * ExecutionEdge)) : list TaskId :=
  foldl (fun l p => if decide (p.2 = edge) then l ++ [en_task_id p.1] else l) [] parents.

Definition input_open (s : SystemInput) (context : FunctionContext) (chs : Channels) (posts : list ChannelKey)
    : res string (SystemInput * Channels * list ChannelKey) :=
  let task_id := fc_task_id context in
  let memory_jobs := parent_jobs_of EE_Memory (fc_parents context) in
  let network_jobs := parent_jobs_of EE_Network (fc_parents context) in
  let* (chs, mem) :=
    if decide (0 < length memory_jobs)%nat
    then let* (chs, rx) := memory_subscribe memory_jobs task_id chs in Ok (chs, Some rx)
    else Ok (chs, si_memory_receiver s) in
  let* (posts, net) :=
    if decide (0 < length network_jobs)%nat
    then let* (posts, rx) := network_subscribe network_jobs task_id posts in Ok (posts, Some rx)
    else Ok (posts, si_network_receiver s) in
  Ok (mkSystemInput mem net task_id, chs, posts).

(** [element_iter]: how many receivers the iterator reads. *)
Definition element_iter {E} (s : SystemInput) : res E nat :=
  match si_memory_receiver s, si_network_receiver s with
  | None, None => Panic "unsupported"
  | Some _, Some _ => Ok 2%nat
  | _, _ => Ok 1%nat
  end.

(** ** The iterators

    [ChannelIterator::next] on the queue of its receiver; [None] waits. The element
    that arrives after the end of the run is dropped. *)
Definition channel_next (terminated : bool) (q : list Element) : option (option Element * list Element) :=
  match q with
  | [] => None
  | e :: q => Some (if terminated then None else Some e, q)
  end.

(** [MultiChannelIterator::next]: [ready] are the answers of [Select::ready] from now on,
    some of which may be wrong by the time the receiver is asked. *)
Fixpoint multi_next (terminated : bool) (ready : list nat) (qs : list (list Element))
    : res string (option (option Element * list (list Element) * list nat)) :=
  match ready with
  | [] => Ok None
  | index :: ready =>
      let* q := unwrap "index out of bounds" (qs !! index) in
      match q with
      | e :: q => Ok (Some (if terminated then None else Some e, <[index := q]> qs, ready))
      | [] => multi_next terminated ready qs
      end
  end.

(** ** Lemmas *)

(** What the iterator hands out is the front of one queue, the others stay; at the end of
    the run it is taken and dropped. *)
Lemma multi_next_front terminated ready qs r qs' ready' : multi_next terminated ready qs = Ok (Some (r, qs', ready')) ->
  exists k e q, qs !! k = Some (e :: q) /\ qs' = <[k := q]> qs /\ r = if terminated then None else Some e.
Proof.
  induction ready as [|k ready IH]; [done|]. cbn. destruct (qs !! k) as [[|e q]|] eqn:Ek; cbn; [exact IH| |done].
  intros [= <- <- <-]. by exists k, e, q.
Qed.

Lemma parent_jobs_fold edge ps : forall l, foldl (fun l p => if decide (p.2 = edge) then l ++ [en_task_id p.1] else l) l ps =
  l ++ ((fun p => en_task_id p.1) <$> filter (fun p : ExecutionNode * ExecutionEdge => p.2 = edge) ps).
Proof.
  induction ps as [|p ps IH]; intros l; [by rewrite app_nil_r|]. cbn [foldl]. rewrite IH, filter_cons. destruct (decide (p.2 = edge)); [|done].
  by rewrite fmap_cons, <- app_assoc.
Qed.

Lemma elem_of_parent_jobs edge ps t : t ∈ parent_jobs_of edge ps <-> exists n, (n, edge) ∈ ps /\ t = en_task_id n.
Proof.
  unfold parent_jobs_of. rewrite parent_jobs_fold, app_nil_l, list_elem_of_fmap. split.
  - intros ([n e] & -> & [He Hin]%list_elem_of_filter). simpl in He. subst e. eauto.
  - intros (n & Hin & ->). exists (n, edge). by rewrite list_elem_of_filter.
Qed.

(** Opening subscribes to every network parent once, and to the memory channel of the task
    when there is a memory parent. *)
Lemma input_open_ok context chs posts : exists s chs',
  input_open SystemInput_new context chs posts =
    Ok (s, chs', posts ++ ((fun p => mkChannelKey p (fc_task_id context)) <$> parent_jobs_of EE_Network (fc_parents context))) /\
  si_memory_receiver s = (if decide (parent_jobs_of EE_Memory (fc_parents context) = []) then None else Some (MemChan (fc_task_id context))) /\
  si_network_receiver s = (if decide (parent_jobs_of EE_Network (fc_parents context) = []) then None else Some (fc_task_id context)) /\
  (parent_jobs_of EE_Memory (fc_parents context) <> [] -> is_Some (ch_memory chs' !! fc_task_id context)) /\ ch_network chs' = ch_network chs.
Proof.
  assert (forall l posts, foldl (fun posts source => posts ++ [mkChannelKey source (fc_task_id context)]) posts l = posts ++ ((fun p => mkChannelKey p (fc_task_id context)) <$> l)) as Hfold.
  { induction l as [|t l IH]; intros ps; [by rewrite app_nil_r|]. cbn [foldl]. rewrite IH, fmap_cons, <- app_assoc. done. }
  unfold input_open, memory_subscribe, network_subscribe, memory_get. set (ms := parent_jobs_of EE_Memory _). set (ns := parent_jobs_of EE_Network _).
  destruct ms as [|m ms]; destruct ns as [|n ns]; cbn -[foldl fmap]; rewrite ?Hfold; cbn -[foldl fmap];
    try (destruct (ch_memory chs !! fc_task_id context) eqn:Em; cbn -[foldl fmap]); rewrite ?Hfold; eexists _, _; (split; [rewrite ?app_nil_r; reflexivity|]); cbn;
    split_and!; try done; intros _; rewrite ?Em, ?lookup_insert_eq; eauto.
Qed.

(** ** Both ends of a channel *)

(** What a writer sends to a task and what a reader receives; the channel of an edge. *)
Definition sends_to (o : Output.SystemOutputFormat) (u : TaskId) (c : Chan) : Prop := exists js, js ∈ of_job_senders o /\ (u, c) ∈ js.2.

Definition receives (s : SystemInput) (posts : list ChannelKey) (c : Chan) : Prop :=
  match c with
  | MemChan _ => si_memory_receiver s = Some c
  | NetChan k => k ∈ posts /\ si_network_receiver s = Some (target_task_id k)
  end.

Definition chan_of (edge : ExecutionEdge) (t u : TaskId) : Chan :=
  match edge with EE_Memory => MemChan u | EE_Network => NetChan (mkChannelKey t u) end.

Definition chan_queue (chs : Channels) (c : Chan) : option (list Element) :=
  match c with MemChan t => ch_memory chs !! t | NetChan k => ch_network chs !! k end.

Lemma memory_open_ok self u chs : task_number self = task_number u ->
  output_open output_new self [(u, EE_Memory)] chs = Ok (mkOutput self CT_Memory [(job_id u, [(u, MemChan u)])], (memory_get u chs).1).
Proof.
  intros Hn. unfold output_open, memory_publish. cbn -[memory_get hiter]. destruct (memory_get u chs) as [chs' ch] eqn:Em.
  assert (ch = MemChan u) as -> by (unfold memory_get in Em; by injection Em). cbn -[hiter]. rewrite Hn, Z.eqb_refl. cbn -[hiter].
  assert (forall l : list TaskSender, hiter ({[job_id u := l]} : gmap JobId (list TaskSender)) = [(job_id u, l)]) as Hh.
  { intros l. apply Permutation_singleton_r. unfold hiter. by rewrite hash_order_perm, map_to_list_singleton. }
  unfold default. rewrite lookup_empty. cbn -[hiter]. setoid_rewrite Hh. done.
Qed.

Lemma network_open_sends self v ts chs o chs' : output_open output_new self (over_network (v :: ts)) chs = Ok (o, chs') ->
  (forall u c, sends_to o u c <-> u ∈ v :: ts /\ c = NetChan (mkChannelKey self u)) /\
  forall u, u ∈ v :: ts -> ch_network chs' !! mkChannelKey self u = Some [].
Proof.
  intros (net & Hp & -> & _ & _ & ->)%output_open_network. apply network_publish_ok in Hp as (_ & _ & Hl). split.
  - intros u c. transitivity ((u, c) ∈ net_senders self (v :: ts)); [|unfold net_senders; rewrite list_elem_of_fmap; naive_solver].
    unfold sends_to. cbn [of_job_senders]. split.
    + intros (js & Hjs & Hin). apply list_elem_of_fmap in Hjs as ([job l] & -> & Hjs). apply elem_of_sort_by_key in Hin. cbn in Hin.
      apply elem_of_hiter, group_by_Some in Hjs as [-> _]. by apply list_elem_of_filter in Hin as [_ ?].
    + intros Hin. set (l := filter (fun s : TaskSender => job_id s.1 = job_id u) (net_senders self (v :: ts))).
      assert ((u, c) ∈ l) as Hul by (by apply list_elem_of_filter). exists (job_id u, sort_by_key sender_number l). split; [|by apply elem_of_sort_by_key].
      apply list_elem_of_fmap. exists (job_id u, l). split; [done|]. apply elem_of_hiter. rewrite group_by_lookup. fold l.
      destruct l; [by apply elem_of_nil in Hul|done].
  - intros u Hu. cbn. rewrite Hl, decide_True; [done|]. by apply list_elem_of_fmap_2.
Qed.

(** ** The children of a task *)
Section of_program.
Context (g : RawStreamGraph) (jg : JobGraph) (Hjg : job_graph_ok g jg).
Context (eg : ExecutionGraph) (Heg : execution_graph_ok jg (snd <$> operators g) eg).
Context (i : NodeIndex) (j : JobNode) (Hj : raw_nodes (jg_dag jg) !! i = Some j).
Context (x : NodeIndex) (t : ExecutionNode) (Hx : raw_nodes (eg_dag eg) !! x = Some t) (Hid : job_id (en_task_id t) = jn_job_id j).
Context (jc : JobNode) (w : JobEdge) (Hc : graph_children (jg_dag jg) i = [(jc, w)]).

Lemma child_edge : exists b, raw_nodes (jg_dag jg) !! b = Some jc /\ mkEdge i b w ∈ raw_edges (jg_dag jg).
Proof.
  assert ((jc, w) ∈ graph_children (jg_dag jg) i) as Hin by (rewrite Hc; by left).
  apply elem_of_neighbours in Hin as ([a b w'] & He & Ha & Hb & Hw). simpl in *. subst. eauto.
Qed.

(** The tasks behind [t]. *)
Lemma elem_of_task_children n k : (n, k) ∈ graph_children (eg_dag eg) x <->
  n ∈ raw_nodes (eg_dag eg) /\ job_id (en_task_id n) = jn_job_id jc /\ task_linked w t n k.
Proof.
  destruct child_edge as (b & Hb & He). unfold graph_children. rewrite elem_of_neighbours. split.
  - intros ([a b' k'] & Hed & Ha & Hn & Hk). simpl in Ha, Hn, Hk. subst a k'. apply (eg_edges _ _ _ Heg) in Hed as ([ea eb ew] & ja & jb & na & nb & Hed & Hja & Hjb & Hna & Hnb & Ia & Ib & Hl).
    simpl in *. rewrite Hx in Hna. injection Hna as <-. rewrite Hn in Hnb. injection Hnb as <-.
    assert (ea = i) as -> by (eapply (NoDup_fmap_index jn_job_id); [apply (jg_ids _ _ Hjg)|done|done|congruence]).
    assert ((jb, ew) ∈ graph_children (jg_dag jg) i) as Hin by (apply elem_of_neighbours; by exists (mkEdge i eb ew)). rewrite Hc in Hin.
    apply list_elem_of_singleton in Hin. injection Hin as -> ->. split_and!; [by eapply list_elem_of_lookup_2|done|done].
  - intros (Hn & Hjn & Hl). apply list_elem_of_lookup in Hn as [y Hy]. exists (mkEdge x y k). simpl. split_and!; try done.
    apply (eg_edges _ _ _ Heg). exists (mkEdge i b w), j, jc, t, n. done.
Qed.

(** No task twice. *)
Lemma NoDup_task_children : NoDup ((fun p => en_task_id p.1) <$> graph_children (eg_dag eg) x).
Proof.
  unfold graph_children. rewrite neighbours_filter. pose proof (eg_once _ _ _ Heg) as Hnd. pose proof (eg_ids _ _ _ Heg) as Hids.
  apply (NoDup_fmap_filter _ (fun e => e_source e = x)) in Hnd. pose proof (fun e => proj1 (list_elem_of_filter (fun e : Edge ExecutionEdge => e_source e = x) (raw_edges (eg_dag eg)) e)) as Hf.
  assert (Forall (fun e => e_source e = x) (filter (fun e => e_source e = x) (raw_edges (eg_dag eg)))) as Hsrc by (apply Forall_forall; intros e He; by apply Hf).
  clear Hf. induction (filter _ _) as [|e es IH]; [constructor|]. rewrite fmap_cons in Hnd. apply NoDup_cons in Hnd as [Hout Hnd]. apply Forall_cons in Hsrc as [He Hes].
  cbn [omap list_omap]. destruct (raw_nodes (eg_dag eg) !! e_target e) as [n|] eqn:En; cbn; [|by apply IH]. apply NoDup_cons. split; [|by apply IH].
  intros Hin. apply list_elem_of_fmap in Hin as ([n' k'] & Heq & Hin). apply list_elem_of_omap in Hin as (e' & He' & Hs). apply fmap_Some in Hs as (n'' & Hn'' & Hs).
  simplify_eq. simpl in Heq. assert (e_target e' = e_target e) as Ht by (eapply (NoDup_fmap_index en_task_id); eauto).
  apply Hout. apply list_elem_of_fmap. exists e'. split; [|done]. rewrite Forall_forall in Hes. unfold edge_ends. rewrite Ht, (Hes e' He'). done.
Qed.

(** The tasks of the next job. *)
Lemma child_tasks u : (exists n, n ∈ raw_nodes (eg_dag eg) /\ u = en_task_id n /\ job_id u = jn_job_id jc) <-> u ∈ job_tasks (jn_parallelism jc) (jn_job_id jc).
Proof.
  destruct child_edge as (b & Hb & _). split.
  - intros (n & Hn & -> & Hjn). assert (en_task_id n ∈ en_task_id <$> raw_nodes (eg_dag eg)) as Hin by (by apply list_elem_of_fmap_2).
    rewrite (eg_tasks _ _ _ Heg) in Hin. apply elem_of_concat in Hin as (l & Hin & Hl). apply list_elem_of_fmap in Hl as (jb & -> & Hjb).
    apply list_elem_of_fmap in Hin as (k & Hk & Hin). rewrite Hk in Hjn |- *. simpl in Hjn. apply list_elem_of_lookup in Hjb as [b' Hb'].
    assert (b' = b) as -> by (eapply (NoDup_fmap_index jn_job_id); [apply (jg_ids _ _ Hjg)|done|done|done]). rewrite Hb in Hb'. injection Hb' as <-.
    unfold job_tasks. apply list_elem_of_fmap. exists k. done.
  - intros Hin. assert (u ∈ en_task_id <$> raw_nodes (eg_dag eg)) as Hu.
    { rewrite (eg_tasks _ _ _ Heg). apply elem_of_concat. exists (job_task jc <$> seq 0 (Z.to_nat (jn_parallelism jc))). split.
      - unfold job_tasks in Hin. apply list_elem_of_fmap in Hin as (k & -> & Hk). apply list_elem_of_fmap. by exists k.
      - apply list_elem_of_fmap. exists jc. split; [done|]. by eapply list_elem_of_lookup_2. }
    apply list_elem_of_fmap in Hu as (n & -> & Hn). exists n. split_and!; [done|done|]. apply list_elem_of_fmap in Hin as (k & -> & _). done.
Qed.

Lemma child_parallelism_pos : 0 < jn_parallelism jc.
Proof. destruct child_edge as (b & Hb & _). pose proof (jg_jobs _ _ Hjg) as Hok. rewrite Forall_forall in Hok. apply (Hok jc). by eapply list_elem_of_lookup_2. Qed.

Abbreviation child_list := ((fun p : ExecutionNode * ExecutionEdge => (en_task_id p.1, p.2)) <$> graph_children (eg_dag eg) x).

(** A repartitioning edge leads to all the tasks of the next job. *)
Lemma network_children : w = ReBalance -> exists ts, child_list = over_network ts /\ ts ≡ₚ jobs_tasks (jn_parallelism jc) [jn_job_id jc].
Proof.
  intros Hw. exists ((fun p => en_task_id p.1) <$> graph_children (eg_dag eg) x). split.
  - unfold over_network. rewrite <- list_fmap_compose. apply list_fmap_ext. intros q [n k] Hq. apply list_elem_of_lookup_2, elem_of_task_children in Hq as (_ & _ & Hl).
    rewrite Hw in Hl. simpl in Hl |- *. by rewrite Hl.
  - unfold jobs_tasks. rewrite bind_cons. cbn [mbind list_bind]. rewrite app_nil_r. apply NoDup_Permutation.
    + apply NoDup_task_children.
    + pose proof (NoDup_jobs_tasks (jn_parallelism jc) [jn_job_id jc] (NoDup_singleton _)) as Hnd. unfold jobs_tasks in Hnd. rewrite bind_cons in Hnd. cbn in Hnd. by rewrite app_nil_r in Hnd.
    + intros u. rewrite <- child_tasks, list_elem_of_fmap. split.
      * intros ([n k] & -> & Hin). apply elem_of_task_children in Hin as (Hn & Hjn & _). eauto.
      * intros (n & Hn & -> & Hjn). exists (n, EE_Network). split; [done|]. apply elem_of_task_children. by rewrite Hw.
Qed.

(** A forward edge leads to the task of the same number. *)
Lemma memory_child : w = Forward -> exists u, child_list = [(u, EE_Memory)] /\ task_number (en_task_id t) = task_number u.
Proof.
  intros Hfw. destruct child_edge as (b & Hb & He). pose proof He as Hed. apply (jg_edges _ _ Hjg) in Hed as (ja & jb & Ha & Hb' & _ & Hw). rewrite Hfw in Hw.
  rewrite Hj in Ha. injection Ha as <-. rewrite Hb in Hb'. injection Hb' as <-.
  assert (jn_parallelism j = jn_parallelism jc) as Hpar.
  { unfold job_edge in Hw. destruct (is_reduce_job jc); [done|]. destruct (is_reduce_job j); [by destruct (decide (jn_parallelism j <> jn_parallelism jc)) as [|?%dec_stable]|].
    by destruct (decide (jn_parallelism j = jn_parallelism jc)). }
  destruct (task_in_range g jg eg Heg t ltac:(by eapply list_elem_of_lookup_2)) as (jt & k & Hjt & Ht & Hk).
  assert (jt = j) as -> by (apply (NoDup_fmap_eq jn_job_id _ jt j (jg_ids _ _ Hjg)); [done|by eapply list_elem_of_lookup_2|by rewrite <- Hid, Ht]).
  destruct (proj2 (child_tasks (mkTaskId (jn_job_id jc) (Z.of_nat k) (jn_parallelism jc)))) as (n & Hn & Hnid & _).
  { unfold job_tasks. apply list_elem_of_fmap. exists k. split; [done|]. apply elem_of_seq. lia. }
  assert ((n, EE_Memory) ∈ graph_children (eg_dag eg) x) as Hin.
  { apply elem_of_task_children. split_and!; [done|by rewrite <- Hnid|]. rewrite Hfw. split; [done|]. by rewrite <- Hnid, Ht. }
  exists (en_task_id n). split; [|by rewrite <- Hnid, Ht].
  assert (graph_children (eg_dag eg) x ≡ₚ [(n, EE_Memory)]) as Hp; [|apply Permutation_singleton_r in Hp; by rewrite Hp].
  pose proof NoDup_task_children as Hnd. apply NoDup_Permutation; [by eapply NoDup_fmap_1|apply NoDup_singleton|]. intros [n' k']. rewrite list_elem_of_singleton.
  split; [|by intros [= -> ->]]. intros Hin'. pose proof Hin' as Hc'. apply elem_of_task_children in Hc' as (Hn' & Hjn' & Hl). rewrite Hfw in Hl. destruct Hl as [-> Hnum].
  eapply (NoDup_fmap_eq _ _ _ _ Hnd); [done|done|]. simpl.
  assert (en_task_id n' ∈ job_tasks (jn_parallelism jc) (jn_job_id jc)) as Hjt' by (apply child_tasks; eauto). apply list_elem_of_fmap in Hjt' as (k' & Hk' & _).
  rewrite Hk' in Hnum |- *. rewrite <- Hnid. rewrite Ht in Hnum. simpl in Hnum. by rewrite Hnum.
Qed.

(** Opening the output of the task: a sender for each child over the channel of the edge. *)
Lemma output_opens chs : (forall v, ch_network chs !! mkChannelKey (en_task_id t) v = None) ->
  exists o chs', output_open output_new (en_task_id t) child_list chs = Ok (o, chs') /\
    (forall u c, sends_to o u c <-> exists k, (u, k) ∈ child_list /\ c = chan_of k (en_task_id t) u) /\
    forall u, (u, EE_Network) ∈ child_list -> ch_network chs' !! mkChannelKey (en_task_id t) u = Some [].
Proof.
  intros Hfree. assert (w = Forward \/ w = ReBalance) as [Hw|Hw] by (clear; destruct w; auto).
  - destruct (memory_child Hw) as (u & -> & Hnum). eexists _, _. split; [by apply memory_open_ok|]. split.
    + intros v c. unfold sends_to. cbn [of_job_senders]. setoid_rewrite list_elem_of_singleton. split.
      * intros (js & -> & Hin). apply list_elem_of_singleton in Hin as [= -> ->]. by exists EE_Memory.
      * intros (k & [= -> ->] & ->). eexists. split; [done|]. by apply list_elem_of_singleton.
    + intros v Hv. by apply list_elem_of_singleton in Hv.
  - destruct (network_children Hw) as (ts & -> & Hts).
    destruct (output_open_total (en_task_id t) (jn_parallelism jc) [jn_job_id jc] ts chs) as (o & chs' & Ho);
      [apply NoDup_singleton|done|apply child_parallelism_pos|done|done|]. exists o, chs'. split; [done|].
    assert (forall u k, (u, k) ∈ over_network ts <-> u ∈ ts /\ k = EE_Network) as Hov by (intros; unfold over_network; rewrite list_elem_of_fmap; naive_solver).
    destruct ts as [|v ts]; [done|]. apply network_open_sends in Ho as [Hs Hq]. setoid_rewrite Hov. split; [|intros u [Hu _]; by apply Hq].
    intros u c. rewrite Hs. naive_solver.
Qed.
End of_program.

(** The two ends of an edge list each other. *)
Lemma child_list_edge jg ops eg x y u k : execution_graph_ok jg ops eg -> raw_nodes (eg_dag eg) !! y = Some u ->
  (en_task_id u, k) ∈ ((fun p : ExecutionNode * ExecutionEdge => (en_task_id p.1, p.2)) <$> graph_children (eg_dag eg) x) <-> mkEdge x y k ∈ raw_edges (eg_dag eg).
Proof.
  intros Hok Hy. unfold graph_children. rewrite list_elem_of_fmap. split.
  - intros ([n k'] & Heq & ([a b w] & He & Ha & Hn & Hk)%elem_of_neighbours). simpl in *. simplify_eq.
    by assert (b = y) as -> by (by eapply (NoDup_fmap_index en_task_id); [apply (eg_ids _ _ _ Hok)|..]).
  - intros He. exists (u, k). split; [done|]. apply elem_of_neighbours. by exists (mkEdge x y k).
Qed.

Lemma parent_list_edge jg ops eg x y t k : execution_graph_ok jg ops eg -> raw_nodes (eg_dag eg) !! x = Some t ->
  en_task_id t ∈ parent_jobs_of k (graph_parents (eg_dag eg) y) <-> mkEdge x y k ∈ raw_edges (eg_dag eg).
Proof.
  intros Hok Hx. rewrite elem_of_parent_jobs. unfold graph_parents. split.
  - intros (n & ([a b w] & He & Ha & Hn & Hk)%elem_of_neighbours & Heq). simpl in *. simplify_eq.
    by assert (a = x) as -> by (by eapply (NoDup_fmap_index en_task_id); [apply (eg_ids _ _ _ Hok)|..]).
  - intros He. exists t. split; [|done]. apply elem_of_neighbours. by exists (mkEdge x y k).
Qed.

(** C27: The tasks of a program find each other. Take any task that has a next job and whose
    channels are not published yet, and any task that reads: both open, and the first
    holds a sender to the second exactly when the graph has an edge between them. The
    sender's channel is then one the reader receives, with a queue behind it; and the
    reader asks for the channel of the two over the network exactly when the writer
    publishes it, so no request is left without a service. *)
Theorem tasks_connected g dm i j x t y u fc chs :
  program_graphs g dm ->
  raw_nodes (jg_dag (dm_job_graph dm)) !! i = Some j -> graph_children (jg_dag (dm_job_graph dm)) i <> [] ->
  raw_nodes (eg_dag (dm_execution_graph dm)) !! x = Some t -> job_id (en_task_id t) = jn_job_id j ->
  raw_nodes (eg_dag (dm_execution_graph dm)) !! y = Some u ->
  fc_task_id fc = en_task_id u -> fc_parents fc = graph_parents (eg_dag (dm_execution_graph dm)) y ->
  (forall v, ch_network chs !! mkChannelKey (en_task_id t) v = None) ->
  exists o chs1 s chs2 posts,
    output_open output_new (en_task_id t) ((fun p => (en_task_id p.1, p.2)) <$> graph_children (eg_dag (dm_execution_graph dm)) x) chs = Ok (o, chs1) /\
    input_open SystemInput_new fc chs1 [] = Ok (s, chs2, posts) /\
    ((exists c, sends_to o (en_task_id u) c) <-> exists k, mkEdge x y k ∈ raw_edges (eg_dag (dm_execution_graph dm))) /\
    (forall c, sends_to o (en_task_id u) c -> receives s posts c /\ is_Some (chan_queue chs2 c) /\ exists n, element_iter (E := string) s = Ok n) /\
    (mkChannelKey (en_task_id t) (en_task_id u) ∈ posts <-> sends_to o (en_task_id u) (NetChan (mkChannelKey (en_task_id t) (en_task_id u)))).
Proof.
  intros Hp Hj Hch Hx Hid Hy Hfid Hpar Hfree. destruct (program_graphs_ok _ _ Hp) as (_ & Hjg & Heg & _).
  set (jg := dm_job_graph dm) in *. set (eg := dm_execution_graph dm) in *.
  pose proof (one_child g jg Hjg i) as Hone. destruct (graph_children (jg_dag jg) i) as [|[jc w] [|]] eqn:Ec; [done| |simpl in Hone; lia].
  destruct (output_opens g jg Hjg eg Heg i j Hj x t Hx Hid jc w Ec chs Hfree) as (o & chs1 & Ho & Hs & Hq).
  destruct (input_open_ok fc chs1 []) as (s & chs2 & Hi & Hm & Hn & Hmq & Hnq). rewrite Hfid, Hpar in *. cbn [app] in Hi.
  pose proof (fun k => child_list_edge jg _ eg x y u k Heg Hy) as Hce. pose proof (fun k => parent_list_edge jg _ eg x y t k Heg Hx) as Hpe.
  assert (forall c, sends_to o (en_task_id u) c <-> exists k, mkEdge x y k ∈ raw_edges (eg_dag eg) /\ c = chan_of k (en_task_id t) (en_task_id u)) as Hsend.
  { intros c. rewrite Hs. by setoid_rewrite Hce. }
  eexists o, chs1, s, chs2, _. split; [exact Ho|]. split; [exact Hi|]. split_and!.
  - setoid_rewrite Hsend. naive_solver.
  - intros c (k & He & ->)%Hsend. pose proof (proj2 (Hpe k) He) as Hin. destruct k; cbn [chan_of receives chan_queue].
    + assert (parent_jobs_of EE_Memory (graph_parents (eg_dag eg) y) <> []) as Hne by (intros E; rewrite E in Hin; by apply elem_of_nil in Hin).
      rewrite decide_False in Hm by done. split_and!; [done|by apply Hmq|]. unfold element_iter. rewrite Hm. destruct (si_network_receiver s); eauto.
    + assert (parent_jobs_of EE_Network (graph_parents (eg_dag eg) y) <> []) as Hne by (intros E; rewrite E in Hin; by apply elem_of_nil in Hin).
      rewrite decide_False in Hn by done. split_and!.
      * by apply (list_elem_of_fmap_2 (fun p => mkChannelKey p (en_task_id u))).
      * done.
      * rewrite Hnq, (Hq (en_task_id u)); [done|]. by apply Hce.
      * unfold element_iter. rewrite Hn. destruct (si_memory_receiver s); eauto.
  - rewrite Hsend, list_elem_of_fmap. split.
    + intros (p & [= <-] & Hin). exists EE_Network. by rewrite <- Hpe.
    + intros (k & He & Hk). destruct k; [done|]. exists (en_task_id t). by rewrite Hpe.
Qed.
End system_input.

(** ** Examples *)
#[local] Existing Instances ListDag id_order be_bytes_api list_buffer.

(** A writing task of a job and a reading one, in the execution graph of a program. *)
Definition ex_pair (cs : list ApiCall) (i x y : nat) : option (DagManager * JobNode * ExecutionNode * ExecutionNode) :=
  dm ← prog_manager cs;
  j ← raw_nodes (jg_dag (dm_job_graph dm)) !! i;
  t ← raw_nodes (eg_dag (dm_execution_graph dm)) !! x;
  u ← raw_nodes (eg_dag (dm_execution_graph dm)) !! y;
  Some (dm, j, t, u).

Definition ex_pair_ok (cs : list ApiCall) (i x y : nat) : bool :=
  prog_ok cs &&
  match ex_pair cs i x y with
  | Some (dm, j, t, u) => negb (length (graph_children (jg_dag (dm_job_graph dm)) i) =? 0)%nat && (job_id (en_task_id t) =? jn_job_id j) &&
      bool_decide (Exists (fun e => edge_ends e = (x, y)) (raw_edges (eg_dag (dm_execution_graph dm))))
  | None => false
  end.

Record paired (cs : list ApiCall) (dm : DagManager) (i : nat) (j : JobNode) (x : nat) (t : ExecutionNode) (y : nat) (u : ExecutionNode) : Prop := {
  pa_graphs : program_graphs (prog_graph cs) dm;
  pa_job : raw_nodes (jg_dag (dm_job_graph dm)) !! i = Some j;
  pa_child : graph_children (jg_dag (dm_job_graph dm)) i <> [];
  pa_writer : raw_nodes (eg_dag (dm_execution_graph dm)) !! x = Some t;
  pa_id : job_id (en_task_id t) = jn_job_id j;
  pa_reader : raw_nodes (eg_dag (dm_execution_graph dm)) !! y = Some u;
  pa_edge : exists k, mkEdge x y k ∈ raw_edges (eg_dag (dm_execution_graph dm))
}.

Lemma ex_pair_paired cs i x y dm j t u : ex_pair_ok cs i x y = true -> ex_pair cs i x y = Some (dm, j, t, u) -> paired cs dm i j x t y u.
Proof.
  unfold ex_pair_ok. intros Hok He. rewrite He in Hok. apply andb_true_iff in Hok as [Hprog Hok]. apply andb_true_iff in Hok as [Hok Hed].
  apply andb_true_iff in Hok as [Hch Hid]. apply bool_decide_eq_true, Exists_exists in Hed as ([a b k] & Hin & [= -> ->]).
  apply negb_true_iff, Nat.eqb_neq in Hch. apply Z.eqb_eq in Hid. unfold ex_pair in He.
  destruct (prog_manager cs) as [dm'|] eqn:Edm; [|done]. cbn [mbind option_bind] in He.
  destruct (raw_nodes (jg_dag (dm_job_graph dm')) !! i) as [j'|] eqn:Ej; [|done]. cbn [mbind option_bind] in He.
  destruct (raw_nodes (eg_dag (dm_execution_graph dm')) !! x) as [t'|] eqn:Et; [|done]. cbn [mbind option_bind] in He.
  destruct (raw_nodes (eg_dag (dm_execution_graph dm')) !! y) as [u'|] eqn:Eu; [|done]. cbn [mbind option_bind] in He. injection He as -> -> -> ->.
  split; try done; [by apply prog_graphs|by intros E; rewrite E in Hch|by exists k].
Qed.

Definition reader_context (eg : ExecutionGraph) (y : nat) (u : ExecutionNode) : FunctionContext :=
  mkFunctionContext "app" no_properties 0 (en_task_id u) 0 None None FnSchema_Empty FnSchema_Empty (graph_children (eg_dag eg) y) (graph_parents (eg_dag eg) y).

(** The first task of the keyed job of the aggregation and the first one of the reducing
    job: the elements go from one to the other. *)
Lemma tasks_connected_witness :
  match ex_pair ex_aggregate 2 6 3 with
  | Some (dm, j, t, u) => exists o chs1 s chs2 posts,
      output_open output_new (en_task_id t) ((fun p => (en_task_id p.1, p.2)) <$> graph_children (eg_dag (dm_execution_graph dm)) 6) ex_channels = Ok (o, chs1) /\
      input_open SystemInput_new (reader_context (dm_execution_graph dm) 3 u) chs1 [] = Ok (s, chs2, posts) /\
      exists c, sends_to o (en_task_id u) c /\ receives s posts c /\ is_Some (chan_queue chs2 c)
  | None => False
  end.
Proof.
  assert (ex_pair_ok ex_aggregate 2 6 3 = true) as Hok by (vm_compute; reflexivity).
  assert (match ex_pair ex_aggregate 2 6 3 with Some _ => true | None => false end = true) as Hm by (vm_compute; reflexivity).
  pose proof (fun dm j t u => ex_pair_paired ex_aggregate 2 6 3 dm j t u Hok) as H. destruct (ex_pair ex_aggregate 2 6 3) as [[[[dm j] t] u]|]; [|discriminate Hm].
  destruct (H dm j t u eq_refl) as [Hp Hj Hch Hx Hid Hy Hed].
  destruct (tasks_connected (prog_graph ex_aggregate) dm 2 j 6 t 3 u (reader_context (dm_execution_graph dm) 3 u) ex_channels Hp Hj Hch Hx Hid Hy eq_refl eq_refl)
    as (o & chs1 & s & chs2 & posts & Ho & Hi & Hiff & Hrec & _); [intros v; apply lookup_empty|].
  destruct (proj2 Hiff Hed) as [c Hc]. destruct (Hrec c Hc) as (Hr & Hq & _). exists o, chs1, s, chs2, posts. split; [exact Ho|]. split; [exact Hi|]. exists c. split; [exact Hc|]. split; assumption.
Defined.
