(* ===== verification/KafkaOffsets.v ===== *)
(** * KafkaOffsets: the offset range of the Kafka source and its configuration

    src/rlink-connectors/connector-kafka/src/source/offset_range.rs and builder.rs: the
    range of offsets a source reads, as it is written to and read from the properties of
    a job, and the builder that makes a source from them. The offsets of a topic are one
    string, separated by commas; the number of a partition is its place in the string. *)
From Stdlib Require Import ZArith Lia Sorted Ascii.
From stdpp Require Import base strings pretty numbers option sets gmap list.
From S2P Require Import Prelude Properties.

#[local] Open Scope Z_scope.

(** ** Strings of the standard library *)

(** [[String]::join(",")]. *)
Fixpoint join (sep : string) (l : list string) : string :=
  match l with
  | [] => ""
  | [s] => s
  | s :: l' => s +:+ sep +:+ join sep l'
  end.

(** [str::split(c)]: one piece more than there are separators. *)
Fixpoint split (c : Ascii.ascii) (s : string) : list string :=
  match s with
  | "" => [""]
  | String a s' =>
      if decide (a = c) then "" :: split c s'
      else match split c s' with p :: ps => String a p :: ps | [] => [String a ""] end
  end.

(** [str::trim] on ASCII text. *)
Fixpoint trim_start (s : string) : string :=
  match s with
  | String a s' => if Ascii.is_space a then trim_start s' else s
  | "" => ""
  end.

Definition trim (s : string) : string := String.rev (trim_start (String.rev (trim_start s))).

Definition comma : Ascii.ascii := ","%char.

(** ** Constants *)
Definition KAFKA := "kafka".
Definition BOOTSTRAP_SERVERS := "bootstrap.servers".
Definition GROUP_ID := "group.id".
Definition TOPICS := "topics".
Definition BUFFER_SIZE := "buffer.size".
Definition OFFSET := "offset".
Definition OFFSET_TYPE := "type".
Definition OFFSET_BEGIN := "begin".
Definition OFFSET_END := "end".
Definition INPUT_FORMAT_FN_NAME_DEFAULT := "KafkaInputFormat".
Definition SOURCE_CHANNEL_SIZE : Z := 50000.
Definition PARALLELISM := "parallelism".

(** ** The range of offsets *)
Record PartitionOffset := mkPartitionOffset { po_partition : Z; po_offset : Z }.

#[global] Instance PartitionOffset_eq_dec : EqDecision PartitionOffset.
Proof. solve_decision. Defined.

Inductive OffsetRange : Type :=
  | OffsetRange_None
  | Direct (begin_offset : gmap string (list PartitionOffset)) (end_offset : option (gmap string (list PartitionOffset)))
  | Timestamp (begin_timestamp : gmap string Z) (end_timestamp : option (gmap string Z)).

(** The two functions [add_offset] of [into]: the string of a topic's offsets, the
    string of a timestamp. *)
Definition offsets_str (po : list PartitionOffset) : string :=
  join "," ((fun x => pretty (po_offset x)) <$> sort_by_key po_partition po).

Section offset_range.
Context {HO : HashOrder}.

Definition add_offset_direct (prefix_key : string) (offset : gmap string (list PartitionOffset)) (p : Properties) : Properties :=
  foldl (fun p kv => set_string (prefix_key +:+ "." +:+ kv.1) (offsets_str kv.2) p) p (hiter offset).

Definition add_offset_timestamp (prefix_key : string) (partition_timestamps : gmap string Z) (p : Properties) : Properties :=
  foldl (fun p kv => set_u64 (prefix_key +:+ "." +:+ kv.1) kv.2 p) p (hiter partition_timestamps).

Definition OffsetRange_into (r : OffsetRange) : Properties :=
  let properties := Properties_new in
  match r with
  | OffsetRange_None => properties
  | Direct begin_offset end_offset =>
      let properties := set_str OFFSET_TYPE "direct" properties in
      let properties := add_offset_direct OFFSET_BEGIN begin_offset properties in
      match end_offset with
      | Some end_offset => add_offset_direct OFFSET_END end_offset properties
      | None => properties
      end
  | Timestamp begin_timestamp end_timestamp =>
      let properties := set_str OFFSET_TYPE "timestamp" properties in
      let properties := add_offset_timestamp OFFSET_BEGIN begin_timestamp properties in
      match end_timestamp with
      | Some end_timestamp => add_offset_timestamp OFFSET_END end_timestamp properties
      | None => properties
      end
  end.

(** The loop of the two functions [parse]: one entry of the map for every property. *)
Definition parse_with {A} (f : string -> res string A) (p : Properties) : res string (gmap string A) :=
  foldM (fun m kv => let* v := f kv.2 in Ok (<[kv.1 := v]> m)) ∅ (hiter (p_map p)).

Definition parse_offsets (offset_str : string) : res string (list PartitionOffset) :=
  let* offsets := foldM (fun offsets s => let* offset := int_from_str t_i64 s in Ok (offsets ++ [offset])) [] (split comma offset_str) in
  Ok (imap (fun index offset => mkPartitionOffset (wrap_i 32 (Z.of_nat index)) offset) offsets).

Definition none_if_empty {A} (m : gmap string A) : option (gmap string A) :=
  if decide (m = ∅) then None else Some m.

Definition OffsetRange_try_from (p : Properties) : res string OffsetRange :=
  let offset_type := match get_string OFFSET_TYPE p with Ok s => s | _ => "" end in
  let begin := to_sub_properties OFFSET_BEGIN p in
  let end_ := to_sub_properties OFFSET_END p in
  if decide (offset_type = "direct") then
    let* begin_offset := parse_with parse_offsets begin in
    let* end_offset := parse_with parse_offsets end_ in
    Ok (Direct begin_offset (none_if_empty end_offset))
  else if decide (offset_type = "timestamp") then
    let* begin_timestamp := parse_with (int_from_str t_u64) begin in
    let* end_timestamp := parse_with (int_from_str t_u64) end_ in
    Ok (Timestamp begin_timestamp (none_if_empty end_timestamp))
  else if decide (offset_type = "") then Ok OffsetRange_None
  else Err ("unknown offset type " +:+ offset_type).

(** ** The builder of the source *)
Record KafkaInputFormatBuilder := mkBuilder {
  b_fn_name : option string;
  b_parallelism : Z;
  b_conf_map : gmap string string;
  b_topics : list string;
  b_buffer_size : option Z;
  b_offset_range : OffsetRange
}.

Definition KafkaInputFormatBuilder_new (conf_map : gmap string string) (topics : list string) (parallelism : Z) : KafkaInputFormatBuilder :=
  mkBuilder None parallelism conf_map topics None OffsetRange_None.

Definition set_fn_name (name : string) (b : KafkaInputFormatBuilder) : KafkaInputFormatBuilder :=
  mkBuilder (Some name) (b_parallelism b) (b_conf_map b) (b_topics b) (b_buffer_size b) (b_offset_range b).

Definition set_buffer_size (size : Z) (b : KafkaInputFormatBuilder) : KafkaInputFormatBuilder :=
  mkBuilder (b_fn_name b) (b_parallelism b) (b_conf_map b) (b_topics b) (Some size) (b_offset_range b).

Definition set_offset_range (r : OffsetRange) (b : KafkaInputFormatBuilder) : KafkaInputFormatBuilder :=
  mkBuilder (b_fn_name b) (b_parallelism b) (b_conf_map b) (b_topics b) (b_buffer_size b) r.

Definition KafkaInputFormatBuilder_try_from (p : Properties) : res string KafkaInputFormatBuilder :=
  let* parallelism := get_u16 PARALLELISM p in
  let kafka_properties := to_sub_properties KAFKA p in
  let* _ := get_string BOOTSTRAP_SERVERS kafka_properties in
  let* _ := get_string GROUP_ID kafka_properties in
  let client_config := p_map kafka_properties in
  let* topics := get_string TOPICS p in
  let topics := split comma (trim topics) in
  if decide (length topics = 0%nat) then Err "`topics` not found"
  else
    let builder := KafkaInputFormatBuilder_new client_config topics parallelism in
    let builder := set_fn_name (p_name p) builder in
    let builder := match get_usize BUFFER_SIZE p with Ok buffer_size => set_buffer_size buffer_size builder | _ => builder end in
    let* offset_range := OffsetRange_try_from (to_sub_properties OFFSET p) in
    Ok (set_offset_range offset_range builder).
End offset_range.

(** ** Lemmas on splitting *)

(** A string is one piece when the separator does not occur in it. *)
Lemma split_not_nil c s : split c s <> [].
Proof. destruct s as [|a s]; [done|]. cbn [split]. case_decide; [done|]. by destruct (split c s). Qed.

Lemma split_app c s rest : split c s = [s] -> split c (s +:+ String c rest) = s :: split c rest.
Proof.
  induction s as [|a s IH]; intros Hs.
  - change ("" +:+ String c rest) with (String c rest). cbn [split]. by rewrite decide_True.
  - change (String a s +:+ String c rest) with (String a (s +:+ String c rest)). cbn [split] in *. case_decide; [done|].
    pose proof (split_not_nil c s) as Hn. destruct (split c s) as [|p ps] eqn:Es; [done|]. injection Hs as -> ->. by rewrite IH.
Qed.

Lemma split_join c l : l <> [] -> Forall (fun s => split c s = [s]) l -> split c (join (String c "") l) = l.
Proof.
  intros Hl Hall. induction Hall as [|s l Hs Hall IH]; [done|]. destruct l as [|s' l]; [done|].
  change (join (String c "") (s :: s' :: l)) with (s +:+ String c (join (String c "") (s' :: l))). by rewrite split_app, IH.
Qed.

Lemma split_none c s : all_chars (fun a => negb (bool_decide (a = c))) s = true -> split c s = [s].
Proof.
  induction s as [|a s IH]; [done|]. cbn [all_chars split]. rewrite andb_true_iff, negb_true_iff, bool_decide_eq_false. intros [Ha Hs]. rewrite decide_False by done. by rewrite IH.
Qed.

(** A printed number has no comma. *)
Lemma pretty_no_comma (v : Z) : split comma (pretty v) = [pretty v].
Proof. apply split_none, pretty_chars. intros a Ha. by destruct (decide (a = comma)) as [->|Hc]; [|rewrite bool_decide_eq_false_2]. Qed.

(** ** Lemmas on the maps *)
Section range_lemmas.
Context {HO : HashOrder}.

Lemma list_to_map_hiter {A} (m : gmap string A) : list_to_map (hiter m) = m.
Proof.
  transitivity (list_to_map (map_to_list m) : gmap string A); [|apply list_to_map_to_list].
  apply list_to_map_proper; [apply NoDup_hiter_fst|]. apply hash_order_perm.
Qed.

(** Writing the entries of a map under a prefix. *)
Lemma add_lookup {A} (show : A -> string) prefix (m : gmap string A) p k :
  p_map (foldl (fun p kv => set_string (prefix +:+ "." +:+ kv.1) (show kv.2) p) p (hiter m)) !! k =
    match strip_prefix (prefix +:+ ".") k ≫= fun k' => m !! k' with Some v => Some (show v) | None => p_map p !! k end.
Proof.
  transitivity (match strip_prefix (prefix +:+ ".") k ≫= fun k' => (list_to_map (hiter m) : gmap string A) !! k' with Some v => Some (show v) | None => p_map p !! k end);
    [|by rewrite list_to_map_hiter].
  pose proof (NoDup_hiter_fst (HO := HO) m) as Hnd. revert p. induction (hiter m) as [|[a v] l IH]; intros p.
  - cbn. by destruct (strip_prefix _ k).
  - rewrite fmap_cons in Hnd. apply NoDup_cons in Hnd as [Hout Hnd]. cbn [foldl fst snd list_to_map foldr]. rewrite (IH Hnd).
    destruct (strip_prefix (prefix +:+ ".") k) as [k'|] eqn:Ek; cbn [mbind option_bind].
    + apply strip_prefix_Some in Ek as ->. destruct (decide (k' = a)) as [->|Hne].
      * rewrite lookup_insert_eq, (not_elem_of_list_to_map_1 _ _ Hout). cbn. by rewrite string_app_assoc, lookup_insert_eq.
      * rewrite (lookup_insert_ne _ a k') by done. cbn. destruct (list_to_map l !! k'); [done|]. apply lookup_insert_ne. rewrite string_app_assoc.
        intros E. apply (f_equal (strip_prefix (prefix +:+ "."))) in E. rewrite !strip_prefix_app in E. naive_solver.
    + apply lookup_insert_ne. intros <-. by rewrite string_app_assoc, strip_prefix_app in Ek.
Qed.

(** Reading a map: every value is parsed, and one that does not parse is the error of
    the whole. *)
Lemma parse_with_ok {A} (f : string -> res string A) p (m : gmap string A) :
  (forall k, match p_map p !! k with Some s => exists v, f s = Ok v /\ m !! k = Some v | None => m !! k = None end) -> parse_with f p = Ok m.
Proof.
  intros Hm. unfold parse_with.
  assert (forall l (acc : gmap string A), (forall k s, (k, s) ∈ l -> exists v, f s = Ok v /\ m !! k = Some v) ->
    exists acc' : gmap string A, foldM (fun m kv => let* v := f kv.2 in Ok (<[kv.1 := v]> m)) acc l = Ok acc' /\ forall k, acc' !! k = if decide (k ∈ l.*1) then m !! k else acc !! k) as Hgo.
  { induction l as [|[a s] l IH]; intros acc Hl.
    - exists acc. split; [done|]. intros k. rewrite decide_False; [done|]. apply not_elem_of_nil.
    - destruct (Hl a s ltac:(left)) as (v & Hv & Ha). cbn [foldM snd fst]. rewrite Hv. cbn [mbind res_bind].
      destruct (IH (<[a := v]> acc)) as (acc' & -> & Hacc); [intros; apply Hl; by right|]. exists acc'. split; [done|]. intros k. rewrite Hacc.
      rewrite fmap_cons. destruct (decide (k ∈ l.*1)) as [Hk|Hk]; [rewrite decide_True by (by right); done|]. destruct (decide (k = a)) as [->|Hne].
      + rewrite lookup_insert_eq, decide_True by left. done.
      + rewrite lookup_insert_ne by done. rewrite decide_False; [done|]. intros [->|]%elem_of_cons; done. }
  destruct (Hgo (hiter (p_map p)) ∅) as (acc' & -> & Hacc).
  { intros k s Hin%elem_of_hiter. specialize (Hm k). by rewrite Hin in Hm. }
  f_equal. apply map_eq. intros k. rewrite Hacc. specialize (Hm k). destruct (decide _) as [Hk|Hk]; [done|].
  destruct (p_map p !! k) eqn:Ek; [destruct Hk; rewrite elem_of_hiter_keys; eauto|]. by rewrite lookup_empty, Hm.
Qed.

Lemma parse_with_err {A} (f : string -> res string A) p k s e :
  (forall s m, f s <> Panic m) -> p_map p !! k = Some s -> f s = Err e -> exists e, parse_with f p = Err e.
Proof.
  intros Hp Hk He. unfold parse_with. apply elem_of_hiter in Hk. generalize (∅ : gmap string A). induction (hiter (p_map p)) as [|[a s'] l IH]; intros acc.
  - by apply not_elem_of_nil in Hk.
  - cbn [foldM snd fst]. destruct (f s') as [v|e'|m] eqn:Es; cbn [mbind res_bind]; [|eauto|by destruct (Hp s' m)].
    apply elem_of_cons in Hk as [[= -> ->]|Hk]; [congruence|]. by apply IH.
Qed.

(** ** The round trip *)

(** What comes back of the offsets of a topic: sorted by partition and numbered from 0. *)
Definition renumber (po : list PartitionOffset) : list PartitionOffset :=
  imap (fun i x => mkPartitionOffset (wrap_i 32 (Z.of_nat i)) (po_offset x)) (sort_by_key po_partition po).

Definition range_read_back (r : OffsetRange) : OffsetRange :=
  match r with
  | OffsetRange_None => OffsetRange_None
  | Direct b e => Direct (renumber <$> b) (none_if_empty (renumber <$> default ∅ e))
  | Timestamp b e => Timestamp b (none_if_empty (default ∅ e))
  end.

Definition offsets_wf (m : gmap string (list PartitionOffset)) : Prop := map_Forall (fun _ l => Forall (fun x => in_i 64 (po_offset x)) l) m.

(** The values of the fields are of their types. *)
Definition range_wf (r : OffsetRange) : Prop :=
  match r with
  | OffsetRange_None => True
  | Direct b e => offsets_wf b /\ offsets_wf (default ∅ e)
  | Timestamp b e => map_Forall (fun _ t => in_u 64 t) b /\ map_Forall (fun _ t => in_u 64 t) (default ∅ e)
  end.

Definition no_empty_topic (r : OffsetRange) : Prop :=
  match r with Direct b e => map_Forall (fun _ l => l <> []) b /\ map_Forall (fun _ l => l <> []) (default ∅ e) | _ => True end.

#[global] Instance no_empty_topic_dec r : Decision (no_empty_topic r).
Proof. destruct r; apply _. Defined.

Lemma in_type_i64 v : in_i 64 v -> in_type t_i64 v = true.
Proof. unfold in_i, in_type. cbn [it_signed it_bits t_i64]. rewrite andb_true_iff, Z.leb_le, Z.ltb_lt. done. Qed.

Lemma in_type_u64 v : in_u 64 v -> in_type t_u64 v = true.
Proof. unfold in_u, in_type. cbn [it_signed it_bits t_u64]. rewrite andb_true_iff, Z.leb_le, Z.ltb_lt. done. Qed.

Lemma parse_offsets_str po : po <> [] -> Forall (fun x => in_i 64 (po_offset x)) po -> parse_offsets (offsets_str po) = Ok (renumber po).
Proof.
  intros Hne Hpo. unfold parse_offsets, offsets_str, renumber. rewrite <- (sort_by_key_perm po_partition po) in Hpo.
  assert (sort_by_key po_partition po <> []) as Hne' by (intros E; apply (f_equal length) in E; rewrite length_sort_by_key in E; by destruct po).
  change "," with (String comma ""). rewrite split_join.
  2: { by destruct (sort_by_key po_partition po). }
  2: { rewrite Forall_fmap. apply Forall_true. intros x. apply pretty_no_comma. }
  clear Hne Hne'. revert Hpo. generalize (sort_by_key po_partition po). intros l Hl.
  assert (forall acc, foldM (fun offsets s => let* offset := int_from_str t_i64 s in Ok (offsets ++ [offset])) acc ((fun x => pretty (po_offset x)) <$> l) =
    Ok (acc ++ (po_offset <$> l))) as ->.
  { induction Hl as [|x l Hx Hl IH]; intros acc; [by rewrite app_nil_r|]. rewrite !fmap_cons. cbn [foldM]. rewrite int_roundtrip by (by apply in_type_i64).
    cbn [mbind res_bind]. by rewrite IH, <- app_assoc. }
  cbn [mbind res_bind app]. f_equal. apply list_eq. intros i. by rewrite !list_lookup_imap, list_lookup_fmap, <- option_fmap_compose.
Qed.

Lemma int_no_panic t s m : int_from_str t s <> Panic m.
Proof.
  destruct s as [|a s]; [done|]. destruct (decide (a = "+"%char \/ a = "-"%char)) as [[-> | ->]|Ha].
  - cbn [int_from_str]. destruct s; [done|]. apply parse_digits_no_panic.
  - cbn [int_from_str]. destruct s; [done|]. destruct (it_signed t); apply parse_digits_no_panic.
  - assert (int_from_str t (String a s) = parse_digits t false 0 (String a s)) as ->; [|apply parse_digits_no_panic].
    destruct a as [[] [] [] [] [] [] [] []]; try done; destruct Ha; auto.
Qed.

Lemma foldM_push_no_panic l m : forall acc, foldM (fun offsets s => let* offset := int_from_str t_i64 s in Ok (offsets ++ [offset])) acc l <> Panic m.
Proof.
  induction l as [|s l IH]; intros acc; [done|]. cbn [foldM].
  destruct (int_from_str t_i64 s) as [v|e|m'] eqn:E; cbn [mbind res_bind]; [apply IH|done|]. by apply int_no_panic in E.
Qed.

Lemma parse_offsets_no_panic s m : parse_offsets s <> Panic m.
Proof.
  unfold parse_offsets. destruct (foldM _ _ _) as [l|e|m'] eqn:E; try done. by apply foldM_push_no_panic in E.
Qed.

(** The properties [into] writes, and what is found in them. *)
Definition written {A} (show : A -> string) (ty : string) (b : gmap string A) (e : option (gmap string A)) : Properties :=
  let add prefix m p := foldl (fun p kv => set_string (prefix +:+ "." +:+ kv.1) (show kv.2) p) p (hiter m) in
  let p := add OFFSET_BEGIN b (set_str OFFSET_TYPE ty Properties_new) in
  match e with Some e => add OFFSET_END e p | None => p end.

Lemma written_type {A} (show : A -> string) ty b e : get_string OFFSET_TYPE (written show ty b e) = Ok ty.
Proof. unfold get_string, written. destruct e as [e|]; rewrite !add_lookup; done. Qed.

Lemma written_begin {A} (show : A -> string) ty b e k : p_map (to_sub_properties OFFSET_BEGIN (written show ty b e)) !! k = show <$> (b !! k).
Proof.
  unfold to_sub_properties. rewrite to_sub_lookup. unfold written. destruct e as [e|].
  - rewrite add_lookup. replace (strip_prefix (OFFSET_END +:+ ".") (OFFSET_BEGIN +:+ "." +:+ k)) with (@None string) by done. cbn [mbind option_bind].
    rewrite add_lookup, string_app_assoc, strip_prefix_app. cbn. by destruct (b !! k).
  - rewrite add_lookup, string_app_assoc, strip_prefix_app. cbn. by destruct (b !! k).
Qed.

Lemma written_end {A} (show : A -> string) ty b e k : p_map (to_sub_properties OFFSET_END (written show ty b e)) !! k = show <$> (default ∅ e !! k).
Proof.
  unfold to_sub_properties. rewrite to_sub_lookup. unfold written.
  assert (strip_prefix (OFFSET_BEGIN +:+ ".") (OFFSET_END +:+ "." +:+ k) = None) as Hb by done. destruct e as [e|].
  - rewrite !add_lookup, Hb. rewrite string_app_assoc, strip_prefix_app. cbn. by destruct (e !! k).
  - rewrite add_lookup, Hb. cbn. by rewrite lookup_empty.
Qed.

Lemma into_direct b e : OffsetRange_into (Direct b e) = written offsets_str "direct" b e.
Proof. by destruct e. Qed.

Lemma into_timestamp b e : OffsetRange_into (Timestamp b e) = written pretty "timestamp" b e.
Proof. by destruct e. Qed.

(** Parsing what was written gives the values the parser makes of the written strings. *)
Lemma parse_written {A B} (show : A -> string) (f : string -> res string B) (g : A -> B) (m : gmap string A) p :
  (forall k, p_map p !! k = show <$> (m !! k)) -> map_Forall (fun _ v => f (show v) = Ok (g v)) m -> parse_with f p = Ok (g <$> m).
Proof.
  intros Hp Hm. apply parse_with_ok. intros k. rewrite Hp, lookup_fmap. destruct (m !! k) as [v|] eqn:Ek; cbn; [|done]. eauto.
Qed.

Lemma offsets_str_nil : offsets_str [] = "".
Proof. done. Qed.

Lemma parse_empty (m : gmap string (list PartitionOffset)) p : (forall k, p_map p !! k = offsets_str <$> (m !! k)) -> ~ map_Forall (fun _ l => l <> []) m -> exists e, parse_with parse_offsets p = Err e.
Proof.
  intros Hp Hm. apply map_not_Forall in Hm as (k & l & Hk & Hl); [|apply _]. destruct l as [|x l]; [|by destruct Hl].
  eapply parse_with_err; [apply parse_offsets_no_panic| |]; [by rewrite Hp, Hk|done].
Qed.

Lemma offsets_parse (m : gmap string (list PartitionOffset)) p : offsets_wf m -> map_Forall (fun _ l => l <> []) m -> (forall k, p_map p !! k = offsets_str <$> (m !! k)) ->
  parse_with parse_offsets p = Ok (renumber <$> m).
Proof.
  intros Hwf Hne Hp. apply (parse_written offsets_str); [done|]. intros k l Hk. apply parse_offsets_str; [by eapply Hne|by eapply Hwf].
Qed.

Lemma timestamps_parse (m : gmap string Z) p : map_Forall (fun _ t => in_u 64 t) m -> (forall k, p_map p !! k = pretty <$> (m !! k)) -> parse_with (int_from_str t_u64) p = Ok m.
Proof.
  intros Hwf Hp. rewrite <- (map_fmap_id m). apply (parse_written pretty); [done|]. intros k t Hk. apply int_roundtrip, in_type_u64. by eapply Hwf.
Qed.

(** The offset range of a Kafka source survives the properties it is configured by,
    for every order of the maps: reading what was written gives the range again, with the
    offsets of a topic sorted and numbered by their place, and an end that names no topic
    taken as no end. A topic without offsets cannot be written: its empty string is an
    error when it is read. *)
Theorem offset_range_roundtrip r : range_wf r ->
  if decide (no_empty_topic r) then OffsetRange_try_from (OffsetRange_into r) = Ok (range_read_back r)
  else exists e, OffsetRange_try_from (OffsetRange_into r) = Err e.
Proof.
  intros Hwf. destruct r as [|b e|b e]; cbn [range_wf no_empty_topic range_read_back] in *.
  - rewrite decide_True by done. unfold OffsetRange_try_from. done.
  - destruct Hwf as [Hb He]. rewrite into_direct. case_decide as Hn; unfold OffsetRange_try_from; rewrite written_type, decide_True by done.
    + destruct Hn as [Nb Ne]. rewrite (offsets_parse b (to_sub_properties OFFSET_BEGIN _)) by (done || apply written_begin). cbn [mbind res_bind].
      by rewrite (offsets_parse (default ∅ e)) by (done || apply written_end).
    + destruct (decide (map_Forall (fun _ l => l <> []) b)) as [Nb|Nb].
      * rewrite (offsets_parse b (to_sub_properties OFFSET_BEGIN _)) by (done || apply written_begin). cbn [mbind res_bind].
        destruct (parse_empty (default ∅ e) _ (written_end _ "direct" b e)) as [err ->]; [naive_solver|]. by exists err.
      * destruct (parse_empty b _ (written_begin _ "direct" b e) Nb) as [err ->]. by exists err.
  - destruct Hwf as [Hb He]. rewrite decide_True by done. rewrite into_timestamp. unfold OffsetRange_try_from. rewrite written_type, decide_False, decide_True by done.
    rewrite (timestamps_parse b (to_sub_properties OFFSET_BEGIN _)) by (done || apply written_begin). cbn [mbind res_bind]. by rewrite (timestamps_parse (default ∅ e)) by (done || apply written_end).
Qed.

(** A topic whose partitions are given in order, from 0, comes back as it is. *)
Lemma in_order_sorted po n : (forall i x, po !! i = Some x -> po_partition x = n + Z.of_nat i) -> sorted_by po_partition po.
Proof.
  revert n. induction po as [|x po IH]; intros n Hpo; [constructor|]. constructor.
  - apply (IH (n + 1)). intros i y Hi. rewrite (Hpo (S i) y Hi). lia.
  - rewrite Forall_lookup. intros i y Hi. rewrite (Hpo 0%nat x eq_refl), (Hpo (S i) y Hi). lia.
Qed.

Lemma renumber_id po : Z.of_nat (length po) <= 2 ^ 31 -> (forall i x, po !! i = Some x -> po_partition x = Z.of_nat i) -> renumber po = po.
Proof.
  intros Hlen Hpo. unfold renumber. rewrite sort_by_key_id by (apply (in_order_sorted po 0); intros; by rewrite (Hpo i x)).
  apply list_eq. intros i. rewrite list_lookup_imap. destruct (po !! i) as [x|] eqn:Ei; [|done]. cbn. f_equal.
  pose proof (lookup_lt_Some _ _ _ Ei) as Hi. rewrite wrap_i_small by (unfold in_i; lia). rewrite <- (Hpo i x Ei). by destruct x.
Qed.
End range_lemmas.

(** ** Examples *)
#[local] Existing Instance id_order.

Definition ex_range : OffsetRange :=
  Direct {["topic-0" := [mkPartitionOffset 0 121; mkPartitionOffset 1 71; mkPartitionOffset 2 78]]}
    (Some {["topic-0" := [mkPartitionOffset 2 94; mkPartitionOffset 0 137; mkPartitionOffset 1 84]]}).

Lemma offset_range_roundtrip_witness :
  OffsetRange_try_from (OffsetRange_into ex_range) =
    Ok (Direct {["topic-0" := [mkPartitionOffset 0 121; mkPartitionOffset 1 71; mkPartitionOffset 2 78]]}
      (Some {["topic-0" := [mkPartitionOffset 0 137; mkPartitionOffset 1 84; mkPartitionOffset 2 94]]})).
Proof.
  assert (range_wf ex_range) as Hwf by (split; cbn [default from_option ex_range]; unfold id; intros k l [<- <-]%lookup_singleton_Some; repeat constructor; done).
  pose proof (offset_range_roundtrip ex_range Hwf) as H. rewrite decide_True in H by (split; cbn [default from_option ex_range]; unfold id; intros k l [<- <-]%lookup_singleton_Some; done).
  etransitivity; [exact H|]. vm_compute. reflexivity.
Defined.

(** The check for missing topics never fires: an empty string is one empty topic. *)
Lemma no_topics_is_one : split comma (trim "") = [""].
Proof. done. Qed.

Lemma ex_builder :
  b_topics <$> KafkaInputFormatBuilder_try_from
    (set_str TOPICS " a,b " (set_u16 PARALLELISM 2 (set_str "kafka.group.id" "g" (set_str "kafka.bootstrap.servers" "h:9092" Properties_new)))) = Ok ["a"; "b"].
Proof. vm_compute. reflexivity. Qed.
