(* ===== verification/KafkaSource.v ===== *)
(** * KafkaSource: reading a partition, remembering how far, starting again

    src/rlink-connectors/connector-kafka/src/source/: a task of the source reads one
    partition of one topic. A thread of its own takes the messages from the client
    library, makes records of them and puts these on a channel ([Handover]); the task's
    iterator takes them off and notes the offset of each, which is what a checkpoint
    saves. A restarted task begins at the offset it finds in its checkpoint.

    The client library (rdkafka) is the class [RdKafka], the deserializer a parameter,
    the JSON of a snapshot the class [OffsetJson]. The interleaving of the two threads
    over the channel is [cstep] of Channel.

    The theorems say that a restart loses nothing and repeats at most part of one
    message, that a range with an end delivers exactly its messages, and which splits
    the source makes of its partitions. *)
From Stdlib Require Import ZArith Lia Sorted.
From stdpp Require Import base strings pretty numbers option sets gmap list relations sorting.
From S2P Require Import Prelude Bytes Channel Properties Runtime Graph Schema StreamGraph Element.
From S2P Require Import WorkerTask KafkaOffsets.

#[local] Open Scope Z_scope.

Definition I64_MIN : Z := - 2 ^ 63.

(** ** The client library *)
Record Message := mkMessage {
  m_topic : string;
  m_partition : Z;
  m_offset : Z;
  m_timestamp : option Z;
  m_key : option (list Z);
  m_payload : option (list Z)
}.

Class RdKafka := {
  ClientConfig : Type;
  cc_new : ClientConfig;
  cc_set : string -> string -> ClientConfig -> ClientConfig;
  cc_get : string -> ClientConfig -> option string;
  KafkaClient : Type;
  kafka_create : ClientConfig -> res string KafkaClient;
  (** The raw value of [Offset::End]. *)
  raw_offset_end : Z;
  TopicPartitionList : Type;
  add_partition_offset : string -> Z -> Z -> res string TopicPartitionList;
  assign : KafkaClient -> TopicPartitionList -> res string unit;
  (** A request for the offset of a timestamp, and what the answer has for the partition. *)
  request_offset_for_time : KafkaClient -> string -> Z -> Z -> res string (option (option Z));
  (** The topics of a metadata answer, each as the ids of its partitions. *)
  fetch_metadata : KafkaClient -> string -> res string (list (list Z))
}.

(** ** The snapshot of an offset *)
Record OffsetSnapshot := mkOffsetSnapshot { os_topic : string; os_partition : Z; os_offset : option Z }.

#[global] Instance OffsetSnapshot_eq_dec : EqDecision OffsetSnapshot.
Proof. solve_decision. Defined.

(** The letters of a topic's name. *)
Definition topic_char (a : Ascii.ascii) : bool :=
  let n := Ascii.nat_of_ascii a in
  ((97 <=? n) && (n <=? 122) || (65 <=? n) && (n <=? 90) || (48 <=? n) && (n <=? 57) || (n =? 46) || (n =? 95) || (n =? 45))%nat.

Fixpoint topic_name (s : string) : bool :=
  match s with
  | EmptyString => true
  | String a s => topic_char a && topic_name s
  end.

Definition snapshot_wf (s : OffsetSnapshot) : Prop :=
  topic_name (os_topic s) = true /\ in_i 32 (os_partition s) /\ (forall o, os_offset s = Some o -> in_i 64 o).

(** serde_json on [OffsetSnapshot]. The topic is borrowed from the text, so only a topic
    that needs no escapes is read back. *)
Class OffsetJson := {
  snapshot_to_json : OffsetSnapshot -> string;
  snapshot_from_json : string -> res string OffsetSnapshot;
  snapshot_json_roundtrip : forall s, snapshot_wf s -> snapshot_from_json (snapshot_to_json s) = Ok s
}.

Section checkpoint.
Context {OJ : OffsetJson}.

(** The recorder; [sr_offset] is the atomic shared by its clones. *)
Record KafkaSourceStateRecorder := mkRecorder { sr_topic : string; sr_partition : Z; sr_offset : Z }.

Definition Recorder_new (topic : string) (partition : Z) : KafkaSourceStateRecorder := mkRecorder topic partition I64_MIN.

Definition recorder_update (offset : Z) (r : KafkaSourceStateRecorder) : KafkaSourceStateRecorder :=
  mkRecorder (sr_topic r) (sr_partition r) offset.

Definition update_from_snapshot (snapshot_handle : string) (r : KafkaSourceStateRecorder) : res string KafkaSourceStateRecorder :=
  let* offset_snapshot := snapshot_from_json snapshot_handle in
  if negb (bool_decide (os_topic offset_snapshot = sr_topic r)) || negb (os_partition offset_snapshot =? sr_partition r)
  then Err "Does not belong to the checkpoint of the task"
  else Ok (recorder_update (default I64_MIN (os_offset offset_snapshot)) r).

Definition recorder_get (r : KafkaSourceStateRecorder) : option Z :=
  if sr_offset r =? I64_MIN then None else Some (sr_offset r).

Definition recorder_snapshot (r : KafkaSourceStateRecorder) : string :=
  let offset := if sr_offset r =? I64_MIN then None else Some (sr_offset r) in
  snapshot_to_json (mkOffsetSnapshot (sr_topic r) (sr_partition r) offset).

Record KafkaCheckpointFunction := mkKafkaCheckpoint {
  kc_state_recorder : option KafkaSourceStateRecorder;
  kc_application_id : string;
  kc_task_id : TaskId;
  kc_topic : string;
  kc_partition : Z
}.

Definition KafkaCheckpointFunction_new (application_id : string) (task_id : TaskId) (topic : string) (partition : Z) : KafkaCheckpointFunction :=
  mkKafkaCheckpoint None application_id task_id topic partition.

Definition as_state {E} (c : KafkaCheckpointFunction) : res E KafkaSourceStateRecorder :=
  unwrap "called `Option::unwrap()` on a `None` value" (kc_state_recorder c).

Definition set_recorder (r : KafkaSourceStateRecorder) (c : KafkaCheckpointFunction) : KafkaCheckpointFunction :=
  mkKafkaCheckpoint (Some r) (kc_application_id c) (kc_task_id c) (kc_topic c) (kc_partition c).

Definition kafka_initialize_state {E} (c : KafkaCheckpointFunction) (context : FunctionSnapshotContext) (h : option CheckpointHandle)
    : res E KafkaCheckpointFunction :=
  let c := set_recorder (Recorder_new (kc_topic c) (kc_partition c)) c in
  if ck_is_default (fsc_checkpoint_id context) then Ok c
  else match h with
       | None => Ok c
       | Some h =>
           let* state_cache := as_state c in
           match update_from_snapshot (handle h) state_cache with
           | Ok r => Ok (set_recorder r c)
           | _ => Panic "called `Result::unwrap()` on an `Err` value"
           end
       end.

Definition kafka_snapshot_state {E} (c : KafkaCheckpointFunction) (context : FunctionSnapshotContext) : res E (option CheckpointHandle) :=
  let* r := as_state c in Ok (Some (mkHandle (recorder_snapshot r))).
End checkpoint.

(** ** The hand-over between the threads *)
Section handover.
Context {T : Type}.

Abbreviation Handover := (Channel (T := T)).

(** [named_channel]: on an unbounded channel. [produce] and [poll_next] wait, as the
    senders and receivers of [cstep] do. *)
Definition Handover_new (buffer_size : Z) : Handover := named_channel_with_base buffer_size Unbounded.

Definition try_poll_next (h : Handover) : Handover * option T := try_recv h.

Definition try_produce (h : Handover) (x : T) : Handover * option T := try_send_opt h x.
End handover.

Section source.
Context {SB : SerBuffer} {RK : RdKafka} {OJ : OffsetJson}.

Definition empty_record : record := Record_new.

Definition is_empty_record (r : record) : bool := buf_len (r_values r) =? 0.

Record ConsumerRecord := mkConsumerRecord { cr_record : record; cr_offset : Z }.

(** ** The consumer *)
Record ConsumerRange := mkConsumerRange {
  range_topic : string;
  range_partition : Z;
  range_begin_offset : Z;
  range_end_offset : option Z
}.

(** The trait [KafkaRecordDeserializer] over a state [D], and its builder. *)
Record KafkaRecordDeserializer := mkDeserializer {
  D : Type;
  deserialize : D -> Z -> list Z -> list Z -> string -> Z -> Z -> res string (list record * D)
}.

(** The message type serbuffer generates: a message as the columns of a buffer. *)
Record KafkaEntity := mkEntity {
  e_timestamp : Z;
  e_key : list Z;
  e_payload : list Z;
  e_topic : string;
  e_partition : Z;
  e_offset : Z
}.

Class KafkaMessageGen := {
  entity_to_buffer : KafkaEntity -> option Buffer;
  entity_parse : Buffer -> option KafkaEntity
}.

Definition build_kafka_record {E} `{KafkaMessageGen} (timestamp : Z) (key payload : list Z) (topic : string) (partition offset : Z) : res E record :=
  let message := mkEntity timestamp key payload topic partition offset in
  let* values := unwrap "called `Result::unwrap()` on an `Err` value" (entity_to_buffer message) in
  Ok (set_values values Record_new).

Definition DefaultKafkaRecordDeserializer `{KafkaMessageGen} : KafkaRecordDeserializer :=
  mkDeserializer unit (fun d timestamp key payload topic partition offset =>
    let* record := build_kafka_record timestamp key payload topic partition offset in Ok ([record], d)).

Section consumer.
Context (DS : KafkaRecordDeserializer).

Record KafkaConsumerThread := mkConsumer {
  ct_job_id : JobId;
  ct_task_number : Z;
  ct_client_config : ClientConfig;
  ct_consumer_ranges : ConsumerRange;
  ct_with_end_consumer_ranges : bool;
  ct_deserializer : D DS
}.

Definition KafkaConsumerThread_new (job_id : JobId) (task_number : Z) (client_config : ClientConfig) (consumer_ranges : ConsumerRange) (deserializer : D DS)
    : KafkaConsumerThread :=
  let with_end_consumer_ranges := bool_decide (is_Some (range_end_offset consumer_ranges)) in
  mkConsumer job_id task_number client_config consumer_ranges with_end_consumer_ranges deserializer.

Definition end_check {E} (t : KafkaConsumerThread) (topic : string) (partition offset : Z) : res E bool :=
  if negb (ct_with_end_consumer_ranges t) then Ok false
  else if negb (range_partition (ct_consumer_ranges t) =? partition) then Ok false
  else
    let* end_offset := unwrap "called `Option::unwrap()` on a `None` value" (range_end_offset (ct_consumer_ranges t)) in
    Ok ((end_offset <? offset) && bool_decide (range_topic (ct_consumer_ranges t) = topic)).

Definition set_deserializer (d : D DS) (t : KafkaConsumerThread) : KafkaConsumerThread :=
  mkConsumer (ct_job_id t) (ct_task_number t) (ct_client_config t) (ct_consumer_ranges t) (ct_with_end_consumer_ranges t) d.

(** The body of the loop, for a message or an error of the stream: what it produces, and whether it goes on. The channel has both
    its ends in every [Handover], so [produce] never finds it disconnected. *)
Definition on_message (t : KafkaConsumerThread) (message : Message + string) : res string (KafkaConsumerThread * list ConsumerRecord * bool) :=
  match message with
  | inl m =>
      let timestamp := default 0 (m_timestamp m) in
      let key := default [] (m_key m) in
      let payload := default [] (m_payload m) in
      let* reached := end_check t (m_topic m) (m_partition m) (m_offset m) in
      if reached : bool then Ok (t, [mkConsumerRecord empty_record 0], false)
      else
        let* (records, d) := deserialize DS (ct_deserializer t) timestamp key payload (m_topic m) (m_partition m) (m_offset m) in
        Ok (set_deserializer d t, (fun record => mkConsumerRecord record (m_offset m)) <$> records, true)
  | inr _ => Ok (t, [], true)
  end.

(** The loop over what the message stream has given so far. *)
Fixpoint consume (t : KafkaConsumerThread) (message_stream : list (Message + string)) : res string (KafkaConsumerThread * list ConsumerRecord) :=
  match message_stream with
  | [] => Ok (t, [])
  | message :: message_stream =>
      let* (t, out, goes_on) := on_message t message in
      if goes_on : bool then
        let* (t, out') := consume t message_stream in Ok (t, out ++ out')
      else Ok (t, out)
  end.

Definition consumer_run (t : KafkaConsumerThread) (message_stream : list (Message + string)) : res string (KafkaConsumerThread * list ConsumerRecord) :=
  let* assignment := match add_partition_offset (range_topic (ct_consumer_ranges t)) (range_partition (ct_consumer_ranges t))
                             (range_begin_offset (ct_consumer_ranges t)) with
                     | Ok a => Ok a
                     | _ => Panic "called `Result::unwrap()` on an `Err` value"
                     end in
  let* _ := ok_or (cc_get "group.id" (ct_client_config t)) "`group.id` not found in kafka consumer config" in
  let* consumer := kafka_create (ct_client_config t) in
  let* _ := assign consumer assignment in
  consume t message_stream.
End consumer.

(** ** The iterator *)

(** [KafkaRecordIterator::next] with the record it polled. *)
Definition iterator_next (r : KafkaSourceStateRecorder) (consumer_record : ConsumerRecord) : KafkaSourceStateRecorder * option record :=
  if is_empty_record (cr_record consumer_record) then (r, None)
  else (recorder_update (cr_offset consumer_record) r, Some (cr_record consumer_record)).

(** The records the task gets, until the iterator ends. *)
Fixpoint iterate (r : KafkaSourceStateRecorder) (polled : list ConsumerRecord) : list record * KafkaSourceStateRecorder * bool :=
  match polled with
  | [] => ([], r, false)
  | cr :: polled =>
      match iterator_next r cr with
      | (r, None) => ([], r, true)
      | (r, Some x) => let '(xs, r, ended) := iterate r polled in (x :: xs, r, ended)
      end
  end.

(** ** The input format *)
Record KafkaRecordDeserializerBuilder := mkDeserializerBuilder {
  db_deserializer : KafkaRecordDeserializer;
  db_build : D db_deserializer;
  db_schema : FnSchema
}.

Definition DefaultKafkaRecordDeserializerBuilder `{KafkaMessageGen} (schema : FnSchema) : KafkaRecordDeserializerBuilder :=
  mkDeserializerBuilder DefaultKafkaRecordDeserializer tt schema.

Record KafkaInputFormat := mkKafkaInputFormat {
  k_name : string;
  k_parallelism : Z;
  k_client_config : ClientConfig;
  k_topics : list string;
  k_task_topic : string;
  k_task_partition : Z;
  k_buffer_size : Z;
  k_offset_range : OffsetRange;
  k_handover : option (Channel (T := ConsumerRecord));
  k_deserializer_builder : KafkaRecordDeserializerBuilder;
  k_schema : FnSchema;
  k_checkpoint : option KafkaCheckpointFunction
}.

Definition KafkaInputFormat_new (client_config : ClientConfig) (topics : list string) (buffer_size : Z) (offset_range : OffsetRange)
    (deserializer_builder : KafkaRecordDeserializerBuilder) (parallelism : Z) (fn_name : string) : KafkaInputFormat :=
  let schema := db_schema deserializer_builder in
  mkKafkaInputFormat fn_name parallelism client_config topics "" 0 buffer_size offset_range None deserializer_builder schema None.

(** [KafkaInputFormatBuilder::build]; [field_metadata] is the schema of the generated
    message type. *)
Definition builder_build `{HashOrder} `{KafkaMessageGen} (field_metadata : FnSchema) (b : KafkaInputFormatBuilder)
    (deserializer_builder : option KafkaRecordDeserializerBuilder) : KafkaInputFormat :=
  let client_config := foldl (fun c kv => cc_set kv.1 kv.2 c) cc_new (hiter (b_conf_map b)) in
  let fn_name := default INPUT_FORMAT_FN_NAME_DEFAULT (b_fn_name b) in
  let buffer_size := default SOURCE_CHANNEL_SIZE (b_buffer_size b) in
  let deserializer_builder := default (DefaultKafkaRecordDeserializerBuilder field_metadata) deserializer_builder in
  KafkaInputFormat_new client_config (b_topics b) buffer_size (b_offset_range b) deserializer_builder (b_parallelism b) fn_name.

Definition offsets_for_times (consumer : KafkaClient) (topic : string) (partition timestamp : Z) : res string (option PartitionOffset) :=
  let* elem := request_offset_for_time consumer topic partition (wrap_i 64 timestamp) in
  match elem with
  | None => Ok None
  | Some raw => let* offset := unwrap "called `Option::unwrap()` on a `None` value" raw in Ok (Some (mkPartitionOffset partition offset))
  end.

(** The offset of a topic's partition in a direct range: by its place in the list. *)
Definition direct_offset (m : gmap string (list PartitionOffset)) (topic : string) (partition : Z) : res string (option PartitionOffset) :=
  let* partition_offsets := unwrap "called `Option::unwrap()` on a `None` value" (m !! topic) in
  Ok (partition_offsets !! Z.to_nat (wrap_u 64 partition)).

Definition consumer_ranges (k : KafkaInputFormat) (topic : string) (partition : Z) : res string ConsumerRange :=
  let* (begin_partition, end_partition) :=
    match k_offset_range k with
    | OffsetRange_None =>
        let* checkpoint := unwrap "called `Option::unwrap()` on a `None` value" (k_checkpoint k) in
        let* state := as_state checkpoint in
        Ok ((fun offset => mkPartitionOffset partition offset) <$> recorder_get state, None)
    | Direct begin_offset end_offset =>
        let* begin_partitions := direct_offset begin_offset topic partition in
        let* end_partitions := match end_offset with Some end_offset => direct_offset end_offset topic partition | None => Ok None end in
        Ok (begin_partitions, end_partitions)
    | Timestamp begin_timestamp end_timestamp =>
        let begin_timestamp := begin_timestamp !! topic in
        let end_timestamp := match end_timestamp with Some x => x !! topic | None => None end in
        let* consumer := kafka_create (k_client_config k) in
        let* begin_partition := match begin_timestamp with Some t => offsets_for_times consumer topic partition t | None => Ok None end in
        let* end_partition := match end_timestamp with Some t => offsets_for_times consumer topic partition t | None => Ok None end in
        Ok (begin_partition, end_partition)
    end in
  Ok (mkConsumerRange topic partition (default raw_offset_end (po_offset <$> begin_partition)) (po_offset <$> end_partition)).

Definition set_task (topic : string) (partition : Z) (checkpoint : option KafkaCheckpointFunction) (handover : option (Channel (T := ConsumerRecord))) (k : KafkaInputFormat)
    : KafkaInputFormat :=
  mkKafkaInputFormat (k_name k) (k_parallelism k) (k_client_config k) (k_topics k) topic partition (k_buffer_size k) (k_offset_range k) handover
    (k_deserializer_builder k) (k_schema k) checkpoint.

(** [open]: the opened source and the consumer whose thread it starts. *)
Definition kafka_open `{DagApi} (k : KafkaInputFormat) (input_split : InputSplit) (context : FunctionContext)
    : res string (KafkaInputFormat * KafkaConsumerThread (db_deserializer (k_deserializer_builder k))) :=
  let unwrap_res {A} (r : res string A) : res string A := match r with Ok a => Ok a | Panic p => Panic p | Err _ => Panic "called `Result::unwrap()` on an `Err` value" end in
  let* task_topic := unwrap_res (get_string "topic" (split_properties input_split)) in
  let* task_partition := unwrap_res (get_i32 "partition" (split_properties input_split)) in
  let checkpoint := KafkaCheckpointFunction_new (fc_application_id context) (fc_task_id context) task_topic task_partition in
  let checkpoint_context := mkSnapshotContext (fc_operator_id context) (fc_task_id context) (fc_checkpoint_id context) (fc_completed_checkpoint_id context) in
  let* checkpoint := kafka_initialize_state checkpoint checkpoint_context (fc_checkpoint_handle context) in
  let k' := set_task task_topic task_partition (Some checkpoint) (Some (Handover_new (k_buffer_size k))) k in
  let* ranges := unwrap_res (consumer_ranges k' task_topic task_partition) in
  Ok (k', KafkaConsumerThread_new _ (job_id (fc_task_id context)) (task_number (fc_task_id context)) (k_client_config k) ranges
            (db_build (k_deserializer_builder k))).

(** [record_iter]: the channel and the recorder the iterator works on. *)
Definition record_iter (k : KafkaInputFormat) : res string (Channel (T := ConsumerRecord) * KafkaSourceStateRecorder) :=
  let* handover := unwrap "called `Option::unwrap()` on a `None` value" (k_handover k) in
  let* checkpoint := unwrap "called `Option::unwrap()` on a `None` value" (k_checkpoint k) in
  let* state_recorder := as_state checkpoint in
  Ok (handover, state_recorder).

Definition format_snapshot_state (k : KafkaInputFormat) (context : FunctionSnapshotContext) : res string (option CheckpointHandle) :=
  match k_checkpoint k with
  | Some checkpoint => kafka_snapshot_state checkpoint context
  | None => Ok None
  end.

(** ** The splits *)
Definition CREATE_KAFKA_CONNECTION := "create_kafka_connection".

Definition partition_split (topic : string) (id index : Z) : InputSplit :=
  mkInputSplit index (set_bool CREATE_KAFKA_CONNECTION true (set_i32 "partition" id (set_str "topic" topic Properties_new))).

(** The inner loop: one split for every partition, until there are [min_num_splits]. *)
Fixpoint topic_splits (min_num_splits : Z) (topic : string) (partitions : list Z) (s : list InputSplit * Z) : list InputSplit * Z :=
  match partitions with
  | [] => s
  | id :: partitions =>
      let input_split := partition_split topic id s.2 in
      let index := s.2 +u16 1 in
      let s := (s.1 ++ [input_split], index) in
      if index =? min_num_splits then s else topic_splits min_num_splits topic partitions s
  end.

Definition not_a_connection (s : InputSplit) : InputSplit :=
  mkInputSplit (split_number s) (set_bool CREATE_KAFKA_CONNECTION false (split_properties s)).

Definition map_err {A} (f : string -> string) (r : res string A) : res string A :=
  match r with Ok a => Ok a | Err e => Err (f e) | Panic p => Panic p end.

Definition kafka_create_input_splits (k : KafkaInputFormat) (min_num_splits : Z) : res string (list InputSplit) :=
  let* consumer := map_err (fun e => "Consumer creation failed. " +:+ e) (kafka_create (k_client_config k)) in
  let* (input_splits, _) := foldM (fun s topic =>
      let* metadata := map_err (fun e => "Failed to fetch metadata. " +:+ e) (fetch_metadata consumer topic) in
      let* partitions := ok_or (metadata !! 0%nat) ("Topic(" +:+ topic +:+ ") not found") in
      Ok (topic_splits min_num_splits topic partitions s)) ([], 0) (k_topics k) in
  let len := Z.of_nat (length input_splits) in
  if min_num_splits <? len then Err "kafka `input_splits.len()` != `min_num_splits`"
  else if len <? min_num_splits then
    if len =? 0 then Panic "attempt to divide by zero"
    else
      let times := (min_num_splits + len - 1) / len in
      let extend_input_splits := concat (replicate (Z.to_nat (times - 1)) (not_a_connection <$> input_splits)) in
      Ok (input_splits ++ extend_input_splits)
  else Ok input_splits.

(** ** What a consumer produces *)
Section consumed.
Context (DS : KafkaRecordDeserializer) (f : Message -> list record).

(** The deserializer makes the same records of a message whatever it has seen before. *)
Definition stateless : Prop := forall d m, exists d',
  deserialize DS d (default 0 (m_timestamp m)) (default [] (m_key m)) (default [] (m_payload m)) (m_topic m) (m_partition m) (m_offset m) = Ok (f m, d').

Definition messages (s : list (Message + string)) : list Message := omap (fun x => match x with inl m => Some m | inr _ => None end) s.

Definition tagged (m : Message) : list ConsumerRecord := (fun record => mkConsumerRecord record (m_offset m)) <$> f m.

Definition records (l : list Message) : list record := l ≫= f.

Definition end_marker : ConsumerRecord := mkConsumerRecord empty_record 0.

(** Up to the first message behind the end of the range. *)
Fixpoint until (e : option Z) (l : list Message) : list ConsumerRecord :=
  match l with
  | [] => []
  | m :: l => if match e with Some e => e <? m_offset m | None => false end then [end_marker] else tagged m ++ until e l
  end.

Definition of_partition (topic : string) (partition : Z) (m : Message) : Prop := m_topic m = topic /\ m_partition m = partition.

Definition thread_ok (t : KafkaConsumerThread DS) : Prop :=
  ct_with_end_consumer_ranges DS t = bool_decide (is_Some (range_end_offset (ct_consumer_ranges DS t))).

Lemma end_check_eq {E} (t : KafkaConsumerThread DS) m : thread_ok t ->
  of_partition (range_topic (ct_consumer_ranges DS t)) (range_partition (ct_consumer_ranges DS t)) m ->
  end_check DS (E := E) t (m_topic m) (m_partition m) (m_offset m) = Ok (match range_end_offset (ct_consumer_ranges DS t) with Some e => e <? m_offset m | None => false end).
Proof.
  intros Ht [Hm Hp]. unfold end_check. rewrite Ht, Hm, Hp, Z.eqb_refl. destruct (range_end_offset _) as [e|].
  - cbn. by rewrite bool_decide_true, andb_true_r.
  - done.
Qed.

Lemma consume_spec (Hf : stateless) s : forall (t : KafkaConsumerThread DS), thread_ok t ->
  Forall (of_partition (range_topic (ct_consumer_ranges DS t)) (range_partition (ct_consumer_ranges DS t))) (messages s) ->
  exists t', consume DS t s = Ok (t', until (range_end_offset (ct_consumer_ranges DS t)) (messages s)).
Proof.
  induction s as [|[m|e] s IH]; intros t Ht Hs; cbn [consume]; [by eexists| |].
  - cbn [messages omap list_omap] in *. apply Forall_cons in Hs as [Hm Hs]. cbn [on_message until]. rewrite end_check_eq by done. cbn [mbind res_bind].
    destruct (match range_end_offset _ with Some e => e <? m_offset m | None => false end); [by eexists|].
    destruct (Hf (ct_deserializer DS t) m) as [d' ->]. cbn [mbind res_bind]. destruct (IH (set_deserializer DS d' t) Ht Hs) as [t' Ht'].
    rewrite Ht'. cbn. by eexists.
  - cbn [messages omap list_omap] in *. cbn [on_message mbind res_bind]. destruct (IH t Ht Hs) as [t' ->]. cbn. by eexists.
Qed.

Lemma until_open l : until None l = l ≫= tagged.
Proof. induction l as [|m l IH]; [done|]. cbn. by rewrite IH. Qed.

Lemma untag l : cr_record <$> (l ≫= tagged) = records l.
Proof.
  unfold records. induction l as [|m l IH]; [done|]. cbn. rewrite fmap_app, IH. f_equal. unfold tagged. rewrite <- list_fmap_compose. by apply list_fmap_id.
Qed.

(** ** What the iterator makes of it *)
Definition no_empty : Prop := forall m r, r ∈ f m -> is_empty_record r = false.

Definition good (cr : ConsumerRecord) : Prop := is_empty_record (cr_record cr) = false.

Definition recorded (r : KafkaSourceStateRecorder) (l : list ConsumerRecord) : KafkaSourceStateRecorder :=
  match last l with Some cr => recorder_update (cr_offset cr) r | None => r end.

Lemma iterate_good l : forall r, Forall good l -> iterate r l = (cr_record <$> l, recorded r l, false).
Proof.
  induction l as [|cr l IH]; intros r Hl; [done|]. apply Forall_cons in Hl as [Hcr Hl]. cbn [iterate]. unfold iterator_next. rewrite Hcr, IH by done.
  rewrite fmap_cons. unfold recorded. rewrite last_cons. by destruct (last l).
Qed.

Lemma iterate_marked l rest : forall r, Forall good l -> iterate r (l ++ end_marker :: rest) = (cr_record <$> l, recorded r l, true).
Proof.
  induction l as [|cr l IH]; intros r Hl.
  - cbn. unfold iterator_next, is_empty_record. cbn. by rewrite buf_len_slice, buf_new_slice.
  - apply Forall_cons in Hl as [Hcr Hl]. cbn [app iterate]. unfold iterator_next at 1. rewrite Hcr, IH by done.
    rewrite fmap_cons. unfold recorded. rewrite last_cons. by destruct (last l).
Qed.

Lemma tagged_good (Hne : no_empty) l : Forall good (l ≫= tagged).
Proof.
  rewrite Forall_forall. intros cr (m & Hcr & _)%list_elem_of_bind. unfold tagged in Hcr. apply list_elem_of_fmap in Hcr as (r & -> & Hr).
  by apply (Hne m).
Qed.

(** ** The log of a partition *)
Record log_ok (topic : string) (partition : Z) (log : list Message) : Prop := {
  log_sorted : StronglySorted (fun x y => m_offset x < m_offset y) log;
  log_here : Forall (of_partition topic partition) log;
  log_offsets : Forall (fun m => 0 <= m_offset m < 2 ^ 63) log
}.

(** What a consumer assigned at an offset is given. *)
Definition log_from (o : Z) (log : list Message) : list Message := filter (fun m => o <= m_offset m) log.

(** A range with an end: its messages, then the end once a later message has come. *)
Lemma until_sorted e l : StronglySorted (fun x y => m_offset x < m_offset y) l ->
  until (Some e) l = (filter (fun m => m_offset m <= e) l ≫= tagged) ++ (if existsb (fun m => e <? m_offset m) l then [end_marker] else []).
Proof.
  induction 1 as [|m l Hs IH Hall]; [done|]. cbn [until existsb]. rewrite filter_cons. destruct (Z.ltb_spec e (m_offset m)) as [Hm|Hm].
  - rewrite decide_False by lia. rewrite filter_none; [done|]. eapply Forall_impl; [exact Hall|]. cbn. lia.
  - rewrite decide_True by lia. cbn. by rewrite IH, app_assoc.
Qed.

(** ** Restarting *)

(** A prefix of the produced records stops within the records of one message. *)
Lemma prefix_of_tagged P l : P `prefix_of` (l ≫= tagged) -> P <> [] ->
  exists l1 m l2 Q, l = l1 ++ m :: l2 /\ P = (l1 ≫= tagged) ++ Q /\ Q <> [] /\ Q `prefix_of` tagged m.
Proof.
  revert P. induction l as [|m l IH]; intros P HP Hne.
  - cbn in HP. by apply prefix_nil_inv in HP.
  - cbn in HP. destruct HP as [rest HP]. apply app_eq_inv in HP as [(k & Hk & _)|(P' & -> & HP')].
    + exists [], m, l, P. split_and!; try done. by exists k.
    + destruct (decide (P' = [])) as [->|Hne'].
      * rewrite app_nil_r in *. exists [], m, l, (tagged m). done.
      * destruct (IH P' ltac:(by exists rest) Hne') as (l1 & m' & l2 & Q & -> & -> & HQ & HQ'). exists (m :: l1), m', l2, Q. split_and!; try done. cbn. by rewrite app_assoc.
Qed.

Lemma log_from_split l1 m l2 : StronglySorted (fun x y => m_offset x < m_offset y) (l1 ++ m :: l2) -> log_from (m_offset m) (l1 ++ m :: l2) = m :: l2.
Proof.
  intros Hs. unfold log_from. induction l1 as [|x l1 IH].
  - apply StronglySorted_inv in Hs as [_ Hall]. apply filter_all. constructor; [lia|]. eapply Forall_impl; [exact Hall|]. cbn. lia.
  - cbn [app] in *. apply StronglySorted_inv in Hs as [Hs Hall]. rewrite filter_cons_False; [by apply IH|]. rewrite Forall_app, Forall_cons in Hall. lia.
Qed.

Lemma log_from_again b o log : b <= o -> log_from o (log_from b log) = log_from o log.
Proof.
  intros Hb. unfold log_from. induction log as [|m log IH]; [done|]. rewrite !filter_cons.
  destruct (decide (b <= m_offset m)); [rewrite filter_cons|]; destruct (decide (o <= m_offset m)); rewrite ?IH; try done; lia.
Qed.

Lemma StronglySorted_filter {A} (R : A -> A -> Prop) (P : A -> Prop) `{forall x, Decision (P x)} l : StronglySorted R l -> StronglySorted R (filter P l).
Proof.
  induction 1 as [|x l Hs IH Hall]; [constructor|]. rewrite filter_cons. case_decide; [|done]. constructor; [done|].
  rewrite Forall_forall in *. intros y [_ Hy]%list_elem_of_filter. by apply Hall.
Qed.

(** Where the recorder stands after a prefix of the records, in the log. *)
Lemma recorded_in_log b log P r : StronglySorted (fun x y => m_offset x < m_offset y) log -> P `prefix_of` (log_from b log ≫= tagged) ->
  sr_offset r = b \/ P <> [] ->
  exists l1 R2, log_from b log = l1 ++ log_from (sr_offset (recorded r P)) log /\ cr_record <$> P = records l1 ++ R2 /\
    (P = [] /\ R2 = [] /\ recorded r P = r \/ exists m l, log_from (sr_offset (recorded r P)) log = m :: l /\ m_offset m = sr_offset (recorded r P) /\ R2 `prefix_of` f m).
Proof.
  intros Hs HP Hr. destruct (decide (P = [])) as [->|Hne].
  - destruct Hr as [<-|]; [|done]. exists [], []. split_and!; try done. by left.
  - destruct (prefix_of_tagged P _ HP Hne) as (l1 & m & l2 & Q & Hl & -> & HQ & HQm).
    assert (sr_offset (recorded r ((l1 ≫= tagged) ++ Q)) = m_offset m) as Ho.
    { unfold recorded. rewrite last_app. destruct (last Q) as [cr|] eqn:El; [|by apply last_None in El].
      cbn. assert (cr ∈ tagged m) as Hin. { destruct HQm as [Q' ->]. apply elem_of_app. left. by apply last_Some_elem_of. }
      apply list_elem_of_fmap in Hin as (x & -> & _). done. }
    assert (StronglySorted (fun x y => m_offset x < m_offset y) (l1 ++ m :: l2)) as Hs' by (rewrite <- Hl; by apply StronglySorted_filter).
    assert (b <= m_offset m) as Hb. { assert (m ∈ log_from b log) as Hin by (rewrite Hl; set_solver). by apply list_elem_of_filter in Hin as [? _]. }
    rewrite Ho. assert (log_from (m_offset m) log = m :: l2) as Hfrom. { rewrite <- (log_from_again b) by done. rewrite Hl. by apply log_from_split. }
    rewrite Hfrom. exists l1, (cr_record <$> Q). split_and!; [done|by rewrite fmap_app, untag|]. right. exists m, l2. split_and!; try done.
    destruct HQm as [Q' E]. exists (cr_record <$> Q'). apply (f_equal (fmap cr_record)) in E. rewrite fmap_app in E. rewrite <- E. unfold tagged.
    rewrite <- list_fmap_compose. symmetry. by apply list_fmap_id.
Qed.
End consumed.

(** ** Opening *)
Section opening.
Context `{DA : DagApi} (k : KafkaInputFormat).

Abbreviation DS := (db_deserializer (k_deserializer_builder k)).

(** The split names the topic and the partition. *)
Definition split_of (topic : string) (partition : Z) (sp : InputSplit) : Prop :=
  get_string "topic" (split_properties sp) = Ok topic /\ get_i32 "partition" (split_properties sp) = Ok partition.

(** The source after [open], with its recorder. *)
Definition opened (topic : string) (partition : Z) (context : FunctionContext) (r : KafkaSourceStateRecorder) : KafkaInputFormat :=
  set_task topic partition (Some (mkKafkaCheckpoint (Some r) (fc_application_id context) (fc_task_id context) topic partition))
    (Some (Handover_new (k_buffer_size k))) k.

Definition started (context : FunctionContext) (range : ConsumerRange) : KafkaConsumerThread DS :=
  KafkaConsumerThread_new DS (job_id (fc_task_id context)) (task_number (fc_task_id context)) (k_client_config k) range (db_build (k_deserializer_builder k)).

Lemma snapshot_restores {E} r context application_id task_id : topic_name (sr_topic r) = true -> in_i 32 (sr_partition r) -> in_i 64 (sr_offset r) ->
  ck_is_default (fsc_checkpoint_id context) = false ->
  kafka_initialize_state (E := E) (KafkaCheckpointFunction_new application_id task_id (sr_topic r) (sr_partition r)) context (Some (mkHandle (recorder_snapshot r))) =
    Ok (mkKafkaCheckpoint (Some r) application_id task_id (sr_topic r) (sr_partition r)).
Proof.
  intros Ht Hp Ho Hc. unfold kafka_initialize_state. rewrite Hc. cbn [as_state kc_state_recorder set_recorder unwrap mbind res_bind handle].
  unfold update_from_snapshot, recorder_snapshot. rewrite snapshot_json_roundtrip.
  2: { split_and!; [done|done|]. cbn. intros o. destruct (sr_offset r =? I64_MIN); [done|]. by intros [= <-]. }
  cbn [mbind res_bind os_topic os_partition os_offset]. cbn. rewrite bool_decide_true, Z.eqb_refl by done. cbn.
  unfold recorder_update, set_recorder. cbn. do 3 f_equal. destruct r as [t p o]. cbn in *. f_equal. destruct (Z.eqb_spec o I64_MIN) as [->|]; done.
Qed.

Lemma open_restored topic partition sp context r : k_offset_range k = OffsetRange_None -> split_of topic partition sp ->
  topic_name topic = true -> in_i 32 partition -> in_i 64 (sr_offset r) -> sr_topic r = topic -> sr_partition r = partition ->
  ck_is_default (fc_checkpoint_id context) = false -> fc_checkpoint_handle context = Some (mkHandle (recorder_snapshot r)) ->
  kafka_open k sp context = Ok (opened topic partition context r, started context (mkConsumerRange topic partition (default raw_offset_end (recorder_get r)) None)).
Proof.
  intros Hk [Ht Hp] Hname Hpart Hoff <- <- Hc Hh. unfold kafka_open. rewrite Ht. cbn [mbind res_bind]. rewrite Hp. cbn [mbind res_bind].
  rewrite Hh, snapshot_restores by done. cbn [mbind res_bind]. unfold consumer_ranges. cbn [set_task k_offset_range k_checkpoint]. rewrite Hk.
  cbn. by destruct (recorder_get r).
Qed.

(** Nothing recorded yet, or no checkpoint to start from: the source begins at the end of
    the partition, whatever was there before. *)
Lemma open_fresh topic partition sp context : k_offset_range k = OffsetRange_None -> split_of topic partition sp -> fc_checkpoint_handle context = None ->
  kafka_open k sp context = Ok (opened topic partition context (Recorder_new topic partition), started context (mkConsumerRange topic partition raw_offset_end None)).
Proof.
  intros Hk [Ht Hp] Hh. unfold kafka_open. rewrite Ht. cbn [mbind res_bind]. rewrite Hp. cbn [mbind res_bind]. rewrite Hh. unfold kafka_initialize_state.
  destruct (ck_is_default _); cbn [mbind res_bind]; unfold consumer_ranges; cbn [set_task k_offset_range k_checkpoint]; by rewrite Hk.
Qed.

(** ** The restart *)
Context (f : Message -> list record) (topic : string) (partition : Z) (log : list Message).

(** A run of a task: it began at [b], fresh or restored; the consumer has seen a part of
    the log; the two threads are anywhere; the task has got [A] and the recorder stands
    at [r1]. *)
Inductive task_run (b : Z) : list record -> KafkaSourceStateRecorder -> Prop :=
  | task_run_intro t s t' produced cap st r0 A r1 ended :
      thread_ok DS t -> ct_consumer_ranges DS t = mkConsumerRange topic partition b None ->
      messages s `prefix_of` log_from b log -> consume DS t s = Ok (t', produced) ->
      0 <= cap < 2 ^ 63 - 2 -> rtc cstep (St_init cap Unbounded 1 1) st -> st_in st `prefix_of` produced ->
      sr_topic r0 = topic -> sr_partition r0 = partition -> sr_offset r0 = I64_MIN \/ sr_offset r0 = b ->
      iterate r0 (st_out st) = (A, r1, ended) ->
      task_run b A r1.

Section restart.
Context (Hf : stateless DS f) (Hne : no_empty f) (Hlog : log_ok topic partition log).

Lemma log_from_here b l : l `prefix_of` log_from b log -> Forall (of_partition topic partition) l.
Proof.
  intros [l' Hl]. rewrite Forall_forall. intros m Hm. assert (m ∈ log_from b log) as Hin by (rewrite Hl; set_solver).
  apply list_elem_of_filter in Hin as [_ Hin]. pose proof (log_here _ _ _ Hlog) as Hh. rewrite Forall_forall in Hh. by apply Hh.
Qed.

(** What a consumer without an end produces of a part of the log. *)
Lemma consume_log b t s : thread_ok DS t -> ct_consumer_ranges DS t = mkConsumerRange topic partition b None -> messages s `prefix_of` log_from b log ->
  exists t', consume DS t s = Ok (t', messages s ≫= tagged f).
Proof.
  intros Ht Hr Hs. destruct (consume_spec DS f Hf s t Ht) as [t' Ht'].
  - rewrite Hr. cbn. by eapply log_from_here.
  - rewrite Hr in Ht'. cbn in Ht'. rewrite until_open in Ht'. eauto.
Qed.

(** What the task has got is the beginning of the log's records. *)
Lemma run_prefix b A r1 : task_run b A r1 -> exists P r0, P `prefix_of` (log_from b log ≫= tagged f) /\ Forall good P /\
  A = cr_record <$> P /\ r1 = recorded r0 P /\ sr_topic r0 = topic /\ sr_partition r0 = partition /\ (sr_offset r0 = I64_MIN \/ sr_offset r0 = b).
Proof.
  intros [t s t' produced cap st r0 A' r1' ended Ht Hr Hs Hc Hcap Hst Hin H1 H2 H3 Hit].
  destruct (consume_log b t s Ht Hr Hs) as [t'' Hc']. rewrite Hc in Hc'. injection Hc' as _ ->.
  destruct (chan_inv_reach cap Unbounded 1 1 ltac:(lia) ltac:(lia) st Hst) as [_ _ Hfifo _ _ _].
  assert (st_out st `prefix_of` (log_from b log ≫= tagged f)) as HP.
  { transitivity (st_in st); [by eexists|]. etransitivity; [done|]. destruct Hs as [l ->]. rewrite bind_app. by eexists. }
  assert (Forall good (st_out st)) as Hg. { destruct HP as [l Hl]. pose proof (tagged_good f Hne (log_from b log)) as Hg. rewrite Hl, Forall_app in Hg. by destruct Hg. }
  rewrite iterate_good in Hit by done. injection Hit as <- <- <-. exists (st_out st), r0. done.
Qed.

Lemma recorded_same r0 P : sr_topic (recorded r0 P) = sr_topic r0 /\ sr_partition (recorded r0 P) = sr_partition r0.
Proof. unfold recorded. by destruct (last P). Qed.

Lemma log_i64 m : m ∈ log -> 0 <= m_offset m < 2 ^ 63.
Proof. intros Hm. pose proof (log_offsets _ _ _ Hlog) as Ho. rewrite Forall_forall in Ho. by apply Ho. Qed.

(** C13: A Kafka source without a configured offset range ([OffsetRange_None]; a direct range is
    begun anew at every start, see [kafka_direct_range]), whose deserializer keeps no state
    and makes no record with an empty value, loses nothing when it is started again from a
    snapshot and repeats at most part of one message: if a task has got the records [A] when its snapshot was
    taken, in whatever state its two threads were, and something had been recorded, then
    opening the source with that snapshot succeeds and restores the recorder, the
    consumer begins at an offset [b'] of the log, [A] is exactly the records of the
    messages before [b'] followed by some records of the first message from [b'] on, and
    the new run delivers exactly the records of the messages from [b'] on. *)
Theorem kafka_restart b A r1 sp context :
  0 <= b < 2 ^ 63 -> task_run b A r1 -> recorder_get r1 <> None ->
  k_offset_range k = OffsetRange_None -> split_of topic partition sp -> topic_name topic = true -> in_i 32 partition ->
  ck_is_default (fc_checkpoint_id context) = false -> fc_checkpoint_handle context = Some (mkHandle (recorder_snapshot r1)) ->
  exists b' k2 t2 l1 R2,
    kafka_open k sp context = Ok (k2, t2) /\ thread_ok DS t2 /\ ct_consumer_ranges DS t2 = mkConsumerRange topic partition b' None /\
    record_iter k2 = Ok (Handover_new (k_buffer_size k), r1) /\ sr_offset r1 = b' /\
    log_from b log = l1 ++ log_from b' log /\ A = records f l1 ++ R2 /\
    (R2 = [] \/ exists m l, log_from b' log = m :: l /\ R2 `prefix_of` f m) /\
    (forall s, messages s `prefix_of` log_from b' log ->
       exists t' produced r', consume DS t2 s = Ok (t', produced) /\ iterate r1 produced = (records f (messages s), r', false)).
Proof.
  intros Hb Hrun Hget Hk Hsp Hname Hpart Hc Hh. destruct (run_prefix b A r1 Hrun) as (P & r0 & HP & Hg & -> & -> & Htop & Hp & Hr0).
  destruct (recorded_same r0 P) as [E1 E2]. set (r1 := recorded r0 P) in *.
  assert (recorder_get r1 = Some (sr_offset r1)) as Hg1 by (unfold recorder_get in *; by destruct (sr_offset r1 =? I64_MIN)).
  assert (sr_offset r0 = b \/ P <> []) as Hcase.
  { destruct Hr0 as [Hr0|]; [|by left]. right. intros ->. unfold recorder_get, r1, recorded in Hget. cbn in Hget. rewrite Hr0 in Hget. done. }
  destruct (recorded_in_log f b log P r0 (log_sorted _ _ _ Hlog) HP Hcase) as (l1 & R2 & Hl & HA & HR). fold r1 in Hl, HA, HR.
  assert (in_i 64 (sr_offset r1)) as H64.
  { unfold in_i. change (64 - 1) with 63. destruct HR as [(-> & _ & E)|(m & l & Hm & <- & _)].
    - destruct Hcase as [Hcase|]; [|done]. rewrite E, Hcase. lia.
    - assert (m ∈ log) as Hin. { assert (m ∈ log_from (sr_offset r1) log) as Hin by (rewrite Hm; left). by apply list_elem_of_filter in Hin as [_ ?]. }
      pose proof (log_i64 m Hin). lia. }
  exists (sr_offset r1), (opened topic partition context r1), (started context (mkConsumerRange topic partition (sr_offset r1) None)), l1, R2. split_and!; try done.
  - rewrite (open_restored topic partition sp context r1) by (done || congruence). by rewrite Hg1.
  - destruct HR as [(_ & -> & _)|(m & l & Hm & _ & HR)]; [by left|right; eauto].
  - intros s Hs. destruct (consume_log (sr_offset r1) (started context (mkConsumerRange topic partition (sr_offset r1) None)) s) as [t' Ht']; try done.
    rewrite Ht'. eexists _, _, _. split; [done|]. rewrite iterate_good by (by apply tagged_good). by rewrite untag.
Qed.

(** A source with a direct range: whatever checkpoint the task is started from, it
    reads the range it was configured with; of any part of the log it delivers exactly
    the records of the messages from the first to the last offset of the range, both
    included, and it ends when a message behind the range has come, not before. *)
Theorem kafka_direct_range bm em sp context c bl el b e : k_offset_range k = Direct bm (Some em) -> split_of topic partition sp ->
  kafka_initialize_state (E := string) (KafkaCheckpointFunction_new (fc_application_id context) (fc_task_id context) topic partition)
    (mkSnapshotContext (fc_operator_id context) (fc_task_id context) (fc_checkpoint_id context) (fc_completed_checkpoint_id context)) (fc_checkpoint_handle context) = Ok c ->
  0 <= partition < 2 ^ 31 -> bm !! topic = Some bl -> em !! topic = Some el ->
  po_offset <$> bl !! Z.to_nat partition = Some b -> po_offset <$> el !! Z.to_nat partition = Some e ->
  exists k2 t2, kafka_open k sp context = Ok (k2, t2) /\ ct_consumer_ranges DS t2 = mkConsumerRange topic partition b (Some e) /\
    forall s r, messages s `prefix_of` log_from b log -> exists t' produced r',
      consume DS t2 s = Ok (t', produced) /\
      iterate r produced = (records f (filter (fun m => b <= m_offset m <= e) (messages s)), r', existsb (fun m => e <? m_offset m) (messages s)).
Proof.
  intros Hk [Ht Hp] Hc Hpart Hbm Hem Hbl Hel. exists (set_task topic partition (Some c) (Some (Handover_new (k_buffer_size k))) k), (started context (mkConsumerRange topic partition b (Some e))).
  split_and!; [|done|].
  - unfold kafka_open. rewrite Ht. cbn [mbind res_bind]. rewrite Hp. cbn [mbind res_bind]. rewrite Hc. cbn [mbind res_bind].
    unfold consumer_ranges. cbn [set_task k_offset_range]. rewrite Hk. unfold direct_offset. rewrite Hbm, Hem, wrap_u64_small by lia. cbn. by rewrite Hbl, Hel.
  - intros s r Hs. destruct (consume_spec DS f Hf s (started context (mkConsumerRange topic partition b (Some e)))) as [t' Ht']; [done|by eapply log_from_here|].
    rewrite Ht'. cbn. assert (StronglySorted (fun x y => m_offset x < m_offset y) (messages s)) as Hsort.
    { destruct Hs as [l Hl]. pose proof (StronglySorted_filter _ (fun m => b <= m_offset m) log (log_sorted _ _ _ Hlog)) as H. unfold log_from in Hl. rewrite Hl in H.
      by apply StronglySorted_app_1_l in H. }
    rewrite until_sorted by done. rewrite (filter_ext_in (fun m => b <= m_offset m <= e) (fun m => m_offset m <= e)).
    2: { intros m Hm. destruct Hs as [l Hl]. assert (m ∈ log_from b log) as Hin by (rewrite Hl; set_solver). apply list_elem_of_filter in Hin as [? _]. lia. }
    eexists _, _, _. split; [done|]. pose proof (tagged_good f Hne (filter (fun m => m_offset m <= e) (messages s))) as Hg. destruct (existsb _ _).
    + rewrite iterate_marked by done. by rewrite untag.
    + rewrite app_nil_r, iterate_good by done. by rewrite untag.
Qed.
End restart.
End opening.

(** ** The splits of the partitions *)
Section splits.
Context (parts : string -> list Z) (min_num_splits : Z) (Hmin : 1 <= min_num_splits < 2 ^ 16).

(** The partitions of topics, in the order of the loops. *)
Definition pairs (topics : list string) : list (string * Z) := topics ≫= fun t => (fun id => (t, id)) <$> parts t.

Definition numbered (l : list (string * Z)) : list InputSplit := imap (fun i x => partition_split x.1 x.2 (Z.of_nat i)) l.

Definition numbered_state (l : list (string * Z)) : list InputSplit * Z := (numbered l, Z.of_nat (length l)).

Lemma length_numbered l : length (numbered l) = length l.
Proof. apply length_imap. Qed.

(** The inner loop leaves the topic when it has reached the number asked for, and only then. *)
Definition taken (l l' : list (string * Z)) : list (string * Z) :=
  if decide (Z.of_nat (length l) < min_num_splits <= Z.of_nat (length l) + Z.of_nat (length l'))
  then take (Z.to_nat min_num_splits - length l) l' else l'.

Lemma topic_splits_spec topic ps : forall l, Z.of_nat (length l) + Z.of_nat (length ps) < 2 ^ 16 ->
  topic_splits min_num_splits topic ps (numbered_state l) = numbered_state (l ++ taken l ((fun id => (topic, id)) <$> ps)).
Proof.
  induction ps as [|id ps IH]; intros l Hl.
  - unfold taken. cbn [fmap list_fmap length]. rewrite take_nil. case_decide; by rewrite app_nil_r.
  - cbn [topic_splits]. cbv zeta. change (numbered_state l).1 with (numbered l). change (numbered_state l).2 with (Z.of_nat (length l)). cbn [length] in Hl.
    assert (Z.of_nat (length l) +u16 1 = Z.of_nat (length l) + 1) as Hw by (apply wrap_u_small; unfold in_u; lia). rewrite Hw.
    assert ((numbered l ++ [partition_split topic id (Z.of_nat (length l))], Z.of_nat (length l) + 1) = numbered_state (l ++ [(topic, id)])) as Hst.
    { unfold numbered_state, numbered. rewrite imap_app, length_app. cbn. rewrite Nat.add_0_r. f_equal. lia. }
    rewrite Hst. unfold taken. rewrite fmap_cons. cbn [length]. rewrite length_fmap. destruct (Z.eqb_spec (Z.of_nat (length l) + 1) min_num_splits) as [He|He].
    + rewrite decide_True by lia. replace (Z.to_nat min_num_splits - length l)%nat with 1%nat by lia. done.
    + rewrite IH by (rewrite length_app; cbn; lia). unfold taken. rewrite length_app, length_fmap. cbn [length]. rewrite <- app_assoc. do 2 f_equal. cbn [app].
      repeat case_decide; try done; try lia. replace (Z.to_nat min_num_splits - length l)%nat with (S (Z.to_nat min_num_splits - (length l + 1)))%nat by lia. done.
Qed.

(** The outer loop. *)
Fixpoint collected (l : list (string * Z)) (topics : list string) : list (string * Z) :=
  match topics with [] => l | t :: topics => collected (l ++ taken l ((fun id => (t, id)) <$> parts t)) topics end.

Definition topic_step (consumer : KafkaClient) (s : list InputSplit * Z) (topic : string) : res string (list InputSplit * Z) :=
  let* metadata := map_err (fun e => "Failed to fetch metadata. " +:+ e) (fetch_metadata consumer topic) in
  let* partitions := ok_or (metadata !! 0%nat) ("Topic(" +:+ topic +:+ ") not found") in
  Ok (topic_splits min_num_splits topic partitions s).

Lemma length_taken l l' : (length (taken l l') <= length l')%nat.
Proof. unfold taken. case_decide; [rewrite length_take; lia|done]. Qed.

Lemma collected_spec consumer topics : forall l, Forall (fun t => exists rest, fetch_metadata consumer t = Ok (parts t :: rest)) topics ->
  Z.of_nat (length l) + Z.of_nat (length (pairs topics)) < 2 ^ 16 ->
  foldM (topic_step consumer) (numbered_state l) topics = Ok (numbered_state (collected l topics)).
Proof.
  induction topics as [|t topics IH]; intros l Hm Hl; [done|]. apply Forall_cons in Hm as [[rest Ht] Hm]. unfold pairs in Hl. rewrite bind_cons, length_app, length_fmap in Hl. fold (pairs topics) in Hl.
  cbn [foldM collected]. unfold topic_step at 1. rewrite Ht. cbn. rewrite topic_splits_spec by lia. apply IH; [done|].
  pose proof (length_taken l ((fun id => (t, id)) <$> parts t)) as Hlen. rewrite length_fmap in Hlen. rewrite length_app. lia.
Qed.

Lemma taken_all l l' : Z.of_nat (length l + length l') < min_num_splits \/ min_num_splits <= Z.of_nat (length l) -> taken l l' = l'.
Proof. intros H. unfold taken. by rewrite decide_False by lia. Qed.

Lemma collected_below topics : forall l, Z.of_nat (length l + length (pairs topics)) < min_num_splits -> collected l topics = l ++ pairs topics.
Proof.
  induction topics as [|t topics IH]; intros l Hl; [by rewrite app_nil_r|]. unfold pairs in *. rewrite bind_cons in *. rewrite length_app, length_fmap in Hl. cbn [collected].
  rewrite taken_all by (rewrite length_fmap; lia). rewrite IH by (rewrite length_app, length_fmap; lia). by rewrite app_assoc.
Qed.

Lemma collected_above topics : forall l, min_num_splits <= Z.of_nat (length l) -> collected l topics = l ++ pairs topics.
Proof.
  induction topics as [|t topics IH]; intros l Hl; [by rewrite app_nil_r|]. unfold pairs. rewrite bind_cons. cbn [collected].
  rewrite taken_all by lia. rewrite IH by (rewrite length_app; lia). by rewrite app_assoc.
Qed.

Lemma collected_app l ts1 ts2 : collected l (ts1 ++ ts2) = collected (collected l ts1) ts2.
Proof. revert l. induction ts1 as [|t ts1 IH]; intros l; [done|]. apply IH. Qed.

(** The topic in which the number is reached. *)
Lemma collected_reached ts1 t ts2 : Z.of_nat (length (pairs ts1)) < min_num_splits <= Z.of_nat (length (pairs (ts1 ++ [t]))) ->
  collected [] (ts1 ++ t :: ts2) = take (Z.to_nat min_num_splits) (pairs (ts1 ++ [t])) ++ pairs ts2.
Proof.
  intros H. unfold pairs in H. rewrite bind_app, length_app in H. cbn [mbind list_bind] in H. fold (pairs ts1) in H. rewrite app_nil_r, length_fmap in H. change (mbind _ ts1) with (pairs ts1) in H.
  rewrite collected_app, (collected_below ts1 []) by (cbn [length]; lia). cbn [app collected].
  unfold taken. rewrite decide_True by (rewrite length_fmap; lia). rewrite collected_above.
  2: { rewrite length_app, length_take, length_fmap. lia. }
  f_equal. unfold pairs. rewrite bind_app. cbn. rewrite app_nil_r. change (mbind _ ts1) with (pairs ts1). by rewrite take_app_ge by lia.
Qed.

Lemma splits_start k consumer : kafka_create (k_client_config k) = Ok consumer ->
  Forall (fun t => exists rest, fetch_metadata consumer t = Ok (parts t :: rest)) (k_topics k) -> Z.of_nat (length (pairs (k_topics k))) < 2 ^ 16 ->
  kafka_create_input_splits k min_num_splits =
    let input_splits := numbered (collected [] (k_topics k)) in
    let len := Z.of_nat (length input_splits) in
    if min_num_splits <? len then Err "kafka `input_splits.len()` != `min_num_splits`"
    else if len <? min_num_splits then
      if len =? 0 then Panic "attempt to divide by zero"
      else Ok (input_splits ++ concat (replicate (Z.to_nat ((min_num_splits + len - 1) / len - 1)) (not_a_connection <$> input_splits)))
    else Ok input_splits.
Proof.
  intros Hc Hm Hl. unfold kafka_create_input_splits. rewrite Hc. cbn [map_err mbind res_bind].
  pose proof (collected_spec consumer (k_topics k) [] Hm Hl) as Hcol. change (numbered_state []) with (@nil InputSplit, 0) in Hcol.
  unfold topic_step in Hcol. by rewrite Hcol.
Qed.

(** The splits a Kafka source makes, for a number of tasks asked for and partitions
    that are known. Without a partition it panics. With fewer partitions than asked for,
    every partition gets a split, and all of them are repeated, marked as needing no
    connection, until there are enough, which can be too many. Otherwise there is a topic
    in which the number is reached: if no later topic has a partition, the splits are
    those of the first partitions, as many as asked for, and the others are read by
    nobody; if one has, the source is refused. *)
Theorem kafka_splits k consumer : kafka_create (k_client_config k) = Ok consumer ->
  Forall (fun t => exists rest, fetch_metadata consumer t = Ok (parts t :: rest)) (k_topics k) ->
  let all := pairs (k_topics k) in let n := Z.of_nat (length all) in n < 2 ^ 16 ->
  (n = 0 -> kafka_create_input_splits k min_num_splits = Panic "attempt to divide by zero") /\
  (0 < n < min_num_splits -> exists times, times = (min_num_splits + n - 1) / n /\
     kafka_create_input_splits k min_num_splits = Ok (numbered all ++ concat (replicate (Z.to_nat (times - 1)) (not_a_connection <$> numbered all))) /\
     min_num_splits <= n * times < min_num_splits + n) /\
  (forall ts1 t ts2, k_topics k = ts1 ++ t :: ts2 -> Z.of_nat (length (pairs ts1)) < min_num_splits <= Z.of_nat (length (pairs (ts1 ++ [t]))) ->
     kafka_create_input_splits k min_num_splits =
       if decide (pairs ts2 = []) then Ok (numbered (take (Z.to_nat min_num_splits) all)) else Err "kafka `input_splits.len()` != `min_num_splits`").
Proof.
  intros Hc Hm all n Hn. pose proof (splits_start k consumer Hc Hm Hn) as Hs. cbv zeta in Hs. rewrite length_numbered in Hs. split_and!.
  - intros H0. rewrite collected_below in Hs by (cbn [length]; fold all; lia). cbn [app] in Hs. fold all in Hs. fold n in Hs. rewrite Hs, H0.
    destruct (Z.ltb_spec min_num_splits 0); [lia|]. by destruct (Z.ltb_spec 0 min_num_splits); [|lia].
  - intros H0. eexists. split; [done|]. rewrite collected_below in Hs by (cbn [length]; fold all; lia). cbn [app] in Hs. fold all in Hs. fold n in Hs. rewrite Hs.
    destruct (Z.ltb_spec min_num_splits n); [lia|]. destruct (Z.ltb_spec n min_num_splits); [|lia]. destruct (Z.eqb_spec n 0); [lia|]. split; [done|].
    pose proof (Z.div_mod (min_num_splits + n - 1) n ltac:(lia)). pose proof (Z.mod_pos_bound (min_num_splits + n - 1) n ltac:(lia)). lia.
  - intros ts1 t ts2 Hk Hr. rewrite Hk, collected_reached in Hs by done. rewrite Hs, length_app, length_take. case_decide as Ht.
    + rewrite Ht, app_nil_r. cbn [length]. destruct (Z.ltb_spec min_num_splits (Z.of_nat (Z.to_nat min_num_splits `min` length (pairs (ts1 ++ [t])) + 0))); [lia|].
      destruct (Z.ltb_spec (Z.of_nat (Z.to_nat min_num_splits `min` length (pairs (ts1 ++ [t])) + 0)) min_num_splits); [lia|]. do 3 f_equal.
      unfold all. rewrite Hk. replace (ts1 ++ t :: ts2) with ((ts1 ++ [t]) ++ ts2) by (by rewrite <- app_assoc). unfold pairs. rewrite (bind_app _ (ts1 ++ [t])).
      fold (pairs ts2). change (mbind _ ts2) with (pairs ts2). by rewrite Ht, app_nil_r.
    + assert (length (pairs ts2) <> 0%nat) by (by destruct (pairs ts2)).
      destruct (Z.ltb_spec min_num_splits (Z.of_nat (Z.to_nat min_num_splits `min` length (pairs (ts1 ++ [t])) + length (pairs ts2)))); [done|lia].
Qed.
End splits.
End source.

(** ** Examples *)

(** A client library in which every request succeeds and every topic has three partitions. *)
Definition ex_kafka : RdKafka := {|
  ClientConfig := list (string * string);
  cc_new := [];
  cc_set := fun k v c => (k, v) :: c;
  cc_get := fun k c => snd <$> List.find (fun kv => bool_decide (kv.1 = k)) c;
  KafkaClient := unit;
  kafka_create := fun _ => Ok tt;
  raw_offset_end := -1;
  TopicPartitionList := string * Z * Z;
  add_partition_offset := fun t p o => Ok (t, p, o);
  assign := fun _ _ => Ok tt;
  request_offset_for_time := fun _ _ _ t => Ok (Some (Some t));
  fetch_metadata := fun _ _ => Ok [[0; 1; 2]]
|}.

Lemma topic_no_comma s : topic_name s = true -> split comma s = [s].
Proof.
  induction s as [|a s IH]; [done|]. cbn [topic_name split]. intros [Ha Hs]%andb_true_iff. rewrite decide_False by (intros ->; done). by rewrite IH.
Qed.

(** A text form of the snapshots that is read back. *)
Definition ex_json : OffsetJson.
Proof.
  refine {|
    snapshot_to_json := fun s => os_topic s +:+ String comma (pretty (os_partition s) +:+ String comma (match os_offset s with Some o => pretty o | None => "" end));
    snapshot_from_json := fun text =>
      match split comma text with
      | [t; p; o] =>
          let* p := int_from_str t_i32 p in
          if decide (o = "") then Ok (mkOffsetSnapshot t p None) else let* o := int_from_str t_i64 o in Ok (mkOffsetSnapshot t p (Some o))
      | _ => Err "syntax"
      end
  |}.
  intros [t p o] (Ht & Hp & Ho). cbn [os_topic os_partition os_offset] in *. rewrite split_app by (by apply topic_no_comma). rewrite split_app by apply pretty_no_comma.
  assert (split comma (match o with Some o => pretty o | None => "" end) = [match o with Some o => pretty o | None => "" end]) as ->.
  { destruct o; [apply pretty_no_comma|done]. }
  rewrite int_roundtrip. 2: { unfold in_type. cbn. rewrite andb_true_iff, Z.leb_le, Z.ltb_lt. exact Hp. }
  cbn [mbind res_bind]. destruct o as [o|]; [|done]. specialize (Ho o eq_refl). pose proof (int_roundtrip t_i64 o (in_type_i64 o Ho)) as Hr.
  destruct (decide _) as [E|E]; [|by rewrite Hr]. by rewrite E in Hr.
Defined.

#[local] Existing Instances ex_kafka ex_json ListDag id_order list_buffer.

(** Every message gives two records. *)
Definition ex_records (m : Message) : list record :=
  [set_values (0 :: default [] (m_payload m)) Record_new; set_values (1 :: default [] (m_payload m)) Record_new].

Definition ex_deserializer : KafkaRecordDeserializer :=
  mkDeserializer unit (fun d _ _ payload _ _ _ => Ok ([set_values (0 :: payload) Record_new; set_values (1 :: payload) Record_new], d)).

Definition ex_source (range : OffsetRange) : KafkaInputFormat :=
  KafkaInputFormat_new [] ["clicks"] 10 range (mkDeserializerBuilder ex_deserializer tt FnSchema_Empty) 1 "source".

Definition ex_message (o : Z) : Message := mkMessage "clicks" 2 o None None (Some [o]).

Definition ex_log : list Message := ex_message <$> [5; 7; 9].

Definition ex_split : InputSplit := partition_split "clicks" 2 0.

Definition ex_context (h : option CheckpointHandle) : FunctionContext :=
  mkFunctionContext "app" Properties_new 0 (mkTaskId 1 0 1) 4 None h FnSchema_Empty FnSchema_Empty [] [].

Definition ex_thread : KafkaConsumerThread ex_deserializer :=
  KafkaConsumerThread_new ex_deserializer 1 0 [] (mkConsumerRange "clicks" 2 5 None) tt.

(** Three of the records have gone through the channel. *)
Definition ex_polled : list ConsumerRecord := take 3 (ex_log ≫= tagged ex_records).

Definition ex_chan : St (T := ConsumerRecord) := mkSt (mkChannel Unbounded 10 [] 0 3 3) [S_Idle] [R_Idle] ex_polled ex_polled.

Lemma ex_chan_reached : rtc cstep (St_init 10 Unbounded 1 1) ex_chan.
Proof.
  unfold ex_chan. change ex_polled with ([] ++ [default end_marker (ex_polled !! 0%nat)] ++ [default end_marker (ex_polled !! 1%nat)] ++ [default end_marker (ex_polled !! 2%nat)]).
  do 3 (eapply rtc_l; [eapply (step_send _ _ _ _ _ 0); reflexivity|]; eapply rtc_l; [eapply (step_push _ _ _ _ _ 0); reflexivity|];
    eapply rtc_l; [eapply (step_sent _ _ _ _ _ 0); reflexivity|]; eapply rtc_l; [eapply (step_pop _ _ _ _ _ 0); reflexivity|];
    eapply rtc_l; [eapply (step_drained _ _ _ _ _ 0); reflexivity|]). apply rtc_refl.
Qed.

Definition ex_recorder : KafkaSourceStateRecorder := mkRecorder "clicks" 2 7.

Lemma ex_log_ok : log_ok "clicks" 2 ex_log.
Proof. split; repeat constructor; cbn; lia. Qed.

Lemma ex_stateless : stateless ex_deserializer ex_records.
Proof. intros d m. by exists d. Qed.

Lemma ex_no_empty : no_empty ex_records.
Proof. intros m r Hr. unfold ex_records in Hr. rewrite !elem_of_cons in Hr. destruct Hr as [->|[->|Hr]]; [done..|]. by apply not_elem_of_nil in Hr. Qed.

Lemma ex_run : task_run (ex_source OffsetRange_None) "clicks" 2 ex_log 5 (cr_record <$> ex_polled) ex_recorder.
Proof.
  apply (task_run_intro (ex_source OffsetRange_None) "clicks" 2 ex_log 5 ex_thread (inl <$> ex_log) ex_thread (ex_log ≫= tagged ex_records) 10 ex_chan
    (Recorder_new "clicks" 2) (cr_record <$> ex_polled) ex_recorder false); try done.
  - apply ex_chan_reached.
  - exists (drop 3 (ex_log ≫= tagged ex_records)). symmetry. apply take_drop.
  - by left.
Qed.

Lemma kafka_restart_witness :
  exists b' k2 t2 l1 R2,
    kafka_open (ex_source OffsetRange_None) ex_split (ex_context (Some (mkHandle (recorder_snapshot ex_recorder)))) = Ok (k2, t2) /\
    thread_ok ex_deserializer t2 /\ ct_consumer_ranges ex_deserializer t2 = mkConsumerRange "clicks" 2 b' None /\
    record_iter k2 = Ok (Handover_new 10, ex_recorder) /\ sr_offset ex_recorder = b' /\
    log_from 5 ex_log = l1 ++ log_from b' ex_log /\ cr_record <$> ex_polled = records ex_records l1 ++ R2 /\
    (R2 = [] \/ exists m l, log_from b' ex_log = m :: l /\ R2 `prefix_of` ex_records m) /\
    (forall s, messages s `prefix_of` log_from b' ex_log ->
       exists t' produced r', consume ex_deserializer t2 s = Ok (t', produced) /\ iterate ex_recorder produced = (records ex_records (messages s), r', false)).
Proof.
  apply (kafka_restart (ex_source OffsetRange_None) ex_records "clicks" 2 ex_log ex_stateless ex_no_empty ex_log_ok 5 (cr_record <$> ex_polled) ex_recorder ex_split
    (ex_context (Some (mkHandle (recorder_snapshot ex_recorder))))).
  - lia.
  - exact ex_run.
  - vm_compute. discriminate.
  - reflexivity.
  - split; vm_compute; reflexivity.
  - vm_compute. reflexivity.
  - unfold in_i. lia.
  - reflexivity.
  - reflexivity.
Defined.

(** A range with an end: from offset 5 to offset 7 of partition 2. *)
Definition ex_ranges (o : Z) : gmap string (list PartitionOffset) := {["clicks" := [mkPartitionOffset 0 0; mkPartitionOffset 1 0; mkPartitionOffset 2 o]]}.

Lemma kafka_direct_range_witness :
  exists k2 t2, kafka_open (ex_source (Direct (ex_ranges 5) (Some (ex_ranges 7)))) ex_split (ex_context (Some (mkHandle (recorder_snapshot ex_recorder)))) = Ok (k2, t2) /\
    ct_consumer_ranges ex_deserializer t2 = mkConsumerRange "clicks" 2 5 (Some 7) /\
    forall s r, messages s `prefix_of` log_from 5 ex_log -> exists t' produced r',
      consume ex_deserializer t2 s = Ok (t', produced) /\
      iterate r produced = (records ex_records (filter (fun m => 5 <= m_offset m <= 7) (messages s)), r', existsb (fun m => 7 <? m_offset m) (messages s)).
Proof.
  apply (kafka_direct_range (ex_source (Direct (ex_ranges 5) (Some (ex_ranges 7)))) ex_records "clicks" 2 ex_log ex_stateless ex_no_empty ex_log_ok
    (ex_ranges 5) (ex_ranges 7) ex_split (ex_context (Some (mkHandle (recorder_snapshot ex_recorder)))) (mkKafkaCheckpoint (Some ex_recorder) "app" (mkTaskId 1 0 1) "clicks" 2)
    [mkPartitionOffset 0 0; mkPartitionOffset 1 0; mkPartitionOffset 2 5] [mkPartitionOffset 0 0; mkPartitionOffset 1 0; mkPartitionOffset 2 7] 5 7).
  - reflexivity.
  - split; vm_compute; reflexivity.
  - vm_compute. reflexivity.
  - lia.
  - reflexivity.
  - reflexivity.
  - reflexivity.
  - reflexivity.
Defined.

(** The end of the range is noticed by the message behind it only. *)
Lemma ex_end_late :
  (iterate ex_recorder <$> (snd <$> consume ex_deserializer (KafkaConsumerThread_new ex_deserializer 1 0 [] (mkConsumerRange "clicks" 2 5 (Some 7)) tt) (inl <$> take 2 ex_log))) =
    Ok (records ex_records (take 2 ex_log), mkRecorder "clicks" 2 7, false).
Proof. vm_compute. reflexivity. Qed.

(** Three partitions for two tasks: the third partition is read by nobody. For seven
    tasks: nine splits. *)
Lemma ex_splits :
  (let* l := kafka_create_input_splits (ex_source OffsetRange_None) 2 in Ok (split_number <$> l)) = Ok [0; 1] /\
  (let* l := kafka_create_input_splits (ex_source OffsetRange_None) 7 in Ok (length l)) = Ok 9%nat.
Proof. split; vm_compute; reflexivity. Qed.

Lemma kafka_splits_witness :
  let k := ex_source OffsetRange_None in let all := pairs (fun _ => [0; 1; 2]) (k_topics k) in let n := Z.of_nat (length all) in
  (n = 0 -> kafka_create_input_splits k 6 = Panic "attempt to divide by zero") /\
  (0 < n < 6 -> exists times, times = (6 + n - 1) / n /\
     kafka_create_input_splits k 6 = Ok (numbered all ++ concat (replicate (Z.to_nat (times - 1)) (not_a_connection <$> numbered all))) /\
     6 <= n * times < 6 + n) /\
  (forall ts1 t ts2, k_topics k = ts1 ++ t :: ts2 -> Z.of_nat (length (pairs (fun _ => [0; 1; 2]) ts1)) < 6 <= Z.of_nat (length (pairs (fun _ => [0; 1; 2]) (ts1 ++ [t]))) ->
     kafka_create_input_splits k 6 =
       if decide (pairs (fun _ => [0; 1; 2]) ts2 = []) then Ok (numbered (take (Z.to_nat 6) all)) else Err "kafka `input_splits.len()` != `min_num_splits`").
Proof.
  intros k. refine (kafka_splits (fun _ => [0; 1; 2]) 6 _ k tt eq_refl _ _).
  - lia.
  - constructor; [|constructor]. by exists [].
  - vm_compute. reflexivity.
Defined.
