(* ===== verification/KafkaSink.v ===== *)
(** * KafkaSink: writing records to Kafka

    src/rlink-connectors/connector-kafka/src/sink/: the sink puts every record on a
    channel; a thread of its own takes them off in rounds of at most 3000, hands them to
    the producer of the client library, waits for the deliveries and counts what was
    delivered and what was not. The producer is the class [RdProducer].

    The lemmas say that every record a round takes is counted once, as drained or as
    discarded, and when a round panics. *)
From Stdlib Require Import ZArith Lia.
From stdpp Require Import base strings pretty numbers option sets gmap list.
From S2P Require Import Prelude Bytes Channel Properties Runtime Element KafkaOffsets KafkaSource.

#[local] Open Scope Z_scope.

Definition SINK_CHANNEL_SIZE : Z := 50000.

(** ** The builder *)
Record KafkaOutputFormatBuilder := mkOutputBuilder { ob_conf_map : gmap string string; ob_topics : option string; ob_buffer_size : option Z }.

Definition KafkaOutputFormatBuilder_new (conf_map : gmap string string) (topics : option string) : KafkaOutputFormatBuilder := mkOutputBuilder conf_map topics None.

Definition set_output_buffer_size (size : Z) (b : KafkaOutputFormatBuilder) : KafkaOutputFormatBuilder := mkOutputBuilder (ob_conf_map b) (ob_topics b) (Some size).

Definition KafkaOutputFormatBuilder_try_from `{HashOrder} (p : Properties) : res string KafkaOutputFormatBuilder :=
  let kafka_properties := to_sub_properties KAFKA p in
  let* _ := get_string BOOTSTRAP_SERVERS kafka_properties in
  let client_config := p_map kafka_properties in
  let* topic := match get_string TOPICS p with
                | Ok topics =>
                    match split comma (trim topics) with
                    | [topic] => Ok (Some topic)
                    | _ => Panic "only one topic support in kafka sink"
                    end
                | _ => Ok None
                end in
  let buffer_size := match get_usize BUFFER_SIZE p with Ok size => size | _ => SINK_CHANNEL_SIZE end in
  Ok (set_output_buffer_size buffer_size (KafkaOutputFormatBuilder_new client_config topic)).

Section sink.
Context {SB : SerBuffer} {RK : RdKafka} {KM : KafkaMessageGen}.

Record KafkaOutputFormat := mkOutputFormat {
  of_client_config : ClientConfig;
  of_topic : option string;
  of_buffer_size : Z;
  of_handover : option (Channel (T := record))
}.

Definition KafkaOutputFormat_new (client_config : ClientConfig) (topic : option string) (buffer_size : Z) : KafkaOutputFormat :=
  mkOutputFormat client_config topic buffer_size None.

Definition output_builder_build `{HashOrder} (b : KafkaOutputFormatBuilder) : KafkaOutputFormat :=
  let client_config := foldl (fun c kv => cc_set kv.1 kv.2 c) cc_new (hiter (ob_conf_map b)) in
  let buffer_size := default SOURCE_CHANNEL_SIZE (ob_buffer_size b) in
  KafkaOutputFormat_new client_config (ob_topics b) buffer_size.

(** ** The producer *)
Record FutureRecord := mkFutureRecord { fr_topic : string; fr_payload : list Z; fr_timestamp : Z; fr_key : list Z }.

Class RdProducer := {
  Producer : Type;
  producer_create : ClientConfig -> res string Producer;
  Delivery : Type;
  send_result : Producer -> FutureRecord -> Producer * (Delivery + string);
  producer_flush : Producer -> Producer;
  (** Waiting for a delivery: delivered, or an error of the broker or of the client. *)
  await_delivery : Producer -> Delivery -> Producer * bool
}.

Context {RP : RdProducer}.

Record KafkaProducerThread := mkProducerThread {
  pt_topic : option string;
  pt_producer : Producer;
  pt_drain_counter : Z;
  pt_discard_counter : Z
}.

Definition KafkaProducerThread_new (topic : option string) (client_config : ClientConfig) : res string KafkaProducerThread :=
  match producer_create client_config with
  | Ok producer => Ok (mkProducerThread topic producer 0 0)
  | _ => Panic "Consumer creation failed"
  end.

(** [open] of the sink: its channel, and the producer whose thread it starts. *)
Definition sink_open (o : KafkaOutputFormat) : KafkaOutputFormat * res string KafkaProducerThread :=
  (mkOutputFormat (of_client_config o) (of_topic o) (of_buffer_size o) (Some (Handover_new (of_buffer_size o))),
   KafkaProducerThread_new (of_topic o) (of_client_config o)).

(** One record of a round: the message it holds, given to the producer. *)
Definition send_record (topic : option string) (producer : Producer) (r : record) : res string (Producer * (Delivery + string)) :=
  let* m := unwrap "called `Result::unwrap()` on an `Err` value" (entity_parse (r_values r)) in
  let topic := default (e_topic m) topic in
  if decide (topic = "") then Panic "topic not found in `KafkaRecord`"
  else Ok (send_result producer (mkFutureRecord topic (e_payload m) (e_timestamp m) (e_key m))).

(** The polling loop: [polled] is what [try_poll_next] gives before it finds the channel
    empty. *)
Fixpoint send_batch (topic : option string) (batch : nat) (polled : list record) (producer : Producer) (future_queue : list Delivery) (discard_counter : Z)
    : res string (Producer * list Delivery * Z) :=
  match batch, polled with
  | S batch, r :: polled =>
      let* (producer, result) := send_record topic producer r in
      match result with
      | inl delivery_future => send_batch topic batch polled producer (future_queue ++ [delivery_future]) discard_counter
      | inr _ => send_batch topic batch polled producer future_queue (discard_counter + 1)
      end
  | _, _ => Ok (producer, future_queue, discard_counter)
  end.

(** Waiting for the deliveries: the producer, how many were delivered, how many were not. *)
Definition await_all (future_queue : list Delivery) (s : Producer * Z * Z) : Producer * Z * Z :=
  foldl (fun '(producer, drain, discard) future =>
    let '(producer, delivered) := await_delivery producer future in
    if delivered : bool then (producer, drain + 1, discard) else (producer, drain, discard + 1)) s future_queue.

Definition BATCH : nat := 3000.

(** A round of [run]; the idle counter and its sleeps only delay the next one. *)
Definition producer_round (t : KafkaProducerThread) (polled : list record) : res string KafkaProducerThread :=
  let* (producer, future_queue, discard) := send_batch (pt_topic t) BATCH polled (pt_producer t) [] 0 in
  let '(producer, drain, discard) :=
    if decide (future_queue = []) then (producer, 0, discard)
    else await_all future_queue (producer_flush producer, 0, discard) in
  Ok (mkProducerThread (pt_topic t) producer (pt_drain_counter t +u64 drain) (pt_discard_counter t +u64 discard)).

(** ** What a round counts *)

(** The record can be sent: it parses and a topic is known. *)
Definition sendable (topic : option string) (r : record) : Prop :=
  exists m, entity_parse (r_values r) = Some m /\ default (e_topic m) topic <> "".

Lemma send_batch_counts topic polled : forall batch producer q d, (length polled <= batch)%nat -> Forall (sendable topic) polled ->
  exists producer' q' d', send_batch topic batch polled producer q d = Ok (producer', q', d') /\
    Z.of_nat (length q') + d' = Z.of_nat (length q) + d + Z.of_nat (length polled).
Proof.
  induction polled as [|r polled IH]; intros batch producer q d Hb Hp.
  - exists producer, q, d. destruct batch; split; try done; cbn; lia.
  - destruct batch as [|batch]; [cbn in Hb; lia|]. apply Forall_cons in Hp as [(m & Hm & Ht) Hp]. cbn [send_batch]. unfold send_record. rewrite Hm. cbn [unwrap mbind res_bind].
    rewrite decide_False by done. cbn [mbind res_bind]. destruct (send_result producer _) as [producer' [future|e]].
    + destruct (IH batch producer' (q ++ [future]) d) as (p' & q' & d' & -> & Hc); [cbn in Hb; lia|done|]. exists p', q', d'. split; [done|]. rewrite Hc, length_app. cbn. lia.
    + destruct (IH batch producer' q (d + 1)) as (p' & q' & d' & -> & Hc); [cbn in Hb; lia|done|]. exists p', q', d'. split; [done|]. rewrite Hc. cbn. lia.
Qed.

Lemma await_all_counts q : forall s, let r := await_all q s in r.1.2 + r.2 = s.1.2 + s.2 + Z.of_nat (length q).
Proof.
  unfold await_all. induction q as [|d q IH]; intros [[p drain] discard]; cbn [foldl]; [cbn; lia|]. destruct (await_delivery p d) as [p' []]; rewrite IH; cbn; lia.
Qed.

(** Every record of a round is counted once, as drained or as discarded. *)
Lemma producer_round_counts t polled : (length polled <= BATCH)%nat -> Forall (sendable (pt_topic t)) polled ->
  exists t' drain discard, producer_round t polled = Ok t' /\ pt_topic t' = pt_topic t /\
    pt_drain_counter t' = pt_drain_counter t +u64 drain /\ pt_discard_counter t' = pt_discard_counter t +u64 discard /\ drain + discard = Z.of_nat (length polled).
Proof.
  intros Hb Hp. unfold producer_round. destruct (send_batch_counts (pt_topic t) polled BATCH (pt_producer t) [] 0 Hb Hp) as (p & q & d & -> & Hc). cbn [mbind res_bind].
  case_decide as Hq.
  - subst q. eexists _, 0, d. split; [done|]. split_and!; done.
  - pose proof (await_all_counts q (producer_flush p, 0, d)) as Ha. destruct (await_all q _) as [[p' drain] discard]. cbn in Ha.
    eexists _, drain, discard. split; [done|]. split_and!; try done. cbn in Hc. lia.
Qed.

(** A record without a topic, for a sink without one, ends the thread. *)
Lemma producer_round_no_topic t r polled m : pt_topic t = None -> entity_parse (r_values r) = Some m -> e_topic m = "" ->
  producer_round t (r :: polled) = Panic "topic not found in `KafkaRecord`".
Proof. intros Ht Hm He. unfold producer_round. destruct BATCH as [|n] eqn:E; [discriminate E|]. cbn [send_batch]. unfold send_record. rewrite Hm, Ht. cbn. by rewrite He. Qed.
End sink.
