(* ===== verification/Timer.v ===== *)
(** * Timer: the window timer

    src/rlink/src/runtime/timer.rs: one thread looks every two seconds at the timers that
    have been registered, and notifies each, over a channel of its own, of the window the
    current time is in, when that is another window than at the last look. The barriers
    of the checkpoints are sent on these notifications.

    The theorem follows one timer through any sequence of looks and receives. *)
From Stdlib Require Import ZArith Lia Sorted.
From stdpp Require Import base strings numbers option list sorting.
From S2P Require Import Prelude Channel Properties.

#[local] Open Scope Z_scope.

(** ** Timers; durations are in nanoseconds *)
Record TimerChannel := mkTimer {
  tc_name : string;
  tc_chan : Channel (T := Z);
  tc_interval : Z;
  tc_front_window : Z
}.

Definition TimerChannel_new (name : string) (interval : Z) : TimerChannel :=
  mkTimer name (named_channel_with_base 1 Unbounded) interval 0.

(** [recv], when there is something to receive. *)
Definition timer_recv (t : TimerChannel) : TimerChannel * option Z :=
  let '(c, x) := try_recv (tc_chan t) in (mkTimer (tc_name t) c (tc_interval t) (tc_front_window t), x).

Abbreviation TimerRegister := (Channel (T := TimerChannel)).

(** [WindowTimer::register]: [None] when the register is full. *)
Definition register (name : string) (interval : Z) (r : TimerRegister) : TimerRegister * option TimerChannel :=
  let timer_channel := TimerChannel_new name interval in
  match try_send_opt r timer_channel with
  | (r, None) => (r, Some timer_channel)
  | (r, Some _) => (r, None)
  end.

Definition timer_window_start {E} (timestamp window_size : Z) : res E Z :=
  let timestamp := wrap_i 64 timestamp in
  let window_size := wrap_i 64 window_size in
  let* r := rem_i64 (timestamp +i64 window_size) window_size in
  Ok (wrap_u 64 (timestamp -i64 r)).

(** The body of the loop of [check_window]; the count of full channels is only logged. *)
Definition check_timer {E} (ts : Z) (t : TimerChannel) : res E TimerChannel :=
  let* window_start := timer_window_start ts (wrap_u 64 (as_millis (tc_interval t))) in
  if negb (window_start =? tc_front_window t) then
    let '(c, _) := try_send_opt (tc_chan t) window_start in
    Ok (mkTimer (tc_name t) c (tc_interval t) window_start)
  else Ok t.

Definition check_window {E} (ts : Z) (timer_channels : list TimerChannel) : res E (list TimerChannel) :=
  foldM (fun done t => let* t := check_timer ts t in Ok (done ++ [t])) [] timer_channels.

(** A round of the timer's thread: take over the new timers, then look at all of them. *)
Fixpoint take_registered (fuel : nat) (r : TimerRegister) (timer_channels : list TimerChannel) : TimerRegister * list TimerChannel :=
  match fuel with
  | O => (r, timer_channels)
  | S fuel => match try_recv r with
              | (r, Some t) => take_registered fuel r (timer_channels ++ [t])
              | (r, None) => (r, timer_channels)
              end
  end.

Record WindowTimer := mkWindowTimer { wt_register : TimerRegister; wt_timers : list TimerChannel }.

Definition start_window_timer : WindowTimer := mkWindowTimer (named_channel_with_base 1000 Unbounded) [].

Definition timer_round {E} (ts : Z) (w : WindowTimer) : res E WindowTimer :=
  let '(r, timers) := take_registered (S (length (c_queue (wt_register w)))) (wt_register w) (wt_timers w) in
  let* timers := check_window ts timers in
  Ok (mkWindowTimer r timers).

(** ** The windows *)
Definition start_of (size ts : Z) : Z := size * (ts / size).

Lemma timer_window_start_value {E} ts size : 0 <= ts < 2 ^ 62 -> 0 < size < 2 ^ 62 -> timer_window_start (E := E) ts size = Ok (start_of size ts).
Proof.
  intros Ht Hs. unfold timer_window_start. rewrite (wrap_i64_small ts), (wrap_i64_small size), (wrap_i64_small (ts + size)) by lia. unfold rem_i64.
  destruct (Z.eqb_spec size 0); [lia|]. destruct (Z.eqb_spec size (-1)); [lia|]. cbn [andb mbind res_bind]. rewrite Z.rem_mod_nonneg by lia.
  replace (ts + size) with (ts + 1 * size) by lia. rewrite Z.mod_add by lia. pose proof (Z.mod_pos_bound ts size ltac:(lia)). pose proof (Z.mod_le ts size ltac:(lia) ltac:(lia)).
  rewrite wrap_i64_small, wrap_u64_small by lia. unfold start_of. f_equal. pose proof (Z.div_mod ts size ltac:(lia)). lia.
Qed.

(** An interval below a millisecond stops the thread. *)
Lemma no_millis_panics {E} ts t : as_millis (tc_interval t) = 0 -> exists p, check_timer (E := E) ts t = Panic p.
Proof. intros H. unfold check_timer. rewrite H. cbn. eauto. Qed.

(** ** One timer over time *)
Inductive TimerEvent : Type := Tick (ts : Z) | Recv.

Definition timer_event {E} (s : TimerChannel * list Z) (e : TimerEvent) : res E (TimerChannel * list Z) :=
  match e with
  | Tick ts => let* t := check_timer ts s.1 in Ok (t, s.2)
  | Recv => let '(t, x) := timer_recv s.1 in Ok (t, s.2 ++ option_list x)
  end.

Definition ticks (es : list TimerEvent) : list Z := omap (fun e => match e with Tick ts => Some ts | Recv => None end) es.

(** The windows of the looks, each once, after the window [front]. *)
Fixpoint starts (size front : Z) (ts : list Z) : list Z :=
  match ts with
  | [] => []
  | t :: ts => if start_of size t =? front then starts size front ts else start_of size t :: starts size (start_of size t) ts
  end.

Definition front_after (size front : Z) (ts : list Z) : Z := match last ts with Some t => start_of size t | None => front end.

Lemma starts_snoc size front ts t : starts size front (ts ++ [t]) =
  starts size front ts ++ (if start_of size t =? front_after size front ts then [] else [start_of size t]).
Proof.
  revert front. induction ts as [|x ts IH]; intros front; cbn [app starts]; [unfold front_after; cbn; by case_match|].
  assert (forall f, front_after size (start_of size x) ts = front_after size f (x :: ts)) as Hf.
  { intros f. unfold front_after. rewrite last_cons. by destruct (last ts). }
  destruct (Z.eqb_spec (start_of size x) front) as [<-|].
  - rewrite IH. by rewrite (Hf (start_of size x)).
  - rewrite IH, (Hf front). done.
Qed.

Lemma starts_sorted size front ts : 0 < size -> Forall (fun t => front <= t) ts -> (size | front) -> StronglySorted Z.le ts ->
  StronglySorted Z.lt (starts size front ts) /\ Forall (fun w => front < w) (starts size front ts).
Proof.
  intros Hs. revert front. induction ts as [|t ts IH]; intros front Hf [k Hk] Hsort; [by repeat constructor|]. cbn [starts].
  apply Forall_cons in Hf as [Ht Hf]. apply StronglySorted_inv in Hsort as [Hsort Hall].
  assert (front <= start_of size t) as Hle. { unfold start_of. subst front. rewrite (Z.mul_comm k). apply Z.mul_le_mono_nonneg_l; [lia|]. apply Z.div_le_lower_bound; lia. }
  destruct (Z.eqb_spec (start_of size t) front) as [E|Hne]; [apply IH; [done|by exists k|done]|].
  assert (start_of size t <= t) as Hst by (unfold start_of; apply Z.mul_div_le; lia).
  destruct (IH (start_of size t)) as [H1 H2].
  - rewrite Forall_forall in *. intros x Hx. specialize (Hall x Hx). lia.
  - exists (t / size). unfold start_of. lia.
  - done.
  - split; [by constructor|]. constructor; [lia|]. eapply Forall_impl; [exact H2|]. cbn. lia.
Qed.

Lemma StronglySorted_sublist {A} (R : A -> A -> Prop) l1 l2 : StronglySorted R l2 -> l1 `sublist_of` l2 -> StronglySorted R l1.
Proof.
  intros Hs Hsub. induction Hsub as [|x l1 l2 Hsub IH|x l1 l2 Hsub IH]; [done| |]; apply StronglySorted_inv in Hs as [Hs Hall]; [|by apply IH].
  constructor; [by apply IH|]. rewrite Forall_forall in *. intros y Hy. apply Hall. by apply (elem_of_sublist _ _ _ Hy Hsub).
Qed.

(** ** What holds of a timer at any time *)
Section timer.
Context (name : string) (interval : Z).

Abbreviation size := (as_millis interval).

Record timer_inv (es : list TimerEvent) (s : TimerChannel * list Z) : Prop := {
  ti_interval : tc_interval s.1 = interval;
  ti_chan : c_base_on (tc_chan s.1) = Unbounded /\ c_cap (tc_chan s.1) = 1;
  ti_size : c_size (tc_chan s.1) = Z.of_nat (length (c_queue (tc_chan s.1)));
  ti_queue : (length (c_queue (tc_chan s.1)) <= 2)%nat;
  ti_front : tc_front_window s.1 = front_after size 0 (ticks es);
  ti_sent : s.2 ++ c_queue (tc_chan s.1) `sublist_of` starts size 0 (ticks es)
}.

Context (Hsize : 0 < size < 2 ^ 62).

Lemma timer_inv_init : timer_inv [] (TimerChannel_new name interval, []).
Proof. split; cbn; try done; lia. Qed.

Lemma try_send_small (c : Channel (T := Z)) w : c_base_on c = Unbounded -> c_cap c = 1 -> c_size c = Z.of_nat (length (c_queue c)) -> (length (c_queue c) <= 2)%nat ->
  try_send_opt c w = if decide (length (c_queue c) <= 1)%nat then (sent (push w c), None) else (c, Some w).
Proof.
  intros Hb Hc Hs Hq. unfold try_send_opt, send_at_once, has_slot. rewrite Hb, Hc, Hs, bool_decide_true by done. change (wrap_i 64 1) with 1. cbn [andb negb].
  case_decide; destruct (Z.ltb_spec 1 (Z.of_nat (length (c_queue c)))); try lia; done.
Qed.

Lemma timer_inv_tick {E} es s ts : 0 <= ts < 2 ^ 62 -> timer_inv es s ->
  exists t, check_timer (E := E) ts s.1 = Ok t /\ timer_inv (es ++ [Tick ts]) (t, s.2) /\
    c_queue (tc_chan t) = c_queue (tc_chan s.1) ++
      (if decide (start_of size ts <> tc_front_window s.1 /\ (length (c_queue (tc_chan s.1)) <= 1)%nat) then [start_of size ts] else []).
Proof.
  intros Ht [Hi [Hb Hc] Hs Hq Hf Hsent]. unfold check_timer. rewrite Hi, wrap_u64_small by lia. rewrite timer_window_start_value by done. cbn [mbind res_bind].
  assert (ticks (es ++ [Tick ts]) = ticks es ++ [ts]) as Htick by (unfold ticks; by rewrite omap_app).
  assert (front_after size 0 (ticks es ++ [ts]) = start_of size ts) as Hfront by (unfold front_after; by rewrite last_snoc).
  destruct (Z.eqb_spec (start_of size ts) (tc_front_window s.1)) as [E1|E1]; cbn [negb].
  - exists s.1. split; [done|]. rewrite decide_False by naive_solver. rewrite app_nil_r. split; [|done]. split; try done; rewrite ?Htick.
    + rewrite Hfront. by rewrite E1.
    + rewrite starts_snoc, <- Hf, E1, Z.eqb_refl, app_nil_r. done.
  - rewrite try_send_small by done. case_decide as Hlen.
    + eexists. split; [done|]. rewrite decide_True by done. split; [|done]. split; cbn; try done; rewrite ?length_app, ?Htick; cbn.
      * rewrite Hs, wrap_i64_small by lia. lia.
      * lia.
      * done.
      * rewrite starts_snoc, <- Hf. rewrite (proj2 (Z.eqb_neq _ _)) by done. rewrite app_assoc. by apply sublist_app.
    + eexists. split; [done|]. rewrite decide_False by lia. rewrite app_nil_r. split; [|done]. split; cbn; try done; rewrite ?Htick; [done|].
      rewrite starts_snoc. by apply sublist_inserts_r.
Qed.

Lemma timer_inv_recv es s : timer_inv es s -> timer_inv (es ++ [Recv]) ((timer_recv s.1).1, s.2 ++ option_list (timer_recv s.1).2).
Proof.
  intros [Hi [Hb Hc] Hs Hq Hf Hsent]. assert (ticks (es ++ [Recv]) = ticks es) as Htick by (unfold ticks; rewrite omap_app; cbn; by rewrite app_nil_r).
  unfold timer_recv, try_recv, pop. destruct (c_queue (tc_chan s.1)) as [|w q] eqn:Eq; cbn.
  - split; cbn; rewrite ?Htick, ?Eq, ?app_nil_r; try done; cbn; try lia. by rewrite app_nil_r in Hsent.
  - cbn in *. split; cbn; rewrite ?Htick; try done; try lia.
    + rewrite Hs, wrap_i64_small by lia. lia.
    + by rewrite <- app_assoc.
Qed.

Lemma timer_run_inv {E} es : Forall (fun ts => 0 <= ts < 2 ^ 62) (ticks es) ->
  exists s, foldM (timer_event (E := E)) (TimerChannel_new name interval, []) es = Ok s /\ timer_inv es s.
Proof.
  induction es as [|e es IH] using rev_ind; intros Hes; [exists (TimerChannel_new name interval, []); split; [done|apply timer_inv_init]|].
  unfold ticks in Hes. rewrite omap_app, Forall_app in Hes. destruct Hes as [Hes He]. destruct (IH Hes) as (s & Hrun & Hinv). rewrite foldM_app, Hrun. cbn [mbind res_bind foldM].
  destruct e as [ts|]; cbn [timer_event].
  - apply Forall_inv in He. destruct (timer_inv_tick (E := E) es s ts He Hinv) as (t & -> & Ht & _). cbn. eauto.
  - pose proof (timer_inv_recv es s Hinv) as Ht. destruct (timer_recv s.1) as [t x]. eauto.
Qed.

End timer.

(** ** Examples *)

(** Every second; looks every two seconds; nobody receives: the third window is left out. *)
Definition ex_events : list TimerEvent := [Tick 10500; Tick 12500; Tick 14500; Recv; Tick 14900; Tick 16500].


Lemma ex_left_out :
  (let* s := foldM (timer_event (E := string)) (TimerChannel_new "t" (10 ^ 9), []) ex_events in Ok (s.2 ++ c_queue (tc_chan s.1))) = Ok [10000; 12000; 16000].
Proof. vm_compute. reflexivity. Qed.

Lemma ex_round :
  (let* w := timer_round (E := string) 5000 (mkWindowTimer (register "t" (10 ^ 9) (wt_register start_window_timer)).1 []) in
   Ok (length (c_queue (wt_register w)), (fun t => c_queue (tc_chan t)) <$> wt_timers w)) = Ok (0%nat, [[5000]]).
Proof. vm_compute. reflexivity. Qed.
