(* ===== verification/Functions.v ===== *)
(** * Functions: the functions that come with the library

    src/rlink/src/functions/: a source over a vector, the flat maps that spread records
    over the tasks behind them, the filter on windows, the timestamp assigner and the key
    selector on the columns of a schema, and the sink that prints.

    The theorems say that the tasks of a vector source share the data out, how round
    robin spreads records, and which columns a key has. *)
From Stdlib Require Import ZArith Lia.
From stdpp Require Import base strings pretty numbers option sets gmap list.
From S2P Require Import Prelude Bytes Properties Runtime Window Graph Schema Element Percentile SchemaReduce.
From S2P Require Import WorkerTask KafkaOffsets.

#[local] Open Scope Z_scope.

Section functions.
Context {SB : SerBuffer} {DA : DagApi}.

(** ** The source over a vector *)

(** The closure of [vec_source]; a remainder by zero panics. *)
Definition vec_task_data {E} (data : list record) (task_id : TaskId) : res E (list record) :=
  if num_tasks task_id =? 1 then Ok data
  else if (num_tasks task_id =? 0) && negb (bool_decide (data = [])) then Panic "attempt to calculate the remainder with a divisor of zero"
  else Ok (omap (fun '(index, r) => if wrap_u 16 (Z.of_nat index) mod num_tasks task_id =? task_number task_id then Some r else None) (imap pair data)).

Record IteratorInputFormat := mkIteratorInputFormat {
  ii_parallelism : Z;
  ii_vec_builder : option (InputSplit -> FunctionContext -> res string (list record));
  ii_schema : Schema;
  ii_input_split : option InputSplit;
  ii_context : option FunctionContext
}.

Definition IteratorInputFormat_new (vec_builder : InputSplit -> FunctionContext -> res string (list record)) (schema : Schema) (parallelism : Z) : IteratorInputFormat :=
  mkIteratorInputFormat parallelism (Some vec_builder) schema None None.

Definition vec_source (data : list record) (schema : Schema) (parallelism : Z) : IteratorInputFormat :=
  IteratorInputFormat_new (fun _ context => vec_task_data data (fc_task_id context)) schema parallelism.

Definition iterator_open (f : IteratorInputFormat) (input_split : InputSplit) (context : FunctionContext) : IteratorInputFormat :=
  mkIteratorInputFormat (ii_parallelism f) (ii_vec_builder f) (ii_schema f) (Some input_split) (Some context).

(** [record_iter]: the builder, the split and the context are taken. *)
Definition iterator_record_iter (f : IteratorInputFormat) : res string (list record * IteratorInputFormat) :=
  let* vec_builder := unwrap "called `Option::unwrap()` on a `None` value" (ii_vec_builder f) in
  let* input_split := unwrap "called `Option::unwrap()` on a `None` value" (ii_input_split f) in
  let* context := unwrap "called `Option::unwrap()` on a `None` value" (ii_context f) in
  let* records := vec_builder input_split context in
  Ok (records, mkIteratorInputFormat (ii_parallelism f) None (ii_schema f) None None).

(** ** Round robin and broadcast *)
Record RoundRobinFlagMapFunction := mkRoundRobin { rr_child_job_parallelism : Z; rr_partition_num : Z }.

Definition RoundRobin_new : RoundRobinFlagMapFunction := mkRoundRobin 0 0.

Definition round_robin_open (f : RoundRobinFlagMapFunction) (context : FunctionContext) : RoundRobinFlagMapFunction :=
  mkRoundRobin (wrap_u 16 (Z.of_nat (length (fc_children context)))) (rr_partition_num f).

Definition round_robin_flat_map (f : RoundRobinFlagMapFunction) (r : record) : RoundRobinFlagMapFunction * list record :=
  let partition_num := if rr_partition_num f =? rr_child_job_parallelism f then 0 else rr_partition_num f in
  (mkRoundRobin (rr_child_job_parallelism f) (partition_num +u16 1), [record_set_partition partition_num r]).

Record BroadcastFlagMapFunction := mkBroadcast { bc_child_job_parallelism : Z }.

Definition Broadcast_new : BroadcastFlagMapFunction := mkBroadcast 0.

Definition broadcast_open (context : FunctionContext) : BroadcastFlagMapFunction := mkBroadcast (wrap_u 16 (Z.of_nat (length (fc_children context)))).

Definition broadcast_flat_map (f : BroadcastFlagMapFunction) (r : record) : list record :=
  (fun partition_num => record_set_partition partition_num r) <$> seqZ 0 (bc_child_job_parallelism f).

(** ** The filter on windows *)
Record RangeWindowFilter := mkRangeFilter { rf_window_start_timestamp : Z; rf_window_stop_timestamp : Z }.

Definition range_filter (f : RangeWindowFilter) (r : record) : bool :=
  match r_trigger_window r with
  | Some window => negb ((min_timestamp window <? rf_window_start_timestamp f) || (rf_window_stop_timestamp f <? max_timestamp window))
  | None => true
  end.

Definition RangeWindowFilter_try_from (p : Properties) : RangeWindowFilter :=
  let begin := match get_u64 "begin" p with Ok v => v | _ => 0 end in
  let end_ := match get_u64 "end" p with Ok v => v | _ => U64_MAX end in
  mkRangeFilter begin end_.

(** ** The timestamp in a column *)
Section columns.
Context {ST : SerTypes} {SC : SerColumns}.

Record SchemaTimestampAssigner := mkAssigner { ta_schema : Schema; ta_column_locate : ColumnLocate; ta_column_index : nat }.

Definition SchemaTimestampAssigner_new (column : ColumnLocate) : SchemaTimestampAssigner := mkAssigner Schema_empty column 0.

Definition assigner_open {E} (a : SchemaTimestampAssigner) (input_schema : FnSchema) : res E SchemaTimestampAssigner :=
  let* schema := fn_schema_first input_schema in
  let* (index, _) := to_column (ta_column_locate a) schema in
  Ok (mkAssigner schema (ta_column_locate a) index).

Definition assigner_extract_timestamp {E} (a : SchemaTimestampAssigner) (row : record) (previous_element_timestamp : Z) : res E Z :=
  match buf_get (type_ids (ta_schema a)) (r_values row) (ta_column_index a) DT_UInt64 with
  | Some (V_Int _ z) => Ok z
  | _ => Panic "called `Result::unwrap()` on an `Err` value"
  end.

(** ** The key of columns *)

(** The bytes of a column ([get_bytes_raw]), and a buffer made of such
    ([set_bytes_raw] for each): columns copied to columns of their types keep their values. *)
Class SerRawColumns := {
  Raw : Type;
  raw_get : list Z -> Buffer -> nat -> option Raw;
  raw_write : list Z -> list Raw -> option Buffer;
  raw_copy : forall types b (cols : list (nat * Value)),
    Forall (fun c => types !! c.1 = Some (data_type_id (value_type c.2)) /\ buf_get types b c.1 (value_type c.2) = Some c.2) cols ->
    exists raws kb, mapM (raw_get types b) cols.*1 = Some raws /\
      raw_write ((fun c => data_type_id (value_type c.2)) <$> cols) raws = Some kb /\
      forall i c, cols !! i = Some c -> buf_get ((fun c => data_type_id (value_type c.2)) <$> cols) kb i (value_type c.2) = Some c.2
}.

Context {SR : SerRawColumns}.

Record SchemaKeySelector := mkKeySelector {
  ks_schema : Schema;
  ks_key_schema : Schema;
  ks_column_locates : list ColumnLocate;
  ks_columns : list nat
}.

Definition SchemaKeySelector_new (columns : list ColumnLocate) : SchemaKeySelector := mkKeySelector Schema_empty Schema_empty columns [].

Definition key_column {E} (k : SchemaKeySelector) (schema : Schema) : res E (list nat * list Field) :=
  foldM (fun s column_locate => let* (index, field) := to_column column_locate schema in Ok (s.1 ++ [index], s.2 ++ [field])) ([], []) (ks_column_locates k).

Definition key_schema {E} (k : SchemaKeySelector) (input_schema : FnSchema) : res E FnSchema :=
  let* schema := into_single input_schema in
  let* (_, fs) := key_column k schema in
  let key_schema := Schema_new fs in
  if schema_is_empty key_schema then Panic "key not found" else Ok (FnSchema_Single key_schema).

Definition key_selector_open {E} (k : SchemaKeySelector) (input_schema : FnSchema) : res E SchemaKeySelector :=
  let* schema := fn_schema_first input_schema in
  let* key_fn_schema := key_schema k (FnSchema_Single schema) in
  let* key_schema := into_single key_fn_schema in
  let* (columns, _) := key_column k schema in
  Ok (mkKeySelector schema key_schema (ks_column_locates k) columns).

Definition selector_get_key {E} (k : SchemaKeySelector) (r : record) : res E record :=
  let* raws := unwrap "called `Result::unwrap()` on an `Err` value" (mapM (raw_get (type_ids (ks_schema k)) (r_values r)) (ks_columns k)) in
  let* values := unwrap "called `Result::unwrap()` on an `Err` value" (raw_write (type_ids (ks_key_schema k)) raws) in
  Ok (set_values values Record_new).
End columns.

(** ** The sink that prints *)
Section print.
Context {ST : SerTypes} {SC : SerColumns}.

(** How values and times are written. *)
Context (show : Value -> string) (show_binary : list Z -> string) (fmt_date_time : Z -> string).

Record PrintOutputFormat := mkPrint { pr_task_id : TaskId; pr_schema : Schema; pr_header : string; pr_laster_print_timestamp : Z }.

Definition PrintOutputFormat_new : PrintOutputFormat := mkPrint TaskId_default Schema_empty "" 0.

Definition print_open {E} (p : PrintOutputFormat) (task_id : TaskId) (input_schema : FnSchema) : res E PrintOutputFormat :=
  let* schema := into_single input_schema in
  let field_names := imap (fun index field => pretty (Z.of_nat index) +:+ ":" +:+ f_name field) (fields schema) in
  Ok (mkPrint task_id schema (join "|" field_names) (pr_laster_print_timestamp p)).

(** The getter used for a column of a type. *)
Definition print_getter (t : DataType) : DataType := match t with DT_UInt16 => DT_Int16 | DT_Binary => DT_String | t => t end.

Definition print_field {E} (p : PrintOutputFormat) (r : record) (i : nat) (f : Field) : res E string :=
  let get t := buf_get (type_ids (pr_schema p)) (r_values r) i t in
  match get (print_getter (f_data_type f)), f_data_type f with
  | Some v, _ => Ok (show v)
  | None, DT_Binary =>
      match get DT_Binary with
      | Some (V_Binary l) => Ok (show_binary l)
      | _ => Panic "called `Result::unwrap()` on an `Err` value"
      end
  | None, _ => Panic "called `Result::unwrap()` on an `Err` value"
  end.

(** [write_record]: the lines it prints at the time [current_timestamp]. *)
Definition print_record {E} (p : PrintOutputFormat) (r : record) (current_timestamp : Z) : res E (PrintOutputFormat * list string) :=
  let* field_strs := foldM (fun acc x => let* s := print_field p r x.1 x.2 in Ok (acc ++ [s])) [] (imap pair (fields (pr_schema p))) in
  let window_str := match r_trigger_window r with
                    | Some w => "[" +:+ fmt_date_time (min_timestamp w) +:+ ", " +:+ fmt_date_time (max_timestamp w) +:+ "]"
                    | None => ""
                    end in
  let header := if 3000 <? current_timestamp -u64 pr_laster_print_timestamp p then ["task_number|window[start,end]|" +:+ pr_header p] else [] in
  let body := pretty (task_number (pr_task_id p)) +:+ ", " +:+ window_str +:+ ", " +:+ join ", " field_strs in
  Ok (mkPrint (pr_task_id p) (pr_schema p) (pr_header p) current_timestamp, header ++ [body]).
End print.

(** ** The data of a vector source, shared out *)
Lemma bind_one {A} (k : Z) (a : A) (g : Z -> list A) ts : NoDup ts -> k ∈ ts -> (ts ≫= fun t => if k =? t then a :: g t else g t) ≡ₚ a :: (ts ≫= g).
Proof.
  induction 1 as [|t ts Hout Hnd IH]; intros Hk; [by apply not_elem_of_nil in Hk|]. cbn. destruct (Z.eqb_spec k t) as [->|Hne].
  - cbn. f_equiv. f_equiv. assert (forall ts', t ∉ ts' -> (ts' ≫= fun x => if t =? x then a :: g x else g x) = ts' ≫= g) as Hsame; [|by rewrite Hsame].
    clear. induction ts' as [|x ts' IH]; intros Hx; [done|]. cbn. rewrite not_elem_of_cons in Hx. destruct (Z.eqb_spec t x); [naive_solver|]. by rewrite IH by naive_solver.
  - apply elem_of_cons in Hk as [|Hk]; [done|]. rewrite IH by done. by rewrite Permutation_middle.
Qed.

Lemma share_out {A} n (l : list (Z * A)) : Forall (fun x => 0 <= x.1 < n) l ->
  (seqZ 0 n ≫= fun t => omap (fun x => if x.1 =? t then Some x.2 else None) l) ≡ₚ l.*2.
Proof.
  induction 1 as [|[k a] l Hk Hl IH].
  - cbn. by induction (seqZ 0 n).
  - rewrite fmap_cons. cbn [snd]. rewrite <- IH, <- (bind_one k a) by (apply NoDup_seqZ || apply elem_of_seqZ; cbn in Hk; lia). apply reflexive_eq, list_bind_ext; [|done]. intros t. cbn. by destruct (k =? t).
Qed.

Lemma omap_sublist {A B} (f : A -> option B) (g : A -> B) l : (forall x y, f x = Some y -> y = g x) -> omap f l `sublist_of` (g <$> l).
Proof.
  intros Hf. induction l as [|x l IH]; [done|]. cbn. destruct (f x) as [y|] eqn:E; [rewrite (Hf _ _ E); by apply sublist_skip|by apply sublist_cons].
Qed.

Lemma snd_imap_pair {A} (l : list A) : snd <$> imap pair l = l.
Proof. rewrite fmap_imap. apply list_eq. intros i. rewrite list_lookup_imap. by destruct (l !! i). Qed.

Lemma concat_fmap {A B} (f : A -> list B) l : concat (f <$> l) = l ≫= f.
Proof. induction l as [|x l IH]; [done|]. cbn. by f_equal. Qed.

(** The tasks of a vector source share its data out: every task gets part of the data,
    in order, and all of them together get every record exactly once, however long the
    data is (the index wraps at 16 bits). *)
Theorem vec_source_shares {E} data job n : 1 <= n < 2 ^ 16 ->
  exists parts, Forall2 (fun t part => vec_task_data (E := E) data (mkTaskId job t n) = Ok part /\ part `sublist_of` data) (seqZ 0 n) parts /\ concat parts ≡ₚ data.
Proof.
  intros Hn. destruct (decide (n = 1)) as [->|Hne].
  - exists [data]. split; [|cbn; by rewrite app_nil_r]. constructor; [done|constructor].
  - set (l := (fun '(index, r) => (wrap_u 16 (Z.of_nat index) mod n, r)) <$> imap pair data : list (Z * record)).
    set (part t := omap (fun x => if x.1 =? t then Some x.2 else None) l). exists (part <$> seqZ 0 n). split.
    + rewrite Forall2_fmap_r. apply Forall_Forall2_diag, Forall_forall. intros t _. unfold vec_task_data. cbn [num_tasks task_number].
      rewrite (proj2 (Z.eqb_neq n 1)), (proj2 (Z.eqb_neq n 0)) by lia. cbn [andb]. split.
      * f_equal. unfold part, l. apply list_omap_ext. rewrite Forall2_fmap_r. apply Forall_Forall2_diag, Forall_forall. by intros [i r] _.
      * etransitivity; [apply (omap_sublist _ snd)|]; [intros [k r] y; cbn; case_match; naive_solver|]. unfold l.
        rewrite <- list_fmap_compose. rewrite <- (snd_imap_pair data) at 2. erewrite list_fmap_ext; [done|]. by intros i [].
    + rewrite concat_fmap. unfold part. rewrite share_out.
      * unfold l. rewrite <- list_fmap_compose. rewrite <- (snd_imap_pair data) at 2. erewrite list_fmap_ext; [done|]. by intros i [].
      * unfold l. rewrite Forall_fmap. apply Forall_forall. intros [i r] _. cbn. apply Z.mod_pos_bound. lia.
Qed.

(** ** Round robin *)
Definition round_robin_run (f : RoundRobinFlagMapFunction) (rs : list record) : RoundRobinFlagMapFunction * list record :=
  foldl (fun s r => let '(f, out) := round_robin_flat_map s.1 r in (f, s.2 ++ out)) (f, []) rs.

(** Round robin over the tasks behind it: of any number of records, the i-th goes,
    unchanged otherwise, to task i modulo the number of tasks. *)
Theorem round_robin_spreads context rs : let n := Z.of_nat (length (fc_children context)) in 1 <= n < 2 ^ 16 ->
  (round_robin_run (round_robin_open RoundRobin_new context) rs).2 = imap (fun i r => record_set_partition (Z.of_nat i mod n) r) rs.
Proof.
  intros n Hn. assert (exists p, (round_robin_run (round_robin_open RoundRobin_new context) rs).1 = mkRoundRobin n p /\ 0 <= p <= n /\ p mod n = Z.of_nat (length rs) mod n /\
    (round_robin_run (round_robin_open RoundRobin_new context) rs).2 = imap (fun i r => record_set_partition (Z.of_nat i mod n) r) rs) as (p & _ & _ & _ & H); [|exact H].
  assert (wrap_u 16 n = n) as Hw by (apply wrap_u_small; unfold in_u; lia).
  induction rs as [|r rs (p & H1 & Hp & Hmod & H2)] using rev_ind.
  - exists 0. unfold round_robin_run, round_robin_open. cbn. fold n. rewrite Hw. split_and!; try done; lia.
  - unfold round_robin_run in *. rewrite foldl_app. cbn [foldl]. unfold round_robin_flat_map at 1 3. rewrite H1, H2. cbn [fst snd rr_partition_num rr_child_job_parallelism].
    rewrite imap_app, length_app. cbn [imap length]. cbn.
    assert ((if p =? n then 0 else p) = Z.of_nat (length rs + 0) mod n) as Hpart.
    { rewrite Nat.add_0_r, <- Hmod. destruct (Z.eqb_spec p n) as [->|]; [by rewrite Z.mod_same by lia|]. rewrite Z.mod_small by lia. done. }
    rewrite Hpart. pose proof (Z.mod_pos_bound (Z.of_nat (length rs + 0)) n ltac:(lia)) as Hb.
    exists ((Z.of_nat (length rs + 0)) mod n + 1). rewrite wrap_u_small by (unfold in_u; lia). split_and!; try done; try lia.
    rewrite Z.add_mod_idemp_l by lia. f_equal. lia.
Qed.

(** ** Columns *)
Section column_lemmas.
Context {ST : SerTypes} {SC : SerColumns}.

(** A record with a value of its type in every column of the schema. *)
Definition row_of (s : Schema) (vs : list Value) (r : record) : Prop :=
  Forall2 (fun f v => value_type v = f_data_type f) (fields s) vs /\ buf_write (type_ids s) vs = Some (r_values r).

Lemma row_get s vs r i v : schema_wf s -> row_of s vs r -> vs !! i = Some v -> buf_get (type_ids s) (r_values r) i (value_type v) = Some v.
Proof.
  intros [Hids Hf] [Hvs Hw] Hv. destruct (buf_write_get (type_ids s) vs) as (b & Hb & Hget); [|rewrite Hb in Hw; injection Hw as <-; by apply Hget].
  rewrite Hids, Forall2_fmap_l. rewrite Forall_forall in Hf. apply Forall2_same_length_lookup. split; [by eapply Forall2_length|]. intros j f w Hj Hw'. cbn.
  rewrite (Forall2_lookup_lr _ _ _ _ _ _ Hvs Hj Hw'). destruct (Hf f) as [_ ->]; [by eapply list_elem_of_lookup_2|done].
Qed.

Lemma assigner_extracts {E} c s vs r t i f previous : schema_wf s -> row_of s vs r -> to_column (E := E) c s = Ok (i, f) -> vs !! i = Some (V_Int DT_UInt64 t) ->
  exists a, assigner_open (E := E) (SchemaTimestampAssigner_new c) (FnSchema_Single s) = Ok a /\ assigner_extract_timestamp (E := E) a r previous = Ok t.
Proof.
  intros Hs Hr Hc Hv. unfold assigner_open. cbn [fn_schema_first mbind res_bind ta_column_locate SchemaTimestampAssigner_new]. rewrite Hc. cbn [mbind res_bind]. eexists. split; [done|].
  unfold assigner_extract_timestamp. cbn. pose proof (row_get s vs r i _ Hs Hr Hv) as Hg. cbn in Hg. by rewrite Hg.
Qed.

Context {SR : SerRawColumns}.

Lemma key_column_spec {E} k s sel : Forall2 (fun c x => to_column (E := E) c s = Ok x) (ks_column_locates k) sel -> key_column (E := E) k s = Ok (sel.*1, sel.*2).
Proof.
  unfold key_column. intros H. assert (forall a b, foldM (fun s0 column_locate => let* (index, field) := to_column (E := E) column_locate s in Ok (s0.1 ++ [index], s0.2 ++ [field])) (a, b)
    (ks_column_locates k) = Ok (a ++ sel.*1, b ++ sel.*2)) as Hgo; [|apply Hgo].
  induction H as [|c [i f] cs sel Hc _ IH]; intros a b; cbn [foldM]; [by rewrite !app_nil_r|]. rewrite Hc. cbn [mbind res_bind fst snd]. rewrite IH, !fmap_cons, <- !app_assoc. done.
Qed.

Lemma Forall_choice {A B} (R : A -> B -> Prop) l : Forall (fun x => exists y, R x y) l -> exists k, Forall2 R l k.
Proof. induction 1 as [|x l [y Hy] _ [k Hk]]; [by exists []|]. exists (y :: k). by constructor. Qed.

(** C34: The key selector on columns: when every column it names is there, and at least
    one, it opens, and the key of a row is a record whose columns are the named columns
    of the row, in the order they are named, under the schema it announces. *)
Theorem schema_key_spec {E} locates s vs r sel : schema_wf s -> row_of s vs r -> sel <> [] ->
  Forall2 (fun c x => to_column (E := E) c s = Ok x) locates sel ->
  exists k key, key_selector_open (E := E) (SchemaKeySelector_new locates) (FnSchema_Single s) = Ok k /\ selector_get_key (E := E) k r = Ok key /\
    key_schema (E := E) (SchemaKeySelector_new locates) (FnSchema_Single s) = Ok (FnSchema_Single (ks_key_schema k)) /\
    forall i idx f, sel !! i = Some (idx, f) -> exists v, vs !! idx = Some v /\ fields (ks_key_schema k) !! i = Some f /\
      buf_get (type_ids (ks_key_schema k)) (r_values key) i (value_type v) = Some v.
Proof.
  intros Hs Hr Hsel Hcols. pose proof (key_column_spec (SchemaKeySelector_new locates) s sel Hcols) as Hkc.
  assert (key_schema (E := E) (SchemaKeySelector_new locates) (FnSchema_Single s) = Ok (FnSchema_Single (Schema_new sel.*2))) as Hks.
  { unfold key_schema. cbn [into_single mbind res_bind]. rewrite Hkc. cbn [mbind res_bind]. destruct sel as [|[i f] sel]; done. }
  assert (exists cols, Forall2 (fun (x : nat * Field) (c : nat * Value) => c.1 = x.1 /\ vs !! x.1 = Some c.2 /\ value_type c.2 = f_data_type x.2 /\ f_type_id x.2 = data_type_id (value_type c.2) /\
      type_ids s !! x.1 = Some (data_type_id (value_type c.2))) sel cols) as [cols Hsc].
  { apply Forall_choice. clear -Hcols Hr Hs. induction Hcols as [|c [i f] cs sel Hc _ IH]; constructor; [|apply IH].
    apply to_column_field in Hc. destruct Hr as [Hvs _]. destruct (Forall2_lookup_l _ _ _ _ _ Hvs Hc) as (v & Hv & Hty). exists (i, v). cbn.
    destruct Hs as [Hids Hf]. rewrite Forall_forall in Hf. destruct (Hf f) as [_ Hid]; [by eapply list_elem_of_lookup_2|].
    split_and!; try done; [by rewrite Hid, Hty|]. rewrite Hids, list_lookup_fmap, Hc. cbn. by rewrite Hid, Hty. }
  assert (cols.*1 = sel.*1) as Hfst by (clear -Hsc; induction Hsc as [|x c sel cols [Hx _] _ IH]; [done|]; rewrite !fmap_cons; f_equal; done).
  assert ((fun c => data_type_id (value_type c.2)) <$> cols = f_type_id <$> sel.*2) as Hids by (clear -Hsc; induction Hsc as [|x c sel cols (_ & _ & _ & H & _) _ IH]; [done|]; rewrite !fmap_cons; f_equal; done).
  destruct (raw_copy (type_ids s) (r_values r) cols) as (raws & kb & Hraws & Hkb & Hget).
  { apply Forall_forall. intros c [j Hj]%list_elem_of_lookup. destruct (Forall2_lookup_r _ _ _ _ _ Hsc Hj) as (x & _ & Hx & Hv & _ & _ & Hid). rewrite Hx. split; [done|]. by eapply row_get. }
  eexists (mkKeySelector s (Schema_new sel.*2) locates sel.*1), (set_values kb Record_new). split_and!.
  - unfold key_selector_open. cbn [fn_schema_first mbind res_bind]. rewrite Hks. cbn [mbind res_bind into_single]. by rewrite Hkc.
  - unfold selector_get_key. cbn [ks_schema ks_columns ks_key_schema Schema_new type_ids]. rewrite <- Hfst, Hraws. cbn [unwrap mbind res_bind]. by rewrite <- Hids, Hkb.
  - done.
  - intros i idx f Hi. destruct (Forall2_lookup_l _ _ _ _ _ Hsc Hi) as (c & Hc & Hx & Hv & _). cbn in Hx, Hv. exists c.2. split_and!; [done| |].
    + cbn. by rewrite list_lookup_fmap, Hi.
    + cbn [Schema_new type_ids ks_key_schema]. rewrite <- Hids. by apply Hget.
Qed.
End column_lemmas.
End functions.

(** ** Examples *)
#[local] Existing Instances ListDag ex_buffer ex_types ex_columns.

Definition ex_records (n : nat) : list record := (fun i => set_values ([Z.of_nat i], []) Record_new) <$> seq 0 n.

Lemma vec_source_shares_witness :
  exists parts, Forall2 (fun t part => vec_task_data (E := string) (ex_records 5) (mkTaskId 1 t 2) = Ok part /\ part `sublist_of` ex_records 5) (seqZ 0 2) parts /\
    concat parts ≡ₚ ex_records 5.
Proof. apply (vec_source_shares (ex_records 5) 1 2). lia. Defined.

Definition ex_node (n : Z) : ExecutionGraph.ExecutionNode := ExecutionGraph.mkExecutionNode (mkTaskId 2 n 3) [] InputSplit_default false.

Definition ex_fn_context : FunctionContext :=
  mkFunctionContext "app" Properties_new 0 (mkTaskId 1 0 1) 0 None None FnSchema_Empty FnSchema_Empty
    ((fun n => (ex_node n, EE_Network)) <$> [0; 1; 2]) [].

Lemma round_robin_spreads_witness :
  (round_robin_run (round_robin_open RoundRobin_new ex_fn_context) (ex_records 5)).2 = imap (fun i r => record_set_partition (Z.of_nat i mod 3) r) (ex_records 5).
Proof. apply (round_robin_spreads ex_fn_context (ex_records 5)). cbn. lia. Defined.

(** Without a task behind it round robin counts on, past every task. *)
Lemma ex_no_children : r_partition_num <$> (round_robin_run RoundRobin_new (ex_records 4)).2 = [0; 1; 2; 3].
Proof. vm_compute. reflexivity. Qed.

Definition ex_raw : SerRawColumns.
Proof.
  refine {| Raw := Value; raw_get := fun _ b k => b.2 !! k; raw_write := fun _ raws => Some (([] : list Z, raws) : Buffer) |}.
  intros types b cols Hcols. exists cols.*2, ([], cols.*2). split_and!; [|done|].
  - apply mapM_Some. rewrite Forall2_fmap. apply Forall_Forall2_diag. eapply Forall_impl; [exact Hcols|]. intros [k v] [_ Hk]. cbn in *.
    destruct (b.2 !! k) as [w|]; cbn in *; [|done]. case_decide; [|done]. by injection Hk as ->.
  - intros i c Hc. cbn. rewrite list_lookup_fmap, Hc. cbn. by rewrite decide_True.
Defined.

#[local] Existing Instance ex_raw.

Definition ex_key_row : record := set_values ([], ex_row 7 9) Record_new.

Lemma schema_key_spec_witness :
  exists k key, key_selector_open (E := string) (SchemaKeySelector_new [CL_Name "n"; CL_Index 0]) (FnSchema_Single ex_schema) = Ok k /\ selector_get_key (E := string) k ex_key_row = Ok key /\
    key_schema (E := string) (SchemaKeySelector_new [CL_Name "n"; CL_Index 0]) (FnSchema_Single ex_schema) = Ok (FnSchema_Single (ks_key_schema k)) /\
    forall i idx f, [(1%nat, Field_new "n" DT_Int64); (0%nat, Field_new "key" DT_UInt8)] !! i = Some (idx, f) ->
      exists v, ex_row 7 9 !! idx = Some v /\ fields (ks_key_schema k) !! i = Some f /\
      buf_get (type_ids (ks_key_schema k)) (r_values key) i (value_type v) = Some v.
Proof.
  apply (schema_key_spec [CL_Name "n"; CL_Index 0] ex_schema (ex_row 7 9) ex_key_row).
  - apply Schema_new_wf. repeat constructor.
  - split; [repeat constructor|reflexivity].
  - discriminate.
  - repeat constructor.
Defined.
