(* ===== verification/Metrics.v ===== *)
(** * Metrics: counters and gauges and their export

    src/rlink/src/metrics/metric.rs: a counter or a gauge is a handle on a shared cell; a
    registry keeps, under name and tags, the cell of the handle given out last. An export
    hands on, for every counter, by how much it has grown since the export before, and
    the value of every gauge. A process sets its manager id before it registers anything.

    The cells are a store; the handles are indices into it. The theorem says that the
    exported increments add up to the counter. *)
From Stdlib Require Import ZArith Lia.
From stdpp Require Import base countable strings numbers option sets gmap list.
From S2P Require Import Prelude.

#[local] Open Scope Z_scope.

Record Tag := mkTag { tag_field : string; tag_context : string }.

#[global] Instance Tag_eq_dec : EqDecision Tag.
Proof. solve_decision. Defined.
#[global] Instance Tag_countable : Countable Tag.
Proof. refine (inj_countable' (fun t => (tag_field t, tag_context t)) (fun p => mkTag p.1 p.2) _). by intros []. Defined.

Record KeyTags := mkKeyTags { kt_name : string; kt_tags : list Tag }.

#[global] Instance KeyTags_eq_dec : EqDecision KeyTags.
Proof. solve_decision. Defined.
#[global] Instance KeyTags_countable : Countable KeyTags.
Proof. refine (inj_countable' (fun t => (kt_name t, kt_tags t)) (fun p => mkKeyTags p.1 p.2) _). by intros []. Defined.

(** Handles: [Counter] and [Gauge]. *)
Abbreviation Counter := nat.
Abbreviation Gauge := nat.

Record CounterMeta := mkCounterMeta { cm_key_tags : KeyTags; cm_old_value : Z; cm_value : Counter }.
Record GaugeMeta := mkGaugeMeta { gm_key_tags : KeyTags; gm_value : Gauge }.

(** The registry with the cells of all handles ever given out, and the manager id. *)
Record Recorder := mkRecorder {
  counter_cells : list Z;
  gauge_cells : list Z;
  counters_map : gmap KeyTags CounterMeta;
  gauges_map : gmap KeyTags GaugeMeta;
  manager_id : option string
}.

Definition Recorder_new : Recorder := mkRecorder [] [] ∅ ∅ None.

(** ** Handles *)
Definition counter_fetch_add (c : Counter) (v : Z) (r : Recorder) : Recorder :=
  mkRecorder (alter (fun x => x +u64 v) c (counter_cells r)) (gauge_cells r) (counters_map r) (gauges_map r) (manager_id r).

Definition counter_load (c : Counter) (r : Recorder) : option Z := counter_cells r !! c.

Definition set_gauge_cells (cells : list Z) (r : Recorder) : Recorder :=
  mkRecorder (counter_cells r) cells (counters_map r) (gauges_map r) (manager_id r).

Definition gauge_store (g : Gauge) (v : Z) (r : Recorder) : Recorder := set_gauge_cells (alter (fun _ => v) g (gauge_cells r)) r.
Definition gauge_fetch_add (g : Gauge) (v : Z) (r : Recorder) : Recorder := set_gauge_cells (alter (fun x => x +i64 v) g (gauge_cells r)) r.
Definition gauge_fetch_sub (g : Gauge) (v : Z) (r : Recorder) : Recorder := set_gauge_cells (alter (fun x => x -i64 v) g (gauge_cells r)) r.
Definition gauge_load (g : Gauge) (r : Recorder) : option Z := gauge_cells r !! g.

(** ** The registry *)
Definition recorder_register_counter (name : string) (tags : list Tag) (r : Recorder) : Recorder * Counter :=
  let value := length (counter_cells r) in
  let key_tags := mkKeyTags name tags in
  let meta := mkCounterMeta key_tags 0 value in
  (mkRecorder (counter_cells r ++ [0]) (gauge_cells r) (<[key_tags := meta]> (counters_map r)) (gauges_map r) (manager_id r), value).

Definition recorder_register_gauge (name : string) (tags : list Tag) (r : Recorder) : Recorder * Gauge :=
  let value := length (gauge_cells r) in
  let key_tags := mkKeyTags name tags in
  let meta := mkGaugeMeta key_tags value in
  (mkRecorder (counter_cells r) (gauge_cells r ++ [0]) (counters_map r) (<[key_tags := meta]> (gauges_map r)) (manager_id r), value).

Section export.
Context {HO : HashOrder}.

(** What a handle points to; every handle in the registry is in the store. *)
Definition cell (cells : list Z) (i : nat) : Z := default 0 (cells !! i).

(** [RecorderRaw::counters]: the growth of every counter; the values become the old ones. *)
Definition raw_counters (r : Recorder) : list (KeyTags * Z) * Recorder :=
  ((fun kv => (cm_key_tags kv.2, cell (counter_cells r) (cm_value kv.2) -u64 cm_old_value kv.2)) <$> hiter (counters_map r),
   mkRecorder (counter_cells r) (gauge_cells r)
     ((fun m => mkCounterMeta (cm_key_tags m) (cell (counter_cells r) (cm_value m)) (cm_value m)) <$> counters_map r) (gauges_map r) (manager_id r)).

(** [RecorderRaw::guavas]. *)
Definition raw_gauges (r : Recorder) : list (KeyTags * Z) :=
  (fun kv => (gm_key_tags kv.2, cell (gauge_cells r) (gm_value kv.2))) <$> hiter (gauges_map r).

(** [MetricsExporter]: name, value and labels, as they go to the metrics crate. *)
Definition render (l : list (KeyTags * Z)) : list (string * Z * list (string * string)) :=
  (fun kv => (kt_name kv.1, kv.2, (fun t => (tag_field t, tag_context t)) <$> kt_tags kv.1)) <$> l.

Definition recorder_export (r : Recorder) : list (string * Z * list (string * string)) * list (string * Z * list (string * string)) * Recorder :=
  let '(counters, r) := raw_counters r in (render counters, render (raw_gauges r), r).

(** ** The functions of the module *)
Definition set_manager_id (id : string) (r : Recorder) : Recorder :=
  mkRecorder (counter_cells r) (gauge_cells r) (counters_map r) (gauges_map r) (Some id).

Definition get_manager_id {E} (r : Recorder) : res E string := unwrap "called `Option::unwrap()` on a `None` value" (manager_id r).

Definition register_counter {E} (name : string) (tags : list Tag) (r : Recorder) : res E (Recorder * Counter) :=
  let* id := get_manager_id r in
  Ok (recorder_register_counter name (mkTag "manager_id" id :: tags) r).

Definition register_gauge {E} (name : string) (tags : list Tag) (r : Recorder) : res E (Recorder * Gauge) :=
  let* id := get_manager_id r in
  Ok (recorder_register_gauge name (mkTag "manager_id" id :: tags) r).

(** ** Any use of the counters *)
Inductive MetricOp : Type :=
  | Op_register (name : string) (tags : list Tag)
  | Op_add (c : Counter) (v : Z)
  | Op_export.

(** What an export hands on under a key. *)
Definition exported (k : KeyTags) (l : list (KeyTags * Z)) : Z := foldr (fun kv s => if decide (kv.1 = k) then kv.2 + s else s) 0 l.

(** One step, with the sum of what has been exported under [k] since it was registered. *)
Definition metric_step (k : KeyTags) (s : Recorder * Z) (op : MetricOp) : Recorder * Z :=
  match op with
  | Op_register name tags => ((recorder_register_counter name tags s.1).1, if decide (mkKeyTags name tags = k) then 0 else s.2)
  | Op_add c v => (counter_fetch_add c v s.1, s.2)
  | Op_export => let '(l, r) := raw_counters s.1 in (r, s.2 + exported k l)
  end.

Record metrics_inv (s : Recorder * Z) (k : KeyTags) : Prop := {
  mi_cells : Forall (in_u 64) (counter_cells s.1);
  mi_keys : map_Forall (fun k m => cm_key_tags m = k /\ (cm_value m < length (counter_cells s.1))%nat) (counters_map s.1);
  mi_total : forall m, counters_map s.1 !! k = Some m -> cm_old_value m = wrap_u 64 s.2
}.

(** An export hands on the growth of the counter, once. *)
Lemma exported_once r k m : map_Forall (fun k m => cm_key_tags m = k /\ (cm_value m < length (counter_cells r))%nat) (counters_map r) ->
  counters_map r !! k = Some m -> exported k (raw_counters r).1 = cell (counter_cells r) (cm_value m) -u64 cm_old_value m.
Proof.
  intros Hk Hm. unfold raw_counters. cbn [fst].
  assert (forall l, NoDup l.*1 -> (forall k' m', (k', m') ∈ l -> cm_key_tags m' = k') ->
    exported k ((fun kv => (cm_key_tags kv.2, cell (counter_cells r) (cm_value kv.2) -u64 cm_old_value kv.2)) <$> l) =
      match list_find (fun kv => kv.1 = k) l with Some (_, kv) => cell (counter_cells r) (cm_value kv.2) -u64 cm_old_value kv.2 | None => 0 end) as Hgo.
  { induction l as [|[k' m'] l IH]; intros Hnd Hin; [done|]. rewrite fmap_cons in Hnd. apply NoDup_cons in Hnd as [Hout Hnd].
    rewrite fmap_cons. cbn [exported foldr fst snd list_find]. fold (exported k). rewrite (Hin k' m') by left.
    change (foldr _ 0 ?x) with (exported k x). rewrite IH; [|done|intros; apply Hin; by right].
    destruct (decide (k' = k)) as [->|Hne].
    - destruct (list_find _ l) as [[i [k2 m2]]|] eqn:El; [|cbn; lia]. apply list_find_Some in El as (Hi & Hk2 & _). cbn in Hk2. subst k2. destruct Hout. apply list_elem_of_fmap. exists (k, m2).
      split; [done|]. by eapply list_elem_of_lookup_2.
    - by destruct (list_find _ l) as [[i kv]|]. }
  rewrite Hgo; [|apply NoDup_hiter_fst|intros k' m' Hin%elem_of_hiter; by apply Hk in Hin as [? _]].
  destruct (list_find _ _) as [[i [k2 m2]]|] eqn:El.
  - apply list_find_Some in El as (Hi & Hk2 & _). cbn in Hk2. subst k2. apply list_elem_of_lookup_2, elem_of_hiter in Hi. rewrite Hm in Hi. by injection Hi as <-.
  - apply elem_of_hiter, list_elem_of_lookup in Hm as [i Hi]. apply list_find_None in El. rewrite Forall_lookup in El. by destruct (El i _ Hi).
Qed.

Lemma cell_u64 cells i : Forall (in_u 64) cells -> in_u 64 (cell cells i).
Proof.
  intros H. unfold cell. destruct (cells !! i) as [x|] eqn:E; cbn; [|unfold in_u; lia]. rewrite Forall_lookup in H. by eapply H.
Qed.

(** After an export the sum is the value of the counter. *)
Lemma export_total s k m : metrics_inv s k -> counters_map s.1 !! k = Some m ->
  wrap_u 64 (s.2 + exported k (raw_counters s.1).1) = cell (counter_cells s.1) (cm_value m).
Proof.
  intros [Hc Hk Ht] Hm. rewrite (exported_once _ _ _ Hk Hm), (Ht m Hm). unfold wrap_u.
  rewrite Zplus_mod_idemp_r, <- Zplus_mod_idemp_l. replace (s.2 mod 2 ^ 64 + (cell (counter_cells s.1) (cm_value m) - s.2 mod 2 ^ 64)) with (cell (counter_cells s.1) (cm_value m)) by lia.
  apply Z.mod_small. by apply cell_u64.
Qed.

Lemma metrics_inv_step k s op : metrics_inv s k -> metrics_inv (metric_step k s op) k.
Proof.
  intros Hinv. pose proof Hinv as [Hc Hk Ht]. destruct op as [name tags|c v|].
  - cbn [metric_step recorder_register_counter fst]. split; cbn.
    + rewrite Forall_app. split; [done|]. constructor; [|constructor]. unfold in_u. lia.
    + rewrite length_app. cbn. intros k' m'. destruct (decide (mkKeyTags name tags = k')) as [<-|Hne].
      * rewrite lookup_insert_eq. intros [= <-]. cbn. split; [done|lia].
      * rewrite lookup_insert_ne by done. intros H%Hk. naive_solver lia.
    + intros m. case_decide as Hd.
      * rewrite Hd, lookup_insert_eq. by intros [= <-].
      * rewrite lookup_insert_ne by done. apply Ht.
  - cbn [metric_step]. split; cbn; [|by rewrite length_alter|done]. apply Forall_alter; [done|]. intros x _ _. by apply wrap_u_range.
  - cbn [metric_step]. pose proof (export_total s k) as He. destruct (raw_counters s.1) as [l r] eqn:Er. unfold raw_counters in Er. injection Er as <- <-. cbn in He. split; cbn.
    + done.
    + intros k' m'. rewrite lookup_fmap. destruct (counters_map s.1 !! k') as [m0|] eqn:Em; [|done]. intros [= <-]. cbn. by apply Hk in Em.
    + intros m'. rewrite lookup_fmap. destruct (counters_map s.1 !! k) as [m0|] eqn:Em; [|done]. intros [= <-]. cbn. symmetry. by apply He.
Qed.

Lemma metrics_inv_run k ops : metrics_inv (foldl (metric_step k) (Recorder_new, 0) ops) k.
Proof.
  assert (forall s, metrics_inv s k -> metrics_inv (foldl (metric_step k) s ops) k) as Hgo by (induction ops as [|op ops IH]; intros s Hs; [done|]; cbn; by apply IH, metrics_inv_step).
  apply Hgo. split; cbn; [done| |]; [intros ? ?; by rewrite lookup_empty|intros m; by rewrite lookup_empty].
Qed.

(** After any use of the counters - registering, adding, exporting, in any order - the
    next export brings what has been exported for a name and tags since they were last
    registered to exactly the value of the handle of that registration, at 64 bits:
    nothing is exported twice and nothing is missed. *)
Theorem counter_exported k ops m : let s := foldl (metric_step k) (Recorder_new, 0) ops in counters_map s.1 !! k = Some m ->
  exists v, counter_load (cm_value m) s.1 = Some v /\ wrap_u 64 (metric_step k s Op_export).2 = v /\ counter_load (cm_value m) (metric_step k s Op_export).1 = Some v.
Proof.
  intros s Hm. pose proof (metrics_inv_run k ops) as Hinv. fold s in Hinv. pose proof (export_total s k m Hinv Hm) as He. destruct Hinv as [Hc Hk Ht].
  destruct (Hk k m Hm) as [_ Hlen]. destruct (lookup_lt_is_Some_2 _ _ Hlen) as [v Hv]. exists v. unfold counter_load. split; [done|].
  cbn [metric_step]. destruct (raw_counters s.1) as [l r] eqn:Er. cbn in He |- *. unfold cell in He. rewrite Hv in He. cbn in He. split; [done|]. unfold raw_counters in Er. by injection Er as _ <-.
Qed.

(** A process that has not set its manager id cannot register. *)
Lemma register_needs_id {E} name tags r : manager_id r = None -> exists p, register_counter (E := E) name tags r = Panic p.
Proof. intros H. unfold register_counter, get_manager_id. rewrite H. eauto. Qed.
End export.

(** ** Examples *)
#[local] Existing Instance id_order.

Definition ex_key : KeyTags := mkKeyTags "records" [mkTag "task" "1"].
Definition ex_ops : list MetricOp := [Op_register "records" [mkTag "task" "1"]; Op_add 0 5; Op_export; Op_add 0 7; Op_export; Op_add 0 1].

Lemma counter_exported_witness : let s := foldl (metric_step ex_key) (Recorder_new, 0) ex_ops in
  exists v, counter_load 0 s.1 = Some v /\ wrap_u 64 (metric_step ex_key s Op_export).2 = v /\ counter_load 0 (metric_step ex_key s Op_export).1 = Some v.
Proof. apply (counter_exported ex_key ex_ops (mkCounterMeta ex_key 12 0)). vm_compute. reflexivity. Defined.

(** Registered a second time, the first handle is no longer exported. *)
Lemma ex_registered_twice :
  (metric_step ex_key (foldl (metric_step ex_key) (Recorder_new, 0) [Op_register "records" [mkTag "task" "1"]; Op_register "records" [mkTag "task" "1"]; Op_add 0 5]) Op_export).2 = 0.
Proof. vm_compute. reflexivity. Qed.
