(* ===== verification/NodeArgs.v ===== *)
(** * NodeArgs: the arguments of a process

    src/rlink/src/runtime/context.rs, with [parse_arg] of src/rlink/src/utils/process.rs,
    [ManagerType] of src/rlink/src/runtime/mod.rs and the start of the metrics server of
    src/rlink/src/metrics/mod.rs: a process reads from its arguments in which kind of
    cluster it runs and as what, and from that which other arguments it needs.

    The system around the process (network, file system, clock, logger) is the class
    [NodeEnv]. The theorem says exactly which arguments a process needs to start. *)
From Stdlib Require Import ZArith Lia Ascii.
From stdpp Require Import base strings pretty numbers option sets gmap list.
From S2P Require Import Prelude Channel Properties Runtime KafkaOffsets.

#[local] Open Scope Z_scope.

(** ** Manager types *)
Inductive ManagerType : Type := Coordinator | Worker.

#[global] Instance ManagerType_eq_dec : EqDecision ManagerType.
Proof. solve_decision. Defined.
#[global] Instance ClusterMode_eq_dec : EqDecision ClusterMode.
Proof. solve_decision. Defined.

Definition is_coordinator (t : ManagerType) : bool := match t with Coordinator => true | _ => false end.

Definition is_local (m : ClusterMode) : bool := match m with Local => true | _ => false end.

Definition ManagerType_try_from (mode_str : string) : res string ManagerType :=
  let mode_str := to_lowercase mode_str in
  if decide (mode_str = "coordinator") then Ok Coordinator
  else if decide (mode_str = "worker") then Ok Worker
  else Err ("Unsupported mode " +:+ mode_str).

Definition ManagerType_to_string (t : ManagerType) : string := match t with Coordinator => "Coordinator" | Worker => "Worker" end.

(** ** Arguments *)

(** [parse_arg]: an argument is [key=value]; one with another number of [=] is skipped. *)
Fixpoint parse_arg (args : list string) (arg_key : string) : res string string :=
  match args with
  | [] => Err ("`" +:+ arg_key +:+ "` argument is not found")
  | arg :: args =>
      match split "="%char arg with
      | [key; value] => if decide (key = arg_key) then Ok value else parse_arg args arg_key
      | _ => parse_arg args arg_key
      end
  end.

Definition parse_arg_with (args : list string) (arg_key default_value : string) : string :=
  match parse_arg args arg_key with Ok v => v | _ => default_value end.

Definition parse_arg_to_u64 (args : list string) (arg_key : string) : res string Z :=
  let* v := parse_arg args arg_key in int_from_str t_u64 v.

(** ** Configuration *)
Record ClusterConfig := mkClusterConfig {
  application_manager_address : list string;
  metadata_storage : MetadataStorageType;
  task_manager_bind_ip : string;
  task_manager_work_dir : string
}.

Definition ClusterConfig_new_local : ClusterConfig := mkClusterConfig [] MetadataStorageType_Memory "" "./".

(** ** The system around the process *)
Class NodeEnv := {
  (** the arguments of the process *)
  env_args : list string;
  get_service_ip : res string string;
  (** the time, as a string *)
  gen_with_ts : string;
  (** reading and parsing the file *)
  load_config : string -> res string ClusterConfig;
  work_space : string;
  read_link : string -> option string;
  init_log : option string -> res string unit;
  (** the random ports that are tried in turn, and whether the server starts there *)
  random_ports : list Z;
  install : string -> Z -> bool;
  (** the cluster descriptor of the metadata storage *)
  load_metadata : res string ClusterDescriptor
}.

Record NodeContext := mkNodeContext {
  nc_application_id : string;
  nc_task_manager_id : string;
  nc_bind_ip : string;
  nc_cluster_mode : ClusterMode;
  nc_num_task_managers : Z;
  nc_manager_type : ManagerType;
  nc_cluster_config : ClusterConfig;
  nc_metric_addr : string;
  nc_coordinator_address : string;
  nc_dashboard_path : string;
  nc_yarn_manager_main_class : string;
  nc_worker_process_path : string;
  nc_memory_mb : Z;
  nc_v_cores : Z;
  nc_exclusion_nodes : string;
  nc_image_path : string
}.

Section node.
Context {NE : NodeEnv}.

Abbreviation arg := (parse_arg env_args).

(** The workers whose metrics a coordinator shows. *)
Definition proxy_addresses (with_proxy : bool) : list string :=
  if negb with_proxy then []
  else match load_metadata with
       | Ok cluster_descriptor => wm_metrics_address <$> worker_managers cluster_descriptor
       | _ => []
       end.

(** [init_metrics]: at most thirty ports are tried. *)
Definition init_metrics (bind_ip : string) : option Z :=
  List.find (fun port => install bind_ip port) (take 30 random_ports).

Definition metrics_serve {E} (bind_ip : string) : res E string :=
  let* port := unwrap "called `Option::unwrap()` on a `None` value" (init_metrics bind_ip) in
  Ok ("http://" +:+ bind_ip +:+ ":" +:+ pretty port).

(** An argument that must be a [u32]; [ty] is what the message says. *)
Definition u32_arg (name ty : string) : res string Z :=
  let* v := arg name in
  match int_from_str t_u32 v with
  | Ok n => Ok n
  | _ => Err ("parse `" +:+ name +:+ "`=`" +:+ v +:+ "` to " +:+ ty +:+ " error")
  end.

Definition num_task_managers_arg (cluster_mode : ClusterMode) (manager_type : ManagerType) : res string Z :=
  match manager_type with
  | Coordinator =>
      match cluster_mode with
      | Local => Ok 1
      | Standalone | YARN | Kubernetes =>
          let* num_task_managers := u32_arg "num_task_managers" "u32" in
          if num_task_managers <? 1 then Err "`num_task_managers` must the [value > 1]" else Ok num_task_managers
      end
  | _ => Ok 0
  end.

Definition cluster_config_arg (cluster_mode : ClusterMode) : res string ClusterConfig :=
  match cluster_mode with
  | Local => match arg "cluster_config" with
             | Ok cluster_config => load_config cluster_config
             | _ => Ok ClusterConfig_new_local
             end
  | Standalone => let* cluster_config := arg "cluster_config" in load_config cluster_config
  | YARN | Kubernetes => Ok ClusterConfig_new_local
  end.

(** The arguments for YARN and Kubernetes. *)
Definition resource_args (cluster_mode : ClusterMode) (manager_type : ManagerType) : res string (string * string * Z * Z * string) :=
  match cluster_mode, manager_type with
  | YARN, Coordinator =>
      let* yarn_manager_main_class := arg "yarn_manager_main_class" in
      let* worker_process_path := arg "worker_process_path" in
      let* memory_mb := u32_arg "memory_mb" "usize" in
      let* v_cores := u32_arg "v_cores" "usize" in
      let* exclusion_nodes := arg "exclusion_nodes" in
      Ok (yarn_manager_main_class, worker_process_path, memory_mb, v_cores, exclusion_nodes)
  | Kubernetes, Coordinator =>
      let* memory_mb := u32_arg "memory_mb" "usize" in
      let* v_cores := u32_arg "v_cores" "usize" in
      Ok ("", "", memory_mb, v_cores, "")
  | _, _ => Ok ("", "", 0, 0, "")
  end.

Definition dashboard_path (cluster_mode : ClusterMode) : string :=
  match cluster_mode with
  | YARN => let path := work_space +:+ "/rlink-dashboard.zip" in default path (read_link path)
  | Local => work_space +:+ "/rlink-dashboard"
  | _ => match arg "dashboard_path" with Ok p => p | _ => "" end
  end.

(** [Context::parse_node_arg], with the manager id it sets. *)
Definition parse_node_arg : res string (NodeContext * string) :=
  let* bind_ip := get_service_ip in
  let* cluster_mode := match arg "cluster_mode" with Ok value => ClusterMode_try_from value | _ => Ok Local end in
  let* manager_type := match arg "manager_type" with Ok value => ManagerType_try_from value | _ => Ok Coordinator end in
  let* application_id := match cluster_mode with Local => Ok gen_with_ts | _ => arg "application_id" end in
  let* task_manager_id := match manager_type with Coordinator => Ok "coordinator" | Worker => arg "task_manager_id" end in
  let manager_id := task_manager_id +:+ "-" +:+ bind_ip in
  let* num_task_managers := num_task_managers_arg cluster_mode manager_type in
  let* cluster_config := cluster_config_arg cluster_mode in
  let* (yarn_manager_main_class, worker_process_path, memory_mb, v_cores, exclusion_nodes) := resource_args cluster_mode manager_type in
  let dashboard := dashboard_path cluster_mode in
  let log_config_path := match arg "log_config_path" with Ok x => Some x | _ => None end in
  let* _ := init_log log_config_path in
  let* metric_addr := metrics_serve bind_ip in
  let* coordinator_address := match manager_type with Coordinator => Ok "" | _ => arg "coordinator_address" end in
  let* image_path := match cluster_mode, manager_type with Kubernetes, Coordinator => arg "image_path" | _, _ => Ok "" end in
  Ok (mkNodeContext application_id task_manager_id bind_ip cluster_mode num_task_managers manager_type cluster_config metric_addr coordinator_address dashboard
        yarn_manager_main_class worker_process_path memory_mb v_cores exclusion_nodes image_path, manager_id).

(** ** What a process needs *)

(** The arguments that must be there. *)
Definition required (m : ClusterMode) (t : ManagerType) : list string :=
  (if is_local m then [] else ["application_id"]) ++
  match t with
  | Worker => ["task_manager_id"; "coordinator_address"]
  | Coordinator =>
      (if is_local m then [] else ["num_task_managers"]) ++
      match m with
      | YARN => ["yarn_manager_main_class"; "worker_process_path"; "memory_mb"; "v_cores"; "exclusion_nodes"]
      | Kubernetes => ["memory_mb"; "v_cores"; "image_path"]
      | _ => []
      end
  end ++ (match m with Standalone => ["cluster_config"] | _ => [] end).

(** Those that must be numbers, with their least value. *)
Definition numeric (m : ClusterMode) (t : ManagerType) : list (string * Z) :=
  match t with
  | Worker => []
  | Coordinator => (if is_local m then [] else [("num_task_managers", 1)]) ++ match m with YARN | Kubernetes => [("memory_mb", 0); ("v_cores", 0)] | _ => [] end
  end.

Definition given (name : string) : Prop := is_ok (arg name) = true.

Definition number_given (x : string * Z) : Prop := exists v n, arg x.1 = Ok v /\ int_from_str t_u32 v = Ok n /\ x.2 <= n.

(** A configuration file that is named, and read in this kind of cluster, can be loaded. *)
Definition config_loads (m : ClusterMode) : Prop :=
  match m with Local | Standalone => forall path, arg "cluster_config" = Ok path -> is_ok (load_config path) = true | _ => True end.

Lemma given_iff name : given name <-> exists v, arg name = Ok v.
Proof. unfold given. destruct (arg name); cbn; naive_solver. Qed.

Lemma is_ok_bind {A B} (a : res string A) (k : A -> res string B) : is_ok (let* x := a in k x) = true <-> exists x, a = Ok x /\ is_ok (k x) = true.
Proof. destruct a; cbn; naive_solver. Qed.

Lemma u32_arg_ok name ty n : u32_arg name ty = Ok n <-> exists v, arg name = Ok v /\ int_from_str t_u32 v = Ok n.
Proof.
  unfold u32_arg. destruct (arg name) as [v|e|p]; cbn; [|naive_solver..]. destruct (int_from_str t_u32 v) eqn:E; split; intros H; simplify_eq; eauto; destruct H as (v' & Hv & Hn); congruence.
Qed.

(** Parsed numbers are not negative. *)
Lemma u32_nonneg v n : int_from_str t_u32 v = Ok n -> 0 <= n.
Proof.
  intros H. assert (forall s, s <> "" -> parse_digits t_u32 false 0 s = Ok n -> 0 <= n) as Hd.
  { intros s Hs Hp. destruct (parse_digits_range _ _ _ _ _ Hp) as [|Hin]; [done|]. unfold in_type in Hin. cbn in Hin. rewrite andb_true_iff, Z.leb_le in Hin. lia. }
  destruct v as [|a v]; [done|]. destruct (decide (a = "+"%char)) as [->|Hp].
  - cbn [int_from_str] in H. destruct v as [|b v]; [done|]. by apply (Hd (String b v)).
  - destruct (decide (a = "-"%char)) as [->|Hm].
    + cbn [int_from_str] in H. destruct v as [|b v]; [done|]. cbn [it_signed t_u32] in H. by apply (Hd (String "-" (String b v))).
    + apply (Hd (String a v)); [done|]. rewrite <- H. destruct a as [[] [] [] [] [] [] [] []]; done.
Qed.

(** The parts of [parse_node_arg] succeed when their arguments are there. *)
Lemma num_task_managers_ok m t : is_ok (num_task_managers_arg m t) = true <-> (t = Coordinator -> is_local m = false -> number_given ("num_task_managers", 1)).
Proof.
  destruct t; [|cbn; naive_solver]. assert (is_ok (let* n := u32_arg "num_task_managers" "u32" in if n <? 1 then Err "`num_task_managers` must the [value > 1]" else Ok n) = true <->
    number_given ("num_task_managers", 1)) as Hn.
  { rewrite is_ok_bind. unfold number_given. cbn [fst snd]. split.
    - intros (n & (v & Hv & Hn)%u32_arg_ok & H). exists v, n. destruct (Z.ltb_spec n 1); [done|]. split_and!; done || lia.
    - intros (v & n & Hv & Hn & H). exists n. split; [apply u32_arg_ok; eauto|]. by destruct (Z.ltb_spec n 1); [lia|]. }
  destruct m; cbn [num_task_managers_arg is_local]; [naive_solver|rewrite Hn; naive_solver..].
Qed.

Lemma cluster_config_ok m : is_ok (cluster_config_arg m) = true <-> config_loads m /\ (m = Standalone -> given "cluster_config").
Proof.
  destruct m; cbn [cluster_config_arg config_loads]; [| |cbn; naive_solver..].
  - split.
    + intros H. split; [|done]. intros path Hp. by rewrite Hp in H.
    + intros [H _]. destruct (arg "cluster_config") as [path|e|p] eqn:E; [by apply H|done..].
  - rewrite is_ok_bind, given_iff. split.
    + intros (path & Hp & H). split; [|eauto]. intros path' Hp'. congruence.
    + intros [H [path Hp]]; [done|]. exists path. split; [done|]. by apply H.
Qed.

Lemma resource_args_ok m t : is_ok (resource_args m t) = true <->
  Forall given (match m, t with YARN, Coordinator => ["yarn_manager_main_class"; "worker_process_path"; "exclusion_nodes"] | _, _ => [] end) /\
  Forall number_given (match m, t with (YARN | Kubernetes), Coordinator => [("memory_mb", 0); ("v_cores", 0)] | _, _ => [] end).
Proof.
  assert (forall name ty, (exists n, u32_arg name ty = Ok n) <-> number_given (name, 0)) as Hu.
  { intros name ty. unfold number_given. cbn [fst snd]. setoid_rewrite u32_arg_ok. split.
    - intros (n & v & Hv & Hn). exists v, n. split_and!; [done..|]. by eapply u32_nonneg.
    - intros (v & n & Hv & Hn & _). eauto. }
  destruct m, t; cbn [resource_args]; rewrite ?Forall_cons, ?Forall_nil; try (cbn; tauto); rewrite <- !(Hu _ "usize"), ?given_iff; repeat setoid_rewrite is_ok_bind; naive_solver.
Qed.

Section started.
Context (m : ClusterMode) (t : ManagerType) (ip : string) (port : Z).
Context (Hip : get_service_ip = Ok ip) (Hport : init_metrics ip = Some port) (Hlog : forall path, init_log path = Ok tt).
Context (Hm : match arg "cluster_mode" with Ok value => ClusterMode_try_from value | _ => Ok Local end = Ok m).
Context (Ht : match arg "manager_type" with Ok value => ManagerType_try_from value | _ => Ok Coordinator end = Ok t).

Lemma needed_iff : Forall given (required m t) /\ Forall number_given (numeric m t) /\ config_loads m <->
  is_ok (match m with Local => Ok gen_with_ts | _ => arg "application_id" end) = true /\
  is_ok (match t with Coordinator => Ok "coordinator" | Worker => arg "task_manager_id" end) = true /\
  is_ok (num_task_managers_arg m t) = true /\ is_ok (cluster_config_arg m) = true /\ is_ok (resource_args m t) = true /\
  is_ok (match t with Coordinator => Ok "" | _ => arg "coordinator_address" end) = true /\
  is_ok (match m, t with Kubernetes, Coordinator => arg "image_path" | _, _ => Ok "" end) = true.
Proof.
  rewrite num_task_managers_ok, cluster_config_ok, resource_args_ok.
  assert (forall name n, number_given (name, n) -> given name) as Hng. { intros name n (v & x & Hv & _). apply given_iff. eauto. }
  unfold required, numeric. destruct m, t; cbn [is_local app config_loads]; rewrite ?Forall_cons, ?Forall_nil; fold (given "application_id") (given "task_manager_id") (given "coordinator_address") (given "image_path");
    cbn [is_ok]; naive_solver.
Qed.

(** A process whose address is known, whose log and metrics server start, and whose
    arguments name the kind [m] of cluster and the role [t], starts exactly when the
    arguments required for [m] and [t] are given, those that are numbers are numbers
    (and at least one task manager is asked for), and a configuration file that is named
    can be loaded. A coordinator then has at least one task manager to wait for, and a
    worker knows its coordinator. *)
Theorem node_starts : (is_ok parse_node_arg = true <-> Forall given (required m t) /\ Forall number_given (numeric m t) /\ config_loads m) /\
  (forall c id, parse_node_arg = Ok (c, id) -> nc_cluster_mode c = m /\ nc_manager_type c = t /\ id = nc_task_manager_id c +:+ "-" +:+ ip /\
     match t with
     | Coordinator => 1 <= nc_num_task_managers c /\ nc_task_manager_id c = "coordinator"
     | Worker => nc_num_task_managers c = 0 /\ arg "task_manager_id" = Ok (nc_task_manager_id c) /\ arg "coordinator_address" = Ok (nc_coordinator_address c)
     end).
Proof.
  rewrite needed_iff. unfold parse_node_arg, metrics_serve. rewrite Hip, Hm, Ht. cbn [mbind res_bind]. rewrite Hport, Hlog. cbn [unwrap mbind res_bind].
  assert (forall n, num_task_managers_arg m t = Ok n -> match t with Coordinator => 1 <= n | Worker => n = 0 end) as Hn.
  { intros n. destruct t; cbn [num_task_managers_arg]; [|naive_solver]. destruct m; [naive_solver lia|..];
      (destruct (u32_arg "num_task_managers" "u32") as [v| |]; cbn [mbind res_bind]; [|done..]; destruct (Z.ltb_spec v 1); naive_solver). }
  set (a1 := match m with Local => Ok gen_with_ts | _ => arg "application_id" end). set (a2 := match t with Coordinator => Ok "coordinator" | Worker => arg "task_manager_id" end).
  set (a3 := match t with Coordinator => Ok "" | _ => arg "coordinator_address" end). set (a4 := match m, t with Kubernetes, Coordinator => arg "image_path" | _, _ => Ok "" end).
  destruct a1 as [x1| |]; cbn [mbind res_bind is_ok]; [|naive_solver..]. destruct a2 as [x2| |] eqn:E2; cbn [mbind res_bind is_ok]; [|naive_solver..].
  destruct (num_task_managers_arg m t) as [n| |]; cbn [mbind res_bind is_ok]; [|naive_solver..]. destruct (cluster_config_arg m) as [c| |]; cbn [mbind res_bind is_ok]; [|naive_solver..].
  destruct (resource_args m t) as [[[[[y1 y2] y3] y4] y5]| |]; cbn [mbind res_bind is_ok]; [|naive_solver..].
  destruct a3 as [x3| |] eqn:E3; cbn [mbind res_bind is_ok]; [|naive_solver..]. destruct a4 as [x4| |]; cbn [mbind res_bind is_ok]; [|naive_solver..].
  split; [tauto|]. intros c' id [= <- <-]. cbn. specialize (Hn n eq_refl). split_and!; try done. subst a2 a3. clear -E2 E3 Hn. destruct t; naive_solver.
Qed.
End started.
End node.

(** ** Examples *)
Definition ex_env : NodeEnv := {|
  env_args := ["app"; "cluster_mode=Standalone"; "manager_type=Worker"; "application_id=a1"; "task_manager_id=tm"; "coordinator_address=http://10.0.0.1:80"; "cluster_config=c.yaml"];
  get_service_ip := Ok "10.0.0.7";
  gen_with_ts := "1600000000000";
  load_config := fun _ => Ok ClusterConfig_new_local;
  work_space := "/rlink";
  read_link := fun _ => None;
  init_log := fun _ => Ok tt;
  random_ports := [10080; 20000];
  install := fun _ port => 15000 <? port;
  load_metadata := Err "no descriptor"
|}.

#[local] Existing Instance ex_env.

Lemma node_starts_witness :
  (is_ok parse_node_arg = true <-> Forall given (required Standalone Worker) /\ Forall number_given (numeric Standalone Worker) /\ config_loads Standalone) /\
  (forall c id, parse_node_arg = Ok (c, id) -> nc_cluster_mode c = Standalone /\ nc_manager_type c = Worker /\ id = nc_task_manager_id c +:+ "-" +:+ "10.0.0.7" /\
     nc_num_task_managers c = 0 /\ parse_arg env_args "task_manager_id" = Ok (nc_task_manager_id c) /\ parse_arg env_args "coordinator_address" = Ok (nc_coordinator_address c)).
Proof.
  apply (node_starts Standalone Worker "10.0.0.7" 20000); [reflexivity|reflexivity|reflexivity|vm_compute; reflexivity|vm_compute; reflexivity].
Defined.

(** An argument whose value has an equals sign is not found. *)
Lemma ex_equals_in_value : is_ok (parse_arg ["dashboard_path=/a?b=c"] "dashboard_path") = false.
Proof. vm_compute. reflexivity. Qed.
