(* ===== verification/Standalone.v ===== *)
(** * Standalone: the job manager and the task managers of a standalone cluster

    src/rlink-deployment/rlink-standalone (controller/job_manager.rs,
    controller/task_manager.rs, job/mod.rs, config/mod.rs, utils/mod.rs, server.rs) with
    the messages of src/rlink/src/core/cluster.rs and the script
    src/etc/standalone/config/run_task.sh.

    A job manager keeps the uploaded applications and hands the processes of an
    application to the task managers in turn; a task manager starts each with a script
    that writes the process id to a file, and kills it by that file. The handlers are
    state passing functions; what the job manager needs of the task managers is the class
    [TaskManagerApi], which the task managers themselves implement. Names of applications
    and tasks are single path components. *)
From Stdlib Require Import ZArith Lia Ascii.
From stdpp Require Import base strings pretty numbers option sets gmap list.
From S2P Require Import Prelude Properties KafkaOffsets NodeArgs.

#[local] Open Scope Z_scope.

(** ** Messages: core/cluster.rs *)
Record TaskResourceInfo := mkTaskResourceInfo {
  tri_task_manager_id : string;
  resource_info : gmap string string
}.

Definition TaskResourceInfo_new (task_id task_manager_address task_manager_id : string) : TaskResourceInfo :=
  mkTaskResourceInfo task_manager_id (<["task_manager_address" := task_manager_address]> (<["task_id" := task_id]> ∅)).

Definition tri_task_id (t : TaskResourceInfo) : option string := resource_info t !! "task_id".
Definition tri_task_manager_address (t : TaskResourceInfo) : option string := resource_info t !! "task_manager_address".

Record ExecuteRequest := mkExecuteRequest { executable_file : string; er_args : gmap string string }.
Record BatchExecuteRequest := mkBatchExecuteRequest { batch_args : list (gmap string string) }.

Inductive ResponseCode : Type := RC_OK | RC_ERR (msg : string).

Record StdResponse (T : Type) := mkStdResponse { sr_code : ResponseCode; sr_data : option T }.
Arguments mkStdResponse {T} _ _.
Arguments sr_code {T} _.
Arguments sr_data {T} _.

Definition StdResponse_ok {T} (data : option T) : StdResponse T := mkStdResponse RC_OK data.
Definition StdResponse_err {T} (err_msg : string) : StdResponse T := mkStdResponse (RC_ERR err_msg) None.

Definition result_into_response {T} (r : res string T) : res string (StdResponse T) :=
  match r with
  | Ok t => Ok (StdResponse_ok (Some t))
  | Err e => Ok (StdResponse_err e)
  | Panic p => Panic p
  end.

(** ** Configuration: config/mod.rs, server.rs *)
Record StandaloneContext := mkStandaloneContext {
  sc_config : ClusterConfig;
  sc_config_path : string;
  sc_script_path : string;
  sc_task_managers : list string
}.

(** The lines of a file that are not empty: [load_task_managers], [read_file_as_lines]. *)
Definition nonempty_lines (lines : list string) : list string := filter (fun line => line <> "") lines.

Definition load_task_managers (lines : list string) : list string := nonempty_lines lines.

Definition create_context (work_space : string) (load_config : string -> res string ClusterConfig) (task_managers_file : list string) : res string StandaloneContext :=
  let conf_path := work_space +:+ "/config" in
  let standalone_file := conf_path +:+ "/standalone.yaml" in
  let* config := load_config standalone_file in
  let script_path := conf_path +:+ "/run_task.sh" in
  Ok (mkStandaloneContext config standalone_file script_path (load_task_managers task_managers_file)).

Inductive RoleType : Type := JobManagerRole | TaskManagerRole.

Definition RoleType_from_arg (args : list string) : res string RoleType :=
  match parse_arg args "type" with
  | Ok role_type =>
      if decide (role_type = "JobManager") then Ok JobManagerRole
      else if decide (role_type = "TaskManager") then Ok TaskManagerRole
      else Panic ("unknown type " +:+ role_type)
  | _ => Panic "`type` not found"
  end.

(** ** The task manager: controller/task_manager.rs *)

(** A shell command that was started. *)
Record ShellCommand := mkShellCommand {
  cmd_script : string;
  cmd_args : list string;
  cmd_envs : gmap string string;
  cmd_dir : string
}.

(** [tm_dirs]: below the work directory, the directories of the applications, in each the
    directories of the tasks, in each maybe a file [pid] with its lines. *)
Record TaskManager := mkTaskManager {
  tm_context : StandaloneContext;
  tm_work_space : string;
  tm_start_time : Z;
  tm_counter : Z;
  tm_dirs : gmap string (gmap string (option (list string)));
  tm_started : list ShellCommand;
  tm_killed : list string
}.

Definition tm_set_dirs (dirs : gmap string (gmap string (option (list string)))) (tm : TaskManager) : TaskManager :=
  mkTaskManager (tm_context tm) (tm_work_space tm) (tm_start_time tm) (tm_counter tm) dirs (tm_started tm) (tm_killed tm).

(** [fetch_add] on the counter of tasks. *)
Definition tm_count (tm : TaskManager) : TaskManager :=
  mkTaskManager (tm_context tm) (tm_work_space tm) (tm_start_time tm) (wrap_u 64 (tm_counter tm + 1)) (tm_dirs tm) (tm_started tm) (tm_killed tm).

(** [DirBuilder] with [recursive]: what is there stays. *)
Definition create_dir (application_id task_id : string) (tm : TaskManager) : TaskManager :=
  let app_dir := default ∅ (tm_dirs tm !! application_id) in
  tm_set_dirs (<[application_id := <[task_id := default None (app_dir !! task_id)]> app_dir]> (tm_dirs tm)) tm.

Definition execute_shell_command (c : ShellCommand) (tm : TaskManager) : TaskManager :=
  mkTaskManager (tm_context tm) (tm_work_space tm) (tm_start_time tm) (tm_counter tm) (tm_dirs tm) (tm_started tm ++ [c]) (tm_killed tm).

Definition kill_pid (pid : string) (tm : TaskManager) : TaskManager :=
  mkTaskManager (tm_context tm) (tm_work_space tm) (tm_start_time tm) (tm_counter tm) (tm_dirs tm) (tm_started tm) (tm_killed tm ++ [pid]).

Definition next_task_id (tm : TaskManager) : string :=
  task_manager_bind_ip (sc_config (tm_context tm)) +:+ "-" +:+ pretty (tm_start_time tm) +:+ "-" +:+ pretty (tm_counter tm).

Section task_manager.
Context {HO : HashOrder}.

Definition key_value (kv : string * string) : string := kv.1 +:+ "=" +:+ kv.2.

Definition task_envs (tm : TaskManager) (application_id task_id executable application_manager : string) : gmap string string :=
  let config := sc_config (tm_context tm) in
  <["DASHBOARD_PATH" := tm_work_space tm +:+ "/rlink-dashboard"]>
  (<["CLUSTER_CONFIG" := sc_config_path (tm_context tm)]>
  (<["FILE_NAME" := executable]>
  (<["BIND_IP" := task_manager_bind_ip config]>
  (<["TASK_ID" := task_id]>
  (<["APPLICATION_ID" := application_id]>
  (<["APPLICATION_MANAGER_ADDRESS" := application_manager]>
  (<["WORKER_PATH" := task_manager_work_dir config]> ∅))))))).

Definition task_dir (tm : TaskManager) (application_id task_id : string) : string :=
  task_manager_work_dir (sc_config (tm_context tm)) +:+ "/" +:+ application_id +:+ "/" +:+ task_id.

(** [execute_task]. The counter has moved on when [application_manager_address[0]] panics. *)
Definition execute_task {E} (application_id : string) (execute_model : ExecuteRequest) (tm : TaskManager) : TaskManager * res E (StdResponse string) :=
  let task_id := next_task_id tm in
  let tm := tm_count tm in
  match application_manager_address (sc_config (tm_context tm)) with
  | [] => (tm, Panic "index out of bounds: the len is 0 but the index is 0")
  | application_manager :: _ =>
      let envs := task_envs tm application_id task_id (executable_file execute_model) application_manager in
      let execute_args := key_value <$> hiter (er_args execute_model) in
      let tm := create_dir application_id task_id tm in
      let tm := execute_shell_command (mkShellCommand (sc_script_path (tm_context tm)) execute_args envs (task_dir tm application_id task_id)) tm in
      (tm, Ok (StdResponse_ok (Some task_id)))
  end.

Definition pid_file (application_id task_id : string) (tm : TaskManager) : option (list string) :=
  app_dir ← tm_dirs tm !! application_id; file ← app_dir !! task_id; file.

Definition remove_pid_file (application_id task_id : string) (tm : TaskManager) : TaskManager :=
  match tm_dirs tm !! application_id with
  | Some app_dir => tm_set_dirs (<[application_id := <[task_id := None]> app_dir]> (tm_dirs tm)) tm
  | None => tm
  end.

(** [kill_task]. *)
Definition tm_kill_task (application_id task_id : string) (tm : TaskManager) : TaskManager * StdResponse string :=
  match pid_file application_id task_id tm with
  | None => (tm, StdResponse_ok (Some "pid file not found, maybe has killed"))
  | Some lines =>
      match nonempty_lines lines with
      | [pid] => (remove_pid_file application_id task_id (kill_pid pid tm), StdResponse_ok None)
      | _ => (tm, StdResponse_err "pid context is illegal")
      end
  end.

(** The loop of [kill_job_tasks] over the directories of the tasks. *)
Fixpoint kill_dirs (application_id : string) (dirs : list string) (tm : TaskManager) : TaskManager * StdResponse string :=
  match dirs with
  | [] => (tm, StdResponse_ok None)
  | task_id :: dirs =>
      match pid_file application_id task_id tm with
      | None => kill_dirs application_id dirs tm
      | Some lines =>
          match nonempty_lines lines with
          | [pid] => kill_dirs application_id dirs (remove_pid_file application_id task_id (kill_pid pid tm))
          | _ => (tm, StdResponse_err "pid context is illegal")
          end
      end
  end.

Definition kill_job_tasks (application_id : string) (tm : TaskManager) : TaskManager * StdResponse string :=
  match tm_dirs tm !! application_id with
  | None => (tm, StdResponse_ok (Some "No application found"))
  | Some app_dir => kill_dirs application_id (hiter app_dir).*1 tm
  end.
End task_manager.

(** ** The script: run_task.sh *)

(** Blanks separate the words of an unquoted expansion. *)
Definition blank (a : ascii) : bool := bool_decide (a = " "%char) || bool_decide (a = "009"%char) || bool_decide (a = "010"%char).

(** The words, with [w] the word being read. *)
Fixpoint words_from (w : string) (s : string) : list string :=
  match s with
  | "" => if decide (w = "") then [] else [w]
  | String a s => if blank a then (if decide (w = "") then words_from "" s else w :: words_from "" s) else words_from (w +:+ String a "") s
  end.

Definition words (s : string) : list string := words_from "" s.

Definition env (envs : gmap string string) (name : string) : string := default "" (envs !! name).

(** The arguments of the process, its own name first: [args=$@] joins the arguments of
    the script with blanks and [${args}] cuts them at blanks. *)
Definition run_task_sh (args : list string) (envs : gmap string string) : list string :=
  let execute_file_path := env envs "WORKER_PATH" +:+ "/" +:+ env envs "APPLICATION_ID" +:+ "/" +:+ env envs "TASK_ID" +:+ "/" +:+ env envs "FILE_NAME" in
  words execute_file_path ++
  words ("cluster_config=" +:+ env envs "CLUSTER_CONFIG") ++
  words ("application_id=" +:+ env envs "APPLICATION_ID") ++
  words ("task_id=" +:+ env envs "TASK_ID") ++
  words ("bind_ip=" +:+ env envs "BIND_IP") ++
  words ("dashboard_path=" +:+ env envs "DASHBOARD_PATH") ++
  words (join " " args).

(** ** The job manager: controller/job_manager.rs, job/mod.rs *)
Inductive Status : Type := Ready | Running | Killed.

#[global] Instance Status_eq_dec : EqDecision Status.
Proof. solve_decision. Defined.

Record Application := mkApplication { app_application_id : string; app_execute_file : string; app_status : Status }.

Definition Application_new (application_id execute_file : string) : Application := mkApplication application_id execute_file Ready.

(** controller/mod.rs *)
Inductive HttpClientError : Type := MessageStatusError (msg : string) | SendRequestError | JsonPayloadError.

(** What a handler answers: a page with a JSON body, or an error page. *)
Inductive JsonBody : Type := JStd (r : StdResponse string) | JString (s : string).
Inductive ServerError : Type := IoError (msg : string) | ClientError (e : HttpClientError).

(** The requests a job manager sends to a task manager: POST and DELETE on
    [/task/{application_id}], on the task manager at an address. *)
Class TaskManagerApi (S : Type) := {
  post_task : string -> string -> ExecuteRequest -> S -> S * res HttpClientError (StdResponse string);
  delete_task : string -> string -> string -> S -> S * res HttpClientError (StdResponse string);
  delete_application : string -> string -> S -> S * res HttpClientError (StdResponse string)
}.

(** [jm_metadata]: the file [metadata] of every application; [jm_resources]: the uploaded
    files, by application and name. *)
Record JobManager := mkJobManager {
  jm_context : StandaloneContext;
  jm_metadata : gmap string string;
  jm_resources : gmap (string * string) string
}.

Section job_manager.
Context {S : Type} {TA : TaskManagerApi S} {SA : SerdeJson Application} {ST : SerdeJson (list TaskResourceInfo)}.

Definition Application_load (application_id : string) (jm : JobManager) : res string Application :=
  match jm_metadata jm !! application_id with
  | None => Err "No such file or directory"
  | Some s => json_from_str s
  end.

Definition Application_storage (application_id : string) (job : Application) (jm : JobManager) : JobManager :=
  mkJobManager (jm_context jm) (<[application_id := json_to_string job]> (jm_metadata jm)) (jm_resources jm).

Definition download_application_resource {E} (application_id file_name : string) (jm : JobManager) : res E string :=
  unwrap "called `Result::unwrap()` on an `Err` value" (jm_resources jm !! (application_id, file_name)).

(** [create_application]: the fields of the upload are its files with their contents;
    [sanitize] is the crate sanitize_filename. *)
Definition create_application (now : Z) (sanitize : string -> string) (payload : list (string * string)) (jm : JobManager) : JobManager * string :=
  let application_id := "application-" +:+ pretty now in
  (foldl (fun jm field =>
     let filename := sanitize field.1 in
     let jm := mkJobManager (jm_context jm) (jm_metadata jm) (<[(application_id, filename) := field.2]> (jm_resources jm)) in
     Application_storage application_id (Application_new application_id filename) jm) jm payload, application_id).

(** The end of [publish_task], [kill_task] and [kill_job_task]: the answer as a result. *)
Definition std_result (r : res HttpClientError (StdResponse string)) : res HttpClientError string :=
  let* result_model := r in
  match sr_code result_model with
  | RC_OK => Ok (default "" (sr_data result_model))
  | RC_ERR msg => Err (MessageStatusError msg)
  end.

Definition publish_task (application_id : string) (execute_model : ExecuteRequest) (task_manager_address : string) (s : S) : S * res HttpClientError string :=
  let '(s, r) := post_task task_manager_address application_id execute_model s in (s, std_result r).

Definition jm_kill_task (application_id task_id task_manager_address : string) (s : S) : S * res HttpClientError string :=
  let '(s, r) := delete_task task_manager_address application_id task_id s in (s, std_result r).

Definition kill_job_task (application_id task_manager_address : string) (s : S) : S * res HttpClientError string :=
  let '(s, r) := delete_application task_manager_address application_id s in (s, std_result r).

Fixpoint publish_loop (application_id : string) (execute_model : ExecuteRequest) (task_managers : list string) (indies : list nat) (s : S)
  : S * res HttpClientError (TaskResourceInfo * nat) :=
  match indies with
  | [] => (s, Err (MessageStatusError "No available TaskManager"))
  | index :: indies =>
      let task_manager_id := default "" (er_args execute_model !! "task_manager_id") in
      match task_managers !! index with
      | None => (s, Panic "index out of bounds")
      | Some task_manager_address =>
          match publish_task application_id execute_model task_manager_address s with
          | (s, Ok task_id) => (s, Ok (TaskResourceInfo_new task_id task_manager_address task_manager_id, index))
          | (s, Err e) => publish_loop application_id execute_model task_managers indies s
          | (s, Panic p) => (s, Panic p)
          end
      end
  end.

Definition publish_task_0 (application_id : string) (execute_model : ExecuteRequest) (start_index : nat) (task_managers : list string) (s : S)
  : S * res HttpClientError (TaskResourceInfo * nat) :=
  publish_loop application_id execute_model task_managers (seq start_index (length task_managers - start_index) ++ seq 0 start_index) s.

(** The loop of [submit_job] over the processes to start. *)
Fixpoint submit_loop (application_id : string) (execute_models : list ExecuteRequest) (task_managers : list string) (start_index : nat)
  (task_ids : list TaskResourceInfo) (s : S) : S * res HttpClientError (list TaskResourceInfo) :=
  match execute_models with
  | [] => (s, Ok task_ids)
  | execute_model :: execute_models =>
      match publish_task_0 application_id execute_model start_index task_managers s with
      | (s, Ok (task_result_info, index)) =>
          let start_index := if decide (index = length task_managers) then 0%nat else (index + 1)%nat in
          submit_loop application_id execute_models task_managers start_index (task_ids ++ [task_result_info]) s
      | (s, Err e) => (s, Err e)
      | (s, Panic p) => (s, Panic p)
      end
  end.

Definition client_error {A} (r : res HttpClientError A) : res ServerError A :=
  match r with Ok a => Ok a | Err e => Err (ClientError e) | Panic p => Panic p end.

Definition io_error {A} (r : res string A) : res ServerError A :=
  match r with Ok a => Ok a | Err e => Err (IoError e) | Panic p => Panic p end.

Definition submit_job (application_id : string) (batch_execute_model : BatchExecuteRequest) (jm : JobManager) (s : S) : S * res ServerError JsonBody :=
  match io_error (Application_load application_id jm) with
  | Err e => (s, Err e)
  | Panic p => (s, Panic p)
  | Ok job =>
      if decide (app_status job = Killed) then (s, Ok (JStd (mkStdResponse (RC_ERR "Job has killed") None)))
      else
        let execute_models := mkExecuteRequest (app_execute_file job) <$> batch_args batch_execute_model in
        let task_managers := sc_task_managers (jm_context jm) in
        if decide (length task_managers = 0%nat) then (s, Ok (JString "No TaskManager"))
        else
          let '(s, r) := submit_loop application_id execute_models task_managers 0 [] s in
          (s, let* task_ids := client_error r in Ok (JStd (mkStdResponse RC_OK (Some (json_to_string task_ids)))))
  end.

(** [shutdown_tasks]: a task that cannot be killed is only logged. *)
Fixpoint shutdown_tasks (application_id : string) (task_ids : list TaskResourceInfo) (s : S) : S * res ServerError JsonBody :=
  match task_ids with
  | [] => (s, Ok (JStd (mkStdResponse RC_OK None)))
  | task_res_info :: task_ids =>
      match tri_task_id task_res_info, tri_task_manager_address task_res_info with
      | Some task_id, Some task_manager_address =>
          let '(s, kill_result) := jm_kill_task application_id task_id task_manager_address s in
          shutdown_tasks application_id task_ids s
      | _, _ => (s, Panic "called `Option::unwrap()` on a `None` value")
      end
  end.

Fixpoint kill_on_all (application_id : string) (task_managers : list string) (s : S) : S * res HttpClientError unit :=
  match task_managers with
  | [] => (s, Ok tt)
  | task_manager :: task_managers =>
      match kill_job_task application_id task_manager s with
      | (s, Ok _) => kill_on_all application_id task_managers s
      | (s, Err e) => (s, Err e)
      | (s, Panic p) => (s, Panic p)
      end
  end.

(** [kill_job]: the application is marked first. *)
Definition kill_job (application_id : string) (jm : JobManager) (s : S) : JobManager * S * res ServerError JsonBody :=
  match io_error (Application_load application_id jm) with
  | Err e => (jm, s, Err e)
  | Panic p => (jm, s, Panic p)
  | Ok job =>
      let jm := Application_storage application_id (mkApplication (app_application_id job) (app_execute_file job) Killed) jm in
      let '(s, r) := kill_on_all application_id (sc_task_managers (jm_context jm)) s in
      (jm, s, let* _ := client_error r in Ok (JStd (mkStdResponse RC_OK None)))
  end.
End job_manager.

(** ** The task managers of a cluster, by address: those that are not there do not answer *)
Definition answer {E} (r : res E (StdResponse string)) : res HttpClientError (StdResponse string) :=
  match r with Ok a => Ok a | _ => Err SendRequestError end.

#[global] Instance task_managers_api {HO : HashOrder} : TaskManagerApi (gmap string TaskManager) := {|
  post_task := fun address application_id execute_model s =>
    match s !! address with
    | None => (s, Err SendRequestError)
    | Some tm => let '(tm, r) := execute_task (E := unit) application_id execute_model tm in (<[address := tm]> s, answer r)
    end;
  delete_task := fun address application_id task_id s =>
    match s !! address with
    | None => (s, Err SendRequestError)
    | Some tm => let '(tm, r) := tm_kill_task application_id task_id tm in (<[address := tm]> s, Ok r)
    end;
  delete_application := fun address application_id s =>
    match s !! address with
    | None => (s, Err SendRequestError)
    | Some tm => let '(tm, r) := kill_job_tasks application_id tm in (<[address := tm]> s, Ok r)
    end
|}.

(** ** Where the processes are started *)

Lemma filter_first {A} (P : A -> Prop) `{forall x, Decision (P x)} (l : list A) x r : filter P l = x :: r ->
  exists l1 l2, l = l1 ++ x :: l2 /\ filter P l1 = [] /\ P x /\ filter P l2 = r.
Proof.
  induction l as [|y l IH]; [done|]. rewrite filter_cons. case_decide as Hy.
  - intros [= -> <-]. by exists [], l.
  - intros Hr. destruct (IH Hr) as (l1 & l2 & -> & H1 & H2 & H3). exists (y :: l1), l2. rewrite filter_cons, decide_False by done. done.
Qed.

Lemma seq_split_at a n l1 x l2 : seq a n = l1 ++ x :: l2 -> l1 = seq a (x - a) /\ (a <= x)%nat /\ (x < a + n)%nat.
Proof.
  intros H. assert (x = (a + length l1)%nat) as ->.
  { assert (seq a n !! length l1 = Some x) as Hx by (rewrite H; by apply list_lookup_middle). apply lookup_seq in Hx. lia. }
  assert (length l1 < n)%nat as Hn. { pose proof (f_equal length H) as Hl. rewrite length_seq, length_app in Hl. cbn in Hl. lia. }
  split_and!; [|lia..]. replace (a + length l1 - a)%nat with (length l1) by lia.
  replace n with (length l1 + (n - length l1))%nat in H by lia. rewrite seq_app in H.
  apply app_inj_1 in H as [H _]; [done|]. by rewrite length_seq.
Qed.

(** What the job manager does, for task managers of which some always answer and the
    others never do. *)
Section placement.
Context {S : Type} {TA : TaskManagerApi S} (aid : string) (tms : list string).
Context (up : string -> Prop) `{forall a, Decision (up a)} (I : S -> Prop).
Context (exec : string -> ExecuteRequest -> S -> S) (tid : string -> S -> string).
Context (Hup : forall a em s, I s -> up a -> post_task a aid em s = (exec a em s, Ok (StdResponse_ok (Some (tid a s)))) /\ I (exec a em s)).
Context (Hdown : forall a em s, I s -> ~ up a -> exists e, post_task a aid em s = (s, Err e)).

Abbreviation ups := (filter up tms).

(** The processes [ps], each started at its address, in order. *)
Fixpoint start_at (ps : list (string * ExecuteRequest)) (s : S) : S * list TaskResourceInfo :=
  match ps with
  | [] => (s, [])
  | (a, em) :: ps =>
      let '(s', infos) := start_at ps (exec a em s) in
      (s', TaskResourceInfo_new (tid a s) a (default "" (er_args em !! "task_manager_id")) :: infos)
  end.

(** The task managers that answer, in turn from the [k]-th. *)
Fixpoint in_turn (k : nat) (ems : list ExecuteRequest) : list (string * ExecuteRequest) :=
  match ems with
  | [] => []
  | em :: ems => (ups !!! (k mod length ups)%nat, em) :: in_turn (k + 1) ems
  end.

Abbreviation upi := (fun i => up (tms !!! i)).

Lemma upi_ups l : Forall (fun i => (i < length tms)%nat) l -> (fun i => tms !!! i) <$> filter upi l = filter up ((fun i => tms !!! i) <$> l).
Proof.
  induction 1 as [|i l Hi _ IH]; [done|]. rewrite fmap_cons, !filter_cons. case_decide; cbn [fmap list_fmap]; by rewrite <- IH.
Qed.

Lemma tms_seq : (fun i => tms !!! i) <$> seq 0 (length tms) = tms.
Proof.
  apply list_eq. intros i. rewrite list_lookup_fmap. destruct (decide (i < length tms)%nat) as [Hi|Hi].
  - rewrite lookup_seq_lt by done. cbn [fmap option_fmap option_map Nat.add]. symmetry. by apply list_lookup_lookup_total_lt.
  - rewrite lookup_seq_ge, (lookup_ge_None_2 tms) by lia. done.
Qed.

Abbreviation indices := (filter upi (seq 0 (length tms))).

Lemma indices_ups : (fun i => tms !!! i) <$> indices = ups.
Proof. rewrite upi_ups, tms_seq; [done|]. apply Forall_forall. intros i Hi%elem_of_seq. lia. Qed.

Lemma publish_loop_eq em indies s : I s -> Forall (fun i => (i < length tms)%nat) indies ->
  publish_loop aid em tms indies s = match filter upi indies with
    | [] => (s, Err (MessageStatusError "No available TaskManager"))
    | i :: _ => let a := tms !!! i in (exec a em s, Ok (TaskResourceInfo_new (tid a s) a (default "" (er_args em !! "task_manager_id")), i))
    end.
Proof.
  intros Hs Hi. induction Hi as [|i indies Hi Hrest IH]; [done|]. cbn [publish_loop]. rewrite (list_lookup_lookup_total_lt tms i Hi), filter_cons. unfold publish_task.
  case_decide as Hd.
  - destruct (Hup (tms !!! i) em s Hs Hd) as [-> _]. done.
  - destruct (Hdown (tms !!! i) em s Hs Hd) as [e ->]. cbn. apply IH.
Qed.

(** [start] comes after [j] of the task managers that answer. *)
Definition after (start j : nat) : Prop := (start <= length tms)%nat /\ filter upi (seq 0 start) = take j indices.

Lemma publish_task_0_eq em start j s : I s -> after start j -> ups <> [] ->
  exists i, publish_task_0 aid em start tms s = (let a := tms !!! i in (exec a em s, Ok (TaskResourceInfo_new (tid a s) a (default "" (er_args em !! "task_manager_id")), i))) /\
    (i < length tms)%nat /\ up (tms !!! i) /\
    tms !!! i = ups !!! (if decide (j < length ups)%nat then j else 0)%nat /\ after (i + 1) (if decide (j < length ups)%nat then j + 1 else 1)%nat.
Proof.
  intros Hs [Hst Hf] Hne. unfold publish_task_0. rewrite publish_loop_eq; [|done|apply Forall_app; split; apply Forall_forall; intros i Hi%elem_of_seq; lia].
  assert (length indices = length ups) as Hlen by (by rewrite <- indices_ups, length_fmap).
  assert (indices = take j indices ++ filter upi (seq start (length tms - start))) as Hsplit.
  { rewrite <- Hf, <- filter_app, <- seq_app. do 2 f_equal. lia. }
  assert (filter upi (seq start (length tms - start)) = drop j indices) as Hdrop.
  { apply (app_inv_head (take j indices)). by rewrite take_drop, <- Hsplit. }
  assert (forall i, (fun i => tms !!! i) <$> indices !! i = ups !! i) as Hidx by (intros i; by rewrite <- indices_ups, list_lookup_fmap).
  rewrite filter_app, Hdrop, Hf. case_decide as Hj.
  - destruct (lookup_lt_is_Some_2 indices j) as [i Hi]; [lia|]. rewrite (drop_S _ _ _ Hi). cbn [app]. exists i.
    pose proof Hdrop as Hd. rewrite (drop_S _ _ _ Hi) in Hd. apply filter_first in Hd as (l1 & l2 & Hseq & H1 & Hx & _).
    pose proof (seq_split_at _ _ _ _ _ Hseq) as (-> & Hle & Hlt). split_and!; [done|lia|done| |].
    + specialize (Hidx j). rewrite Hi in Hidx. symmetry. by apply list_lookup_total_correct.
    + split; [lia|]. replace (i + 1)%nat with (start + (i - start) + 1)%nat by lia. rewrite !seq_app, !filter_app, !Nat.add_0_l, H1, Hf. cbn [seq]. replace (start + (i - start))%nat with i by lia.
      rewrite filter_cons, decide_True by done. cbn [filter list_filter]. rewrite app_nil_r. replace (j + 1)%nat with (Datatypes.S j) by lia. by rewrite (take_S_r _ _ _ Hi).
  - rewrite drop_ge by lia. cbn [app]. rewrite take_ge by lia. rewrite take_ge in Hf by lia.
    destruct indices as [|i r] eqn:Ei; [cbn in Hlen; by destruct ups|]. exists i. pose proof Ei as Ei'.
    apply filter_first in Ei' as (l1 & l2 & Hseq & H1 & Hx & _). pose proof (seq_split_at _ _ _ _ _ Hseq) as (-> & Hle & Hlt). split_and!; [done|lia|done| |].
    + specialize (Hidx 0%nat). cbn in Hidx. symmetry. by apply list_lookup_total_correct.
    + split; [lia|]. rewrite Ei. cbn [take]. rewrite seq_app, filter_app. rewrite Nat.sub_0_r in H1. rewrite H1. cbn [seq Nat.add app]. rewrite filter_cons, decide_True by done. done.
Qed.

Lemma submit_loop_eq ems : forall k j start acc s, I s -> after start j -> ups <> [] -> (j <= length ups)%nat -> (j mod length ups = k mod length ups)%nat ->
  submit_loop aid ems tms start acc s = (let '(s', infos) := start_at (in_turn k ems) s in (s', Ok (acc ++ infos))).
Proof.
  induction ems as [|em ems IH]; intros k j start acc s Hs Ha Hne Hj Hk; [cbn; by rewrite app_nil_r|]. cbn [submit_loop in_turn start_at].
  destruct (publish_task_0_eq em start j s Hs Ha Hne) as (i & -> & Hi & Hu & Hx & Ha'). cbv beta iota zeta. rewrite decide_False by lia.
  assert ((if decide (j < length ups)%nat then j else 0) = k mod length ups)%nat as Hjk.
  { rewrite <- Hk. case_decide; [by rewrite Nat.mod_small|]. replace j with (length ups) by lia. rewrite Nat.Div0.mod_same. done. }
  rewrite Hx, Hjk. rewrite Hjk in Hx. assert (length ups <> 0%nat) as Hl by (by destruct ups).
  rewrite (IH (k + 1)%nat (if decide (j < length ups)%nat then j + 1 else 1)%nat); [|rewrite <- Hx; by apply Hup|done|done|case_decide; lia|].
  - destruct (start_at _ _) as [s' infos]. by rewrite <- app_assoc.
  - rewrite <- (Nat.Div0.add_mod_idemp_l k), <- Hjk. case_decide; [done|]. done.
Qed.

Lemma submit_loop_none em ems start acc s : I s -> ups = [] -> (start <= length tms)%nat ->
  submit_loop aid (em :: ems) tms start acc s = (s, Err (MessageStatusError "No available TaskManager")).
Proof.
  intros Hs Hn Hst. cbn [submit_loop]. unfold publish_task_0. rewrite publish_loop_eq; [|done|apply Forall_app; split; apply Forall_forall; intros i Hi%elem_of_seq; lia].
  rewrite filter_none; [done|]. apply Forall_app. split; apply Forall_forall; intros i Hi%elem_of_seq Hu;
    (assert (tms !!! i ∈ ups) as He; [apply list_elem_of_filter; split; [done|]; apply list_elem_of_lookup_total_2; lia|rewrite Hn in He; by apply not_elem_of_nil in He]).
Qed.
End placement.

(** ** What the task managers do *)
Section started.
Context {HO : HashOrder} (aid : string).

Definition id_at (tm : TaskManager) (c : Z) : string :=
  task_manager_bind_ip (sc_config (tm_context tm)) +:+ "-" +:+ pretty (tm_start_time tm) +:+ "-" +:+ pretty c.

(** The command for a process under the task id [id]. *)
Definition command_for (tm : TaskManager) (em : ExecuteRequest) (id : string) : ShellCommand :=
  mkShellCommand (sc_script_path (tm_context tm)) (key_value <$> hiter (er_args em))
    (task_envs tm aid id (executable_file em) (default "" (head (application_manager_address (sc_config (tm_context tm)))))) (task_dir tm aid id).

Definition executed (em : ExecuteRequest) (tm : TaskManager) : TaskManager :=
  execute_shell_command (command_for tm em (next_task_id tm)) (create_dir aid (next_task_id tm) (tm_count tm)).

(** A task manager that knows its job manager. *)
Definition serving (tm : TaskManager) : Prop := application_manager_address (sc_config (tm_context tm)) <> [].

Lemma execute_task_eq {E} em tm : serving tm -> execute_task (E := E) aid em tm = (executed em tm, Ok (StdResponse_ok (Some (next_task_id tm)))).
Proof. unfold serving, execute_task, executed, command_for, tm_count. cbn. by destruct (application_manager_address _). Qed.

Definition same_config (tm tm' : TaskManager) : Prop := tm_context tm' = tm_context tm /\ tm_work_space tm' = tm_work_space tm /\ tm_start_time tm' = tm_start_time tm.

Lemma same_config_id tm tm' c : same_config tm tm' -> id_at tm' c = id_at tm c.
Proof. intros (H1 & _ & H3). unfold id_at. by rewrite H1, H3. Qed.

Lemma same_config_command tm tm' em id : same_config tm tm' -> command_for tm' em id = command_for tm em id.
Proof. intros (H1 & H2 & H3). unfold command_for, task_envs, task_dir. by rewrite H1, H2. Qed.

Definition exec_at (a : string) (em : ExecuteRequest) (s : gmap string TaskManager) : gmap string TaskManager :=
  match s !! a with Some tm => <[a := executed em tm]> s | None => s end.

Definition tid_at (a : string) (s : gmap string TaskManager) : string := match s !! a with Some tm => next_task_id tm | None => "" end.

Abbreviation start_all := (start_at exec_at tid_at).

Definition all_serving (s : gmap string TaskManager) : Prop := forall a tm, s !! a = Some tm -> serving tm.

(** [n] more tasks can be counted. *)
Definition room (n : nat) (s : gmap string TaskManager) : Prop := forall a tm, s !! a = Some tm -> 0 <= tm_counter tm /\ tm_counter tm + Z.of_nat n < 2 ^ 64.

Lemma exec_at_lookup a em s tm : s !! a = Some tm -> exec_at a em s = <[a := executed em tm]> s.
Proof. unfold exec_at. by intros ->. Qed.

Lemma exec_at_room n a em s : room (S n) s -> room n (exec_at a em s).
Proof.
  intros Hr b tm. unfold exec_at. destruct (s !! a) as [tm0|] eqn:E; [|intros H; destruct (Hr _ _ H); lia].
  destruct (decide (a = b)) as [<-|]; [|rewrite lookup_insert_ne by done; intros H; destruct (Hr _ _ H); lia].
  rewrite lookup_insert_eq. intros [= <-]. destruct (Hr _ _ E). cbn [executed execute_shell_command create_dir tm_set_dirs tm_count tm_counter]. rewrite wrap_u64_small by lia. lia.
Qed.

(** What a process that was started looks like: it got the number [c] of its task manager. *)
Definition started_as (s s' : gmap string TaskManager) (n : nat) (a : string) (em : ExecuteRequest) (info : TaskResourceInfo) : Prop :=
  exists tm tm' c, s !! a = Some tm /\ s' !! a = Some tm' /\ same_config tm tm' /\ tm_counter tm <= c < tm_counter tm + Z.of_nat n /\
    info = TaskResourceInfo_new (id_at tm c) a (default "" (er_args em !! "task_manager_id")) /\ command_for tm em (id_at tm c) ∈ tm_started tm'.

Lemma start_all_grows ps : forall s s' infos, start_all ps s = (s', infos) -> forall a tm, s !! a = Some tm ->
  exists tm' new, s' !! a = Some tm' /\ same_config tm tm' /\ tm_started tm' = tm_started tm ++ new /\ length new = length (filter (fun p => p.1 = a) ps).
Proof.
  induction ps as [|[b em] ps IH]; intros s s' infos Hs a tm Ha.
  - injection Hs as <- <-. exists tm, []. by rewrite app_nil_r.
  - cbn [start_at] in Hs. destruct (start_all ps _) as [s1 infos1] eqn:E1. injection Hs as <- <-. rewrite filter_cons. cbn [fst]. case_decide as Hb.
    + subst b. destruct (IH _ _ _ E1 a (executed em tm)) as (tm' & new & H1 & H2 & H3 & H4); [by rewrite (exec_at_lookup _ _ _ _ Ha), lookup_insert_eq|].
      exists tm', (command_for tm em (next_task_id tm) :: new). split_and!; [done|done| |by cbn; rewrite H4]. rewrite H3. cbn. by rewrite <- app_assoc.
    + apply (IH _ _ _ E1). unfold exec_at. destruct (s !! b); [by rewrite lookup_insert_ne|done].
Qed.

Lemma start_all_started ps : forall s s' infos, start_all ps s = (s', infos) -> room (length ps) s -> (forall a em, (a, em) ∈ ps -> is_Some (s !! a)) ->
  Forall2 (fun p info => started_as s s' (length ps) p.1 p.2 info) ps infos.
Proof.
  induction ps as [|[b em] ps IH]; intros s s' infos Hs Hr Hd.
  - injection Hs as <- <-. constructor.
  - cbn [start_at] in Hs. destruct (start_all ps _) as [s1 infos1] eqn:E1. injection Hs as <- <-.
    destruct (Hd b em) as [tm Htm]; [by left|]. constructor.
    + destruct (start_all_grows _ _ _ _ E1 b (executed em tm)) as (tm' & new & H1 & H2 & H3 & H4); [by rewrite (exec_at_lookup _ _ _ _ Htm), lookup_insert_eq|].
      exists tm, tm', (tm_counter tm). cbn [fst snd length]. split_and!; [done|done|done|lia|lia| |].
      * unfold tid_at. by rewrite Htm.
      * rewrite H3. apply elem_of_app. left. apply elem_of_app. right. by apply list_elem_of_singleton.
    + eapply Forall2_impl; [apply (IH _ _ _ E1)|].
      * by apply exec_at_room.
      * intros a em' Hin. rewrite (exec_at_lookup _ _ _ _ Htm). destruct (decide (b = a)) as [->|]; [rewrite lookup_insert_eq; by eexists|]. rewrite lookup_insert_ne by done. apply (Hd a em'). by right.
      * intros [a em'] info (tm1 & tm' & c & H1 & H2 & H3 & H4 & -> & H6). cbn [fst snd] in *. rewrite (exec_at_lookup _ _ _ _ Htm) in H1. cbn [length].
        destruct (decide (b = a)) as [->|]; [|rewrite lookup_insert_ne in H1 by done; exists tm1, tm', c; split_and!; done || lia].
        rewrite lookup_insert_eq in H1. injection H1 as <-. assert (same_config tm (executed em tm)) as Hc by done. exists tm, tm', c.
        rewrite (same_config_id _ _ _ Hc) in *. rewrite (same_config_command _ _ _ _ Hc) in H6. pose proof (Hr _ _ Htm). cbn [length] in *.
        cbn [executed execute_shell_command create_dir tm_set_dirs tm_count tm_counter] in H4. rewrite wrap_u64_small in H4 by lia. split_and!; done || lia.
Qed.

Definition place (i : TaskResourceInfo) : option string * option string := (tri_task_manager_address i, tri_task_id i).

Lemma place_new id a t : place (TaskResourceInfo_new id a t) = (Some a, Some id).
Proof. reflexivity. Qed.

Lemma id_at_inj tm c c' : id_at tm c = id_at tm c' -> c = c'.
Proof. unfold id_at. intros H%(inj _)%(inj _)%(inj _)%(inj _). by apply (inj pretty). Qed.

Lemma start_all_distinct ps : forall s s' infos, start_all ps s = (s', infos) -> room (length ps) s -> (forall a em, (a, em) ∈ ps -> is_Some (s !! a)) -> NoDup (place <$> infos).
Proof.
  induction ps as [|[b em] ps IH]; intros s s' infos Hs Hr Hd.
  - injection Hs as <- <-. constructor.
  - cbn [start_at] in Hs. destruct (start_all ps _) as [s1 infos1] eqn:E1. injection Hs as <- <-.
    destruct (Hd b em) as [tm Htm]; [by left|]. assert (forall a em', (a, em') ∈ ps -> is_Some (exec_at b em s !! a)) as Hd'.
    { intros a em' Hin. rewrite (exec_at_lookup _ _ _ _ Htm). destruct (decide (b = a)) as [->|]; [rewrite lookup_insert_eq; by eexists|]. rewrite lookup_insert_ne by done. apply (Hd a em'). by right. }
    cbn [fmap list_fmap]. constructor; [|by apply (IH _ _ _ E1); [apply exec_at_room|]].
    pose proof (start_all_started _ _ _ _ E1 (exec_at_room _ _ _ _ Hr) Hd') as Hall. rewrite place_new. intros Hin%list_elem_of_fmap. destruct Hin as (info & Hp & Hi).
    apply list_elem_of_lookup in Hi as [k Hk]. destruct (Forall2_lookup_r _ _ _ _ _ Hall Hk) as ([a em'] & _ & (tm1 & tm' & c & H1 & _ & _ & H4 & -> & _)).
    rewrite place_new in Hp. injection Hp as <- Hid. cbn [fst] in H1. rewrite (exec_at_lookup _ _ _ _ Htm), lookup_insert_eq in H1. injection H1 as <-.
    assert (same_config tm (executed em tm)) as Hc by done. rewrite (same_config_id _ _ _ Hc) in Hid. unfold tid_at in Hid. rewrite Htm in Hid. apply (id_at_inj tm (tm_counter tm)) in Hid. subst c.
    pose proof (Hr _ _ Htm). cbn [executed execute_shell_command create_dir tm_set_dirs tm_count tm_counter length] in *. rewrite wrap_u64_small in H4 by lia. lia.
Qed.
End started.

Lemma in_turn_lookup tms up `{forall a, Decision (up a)} ems : forall k i, in_turn tms up k ems !! i = (fun em => (filter up tms !!! ((k + i) mod length (filter up tms))%nat, em)) <$> ems !! i.
Proof.
  induction ems as [|em ems IH]; intros k i; [done|]. destruct i as [|i]; cbn [in_turn lookup list_lookup]; [by rewrite Nat.add_0_r|]. rewrite IH. do 3 f_equal. by rewrite <- Nat.add_assoc.
Qed.

Section submit.
Context {HO : HashOrder} {SA : SerdeJson Application} {ST : SerdeJson (list TaskResourceInfo)}.

(** The task managers of the list that answer. *)
Definition answering (s : gmap string TaskManager) (tms : list string) : list string := filter (fun a => is_Some (s !! a)) tms.

Definition request_of (job : Application) (args : gmap string string) : ExecuteRequest := mkExecuteRequest (app_execute_file job) args.

Lemma post_task_up (s0 : gmap string TaskManager) aid a em s : dom s = dom s0 /\ all_serving s -> is_Some (s0 !! a) ->
  post_task a aid em s = (exec_at aid a em s, Ok (StdResponse_ok (Some (tid_at a s)))) /\ dom (exec_at aid a em s) = dom s0 /\ all_serving (exec_at aid a em s).
Proof.
  intros [Hd Hs] Ha%elem_of_dom. rewrite <- Hd in Ha. apply elem_of_dom in Ha as [tm Htm]. cbn [post_task task_managers_api]. unfold exec_at, tid_at. rewrite Htm, execute_task_eq by eauto.
  split_and!; [done|rewrite dom_insert_lookup_L; [done|by eexists]|]. intros b tm'. destruct (decide (a = b)) as [<-|]; [|rewrite lookup_insert_ne by done; apply Hs].
  rewrite lookup_insert_eq. intros [= <-]. exact (Hs _ _ Htm).
Qed.

Lemma post_task_down (s0 : gmap string TaskManager) aid a em (s : gmap string TaskManager) : dom s = dom s0 /\ all_serving s -> ~ is_Some (s0 !! a) -> exists e, post_task a aid em s = (s, Err e).
Proof.
  intros [Hd _] Ha. exists SendRequestError. cbn [post_task task_managers_api]. destruct (s !! a) eqn:E; [|done]. destruct Ha. apply elem_of_dom. rewrite <- Hd. apply elem_of_dom. by eexists.
Qed.

Context (aid : string) (batch : list (gmap string string)) (jm : JobManager) (s : gmap string TaskManager) (job : Application).
Context (Hjob : Application_load aid jm = Ok job) (Hlive : app_status job <> Killed) (Hserving : all_serving s) (Hroom : room (length batch) s).

Abbreviation listed := (sc_task_managers (jm_context jm)).
Abbreviation turns := (in_turn listed (fun a => is_Some (s !! a)) 0 (request_of job <$> batch)).

Lemma length_turns : length turns = length batch.
Proof. rewrite <- (length_fmap (request_of job) batch). generalize (request_of job <$> batch) as l, 0%nat as k. induction l as [|em l IH]; intros k; [done|]. cbn. by rewrite IH. Qed.

Lemma turns_answer a em : answering s listed <> [] -> (a, em) ∈ turns -> is_Some (s !! a).
Proof.
  intros Hup [k Hk]%list_elem_of_lookup. rewrite in_turn_lookup in Hk. destruct ((request_of job <$> batch) !! k) as [em'|]; [|done]. injection Hk as <- <-.
  assert (forall x, x ∈ answering s listed -> is_Some (s !! x)) as Hx by (intros x Hx; by apply list_elem_of_filter in Hx as [? _]). apply Hx. apply list_elem_of_lookup_total_2.
  apply Nat.mod_upper_bound. by intros H0%nil_length_inv.
Qed.

(** Submitting starts the processes in turn. *)
Lemma submit_job_started : answering s listed <> [] -> exists s' infos,
  submit_job aid (mkBatchExecuteRequest batch) jm s = (s', Ok (JStd (mkStdResponse RC_OK (Some (json_to_string infos))))) /\
  start_at (exec_at aid) tid_at turns s = (s', infos) /\ Forall2 (fun p info => started_as aid s s' (length batch) p.1 p.2 info) turns infos /\
  (forall k args, batch !! k = Some args -> exists a info, let up := answering s listed in
     up !! (k mod length up)%nat = Some a /\ infos !! k = Some info /\ started_as aid s s' (length batch) a (request_of job args) info).
Proof.
  intros Hup. unfold submit_job. rewrite Hjob. cbn [io_error batch_args]. rewrite decide_False by done. rewrite decide_False by (destruct listed; done).
  change (mkExecuteRequest (app_execute_file job) <$> batch) with (request_of job <$> batch).
  rewrite (submit_loop_eq aid listed (fun a => is_Some (s !! a)) (fun s' => dom s' = dom s /\ all_serving s') (exec_at aid) tid_at (post_task_up s aid) (post_task_down s aid) _ 0 0 0 [] s);
    [|done|split; [lia|done]|done|lia|done].
  destruct (start_at _ _ _ _) as [s' infos] eqn:E. exists s', infos.
  pose proof (start_all_started _ _ _ _ _ E) as Hall. rewrite length_turns in Hall. specialize (Hall Hroom (fun a em => turns_answer a em Hup)). split_and!; [done..|].
  intros k args Hk. assert (turns !! k = Some (answering s listed !!! (k mod length (answering s listed))%nat, request_of job args)) as Ht.
  { by rewrite in_turn_lookup, list_lookup_fmap, Hk. }
  destruct (Forall2_lookup_l _ _ _ _ _ Hall Ht) as (info & Hi & Hst). exists (answering s listed !!! (k mod length (answering s listed))%nat), info. cbv zeta. split_and!; [|done..].
  apply list_lookup_lookup_total_lt. apply Nat.mod_upper_bound. by intros H0%nil_length_inv.
Qed.

(** Each task manager has started the processes the answer lists for it. *)
Lemma started_counted s' infos a : Forall2 (fun p info => started_as aid s s' (length batch) p.1 p.2 info) turns infos ->
  length (filter (fun p => p.1 = a) turns) = length (filter (fun i => tri_task_manager_address i = Some a) infos).
Proof.
  induction 1 as [|p info ps infos (tm & tm' & c & _ & _ & _ & _ & -> & _) _ IH]; [done|]. rewrite !filter_cons.
  change (tri_task_manager_address (TaskResourceInfo_new (id_at tm c) p.1 (default "" (er_args p.2 !! "task_manager_id")))) with (Some p.1).
  destruct (decide (p.1 = a)) as [->|Hne]; [rewrite decide_True by done; cbn; by f_equal|]. by rewrite decide_False by congruence.
Qed.

(** Submitting an application that was not killed: when some task manager of the list
    answers, every process of the batch is started, the [k]-th on the [k]-th of the
    managers that answer, in turn, with the arguments given for it; each manager has
    started exactly the processes of its turn, no two processes have the same place (task
    manager and task id), and the answer lists them in the order of the batch. When none
    answers, nothing is started and the answer is an error. *)
Theorem submit_job_places :
  (answering s listed <> [] -> exists s' infos,
     submit_job aid (mkBatchExecuteRequest batch) jm s = (s', Ok (JStd (mkStdResponse RC_OK (Some (json_to_string infos))))) /\
     length infos = length batch /\ NoDup (place <$> infos) /\
     (forall k args, batch !! k = Some args -> exists a info, let up := answering s listed in
        up !! (k mod length up)%nat = Some a /\ infos !! k = Some info /\ started_as aid s s' (length batch) a (request_of job args) info) /\
     (forall a tm, s !! a = Some tm -> exists tm' new, s' !! a = Some tm' /\ tm_started tm' = tm_started tm ++ new /\
        length new = length (filter (fun i => tri_task_manager_address i = Some a) infos))) /\
  (answering s listed = [] -> listed <> [] -> batch <> [] ->
     submit_job aid (mkBatchExecuteRequest batch) jm s = (s, Err (ClientError (MessageStatusError "No available TaskManager")))).
Proof.
  split.
  - intros Hup. destruct (submit_job_started Hup) as (s' & infos & H1 & H2 & H3 & H4). exists s', infos. split_and!; [done|..|done|].
    + rewrite <- (Forall2_length _ _ _ H3). apply length_turns.
    + apply (start_all_distinct _ _ _ _ _ H2); [by rewrite length_turns|]. intros a em. by apply turns_answer.
    + intros a tm Ha. destruct (start_all_grows _ _ _ _ _ H2 a tm Ha) as (tm' & new & K1 & _ & K3 & K4). exists tm', new. split_and!; [done..|]. rewrite K4. by apply (started_counted s').
  - intros Hno Hne Hb. unfold submit_job. rewrite Hjob. cbn [io_error batch_args]. rewrite decide_False by done. rewrite decide_False by (by destruct listed). destruct batch as [|args batch']; [done|]. cbn [fmap list_fmap].
    rewrite (submit_loop_none aid listed (fun a => is_Some (s !! a)) (fun s' => dom s' = dom s /\ all_serving s') (exec_at aid) tid_at (post_task_up s aid) (post_task_down s aid)); [done|done|done|lia].
Qed.
End submit.

(** ** Stopping *)
Section stopping.
Context (aid : string).

(** The process of a task, where its file holds exactly one id. *)
Definition running_pid (tm : TaskManager) (task_id : string) : option string :=
  lines ← pid_file aid task_id tm; match nonempty_lines lines with [pid] => Some pid | _ => None end.

(** [tm'] is [tm] after the processes of the tasks [ts] were killed: each once, in order,
    and their files are gone; nothing else has changed. *)
Definition killed_tasks (ts : list string) (tm tm' : TaskManager) : Prop :=
  tm_killed tm' = tm_killed tm ++ omap (running_pid tm) ts /\ tm_started tm' = tm_started tm /\ same_config tm tm' /\ tm_counter tm' = tm_counter tm /\
  forall app t, pid_file app t tm' = if decide (app = aid /\ t ∈ ts /\ is_Some (running_pid tm t)) then None else pid_file app t tm.

Lemma killed_none ts tm : Forall (fun t => running_pid tm t = None) ts -> killed_tasks ts tm tm.
Proof.
  intros H. split_and!; try done.
  - assert (omap (running_pid tm) ts = []) as ->; [|by rewrite app_nil_r]. by induction H as [|t ts Ht _ IH]; [|cbn; rewrite Ht, IH].
  - intros app t. rewrite decide_False; [done|]. intros (_ & Ht & Hs). rewrite Forall_forall in H. rewrite (H t Ht) in Hs. by destruct Hs.
Qed.

Lemma killed_one t pid tm : running_pid tm t = Some pid -> killed_tasks [t] tm (remove_pid_file aid t (kill_pid pid tm)).
Proof.
  intros Hp. unfold remove_pid_file. cbn [tm_dirs kill_pid].
  assert (exists app_dir, tm_dirs tm !! aid = Some app_dir /\ is_Some (app_dir !! t)) as (app_dir & Hd & Ht).
  { unfold running_pid, pid_file in Hp. destruct (tm_dirs tm !! aid) as [d|]; [|done]. cbn in Hp. exists d. split; [done|]. destruct (d !! t); [by eexists|done]. }
  rewrite Hd. split_and!; try done.
  - cbn. by rewrite Hp.
  - intros app t'. unfold pid_file at 1. cbn [tm_dirs tm_set_dirs kill_pid]. destruct (decide (app = aid)) as [->|Hne].
    + rewrite lookup_insert_eq. cbn [mbind option_bind]. destruct (decide (t' = t)) as [->|Hne].
      * rewrite lookup_insert_eq, decide_True; [done|]. split_and!; [done|by apply list_elem_of_singleton|by eexists].
      * rewrite lookup_insert_ne by done. rewrite decide_False by (intros (_ & Hin%list_elem_of_singleton & _); done). unfold pid_file. by rewrite Hd.
    + rewrite lookup_insert_ne by done. rewrite decide_False by tauto. done.
Qed.

Lemma tm_kill_task_spec t tm : exists tm', (tm_kill_task aid t tm).1 = tm' /\ killed_tasks [t] tm tm'.
Proof.
  eexists. split; [done|]. unfold tm_kill_task. destruct (pid_file aid t tm) as [lines|] eqn:Ep.
  - destruct (nonempty_lines lines) as [|pid [|]] eqn:El; [| |].
    all: cbn [fst]; try (apply killed_none; repeat constructor; unfold running_pid; rewrite Ep; cbn; by rewrite El).
    apply killed_one. unfold running_pid. rewrite Ep. cbn. by rewrite El.
  - cbn [fst]. apply killed_none. repeat constructor. unfold running_pid. by rewrite Ep.
Qed.

Lemma killed_running ts tm tm' t : killed_tasks ts tm tm' -> t ∉ ts -> running_pid tm' t = running_pid tm t.
Proof. intros (_ & _ & _ & _ & H) Ht. unfold running_pid. rewrite H, decide_False by tauto. done. Qed.

Lemma killed_stopped ts tm tm' t : killed_tasks ts tm tm' -> t ∈ ts -> running_pid tm' t = None.
Proof.
  intros (_ & _ & _ & _ & H) Ht. destruct (running_pid tm t) as [pid|] eqn:E.
  - unfold running_pid. rewrite H, decide_True; [done|]. split_and!; [done..|by eexists].
  - unfold running_pid in *. rewrite H, decide_False; [done|]. intros (_ & _ & [? Hs]). unfold running_pid in Hs. congruence.
Qed.

Lemma killed_app ts1 ts2 tm tm1 tm2 : (forall t, t ∈ ts1 -> t ∉ ts2) -> killed_tasks ts1 tm tm1 -> killed_tasks ts2 tm1 tm2 -> killed_tasks (ts1 ++ ts2) tm tm2.
Proof.
  intros Hd H1 H2. pose proof H1 as (K1 & S1 & (C1 & C1' & C1'') & N1 & F1). pose proof H2 as (K2 & S2 & (C2 & C2' & C2'') & N2 & F2).
  assert (forall t, t ∈ ts2 -> running_pid tm1 t = running_pid tm t) as Hr. { intros t Ht. apply (killed_running ts1); [done|]. intros Ht'. by apply (Hd t). }
  split_and!; [| congruence | split_and!; congruence | congruence |].
  - rewrite K2, K1, omap_app, <- app_assoc. do 2 f_equal. clear -Hr. induction ts2 as [|t ts IH]; [done|]. cbn. rewrite Hr by (by left). rewrite IH by (intros; apply Hr; by right). done.
  - intros app t. rewrite F2, F1. destruct (decide (app = aid /\ t ∈ ts1 ++ ts2 /\ is_Some (running_pid tm t))) as [(-> & Hin & Hs)|Hn].
    + apply elem_of_app in Hin as [Hin|Hin].
      * rewrite decide_False by (intros (_ & ? & _); by apply (Hd t)). by rewrite decide_True.
      * rewrite decide_True; [done|]. split_and!; [done..|]. by rewrite Hr.
    + rewrite !decide_False; [done| |]; intros (-> & Hin & Hs); apply Hn; (split_and!; [done|apply elem_of_app; tauto|]); [done|]. by rewrite <- Hr.
Qed.

(** The tasks of the list that run at [a]. *)
Definition tasks_at (a : string) (infos : list TaskResourceInfo) : list string :=
  omap (fun i => if decide (tri_task_manager_address i = Some a) then tri_task_id i else None) infos.

Lemma elem_of_tasks_at a infos t : t ∈ tasks_at a infos <-> (Some a, Some t) ∈ place <$> infos.
Proof.
  unfold tasks_at. rewrite list_elem_of_omap, list_elem_of_fmap. split.
  - intros (i & Hi & Ht). case_decide as Ha; [|done]. exists i. unfold place. by rewrite Ha, Ht.
  - intros (i & Hp & Hi). injection Hp as Ha Ht. exists i. split; [done|]. by rewrite decide_True.
Qed.

Context {HO : HashOrder}.

(** Stopping the processes the coordinator was told of (each with its place, no place
    twice) always succeeds: on every task manager that answers, each listed process that
    still has its id in its file is killed, once, and its file removed; no other process
    is killed and no other file touched; and stopping the same processes again kills
    nothing. *)
Theorem shutdown_tasks_kills infos (s : gmap string TaskManager) :
  Forall (fun i => is_Some (tri_task_id i) /\ is_Some (tri_task_manager_address i)) infos -> NoDup (place <$> infos) ->
  exists s', shutdown_tasks aid infos s = (s', Ok (JStd (mkStdResponse RC_OK None))) /\ dom s' = dom s /\
    (forall a tm, s !! a = Some tm -> exists tm', s' !! a = Some tm' /\ killed_tasks (tasks_at a infos) tm tm' /\
       Forall (fun t => running_pid tm' t = None) (tasks_at a infos)).
Proof.
  intros Hw Hn. revert s. induction infos as [|i infos IH]; intros s.
  - exists s. split_and!; [done..|]. intros a tm Ha. exists tm. split_and!; [done|by apply killed_none|constructor].
  - inversion Hw as [|? ? [[t Ht] [a Ha]] Hw']; subst. inversion Hn as [|? ? Hni Hn']; subst. cbn [shutdown_tasks]. rewrite Ht, Ha. unfold jm_kill_task. cbn [delete_task task_managers_api].
    assert (place i = (Some a, Some t)) as Hpi by (unfold place; by rewrite Ha, Ht). rewrite Hpi, <- elem_of_tasks_at in Hni.
    assert (forall b, tasks_at b (i :: infos) = (if decide (a = b) then [t] else []) ++ tasks_at b infos) as Hta.
    { intros b. unfold tasks_at. cbn [omap list_omap]. rewrite Ha. destruct (decide (a = b)) as [->|]; [rewrite decide_True by done; by rewrite Ht|rewrite decide_False by congruence; done]. }
    destruct (s !! a) as [tm|] eqn:Es.
    + destruct (tm_kill_task_spec t tm) as (tm1 & E1 & K1). destruct (tm_kill_task aid t tm) as [tm1' r]. cbn in E1. subst tm1'.
      destruct (IH Hw' Hn' (<[a := tm1]> s)) as (s' & -> & Hd & Hs'). exists s'. split_and!; [done|rewrite Hd; apply dom_insert_lookup_L; by eexists|].
      intros b tm2 Hb. rewrite Hta. destruct (decide (a = b)) as [<-|Hab].
      * rewrite Es in Hb. injection Hb as <-. destruct (Hs' a tm1) as (tm' & H1 & H2 & H3); [by rewrite lookup_insert_eq|]. exists tm'.
        assert (killed_tasks ([t] ++ tasks_at a infos) tm tm') as HK by (eapply killed_app; [by intros x ->%list_elem_of_singleton|done|done]).
        split_and!; [done..|]. apply Forall_forall. intros x Hx. by apply (killed_stopped _ _ _ _ HK).
      * apply Hs'. by rewrite lookup_insert_ne.
    + destruct (IH Hw' Hn' s) as (s' & -> & Hd & Hs'). exists s'. split_and!; [done..|]. intros b tm2 Hb. rewrite Hta, decide_False by congruence. by apply Hs'.
Qed.
End stopping.

(** ** Killing an application *)
Section killing.
Context (aid : string).

Definition quiet (tm : TaskManager) : Prop := forall t, pid_file aid t tm = None.

Lemma kill_dirs_ok dirs : forall tm tm' r, NoDup dirs -> kill_dirs aid dirs tm = (tm', r) -> sr_code r = RC_OK ->
  killed_tasks aid dirs tm tm' /\ Forall (fun t => pid_file aid t tm' = None) dirs.
Proof.
  induction dirs as [|t dirs IH]; intros tm tm' r Hn Hk Hr.
  - injection Hk as <- <-. split; [by apply killed_none|constructor].
  - apply NoDup_cons in Hn as [Ht Hn]. cbn [kill_dirs] in Hk.
    assert (forall tm1, killed_tasks aid [t] tm tm1 -> pid_file aid t tm1 = None -> kill_dirs aid dirs tm1 = (tm', r) ->
      killed_tasks aid (t :: dirs) tm tm' /\ Forall (fun t => pid_file aid t tm' = None) (t :: dirs)) as Hnext.
    { intros tm1 K1 P1 Hk1. destruct (IH _ _ _ Hn Hk1 Hr) as [K2 F2]. split.
      - apply (killed_app aid [t] dirs tm tm1 tm'); [by intros x ->%list_elem_of_singleton|done|done].
      - constructor; [|done]. destruct K2 as (_ & _ & _ & _ & H2). rewrite H2, decide_False by tauto. done. }
    destruct (pid_file aid t tm) as [lines|] eqn:Ep.
    + destruct (nonempty_lines lines) as [|pid [|]] eqn:El; [by injection Hk as <- <-| |by injection Hk as <- <-].
      assert (running_pid aid tm t = Some pid) as Hrun by (unfold running_pid; rewrite Ep; cbn; by rewrite El). pose proof (killed_one aid t pid tm Hrun) as K1.
      apply (Hnext _ K1); [|done]. destruct K1 as (_ & _ & _ & _ & H1). rewrite H1, decide_True; [done|]. split_and!; [done|by apply list_elem_of_singleton|by eexists].
    + apply (Hnext tm); [|done|done]. apply killed_none. repeat constructor. unfold running_pid. by rewrite Ep.
Qed.

Lemma kill_dirs_legal dirs : forall tm, NoDup dirs -> (forall t, t ∈ dirs -> is_Some (pid_file aid t tm) -> is_Some (running_pid aid tm t)) -> sr_code (kill_dirs aid dirs tm).2 = RC_OK.
Proof.
  induction dirs as [|t dirs IH]; intros tm Hn Hl; [done|]. apply NoDup_cons in Hn as [Ht Hn]. cbn [kill_dirs].
  destruct (pid_file aid t tm) as [lines|] eqn:Ep; [|apply IH; [done|]; intros x Hx; apply Hl; by right].
  destruct (Hl t) as [pid Hp]; [by left|rewrite Ep; by eexists|]. pose proof Hp as Hrun. unfold running_pid in Hp. rewrite Ep in Hp. cbn in Hp.
  destruct (nonempty_lines lines) as [|pid' [|]]; try done. injection Hp as ->. apply IH; [done|]. intros x Hx Hpx. pose proof (killed_one aid t pid tm Hrun) as K1.
  assert (x ∉ [t]) as Hxt by (intros ->%list_elem_of_singleton; done). rewrite (killed_running _ _ _ _ _ K1 Hxt). apply Hl; [by right|].
  destruct K1 as (_ & _ & _ & _ & H1). rewrite H1, decide_False in Hpx by tauto. done.
Qed.

Context {HO : HashOrder}.

(** The tasks of the application that have a directory. *)
Definition task_dirs (tm : TaskManager) : list string := match tm_dirs tm !! aid with Some d => (hiter d).*1 | None => [] end.

Lemma task_dirs_pid tm t : is_Some (pid_file aid t tm) -> t ∈ task_dirs tm.
Proof.
  unfold task_dirs, pid_file. destruct (tm_dirs tm !! aid) as [d|]; cbn; [|by intros [? ?]]. intros [? H]. apply elem_of_hiter_keys. destruct (d !! t); [by eexists|done].
Qed.

Lemma kill_job_tasks_ok tm tm' r : kill_job_tasks aid tm = (tm', r) -> sr_code r = RC_OK -> killed_tasks aid (task_dirs tm) tm tm' /\ quiet tm'.
Proof.
  unfold kill_job_tasks, task_dirs. destruct (tm_dirs tm !! aid) as [d|] eqn:Ed.
  - intros Hk Hr. destruct (kill_dirs_ok _ _ _ _ (NoDup_hiter_fst d) Hk Hr) as [K F]. split; [done|]. intros t. destruct (decide (t ∈ (hiter d).*1)) as [Hin|Hin].
    + rewrite Forall_forall in F. by apply F.
    + destruct K as (_ & _ & _ & _ & HK). rewrite HK, decide_False by tauto. unfold pid_file. rewrite Ed. cbn. rewrite elem_of_hiter_keys in Hin. destruct (d !! t); [|done]. destruct Hin. by eexists.
  - intros [= <- <-] _. split; [by apply killed_none|]. intros t. unfold pid_file. by rewrite Ed.
Qed.

Lemma kill_job_tasks_legal tm : (forall t, is_Some (pid_file aid t tm) -> is_Some (running_pid aid tm t)) -> sr_code (kill_job_tasks aid tm).2 = RC_OK.
Proof. intros Hl. unfold kill_job_tasks. destruct (tm_dirs tm !! aid) as [d|] eqn:Ed; [|done]. apply kill_dirs_legal; [apply NoDup_hiter_fst|]. intros t _. apply Hl. Qed.

Lemma kill_job_task_cases a (s : gmap string TaskManager) : match kill_job_task aid a s with
  | (s', Ok _) => exists tm tm', s !! a = Some tm /\ s' = <[a := tm']> s /\ killed_tasks aid (task_dirs tm) tm tm' /\ quiet tm'
  | (_, Err _) => s !! a = None \/ exists tm t, s !! a = Some tm /\ is_Some (pid_file aid t tm) /\ running_pid aid tm t = None
  | (_, Panic _) => False
  end.
Proof.
  unfold kill_job_task. cbn [delete_application task_managers_api]. destruct (s !! a) as [tm|] eqn:Ea; [|by left]. destruct (kill_job_tasks aid tm) as [tm' r] eqn:Ek. cbn.
  destruct (sr_code r) as [|msg] eqn:Er.
  - destruct (kill_job_tasks_ok _ _ _ Ek Er). by exists tm, tm'.
  - right. destruct (decide (Exists (fun t => is_Some (pid_file aid t tm) /\ running_pid aid tm t = None) (task_dirs tm))) as [Hex|Hno].
    + apply Exists_exists in Hex as (t & _ & H1 & H2). eauto.
    + pose proof (kill_job_tasks_legal tm) as Hl. rewrite Ek in Hl. cbn [snd] in Hl. rewrite Er in Hl. exfalso. enough (RC_ERR msg = RC_OK) by done. apply Hl. intros t Ht. destruct (running_pid aid tm t) eqn:E; [by eexists|].
      destruct Hno. apply Exists_exists. exists t. split; [by apply task_dirs_pid|done].
Qed.

Lemma kill_on_all_ok tms : forall (s s' : gmap string TaskManager), NoDup tms -> kill_on_all aid tms s = (s', Ok tt) ->
  forall a, match s !! a with
    | Some tm => exists tm', s' !! a = Some tm' /\ (if decide (a ∈ tms) then killed_tasks aid (task_dirs tm) tm tm' /\ quiet tm' else tm' = tm)
    | None => s' !! a = None /\ a ∉ tms
    end.
Proof.
  induction tms as [|b tms IH]; intros s s' Hn Hk a.
  - injection Hk as <-. destruct (s !! a); [|split; [done|apply not_elem_of_nil]]. eexists. split; [done|]. rewrite decide_False by apply not_elem_of_nil. done.
  - apply NoDup_cons in Hn as [Hb Hn]. cbn [kill_on_all] in Hk. pose proof (kill_job_task_cases b s) as Hc. destruct (kill_job_task aid b s) as [s1 [x|e|p]]; [|done..].
    destruct Hc as (tm & tm' & Es & -> & K & Q). specialize (IH _ _ Hn Hk a). destruct (decide (b = a)) as [->|Hba].
    + rewrite lookup_insert_eq in IH. rewrite Es. destruct IH as (tm2 & H2 & H3). rewrite decide_False in H3 by done. subst tm2. exists tm'. rewrite decide_True by (by left). done.
    + rewrite lookup_insert_ne in IH by done. destruct (s !! a) as [tm0|]; [|split; [apply IH|set_solver]]. destruct IH as (tm2 & H2 & H3). exists tm2. split; [done|].
      destruct (decide (a ∈ tms)); [by rewrite decide_True by (by right)|]. rewrite decide_False; [done|]. intros [|]%elem_of_cons; [congruence|done].
Qed.

Context {SA : SerdeJson Application} {ST : SerdeJson (list TaskResourceInfo)}.

(** C22: Killing an application: from then on, however the killing ends, no process of it
    is started any more. When the answer is a success, every task manager of the list has
    killed, once each, the processes it still had an id for, and none is left; other
    applications and managers are as before. The answer is an error exactly when some
    manager does not answer or some file of a task does not hold one id. *)
Theorem kill_job_spec jm (s : gmap string TaskManager) job : Application_load aid jm = Ok job -> NoDup (sc_task_managers (jm_context jm)) ->
  exists jm' s' r, kill_job aid jm s = (jm', s', r) /\
    (forall batch s2, submit_job aid batch jm' s2 = (s2, Ok (JStd (mkStdResponse (RC_ERR "Job has killed") None)))) /\
    (forall aid', aid' <> aid -> Application_load aid' jm' = Application_load aid' jm) /\
    (is_ok r = true -> forall a tm, s !! a = Some tm -> exists tm', s' !! a = Some tm' /\
       if decide (a ∈ sc_task_managers (jm_context jm)) then killed_tasks aid (task_dirs tm) tm tm' /\ quiet tm' else tm' = tm) /\
    (is_ok r = false <-> exists a, a ∈ sc_task_managers (jm_context jm) /\ (s !! a = None \/ exists tm t, s !! a = Some tm /\ is_Some (pid_file aid t tm) /\ running_pid aid tm t = None)).
Proof.
  intros Hjob Hn. unfold kill_job. rewrite Hjob. cbn [io_error]. set (killed := mkApplication _ _ Killed). set (jm' := Application_storage aid killed jm).
  change (sc_task_managers (jm_context jm')) with (sc_task_managers (jm_context jm)). set (tms := sc_task_managers (jm_context jm)) in *.
  destruct (kill_on_all aid tms s) as [s' r] eqn:Ek. exists jm', s', (let* _ := client_error r in Ok (JStd (mkStdResponse RC_OK None))). split_and!; [done|..].
  - intros batch s2. unfold submit_job, Application_load. cbn [jm' Application_storage jm_metadata]. rewrite lookup_insert_eq, json_from_to. done.
  - intros aid' Hne. unfold Application_load. cbn [jm' Application_storage jm_metadata]. by rewrite lookup_insert_ne.
  - destruct r as [[]|e|p]; [|done..]. intros _ a tm Ha. pose proof (kill_on_all_ok tms s s' Hn Ek a) as H. by rewrite Ha in H.
  - destruct r as [[]|e|p]; cbn [client_error mbind res_bind is_ok].
    + split; [done|]. intros (a & Ha & Hc). pose proof (kill_on_all_ok tms s s' Hn Ek a) as H. destruct Hc as [Hc|(tm & t & Hs & Hp & Hr)].
      * rewrite Hc in H. by destruct H.
      * rewrite Hs in H. destruct H as (tm' & _ & H). rewrite decide_True in H by done. destruct H as [(_ & _ & _ & _ & H) Q]. specialize (H aid t). rewrite Q, decide_False in H; [|intros (_ & _ & [? ?]); congruence].
        rewrite <- H in Hp. by destruct Hp.
    + split; [intros _|done]. clear -Ek Hn. revert s Ek. induction tms as [|b tms IH]; intros s Ek; [done|]. apply NoDup_cons in Hn as [Hb Hn]. cbn [kill_on_all] in Ek.
      pose proof (kill_job_task_cases b s) as Hc. destruct (kill_job_task aid b s) as [s1 [x|e'|p]]; [|exists b; split; [by left|done]|done].
      destruct Hc as (tm & tm' & Es & -> & K & Q). destruct (IH Hn _ Ek) as (a & Ha & H). exists a. split; [by right|]. rewrite lookup_insert_ne in H by congruence. done.
    + exfalso. clear -Ek. revert s Ek. induction tms as [|b tms IH]; intros s Ek; [done|]. cbn [kill_on_all] in Ek. pose proof (kill_job_task_cases b s) as Hc.
      destruct (kill_job_task aid b s) as [s1 [x|e'|p']]; [by apply (IH s1)|done|done].
Qed.
End killing.

(** A created application can be loaded, and its file downloaded. *)
Lemma created_application {SA : SerdeJson Application} now sanitize name content jm : let '(jm', aid) := create_application now sanitize [(name, content)] jm in
  Application_load aid jm' = Ok (Application_new aid (sanitize name)) /\ download_application_resource (E := unit) aid (sanitize name) jm' = Ok content.
Proof. cbn. unfold Application_load, download_application_resource. cbn. by rewrite !lookup_insert_eq, json_from_to. Qed.

(** ** Examples *)

(** Any countable type can be written as a string of bits. *)
Fixpoint bits_of (p : positive) : string := match p with xH => "" | xO p => String "0" (bits_of p) | xI p => String "1" (bits_of p) end.
Fixpoint of_bits (s : string) : option positive :=
  match s with
  | "" => Some xH
  | String a s => p ← of_bits s; if decide (a = "0"%char) then Some (xO p) else if decide (a = "1"%char) then Some (xI p) else None
  end.

Lemma of_bits_of p : of_bits (bits_of p) = Some p.
Proof. induction p as [p IH|p IH|]; cbn; by rewrite ?IH. Qed.

Definition of_json {A} `{Countable A} (s : string) : res string A :=
  match of_bits s with Some p => match decode p with Some a => Ok a | None => Err "expected value" end | None => Err "expected value" end.

Lemma of_json_encode {A} `{Countable A} (a : A) : of_json (bits_of (encode a)) = Ok a.
Proof. unfold of_json. by rewrite of_bits_of, decode_encode. Qed.

Definition bits_json {A} `{Countable A} : SerdeJson A := {| json_to_string := fun a => bits_of (encode a); json_from_str := of_json; json_from_to := of_json_encode |}.

#[global] Instance Status_countable : Countable Status.
Proof.
  apply (inj_countable' (fun s => match s with Ready => 0%nat | Running => 1%nat | Killed => 2%nat end) (fun n => match n with 0%nat => Ready | 1%nat => Running | _ => Killed end)).
  by intros [].
Defined.
#[global] Instance Application_eq_dec : EqDecision Application.
Proof. solve_decision. Defined.
#[global] Instance Application_countable : Countable Application.
Proof. apply (inj_countable' (fun a => (app_application_id a, app_execute_file a, app_status a)) (fun '(i, f, s) => mkApplication i f s)). by intros []. Defined.
#[global] Instance TaskResourceInfo_eq_dec : EqDecision TaskResourceInfo.
Proof. solve_decision. Defined.
#[global] Instance TaskResourceInfo_countable : Countable TaskResourceInfo.
Proof. apply (inj_countable' (fun a => (tri_task_manager_id a, resource_info a)) (fun '(i, r) => mkTaskResourceInfo i r)). by intros []. Defined.

#[local] Instance ex_app_json : SerdeJson Application := bits_json.
#[local] Instance ex_infos_json : SerdeJson (list TaskResourceInfo) := bits_json.
#[local] Existing Instance id_order.

Definition ex_context : StandaloneContext :=
  mkStandaloneContext (mkClusterConfig ["http://jm:8770"] MetadataStorageType_Memory "10.0.0.1" "/data") "/rlink/config/standalone.yaml" "/rlink/config/run_task.sh" ["tm1"; "tm2"; "tm3"].

Definition ex_tm : TaskManager := mkTaskManager ex_context "/rlink" 1600000000000 7 ∅ [] [].

(** The second task manager of the list does not answer. *)
Definition ex_tms : gmap string TaskManager := <["tm1" := ex_tm]> (<["tm3" := ex_tm]> ∅).

Definition ex_jm : JobManager := Application_storage "app" (Application_new "app" "job") (mkJobManager ex_context ∅ ∅).

Definition ex_batch : list (gmap string string) := (fun id => <["task_manager_id" := id]> ∅) <$> ["w0"; "w1"; "w2"].

Lemma ex_tms_lookup a tm : ex_tms !! a = Some tm -> tm = ex_tm.
Proof. unfold ex_tms. intros [(_ & <-)|(_ & H)]%lookup_insert_Some; [done|]. apply lookup_insert_Some in H as [(_ & <-)|(_ & H)]; done. Qed.

(** Three processes over the two task managers that answer. *)
Lemma ex_submitted : match submit_job "app" (mkBatchExecuteRequest ex_batch) ex_jm ex_tms with
  | (s', Ok (JStd r)) => (fun a => length ∘ tm_started <$> s' !! a) <$> ["tm1"; "tm2"; "tm3"] = [Some 2%nat; None; Some 1%nat] /\ sr_code r = RC_OK
  | _ => False
  end.
Proof. vm_compute. done. Qed.

Lemma submit_job_places_witness : exists s' infos,
  submit_job "app" (mkBatchExecuteRequest ex_batch) ex_jm ex_tms = (s', Ok (JStd (mkStdResponse RC_OK (Some (json_to_string infos))))) /\
  length infos = 3%nat /\ NoDup (place <$> infos).
Proof.
  destruct (submit_job_places "app" ex_batch ex_jm ex_tms (Application_new "app" "job")) as [H _].
  - vm_compute. reflexivity.
  - discriminate.
  - intros a tm Htm. apply ex_tms_lookup in Htm. subst tm. discriminate.
  - intros a tm Htm. apply ex_tms_lookup in Htm. subst tm. split; reflexivity || discriminate.
  - destruct H as (s' & infos & H1 & H2 & H3 & _); [vm_compute; discriminate|]. exists s', infos. split; [exact H1|]. split; [exact H2|exact H3].
Defined.

(** A process of the first task manager that has written its id. *)
Definition ex_running : gmap string TaskManager := <["tm1" := tm_set_dirs (<["app" := <["t0" := Some ["42"; ""]]> ∅]> ∅) ex_tm]> ∅.

Lemma shutdown_tasks_kills_witness : exists s', shutdown_tasks "app" [TaskResourceInfo_new "t0" "tm1" "w0"] ex_running = (s', Ok (JStd (mkStdResponse RC_OK None))) /\
  exists tm', s' !! "tm1" = Some tm' /\ tm_killed tm' = ["42"].
Proof.
  destruct (shutdown_tasks_kills "app" [TaskResourceInfo_new "t0" "tm1" "w0"] ex_running) as (s' & H1 & _ & H3).
  - constructor; [split; vm_compute; eexists; reflexivity|constructor].
  - apply NoDup_singleton.
  - exists s'. split; [exact H1|]. destruct (H3 "tm1" (tm_set_dirs (<["app" := <["t0" := Some ["42"; ""]]> ∅]> ∅) ex_tm)) as (tm' & Ht & (Hk & _) & _); [reflexivity|].
    exists tm'. split; [exact Ht|]. rewrite Hk. vm_compute. reflexivity.
Defined.

Lemma kill_job_spec_witness : exists jm' s' r, kill_job "app" ex_jm ex_running = (jm', s', r) /\ is_ok r = false /\
  forall batch (s2 : gmap string TaskManager), submit_job "app" batch jm' s2 = (s2, Ok (JStd (mkStdResponse (RC_ERR "Job has killed") None))).
Proof.
  destruct (kill_job_spec "app" ex_jm ex_running (Application_new "app" "job")) as (jm' & s' & r & H1 & H2 & _ & _ & H5).
  - vm_compute. reflexivity.
  - change (NoDup ["tm1"; "tm2"; "tm3"]). apply (bool_decide_unpack _). vm_compute. exact I.
  - exists jm', s', r. split; [exact H1|]. split; [|exact H2]. apply H5. exists "tm2". split; [vm_compute; right; left|left; reflexivity].
Defined.
