(* ===== verification/Deployment.v ===== *)
(** * Deployment: the resource managers

    src/rlink/src/deployment (mod.rs, local.rs, standalone.rs, yarn.rs, kubernetes.rs):
    how the coordinator has its workers started and stopped. Locally a worker is a thread
    with a changed copy of the coordinator's context; in a standalone cluster it is a
    process the job manager hands out ([Standalone]), on YARN and Kubernetes one the
    manager there starts with the arguments it is given.

    The theorem follows the arguments of a worker from the cluster descriptor over the
    requests, the task manager and the script into the context the worker runs with. *)
From Stdlib Require Import ZArith Lia Ascii.
From stdpp Require Import base strings pretty numbers option sets gmap list.
From S2P Require Import Prelude Properties Runtime KafkaOffsets NodeArgs Standalone.

#[local] Open Scope Z_scope.

(** ** The arguments of the workers *)
Definition standalone_args (context : NodeContext) (cluster_descriptor : ClusterDescriptor) (w : WorkerManagerDescriptor) : gmap string string :=
  <["coordinator_address" := cm_web_address (coordinator_manager cluster_descriptor)]>
  (<["task_manager_id" := wm_task_manager_id w]>
  (<["manager_type" := ManagerType_to_string Worker]>
  (<["cluster_mode" := ClusterMode_to_string (nc_cluster_mode context)]> ∅))).

Definition yarn_args (context : NodeContext) (cluster_descriptor : ClusterDescriptor) (w : WorkerManagerDescriptor) : gmap string string :=
  <["coordinator_address" := cm_web_address (coordinator_manager cluster_descriptor)]>
  (<["task_manager_id" := wm_task_manager_id w]>
  (<["application_id" := nc_application_id context]>
  (<["manager_type" := ManagerType_to_string Worker]>
  (<["cluster_mode" := ClusterMode_to_string (nc_cluster_mode context)]> ∅)))).

(** The arguments of a container: [cluster_name] is the application. *)
Definition kubernetes_args (coordinator_address task_manager_id cluster_name : string) : list string :=
  ["cluster_mode=kubernetes"; "manager_type=Worker"; "application_id=" +:+ cluster_name; "task_manager_id=" +:+ task_manager_id; "coordinator_address=" +:+ coordinator_address].

(** [parse_name]: names of pods have no underscore. *)
Fixpoint parse_name (name : string) : string :=
  match name with
  | "" => ""
  | String a name => String (if decide (a = "_"%char) then "-"%char else a) (parse_name name)
  end.

(** The context of a local worker: a copy of the coordinator's. *)
Definition local_context (context : NodeContext) (cluster_descriptor : ClusterDescriptor) (w : WorkerManagerDescriptor) : NodeContext :=
  mkNodeContext (nc_application_id context) (wm_task_manager_id w) (nc_bind_ip context) (nc_cluster_mode context) (nc_num_task_managers context) Worker
    (nc_cluster_config context) (nc_metric_addr context) (cm_web_address (coordinator_manager cluster_descriptor)) (nc_dashboard_path context)
    (nc_yarn_manager_main_class context) (nc_worker_process_path context) (nc_memory_mb context) (nc_v_cores context) (nc_exclusion_nodes context) (nc_image_path context).

(** ** The client of the job manager: standalone.rs *)

(** The requests to the job manager at an address. *)
Class JobManagerApi (S : Type) := {
  post_application : string -> string -> BatchExecuteRequest -> S -> S * res string (StdResponse string);
  post_shutdown : string -> string -> list TaskResourceInfo -> S -> S * res string (StdResponse string)
}.

Section client.
Context {S : Type} {JA : JobManagerApi S} {ST : SerdeJson (list TaskResourceInfo)}.

Definition allocate_worker0 (application_manager_address application_id : string) (args : list (gmap string string)) (s : S) : S * res string (list TaskResourceInfo) :=
  let '(s, r) := post_application application_manager_address application_id (mkBatchExecuteRequest args) s in
  (s, let* result := r in
      let* data := unwrap "called `Option::unwrap()` on a `None` value" (sr_data result) in
      json_from_str data).

(** [allocate_worker]: the job managers are tried in turn. *)
Fixpoint allocate_worker (addresses : list string) (application_id : string) (args : list (gmap string string)) (s : S) : S * res string (list TaskResourceInfo) :=
  match addresses with
  | [] => (s, Err "No available JobManager")
  | address :: addresses =>
      match allocate_worker0 address application_id args s with
      | (s, Ok rt) => (s, Ok rt)
      | (s, Err e) => allocate_worker addresses application_id args s
      | (s, Panic p) => (s, Panic p)
      end
  end.

(** [stop_all_workers0]: an error code is only logged. *)
Definition stop_all_workers0 (application_manager_address application_id : string) (task_ids : list TaskResourceInfo) (s : S) : S * res string unit :=
  let '(s, r) := post_shutdown application_manager_address application_id task_ids s in
  (s, let* result := r in Ok tt).

Fixpoint stop_all_workers (addresses : list string) (application_id : string) (task_ids : list TaskResourceInfo) (s : S) : S * res string unit :=
  match addresses with
  | [] => (s, Err "No available JobManager")
  | address :: addresses =>
      match stop_all_workers0 address application_id task_ids s with
      | (s, Ok rt) => (s, Ok rt)
      | (s, Err e) => stop_all_workers addresses application_id task_ids s
      | (s, Panic p) => (s, Panic p)
      end
  end.
End client.

(** ** The command line of the YARN manager: yarn.rs *)
Record YarnData (T : Type) := mkYarnData { yd_cmd : string; yd_cmd_id : string; yd_data : T }.
Arguments mkYarnData {T} _ _ _.
Arguments yd_cmd_id {T} _.
Arguments yd_data {T} _.

Definition COMMAND_PREFIX : string := "/*rlink-rs_yarn*/".

(** What follows the first occurrence of the prefix in a line. *)
Definition parse_command (command_line : string) : option string :=
  match String.index 0 COMMAND_PREFIX command_line with
  | Some pos => let from := (pos + String.length COMMAND_PREFIX)%nat in Some (String.substring from (String.length command_line - from) command_line)
  | None => None
  end.

(** A line that cannot be read counts as none. *)
Definition parse_line (command_line : res string string) : option string :=
  match command_line with Ok x => parse_command x | _ => None end.

(** The two channels of [YarnCliCommand]: what was sent to the manager, and what its
    output has given, up to its end. *)
Record YarnCli := mkYarnCli { yc_sent : list string; yc_answers : list string }.

(** The threads that read the manager's output. *)
Definition yarn_output (lines : list (res string string)) (y : YarnCli) : YarnCli := mkYarnCli (yc_sent y) (yc_answers y ++ omap parse_line lines).

Section yarn.
Context {SC : SerdeJson (YarnData (list (gmap string string)))} {SR : SerdeJson (YarnData (list TaskResourceInfo))}.

(** The second half of [allocate] and [stop]: the next answer must have the id of the command. *)
Definition yarn_receive (cmd_id : string) (y : YarnCli) : YarnCli * res string (list TaskResourceInfo) :=
  match yc_answers y with
  | [] => (y, Err "receiving on an empty and disconnected channel")
  | txt :: answers =>
      (mkYarnCli (yc_sent y) answers,
       let* response := json_from_str txt in
       if decide (yd_cmd_id response = cmd_id) then Ok (yd_data response) else Err "`cmd_id` is inconsistency")
  end.

(** [cmd_id] is the time. *)
Definition yarn_allocate (cmd_id : string) (task_args : list (gmap string string)) (y : YarnCli) : YarnCli * res string (list TaskResourceInfo) :=
  let cmd_str := json_to_string (mkYarnData "allocate" cmd_id task_args) +:+ String "010" "" in
  yarn_receive cmd_id (mkYarnCli (yc_sent y ++ [cmd_str]) (yc_answers y)).

Definition yarn_stop (cmd_id : string) (task_infos : list TaskResourceInfo) (y : YarnCli) : YarnCli * res string unit :=
  let cmd_str := json_to_string (mkYarnData "stop" cmd_id task_infos) +:+ String "010" "" in
  let '(y, r) := yarn_receive cmd_id (mkYarnCli (yc_sent y ++ [cmd_str]) (yc_answers y)) in
  (y, let* _ := r in Ok tt).
End yarn.

(** ** The resource managers: mod.rs *)
Inductive ManagerKind : Type := LocalResourceManager | StandaloneResourceManager | YarnResourceManager.

Record ResourceManager := mkResourceManager {
  rm_kind : ManagerKind;
  rm_context : NodeContext;
  rm_cluster_descriptor : option ClusterDescriptor
}.

(** [ResourceManager::new], without the feature k8s. *)
Definition ResourceManager_new {E} (context : NodeContext) : res E ResourceManager :=
  match nc_cluster_mode context with
  | Local => Ok (mkResourceManager LocalResourceManager context None)
  | Standalone => Ok (mkResourceManager StandaloneResourceManager context None)
  | YARN => Ok (mkResourceManager YarnResourceManager context None)
  | Kubernetes => Panic "not implemented"
  end.

Definition rm_prepare (job_descriptor : ClusterDescriptor) (rm : ResourceManager) : ResourceManager := mkResourceManager (rm_kind rm) (rm_context rm) (Some job_descriptor).

(** The world of the resource managers: the threads of local workers, the job managers
    with their task managers, and the YARN manager with the next command id. *)
Record World := mkWorld {
  wd_threads : list NodeContext;
  wd_job_managers : gmap string JobManager;
  wd_task_managers : gmap string TaskManager;
  wd_yarn : YarnCli;
  wd_cmd_id : string
}.

Section manager.
Context {HO : HashOrder} {SA : SerdeJson Application} {ST : SerdeJson (list TaskResourceInfo)}.
Context {SC : SerdeJson (YarnData (list (gmap string string)))} {SR : SerdeJson (YarnData (list TaskResourceInfo))}.

(** The body of an answer as the client reads it: other JSON and error pages are errors. *)
Definition read_response (r : res ServerError JsonBody) : res string (StdResponse string) :=
  match r with Ok (JStd a) => Ok a | Ok (JString _) => Err "invalid type: string" | _ => Err "no answer" end.

#[global] Instance job_managers_api : JobManagerApi (gmap string JobManager * gmap string TaskManager) := {|
  post_application := fun address application_id request s =>
    match s.1 !! address with
    | None => (s, Err "error trying to connect")
    | Some jm => let '(tms, r) := submit_job application_id request jm s.2 in ((s.1, tms), read_response r)
    end;
  post_shutdown := fun address application_id task_ids s =>
    match s.1 !! address with
    | None => (s, Err "error trying to connect")
    | Some jm => let '(tms, r) := shutdown_tasks application_id task_ids s.2 in ((s.1, tms), read_response r)
    end
|}.

Definition set_managers (s : gmap string JobManager * gmap string TaskManager) (wd : World) : World := mkWorld (wd_threads wd) s.1 s.2 (wd_yarn wd) (wd_cmd_id wd).
Definition set_yarn (y : YarnCli) (wd : World) : World := mkWorld (wd_threads wd) (wd_job_managers wd) (wd_task_managers wd) y (wd_cmd_id wd).
Definition spawn (cs : list NodeContext) (wd : World) : World := mkWorld (wd_threads wd ++ cs) (wd_job_managers wd) (wd_task_managers wd) (wd_yarn wd) (wd_cmd_id wd).

Definition worker_allocate (rm : ResourceManager) (wd : World) : World * res string (list TaskResourceInfo) :=
  match rm_cluster_descriptor rm with
  | None => (wd, Panic "called `Option::unwrap()` on a `None` value")
  | Some cluster_descriptor =>
      let context := rm_context rm in
      match rm_kind rm with
      | LocalResourceManager => (spawn (local_context context cluster_descriptor <$> worker_managers cluster_descriptor) wd, Ok [])
      | StandaloneResourceManager =>
          let '(s, r) := allocate_worker (application_manager_address (nc_cluster_config context)) (nc_application_id context)
                           (standalone_args context cluster_descriptor <$> worker_managers cluster_descriptor) (wd_job_managers wd, wd_task_managers wd) in
          (set_managers s wd, r)
      | YarnResourceManager =>
          let '(y, r) := yarn_allocate (wd_cmd_id wd) (yarn_args context cluster_descriptor <$> worker_managers cluster_descriptor) (wd_yarn wd) in
          (set_yarn y wd, r)
      end
  end.

Definition stop_workers (task_ids : list TaskResourceInfo) (rm : ResourceManager) (wd : World) : World * res string unit :=
  let context := rm_context rm in
  match rm_kind rm with
  | LocalResourceManager => (wd, Ok tt)
  | StandaloneResourceManager =>
      let '(s, r) := stop_all_workers (application_manager_address (nc_cluster_config context)) (nc_application_id context) task_ids (wd_job_managers wd, wd_task_managers wd) in
      (set_managers s wd, r)
  | YarnResourceManager =>
      match rm_cluster_descriptor rm with
      | None => (wd, Panic "called `Option::unwrap()` on a `None` value")
      | Some _ => let '(y, r) := yarn_stop (wd_cmd_id wd) task_ids (wd_yarn wd) in (set_yarn y wd, r)
      end
  end.
End manager.

(** ** Arguments that survive the script *)

(** No blank and no equals sign. *)
Definition plain : string -> bool := all_chars (fun a => negb (blank a) && negb (bool_decide (a = "="%char))).

Definition nonblank : string -> bool := all_chars (fun a => negb (blank a)).

Lemma plain_nonblank s : plain s = true -> nonblank s = true.
Proof. apply all_chars_impl. intros a. rewrite !andb_true_iff. tauto. Qed.

Lemma nonblank_app s t : nonblank (s +:+ t) = nonblank s && nonblank t.
Proof. apply all_chars_app. Qed.

Lemma plain_app s t : plain (s +:+ t) = plain s && plain t.
Proof. apply all_chars_app. Qed.

Lemma append_char w a s : w +:+ String a s = (w +:+ String a "") +:+ s.
Proof. induction w as [|b w IH]; [done|]. change (String b (w +:+ String a s) = String b ((w +:+ String a "") +:+ s)). by f_equal. Qed.

Lemma append_char_nonempty w a s : w +:+ String a s <> "".
Proof. by destruct w. Qed.

Lemma words_from_nonblank s : forall w, nonblank s = true -> w +:+ s <> "" -> words_from w s = [w +:+ s].
Proof.
  induction s as [|a s IH]; intros w Hs Hw.
  - rewrite append_nil_r in *. cbn. by rewrite decide_False.
  - cbn in Hs. apply andb_true_iff in Hs as [Ha Hs]. cbn [words_from]. destruct (blank a); [done|]. rewrite (append_char w a s) in *. by apply IH.
Qed.

Lemma words_from_blank s r : forall w, nonblank s = true -> w +:+ s <> "" -> words_from w (s +:+ String " " r) = (w +:+ s) :: words r.
Proof.
  induction s as [|a s IH]; intros w Hs Hw.
  - rewrite append_nil_r in *. change ("" +:+ String " " r) with (String " " r). cbn [words_from]. change (blank " "%char) with true. by rewrite decide_False.
  - cbn in Hs. apply andb_true_iff in Hs as [Ha Hs]. change (String a s +:+ String " " r) with (String a (s +:+ String " " r)). cbn [words_from]. destruct (blank a); [done|].
    rewrite (append_char w a s) in *. by apply IH.
Qed.

Lemma words_one s : nonblank s = true -> s <> "" -> words s = [s].
Proof. intros. by apply (words_from_nonblank s ""). Qed.

Lemma words_join l : Forall (fun s => nonblank s = true /\ s <> "") l -> words (join " " l) = l.
Proof.
  induction 1 as [|s l [Hs Hne] Hl IH]; [done|]. destruct l as [|s' l]; [by apply words_one|].
  change (join " " (s :: s' :: l)) with (s +:+ String " " (join " " (s' :: l))). unfold words at 1. rewrite words_from_blank by done. by rewrite IH.
Qed.

Lemma plain_split s : plain s = true -> split "="%char s = [s].
Proof. intros Hs. apply split_none. revert Hs. apply all_chars_impl. intros a. rewrite andb_true_iff. tauto. Qed.

Definition plain_kv (kv : string * string) : Prop := plain kv.1 = true /\ plain kv.2 = true.

Lemma split_key_value kv : plain_kv kv -> split "="%char (key_value kv) = [kv.1; kv.2].
Proof. intros [H1 H2]. unfold key_value. change (kv.1 +:+ "=" +:+ kv.2) with (kv.1 +:+ String "=" kv.2). rewrite split_app by (by apply plain_split). by rewrite plain_split. Qed.

Lemma nonblank_key_value kv : plain_kv kv -> nonblank (key_value kv) = true /\ key_value kv <> "".
Proof.
  intros [H1%plain_nonblank H2%plain_nonblank]. unfold key_value. rewrite !nonblank_app, H1, H2. split; [done|]. change (kv.1 +:+ "=" +:+ kv.2) with (kv.1 +:+ String "=" kv.2). apply append_char_nonempty.
Qed.

(** The first argument with the key counts; words without an equals sign are skipped. *)
Fixpoint assoc (key : string) (kvs : list (string * string)) : option string :=
  match kvs with [] => None | kv :: kvs => if decide (kv.1 = key) then Some kv.2 else assoc key kvs end.

Lemma parse_arg_kvs kvs key : Forall plain_kv kvs -> match assoc key kvs with Some v => parse_arg (key_value <$> kvs) key = Ok v | None => is_ok (parse_arg (key_value <$> kvs) key) = false end.
Proof. induction 1 as [|kv kvs Hkv Hall IH]; [done|]. cbn [fmap list_fmap parse_arg assoc]. rewrite split_key_value by done. by case_decide. Qed.

Lemma assoc_elem key v kvs : NoDup kvs.*1 -> (key, v) ∈ kvs -> assoc key kvs = Some v.
Proof.
  induction kvs as [|kv kvs IH]; [intros _ H; by apply not_elem_of_nil in H|]. cbn [fmap list_fmap assoc]. intros [Hn Hd]%NoDup_cons [<-|Hin]%elem_of_cons; cbn; [by rewrite decide_True|].
  rewrite decide_False; [by apply IH|]. intros He. apply Hn. apply list_elem_of_fmap. by exists (key, v).
Qed.

Lemma assoc_hiter `{HashOrder} key (m : gmap string string) : assoc key (hiter m) = m !! key.
Proof.
  destruct (m !! key) as [v|] eqn:E; [apply assoc_elem; [apply NoDup_hiter_fst|by apply elem_of_hiter]|].
  assert (forall kvs, key ∉ kvs.*1 -> assoc key kvs = None) as Hn.
  { induction kvs as [|kv kvs IH]; [done|]. cbn [fmap list_fmap assoc]. intros [H1 H2]%not_elem_of_cons. rewrite decide_False by congruence. by apply IH. }
  apply Hn. rewrite elem_of_hiter_keys, E. by intros [? ?].
Qed.

Lemma pretty_plain (v : Z) : plain (pretty v) = true.
Proof.
  apply pretty_chars. intros a. unfold blank. destruct (decide (a = "="%char)) as [->|H1]; [done|]. destruct (decide (a = " "%char)) as [->|H2]; [done|].
  destruct (decide (a = "009"%char)) as [->|H3]; [done|]. destruct (decide (a = "010"%char)) as [->|H4]; [done|]. by rewrite !bool_decide_eq_false_2.
Qed.

(** The values a task manager and an application put on the command line. *)
Definition tm_plain (tm : TaskManager) : Prop :=
  plain (task_manager_bind_ip (sc_config (tm_context tm))) = true /\ plain (task_manager_work_dir (sc_config (tm_context tm))) = true /\
  plain (sc_config_path (tm_context tm)) = true /\ plain (tm_work_space tm) = true.

Lemma id_plain tm c : tm_plain tm -> plain (id_at tm c) = true.
Proof. intros (H & _). unfold id_at. by rewrite !plain_app, H, !pretty_plain. Qed.

Section process.
Context {HO : HashOrder} (tm : TaskManager) (aid : string) (em : ExecuteRequest) (c : Z).
Context (Htm : tm_plain tm) (Haid : plain aid = true) (Hexe : plain (executable_file em) = true) (Hargs : forall k v, er_args em !! k = Some v -> plain_kv (k, v)).

Abbreviation cmd := (command_for aid tm em (id_at tm c)).

(** What the script adds to the arguments. *)
Definition script_args : list (string * string) :=
  [("cluster_config", sc_config_path (tm_context tm)); ("application_id", aid); ("task_id", id_at tm c);
   ("bind_ip", task_manager_bind_ip (sc_config (tm_context tm))); ("dashboard_path", tm_work_space tm +:+ "/rlink-dashboard")].

Lemma script_args_plain : Forall plain_kv script_args.
Proof. destruct Htm as (H1 & H2 & H3 & H4). pose proof (id_plain tm c Htm). repeat constructor; try done. cbn [snd]. by rewrite plain_app, H4. Qed.

Lemma process_args : exists exe, plain exe = true /\ run_task_sh (cmd_args cmd) (cmd_envs cmd) = exe :: (key_value <$> script_args ++ hiter (er_args em)).
Proof.
  pose proof script_args_plain as Hs. destruct Htm as (H1 & H2 & H3 & H4). pose proof (id_plain tm c Htm) as Hid.
  set (exe := task_manager_work_dir (sc_config (tm_context tm)) +:+ "/" +:+ aid +:+ "/" +:+ id_at tm c +:+ "/" +:+ executable_file em). exists exe.
  assert (plain exe = true) as He by (unfold exe; by rewrite !plain_app, H2, Haid, Hid, Hexe). split; [done|].
  change (run_task_sh (cmd_args cmd) (cmd_envs cmd)) with (words exe ++ words (key_value ("cluster_config", sc_config_path (tm_context tm))) ++ words (key_value ("application_id", aid)) ++
    words (key_value ("task_id", id_at tm c)) ++ words (key_value ("bind_ip", task_manager_bind_ip (sc_config (tm_context tm)))) ++
    words (key_value ("dashboard_path", tm_work_space tm +:+ "/rlink-dashboard")) ++ words (join " " (key_value <$> hiter (er_args em)))).
  rewrite words_join by (apply Forall_fmap, Forall_forall; intros [k v] Hkv%elem_of_hiter; by apply nonblank_key_value, Hargs).
  assert (forall kv, kv ∈ script_args -> words (key_value kv) = [key_value kv]) as Hw. { intros kv Hin. rewrite Forall_forall in Hs. destruct (nonblank_key_value kv (Hs _ Hin)). by apply words_one. }
  rewrite fmap_app. unfold script_args in *. rewrite !Hw by (repeat first [by left|right]). rewrite words_one; [done|by apply plain_nonblank|].
  unfold exe. by destruct (task_manager_work_dir _).
Qed.

(** The process finds the arguments it was given, and those of the script. *)
Lemma process_arg args key v : args = run_task_sh (cmd_args cmd) (cmd_envs cmd) -> assoc key (script_args ++ hiter (er_args em)) = Some v -> parse_arg args key = Ok v.
Proof.
  intros -> Ha. destruct process_args as (exe & He & ->). cbn [parse_arg]. rewrite plain_split by done. pose proof (parse_arg_kvs (script_args ++ hiter (er_args em)) key) as H. rewrite Ha in H. apply H.
  apply Forall_app. split; [apply script_args_plain|]. apply Forall_forall. intros [k x] Hkv%elem_of_hiter. by apply Hargs.
Qed.

Lemma process_own_arg args key v : args = run_task_sh (cmd_args cmd) (cmd_envs cmd) -> key ∉ script_args.*1 -> er_args em !! key = Some v -> parse_arg args key = Ok v.
Proof.
  intros He Hk Hv. apply process_arg; [done|]. rewrite <- assoc_hiter in Hv. revert Hk. generalize script_args as kvs. induction kvs as [|kv kvs IH]; [done|].
  cbn [fmap list_fmap app assoc]. intros [H1 H2]%not_elem_of_cons. rewrite decide_False by congruence. by apply IH.
Qed.
End process.

(** ** The context of a worker *)

(** The context is that of a worker of the application. *)
Definition worker_context (nc : NodeContext) (m : ClusterMode) (aid id address ip : string) (config : ClusterConfig) : Prop :=
  nc_cluster_mode nc = m /\ nc_manager_type nc = Worker /\ nc_application_id nc = aid /\ nc_task_manager_id nc = id /\ nc_coordinator_address nc = address /\
  nc_bind_ip nc = ip /\ nc_cluster_config nc = config.

Lemma node_worker_starts {NE : NodeEnv} m mode aid id address ip port config :
  get_service_ip = Ok ip -> init_metrics ip = Some port -> (forall path, init_log path = Ok tt) ->
  parse_arg env_args "cluster_mode" = Ok mode -> ClusterMode_try_from mode = Ok m -> m <> Local -> parse_arg env_args "manager_type" = Ok "Worker" ->
  parse_arg env_args "application_id" = Ok aid -> parse_arg env_args "task_manager_id" = Ok id -> parse_arg env_args "coordinator_address" = Ok address ->
  cluster_config_arg m = Ok config -> exists nc, parse_node_arg = Ok (nc, id +:+ "-" +:+ ip) /\ worker_context nc m aid id address ip config.
Proof.
  intros Hip Hport Hlog Hm Hm' Hne Ht Ha Hid Had Hc. unfold parse_node_arg, metrics_serve. rewrite Hip, Hm, Hm', Ht. cbn [mbind res_bind]. change (ManagerType_try_from "Worker") with (Ok (E := string) Worker).
  cbn [mbind res_bind]. rewrite Ha, Hid, Had. rewrite Hc, Hport, Hlog. cbn [unwrap mbind res_bind num_task_managers_arg].
  destruct m; [done|..]; cbn [resource_args mbind res_bind]; eexists; (split; [reflexivity|done]).
Qed.

(** A process that is given plain arguments reads them back. *)
Lemma plain_args exe kvs key v : plain exe = true -> Forall plain_kv kvs -> assoc key kvs = Some v -> parse_arg (exe :: (key_value <$> kvs)) key = Ok v.
Proof. intros He Hp Hk. cbn [parse_arg]. rewrite plain_split by done. pose proof (parse_arg_kvs kvs key Hp) as H. by rewrite Hk in H. Qed.

(** A container gets what a worker needs. *)
Lemma kubernetes_worker_starts {NE : NodeEnv} exe aid id address ip port : plain exe = true -> plain aid = true -> plain id = true -> plain address = true ->
  env_args = exe :: kubernetes_args address id aid -> get_service_ip = Ok ip -> init_metrics ip = Some port -> (forall path, init_log path = Ok tt) ->
  exists nc, parse_node_arg = Ok (nc, id +:+ "-" +:+ ip) /\ worker_context nc Kubernetes aid id address ip ClusterConfig_new_local.
Proof.
  intros He Ha Hi Had Hargs Hip Hport Hlog. set (kvs := [("cluster_mode", "kubernetes"); ("manager_type", "Worker"); ("application_id", aid); ("task_manager_id", id); ("coordinator_address", address)]).
  assert (forall key v, assoc key kvs = Some v -> parse_arg env_args key = Ok v) as Harg.
  { intros key v Hk. rewrite Hargs. apply (plain_args exe kvs key v He); [|done]. repeat constructor; done. }
  eapply (node_worker_starts Kubernetes "kubernetes"); try apply Harg; done.
Qed.

Section standalone.
Context {HO : HashOrder} {SA : SerdeJson Application} {ST : SerdeJson (list TaskResourceInfo)}.
Context {SC : SerdeJson (YarnData (list (gmap string string)))} {SR : SerdeJson (YarnData (list TaskResourceInfo))}.
Context (context : NodeContext) (cd : ClusterDescriptor) (wd : World) (before after : list string) (address : string) (jm : JobManager) (job : Application).

Abbreviation rm := (mkResourceManager StandaloneResourceManager context (Some cd)).
Abbreviation aid := (nc_application_id context).
Abbreviation web_address := (cm_web_address (coordinator_manager cd)).

(** The first job manager that answers is [jm]. *)
Context (Hmode : nc_cluster_mode context = Standalone) (Haddr : application_manager_address (nc_cluster_config context) = before ++ address :: after).
Context (Hbefore : Forall (fun a => wd_job_managers wd !! a = None) before) (Hjm : wd_job_managers wd !! address = Some jm).
(** It has the application, and task managers that answer. *)
Context (Hjob : Application_load aid jm = Ok job) (Hlive : app_status job <> Killed) (Hserving : all_serving (wd_task_managers wd)).
Context (Hroom : room (length (worker_managers cd)) (wd_task_managers wd)) (Hup : answering (wd_task_managers wd) (sc_task_managers (jm_context jm)) <> []).
(** No value of the command line has a blank or an equals sign. *)
Context (Hplain : plain aid = true /\ plain web_address = true /\ plain (app_execute_file job) = true).
Context (Hids : Forall (fun w => plain (wm_task_manager_id w) = true) (worker_managers cd)) (Htms : forall a tm, wd_task_managers wd !! a = Some tm -> tm_plain tm).

Lemma allocate_first : exists s' infos, worker_allocate rm wd = (set_managers (wd_job_managers wd, s') wd, Ok infos) /\
  forall k w, worker_managers cd !! k = Some w -> exists a info, infos !! k = Some info /\
    started_as aid (wd_task_managers wd) s' (length (worker_managers cd)) a (request_of job (standalone_args context cd w)) info.
Proof.
  destruct (submit_job_started aid (standalone_args context cd <$> worker_managers cd) jm (wd_task_managers wd) job Hjob Hlive Hserving) as (s' & infos & H1 & _ & _ & H4); [by rewrite length_fmap|done|].
  exists s', infos. split.
  - unfold worker_allocate. cbn [rm_cluster_descriptor rm_context rm_kind]. rewrite Haddr. clear Haddr. induction Hbefore as [|b bs Hb Hbs IH].
    + cbn [app allocate_worker]. unfold allocate_worker0. cbn [post_application job_managers_api fst snd]. rewrite Hjm, H1. cbn [read_response mbind res_bind sr_data unwrap]. by rewrite json_from_to.
    + cbn [app allocate_worker]. unfold allocate_worker0. cbn [post_application job_managers_api fst snd]. rewrite Hb. cbn [mbind res_bind]. by apply IH.
  - intros k w Hw. destruct (H4 k (standalone_args context cd w)) as (a & info & _ & Hi & Hst); [by rewrite list_lookup_fmap, Hw|]. exists a, info. rewrite length_fmap in Hst. done.
Qed.

(** From the cluster descriptor to the workers of a standalone cluster: when the first
    job manager that answers has the application and a task manager that answers, the
    allocation succeeds and lists a task for every worker of the descriptor, in order; a
    process was started for it, and when that process reads its arguments (its address
    is known, its log and metrics start, the configuration file of its task manager
    loads), it starts as that worker of the application, with the address of the
    coordinator. Values have no blank and no equals sign. *)
Theorem standalone_workers_start : exists wd' infos, worker_allocate rm wd = (wd', Ok infos) /\
  forall k w, worker_managers cd !! k = Some w -> exists info a tm c,
    infos !! k = Some info /\ tri_task_manager_id info = wm_task_manager_id w /\ tri_task_manager_address info = Some a /\
    wd_task_managers wd' !! a = Some tm /\ c ∈ tm_started tm /\ cmd_envs c !! "TASK_ID" = tri_task_id info /\
    forall (NE : NodeEnv) ip port config, env_args = run_task_sh (cmd_args c) (cmd_envs c) ->
      get_service_ip = Ok ip -> init_metrics ip = Some port -> (forall path, init_log path = Ok tt) -> load_config (sc_config_path (tm_context tm)) = Ok config ->
      exists nc, parse_node_arg = Ok (nc, wm_task_manager_id w +:+ "-" +:+ ip) /\ worker_context nc Standalone aid (wm_task_manager_id w) web_address ip config.
Proof.
  destruct allocate_first as (s' & infos & H1 & H2). exists (set_managers (wd_job_managers wd, s') wd), infos. split; [done|]. intros k w Hw.
  destruct (H2 k w Hw) as (a & info & Hi & (tm & tm' & c & Hs & Hs' & (Hc & Hc' & Hc'') & _ & -> & Hcmd)). eexists _, a, tm', _. split_and!; [done|done|done|done|exact Hcmd|done|].
  intros NE ip port config Hargs Hip Hport Hlog Hcfg. destruct Hplain as (Pa & Pw & Pe). rewrite Hc in Hcfg.
  assert (plain (wm_task_manager_id w) = true) as Pi. { rewrite Forall_forall in Hids. apply Hids. by eapply list_elem_of_lookup_2. }
  set (em := request_of job (standalone_args context cd w)) in *. assert (forall key v, er_args em !! key = Some v -> plain_kv (key, v)) as Hkv.
  { intros key v. cbn [em request_of er_args]. unfold standalone_args. rewrite Hmode. intros H. repeat (apply lookup_insert_Some in H as [[<- <-]|[_ H]]; [done|]). done. }
  assert (forall key v, key ∉ (script_args tm aid c).*1 -> er_args em !! key = Some v -> parse_arg env_args key = Ok v) as Hown by (intros key v; apply (process_own_arg tm aid em c (Htms a tm Hs) Pa Pe Hkv); done).
  eapply (node_worker_starts Standalone "Standalone" aid (wm_task_manager_id w) web_address ip port config Hip Hport Hlog); [|done|done| | | | |].
  all: try (apply Hown; [apply (bool_decide_unpack _); vm_compute; exact I|cbn [em request_of er_args]; unfold standalone_args; rewrite ?Hmode; reflexivity]).
  - apply (process_arg tm aid em c (Htms a tm Hs) Pa Pe Hkv); [done|reflexivity].
  - cbn [cluster_config_arg]. rewrite (process_arg tm aid em c (Htms a tm Hs) Pa Pe Hkv env_args "cluster_config" (sc_config_path (tm_context tm)) Hargs eq_refl). cbn. done.
Qed.
End standalone.

(** ** Examples *)
#[local] Existing Instance id_order.
#[local] Instance ex_app_json : SerdeJson Application := bits_json.
#[local] Instance ex_infos_json : SerdeJson (list TaskResourceInfo) := bits_json.

#[global] Instance YarnData_eq_dec {T} `{EqDecision T} : EqDecision (YarnData T).
Proof. solve_decision. Defined.
#[global] Instance YarnData_countable {T} `{Countable T} : Countable (YarnData T).
Proof. apply (inj_countable' (fun d => (yd_cmd _ d, yd_cmd_id d, yd_data d)) (fun '(c, i, d) => mkYarnData c i d)). by intros []. Defined.
#[local] Instance ex_command_json : SerdeJson (YarnData (list (gmap string string))) := bits_json.
#[local] Instance ex_response_json : SerdeJson (YarnData (list TaskResourceInfo)) := bits_json.

Definition ex_coordinator : NodeContext :=
  mkNodeContext "app" "coordinator" "10.0.0.9" Standalone 2 Coordinator (mkClusterConfig ["http://down:8770"; "http://jm:8770"] MetadataStorageType_Memory "10.0.0.9" "/data") "" "" "" "" "" 0 0 "" "".

Definition ex_descriptor : ClusterDescriptor :=
  mkCluster (mkCoordinator "0.6" "app" no_properties "http://10.0.0.9:8080" "" Pending 1 100 2 0 0)
    ((fun id => mkWorker Pending 0 HB_Ok id "" "" "" []) <$> ["worker_manager_0"; "worker_manager_1"]).

Definition ex_world : World := mkWorld [] (<["http://jm:8770" := ex_jm]> ∅) ex_tms (mkYarnCli [] []) "1".

(** The first job manager does not answer, the second starts two workers. *)
Lemma standalone_workers_start_witness : exists wd' infos, worker_allocate (mkResourceManager StandaloneResourceManager ex_coordinator (Some ex_descriptor)) ex_world = (wd', Ok infos) /\
  exists info, infos !! 1%nat = Some info /\ tri_task_manager_id info = "worker_manager_1".
Proof.
  destruct (standalone_workers_start ex_coordinator ex_descriptor ex_world ["http://down:8770"] [] "http://jm:8770" ex_jm (Application_new "app" "job")) as (wd' & infos & H1 & H2).
  - reflexivity.
  - reflexivity.
  - repeat constructor.
  - reflexivity.
  - vm_compute. reflexivity.
  - discriminate.
  - intros a tm Htm. apply ex_tms_lookup in Htm. subst tm. discriminate.
  - intros a tm Htm. apply ex_tms_lookup in Htm. subst tm. split; reflexivity || discriminate.
  - vm_compute. discriminate.
  - repeat split; vm_compute; reflexivity.
  - repeat constructor; vm_compute; reflexivity.
  - intros a tm Htm. apply ex_tms_lookup in Htm. subst tm. repeat split; vm_compute; reflexivity.
  - exists wd', infos. split; [exact H1|]. destruct (H2 1%nat (mkWorker Pending 0 HB_Ok "worker_manager_1" "" "" "" [])) as (info & a & tm & c & Hi & Hid & _); [reflexivity|].
    exists info. split; [exact Hi|exact Hid].
Defined.

(** The answers of the manager are found in its output. *)
Lemma ex_parse_command : parse_command "INFO /*rlink-rs_yarn*/{}" = Some "{}" /\ parse_command "INFO" = None.
Proof. vm_compute. split; reflexivity. Qed.

Definition is_panic {E A} (r : res E A) : bool := match r with Panic _ => true | _ => false end.

(** An application that was killed: the client unwraps the data that is not there. *)
Lemma ex_killed_panics : is_panic (allocate_worker0 "http://jm:8770" "app" [] (<["http://jm:8770" := (kill_job "app" ex_jm ex_tms).1.1]> ∅ : gmap string JobManager, ex_tms)).2 = true.
Proof. vm_compute. reflexivity. Qed.
