(* ===== verification/Coordinator.v ===== *)
(** * Coordinator: the run of the coordinator

    src/rlink/src/runtime/coordinator/mod.rs ([CoordinatorTask::run] and what it calls)
    with src/rlink/src/core/cluster.rs and src/rlink/src/runtime/cluster/mod.rs: the
    coordinator builds the graphs of the program, makes the cluster descriptor, puts the
    loaded checkpoints into it, serves its pages and then, turn after turn, saves the
    descriptor, has the workers started, watches them and stops them, until a turn ends
    with all tasks.

    The parts are those of the other files: the graphs (PhysicGraph, DagMetadata), the
    descriptor (TaskDistribution), the checkpoints (Checkpoint, Cluster), the resource
    managers (Deployment), and the interleaving of coordinator and workers in a turn
    (Cluster). The program is the class [StreamApp].

    A turn also interleaves with the workers of earlier turns that still run
    ([overlap_step]): local ones are threads that nothing stops and that share the heartbeat
    channel of the process; the other resource managers tell the processes to end, and which
    of them still send heartbeats into the next turn is left open ([survivors]). *)
From Stdlib Require Import ZArith Lia.
From stdpp Require Import base strings numbers option sets gmap list relations pretty.
From S2P Require Import Prelude Bytes Properties Runtime Graph Schema StreamGraph JobGraph ExecutionGraph PhysicGraph DagMetadata Checkpoint Cluster TaskDistribution NodeArgs Standalone Deployment.

#[local] Open Scope Z_scope.

(** The program: what it sets, and the stream graph it builds. *)
Class StreamApp `{DagApi} := {
  app_prepare_properties : Properties.Properties -> Properties.Properties;
  app_build_stream : Properties.Properties -> RawStreamGraph
}.

(** What [build_cluster_descriptor] reads of the context. *)
Definition to_context (c : NodeContext) : Context :=
  mkContext (nc_application_id c) (nc_num_task_managers c) (nc_metric_addr c) (nc_v_cores c) (nc_memory_mb c).

Definition set_web_address (address : string) (c : ClusterDescriptor) : ClusterDescriptor :=
  let cm := coordinator_manager c in
  mkCluster (mkCoordinator (cm_version cm) (cm_application_id cm) (cm_application_properties cm) address (cm_metrics_address cm) (cm_status cm)
               (cm_v_cores cm) (cm_memory_mb cm) (cm_num_task_managers cm) (cm_uptime cm) (cm_startup_number cm)) (worker_managers c).

Section coordinator.
Context {DA : DagApi} {HO : HashOrder} {SAPP : StreamApp} {SB : SerdeJson CheckpointBackend}.
Context {S : Type} {CS : CheckpointStorage S} (CheckpointStorage_new : CheckpointBackend -> S).
Context (with_capacity : Z -> nat) (VERSION : string) (now : Z) (fuel : nat).

(** [prepare_properties]. *)
Definition prepare_properties (context : NodeContext) : Properties.Properties :=
  app_prepare_properties (set_cluster_mode (nc_cluster_mode context) Properties.Properties_new).

(** The jobs the checkpoints are aligned over. *)
Definition checkpoint_jobs (dag_metadata : DagMetadata) : list job_operators :=
  (fun node => let job_node := jd_detail node in
     (jn_job_id job_node, jn_parallelism job_node, (fun stream_node => (sn_id stream_node, sn_operator_name stream_node)) <$> jn_stream_nodes job_node))
  <$> jd_nodes (md_job_graph dag_metadata).

(** [CheckpointManager::new]. *)
Definition CheckpointManager_new (dag_metadata : DagMetadata) (context : NodeContext) (cluster_descriptor : ClusterDescriptor) (checkpoint_ttl : Z)
  : res string (CheckpointAlignManager S) :=
  let properties := cm_application_properties (coordinator_manager cluster_descriptor) in
  let storage := match get_checkpoint properties with Ok ck_backend => Some (CheckpointStorage_new ck_backend) | _ => None end in
  let* application_name := get_application_name properties in
  Ok (cam_new application_name (nc_application_id context) checkpoint_ttl (checkpoint_jobs dag_metadata) storage).

(** [build_checkpoint_manager], with the descriptor it changes. *)
Definition build_checkpoint_manager (dag_metadata : DagMetadata) (application_properties : Properties.Properties) (context : NodeContext) (cluster_descriptor : ClusterDescriptor)
  : res string (CheckpointAlignManager S * ClusterDescriptor) :=
  let checkpoint_ttl := match get_checkpoint_ttl application_properties with Ok ttl => ttl | _ => 1 * 60 * 60 * 10 ^ 9 end in
  let* ck_manager := CheckpointManager_new dag_metadata context cluster_descriptor checkpoint_ttl in
  match cam_load ck_manager with
  | (ck_manager, Ok operator_checkpoints) =>
      let* cluster_descriptor := restore_checkpoints operator_checkpoints cluster_descriptor in Ok (ck_manager, cluster_descriptor)
  | (_, Err e) => Panic "load checkpoints error"
  | (_, Panic p) => Panic p
  end.

(** The part of [run] before the loop; [address] is where the pages are served. *)
Definition dag_err (r : run DagError DagManager) : run string DagManager :=
  match r with None => None | Some (Ok d) => Some (Ok d) | Some (Err _) => Some (Err "DagError"%string) | Some (Panic p) => Some (Panic p) end.

Definition run_prepare (context : NodeContext) (address : string) (rm : ResourceManager) : run string (CheckpointAlignManager S * ClusterDescriptor * ResourceManager) :=
  let application_properties := prepare_properties context in
  do* dag_manager := dag_err (DagManager_try_from fuel (app_build_stream application_properties)) in
  do* dag_metadata := Some (DagMetadata_from dag_manager) in
  do* cluster_descriptor := Some (build_cluster_descriptor with_capacity VERSION now dag_manager application_properties (to_context context)) in
  do* checkpoints := Some (build_checkpoint_manager dag_metadata application_properties context cluster_descriptor) in
  let cluster_descriptor := set_web_address address checkpoints.2 in
  Some (Ok (checkpoints.1, cluster_descriptor, rm_prepare cluster_descriptor rm)).
End coordinator.

(** ** The loop of [run] *)

(** The descriptor of the coordinator, the world of its resource manager, how the run of the
    last turn has ended, the workers of earlier turns that still run, turn by turn, and the
    tasks whose end has been announced in earlier turns. *)
Record Coord := mkCoord {
  co_descriptor : ClusterDescriptor; co_world : World; co_last : option Cluster;
  co_old : list (gmap string WorkerProc); co_announced : list TaskId }.

(** *** Workers of earlier turns

    A worker that still runs when the next turn starts goes on with its own steps, on the
    descriptor the new turn has saved: the coordinator cannot tell its heartbeats from those
    of the new worker with the same id. *)
Definition with_procs (ps : gmap string WorkerProc) (s : Cluster) : Cluster :=
  mkClusterState (cl_now s) (cl_store s) (cl_phase s) ps (cl_beats s) (cl_ended s).

(** What is in the heartbeat channels of some workers. *)
Definition pooled (pss : list (gmap string WorkerProc)) : list HeartbeatItem :=
  ps ← pss; e ← map_to_list ps; wp_channel e.2.

(** Local workers are threads of one process, and the heartbeat channel, the flag of a panic
    and the status of the coordinator are statics of the process (worker/heart_beat.rs): any
    worker takes the items of any other and sees its flag and status. *)
Definition shares (pss pss' : list (gmap string WorkerProc)) : Prop :=
  pooled pss' ≡ₚ pooled pss /\
  Forall2 (fun ps ps' => dom ps' = dom ps /\ forall id p p', ps !! id = Some p -> ps' !! id = Some p' -> wp_started p' = wp_started p) pss pss' /\
  Forall (map_Forall (fun _ p' => exists q q' : WorkerProc,
    (exists ps id, ps ∈ pss /\ ps !! id = Some q) /\ (exists ps id, ps ∈ pss /\ ps !! id = Some q') /\
    wp_panic p' = wp_panic q /\ wp_coordinator_status p' = wp_coordinator_status q')) pss'.

(** A step of the new turn with the workers of earlier ones: of the coordinator or a worker of
    the turn, of a worker of an earlier turn, or between workers of one process. *)
Inductive overlap_step (one_process : bool) : Cluster * list (gmap string WorkerProc) -> Cluster * list (gmap string WorkerProc) -> Prop :=
  | own_step s s' old : step s s' -> overlap_step one_process (s, old) (s', old)
  | old_step s s' old i ps : old !! i = Some ps -> step (with_procs ps s) s' ->
      overlap_step one_process (s, old) (with_procs (cl_procs s) s', <[i := cl_procs s']> old)
  | shared_step s old ps' old' : one_process = true -> shares (cl_procs s :: old) (ps' :: old') ->
      overlap_step one_process (s, old) (with_procs ps' s, old').

Section turns.
Context {HO : HashOrder} {SA : SerdeJson Application} {ST : SerdeJson (list TaskResourceInfo)}.
Context {SC : SerdeJson (YarnData (list (gmap string string)))} {SR : SerdeJson (YarnData (list TaskResourceInfo))}.

(** What happens in the world while the coordinator waits. *)
Context (elapse : World -> World -> Prop) (rm : ResourceManager).

(** [stop_all_worker_tasks]: again and again until it succeeds. *)
Inductive stop_all_worker_tasks (worker_task_ids : list TaskResourceInfo) : World -> World -> Prop :=
  | stop_success wd wd' : stop_workers worker_task_ids rm wd = (wd', Ok tt) -> stop_all_worker_tasks worker_task_ids wd wd'
  | stop_again wd wd1 e wd2 wd' : stop_workers worker_task_ids rm wd = (wd1, Err e) -> elapse wd1 wd2 ->
      stop_all_worker_tasks worker_task_ids wd2 wd' -> stop_all_worker_tasks worker_task_ids wd wd'.

Definition is_local : bool := match rm_kind rm with LocalResourceManager => true | _ => false end.

(** The workers that are left when [stop_all_worker_tasks] has returned: all of them, if they
    are local; else any of them, since [stop_workers] returns when the processes have been
    told to end. *)
Definition survivors (pss left_over : list (gmap string WorkerProc)) : Prop :=
  if is_local then left_over = pss else left_over `sublist_of` pss.

(** One turn of the loop: the descriptor is saved, the workers are started, they, the
    coordinator and what is left of earlier turns run until the heartbeat timer answers,
    and they are stopped. *)
Inductive turn (r : HeartbeatResult) : Coord -> Coord -> Prop :=
  | turn_intro d wd last old announced wd1 worker_task_ids s0 s old1 left_over wd2 wd' :
      worker_allocate rm wd = (wd1, Ok worker_task_ids) ->
      init (gauge_startup_number d) s0 -> rtc (overlap_step is_local) (s0, old) (s, old1) -> cl_phase s = Stopped r ->
      elapse wd1 wd2 -> stop_all_worker_tasks worker_task_ids wd2 wd' ->
      survivors (cl_procs s :: old1) left_over ->
      turn r (mkCoord d wd last old announced) (mkCoord (gauge_startup_number d) wd' (Some s) left_over (cl_ended s ++ announced)).

(** [run] returns after a turn that ended; the turns before it timed out. *)
Definition coordinator_runs (n : nat) (co co' : Coord) : Prop := exists co1, nsteps (turn HR_Timeout) n co co1 /\ turn HR_End co1 co'.

(** ** What a restart changes *)
Lemma gauge_iter n c : Nat.iter n gauge_startup_number c =
  mkCluster (coordinator_manager (Nat.iter n gauge_startup_number c)) (worker_managers c).
Proof. induction n as [|n IH]; [by destruct c|]. rewrite !Nat.iter_succ. rewrite IH at 1. done. Qed.

Lemma gauge_iter_number n c : in_u 64 (cm_startup_number (coordinator_manager c)) ->
  cm_startup_number (coordinator_manager (Nat.iter n gauge_startup_number c)) = wrap_u 64 (cm_startup_number (coordinator_manager c) + Z.of_nat n).
Proof.
  intros H. induction n as [|n IH]; [cbn; by rewrite Z.add_0_r, wrap_u_small|]. rewrite Nat.iter_succ. cbn [gauge_startup_number coordinator_manager cm_startup_number]. rewrite IH. unfold wrap_u.
  rewrite Zplus_mod_idemp_l. f_equal. lia.
Qed.

Lemma turn_descriptor r co co' : turn r co co' -> co_descriptor co' = gauge_startup_number (co_descriptor co).
Proof. by destruct 1. Qed.

Lemma turns_descriptor n co co' : nsteps (turn HR_Timeout) n co co' -> co_descriptor co' = Nat.iter n gauge_startup_number (co_descriptor co).
Proof. induction 1 as [co|n co co1 co2 H1 _ IH]; [done|]. by rewrite IH, (turn_descriptor _ _ _ H1), Nat.iter_succ_r. Qed.

(** A thread that was started stays on the list. *)
Context (Helapse : forall wd wd', elapse wd wd' -> wd_threads wd' = wd_threads wd).

Lemma stop_local ids wd wd' : rm_kind rm = LocalResourceManager -> stop_all_worker_tasks ids wd wd' -> wd' = wd.
Proof. intros Hk. destruct 1 as [wd wd' H|wd wd1 e wd2 wd' H]; unfold stop_workers in H; rewrite Hk in H; [by injection H|done]. Qed.

Lemma turn_local r co co' cd : rm_kind rm = LocalResourceManager -> rm_cluster_descriptor rm = Some cd -> turn r co co' ->
  wd_threads (co_world co') = wd_threads (co_world co) ++ (local_context (rm_context rm) cd <$> worker_managers cd).
Proof.
  intros Hk Hcd. destruct 1 as [d wd last old ann wd1 ids s0 s old1 lo wd2 wd' Ha _ _ _ He Hs _]. cbn [co_world]. rewrite (stop_local _ _ _ Hk Hs), (Helapse _ _ He).
  unfold worker_allocate in Ha. rewrite Hcd, Hk in Ha. by injection Ha as <- _.
Qed.

Lemma turns_local n co co' cd : rm_kind rm = LocalResourceManager -> rm_cluster_descriptor rm = Some cd -> nsteps (turn HR_Timeout) n co co' ->
  wd_threads (co_world co') = wd_threads (co_world co) ++ mjoin (replicate n (local_context (rm_context rm) cd <$> worker_managers cd)).
Proof.
  intros Hk Hcd. induction 1 as [co|n co co1 co2 H1 _ IH]; [by rewrite app_nil_r|]. rewrite IH, (turn_local _ _ _ _ Hk Hcd H1), <- app_assoc. done.
Qed.

(** *** The ends that have been announced *)

(** Along any of these steps, starting with [announced] from earlier turns: a task is marked as
    terminated, in the store or in what the timer has read, only when its end has been
    announced, and the status says [Terminated] only when every task is marked. *)
Definition told (announced : list TaskId) (ps : gmap string WorkerProc) : Prop :=
  map_Forall (fun _ p => forall t, TaskEnd t ∈ wp_channel p -> t ∈ announced) ps.

Definition marked_ok (c0 : ClusterDescriptor) (announced : list TaskId) (c : ClusterDescriptor) : Prop :=
  shape c = shape c0 /\ (cm_status (coordinator_manager c) = Terminated -> all_terminated c) /\ ended_ok announced c.

Record told_inv (c0 : ClusterDescriptor) (announced : list TaskId) (s : Cluster) : Prop := mkTold {
  told_store : exists c, cl_store s = Some c /\ marked_ok c0 (cl_ended s ++ announced) c;
  told_procs : told (cl_ended s ++ announced) (cl_procs s);
  told_phase : match cl_phase s with
    | Checking c _ => marked_ok c0 (cl_ended s ++ announced) c
    | Stopped HR_End => exists c, marked_ok c0 (cl_ended s ++ announced) c /\ all_terminated c
    | _ => True
    end
}.

Lemma marked_mono c0 a a' c : a ⊆ a' -> marked_ok c0 a c -> marked_ok c0 a' c.
Proof. intros Ha (H1 & H2 & H3). split_and!; [done..|]. intros td Htd Ht. by apply Ha, H3. Qed.

Lemma told_mono a a' ps : a ⊆ a' -> told a ps -> told a' ps.
Proof. intros Ha H id p Hp t Ht. by eapply Ha, H. Qed.

Lemma phase_mono c0 a a' ph : a ⊆ a' ->
  match ph with Checking c _ => marked_ok c0 a c | Stopped HR_End => exists c, marked_ok c0 a c /\ all_terminated c | _ => True end ->
  match ph with Checking c _ => marked_ok c0 a' c | Stopped HR_End => exists c, marked_ok c0 a' c /\ all_terminated c | _ => True end.
Proof. intros Ha. destruct ph as [| | |c t|[]]; try done; [by apply marked_mono|]. intros (c & Hc & ?). exists c. split; [by eapply marked_mono|done]. Qed.

Lemma told_insert a ps id p : told a ps -> (forall t, TaskEnd t ∈ wp_channel p -> t ∈ a) -> told a (<[id := p]> ps).
Proof. intros H Hp. by apply map_Forall_insert_2. Qed.

(** A heartbeat, whoever sends it. *)
Lemma marked_beat c0 a now c id items st' r : NoDup (shape c0).*1 -> marked_ok c0 a c -> (forall t, TaskEnd t ∈ items -> t ∈ a) ->
  update_worker_status now (Some c) id items Registered = (st', r) -> exists c', st' = Some c' /\ marked_ok c0 a c'.
Proof.
  intros Hnd (Hsh & Hst & He) Hi. rewrite update_worker_status_eq by (by rewrite <- shape_ids, Hsh). case_decide; intros [= <- _]; [|by exists c].
  eexists. split; [done|]. split_and!; [by rewrite shape_flush_if, shape_beat| |by apply ended_beat].
  intros Hs. apply flush_if_all_terminated. destruct (flush_if_status_cases (existsb is_task_end items) (beat_cluster now id items Registered c)) as [E|[E|[_ E]]].
  - apply all_terminated_beat, Hst. rewrite <- Hs, E. done.
  - rewrite E in Hs. done.
  - by apply flush_if_all_terminated in E.
Qed.

Lemma told_step c0 a s s' : NoDup (shape c0).*1 -> step s s' -> told_inv c0 a s -> told_inv c0 a s' /\ cl_ended s ⊆ cl_ended s'.
Proof.
  intros Hnd Hs [(c & Hc & Hm) Hp Hph].
  assert (forall ps bs now st ph es p id p', es = cl_ended s -> ps = cl_procs s -> st = cl_store s -> ph = cl_phase s -> ps !! id = Some p ->
    (forall t, TaskEnd t ∈ wp_channel p' -> TaskEnd t ∈ wp_channel p) -> told_inv c0 a (mkClusterState now st ph (<[id := p']> ps) bs es) /\ es ⊆ es) as Hproc.
  { intros ps bs now st ph es p id p' -> -> -> -> Hid Hch. split; [|done]. split; cbn; [by exists c| |done]. apply told_insert; [done|]. intros t Ht. by eapply Hp, Hch. }
  destruct Hs as [now st ph ps bs es now' Hle|now c1 ph ps bs es id p item Hid Hmay|now st ph ps bs es id p Hid|now st ph ps bs es id p st' r ans Hid Hup
    |now st ph ps bs es id p Hid|now c1 ph ps bs es id p Hid Hl Hst|now st c1 ps bs es Hl Hun|now st st' ps bs es Hup|now st c1 ps bs es Hl|now st c1 t ps bs es];
    cbn [cl_store cl_procs cl_phase cl_ended cl_now] in *; simplify_eq.
  - split; [|done]. split; [by exists c|done..].
  - assert (es ++ a ⊆ (ended_by item ++ es) ++ a) as Ha by set_solver. split; [|set_solver]. split; cbn.
    + exists c. split; [done|]. by eapply marked_mono.
    + apply told_insert; [by eapply told_mono|]. cbn. intros t [Ht|Ht%list_elem_of_singleton]%elem_of_app; [by eapply Ha, Hp|]. subst. cbn. set_solver.
    + by eapply phase_mono.
  - by eapply Hproc.
  - destruct (marked_beat c0 (es ++ a) now c id (report_items (wp_panic p) (wp_channel p)) st' r Hnd Hm) as (c' & -> & Hm'); [|done|].
    { intros t Ht%report_items_task_end. by eapply Hp. }
    split; [|done]. split; cbn; [by exists c'| |done]. apply told_insert; [done|]. intros t Ht. by apply elem_of_nil in Ht.
  - eapply Hproc; try done. intros t Ht. by apply elem_of_nil in Ht.
  - by eapply Hproc.
  - split; [|done]. split; [by exists c|done..].
  - injection Hup as <-. split; [|done]. split; cbn; [|done..]. eexists. split; [done|]. destruct Hm as (H1 & _ & H3). by split_and!.
  - injection Hl as <-. split; [|done]. split; cbn; [by exists c|done..].
  - split; [|done]. split; cbn; [by exists c|done|]. unfold heartbeat_round.
    destruct Hph as (H1 & H2 & H3). case_bool_decide as Ht; [exists c1; split; [by split_and!|by apply H2]|]. by destruct (existsb _ _).
Qed.

(** With the workers of earlier turns. *)
Lemma told_overlap b c0 a x y : NoDup (shape c0).*1 -> rtc (overlap_step b) x y -> told_inv c0 a x.1 -> Forall (told (cl_ended x.1 ++ a)) x.2 ->
  told_inv c0 a y.1 /\ Forall (told (cl_ended y.1 ++ a)) y.2 /\ length y.2 = length x.2.
Proof.
  intros Hnd Hr. induction Hr as [x|x y z Hs _ IH]; intros Hi Ho; [done|].
  enough (told_inv c0 a y.1 /\ Forall (told (cl_ended y.1 ++ a)) y.2 /\ length y.2 = length x.2) as (H1 & H2 & H3).
  { destruct (IH H1 H2) as (? & ? & ?). split_and!; [done..|congruence]. }
  clear IH. destruct Hs as [s s' old Hs|s s' old i ps Hps Hs|s old ps' old' _ Hsh]; cbn [fst snd] in *.
  - destruct (told_step c0 a s s' Hnd Hs Hi) as [H1 H2]. split_and!; [done| |done]. eapply Forall_impl; [exact Ho|]. intros ps. apply told_mono. set_solver.
  - rewrite Forall_forall in Ho. destruct (told_step c0 a (with_procs ps s) s' Hnd Hs) as [H1 H2].
    { destruct Hi. split; [done| |done]. cbn. by eapply Ho, list_elem_of_lookup_2. }
    cbn [cl_ended with_procs] in H2. assert (cl_ended s ++ a ⊆ cl_ended s' ++ a) as Ha by set_solver. split_and!.
    + destruct H1, Hi. split; cbn; [done| |done]. by eapply told_mono.
    + cbn. apply Forall_insert; [|by destruct H1]. apply Forall_forall. intros qs Hqs. eapply told_mono; [exact Ha|by apply Ho].
    + apply length_insert.
  - destruct Hsh as (Hpool & Hall & _). inversion Hall as [|? ? ? ? _ Hall']; subst.
    assert (Forall (told (cl_ended s ++ a)) (ps' :: old')) as [Hp Ho']%Forall_cons.
    { apply Forall_forall. intros ps Hps id p Hid t Ht. assert (TaskEnd t ∈ pooled (cl_procs s :: old)) as (qs & (e & He & Hqs%elem_of_map_to_list')%list_elem_of_bind & Hin)%list_elem_of_bind.
      { rewrite <- Hpool. apply list_elem_of_bind. exists ps. split; [|done]. apply list_elem_of_bind. exists (id, p). split; [done|by apply elem_of_map_to_list]. }
      apply elem_of_cons in Hin as [->|Hin]; [by eapply (told_procs _ _ _ Hi)|]. rewrite Forall_forall in Ho. by eapply (Ho _ Hin). }
    split_and!; [|done|cbn; symmetry; by eapply Forall2_length]. destruct Hi. by split.
Qed.

Lemma init_told c0 a s : init c0 s -> told_inv c0 a s /\ NoDup (shape c0).*1.
Proof.
  intros ((Hst & Hnd & Hf) & Hs & Hph & Hp & _ & He). split; [|by rewrite shape_ids]. split.
  - exists c0. split; [done|]. split_and!; [done|by rewrite Hst|]. intros td (w & Hw & Htd)%elem_of_cluster_tasks Ht.
    rewrite Forall_forall in Hf. destruct (Hf w Hw) as [_ Hfw]. rewrite Forall_forall in Hfw. by rewrite (Hfw td Htd) in Ht.
  - intros id p Hid t Ht. rewrite (Hp id p Hid) in Ht. by apply elem_of_nil in Ht.
  - by rewrite Hph.
Qed.

(** What one turn keeps of the workers it leaves behind. *)
Lemma turn_told r co co' : Forall (told (co_announced co)) (co_old co) -> turn r co co' ->
  Forall (told (co_announced co')) (co_old co') /\ (is_local = true -> length (co_old co') = S (length (co_old co))) /\
  exists s s0 old1, co_last co' = Some s /\ co_announced co' = cl_ended s ++ co_announced co /\ cl_phase s = Stopped r /\
    init (co_descriptor co') s0 /\ rtc (overlap_step is_local) (s0, co_old co) (s, old1) /\
    (r = HR_End -> forall a, Forall (told a) (co_old co) -> forall td, td ∈ cluster_tasks (co_descriptor co') -> td_task_id td ∈ cl_ended s ++ a).
Proof.
  intros Hold. destruct 1 as [d wd last old ann wd1 ids s0 s old1 lo wd2 wd' _ Hinit Hrun Hph _ _ Hsur]. cbn [co_old co_announced co_last co_descriptor] in *.
  assert (forall a, Forall (told a) old -> told_inv (gauge_startup_number d) a s /\ Forall (told (cl_ended s ++ a)) old1 /\ length old1 = length old) as Hend.
  { intros a Ha. destruct (init_told _ a _ Hinit) as [Hi Hnd]. apply (told_overlap is_local _ a _ _ Hnd Hrun Hi).
    cbn. destruct Hinit as (_ & _ & _ & _ & _ & ->). exact Ha. }
  destruct (Hend ann Hold) as (Hi & Ho & Hlen).
  assert (Forall (told (cl_ended s ++ ann)) (cl_procs s :: old1)) as Hall by (constructor; [by destruct Hi|done]).
  split_and!.
  - unfold survivors in Hsur. destruct is_local; [by subst|]. rewrite Forall_forall in Hall |- *. intros ps Hps. apply Hall. by eapply sublist_subseteq.
  - intros Hl. unfold survivors in Hsur. rewrite Hl in Hsur. subst. cbn. by rewrite Hlen.
  - exists s, s0, old1. split_and!; try done. intros -> a Ha td Htd. destruct (Hend a Ha) as ([_ _ Hp] & _ & _). rewrite Hph in Hp. destruct Hp as (c & (Hsh & _ & He) & Hterm).
    destruct (shape_tasks c _ (td_task_id td) Hsh) as (td' & Htd' & <-); [by exists td|].
    apply He; [done|]. unfold all_terminated in Hterm. rewrite Forall_forall in Hterm. by apply Hterm.
Qed.

Lemma turns_told n co co' : Forall (told (co_announced co)) (co_old co) -> nsteps (turn HR_Timeout) n co co' ->
  Forall (told (co_announced co')) (co_old co') /\ (is_local = true -> length (co_old co') = (n + length (co_old co))%nat).
Proof.
  intros Hold. induction 1 as [co|n co co1 co2 H1 _ IH]; [done|]. destruct (turn_told _ _ _ Hold H1) as (Ho & Hl & _). destruct (IH Ho) as [H2 H3]. split; [done|].
  intros Hloc. rewrite (H3 Hloc), (Hl Hloc). lia.
Qed.

End turns.

(** ** Up to the loop *)
Lemma restore_fresh cks c c' : fresh_descriptor c -> restore_checkpoints cks c = Ok c' -> fresh_descriptor c' /\ coordinator_manager c' = coordinator_manager c /\ length (worker_managers c') = length (worker_managers c).
Proof.
  intros (Hs & Hn & Hf). unfold restore_checkpoints. case_decide; [intros [= <-]; done|]. set (f := fun w : WorkerManagerDescriptor => _).
  destruct (mapM_res f (worker_managers c)) as [ws| |] eqn:E; run_bind; try done. intros [= <-]. apply mapM_res_ok in E. cbn [coordinator_manager worker_managers].
  assert (Forall2 (fun w w' => wm_task_manager_id w' = wm_task_manager_id w /\ (fresh_worker w -> fresh_worker w')) (worker_managers c) ws) as Hall.
  { eapply Forall2_impl; [done|]. intros w w' Hw. unfold f in Hw. destruct (mapM_res _ (wm_task_descriptors w)) as [ts| |] eqn:Et; simplify_eq/=. split; [done|].
    intros [H1 H2]. split; [done|]. cbn. apply mapM_res_ok in Et. clear -H2 Et. induction Et as [|td td' tds tds' Ht _ IH]; [constructor|]. inversion H2; subst. constructor; [|by apply IH].
    unfold restore_task in Ht. destruct (mapM_res _ (td_operators td)); by simplify_eq/=. }
  split_and!; [|done|by rewrite (Forall2_length _ _ _ Hall)]. split_and!; [done| |].
  - cbn. replace (wm_task_manager_id <$> ws) with (wm_task_manager_id <$> worker_managers c); [done|]. clear -Hall. induction Hall as [|w w' l l' [Hw _] _ IH]; [done|]. cbn. by rewrite Hw, IH.
  - cbn. clear -Hall Hf. induction Hall as [|w w' l l' [_ Hw] _ IH]; [constructor|]. inversion Hf; subst. constructor; [by apply Hw|by apply IH].
Qed.

(** Restoring succeeds or panics. *)
Lemma mapM_res_no_error {E A B} (f : A -> res E B) l : (forall x e, f x <> Err e) -> forall e, mapM_res f l <> Err e.
Proof. intros Hf. induction l as [|x l IH]; intros e; [done|]. cbn. specialize (Hf x). destruct (f x); cbn; [|by intros [= ->]; eapply Hf|done]. destruct (mapM_res f l); cbn; [done|by intros [= ->]; eapply IH|done]. Qed.

Lemma restore_no_error cks c e : restore_checkpoints cks c <> Err e.
Proof.
  unfold restore_checkpoints. case_decide; [done|]. assert (forall td e, restore_task cks td <> Err e) as Ht.
  { intros td e'. unfold restore_task. pose proof (mapM_res_no_error (restore_operator cks (task_number (td_task_id td))) (td_operators td)) as Hm.
    destruct (mapM_res _ (td_operators td)) as [ops|x|p]; cbn; try done. intros _. eapply (Hm _ x); [done]. Unshelve. intros od x'. unfold restore_operator. destruct (cks !! od_operator_id od) as [[|ck l]|]; try done. by destruct (List.find _ _). }
  set (f := fun w : WorkerManagerDescriptor => _). pose proof (mapM_res_no_error f (worker_managers c)) as Hm. destruct (mapM_res f _) as [ws|x|p]; cbn; try done. intros _. eapply (Hm _ x); [done]. Unshelve.
  intros w x'. unfold f. pose proof (mapM_res_no_error (restore_task cks) (wm_task_descriptors w) Ht) as Hw. destruct (mapM_res (restore_task cks) (wm_task_descriptors w)) as [ts|y|p]; cbn; try done. by intros _; apply (Hw y).
Qed.

Section prepared.
Context {DA : DagApi} {HO : HashOrder} {SAPP : StreamApp} {SB : SerdeJson CheckpointBackend}.
Context {S : Type} {CS : CheckpointStorage S} (CheckpointStorage_new : CheckpointBackend -> S).
Context (with_capacity : Z -> nat) (VERSION : string) (now : Z) (fuel : nat) (context : NodeContext).

Abbreviation properties := (prepare_properties context).
Abbreviation graph := (app_build_stream properties).

(** C23: For a program whose graphs can be built, that names its application, with a
    positive number of workers: the coordinator gets to its loop, with a descriptor a run
    can start from, at least as many workers as asked for, its own address in it, and the
    resource manager prepared with it, unless a checkpoint storage is configured and the
    checkpoints cannot be loaded or do not cover every operator of every task; it never
    returns an error before that. *)
Theorem run_prepared address rm dm name :
  (forall n, n <= Z.of_nat (with_capacity n)) -> program_graphs graph dm -> (length (raw_nodes (dag graph)) < fuel)%nat -> DagManager_try_from fuel graph = Some (Ok dm) ->
  0 < nc_num_task_managers context -> get_application_name properties = Ok name ->
  match run_prepare CheckpointStorage_new with_capacity VERSION now fuel context address rm with
  | Some (Ok (ck_manager, d, rm')) => fresh_descriptor d /\ nc_num_task_managers context <= Z.of_nat (length (worker_managers d)) /\
      cm_web_address (coordinator_manager d) = address /\ cm_startup_number (coordinator_manager d) = 0 /\ rm' = rm_prepare d rm
  | Some (Err e) => False
  | Some (Panic p) => is_ok (get_checkpoint properties) = true
  | None => False
  end.
Proof.
  intros Hcap Hg Hf Hdm Hnum Hname. unfold run_prepare. rewrite Hdm. cbn [dag_err rbind]. destruct (program_graphs_ok _ _ Hg) as (Hsg & Hjg & Heg & Hfit).
  destruct (metadata_of_graphs (Er := string) graph (snd <$> operators graph) dm) as (md & -> & _); [apply (pg_built _ _ Hg)|done..|]. cbn [rbind].
  destruct Hg as [Hb Hu _ Ht He]. destruct (cluster_descriptor_made (E := string) with_capacity VERSION now graph fuel dm properties (to_context context) Hcap Hb Hu Hf Hdm Ht He Hnum) as (c & Hc & Hlen & Hok).
  rewrite Hc. cbn [rbind]. assert (cm_application_properties (coordinator_manager c) = properties /\ cm_startup_number (coordinator_manager c) = 0) as [Hp H0].
  { unfold build_cluster_descriptor in Hc. destruct (alloc_by_instance _ _); simplify_eq/=. done. }
  unfold build_checkpoint_manager, CheckpointManager_new. rewrite Hp, Hname. cbn [mbind res_bind].
  set (ttl := match get_checkpoint_ttl properties with Ok ttl => ttl | _ => _ end). set (ckm := cam_new name _ ttl _ _).
  assert (is_ok (get_checkpoint properties) = false -> cam_load ckm = (ckm, Ok ∅)) as Hno by (intros H; unfold cam_load, ckm; cbn; by destruct (get_checkpoint properties)).
  destruct (cam_load ckm) as [ck' [cks|e|p]].
  - destruct (restore_checkpoints cks c) as [c'|e|p] eqn:Er; cbn [mbind res_bind rbind].
    + destruct (restore_fresh _ _ _ (dc_fresh _ _ Hok) Er) as (Hfr & Hcm & Hl). cbn [set_web_address coordinator_manager cm_web_address worker_managers snd fst]. split_and!; [|by rewrite Hl|done| |done].
      * destruct Hfr as (H1 & H2 & H3). split_and!; done.
      * cbn [cm_startup_number]. by rewrite Hcm.
    + by apply restore_no_error in Er.
    + destruct (get_checkpoint properties) as [b| |] eqn:Eb; [done|..]; specialize (Hno eq_refl); injection Hno as _ Hk; subst cks; unfold restore_checkpoints in Er; by rewrite decide_True in Er.
  - cbn [mbind res_bind rbind]. destruct (get_checkpoint properties) as [b| |]; [done|..]; by specialize (Hno eq_refl).
  - cbn [mbind res_bind rbind]. destruct (get_checkpoint properties) as [b| |]; [done|..]; by specialize (Hno eq_refl).
Qed.
End prepared.

(** ** Examples *)
#[local] Existing Instance ListDag.
#[local] Existing Instance id_order.
#[local] Instance ex_app_json : SerdeJson Application := bits_json.
#[local] Instance ex_infos_json : SerdeJson (list TaskResourceInfo) := bits_json.

#[local] Instance ex_command_json : SerdeJson (YarnData (list (gmap string string))) := bits_json.
#[local] Instance ex_response_json : SerdeJson (YarnData (list TaskResourceInfo)) := bits_json.

#[global] Instance CheckpointBackend_eq_dec : EqDecision CheckpointBackend.
Proof. solve_decision. Defined.
#[global] Instance CheckpointBackend_countable : Countable CheckpointBackend.
Proof.
  apply (inj_countable' (fun b => match b with CheckpointBackend_Memory => None | CheckpointBackend_MySql e t => Some (e, t) end)
           (fun o => match o with None => CheckpointBackend_Memory | Some (e, t) => CheckpointBackend_MySql e t end)). by intros [].
Defined.
#[local] Instance ex_backend_json : SerdeJson CheckpointBackend := bits_json.

Definition ex_node (mode : ClusterMode) (config : ClusterConfig) : NodeContext :=
  mkNodeContext "app" "coordinator" "10.0.0.9" mode 2 Coordinator config "http://10.0.0.9:1" "" "" "" "" 512 1 "" "".

(** A local run of one turn. *)
Definition ex_local : ResourceManager := mkResourceManager LocalResourceManager (ex_node Local ClusterConfig_new_local) (Some ex_cluster).

Definition ex_world : World := mkWorld [] ∅ ∅ (mkYarnCli [] []) "1".

Definition ex_before : ClusterDescriptor :=
  let cm := coordinator_manager ex_cluster in
  mkCluster (mkCoordinator (cm_version cm) (cm_application_id cm) (cm_application_properties cm) (cm_web_address cm) (cm_metrics_address cm) (cm_status cm)
    (cm_v_cores cm) (cm_memory_mb cm) (cm_num_task_managers cm) (cm_uptime cm) (wrap_u 64 (cm_startup_number cm - 1))) (worker_managers ex_cluster).

(** A first turn in which both workers start, end their tasks and then fall silent, the ends
    still in their channels. *)
Definition ex_old_proc (n : Z) : WorkerProc := mkProc [TaskEnd (mkTaskId 0 n 2)] true false Pending.
Definition ex_old : gmap string WorkerProc := <["worker_manager_0"%string := ex_old_proc 0]> (<["worker_manager_1"%string := ex_old_proc 1]> ∅).

Lemma ex_silent_turn : exists s, rtc step ex_init s /\ cl_phase s = Stopped HR_Timeout /\ cl_procs s = ex_old /\ cl_ended s = [mkTaskId 0 1 2; mkTaskId 0 0 2].
Proof.
  eexists. split.
  - unfold ex_init. run_step (step_beat 0 (Some ex_cluster) Waiting _ [] [] "worker_manager_0" proc_new _ _ true).
    run_step (step_beat 0 _ _ _ _ _ "worker_manager_1" proc_new _ _ true). run_step step_wait_read. run_step step_wait_update.
    run_step (step_poll 0 _ _ _ _ _ "worker_manager_0"). run_step (step_poll 0 _ _ _ _ _ "worker_manager_1").
    submit_step "worker_manager_0"%string 0%nat 0. submit_step "worker_manager_1"%string 1%nat 1.
    run_step (step_tick _ _ _ _ _ _ 60000). run_step step_timer_read. run_step step_timer_check. apply rtc_refl.
  - split; [vm_compute; reflexivity|]. split; vm_compute; reflexivity.
Qed.

Lemma own_steps b s s' old : rtc step s s' -> rtc (overlap_step b) (s, old) (s', old).
Proof. induction 1 as [s|s s1 s2 H _ IH]; [apply rtc_refl|]. eapply rtc_l; [by apply own_step|exact IH]. Qed.

(** Under the id of another worker, as it can go in the shared channel, the end of a task is
    lost. *)
Example ex_wrong_worker : match update_worker_status 9 (Some ex_cluster) "worker_manager_1" [TaskEnd (mkTaskId 0 0 2)] Registered with
  | (Some c, Ok status) => td_terminated <$> cluster_tasks c = [false; false] /\ status = Pending
  | _ => False
  end.
Proof. split; reflexivity. Qed.

(** In the second turn the new workers only register; the old ones report their ends. *)
Definition ex_second : Cluster := mkClusterState 60000 (Some (gauge_startup_number ex_cluster)) Waiting (cl_procs ex_init) [] [].

Ltac old_beat id p := eapply rtc_l;
  [eapply (old_step true _ _ _ 0); [reflexivity|unfold with_procs; cbn [cl_now cl_store cl_phase cl_procs cl_beats cl_ended];
     eapply (step_beat 60000 _ _ _ _ _ id p _ _ true); vm_compute; reflexivity]|];
  unfold with_procs; cbn [cl_now cl_store cl_phase cl_procs cl_beats cl_ended].

Lemma ex_stale_end : exists s old, rtc (overlap_step true) (ex_second, [ex_old]) (s, old) /\ cl_phase s = Stopped HR_End /\ cl_ended s = [].
Proof.
  eexists _, _. split.
  - etrans; [apply own_steps; unfold ex_second, ex_init; cbn [cl_procs];
      run_step (step_beat 60000 (Some (gauge_startup_number ex_cluster)) Waiting _ [] [] "worker_manager_0" proc_new _ _ true);
      run_step (step_beat 60000 _ _ _ _ _ "worker_manager_1" proc_new _ _ true); run_step step_wait_read; run_step step_wait_update; apply rtc_refl|].
    old_beat "worker_manager_0"%string (ex_old_proc 0). old_beat "worker_manager_1"%string (ex_old_proc 1).
    eapply rtc_l; [apply own_step; eapply step_timer_read; vm_compute; reflexivity|]. eapply rtc_l; [apply own_step; eapply step_timer_check|]. apply rtc_refl.
  - split; [vm_compute; reflexivity|vm_compute; reflexivity].
Qed.

Lemma ex_local_allocates wd : worker_allocate ex_local wd = (spawn (local_context (ex_node Local ClusterConfig_new_local) ex_cluster <$> worker_managers ex_cluster) wd, Ok []).
Proof. reflexivity. Qed.

Lemma ex_turn r co s0 s old1 : init (gauge_startup_number (co_descriptor co)) s0 -> rtc (overlap_step true) (s0, co_old co) (s, old1) -> cl_phase s = Stopped r ->
  turn eq ex_local r co (mkCoord (gauge_startup_number (co_descriptor co))
    (spawn (local_context (ex_node Local ClusterConfig_new_local) ex_cluster <$> worker_managers ex_cluster) (co_world co)) (Some s) (cl_procs s :: old1) (cl_ended s ++ co_announced co)).
Proof.
  intros Hi Hr Hph. destruct co as [d wd last old ann]. eapply (turn_intro eq ex_local r d wd last old ann); [apply ex_local_allocates|exact Hi|exact Hr|exact Hph|reflexivity| |reflexivity].
  apply stop_success. reflexivity.
Qed.

Definition ex_start : Coord := mkCoord ex_before ex_world None [] [].

(** A run that ends although none of the workers of the last turn has announced an end. *)
Lemma stale_workers_end : exists co1 co2 s, turn eq ex_local HR_Timeout ex_start co1 /\ turn eq ex_local HR_End co1 co2 /\ co_last co2 = Some s /\ cl_ended s = [].
Proof.
  destruct ex_silent_turn as (s1 & Hr1 & Hp1 & Ho1 & He1). destruct ex_stale_end as (s2 & old2 & Hr2 & Hp2 & He2).
  eexists _, _, s2. split; [apply (ex_turn HR_Timeout ex_start ex_init s1 []); [exact ex_init_ok|apply own_steps; exact Hr1|exact Hp1]|].
  split; [|split; [|exact He2]].
  - apply (ex_turn HR_End _ ex_second s2 old2); [|cbn [co_old]; rewrite Ho1; exact Hr2|exact Hp2].
    destruct ex_init_ok as ((H1 & H2 & H3) & _ & _ & H4 & _). split_and!; try done.
  - reflexivity.
Qed.


(** The aggregation of two sources of records, with its name. *)
#[local] Instance ex_app : StreamApp := {|
  app_prepare_properties := fun p => set_string SYSTEM_APPLICATION_NAME "aggregation" p;
  app_build_stream := fun _ => prog_graph ex_aggregate
|}.

Lemma run_prepared_witness : match run_prepare (S := gmap CheckpointId (list Checkpoint)) (fun _ => ∅) Z.to_nat "0.6.4" 17 20 (ex_node Local ClusterConfig_new_local) "http://10.0.0.9:8080" ex_local with
  | Some (Ok (ck_manager, d, rm')) => fresh_descriptor d /\ 2 <= Z.of_nat (length (worker_managers d)) /\ cm_web_address (coordinator_manager d) = "http://10.0.0.9:8080"%string
  | _ => False
  end.
Proof.
  assert (prog_ok ex_aggregate = true) as Hok by (vm_compute; reflexivity). assert (match prog_manager ex_aggregate with Some _ => true | None => false end = true) as Hm by (vm_compute; reflexivity).
  assert (match run_prepare (S := gmap CheckpointId (list Checkpoint)) (fun _ => ∅) Z.to_nat "0.6.4" 17 20 (ex_node Local ClusterConfig_new_local) "http://10.0.0.9:8080" ex_local with Some (Panic _) => false | _ => true end = true)
    as Hp by (vm_compute; reflexivity).
  destruct (prog_manager ex_aggregate) as [dm|] eqn:Edm; [|discriminate Hm]. pose proof (prog_graphs ex_aggregate dm Hok Edm) as Hg.
  assert (DagManager_try_from 20 (prog_graph ex_aggregate) = Some (Ok dm)) as Hdm. { unfold prog_manager in Edm. destruct (DagManager_try_from 20 (prog_graph ex_aggregate)) as [[x|x|x]|]; [injection Edm as ->; reflexivity|discriminate Edm..]. }
  pose proof (run_prepared (S := gmap CheckpointId (list Checkpoint)) (fun _ => ∅) Z.to_nat "0.6.4" 17 20 (ex_node Local ClusterConfig_new_local) "http://10.0.0.9:8080" ex_local dm "aggregation"
    ltac:(intros n; lia) Hg ltac:(vm_compute; lia) Hdm ltac:(vm_compute; reflexivity) ltac:(vm_compute; reflexivity)) as H.
  destruct (run_prepare _ _ _ _ _ _ _ _) as [[[[ck d] rm']|e|p]|]; [|destruct H|discriminate Hp|destruct H]. destruct H as (H1 & H2 & H3 & _). split; [exact H1|]. split; [exact H2|exact H3].
Defined.
