(* ===== verification/BatchSinks.v ===== *)
(** * BatchSinks: the ClickHouse and Elasticsearch sinks

    src/rlink-connectors/connector-clickhouse/src/clickhouse_sink.rs and
    src/rlink-connectors/connector-elasticsearch/src/elasticsearch_sink.rs: a sink puts
    its records on a channel ([Handover], KafkaSource); tasks of their own take them off in
    batches and send each batch to the server.

    The clients and the user's converters are classes; what a task sees of the channel,
    over time, is a list of polls. The theorems say which records a batch sends. *)
From Stdlib Require Import ZArith Lia Ascii.
From stdpp Require Import base strings numbers option sets gmap list.
From S2P Require Import Prelude Bytes Element Channel KafkaOffsets KafkaSource.

#[local] Open Scope Z_scope.

(** What a poll of the channel gives: a record, or nothing; then [late] says whether the
    time of the batch is over after the pause. *)
Inductive Poll (R : Type) : Type := Got (r : R) | Nothing (late : bool).
Arguments Got {R} _.
Arguments Nothing {R} _.

Definition poll_record {R} (p : Poll R) : option R := match p with Got r => Some r | Nothing _ => None end.

(** ** ClickHouse *)
Class ClickhouseConverter (R : Type) := {
  CkBatch : Type;
  CkBlock : Type;
  create_batch : Z -> CkBatch;
  ck_append : CkBatch -> R -> CkBatch;
  ck_flush : CkBatch -> CkBlock
}.

(** A connection: inserting a block into a table, checking it. *)
Class ClickhouseClient (R : Type) `{ClickhouseConverter R} := {
  CkClient : Type;
  ck_insert : CkClient -> string -> CkBlock -> CkClient * res string unit;
  check_connection : CkClient -> CkClient * res string unit
}.

Record ClickhouseSink := mkClickhouseSink { cs_url : string; cs_table : string; cs_batch_size : Z; cs_tasks : Z }.

(** The choice of the server in [open]: the tasks share the list. *)
Definition sink_url (s : ClickhouseSink) (task_number : Z) : res string string :=
  let urls := split comma (cs_url s) in
  if (1 <? Z.of_nat (length urls)) then unwrap "called `Option::unwrap()` on a `None` value" (urls !! Z.to_nat (task_number mod Z.of_nat (length urls))) else Ok (cs_url s).

Section clickhouse.
Context {R : Type} {CC : ClickhouseConverter R} {CL : ClickhouseClient R}.

(** The loop of [batch_send]: [n] is the number of the poll, [k] how many are left. *)
Fixpoint poll_loop (k n : nat) (polls : list (Poll R)) (batch_block : CkBatch) (size : nat) : option (CkBatch * nat * list (Poll R)) :=
  match k with
  | O => Some (batch_block, size, polls)
  | S k =>
      match polls with
      | [] => None
      | Got record :: polls => poll_loop k (n + 1) polls (ck_append batch_block record) n
      | Nothing late :: polls => if late : bool then Some (batch_block, size, polls) else poll_loop k (n + 1) polls batch_block size
      end
  end.

(** [batch_send], with the polls that are left; [None] while it still waits for polls. *)
Definition batch_send (s : ClickhouseSink) (polls : list (Poll R)) (client : CkClient) : option (CkClient * res string nat * list (Poll R)) :=
  '(batch_block, size, polls) ← poll_loop (Z.to_nat (cs_batch_size s)) 0 polls (create_batch (cs_batch_size s)) 0;
  if (0 <? size)%nat then
    let '(client, r) := ck_insert client (cs_table s) (ck_flush batch_block) in
    Some (client, let* _ := r in Ok size, polls)
  else Some (client, Ok size, polls).

(** [reconnection]: up to [n] checks of the connection. *)
Fixpoint reconnect (n : nat) (err : option string) (client : CkClient) : CkClient * res string unit :=
  match n with
  | O => (client, match err with Some e => Err e | None => Ok tt end)
  | S n => match check_connection client with
           | (client, Ok _) => (client, Ok tt)
           | (client, Err e) => reconnect n (Some e) client
           | (client, Panic p) => (client, Panic p)
           end
  end.

Definition reconnection (client : CkClient) : CkClient * res string unit := reconnect 180 None client.

(** The loop of [run0], as long as there are polls. *)
Fixpoint run0 (fuel : nat) (s : ClickhouseSink) (polls : list (Poll R)) (client : CkClient) : CkClient * option (res string unit) :=
  match fuel with
  | O => (client, None)
  | S fuel =>
      match batch_send s polls client with
      | None => (client, None)
      | Some (client, Ok len, polls) => run0 fuel s polls client
      | Some (client, Err e, polls) =>
          match reconnection client with
          | (client, Ok _) => run0 fuel s polls client
          | (client, r) => (client, Some r)
          end
      | Some (client, Panic p, polls) => (client, Some (Panic p))
      end
  end.

(** ** What a batch sends *)

(** Some record came with another poll than the first. *)
Definition counted (used : list (Poll R)) : bool := existsb (fun p => match p with Got _ => true | _ => false end) (tail used).

Lemma poll_loop_spec k : forall n polls b size b' size' rest, poll_loop k n polls b size = Some (b', size', rest) -> exists used,
  polls = used ++ rest /\ (length used <= k)%nat /\ b' = foldl ck_append b (omap poll_record used) /\
  (if existsb (fun p => match p with Got _ => true | _ => false end) used then (n <= size' < n + length used)%nat else size' = size).
Proof.
  induction k as [|k IH]; intros n polls b size b' size' rest H; [injection H as <- <- <-; exists []; split_and!; try done; cbn; lia|].
  destruct polls as [|[r|late] polls]; [done|..]; cbn [poll_loop] in H.
  - destruct (IH _ _ _ _ _ _ _ H) as (used & -> & Hl & -> & Hs). exists (Got r :: used). split_and!; [done|cbn; lia|done|]. cbn. destruct (existsb _ used); [lia|subst; lia].
  - destruct late.
    + injection H as <- <- <-. exists [Nothing true]. split_and!; try done. cbn. lia.
    + destruct (IH _ _ _ _ _ _ _ H) as (used & -> & Hl & -> & Hs). exists (Nothing false :: used). split_and!; [done|cbn; lia|done|]. cbn. destruct (existsb _ used); [lia|done].
Qed.

Lemma poll_loop_total k : forall n polls b size, (k <= length polls)%nat -> is_Some (poll_loop k n polls b size).
Proof.
  induction k as [|k IH]; intros n polls b size Hl; [by eexists|]. destruct polls as [|[r|late] polls]; cbn in *; [lia|apply IH; lia|]. destruct late; [by eexists|apply IH; lia].
Qed.

(** The size the loop counts is positive exactly when a record came after the first poll. *)
Lemma poll_loop_size k polls b b' size rest : poll_loop k 0 polls b 0 = Some (b', size, rest) -> exists used,
  polls = used ++ rest /\ (length used <= k)%nat /\ b' = foldl ck_append b (omap poll_record used) /\ (0 <? size)%nat = counted used.
Proof.
  intros H. destruct k as [|k]; [injection H as <- <- <-; by exists []|]. destruct polls as [|[r|late] polls]; [done|..]; cbn [poll_loop] in H.
  - destruct (poll_loop_spec _ _ _ _ _ _ _ _ H) as (used & -> & Hl & -> & Hs). exists (Got r :: used). split_and!; [done|cbn; lia|done|]. unfold counted. cbn [tail].
    destruct (existsb _ used); [apply Nat.ltb_lt; lia|by subst].
  - destruct late.
    + injection H as <- <- <-. exists [Nothing true]. split_and!; try done. cbn. lia.
    + destruct (poll_loop_spec _ _ _ _ _ _ _ _ H) as (used & -> & Hl & -> & Hs). exists (Nothing false :: used). split_and!; [done|cbn; lia|done|]. unfold counted. cbn [tail].
      destruct (existsb _ used); [apply Nat.ltb_lt; lia|by subst].
Qed.

(** A batch of the ClickHouse sink takes at most [batch_size] polls; it ends once there
    are that many. When some record came with another poll than the first, exactly the
    records of its polls, in order, are inserted with one request, whose failure is the
    answer. When only the first poll gave a record, nothing is inserted and the record is
    gone. *)
Theorem clickhouse_batch s polls client :
  ((Z.to_nat (cs_batch_size s) <= length polls)%nat -> is_Some (batch_send s polls client)) /\
  forall client' r rest, batch_send s polls client = Some (client', r, rest) -> exists used,
    polls = used ++ rest /\ (length used <= Z.to_nat (cs_batch_size s))%nat /\
    let got := omap poll_record used in
    if counted used
    then let '(c, ins) := ck_insert client (cs_table s) (ck_flush (foldl ck_append (create_batch (cs_batch_size s)) got)) in client' = c /\ is_ok r = is_ok ins
    else client' = client /\ r = Ok 0%nat /\ (length got <= 1)%nat.
Proof.
  split.
  - intros Hl. unfold batch_send. destruct (poll_loop_total _ 0 polls (create_batch (cs_batch_size s)) 0 Hl) as [[[b size] rest] ->]. cbn [mbind option_bind]. destruct (0 <? size)%nat; [|by eexists]. destruct (ck_insert _ _ _). by eexists.
  - intros client' r rest. unfold batch_send. destruct (poll_loop _ 0 polls _ 0) as [[[b size] rest']|] eqn:E; [|done]. cbn [mbind option_bind].
    destruct (poll_loop_size _ _ _ _ _ _ E) as (used & -> & Hl & -> & Hs). rewrite Hs. destruct (counted used) eqn:Ec.
    + destruct (ck_insert client _ _) as [c ins] eqn:Ei. intros [= <- <- <-]. exists used. split_and!; [done|done|]. rewrite Ec, Ei. split; [done|]. by destruct ins.
    + intros [= <- <- <-]. exists used. split_and!; [done|done|]. rewrite Ec. apply Nat.ltb_ge in Hs. split_and!; [done|f_equal; lia|]. destruct used as [|p used]; [cbn; lia|]. unfold counted in Ec. cbn [tail] in Ec.
      assert (omap poll_record used = []) as Hn. { clear -Ec. induction used as [|[x|l] used IH]; [done|done|]. by apply IH. }
      cbn. rewrite Hn. destruct (poll_record p); cbn; lia.
Qed.
End clickhouse.

(** Every task of a sink with several servers gets one of them. *)
Lemma sink_url_one s task_number : 0 <= task_number -> exists url, sink_url s task_number = Ok url /\ (url ∈ split comma (cs_url s) \/ url = cs_url s).
Proof.
  intros Ht. unfold sink_url. destruct (Z.ltb_spec 1 (Z.of_nat (length (split comma (cs_url s))))) as [Hl|Hl]; [|eauto].
  destruct (lookup_lt_is_Some_2 (split comma (cs_url s)) (Z.to_nat (task_number mod Z.of_nat (length (split comma (cs_url s)))))) as [u Hu].
  - pose proof (Z.mod_pos_bound task_number (Z.of_nat (length (split comma (cs_url s)))) ltac:(lia)). lia.
  - rewrite Hu. exists u. split; [done|]. left. by eapply list_elem_of_lookup_2.
Qed.

(** ** Elasticsearch *)

(** JSON values of serde_json: an object of strings, the field [errors] of an answer. *)
Class EsValue := {
  Value : Type;
  value_of_index : gmap string (gmap string string) -> Value;
  errors_field : Value -> option bool
}.

Record ElasticsearchModel `{EsValue} := mkElasticsearchModel { em_index : string; em_type : string; em_body : Value }.

(** The client: a bulk request with its lines. *)
Class EsClient `{EsValue} := {
  Elastic : Type;
  bulk : Elastic -> list Value -> Elastic * res string Value
}.

(** [Index]: serialized as an object with the one field [index]. *)
Definition Index_new : gmap string string := ∅.
Definition set_index (index_value : string) (i : gmap string string) : gmap string string := <["_index" := index_value]> i.
Definition set_type (type_value : string) (i : gmap string string) : gmap string string := <["_type" := type_value]> i.
Definition index_to_json `{EsValue} (i : gmap string string) : Value := value_of_index (<["index" := i]> ∅).

Section elasticsearch.
Context {R : Type} {EV : EsValue} {EC : EsClient} (to_json : R -> ElasticsearchModel).

(** The two lines of a record. *)
Definition record_bodies (record : R) : list Value :=
  let model := to_json record in
  [index_to_json (set_type (em_type model) (set_index (em_index model) Index_new)); em_body model].

(** The loop of [batch_send]: it ends at the first poll that gives nothing. *)
Fixpoint bulk_loop (k : nat) (polls : list (option R)) (bulk_bodies : list Value) : option (list Value * list (option R)) :=
  match k with
  | O => Some (bulk_bodies, polls)
  | S k =>
      match polls with
      | [] => None
      | Some record :: polls => bulk_loop k polls (bulk_bodies ++ record_bodies record)
      | None :: polls => Some (bulk_bodies, polls)
      end
  end.

Definition es_flush (client : Elastic) (body_bulk : list Value) : Elastic * res string bool :=
  if decide (length body_bulk = 0%nat) then (client, Ok true)
  else
    let '(client, r) := bulk client body_bulk in
    (client, let* response_body := r in
             let* errors := ok_or (errors_field response_body) "no errors field in es response" in
             if errors : bool then Err "" else Ok true).

Definition es_batch_send (batch_size : nat) (polls : list (option R)) (client : Elastic) : option (Elastic * res string nat * list (option R)) :=
  '(bulk_bodies, polls) ← bulk_loop batch_size polls [];
  let len := length bulk_bodies in
  let '(client, r) := es_flush client bulk_bodies in
  Some (client, let* _ := r in Ok len, polls).

(** The loop of [run0]: it goes on after an error. *)
Fixpoint es_run0 (fuel : nat) (batch_size : nat) (polls : list (option R)) (client : Elastic) : Elastic * list (option R) :=
  match fuel with
  | O => (client, polls)
  | S fuel => match es_batch_send batch_size polls client with
              | None => (client, polls)
              | Some (client, _, polls) => es_run0 fuel batch_size polls client
              end
  end.

Lemma bulk_loop_spec k : forall polls acc bodies rest, bulk_loop k polls acc = Some (bodies, rest) -> exists records used,
  polls = (Some <$> records) ++ used ++ rest /\ (used = [] /\ length records = k \/ used = [None] /\ (length records < k)%nat) /\ bodies = acc ++ (records ≫= record_bodies).
Proof.
  induction k as [|k IH]; intros polls acc bodies rest H.
  - injection H as <- <-. exists [], []. split_and!; [done|by left|by rewrite app_nil_r].
  - destruct polls as [|[r|] polls]; [done|..]; cbn [bulk_loop] in H.
    + destruct (IH _ _ _ _ H) as (records & used & -> & Hu & ->). exists (r :: records), used. split_and!; [done|cbn; destruct Hu as [[? ?]|[? ?]]; [left|right]; split; done || lia|]. cbn. by rewrite <- app_assoc.
    + injection H as <- <-. exists [], [None]. split_and!; [done|right; cbn; split; [done|lia]|by rewrite app_nil_r].
Qed.

(** A batch of the Elasticsearch sink takes the records up to the first poll that gives
    nothing, at most [batch_size]; with any, it sends one request with, for each record in
    order, the line that names its index and type and the line with its body; without, it
    sends none. It succeeds exactly when there was nothing to send or the answer says that
    there were no errors, and answers the number of lines; the records of a batch that
    fails are not sent again. *)
Theorem elasticsearch_batch batch_size polls client client' r rest : es_batch_send batch_size polls client = Some (client', r, rest) ->
  exists records used, polls = (Some <$> records) ++ used ++ rest /\ (used = [] /\ length records = batch_size \/ used = [None] /\ (length records < batch_size)%nat) /\
    match records with
    | [] => client' = client /\ r = Ok 0%nat
    | _ => client' = (bulk client (records ≫= record_bodies)).1 /\
           match (bulk client (records ≫= record_bodies)).2 with
           | Ok answer => if decide (errors_field answer = Some false) then r = Ok (2 * length records)%nat else is_ok r = false
           | _ => is_ok r = false
           end
    end.
Proof.
  unfold es_batch_send. destruct (bulk_loop batch_size polls []) as [[bodies rest']|] eqn:E; [|done]. cbn [mbind option_bind].
  destruct (bulk_loop_spec _ _ _ _ _ E) as (records & used & -> & Hu & ->). cbn [app]. assert (length (records ≫= record_bodies) = (2 * length records)%nat) as Hlen.
  { induction records as [|x l IH] in |- *; [done|]. cbn in *. lia. }
  unfold es_flush. rewrite Hlen. destruct records as [|x l]; [cbn; intros [= <- <- <-]; exists [], used; done|]. rewrite decide_False by (cbn; lia).
  destruct (bulk client _) as [c ans] eqn:Eb. intros [= <- <- <-]. exists (x :: l), used. split; [done|]. split; [done|]. rewrite Eb. cbn [fst snd]. split; [done|].
  destruct ans as [v|e|p]; [|done..]. cbn [mbind res_bind]. destruct (errors_field v) as [[]|]; cbn; try done.
Qed.
End elasticsearch.

(** ** Examples *)
#[local] Instance ex_converter : ClickhouseConverter Z := {| CkBatch := list Z; CkBlock := list Z; create_batch := fun _ => []; ck_append := fun b r => b ++ [r]; ck_flush := fun b => b |}.
#[local] Instance ex_client : ClickhouseClient Z := {| CkClient := list Z; ck_insert := fun c _ block => (c ++ block, Ok tt); check_connection := fun c => (c, Ok tt) |}.

Definition ex_sink : ClickhouseSink := mkClickhouseSink "tcp://a,tcp://b" "t" 3 1.

Definition ex_table : CkClient (R := Z) := [].

(** What the table holds after a batch. *)
Definition ex_inserted (polls : list (Poll Z)) : option (list Z) := match batch_send ex_sink polls ex_table with Some (c, _, _) => Some c | None => None end.

(** Two records are inserted; a single one is lost. *)
Lemma clickhouse_batch_witness : is_Some (batch_send ex_sink [Got 1; Nothing false; Got 2] ex_table) /\
  ex_inserted [Got 1; Nothing false; Got 2] = Some [1; 2] /\ ex_inserted [Got 1; Nothing true; Got 2] = Some [].
Proof.
  split; [|split; vm_compute; reflexivity]. apply (proj1 (clickhouse_batch ex_sink [Got 1; Nothing false; Got 2] ex_table)). vm_compute. lia.
Defined.

#[local] Instance ex_value : EsValue := {| Value := string; value_of_index := fun _ => "index"; errors_field := fun v => if decide (v = "ok") then Some false else None |}.
#[local] Instance ex_elastic : EsClient := {| Elastic := list (list string); bulk := fun c lines => (c ++ [lines], Ok "ok") |}.

Definition ex_server : Elastic := [].
Definition ex_model (s : string) : ElasticsearchModel := mkElasticsearchModel _ s "t" s.

Lemma elasticsearch_batch_witness : exists client' r rest, es_batch_send ex_model 3 [Some "a"; None; Some "b"] ex_server = Some (client', r, rest) /\
  exists records used, [Some "a"; None; Some "b"] = (Some <$> records) ++ used ++ rest /\ (used = [] /\ length records = 3%nat \/ used = [None] /\ (length records < 3)%nat).
Proof.
  eexists _, _, _. split; [reflexivity|].
  destruct (elasticsearch_batch ex_model 3 [Some "a"; None; Some "b"] ex_server _ _ _ eq_refl) as (records & used & H1 & H2 & _). exists records, used. split; [exact H1|exact H2].
Defined.
