(* ===== verification/FileSink.v ===== *)
(** * FileSink: the sink that writes Parquet files

    src/rlink-connectors/connector-files/src: sink/output_format.rs,
    writer/parquet_writer_manager.rs, writer/parquet_writer.rs, writer/mod.rs. A record
    goes to the file its path is given for; a file collects row groups until it is large
    enough, or until a checkpoint or the end, and is then handed, through a channel of ten
    places, to a thread that writes it. When a file cannot be created or written, the
    thread panics, the files waiting in the channel are gone, and the next one to hand
    over a file, or to wait for the end, panics too.

    The user's blocks (columns of records), the Parquet library, the file system and the
    choice of paths are classes; the turns of the thread between the sink's sends are a
    schedule. The theorem says, for every schedule and every file system, that every
    record is in exactly one of the files handed over, in order, and which of them are
    written. *)
From Stdlib Require Import ZArith Lia.
From stdpp Require Import base strings numbers option sets gmap list.
From S2P Require Import Prelude.

#[local] Open Scope Z_scope.

(** ** The library and the user's blocks *)
Inductive ColumnKind : Type := BoolColumn | Int32Column | Int64Column | Int96Column | FloatColumn | DoubleColumn | ByteArrayColumn | FixedLenByteArrayColumn.

#[global] Instance ColumnKind_eq_dec : EqDecision ColumnKind.
Proof. solve_decision. Defined.

(** [Cell]: a value of a column; [ColumnValues] has its kind with it. *)
Record ColumnValues (Cell : Type) := mkColumnValues { cv_kind : ColumnKind; cv_values : list Cell }.
Arguments mkColumnValues {Cell} _ _.
Arguments cv_kind {Cell} _.

(** Writing the columns of a row group gives its size in bytes, or an error. *)
Class Parquet := {
  Cell : Type;
  write_group : list (ColumnValues Cell) -> res string Z
}.

Class Blocks (R : Type) `{Parquet} := {
  Block : Type;
  create_block : Z -> Block;
  block_append : Block -> R -> Block * Z;
  block_flush : Block -> list (ColumnValues Cell)
}.

Abbreviation RowGroup := (list (ColumnValues Cell)).

(** ** parquet_writer.rs *)
Record ParquetBlockWriter {R} `{Blocks R} := mkWriter { pw_groups : list RowGroup; pw_total_bytes : Z; pw_blocks : option Block }.

Section writer.
Context {R : Type} {PQ : Parquet} {BL : Blocks R}.
Context (row_group_size max_bytes : Z) (schema : list ColumnKind).

Definition writer_new : ParquetBlockWriter := mkWriter _ _ _ [] 0 (Some (create_block row_group_size)).

(** The loop of [flush_buffer] over the columns of the schema. *)
Fixpoint match_columns (schema : list ColumnKind) (values : list (ColumnValues Cell)) : res string RowGroup :=
  match schema with
  | [] => Ok []
  | kind :: schema =>
      match values with
      | [] => Err "column inconsistency"
      | column_values :: values =>
          if decide (cv_kind column_values = kind)
          then let* columns := match_columns schema values in Ok (column_values :: columns)
          else Panic "type inconsistency"
      end
  end.

Definition flush_buffer (w : ParquetBlockWriter) : res string (ParquetBlockWriter * Z) :=
  match pw_blocks w with
  | None => Ok (w, 0)
  | Some blocks =>
      let* columns := match_columns schema (block_flush blocks) in
      let* byte_size := write_group columns in
      Ok (mkWriter _ _ _ (pw_groups w ++ [columns]) (pw_total_bytes w) (pw_blocks w), byte_size)
  end.

(** [append]: the answer is whether the file is full. *)
Definition writer_append (w : ParquetBlockWriter) (record : R) : res string (ParquetBlockWriter * bool) :=
  let* blocks := unwrap "called `Option::unwrap()` on a `None` value" (pw_blocks w) in
  let '(blocks, block_size) := block_append blocks record in
  let w := mkWriter _ _ _ (pw_groups w) (pw_total_bytes w) (Some blocks) in
  if block_size <? row_group_size then Ok (w, false)
  else
    let* (w, byte_size) := flush_buffer w in
    let total_bytes := wrap_i 64 (pw_total_bytes w + byte_size) in
    if max_bytes <=? total_bytes then Ok (mkWriter _ _ _ (pw_groups w) total_bytes None, true)
    else Ok (mkWriter _ _ _ (pw_groups w) total_bytes (Some (create_block row_group_size)), false).

(** [close]: the bytes of the file stand for its row groups. *)
Definition writer_close (w : ParquetBlockWriter) : res string (list RowGroup) :=
  let* (w, _) := flush_buffer w in Ok (pw_groups w).

(** ** parquet_writer_manager.rs *)

(** The trait [FileSystem] of writer/mod.rs with the [Write] it gives: creating a file
    empties it; both calls may fail, and both change the disk. *)
Class FileSystem := {
  Fs : Type;
  W : Type;
  create_write : string -> Fs -> Fs * res string W;
  write_all : W -> list RowGroup -> Fs -> Fs * res string unit
}.
Context {FS : FileSystem}.

(** [Result::unwrap]. *)
Definition no_error {A} (r : res string A) : res string A := match r with Err e => Panic e | r => r end.

(** One file of the thread's loop, with its two unwraps. *)
Definition write_file (path : string) (bytes : list RowGroup) (fs : Fs) : Fs * res string unit :=
  match create_write path fs with
  | (fs, Ok writer) => let '(fs, r) := write_all writer bytes fs in (fs, no_error r)
  | (fs, Err e) => (fs, Panic e)
  | (fs, Panic e) => (fs, Panic e)
  end.

(** [wm_queue]: the files waiting in the channel, [wm_thread]: the thread that writes has
    not panicked, [wm_fs]: its file system. [wm_sent] is kept beside the state of the code:
    every file the channel has taken. *)
Record WriterManager {P : Type} := mkManager {
  wm_location : P;
  wm_path_writers : gmap string ParquetBlockWriter;
  wm_queue : list (string * list RowGroup);
  wm_thread : bool;
  wm_fs : Fs;
  wm_sent : list (string * list RowGroup)
}.

Context {P : Type} (path : P -> R -> P * res string string) {HO : HashOrder}.
Abbreviation manager := (WriterManager (P := P)).

(** The schedule: before the n-th send the thread takes [turns n] turns. Its turns at other
    times come to the same, for only a send looks at the channel. *)
Context (turns : nat -> nat).

Definition FLUSH_CHANNEL_SIZE : nat := 10.

Definition manager_new (location : P) (fs : Fs) : manager := mkManager _ location ∅ [] true fs [].

(** One turn of the thread. *)
Definition fs_write (m : manager) : manager :=
  match wm_queue m with
  | [] => m
  | (path, bytes) :: queue =>
      match write_file path bytes (wm_fs m) with
      | (fs, Ok _) => mkManager _ (wm_location m) (wm_path_writers m) queue true fs (wm_sent m)
      | (fs, _) => mkManager _ (wm_location m) (wm_path_writers m) [] false fs (wm_sent m)
      end
  end.

(** A send waits while the channel is full. *)
Definition wait_room (m : manager) : manager :=
  let m := Nat.iter (turns (length (wm_sent m))) fs_write m in
  if decide (length (wm_queue m) < FLUSH_CHANNEL_SIZE)%nat then m else fs_write m.

Definition send_bytes (path : string) (bytes : list RowGroup) (m : manager) : res string manager :=
  let m := wait_room m in
  if wm_thread m
  then Ok (mkManager _ (wm_location m) (wm_path_writers m) (wm_queue m ++ [(path, bytes)]) true (wm_fs m) (wm_sent m ++ [(path, bytes)]))
  else Panic "called `Result::unwrap()` on an `Err` value: SendError(..)".

Definition set_writers (writers : gmap string ParquetBlockWriter) (m : manager) : manager :=
  mkManager _ (wm_location m) writers (wm_queue m) (wm_thread m) (wm_fs m) (wm_sent m).

Definition set_location (location : P) (m : manager) : manager :=
  mkManager _ location (wm_path_writers m) (wm_queue m) (wm_thread m) (wm_fs m) (wm_sent m).

(** The writer of a path is closed, taken out and its file handed over. *)
Definition close_path (m : manager) (path : string) : res string manager :=
  let* writer := unwrap "called `Option::unwrap()` on a `None` value" (wm_path_writers m !! path) in
  let m := set_writers (delete path (wm_path_writers m)) m in
  let* bytes := writer_close writer in
  send_bytes path bytes m.

(** [flush], which is also [snapshot]. *)
Definition manager_flush (m : manager) : res string manager := foldM close_path m (hiter (wm_path_writers m)).*1.

Definition manager_append (m : manager) (record : R) : res string manager :=
  let '(location, p) := path (wm_location m) record in
  let m := set_location location m in
  let* path := p in
  let writer := default writer_new (wm_path_writers m !! path) in
  let* (writer, full) := writer_append writer record in
  let m := set_writers (<[path := writer]> (wm_path_writers m)) m in
  if full : bool then close_path m path else Ok m.

(** [close] waits until the thread has come to the end of what was handed over: the thread
    answers the [Finish] behind it. When the thread panics before, the answer depends on
    the channel: one that drops the messages waiting for a receiver that is gone
    ([drops_waiting]) makes the wait panic; in one that keeps them the wait has no end,
    [None]. *)
Definition manager_close (drops_waiting : bool) (m : manager) : option (res string manager) :=
  match manager_flush m with
  | Ok m =>
      let m := wait_room m in
      if wm_thread m then
        let m := Nat.iter (length (wm_queue m)) fs_write m in
        if wm_thread m then Some (Ok m)
        else if drops_waiting then Some (Panic "called `Result::unwrap()` on an `Err` value: RecvError") else None
      else Some (Panic "called `Result::unwrap()` on an `Err` value: SendError(..)")
  | r => Some r
  end.

(** ** sink/output_format.rs *)
Definition hdfs_write_record (m : manager) (record : R) : res string manager := no_error (manager_append m record).
Definition hdfs_snapshot_state (m : manager) : res string manager := no_error (manager_flush m).
Definition hdfs_close (drops_waiting : bool) (m : manager) : option (res string manager) := manager_close drops_waiting m.
End writer.

(** ** Every record is in one file *)
Section complete.
Context {R : Type} {PQ : Parquet} {BL : Blocks R} {FS : FileSystem} {P : Type} {HO : HashOrder}.
Context (row_group_size max_bytes : Z) (schema : list ColumnKind) (path : P -> R -> P * res string string) (turns : nat -> nat).

(** What the blocks of a user promise: they hold the records appended to them, count them,
    and their columns are those of the schema, from which the records can be read. *)
Class BlocksLaws := {
  rows : Block -> list R;
  group_rows : RowGroup -> list R;
  rows_create : forall n, rows (create_block n) = [];
  rows_append : forall b r, rows (block_append b r).1 = rows b ++ [r] /\ (block_append b r).2 = Z.of_nat (length (rows b) + 1);
  rows_flush : forall b, exists columns size, match_columns schema (block_flush b) = Ok columns /\ write_group columns = Ok size /\ group_rows columns = rows b
}.
Context {LW : BlocksLaws}.

Abbreviation writer := (ParquetBlockWriter (R := R)).
Abbreviation wmanager := (WriterManager (R := R) (P := P)).
Abbreviation append := (manager_append row_group_size max_bytes schema path turns).
Abbreviation flush := (manager_flush schema turns).

Definition file_rows (groups : list RowGroup) : list R := groups ≫= group_rows.

Definition writer_rows (w : writer) : list R := file_rows (pw_groups w) ++ match pw_blocks w with Some b => rows b | None => [] end.

Lemma file_rows_snoc gs g : file_rows (gs ++ [g]) = file_rows gs ++ group_rows g.
Proof. unfold file_rows. rewrite bind_app. cbn. by rewrite app_nil_r. Qed.

Lemma flush_buffer_ok (w : writer) b : pw_blocks w = Some b -> exists g size, flush_buffer schema w = Ok (mkWriter _ _ _ (pw_groups w ++ [g]) (pw_total_bytes w) (pw_blocks w), size) /\
  file_rows (pw_groups w ++ [g]) = writer_rows w.
Proof.
  intros Hb. destruct (rows_flush b) as (g & size & H1 & H2 & H3). exists g, size. unfold flush_buffer, writer_rows. rewrite Hb, H1. cbn [mbind res_bind]. rewrite H2. cbn [mbind res_bind].
  split; [done|]. by rewrite file_rows_snoc, H3.
Qed.

Lemma writer_append_ok (w : writer) b r : pw_blocks w = Some b -> exists w' full, writer_append row_group_size max_bytes schema w r = Ok (w', full) /\
  writer_rows w' = writer_rows w ++ [r] /\ (full = false -> is_Some (pw_blocks w')).
Proof.
  intros Hb. unfold writer_append. rewrite Hb. cbn [unwrap mbind res_bind]. destruct (rows_append b r) as [Hr _]. destruct (block_append b r) as [b' n]. cbn [fst] in Hr.
  set (w1 := mkWriter _ _ _ (pw_groups w) (pw_total_bytes w) (Some b')). assert (writer_rows w1 = writer_rows w ++ [r]) as Hw1.
  { unfold writer_rows. cbn [w1 pw_groups pw_blocks]. by rewrite Hb, Hr, app_assoc. }
  destruct (n <? row_group_size); [exists w1, false; split_and!; [done|done|by eexists]|].
  destruct (flush_buffer_ok w1 b' eq_refl) as (g & size & -> & Hg). cbn [mbind res_bind pw_total_bytes pw_groups]. case_match.
  - eexists _, true. split_and!; [done| |done]. unfold writer_rows at 1. cbn [pw_groups pw_blocks]. by rewrite app_nil_r, Hg.
  - eexists _, false. split_and!; [done| |by eexists]. unfold writer_rows at 1. cbn [pw_groups pw_blocks]. by rewrite rows_create, app_nil_r, Hg.
Qed.

Lemma writer_close_ok (w : writer) : exists gs, writer_close schema w = Ok gs /\ file_rows gs = writer_rows w.
Proof.
  unfold writer_close. destruct (pw_blocks w) as [b|] eqn:Hb.
  - destruct (flush_buffer_ok w b Hb) as (g & size & -> & Hg). cbn. eauto.
  - unfold flush_buffer, writer_rows. rewrite Hb. cbn. exists (pw_groups w). by rewrite app_nil_r.
Qed.

(** The records of the files handed over for a path. *)
Definition handed (p : string) (q : list (string * list RowGroup)) : list R := filter (fun x => x.1 = p) q ≫= (fun x => file_rows x.2).

Lemma handed_snoc p q p' gs : handed p (q ++ [(p', gs)]) = handed p q ++ if decide (p' = p) then file_rows gs else [].
Proof.
  unfold handed. rewrite filter_app, bind_app. f_equal. rewrite filter_cons. cbn [fst filter list_filter]. case_decide; cbn; [by rewrite app_nil_r|done].
Qed.

(** The records that were given a path. *)
Definition at_path (p : string) (l : list (string * R)) : list R := snd <$> filter (fun x => x.1 = p) l.

Lemma at_path_snoc p l x : at_path p (l ++ [x]) = at_path p l ++ if decide (x.1 = p) then [x.2] else [].
Proof. unfold at_path. rewrite filter_app, fmap_app. f_equal. rewrite filter_cons. cbn [filter list_filter]. by case_decide. Qed.

Definition open_rows (p : string) (m : wmanager) : list R := match wm_path_writers m !! p with Some w => writer_rows w | None => [] end.

(** Each record of [l] is in a file handed over for its path or still in the path's writer. *)
Definition holds_all (l : list (string * R)) (m : wmanager) : Prop := forall p, handed p (wm_sent m) ++ open_rows p m = at_path p l.

Definition all_open (m : wmanager) : Prop := forall p w, wm_path_writers m !! p = Some w -> is_Some (pw_blocks w).

(** ** The thread that writes *)

(** Writing files one after the other, up to the first that fails. *)
Definition written (fs : Fs) (file : string * list RowGroup) : res string Fs := let '(fs, r) := write_file file.1 file.2 fs in let* _ := r in Ok fs.

Definition write_files (fs : Fs) (files : list (string * list RowGroup)) : res string Fs := foldM written fs files.

(** One of the files cannot be written, those before it are. *)
Definition write_failed (fs : Fs) (files : list (string * list RowGroup)) : Prop :=
  exists done file rest fs', files = done ++ file :: rest /\ write_files fs done = Ok fs' /\ is_ok (written fs' file) = false.

(** What the thread has done of the files sent to it: those that do not wait are written,
    or one of them could not be. *)
Definition thread_done (fs : Fs) (m : wmanager) : Prop :=
  if wm_thread m then exists done, wm_sent m = done ++ wm_queue m /\ write_files fs done = Ok (wm_fs m)
  else wm_queue m = [] /\ write_failed fs (wm_sent m).

(** The fields that the thread leaves alone. *)
Definition sink_side (m : wmanager) : P * gmap string writer * list (string * list RowGroup) := (wm_location m, wm_path_writers m, wm_sent m).

Lemma fs_write_done fs (m : wmanager) : thread_done fs m -> thread_done fs (fs_write m) /\ sink_side (fs_write m) = sink_side m.
Proof.
  unfold thread_done, fs_write. destruct (wm_queue m) as [|[p gs] q] eqn:Hq; [by rewrite Hq|]. destruct (wm_thread m); [|by intros [? _]]. intros (done & Hs & Hw).
  pose proof (foldM_app written fs done [(p, gs)]) as Ha. fold (write_files fs done) in Ha. rewrite Hw in Ha. cbn [mbind res_bind foldM] in Ha. unfold written at 2 in Ha. cbn [fst snd] in Ha.
  destruct (write_file p gs (wm_fs m)) as [fs' r] eqn:Hf. destruct r as [[]| |]; (split; [|done]); cbn; unfold set_writers; cbn.
  - exists (done ++ [(p, gs)]). by rewrite Hs, <- app_assoc.
  - split; [done|]. exists done, (p, gs), q, (wm_fs m). split_and!; [done|done|]. unfold written. cbn. by rewrite Hf.
  - split; [done|]. exists done, (p, gs), q, (wm_fs m). split_and!; [done|done|]. unfold written. cbn. by rewrite Hf.
Qed.

Lemma turns_done fs n (m : wmanager) : thread_done fs m -> thread_done fs (Nat.iter n fs_write m) /\ sink_side (Nat.iter n fs_write m) = sink_side m.
Proof. intros Hm. induction n as [|n [IH1 IH2]]; [done|]. rewrite Nat.iter_succ. destruct (fs_write_done fs _ IH1) as [H1 H2]. split; [done|by etrans]. Qed.

Lemma wait_room_done fs (m : wmanager) : thread_done fs m -> thread_done fs (wait_room turns m) /\ sink_side (wait_room turns m) = sink_side m.
Proof.
  intros Hm. unfold wait_room. destruct (turns_done fs (turns (length (wm_sent m))) m Hm) as [H1 H2]. case_decide; [done|].
  destruct (fs_write_done fs _ H1) as [H3 H4]. split; [done|by etrans].
Qed.

(** A turn for every waiting file leaves none. *)
Lemma turns_empty n : forall m : wmanager, (length (wm_queue m) <= n)%nat -> wm_queue (Nat.iter n fs_write m) = [].
Proof.
  induction n as [|n IH]; intros m Hn; [destruct (wm_queue m) eqn:E; cbn in *; [done|lia]|]. rewrite Nat.iter_succ_r. apply IH. unfold fs_write.
  destruct (wm_queue m) as [|[p gs] q] eqn:E; cbn in Hn; [rewrite E; cbn; lia|]. destruct (write_file p gs (wm_fs m)) as [fs' [| |]]; cbn; lia.
Qed.

(** ** What an operation gives: no error, and a panic only from the disk *)
Definition sink_fails (fs : Fs) (l : list (string * R)) : Prop := exists sent, write_failed fs sent /\ forall p, handed p sent `prefix_of` at_path p l.

Definition gives (fs : Fs) (l : list (string * R)) (r : res string wmanager) (Q : wmanager -> Prop) : Prop :=
  match r with
  | Ok m => thread_done fs m /\ holds_all l m /\ Q m
  | Err _ => False
  | Panic _ => sink_fails fs l
  end.

Lemma holds_all_fails fs l m : thread_done fs m -> holds_all l m -> wm_thread m = false -> sink_fails fs l.
Proof. unfold thread_done. intros Hd Hl Ht. rewrite Ht in Hd. destruct Hd as [_ Hf]. exists (wm_sent m). split; [done|]. intros p. rewrite <- Hl. by apply prefix_app_r. Qed.

Lemma gives_bind fs l l' r k Q Q' : gives fs l r Q -> (forall p, at_path p l `prefix_of` at_path p l') ->
  (forall m, thread_done fs m -> holds_all l m -> Q m -> gives fs l' (k m) Q') -> gives fs l' (match r with Ok m => k m | Err e => Err e | Panic e => Panic e end) Q'.
Proof.
  intros Hr Hp Hk. destruct r as [m| |]; [destruct Hr as (Hd & Hl & HQ); exact (Hk m Hd Hl HQ)|done|].
  destruct Hr as (sent & Hf & Hs). exists sent. split; [done|]. intros p. exact (transitivity (Hs p) (Hp p)).
Qed.

Lemma gives_no_error fs l r Q : gives fs l r Q -> gives fs l (no_error r) Q.
Proof. by destruct r. Qed.

Lemma close_path_ok fs m p w l : thread_done fs m -> holds_all l m -> wm_path_writers m !! p = Some w ->
  gives fs l (close_path schema turns m p) (fun m' => wm_path_writers m' = delete p (wm_path_writers m) /\ wm_location m' = wm_location m).
Proof.
  intros Hd Hl Hw. unfold close_path. rewrite Hw. cbn [unwrap mbind res_bind]. destruct (writer_close_ok w) as (gs & -> & Hgs). cbn [mbind res_bind]. unfold send_bytes.
  set (m1 := set_writers (delete p (wm_path_writers m)) m). destruct (wait_room_done fs m1 Hd) as [Hd1 Hs1]. unfold sink_side in Hs1. cbn [m1 set_writers wm_location wm_path_writers wm_sent] in Hs1. injection Hs1 as Hloc Hws Hsent.
  unfold thread_done in Hd1. destruct (wm_thread (wait_room turns m1)); cbn [gives].
  - split_and!; [|intros q|done|done].
    + unfold thread_done. cbn. destruct Hd1 as (done & Hq & Hf). exists done. by rewrite Hq, app_assoc.
    + cbn [wm_sent]. rewrite handed_snoc, Hsent, <- Hl. unfold open_rows. cbn [wm_path_writers]. rewrite Hws. destruct (decide (p = q)) as [<-|Hne].
      * rewrite lookup_delete_eq, Hw, Hgs. by rewrite app_nil_r.
      * rewrite lookup_delete_ne by done. by rewrite app_nil_r.
  - destruct Hd1 as [_ Hf]. rewrite Hsent in Hf. exists (wm_sent m). split; [done|]. intros q. rewrite <- Hl. by apply prefix_app_r.
Qed.

Lemma flush_ok fs m l : thread_done fs m -> holds_all l m -> gives fs l (flush m) (fun m' => wm_path_writers m' = ∅ /\ wm_location m' = wm_location m).
Proof.
  unfold manager_flush. assert (NoDup (hiter (wm_path_writers m)).*1) as Hn by apply NoDup_hiter_fst.
  assert (forall p, p ∈ (hiter (wm_path_writers m)).*1 <-> is_Some (wm_path_writers m !! p)) as Hk by (intros p; apply elem_of_hiter_keys).
  revert Hn Hk. generalize (hiter (wm_path_writers m)).*1 as ps. intros ps. revert m. induction ps as [|p ps IH]; intros m Hn Hk Hd Hl.
  - split_and!; try done. apply map_eq. intros q. rewrite lookup_empty. destruct (wm_path_writers m !! q) eqn:E; [|done].
    assert (is_Some (wm_path_writers m !! q)) as Hs by (rewrite E; by eexists). apply Hk in Hs. by apply not_elem_of_nil in Hs.
  - apply NoDup_cons in Hn as [Hp Hn]. destruct (proj1 (Hk p) ltac:(by left)) as [w Hw]. cbn [foldM]. apply (gives_bind _ l l _ _ _ _ (close_path_ok fs m p w l Hd Hl Hw)); [done|].
    intros m1 Hd1 Hl1 [Hws Hloc]. rewrite <- Hloc. apply IH; [done| |done|done]. intros q. rewrite Hws. destruct (decide (p = q)) as [<-|Hne].
    + rewrite lookup_delete_eq. split; [done|by intros []].
    + rewrite lookup_delete_ne by done. rewrite <- Hk, elem_of_cons. naive_solver.
Qed.

(** ** The operations of a sink, and what they leave *)
Inductive FileOp : Type := Write (r : R) | Snapshot.

Definition run_op (m : wmanager) (op : FileOp) : res string wmanager :=
  match op with
  | Write r => hdfs_write_record row_group_size max_bytes schema path turns m r
  | Snapshot => hdfs_snapshot_state schema turns m
  end.

(** The records with the paths they are given, from a state of the location. *)
Fixpoint located (loc : P) (ops : list FileOp) : list (string * R) :=
  match ops with
  | [] => []
  | Write r :: ops => match path loc r with (loc, Ok p) => (p, r) :: located loc ops | (loc, _) => located loc ops end
  | Snapshot :: ops => located loc ops
  end.

(** Every record gets a path. *)
Context (Hpath : forall loc r, is_ok (path loc r).2 = true).

Lemma append_ok fs m l r loc p : thread_done fs m -> holds_all l m -> all_open m -> path (wm_location m) r = (loc, Ok p) ->
  gives fs (l ++ [(p, r)]) (append m r) (fun m' => all_open m' /\ wm_location m' = loc).
Proof.
  intros Hd Hl Ho Hp. unfold manager_append. rewrite Hp. cbn [mbind res_bind set_location wm_path_writers]. set (w := default (writer_new row_group_size) (wm_path_writers m !! p)).
  assert (exists b, pw_blocks w = Some b) as [b Hb]. { unfold w. destruct (wm_path_writers m !! p) as [w0|] eqn:E; cbn; [by apply (Ho p)|by eexists]. }
  assert (writer_rows w = open_rows p m) as Hw. { unfold w, open_rows. destruct (wm_path_writers m !! p) as [w0|]; [done|]. cbn. unfold writer_rows. cbn. by rewrite rows_create. }
  destruct (writer_append_ok w b r Hb) as (w' & full & -> & Hr & Hf). cbn [mbind res_bind].
  set (m1 := set_writers (<[p := w']> (wm_path_writers m)) (set_location loc m)).
  assert (holds_all (l ++ [(p, r)]) m1) as Hl1.
  { intros q. cbn [m1 set_writers set_location wm_sent]. rewrite at_path_snoc, <- Hl. unfold open_rows at 1. cbn [m1 set_writers set_location wm_path_writers fst snd]. destruct (decide (p = q)) as [<-|Hne].
    - rewrite lookup_insert_eq, Hr, Hw. by rewrite app_assoc.
    - rewrite lookup_insert_ne by done. by rewrite app_nil_r. }
  destruct full.
  - assert (wm_path_writers m1 !! p = Some w') as Hm1 by (cbn; by rewrite lookup_insert_eq). pose proof (close_path_ok fs m1 p w' _ Hd Hl1 Hm1) as Hc.
    destruct (close_path schema turns m1 p) as [m2| |]; [|done|done]. destruct Hc as (Hd2 & Hl2 & Hws & Hloc). split_and!; [done|done| |done].
    intros q x. rewrite Hws. cbn. destruct (decide (p = q)) as [<-|Hne]; [by rewrite lookup_delete_eq|]. rewrite lookup_delete_ne, lookup_insert_ne by done. apply Ho.
  - split_and!; [done|done| |done]. intros q x. cbn. destruct (decide (p = q)) as [<-|Hne]; [rewrite lookup_insert_eq; intros [= <-]; by apply Hf|]. rewrite lookup_insert_ne by done. apply Ho.
Qed.

Lemma at_path_app p l l' : at_path p (l ++ l') = at_path p l ++ at_path p l'.
Proof. unfold at_path. by rewrite filter_app, fmap_app. Qed.

Lemma ops_ok fs ops : forall m l, thread_done fs m -> holds_all l m -> all_open m -> gives fs (l ++ located (wm_location m) ops) (foldM run_op m ops) (fun _ => True).
Proof.
  induction ops as [|op ops IH]; intros m l Hd Hl Ho; [rewrite app_nil_r; by split_and!|]. cbn [foldM]. destruct op as [r|]; cbn [run_op located].
  - pose proof (Hpath (wm_location m) r) as Hp. destruct (path (wm_location m) r) as [loc [p| |]] eqn:E; [|done..].
    apply (gives_bind fs _ _ _ _ _ _ (gives_no_error _ _ _ _ (append_ok fs m l r loc p Hd Hl Ho E))).
    + intros q. rewrite !(at_path_app q l). apply prefix_app. change ((p, r) :: located loc ops) with ([(p, r)] ++ located loc ops). rewrite at_path_app. by apply prefix_app_r.
    + intros m1 Hd1 Hl1 [Ho1 Hloc]. specialize (IH m1 _ Hd1 Hl1 Ho1). by rewrite Hloc, <- app_assoc in IH.
  - apply (gives_bind fs l _ _ _ _ _ (gives_no_error _ _ _ _ (flush_ok fs m l Hd Hl))); [intros q; rewrite at_path_app; by apply prefix_app_r|].
    intros m1 Hd1 Hl1 [He Hloc]. rewrite <- Hloc. apply IH; [done|done|]. intros p w. by rewrite He.
Qed.

(** What a file system promises of what is on its disk: a file that was written is there,
    and the others are as they were. *)
Class FileSystemLaws := {
  disk : Fs -> string -> option (list RowGroup);
  write_file_disk : forall p gs fs fs', write_file p gs fs = (fs', Ok tt) -> forall q, disk fs' q = if decide (p = q) then Some gs else disk fs q
}.

Lemma write_files_disk `{!FileSystemLaws} files : forall fs fs', write_files fs files = Ok fs' ->
  forall q, disk fs' q = match last (filter (fun x => x.1 = q) files) with Some x => Some x.2 | None => disk fs q end.
Proof.
  induction files as [|[p gs] files IH]; intros fs fs' Hw q; [by injection Hw as ->|]. unfold write_files in Hw. cbn [foldM] in Hw. unfold written at 1 in Hw. cbn [fst snd] in Hw.
  destruct (write_file p gs fs) as [fs1 r] eqn:Hf. destruct r as [[]| |]; [|done..]. cbn [mbind res_bind] in Hw. rewrite (IH _ _ Hw q), (write_file_disk _ _ _ _ Hf q), filter_cons. cbn [fst].
  case_decide; [|done]. rewrite last_cons. by destruct (last _).
Qed.

(** The close of a sink that is left with [l]. *)
Lemma close_ok fs m l drops : thread_done fs m -> holds_all l m ->
  match manager_close schema turns drops m with
  | Some (Ok m') => (forall p, handed p (wm_sent m') = at_path p l) /\ wm_path_writers m' = ∅ /\ wm_queue m' = [] /\ write_files fs (wm_sent m') = Ok (wm_fs m')
  | Some (Err _) => False
  | Some (Panic _) => sink_fails fs l
  | None => drops = false /\ sink_fails fs l
  end.
Proof.
  intros Hd Hl. unfold manager_close. pose proof (flush_ok fs m l Hd Hl) as Hf. destruct (flush m) as [m1| |]; [|done|done]. destruct Hf as (Hd1 & Hl1 & He & _). cbn zeta.
  assert (forall m2, thread_done fs m2 -> sink_side m2 = sink_side m1 -> thread_done fs m2 /\ holds_all l m2 /\ wm_path_writers m2 = ∅) as Hside.
  { intros m2 Hd2 [= H1 H2 H3]. split_and!; [done| |by rewrite H2]. intros p. unfold open_rows. rewrite H2, H3. apply Hl1. }
  destruct (wait_room_done fs m1 Hd1) as [Hd2 Hs2]. destruct (turns_done fs (length (wm_queue (wait_room turns m1))) _ Hd2) as [Hd3 Hs3]. rewrite Hs2 in Hs3.
  pose proof (turns_empty (length (wm_queue (wait_room turns m1))) _ (le_n _)) as Hempty.
  destruct (Hside _ Hd2 Hs2) as (_ & Hl2 & _). destruct (Hside _ Hd3 Hs3) as (_ & Hl3 & He3). destruct (wm_thread (wait_room turns m1)) eqn:Ht2; [|exact (holds_all_fails _ _ _ Hd2 Hl2 Ht2)].
  destruct (wm_thread (Nat.iter _ _ _)) eqn:Ht3; [|pose proof (holds_all_fails _ _ _ Hd3 Hl3 Ht3); by destruct drops]. split_and!; [|done|done|].
  - intros p. rewrite <- Hl3. unfold open_rows. by rewrite He3, lookup_empty, app_nil_r.
  - unfold thread_done in Hd3. rewrite Ht3 in Hd3. destruct Hd3 as (done & Hs & Hw). rewrite Hempty, app_nil_r in Hs. by rewrite Hs.
Qed.


(** With a disk that never fails there is no [sink_fails]. *)
Lemma working_disk fs l : (forall p gs fs', is_ok (write_file p gs fs').2 = true) -> ~ sink_fails fs l.
Proof. intros Hok (sent & (done & [p gs] & rest & fs' & _ & _ & Hf) & _). unfold written in Hf. cbn in Hf. specialize (Hok p gs fs'). by destruct (write_file p gs fs') as [? [| |]]. Qed.
End complete.

(** ** Example: even and odd numbers in two files *)
#[local] Instance ex_parquet : Parquet := {| Cell := Z; write_group := fun _ => Ok 10 |}.
#[local] Instance ex_blocks : Blocks Z := {|
  Block := list Z;
  create_block := fun _ => [];
  block_append := fun b r => (b ++ [r], Z.of_nat (length b + 1));
  block_flush := fun b => [mkColumnValues (Cell := Z) Int64Column b]
|}.
(** A disk with places left for some files. *)
#[local] Instance ex_fs : FileSystem := {|
  Fs := nat * gmap string (list (list (ColumnValues Z)));
  W := string;
  create_write := fun p fs => match fs with (S n, files) => ((n, <[p := []]> files), Ok p) | _ => (fs, Err "disk full") end;
  write_all := fun p gs fs => ((fs.1, <[p := gs]> fs.2), Ok tt)
|}.
#[local] Existing Instance id_order.

Definition ex_schema : list ColumnKind := [Int64Column].

Definition ex_group_rows (g : list (ColumnValues Z)) : list Z := g ≫= cv_values _.

Lemma ex_flush (b : list Z) : exists columns size, match_columns ex_schema [mkColumnValues (Cell := Z) Int64Column b] = Ok columns /\ Ok (E := string) 10 = Ok size /\ ex_group_rows columns = b.
Proof. exists [mkColumnValues Int64Column b], 10. split_and!; [done|done|]. cbn. apply app_nil_r. Qed.

Definition ex_rows (b : Block (R := Z)) : list Z := b.

#[local] Instance ex_laws : BlocksLaws (R := Z) ex_schema := {|
  rows := ex_rows;
  group_rows := ex_group_rows;
  rows_create := fun _ => eq_refl;
  rows_append := fun b r => conj eq_refl eq_refl;
  rows_flush := ex_flush
|}.

Definition ex_disk (fs : nat * gmap string (list (list (ColumnValues Z)))) (p : string) : option (list (list (ColumnValues Z))) := fs.2 !! p.

Lemma ex_write_disk p gs (fs fs' : nat * gmap string (list (list (ColumnValues Z)))) : write_file p gs fs = (fs', Ok tt) -> forall q, ex_disk fs' q = if decide (p = q) then Some gs else ex_disk fs q.
Proof.
  destruct fs as [[|n] files]; [done|]. intros [= <-] q. unfold ex_disk. cbn. case_decide as Hq; [subst; by rewrite lookup_insert_eq|]. by rewrite !lookup_insert_ne.
Qed.

#[local] Instance ex_fs_laws : FileSystemLaws (PQ := ex_parquet) := {| disk := ex_disk; write_file_disk := ex_write_disk |}.

Definition ex_path (loc : unit) (r : Z) : unit * res string string := (loc, Ok (if Z.even r then "even" else "odd")).

Definition ex_ops : list FileOp := [Write 1; Write 2; Write 3; Snapshot; Write 5].

Definition ex_sink (places : nat) (turns : nat -> nat) (ops : list FileOp) : res string (WriterManager (R := Z) (P := unit)) :=
  foldM (run_op 2 20 ex_schema ex_path turns) (manager_new tt (places, ∅)) ops.


(** A checkpoint does not wait for the thread: its files are only handed over. The disk
    has no room, the checkpoint returns and the close panics. *)
Example ex_checkpoint_lost : exists m, ex_sink 0 (fun _ => 0%nat) [Write 1; Snapshot] = Ok m /\ length (wm_queue m) = 1%nat /\ wm_fs m = (0%nat, ∅) /\
  hdfs_close ex_schema (fun _ => 0%nat) true m = Some (Panic "called `Result::unwrap()` on an `Err` value: RecvError").
Proof. eexists. split; [vm_compute; reflexivity|]. split_and!; vm_compute; reflexivity. Qed.
