(* ===== verification/Recovery.v ===== *)
(** * Recovery: checkpoints in the database, and back

    src/rlink/src/storage/checkpoint/mysql_checkpoint_storage.rs and
    src/rlink/src/storage/checkpoint/mod.rs: the storage that keeps checkpoints in a table,
    and the choice between it and the one in memory.

    The table is a list of rows, the statements are filters over it; the order in which a
    select gives rows is the class [SqlOrder]. The theorem joins the file with the
    checkpoint manager (Checkpoint) and the restoring coordinator (Cluster): what the tasks
    reported is what a later coordinator hands to them. *)
From Stdlib Require Import ZArith Lia.
From stdpp Require Import base strings numbers option sets gmap list.
From S2P Require Import Prelude Bytes Properties Runtime Checkpoint Cluster.

#[local] Open Scope Z_scope.

(** ** The table *)

(** A row; [completed_checkpoint_id] is 0 where there is none. *)
Record CkRow := mkCkRow {
  row_application_name : string;
  row_application_id : string;
  row_task_id : TaskId;
  row_operator_id : OperatorId;
  row_checkpoint_id : Z;
  row_completed_checkpoint_id : Z;
  row_handle : string
}.

(** Selects give their rows in any order. *)
Class SqlOrder := {
  sql_order : list CkRow -> list CkRow;
  sql_order_perm : forall l, sql_order l ≡ₚ l
}.

(** The database: the rows of the storage's table, and the error its connections give. *)
Record MySqlCheckpointStorage := mkMySql { db_rows : list CkRow; db_error : option string }.

Definition of_application (application_name application_id : string) (r : CkRow) : Prop := row_application_name r = application_name /\ row_application_id r = application_id.

#[global] Instance of_application_dec n i r : Decision (of_application n i r).
Proof. unfold of_application. apply _. Defined.

(** The parameters of the insert. *)
Definition to_row (application_name application_id : string) (checkpoint_id : CheckpointId) (p : Checkpoint) : CkRow :=
  mkCkRow application_name application_id (ck_task_id p) (ck_operator_id p) checkpoint_id (default 0 (ck_completed_checkpoint_id p)) (handle (ck_handle p)).

(** The closure that makes a checkpoint of a row. *)
Definition from_row (r : CkRow) : Checkpoint :=
  mkCheckpoint (row_operator_id r) (row_task_id r) (row_checkpoint_id r) (if row_completed_checkpoint_id r =? 0 then None else Some (row_completed_checkpoint_id r)) (mkHandle (row_handle r)).

(** [conn] of the storage: an error of the connection is the answer. *)
Definition with_conn {A} (st : MySqlCheckpointStorage) (f : list CkRow -> list CkRow * A) : MySqlCheckpointStorage * res string A :=
  match db_error st with
  | Some e => (st, Err e)
  | None => let '(rows, a) := f (db_rows st) in (mkMySql rows None, Ok a)
  end.

Definition mysql_save (st : MySqlCheckpointStorage) (application_name application_id : string) (checkpoint_id : CheckpointId) (finish_cks : list Checkpoint) (ttl : Z)
  : MySqlCheckpointStorage * res string unit :=
  with_conn st (fun rows =>
    let rows := rows ++ (to_row application_name application_id checkpoint_id <$> finish_cks) in
    if checkpoint_id <? ttl then (rows, tt)
    else
      let checkpoint_id_ttl := checkpoint_id - ttl in
      (filter (fun r => ~ (of_application application_name application_id r /\ row_checkpoint_id r < checkpoint_id_ttl)) rows, tt)).

(** [max(checkpoint_id)] of some rows. *)
Definition max_checkpoint (rows : list CkRow) : option Z :=
  match rows with [] => None | r :: rows => Some (foldl Z.max (row_checkpoint_id r) (row_checkpoint_id <$> rows)) end.

Section mysql.
Context {SO : SqlOrder}.

Definition mysql_load (st : MySqlCheckpointStorage) (application_name application_id : string) : MySqlCheckpointStorage * res string (list Checkpoint) :=
  with_conn st (fun rows =>
    let of_app := filter (of_application application_name application_id) rows in
    (rows, from_row <$> sql_order (filter (fun r => max_checkpoint of_app = Some (row_checkpoint_id r)) of_app))).

Definition mysql_load_by_checkpoint_id (st : MySqlCheckpointStorage) (application_name application_id : string) (checkpoint_id : CheckpointId)
  : MySqlCheckpointStorage * res string (list Checkpoint) :=
  with_conn st (fun rows =>
    (rows, from_row <$> sql_order (filter (fun r => of_application application_name application_id r /\ row_checkpoint_id r = checkpoint_id) rows))).

#[global] Instance mysql_checkpoint_storage : Checkpoint.CheckpointStorage MySqlCheckpointStorage := {|
  ck_save := mysql_save;
  ck_load := mysql_load;
  ck_load_by_checkpoint_id := mysql_load_by_checkpoint_id
|}.

(** ** storage/checkpoint/mod.rs: one of the two *)
Context {HO : HashOrder}.

Inductive AnyStorage : Type := InMemory (storage : MemoryCheckpointStorage) | InMySql (storage : MySqlCheckpointStorage).

(** [connect] gives the database of an endpoint and a table. *)
Definition CheckpointStorage_new (connect : string -> option string -> MySqlCheckpointStorage) (checkpoint_backend : CheckpointBackend) : AnyStorage :=
  match checkpoint_backend with
  | CheckpointBackend_Memory => InMemory ∅
  | CheckpointBackend_MySql endpoint table => InMySql (connect endpoint table)
  end.

#[global] Instance any_checkpoint_storage : Checkpoint.CheckpointStorage AnyStorage := {|
  ck_save := fun st n i c cks ttl => match st with
    | InMemory s => let '(s, r) := ck_save s n i c cks ttl in (InMemory s, r)
    | InMySql s => let '(s, r) := ck_save s n i c cks ttl in (InMySql s, r) end;
  ck_load := fun st n i => match st with
    | InMemory s => let '(s, r) := ck_load s n i in (InMemory s, r)
    | InMySql s => let '(s, r) := ck_load s n i in (InMySql s, r) end;
  ck_load_by_checkpoint_id := fun st n i c => match st with
    | InMemory s => let '(s, r) := ck_load_by_checkpoint_id s n i c in (InMemory s, r)
    | InMySql s => let '(s, r) := ck_load_by_checkpoint_id s n i c in (InMySql s, r) end
|}.

(** ** What is saved is what is loaded *)

Lemma foldl_max_bounds (l : list Z) : forall a, a <= foldl Z.max a l /\ Forall (fun x => x <= foldl Z.max a l) l.
Proof.
  induction l as [|x l IH]; intros a; cbn [foldl]; [split; [lia|constructor]|]. destruct (IH (Z.max a x)) as [H1 H2]. split; [lia|]. constructor; [lia|done].
Qed.

Lemma foldl_max_elem (l : list Z) : forall a, foldl Z.max a l ∈ a :: l.
Proof.
  induction l as [|x l IH]; intros a; cbn [foldl]; [by left|]. specialize (IH (Z.max a x)). apply elem_of_cons in IH as [->|H]; [|right; by right]. destruct (Z.max_spec a x) as [[_ ->]|[_ ->]]; [right; by left|by left].
Qed.

(** The greatest id among some rows. *)
Lemma max_checkpoint_Some rows k : (exists r, r ∈ rows /\ row_checkpoint_id r = k) -> (forall r, r ∈ rows -> row_checkpoint_id r <= k) -> max_checkpoint rows = Some k.
Proof.
  intros (r & Hr & <-) Hle. destruct rows as [|r0 rows]; [by apply not_elem_of_nil in Hr|]. cbn [max_checkpoint]. f_equal.
  destruct (foldl_max_bounds (row_checkpoint_id <$> rows) (row_checkpoint_id r0)) as [H1 H2]. pose proof (foldl_max_elem (row_checkpoint_id <$> rows) (row_checkpoint_id r0)) as He.
  assert (row_checkpoint_id r <= foldl Z.max (row_checkpoint_id r0) (row_checkpoint_id <$> rows)) as Hge.
  { apply elem_of_cons in Hr as [->|Hr]; [done|]. rewrite Forall_forall in H2. apply H2. by apply list_elem_of_fmap_2. }
  change (row_checkpoint_id r0 :: (row_checkpoint_id <$> rows)) with (row_checkpoint_id <$> r0 :: rows) in He. apply list_elem_of_fmap in He as (r' & Hr' & Hin). specialize (Hle r' Hin). lia.
Qed.

(** A checkpoint as it comes back from the table. *)
Definition stored (checkpoint_id : CheckpointId) (p : Checkpoint) : Checkpoint := from_row (to_row "" "" checkpoint_id p).

Context (name id : string).

Section saved.
Context (st : MySqlCheckpointStorage) (ckid : CheckpointId) (cks : list Checkpoint) (ttl : Z).
Context (Hok : db_error st = None) (Httl : 0 <= ttl) (Hold : forall r, r ∈ db_rows st -> of_application name id r -> row_checkpoint_id r < ckid) (Hne : cks <> []).

Abbreviation new_rows := (to_row name id ckid <$> cks).

(** The rows of the application after the save: those not too old, and the new ones. *)
Lemma saved_rows : filter (of_application name id) (db_rows (mysql_save st name id ckid cks ttl).1) =
  filter (fun r => of_application name id r /\ ckid - ttl <= row_checkpoint_id r \/ of_application name id r /\ ckid < ttl) (db_rows st) ++ new_rows.
Proof.
  assert (Forall (fun r => of_application name id r /\ row_checkpoint_id r = ckid) new_rows) as Hnew by (apply Forall_fmap, Forall_true; done).
  unfold mysql_save, with_conn. rewrite Hok. destruct (Z.ltb_spec ckid ttl) as [Hlt|Hge]; cbn [fst db_rows].
  - rewrite filter_app, (filter_all _ new_rows); [|eapply Forall_impl; [exact Hnew|by intros r []]]. f_equal. apply filter_ext_in. intros r _. split; [by right|tauto].
  - rewrite list_filter_filter, filter_app. f_equal.
    + apply filter_ext_in. intros r _. split; [intros [Ha Hn]; left; split; [done|]; apply Z.nlt_ge; tauto|intros [[Ha Hn]|[Ha Hn]]; split; try done; lia].
    + apply filter_all. eapply Forall_impl; [exact Hnew|]. intros r [Ha Hr]. split; [done|]. lia.
Qed.

Lemma mysql_save_ok : (mysql_save st name id ckid cks ttl).2 = Ok tt /\ db_error (mysql_save st name id ckid cks ttl).1 = None.
Proof. unfold mysql_save, with_conn. rewrite Hok. by destruct (ckid <? ttl). Qed.

Lemma saved_same : mkMySql (db_rows (mysql_save st name id ckid cks ttl).1) None = (mysql_save st name id ckid cks ttl).1.
Proof. pose proof (proj2 mysql_save_ok) as He. destruct (mysql_save st name id ckid cks ttl).1. cbn in *. by subst. Qed.

Lemma mysql_load_saved : exists l, mysql_load (mysql_save st name id ckid cks ttl).1 name id = ((mysql_save st name id ckid cks ttl).1, Ok l) /\ l ≡ₚ stored ckid <$> cks.
Proof.
  unfold mysql_load, with_conn. rewrite (proj2 mysql_save_ok), saved_rows. set (old := filter _ (db_rows st)).
  assert (forall r, r ∈ old -> row_checkpoint_id r < ckid) as Ho. { intros r Hr. apply list_elem_of_filter in Hr as [Ha Hr]. apply Hold; [done|tauto]. }
  assert (max_checkpoint (old ++ new_rows) = Some ckid) as ->.
  { apply max_checkpoint_Some.
    - destruct cks as [|c l]; [done|]. exists (to_row name id ckid c). split; [|done]. apply elem_of_app. right. cbn. by left.
    - intros r [Hr|Hr]%elem_of_app; [specialize (Ho r Hr); lia|]. apply list_elem_of_fmap in Hr as (c & -> & _). done. }
  eexists. split; [by rewrite saved_same|].
  rewrite sql_order_perm, filter_app, filter_none, filter_all; [cbn; by rewrite <- list_fmap_compose|..].
  - apply Forall_fmap, Forall_true. done.
  - apply Forall_forall. intros r Hr Heq. specialize (Ho r Hr). injection Heq as Heq. lia.
Qed.

Definition app_rows (rows : list CkRow) : list CkRow := filter (of_application name id) rows.

Lemma mysql_load_older k : 0 <= k < ckid -> exists l, mysql_load_by_checkpoint_id (mysql_save st name id ckid cks ttl).1 name id k = ((mysql_save st name id ckid cks ttl).1, Ok l) /\
  l ≡ₚ from_row <$> filter (fun r => of_application name id r /\ row_checkpoint_id r = k /\ ckid - ttl <= k) (db_rows st).
Proof.
  intros Hk. unfold mysql_load_by_checkpoint_id, with_conn. rewrite (proj2 mysql_save_ok). eexists. split; [by rewrite saved_same|].
  rewrite sql_order_perm. assert (forall rows, filter (fun r => of_application name id r /\ row_checkpoint_id r = k) rows = filter (fun r => row_checkpoint_id r = k) (app_rows rows)) as ->.
  { intros rows. unfold app_rows. rewrite list_filter_filter. apply filter_ext_in. tauto. }
  pose proof saved_rows as Hs. match type of Hs with _ = ?r => change (app_rows (db_rows (mysql_save st name id ckid cks ttl).1) = r) in Hs end. rewrite Hs, filter_app. rewrite (filter_none _ new_rows); [|apply Forall_fmap, Forall_true; intros c; cbn; lia]. rewrite app_nil_r, list_filter_filter. f_equiv.
  erewrite filter_ext_in; [done|]. intros r Hr. cbn. split; [intros (H1 & [[H2 H3]|[H2 H3]]); split_and!; try done; lia|intros (H1 & H2 & H3); split; [done|]; left; split; [done|lia]].
Qed.
End saved.

(** ** From one coordinator to the next *)

(** [load]'s completed id is the least positive one. *)
Definition least_completed (cks : Checkpoint -> Prop) (k : CheckpointId) : Prop :=
  (exists c, cks c /\ ck_completed_checkpoint_id c = Some k) /\ forall c j, cks c -> ck_completed_checkpoint_id c = Some j -> 0 < j -> k <= j.

Definition none_completed (cks : Checkpoint -> Prop) : Prop := forall c j, cks c -> ck_completed_checkpoint_id c = Some j -> j <= 0.

Lemma foldl_min_spec (l : list Z) : forall a, foldl Z.min a l ∈ a :: l /\ (forall x, x ∈ a :: l -> foldl Z.min a l <= x).
Proof.
  induction l as [|y l IH]; intros a; cbn [foldl]; [split; [by left|]; intros x ->%list_elem_of_singleton; lia|].
  destruct (IH (Z.min a y)) as [H1 H2]. split.
  - apply elem_of_cons in H1 as [->|H1]; [|by right; right]. destruct (Z.min_spec a y) as [[_ ->]|[_ ->]]; [by left|right; by left].
  - intros x Hx. assert (foldl Z.min (Z.min a y) l <= Z.min a y) by (apply H2; by left). apply elem_of_cons in Hx as [->|[->|Hx]%elem_of_cons]; [lia..|]. apply H2. by right.
Qed.

Lemma elem_of_completed j l : j ∈ List.filter (fun id => 0 <? id) (omap ck_completed_checkpoint_id l) <-> 0 < j /\ exists c, c ∈ l /\ ck_completed_checkpoint_id c = Some j.
Proof. rewrite list_elem_of_In, List.filter_In, <- list_elem_of_In, list_elem_of_omap, Z.ltb_lt. tauto. Qed.

Lemma completed_id_none (l : list Checkpoint) : none_completed (fun c => c ∈ l) -> completed_id l = 0.
Proof.
  intros Hn. unfold completed_id. destruct (List.filter _ _) as [|j ids] eqn:E; [done|]. assert (j ∈ j :: ids) as Hj by by left.
  rewrite <- E in Hj. apply elem_of_completed in Hj as (Hp & c & Hc & Hk). specialize (Hn c j Hc Hk). lia.
Qed.

Lemma completed_id_least (l : list Checkpoint) k : 0 < k -> least_completed (fun c => c ∈ l) k -> completed_id l = k.
Proof.
  intros Hk [(c & Hc & Hck) Hmin]. unfold completed_id. assert (k ∈ List.filter (fun id => 0 <? id) (omap ck_completed_checkpoint_id l)) as Hin by (apply elem_of_completed; eauto).
  destruct (List.filter _ _) as [|j ids] eqn:E; [by apply not_elem_of_nil in Hin|]. destruct (foldl_min_spec ids j) as [H1 H2]. specialize (H2 k Hin).
  rewrite <- E in H1. apply elem_of_completed in H1 as (Hp & c' & Hc' & Hj). specialize (Hmin c' _ Hc' Hj Hp). lia.
Qed.

Lemma stored_completed ckid c j : 0 < j -> ck_completed_checkpoint_id (stored ckid c) = Some j <-> ck_completed_checkpoint_id c = Some j.
Proof.
  intros Hj. unfold stored, from_row, to_row. cbn. destruct (ck_completed_checkpoint_id c) as [i|]; cbn; [|done].
  destruct (Z.eqb_spec i 0) as [->|]; [|done]. split; [done|]. intros [= <-]. lia.
Qed.

Lemma stored_none ckid (P : Checkpoint -> Prop) (l : list Checkpoint) : (forall c, c ∈ l <-> exists c0, P c0 /\ c = stored ckid c0) -> none_completed P -> none_completed (fun c => c ∈ l).
Proof.
  intros Hl Hn c j Hc Hj. apply Hl in Hc as (c0 & H0 & ->). destruct (Z.lt_ge_cases 0 j) as [Hp|]; [|done]. apply stored_completed in Hj; [|done]. by eapply Hn.
Qed.

Lemma stored_least ckid (P : Checkpoint -> Prop) (l : list Checkpoint) k : 0 < k -> (forall c, c ∈ l <-> exists c0, P c0 /\ c = stored ckid c0) -> least_completed P k -> least_completed (fun c => c ∈ l) k.
Proof.
  intros Hk Hl [(c & Hc & Hck) Hmin]. split.
  - exists (stored ckid c). split; [apply Hl; eauto|]. by apply stored_completed.
  - intros c' j Hc' Hj Hp. apply Hl in Hc' as (c0 & H0 & ->). apply stored_completed in Hj; [|done]. by eapply Hmin.
Qed.

(** The loaded report of a task is found, when there is one report for each task. *)
Lemma own_checkpoint_unique cks op t c :
  c ∈ cks -> ck_operator_id c = op -> task_number (ck_task_id c) = t ->
  (forall c', c' ∈ cks -> ck_operator_id c' = op -> task_number (ck_task_id c') = t -> c' = c) -> own_checkpoint cks op t = Some c.
Proof.
  intros Hc Ho Ht Hu. destruct (own_checkpoint cks op t) as [c'|] eqn:E.
  - apply own_checkpoint_elem in E as (? & ? & ?). f_equal. by apply Hu.
  - exfalso. unfold own_checkpoint in E. eapply List.find_none in E; [|apply list_elem_of_In, list_elem_of_filter; split; [exact Ho|exact Hc]]. cbn in E. by apply Z.eqb_neq in E.
Qed.

Lemma restored_stored ckid od c : ck_checkpoint_id c = ckid -> restored_operator od (stored ckid c) = restored_operator od c.
Proof. intros <-. unfold restored_operator, stored, from_row, to_row. cbn. by destruct (ck_handle c). Qed.

(** What [load] gives over a storage that holds a completed checkpoint. *)
Lemma cam_load_saved (st st' : MySqlCheckpointStorage) (l : list Checkpoint) ttl jobs :
  ck_load st name id = (st, Ok l) ->
  (none_completed (fun c => c ∈ l) -> (cam_load (cam_new name id ttl jobs (Some st))).2 = Ok (group_by_operator l)) /\
  (forall k l', 0 < k -> least_completed (fun c => c ∈ l) k -> ck_load_by_checkpoint_id st name id k = (st', Ok l') ->
     (cam_load (cam_new name id ttl jobs (Some st))).2 = Ok (group_by_operator l')).
Proof.
  intros Hl. unfold cam_load. cbn [ck_storage cam_new application_name application_id]. rewrite Hl. split.
  - intros Hn. by rewrite (completed_id_none l Hn).
  - intros k l' Hk Hm Hb. rewrite (completed_id_least l k Hk Hm). unfold ck_is_default. rewrite (proj2 (Z.eqb_neq k 0)) by lia. by rewrite Hb.
Qed.

Section recovered.
Context (ttl : Z) (jobs : list job_operators) (st0 : MySqlCheckpointStorage) (hist : list Checkpoint) (ck : Checkpoint).
Context (Hjobs : Forall (fun '(_, p, _) => 0 <= p) jobs) (Hwf : Forall (report_wf (jobs_ops jobs)) (hist ++ [ck])) (Hle : latest_id hist <= ck_checkpoint_id ck).
Context (Hall : reported_by_all (jobs_ops jobs) (hist ++ [ck]) (ck_checkpoint_id ck)).

Abbreviation ckid := (ck_checkpoint_id ck).
Abbreviation m := (cam_run (cam_new name id ttl jobs (Some st0)) hist).

(** One of the reports of the checkpoint that are kept. *)
Definition kept (c : Checkpoint) : Prop := exists op t, first_report (hist ++ [ck]) ckid op t = Some c.

Lemma kept_one : exists c, kept c.
Proof.
  apply Forall_app in Hwf as [_ [(p & Hp & Ht & _) _]%Forall_cons]. destruct (Hall _ _ _ Hp Ht) as [c Hc]. exists c. by exists (ck_operator_id ck), (task_number (ck_task_id ck)).
Qed.

(** The report that completes the checkpoint saves the kept ones. *)
Lemma apply_saves st : ck_storage m = Some st -> exists cks, cks <> [] /\ (forall c, c ∈ cks <-> kept c) /\
  ck_storage (cam_apply m ck).1 = Some (mysql_save st name id ckid cks ttl).1 /\ (cam_apply m ck).2 = (mysql_save st name id ckid cks ttl).2.
Proof.
  intros Hst. pose proof (jobs_ops_nonneg jobs Hjobs) as Hops.
  assert (cam_inv (jobs_ops jobs) m hist) as Hinv. { apply (cam_run_inv _ Hops _ []); [apply cam_new_inv|]. by apply Forall_app in Hwf as []. }
  destruct (cam_run_config (cam_new name id ttl jobs (Some st0)) hist) as (Hn & Hid & Ht & _). cbn in Hn, Hid, Ht.
  destruct (proj1 (cam_apply_save _ m hist ck st Hops Hinv Hwf Hle Hst) Hall) as (cks & _ & Hin & Hsv). rewrite Hn, Hid, Ht in Hsv. exists cks. split; [|by split].
  intros ->. destruct kept_one as [c Hc]. apply Hin in Hc. by apply not_elem_of_nil in Hc.
Qed.

(** The kept report of a task is the only one of it that is loaded. *)
Lemma restore_kept l op t c od : (forall c, c ∈ l <-> exists c0, kept c0 /\ c = stored ckid c0) -> first_report (hist ++ [ck]) ckid op t = Some c -> od_operator_id od = op ->
  restore_operator (group_by_operator l) t od = Ok (restored_operator od c).
Proof.
  intros Hl Hf <-. pose proof (first_report_some _ _ _ _ _ Hf) as (_ & Hi & Ho & Ht). rewrite restore_operator_eq, (own_checkpoint_unique _ _ _ (stored ckid c)).
  - by rewrite restored_stored.
  - apply Hl. exists c. split; [by exists (od_operator_id od), t|done].
  - done.
  - done.
  - intros c' Hc' Ho' Ht'. apply Hl in Hc' as (c0 & (op0 & t0 & Hf0) & ->). cbn in Ho', Ht'. pose proof (first_report_some _ _ _ _ _ Hf0) as (_ & _ & <- & <-). rewrite Ho', Ht' in Hf0. congruence.
Qed.

(** C4: What the tasks reported is what a later coordinator hands back to them. Let the
    report [ck] complete its checkpoint, over a database that answers and that has only
    smaller checkpoint ids for the application. Then [apply] succeeds, and [load] of a new
    coordinator over the same table succeeds too. When no report carries the id of a completed checkpoint,
    [load] gives each task of each operator, in [restore_operator], the id and the handle
    of the first report this task made. When the least completed id reported is an older
    [k], it gives the rows with the id [k] instead, if the save has not removed them for
    being older than the ttl, and nothing otherwise. *)
Theorem checkpoint_recovered st ttl' jobs' :
  ck_storage m = Some st -> db_error st = None -> 0 <= ttl -> (forall r, r ∈ db_rows st -> of_application name id r -> row_checkpoint_id r < ckid) ->
  (cam_apply m ck).2 = Ok tt /\ exists st', ck_storage (cam_apply m ck).1 = Some st' /\
  let restart := (cam_load (cam_new name id ttl' jobs' (Some st'))).2 in
  (none_completed kept -> exists loaded, restart = Ok loaded /\
     forall op p t od, jobs_ops jobs !! op = Some p -> 0 <= t < p -> od_operator_id od = op ->
       exists c, first_report (hist ++ [ck]) ckid op t = Some c /\ restore_operator loaded t od = Ok (restored_operator od c)) /\
  (forall k, 0 < k < ckid -> least_completed kept k -> exists l, restart = Ok (group_by_operator l) /\
     l ≡ₚ from_row <$> filter (fun r => of_application name id r /\ row_checkpoint_id r = k /\ ckid - ttl <= k) (db_rows st)).
Proof.
  intros Hst Hok Httl Hold. destruct (apply_saves st Hst) as (cks & Hne & Hin & -> & ->). split; [by apply (mysql_save_ok st ckid cks ttl Hok)|]. eexists. split; [reflexivity|]. cbn zeta.
  destruct (mysql_load_saved st ckid cks ttl Hok Httl Hold Hne) as (l & Hload & Hl).
  assert (forall c, c ∈ l <-> exists c0, kept c0 /\ c = stored ckid c0) as Hmem. { intros c. rewrite Hl, list_elem_of_fmap. split; intros (c0 & H1 & H2); exists c0; split; try done; by apply Hin. }
  split.
  - intros Hn. exists (group_by_operator l). split.
    + apply (proj1 (cam_load_saved _ st l ttl' jobs' Hload)). by eapply stored_none.
    + intros op p t od Hop Ht Ho. destruct (Hall op p t Hop Ht) as [c Hc]. exists c. split; [done|]. by eapply restore_kept.
  - intros k Hk Hm. destruct (mysql_load_older st ckid cks ttl Hok Httl k) as (l' & Hl' & Hp); [lia|]. exists l'. split; [|exact Hp].
    apply (proj2 (cam_load_saved _ (mysql_save st name id ckid cks ttl).1 l ttl' jobs' Hload) k l'); [lia| |exact Hl']. eapply stored_least; [lia|exact Hmem|exact Hm].
Qed.
End recovered.

End mysql.

(** ** An example *)

(** Selects in insertion order. *)
Definition insertion_order : SqlOrder := {| sql_order := fun l => l; sql_order_perm := fun l => Permutation_refl l |}.

Definition ex_ck (op task id : Z) (h : string) : Checkpoint := mkCheckpoint op (mkTaskId 0 task 2) id None (mkHandle h).

(** Two tasks of one operator; the first reports twice. *)
Definition ex_ck_jobs : list job_operators := [(0, 2, [(1, "source"%string)])].

Definition ex_ck_hist : list Checkpoint := [ex_ck 1 0 7 "a"; ex_ck 1 0 7 "b"].

(** The table has the checkpoint 5 of the application and the checkpoint 9 of another. *)
Definition ex_db : MySqlCheckpointStorage :=
  mkMySql [mkCkRow "app" "id" (mkTaskId 0 0 2) 1 5 0 "old"; mkCkRow "other" "id" (mkTaskId 0 0 2) 1 9 0 "x"] None.

Definition ex_od : OperatorDescriptor := mkOperatorDescriptor 1 0 None None.

Lemma checkpoint_recovered_witness :
  let HO := id_order in let SO := insertion_order in
  let m := cam_run (cam_new "app" "id" 1000 ex_ck_jobs (Some ex_db)) ex_ck_hist in
  exists st' loaded, ck_storage (cam_apply m (ex_ck 1 1 7 "c")).1 = Some st' /\
    (cam_load (cam_new "app" "id" 1000 ex_ck_jobs (Some st'))).2 = Ok loaded /\
    restore_operator loaded 0 ex_od = Ok (mkOperatorDescriptor 1 7 None (Some (mkHandle "a"))) /\
    restore_operator loaded 1 ex_od = Ok (mkOperatorDescriptor 1 7 None (Some (mkHandle "c"))).
Proof.
  intros HO SO m.
  assert (Forall (fun '(_, p, _) => 0 <= p) ex_ck_jobs) as Hj by (repeat constructor; lia).
  assert (Forall (report_wf (jobs_ops ex_ck_jobs)) (ex_ck_hist ++ [ex_ck 1 1 7 "c"])) as Hwf.
  { repeat (apply Forall_cons; split; [exists 2; cbn; split; [reflexivity|lia]|]). constructor. }
  assert (map_Forall (fun op p => op = 1 /\ p = 2) (jobs_ops ex_ck_jobs)) as Hm by (apply map_Forall_insert_2; [done|apply map_Forall_empty]).
  assert (forall c, kept ex_ck_hist (ex_ck 1 1 7 "c") c -> ck_completed_checkpoint_id c = None) as Hk.
  { intros c (op & t & Hf). apply first_report_some in Hf as (Hin & _). repeat (apply elem_of_cons in Hin as [->|Hin]; [done|]). by apply not_elem_of_nil in Hin. }
  destruct (checkpoint_recovered (HO := HO) (SO := SO) "app" "id" 1000 ex_ck_jobs ex_db ex_ck_hist (ex_ck 1 1 7 "c") Hj Hwf) with (st := ex_db) (ttl' := 1000) (jobs' := ex_ck_jobs) as (_ & st' & Hst & Hnone & _).
  - vm_compute. discriminate.
  - intros op p t Hop Ht. destruct (Hm op p Hop) as [-> ->]. assert (t = 0 \/ t = 1) as [-> | ->] by lia; eexists; reflexivity.
  - reflexivity.
  - reflexivity.
  - lia.
  - intros r Hr Ha. apply elem_of_cons in Hr as [->|Hr]; [cbn; lia|]. apply elem_of_cons in Hr as [->|Hr]; [by destruct Ha|]. by apply not_elem_of_nil in Hr.
  - destruct Hnone as (loaded & Hl & Hr). { intros c j Hc Hj'. rewrite (Hk c Hc) in Hj'. done. }
    exists st', loaded. split; [exact Hst|]. split; [exact Hl|]. split.
    + destruct (Hr 1 2 0 ex_od eq_refl ltac:(lia) eq_refl) as (c & Hc & ->). vm_compute in Hc. by injection Hc as <-.
    + destruct (Hr 1 2 1 ex_od eq_refl ltac:(lia) eq_refl) as (c & Hc & ->). vm_compute in Hc. by injection Hc as <-.
Defined.
