(* ===== verification/WebApi.v ===== *)
(** * WebApi: the coordinator's web server and the workers that use it

    src/rlink/src/runtime/coordinator/web_server.rs, src/rlink/src/runtime/worker/web_server.rs,
    src/rlink/src/storage/metadata/metadata_loader.rs, src/rlink/src/runtime/cluster/worker.rs,
    src/rlink/src/utils/http.rs, src/rlink/src/utils/thread.rs, and the requests of
    src/rlink/src/runtime/worker/heart_beat.rs and checkpoint.rs.

    The coordinator serves its metadata and takes heartbeats and checkpoints over HTTP; a
    worker polls it until the cluster is registered, loads the graphs and starts its tasks.
    A request is its method, path and body; a connection can fail before or after the
    request was handled. The theorems relate these requests to the steps of Cluster and say
    what a worker starts from. *)
From Stdlib Require Import ZArith Lia Ascii.
From stdpp Require Import base strings numbers option sets gmap list sorting pretty.
From S2P Require Import Prelude Bytes Properties Runtime Checkpoint Cluster NodeArgs.
From S2P Require Import Graph Schema StreamGraph JobGraph ExecutionGraph PhysicGraph DagMetadata Standalone.

#[local] Open Scope Z_scope.
#[local] Open Scope string_scope.
#[local] Open Scope list_scope.

(** ** utils/thread.rs: the threads of the process *)
Record ThreadInfo := mkThreadInfo { ti_thread_id : string; ti_thread_name : string }.

#[global] Instance ThreadInfo_eq_dec : EqDecision ThreadInfo.
Proof. solve_decision. Defined.
#[global] Instance ThreadInfo_countable : Countable ThreadInfo.
Proof. apply (inj_countable' (fun t => (ti_thread_id t, ti_thread_name t)) (fun '(i, n) => mkThreadInfo i n)). by intros []. Defined.

Definition set_thread_info (thread_info : ThreadInfo) (infos : gmap ThreadInfo unit) : gmap ThreadInfo unit := <[thread_info := tt]> infos.

Definition name_le (x y : ThreadInfo) : Prop := String.leb (ti_thread_name x) (ti_thread_name y) = true.

#[global] Instance name_le_dec x y : Decision (name_le x y).
Proof. unfold name_le. apply _. Defined.

Definition get_thread_infos `{HashOrder} (infos : gmap ThreadInfo unit) : list ThreadInfo := merge_sort name_le (hiter infos).*1.

(** ** Requests and responses *)
Inductive Method : Type := GET | POST | OtherMethod (name : string).

(** The body can fail to arrive. *)
Record Request := mkRequest { rq_method : Method; rq_path : string; rq_body : res string string }.

Record Response := mkResponse { rs_status : Z; rs_content_type : option string; rs_body : string }.

Definition as_ok_json (json : string) : res string Response := Ok (mkResponse 200 (Some "application/json; charset=utf-8") json).

Definition page_not_found : res string Response := Ok (mkResponse 404 None "Page not found").

(** Serializing what nobody reads back in this program. *)
Class Serialize (A : Type) := to_json : A -> string.

(** ** Static files *)

(** [PathBuf::join] on Unix: an absolute path replaces the base. *)
Definition ends_with_slash (s : string) : bool := match String.get (String.length s - 1) s with Some a => bool_decide (a = "/"%char) | None => false end.

Definition path_join (base path : string) : string :=
  match path with
  | String "/" _ => path
  | _ => if decide (base = "") then path else if ends_with_slash base then base +:+ path else base +:+ "/" +:+ path
  end.

(** What follows the last dot, as [rfind] finds it. *)
Fixpoint ext_of (path : string) : option string :=
  match path with
  | "" => None
  | String a rest => match ext_of rest with Some e => Some e | None => if decide (a = "."%char) then Some rest else None end
  end.

Definition content_type (ext : string) : string :=
  if decide (ext = "html") then "text/html; charset=utf-8" else if decide (ext = "js") then "application/javascript"
  else if decide (ext = "css") then "text/css" else if decide (ext = "ico") then "image/x-icon" else if decide (ext = "gif") then "image/gif"
  else if decide (ext = "png") then "image/png" else if decide (ext = "svg") then "image/svg+xml" else if decide (ext = "woff") then "application/font-woff" else "".

(** [files]: what reading a path gives. *)
Definition static_file (files : string -> option string) (dashboard_path : string) (req : Request) : res string Response :=
  let path := if decide (rq_path req = "" \/ rq_path req = "/") then "/index.html" else rq_path req in
  let path := String.substring 1 (String.length path - 1) path in
  let static_file_path := path_join dashboard_path path in
  let* ext := ok_or (ext_of path) "file ext name not found" in
  match files static_file_path with
  | Some context => Ok (mkResponse 200 (Some (content_type ext)) context)
  | None => page_not_found
  end.

(** ** The coordinator's server *)

(** The handlers share the metadata store, the checkpoint manager and the thread table of
    the process. *)
Record WebState {S : Type} := mkWebState {
  ws_store : MetadataStore;
  ws_checkpoints : CheckpointManager (S := S);
  ws_threads : gmap ThreadInfo unit
}.

Record WebContext := mkWebContext { wc_context : NodeContext; wc_dag_metadata : DagMetadata }.

Section coordinator_server.
Context {HO : HashOrder} {S : Type} {CS : Checkpoint.CheckpointStorage S}.
Context {JC : SerdeJson (StdResponse ClusterDescriptor)} {JD : SerdeJson (StdResponse DagMetadata)} {JM : SerdeJson (StdResponse ManagerStatus)} {JS : SerdeJson (StdResponse string)}.
Context {JH : SerdeJson HeartbeatRequest} {JK : SerdeJson Checkpoint}.
Context {TC : Serialize (StdResponse NodeContext)} {TA : Serialize (StdResponse (CheckpointAlignManager S))} {TT : Serialize (StdResponse (list ThreadInfo))}.
Context {TS : Serialize (StdResponse (JsonDag StreamNode StreamEdge))} {TJ : Serialize (StdResponse (JsonDag JobNode JobEdge))} {TE : Serialize (StdResponse (JsonDag ExecutionNode ExecutionEdge))}.
Abbreviation state := (WebState (S := S)).

Definition get_context (wc : WebContext) : res string Response := as_ok_json (to_json (StdResponse_ok (Some (wc_context wc)))).

Definition get_cluster_metadata (s : state) : res string Response :=
  match metadata_load (ws_store s) with
  | Ok cluster_descriptor => as_ok_json (json_to_string (StdResponse_ok (Some cluster_descriptor)))
  | Err e | Panic e => Panic e
  end.

Definition get_checkpoint (s : state) : res string Response := as_ok_json (to_json (StdResponse_ok (Some (cm_get (ws_checkpoints s))))).

Definition get_dag_metadata (wc : WebContext) : res string Response := as_ok_json (json_to_string (StdResponse_ok (Some (wc_dag_metadata wc)))).

Definition get_stream_graph (wc : WebContext) : res string Response := as_ok_json (to_json (StdResponse_ok (Some (md_stream_graph (wc_dag_metadata wc))))).

Definition get_job_graph (wc : WebContext) : res string Response := as_ok_json (to_json (StdResponse_ok (Some (md_job_graph (wc_dag_metadata wc))))).

Definition get_execution_graph (wc : WebContext) : res string Response := as_ok_json (to_json (StdResponse_ok (Some (md_execution_graph (wc_dag_metadata wc))))).

Definition thread_infos (s : state) : res string Response := as_ok_json (to_json (StdResponse_ok (Some (get_thread_infos (ws_threads s))))).

Definition heartbeat (now : Z) (req : Request) (s : state) : state * res string Response :=
  match (let* whole_body := rq_body req in json_from_str (A := HeartbeatRequest) whole_body) with
  | Ok request =>
      let '(store, coordinator_status) := update_worker_status now (ws_store s) (hr_task_manager_id request) (hr_change_items request) Registered in
      (mkWebState _ store (ws_checkpoints s) (ws_threads s), let* resp := result_into_response coordinator_status in as_ok_json (json_to_string resp))
  | Err e => (s, Err e)
  | Panic p => (s, Panic p)
  end.

Definition checkpoint (req : Request) (s : state) : state * res string Response :=
  match (let* whole_body := rq_body req in json_from_str (A := Checkpoint) whole_body) with
  | Ok ck_model =>
      let '(cks, r) := cm_apply (ws_checkpoints s) ck_model in
      let resp := match r with Ok _ => "ok" | _ => "error" end in
      (mkWebState _ (ws_store s) cks (ws_threads s), as_ok_json (json_to_string (StdResponse_ok (Some resp))))
  | Err e => (s, Err e)
  | Panic p => (s, Panic p)
  end.

Definition route (now : Z) (files : string -> option string) (wc : WebContext) (req : Request) (s : state) : state * res string Response :=
  let path := rq_path req in
  if String.prefix "/api/" path then
    match rq_method req with
    | GET =>
        (s, if decide (path = "/api/context") then get_context wc
            else if decide (path = "/api/cluster_metadata") then get_cluster_metadata s
            else if decide (path = "/api/checkpoints") then get_checkpoint s
            else if decide (path = "/api/dag_metadata") then get_dag_metadata wc
            else if decide (path = "/api/dag/stream_graph") then get_stream_graph wc
            else if decide (path = "/api/dag/job_graph") then get_job_graph wc
            else if decide (path = "/api/dag/execution_graph") then get_execution_graph wc
            else if decide (path = "/api/threads") then thread_infos s
            else page_not_found)
    | POST =>
        if decide (path = "/api/heartbeat") then heartbeat now req s
        else if decide (path = "/api/checkpoint") then checkpoint req s
        else (s, page_not_found)
    | OtherMethod _ => (s, page_not_found)
    end
  else
    match rq_method req with
    | GET => (s, static_file files (nc_dashboard_path (wc_context wc)) req)
    | _ => (s, page_not_found)
    end.

(** ** The clients (utils/http.rs) *)

(** How a request fares: it does not arrive, or it is handled and its answer gets lost, or
    not. A handler that fails or panics gives no answer. *)
Inductive Fate : Type := NotArrived | AnswerLost | Answered.

Definition send (now : Z) (files : string -> option string) (wc : WebContext) (f : Fate) (req : Request) (s : state) : state * res string string :=
  match f with
  | NotArrived => (s, Err "error trying to connect")
  | AnswerLost => ((route now files wc req s).1, Err "connection closed before message completed")
  | Answered =>
      let '(s, r) := route now files wc req s in
      (s, match r with Ok response => Ok (rs_body response) | _ => Err "connection closed before message completed" end)
  end.

Definition http_get (now : Z) (files : string -> option string) (wc : WebContext) (f : Fate) (path : string) (s : state) : state * res string string :=
  send now files wc f (mkRequest GET path (Ok "")) s.

Definition http_post {T} `{SerdeJson T} (now : Z) (files : string -> option string) (wc : WebContext) (f : Fate) (path body : string) (s : state) : state * res string T :=
  let '(s, r) := send now files wc f (mkRequest POST path (Ok body)) s in (s, let* result := r in json_from_str result).

(** ** What a worker sends *)

(** [report_heartbeat]: the status the worker has of the coordinator afterwards. *)
Definition report_heartbeat (now : Z) (files : string -> option string) (wc : WebContext) (f : Fate) (task_manager_id : string) (is_panic : bool) (change_items : list HeartbeatItem) (coordinator_status : ManagerStatus) (s : state) : state * ManagerStatus :=
  let request := mkHeartbeatRequest task_manager_id (report_items is_panic change_items) in
  let '(s, resp) := http_post (T := StdResponse ManagerStatus) now files wc f "/api/heartbeat" (json_to_string request) s in
  (s, match resp with Ok resp => default coordinator_status (sr_data resp) | _ => coordinator_status end).

(** [report_checkpoint] of runtime/worker/checkpoint.rs: the answer is only logged. *)
Definition report_checkpoint (now : Z) (files : string -> option string) (wc : WebContext) (f : Fate) (ck : Checkpoint) (s : state) : state :=
  (http_post (T := StdResponse string) now files wc f "/api/checkpoint" (json_to_string ck) s).1.

(** ** metadata_loader.rs *)
Record MetadataLoader := mkMetadataLoader { ml_cluster_descriptor_cache : option ClusterDescriptor; ml_dag_metadata_cache : option DagMetadata }.

Definition MetadataLoader_new : MetadataLoader := mkMetadataLoader None None.

(** What the coordinator is like when a request is made: its state, and how the request fares. *)
Abbreviation Attempt := (state * Fate)%type.

(** The answer as a loader takes it. *)
Definition loaded {T} (resp_model : res string (StdResponse T)) : res string T :=
  match resp_model with
  | Ok resp =>
      match sr_code resp, sr_data resp with
      | RC_OK, Some data => Ok data
      | _, _ => Panic "get remote JobDescriptor with error code"
      end
  | Err e | Panic e => Panic e
  end.

(** The loops of the loader: [None] while every request fails. *)
Fixpoint load_loop {T} `{SerdeJson (StdResponse T)} (files : string -> option string) (wc : WebContext) (path : string) (attempts : list Attempt) : option (res string T * list Attempt) :=
  match attempts with
  | [] => None
  | (s, f) :: attempts =>
      match (http_get 0 files wc f path s).2 with
      | Ok resp => Some (loaded (json_from_str resp), attempts)
      | _ => load_loop files wc path attempts
      end
  end.

Definition get_cluster_descriptor (files : string -> option string) (wc : WebContext) (attempts : list Attempt) (ml : MetadataLoader) : option (res string (ClusterDescriptor * MetadataLoader) * list Attempt) :=
  '(r, attempts) ← load_loop (T := ClusterDescriptor) files wc "/api/cluster_metadata" attempts;
  Some (let* c := r in Ok (c, mkMetadataLoader (Some c) (ml_dag_metadata_cache ml)), attempts).

Definition loader_get_dag_metadata (files : string -> option string) (wc : WebContext) (attempts : list Attempt) (ml : MetadataLoader) : option (res string (DagMetadata * MetadataLoader) * list Attempt) :=
  '(r, attempts) ← load_loop (T := DagMetadata) files wc "/api/dag_metadata" attempts;
  Some (let* d := r in Ok (d, mkMetadataLoader (ml_cluster_descriptor_cache ml) (Some d)), attempts).

(** ** cluster/worker.rs *)

(** The loop of [waiting_all_task_manager_fine0]; each turn takes an attempt at least. *)
Fixpoint waiting_fine (fuel : nat) (files : string -> option string) (wc : WebContext) (attempts : list Attempt) (ml : MetadataLoader) : option (res string (ClusterDescriptor * MetadataLoader) * list Attempt) :=
  match fuel with
  | O => None
  | Datatypes.S fuel =>
      '(r, attempts) ← get_cluster_descriptor files wc attempts ml;
      match r with
      | Ok (c, ml) => if decide (cm_status (coordinator_manager c) = Registered) then Some (Ok (c, ml), attempts) else waiting_fine fuel files wc attempts ml
      | Err e => Some (Err e, attempts)
      | Panic p => Some (Panic p, attempts)
      end
  end.

Definition waiting_all_task_manager_fine (files : string -> option string) (wc : WebContext) (attempts : list Attempt) (ml : MetadataLoader) := waiting_fine (length attempts) files wc attempts ml.

(** What a worker has put in its heartbeat channel before it waits. *)
Definition startup_items (web_address server_addr metric_addr : string) : list HeartbeatItem :=
  [WorkerManagerWebAddress web_address; WorkerManagerAddress server_addr; MetricsAddress metric_addr].

(** The tasks [run_tasks] starts: those of the worker's own entry. *)
Definition run_tasks (context : NodeContext) (cluster_descriptor : ClusterDescriptor) : res string (list TaskDescriptor) :=
  let* task_manager_descriptors := unwrap "called `Option::unwrap()` on a `None` value" (get_worker_manager_descriptor (nc_task_manager_id context) cluster_descriptor) in
  Ok (wm_task_descriptors task_manager_descriptors).

(** [run], up to the start of the tasks: what it has submitted, the tasks it starts, with
    the descriptor and the graphs it starts them with. *)
Definition worker_run (files : string -> option string) (wc : WebContext) (context : NodeContext) (web_address server_addr : string) (attempts : list Attempt)
  : option (res string (list HeartbeatItem * list TaskDescriptor * ClusterDescriptor * DagMetadata)) :=
  '(r, attempts) ← get_cluster_descriptor files wc attempts MetadataLoader_new;
  match r with
  | Ok (_, ml) =>
      '(r, attempts) ← waiting_all_task_manager_fine files wc attempts ml;
      match r with
      | Ok (cluster_descriptor, ml) =>
          '(r, attempts) ← loader_get_dag_metadata files wc attempts ml;
          Some (let* (dag_metadata, _) := r in
                let* tasks := run_tasks context cluster_descriptor in
                Ok (startup_items web_address server_addr (nc_metric_addr context), tasks, cluster_descriptor, dag_metadata))
      | Err e => Some (Err e)
      | Panic p => Some (Panic p)
      end
  | Err e => Some (Err e)
  | Panic p => Some (Panic p)
  end.

(** ** What a worker starts from *)
Context (files : string -> option string) (wc : WebContext).

(** What the server answers. *)
Lemma get_cluster s f : (http_get 0 files wc f "/api/cluster_metadata" s).2 =
  match f, ws_store s with
  | Answered, Some c => Ok (json_to_string (StdResponse_ok (Some c)))
  | NotArrived, _ => Err "error trying to connect"
  | _, _ => Err "connection closed before message completed"
  end.
Proof. destruct f; try done. unfold http_get, send, route. cbn. unfold get_cluster_metadata. by destruct (ws_store s). Qed.

Lemma get_dag s f : (http_get 0 files wc f "/api/dag_metadata" s).2 =
  match f with Answered => Ok (json_to_string (StdResponse_ok (Some (wc_dag_metadata wc)))) | NotArrived => Err "error trying to connect" | _ => Err "connection closed before message completed" end.
Proof. by destruct f. Qed.

Lemma loaded_ok {T} `{SerdeJson (StdResponse T)} (x : T) : loaded (json_from_str (json_to_string (StdResponse_ok (Some x)))) = Ok x.
Proof. by rewrite json_from_to. Qed.

Definition descriptor_in (attempts : list Attempt) (c : ClusterDescriptor) : Prop := exists s, (s, Answered) ∈ attempts /\ ws_store s = Some c.

(** Whatever is loaded was in the coordinator's store when it answered. *)
Lemma load_cluster_sound attempts r rest : load_loop (T := ClusterDescriptor) files wc "/api/cluster_metadata" attempts = Some (r, rest) ->
  exists c, r = Ok c /\ descriptor_in attempts c /\ rest `suffix_of` attempts /\ (length rest < length attempts)%nat.
Proof.
  induction attempts as [|[s f] attempts IH]; [done|]. cbn [load_loop]. rewrite get_cluster. intros H.
  assert ((exists c, f = Answered /\ ws_store s = Some c /\ r = Ok c /\ rest = attempts) \/ load_loop (T := ClusterDescriptor) files wc "/api/cluster_metadata" attempts = Some (r, rest)) as [(c & -> & Hs & -> & ->)|H'].
  { destruct f; [by right|by right|]. destruct (ws_store s) as [c|] eqn:Es; [|by right]. rewrite loaded_ok in H. injection H as <- <-. left. by exists c. }
  - exists c. split_and!; [done|exists s; split; [by left|done]|by apply suffix_cons_r|cbn; lia].
  - destruct (IH H') as (c & -> & (s' & Hin & Hs) & Hsuf & Hlen). exists c. split_and!; [done|exists s'; split; [by right|done]|by apply suffix_cons_r|cbn; lia].
Qed.

(** An answer ends the loop, and what comes behind it is not used. *)
Lemma load_cluster_total before s c after : ws_store s = Some c ->
  exists r rest, load_loop (T := ClusterDescriptor) files wc "/api/cluster_metadata" (before ++ (s, Answered) :: after) = Some (r, rest) /\ after `suffix_of` rest.
Proof.
  intros Hs. induction before as [|[s' f] before IH]; cbn [app load_loop]; rewrite get_cluster.
  - rewrite Hs, loaded_ok. by exists (Ok c), after.
  - destruct f; [exact IH|exact IH|]. destruct (ws_store s') as [c'|]; [|exact IH]. eexists _, _. split; [done|]. apply suffix_app_r, suffix_cons_r. done.
Qed.

Lemma load_dag_sound attempts r rest : load_loop (T := DagMetadata) files wc "/api/dag_metadata" attempts = Some (r, rest) -> r = Ok (wc_dag_metadata wc).
Proof.
  induction attempts as [|[s f] attempts IH]; [done|]. cbn [load_loop]. rewrite get_dag. destruct f; [exact IH|exact IH|]. rewrite loaded_ok. by intros [= <- _].
Qed.

Lemma load_dag_total before s after : is_Some (load_loop (T := DagMetadata) files wc "/api/dag_metadata" (before ++ (s, Answered) :: after)).
Proof. induction before as [|[s' f] before IH]; cbn [app load_loop]; rewrite get_dag; [by eexists|]. destruct f; [exact IH|exact IH|by eexists]. Qed.

Lemma descriptor_in_suffix rest attempts c : rest `suffix_of` attempts -> descriptor_in rest c -> descriptor_in attempts c.
Proof. intros [l ->] (s & Hin & Hs). exists s. split; [apply elem_of_app; by right|done]. Qed.

Lemma waiting_sound fuel : forall attempts ml r rest, waiting_fine fuel files wc attempts ml = Some (r, rest) ->
  exists c ml', r = Ok (c, ml') /\ cm_status (coordinator_manager c) = Registered /\ descriptor_in attempts c.
Proof.
  induction fuel as [|fuel IH]; intros attempts ml r rest H; [done|]. cbn [waiting_fine] in H. unfold get_cluster_descriptor in H.
  destruct (load_loop _ _ _ attempts) as [[r1 rest1]|] eqn:El; [|done]. cbn [mbind option_bind] in H. destruct (load_cluster_sound _ _ _ El) as (c & -> & Hc & Hsuf & _). cbn [mbind res_bind] in H.
  case_decide as Hr.
  - injection H as <- <-. eexists c, _. done.
  - destruct (IH _ _ _ _ H) as (c' & ml' & -> & Hreg & Hin). exists c', ml'. split_and!; [done|done|]. by eapply descriptor_in_suffix.
Qed.

Lemma waiting_total fuel : forall attempts before s c after ml, attempts = before ++ (s, Answered) :: after -> (length attempts <= fuel)%nat ->
  ws_store s = Some c -> cm_status (coordinator_manager c) = Registered -> exists r rest, waiting_fine fuel files wc attempts ml = Some (r, rest) /\ after `suffix_of` rest.
Proof.
  induction fuel as [|fuel IH]; intros attempts before s c after ml -> Hlen Hs Hreg; [rewrite length_app in Hlen; cbn in Hlen; lia|]. cbn [waiting_fine]. unfold get_cluster_descriptor.
  revert Hlen. induction before as [|[s' f] before IHb]; intros Hlen; cbn [app load_loop]; rewrite get_cluster.
  - rewrite Hs, loaded_ok. cbn [mbind option_bind res_bind]. rewrite decide_True by done. by eexists _, after.
  - assert (length (before ++ (s, Answered) :: after) <= fuel)%nat as Hlen' by (cbn in Hlen; lia). specialize (IHb ltac:(lia)).
    destruct f; [exact IHb|exact IHb|]. destruct (ws_store s') as [c'|] eqn:Es; [|exact IHb]. rewrite loaded_ok. cbn [mbind option_bind res_bind].
    case_decide; [|by eapply IH]. eexists _, _. split; [done|]. by apply suffix_app_r, suffix_cons_r.
Qed.

Lemma worker_run_sound context web_address server_addr attempts : forall r, worker_run files wc context web_address server_addr attempts = Some r ->
     exists c, descriptor_in attempts c /\ cm_status (coordinator_manager c) = Registered /\
     r = match get_worker_manager_descriptor (nc_task_manager_id context) c with
         | Some w => Ok (startup_items web_address server_addr (nc_metric_addr context), wm_task_descriptors w, c, wc_dag_metadata wc)
         | None => Panic "called `Option::unwrap()` on a `None` value"
         end.
Proof.
  unfold worker_run, get_cluster_descriptor, loader_get_dag_metadata, waiting_all_task_manager_fine.
  intros r H. destruct (load_loop _ _ _ attempts) as [[r1 rest1]|] eqn:E1; [|done]. destruct (load_cluster_sound _ _ _ E1) as (c1 & -> & _ & Hsuf & _). cbn [mbind option_bind res_bind] in H.
  destruct (waiting_fine _ _ _ rest1 _) as [[r2 rest2]|] eqn:E2; [|done]. destruct (waiting_sound _ _ _ _ _ E2) as (c2 & ml2 & -> & Hreg & Hin). cbn [mbind option_bind] in H.
  destruct (load_loop (T := DagMetadata) _ _ _ rest2) as [[r3 rest3]|] eqn:E3; [|done]. rewrite (load_dag_sound _ _ _ E3) in H. cbn [mbind option_bind res_bind] in H.
  exists c2. split_and!; [by eapply descriptor_in_suffix|done|]. injection H as <-. unfold run_tasks. by destruct (get_worker_manager_descriptor _ c2).
Qed.

Lemma worker_run_total context web_address server_addr attempts : forall l1 s1 c1 l2 s2 c2 l3 s3 l4, attempts = l1 ++ (s1, Answered) :: l2 ++ (s2, Answered) :: l3 ++ (s3, Answered) :: l4 ->
     ws_store s1 = Some c1 -> ws_store s2 = Some c2 -> cm_status (coordinator_manager c2) = Registered ->
     is_Some (worker_run files wc context web_address server_addr attempts).
Proof.
  unfold worker_run, get_cluster_descriptor, loader_get_dag_metadata, waiting_all_task_manager_fine.
  intros l1 s1 c1 l2 s2 c2 l3 s3 l4 -> H1 H2 Hreg. destruct (load_cluster_total l1 s1 c1 (l2 ++ (s2, Answered) :: l3 ++ (s3, Answered) :: l4) H1) as (r1 & rest1 & E1 & [k Hk]).
  rewrite E1. destruct (load_cluster_sound _ _ _ E1) as (c & -> & _). cbn [mbind option_bind res_bind].
  destruct (waiting_total (length rest1) rest1 (k ++ l2) s2 c2 (l3 ++ (s3, Answered) :: l4) (mkMetadataLoader (Some c) None)) as (r2 & rest2 & E2 & [k2 ->]); [by rewrite Hk, <- app_assoc|done|done|done|].
  cbn [ml_dag_metadata_cache MetadataLoader_new]. rewrite E2. destruct (waiting_sound _ _ _ _ _ E2) as (c3 & ml3 & -> & _). cbn [mbind option_bind]. rewrite (app_assoc k2 l3). destruct (load_dag_total (k2 ++ l3) s3 l4) as [[r3 rest3] ->]. by eexists.
Qed.

(** C11: What a worker starts from, whatever the coordinator is like at its requests and
    however they fare. When [run] gets to its tasks, they are those of its own entry, with
    the descriptor the coordinator had in its store, with status registered, at one of the
    requests it answered, and with the graphs of the coordinator; a worker that has no
    entry panics, and nothing else can go wrong. It does get there once the coordinator
    has answered with a descriptor, later with a registered one, and later once more; what
    happens to the other requests does not matter. *)
Theorem worker_starts context web_address server_addr attempts :
  (forall r, worker_run files wc context web_address server_addr attempts = Some r ->
     exists c, descriptor_in attempts c /\ cm_status (coordinator_manager c) = Registered /\
     r = match get_worker_manager_descriptor (nc_task_manager_id context) c with
         | Some w => Ok (startup_items web_address server_addr (nc_metric_addr context), wm_task_descriptors w, c, wc_dag_metadata wc)
         | None => Panic "called `Option::unwrap()` on a `None` value"
         end) /\
  (forall l1 s1 c1 l2 s2 c2 l3 s3 l4, attempts = l1 ++ (s1, Answered) :: l2 ++ (s2, Answered) :: l3 ++ (s3, Answered) :: l4 ->
     ws_store s1 = Some c1 -> ws_store s2 = Some c2 -> cm_status (coordinator_manager c2) = Registered ->
     is_Some (worker_run files wc context web_address server_addr attempts)).
Proof. split; [apply worker_run_sound|apply worker_run_total]. Qed.

(** ** The requests are the steps of Cluster *)

(** Only two requests change anything. *)
Lemma route_store now req s : ~ (rq_method req = POST /\ rq_path req = "/api/heartbeat") -> ws_store (route now files wc req s).1 = ws_store s.
Proof.
  intros Hn. unfold route. case_match; [|by destruct (rq_method req)]. destruct (rq_method req); [done| |done]. case_decide; [tauto|]. case_decide; [|done].
  unfold checkpoint. destruct (let* _ := _ in _); [|done..]. by destruct (cm_apply _ _).
Qed.

Lemma route_checkpoints now req s : ~ (rq_method req = POST /\ rq_path req = "/api/checkpoint") -> ws_checkpoints (route now files wc req s).1 = ws_checkpoints s.
Proof.
  intros Hn. unfold route. case_match; [|by destruct (rq_method req)]. destruct (rq_method req); [done| |done]. case_decide; [|case_decide; [tauto|done]].
  unfold heartbeat. destruct (let* _ := _ in _); [|done..]. by destruct (update_worker_status _ _ _ _).
Qed.

(** A heartbeat as the server takes it. *)
Lemma route_heartbeat now req s : route now files wc (mkRequest POST "/api/heartbeat" (Ok (json_to_string req))) s =
  let u := update_worker_status now (ws_store s) (hr_task_manager_id req) (hr_change_items req) Registered in
  (mkWebState _ u.1 (ws_checkpoints s) (ws_threads s), let* resp := result_into_response u.2 in as_ok_json (json_to_string resp)).
Proof. unfold route, heartbeat. cbn. rewrite json_from_to. by destruct (update_worker_status _ _ _ _ _). Qed.

Lemma route_checkpoint now ck s : (route now files wc (mkRequest POST "/api/checkpoint" (Ok (json_to_string ck))) s).1 = mkWebState _ (ws_store s) (cm_apply (ws_checkpoints s) ck).1 (ws_threads s).
Proof. unfold route, checkpoint. cbn. rewrite json_from_to. by destruct (cm_apply _ _). Qed.

Lemma update_no_panic now st id items p : (update_worker_status now st id items Registered).2 <> Panic p.
Proof. unfold update_worker_status. destruct st as [c|]; [|done]. by destruct (update_first _ _ _). Qed.

(** A heartbeat through its request: what the server does, and what the worker learns. *)
Lemma report_heartbeat_eq now f id is_panic items status s :
  let u := update_worker_status now (ws_store s) id (report_items is_panic items) Registered in
  report_heartbeat now files wc f id is_panic items status s =
    match f with
    | NotArrived => (s, status)
    | AnswerLost => (mkWebState _ u.1 (ws_checkpoints s) (ws_threads s), status)
    | Answered => (mkWebState _ u.1 (ws_checkpoints s) (ws_threads s), match u.2 with Ok st => st | _ => status end)
    end.
Proof.
  cbn zeta. unfold report_heartbeat, http_post, send. destruct f; [done|..]; rewrite route_heartbeat; cbn [hr_task_manager_id hr_change_items]; [done|].
  pose proof (update_no_panic now (ws_store s) id (report_items is_panic items)) as Hp. destruct (update_worker_status _ _ _ _ _) as [st' [r|e|p]]; cbn in *; [by rewrite json_from_to|by rewrite json_from_to|by destruct (Hp p)].
Qed.

(** C10: The web interface implements the steps the run of a cluster is made of. Over a
    coordinator whose store is that of the cluster: a heartbeat of a worker, through JSON,
    the route and the handler, and however the connection fares, is a step of the cluster
    after which the worker has the status it was told; a descriptor a worker loads with
    status registered is its step to start; a reported checkpoint gets to the checkpoint
    manager exactly when the request arrives; and no other request of anybody changes the
    store or the checkpoints. *)
Theorem requests_refine_run s cl : ws_store s = cl_store cl ->
  (forall id p f, cl_procs cl !! id = Some p ->
     let '(s', status) := report_heartbeat (cl_now cl) files wc f id (wp_panic p) (wp_channel p) (wp_coordinator_status p) s in
     ws_checkpoints s' = ws_checkpoints s /\ exists beats,
     step cl (mkClusterState (cl_now cl) (ws_store s') (cl_phase cl) (<[id := mkProc [] (wp_started p) (wp_panic p) status]> (cl_procs cl)) beats (cl_ended cl))) /\
  (forall id p f c rest, cl_procs cl !! id = Some p -> load_loop files wc "/api/cluster_metadata" [(s, f)] = Some (Ok c, rest) -> cm_status (coordinator_manager c) = Registered ->
     step cl (mkClusterState (cl_now cl) (cl_store cl) (cl_phase cl) (<[id := mkProc (wp_channel p) true (wp_panic p) (wp_coordinator_status p)]> (cl_procs cl)) (cl_beats cl) (cl_ended cl))) /\
  (forall f ck, report_checkpoint (cl_now cl) files wc f ck s = match f with NotArrived => s | _ => mkWebState _ (ws_store s) (cm_apply (ws_checkpoints s) ck).1 (ws_threads s) end) /\
  (forall req, (rq_method req = POST /\ rq_path req = "/api/heartbeat" \/ ws_store (route (cl_now cl) files wc req s).1 = ws_store s) /\
     (rq_method req = POST /\ rq_path req = "/api/checkpoint" \/ ws_checkpoints (route (cl_now cl) files wc req s).1 = ws_checkpoints s)).
Proof.
  destruct cl as [now st ph ps bs es]. cbn [cl_store cl_now cl_procs cl_phase cl_beats cl_ended]. intros Hst. split_and!.
  - intros id p f Hp. pose proof (report_heartbeat_eq now f id (wp_panic p) (wp_channel p) (wp_coordinator_status p) s) as Hr. cbn zeta in Hr. rewrite Hr, Hst. clear Hr.
    destruct (update_worker_status now st id (report_items (wp_panic p) (wp_channel p)) Registered) as [st' r] eqn:Eu. destruct f; (split; [done|]); cbn [fst snd ws_store].
    + exists bs. rewrite Hst. by apply step_beat_lost.
    + exists (handled id now r ++ bs). pose proof (step_beat now st ph ps bs es id p st' r false Hp Eu) as H. by destruct r.
    + exists (handled id now r ++ bs). exact (step_beat now st ph ps bs es id p st' r true Hp Eu).
  - intros id p f c rest Hp Hl Hreg. destruct (load_cluster_sound _ _ _ Hl) as (c' & [= <-] & (s' & Hin & Hs) & _).
    apply list_elem_of_singleton in Hin. injection Hin as -> _. assert (st = Some c) as -> by congruence. by apply step_poll.
  - intros f ck. unfold report_checkpoint, http_post, send. pose proof (route_checkpoint now ck s) as H. destruct f; [done|..]; destruct (route now files wc _ s); exact H.
  - intros req. assert (rq_method req = POST \/ rq_method req <> POST) as [Hm|Hm] by (destruct (rq_method req); [by right|by left|by right]).
    + split; [destruct (decide (rq_path req = "/api/heartbeat"))|destruct (decide (rq_path req = "/api/checkpoint"))]; try tauto; right; [apply route_store|apply route_checkpoints]; tauto.
    + split; right; [apply route_store|apply route_checkpoints]; tauto.
Qed.
End coordinator_server.

(** ** Binding the server *)

(** [serve_with_rand_port] with the ports it draws, and [web_launch], which waits for the
    address: the first port that can be bound is served; without one the wait panics. *)
Definition serve_with_rand_port (binds : Z -> bool) (ports : list Z) : option Z := List.find binds (take 30 ports).

Definition web_launch (binds : Z -> bool) (ports : list Z) (bind_ip : string) : res string string :=
  match serve_with_rand_port binds ports with
  | Some port => Ok ("http://" +:+ bind_ip +:+ ":" +:+ pretty port)
  | None => Panic "called `Result::unwrap()` on an `Err` value: RecvError"
  end.

(** ** The workers' server *)

(** The flags [ENABLE_LOG] of the network's client and server, and the threads. *)
Record WorkerWeb := mkWorkerWeb { ww_client_log : bool; ww_server_log : bool; ww_threads : gmap ThreadInfo unit }.

Section worker_server.
Context {HO : HashOrder} {TT : Serialize (StdResponse (list ThreadInfo))} {TB : Serialize (StdResponse bool)}.

Definition log_answer (b : bool) : res string Response := as_ok_json (to_json (StdResponse_ok (Some b))).

Definition worker_route (files : string -> option string) (dashboard_path : string) (req : Request) (w : WorkerWeb) : WorkerWeb * res string Response :=
  let path := rq_path req in
  if String.prefix "/api/" path then
    match rq_method req with
    | GET =>
        if decide (path = "/api/threads") then (w, as_ok_json (to_json (StdResponse_ok (Some (get_thread_infos (ww_threads w))))))
        else if decide (path = "/api/client/log/enable") then (mkWorkerWeb true (ww_server_log w) (ww_threads w), log_answer true)
        else if decide (path = "/api/client/log/disable") then (mkWorkerWeb false (ww_server_log w) (ww_threads w), log_answer false)
        else if decide (path = "/api/server/log/enable") then (mkWorkerWeb (ww_client_log w) true (ww_threads w), log_answer true)
        else if decide (path = "/api/server/log/disable") then (mkWorkerWeb (ww_client_log w) false (ww_threads w), log_answer false)
        else (w, page_not_found)
    | _ => (w, page_not_found)
    end
  else match rq_method req with GET => (w, static_file files dashboard_path req) | _ => (w, page_not_found) end.
End worker_server.

#[local] Instance name_le_total : Total name_le.
Proof.
  intros x y. apply String.leb_total.
Qed.

(** The listing has every thread once, by name. *)
Lemma thread_infos_listed `{HashOrder} infos : Sorted name_le (get_thread_infos infos) /\ NoDup (get_thread_infos infos) /\ forall t, t ∈ get_thread_infos infos <-> is_Some (infos !! t).
Proof.
  unfold get_thread_infos. split_and!.
  - apply (Sorted_merge_sort name_le).
  - rewrite merge_sort_Permutation. apply NoDup_hiter_fst.
  - intros t. rewrite merge_sort_Permutation. apply elem_of_hiter_keys.
Qed.

(** A path with two slashes at its front is read from the root, whatever the directory of
    the dashboard is. *)
Lemma static_file_escapes files dashboard_path rest ext body : ext_of rest = Some ext ->
  static_file files dashboard_path (mkRequest GET (String "/" (String "/" rest)) body) =
    match files (String "/" rest) with Some context => Ok (mkResponse 200 (Some (content_type ext)) context) | None => page_not_found end.
Proof.
  intros He. unfold static_file. cbn [rq_path]. rewrite decide_False by naive_solver. cbn [String.length Nat.sub String.substring].
  assert (forall s, String.substring 0 (String.length s) s = s) as Hsub by (induction s as [|a s IH]; cbn; congruence). rewrite Hsub. cbn [ext_of path_join]. by rewrite He.
Qed.

(** ** Examples *)

(** JSON as a coding by numbers: what is exchanged is countable. *)
Section countable_types.
#[local] Ltac coded f g := apply (inj_countable' f g); by intros [].

#[local] Instance ManagerStatus_countable : Countable ManagerStatus.
Proof.
  coded (fun s => match s with Pending => 0 | Registered => 1 | Migration => 2 | Terminating => 3 | Terminated => 4 end)
    (fun n => if n =? 0 then Pending else if n =? 1 then Registered else if n =? 2 then Migration else if n =? 3 then Terminating else Terminated)%Z.
Defined.
#[local] Instance HeartBeatStatus_eq_dec : EqDecision HeartBeatStatus.
Proof. solve_decision. Defined.
#[local] Instance HeartBeatStatus_countable : Countable HeartBeatStatus.
Proof. coded (fun s => match s with HB_Ok => 0 | HB_Panic => 1 | HB_End => 2 end) (fun n => if n =? 0 then HB_Ok else if n =? 1 then HB_Panic else HB_End)%Z. Defined.
#[local] Instance CheckpointHandle_countable : Countable CheckpointHandle.
Proof. coded handle mkHandle. Defined.
#[local] Instance Checkpoint_countable : Countable Checkpoint.
Proof. coded (fun c => (ck_operator_id c, ck_task_id c, ck_checkpoint_id c, ck_completed_checkpoint_id c, ck_handle c)) (fun '(o, t, i, k, h) => mkCheckpoint o t i k h). Defined.
#[local] Instance OperatorDescriptor_eq_dec : EqDecision OperatorDescriptor.
Proof. solve_decision. Defined.
#[local] Instance OperatorDescriptor_countable : Countable OperatorDescriptor.
Proof. coded (fun o => (od_operator_id o, od_checkpoint_id o, od_completed_checkpoint_id o, od_checkpoint_handle o)) (fun '(o, i, k, h) => mkOperatorDescriptor o i k h). Defined.
#[local] Instance Properties_eq_dec : EqDecision Properties.
Proof. solve_decision. Defined.
#[local] Instance Properties_countable : Countable Properties.
Proof. coded (fun p => (Properties.p_name p, Properties.p_map p)) (fun '(n, m) => Properties.mkProperties n m). Defined.
#[local] Instance InputSplit_eq_dec : EqDecision InputSplit.
Proof. solve_decision. Defined.
#[local] Instance InputSplit_countable : Countable InputSplit.
Proof. coded (fun i => (split_number i, split_properties i)) (fun '(n, p) => mkInputSplit n p). Defined.
#[local] Instance TaskDescriptor_eq_dec : EqDecision TaskDescriptor.
Proof. solve_decision. Defined.
#[local] Instance TaskDescriptor_countable : Countable TaskDescriptor.
Proof. coded (fun t => (td_task_id t, td_operators t, td_input_split t, td_daemon t, td_thread_id t, td_terminated t)) (fun '(i, o, s, d, h, e) => mkTaskDescriptor i o s d h e). Defined.
#[local] Instance WorkerManagerDescriptor_eq_dec : EqDecision WorkerManagerDescriptor.
Proof. solve_decision. Defined.
#[local] Instance WorkerManagerDescriptor_countable : Countable WorkerManagerDescriptor.
Proof.
  coded (fun w => (wm_status w, wm_latest_heart_beat_ts w, wm_latest_heart_beat_status w, wm_task_manager_id w, wm_task_manager_address w, wm_metrics_address w, wm_web_address w, wm_task_descriptors w))
    (fun '(s, t, h, i, a, m, w, l) => mkWorker s t h i a m w l).
Defined.
#[local] Instance CoordinatorManagerDescriptor_eq_dec : EqDecision CoordinatorManagerDescriptor.
Proof. solve_decision. Defined.
#[local] Instance CoordinatorManagerDescriptor_countable : Countable CoordinatorManagerDescriptor.
Proof.
  coded (fun c => (cm_version c, cm_application_id c, cm_application_properties c, cm_web_address c, cm_metrics_address c, cm_status c, cm_v_cores c, cm_memory_mb c, cm_num_task_managers c, cm_uptime c, cm_startup_number c))
    (fun '(v, a, p, w, m, s, c, b, n, u, k) => mkCoordinator v a p w m s c b n u k).
Defined.
#[local] Instance ClusterDescriptor_eq_dec : EqDecision ClusterDescriptor.
Proof. solve_decision. Defined.
#[local] Instance ClusterDescriptor_countable : Countable ClusterDescriptor.
Proof. coded (fun c => (coordinator_manager c, worker_managers c)) (fun '(c, w) => mkCluster c w). Defined.
#[local] Instance HeartbeatItem_eq_dec : EqDecision HeartbeatItem.
Proof. solve_decision. Defined.
#[local] Instance HeartbeatItem_countable : Countable HeartbeatItem.
Proof.
  coded (fun i => match i with
      | WorkerManagerAddress a => inl (inl a) | WorkerManagerWebAddress a => inl (inr (inl a)) | MetricsAddress a => inl (inr (inr a))
      | HeartBeatStatusItem s => inr (inl s) | TaskThreadId t h => inr (inr (inl (t, h))) | TaskEnd t => inr (inr (inr t)) end)
    (fun x => match x with
      | inl (inl a) => WorkerManagerAddress a | inl (inr (inl a)) => WorkerManagerWebAddress a | inl (inr (inr a)) => MetricsAddress a
      | inr (inl s) => HeartBeatStatusItem s | inr (inr (inl (t, h))) => TaskThreadId t h | inr (inr (inr t)) => TaskEnd t end).
Defined.
#[local] Instance HeartbeatRequest_eq_dec : EqDecision HeartbeatRequest.
Proof. solve_decision. Defined.
#[local] Instance HeartbeatRequest_countable : Countable HeartbeatRequest.
Proof. coded (fun r => (hr_task_manager_id r, hr_change_items r)) (fun '(i, l) => mkHeartbeatRequest i l). Defined.
#[local] Instance ResponseCode_eq_dec : EqDecision ResponseCode.
Proof. solve_decision. Defined.
#[local] Instance ResponseCode_countable : Countable ResponseCode.
Proof. coded (fun c => match c with RC_OK => None | RC_ERR m => Some m end) (fun o => match o with None => RC_OK | Some m => RC_ERR m end). Defined.
#[local] Instance StdResponse_eq_dec {T} `{EqDecision T} : EqDecision (StdResponse T).
Proof. solve_decision. Defined.
#[local] Instance StdResponse_countable {T} `{Countable T} : Countable (StdResponse T).
Proof. coded (fun r : StdResponse T => (sr_code r, sr_data r)) (fun '(c, d) => mkStdResponse (T := T) c d). Defined.

#[local] Instance DataType_countable : Countable DataType.
Proof.
  set (types := [DT_Boolean; DT_Int8; DT_UInt8; DT_Int16; DT_UInt16; DT_Int32; DT_UInt32; DT_Int64; DT_UInt64; DT_Float32; DT_Float64; DT_Binary; DT_String]).
  coded (fun t => default 0%nat (fst <$> list_find (eq t) types)) (fun n => default DT_Boolean (types !! n)).
Defined.
#[local] Instance Field_eq_dec : EqDecision Field.
Proof. solve_decision. Defined.
#[local] Instance Field_countable : Countable Field.
Proof. coded (fun f => (f_name f, f_data_type f, f_len f, f_type_id f)) (fun '(n, d, l, i) => mkField n d l i). Defined.
#[local] Instance Schema_eq_dec : EqDecision Schema.
Proof. solve_decision. Defined.
#[local] Instance Schema_countable : Countable Schema.
Proof. coded (fun s => (fields s, type_ids s)) (fun '(f, t) => mkSchema f t). Defined.
#[local] Instance FnSchema_eq_dec : EqDecision FnSchema.
Proof. solve_decision. Defined.
#[local] Instance FnSchema_countable : Countable FnSchema.
Proof.
  coded (fun s => match s with FnSchema_Empty => None | FnSchema_Single a => Some (inl a) | FnSchema_Tuple a b => Some (inr (a, b)) end)
    (fun o => match o with None => FnSchema_Empty | Some (inl a) => FnSchema_Single a | Some (inr (a, b)) => FnSchema_Tuple a b end).
Defined.
#[local] Instance OperatorType_countable : Countable OperatorType.
Proof.
  set (types := [OT_Source; OT_FlatMap; OT_Filter; OT_CoProcess; OT_KeyBy; OT_Reduce; OT_WatermarkAssigner; OT_WindowAssigner; OT_Sink]).
  coded (fun t => default 0%nat (fst <$> list_find (eq t) types)) (fun n => default OT_Source (types !! n)).
Defined.
#[local] Instance FunctionCreator_eq_dec : EqDecision FunctionCreator.
Proof. solve_decision. Defined.
#[local] Instance FunctionCreator_countable : Countable FunctionCreator.
Proof. coded (fun c => match c with System => true | User => false end) (fun b : bool => if b then System else User). Defined.
#[local] Instance StreamNode_eq_dec : EqDecision StreamNode.
Proof. solve_decision. Defined.
#[local] Instance StreamNode_countable : Countable StreamNode.
Proof.
  coded (fun n => (sn_id n, sn_parent_ids n, sn_parallelism n, sn_input_schema n, sn_output_schema n, sn_daemon n, sn_operator_name n, sn_operator_type n, sn_fn_creator n))
    (fun '(i, ps, p, a, b, d, o, t, c) => mkStreamNode i ps p a b d o t c).
Defined.
#[local] Instance StreamEdge_eq_dec : EqDecision StreamEdge.
Proof. solve_decision. Defined.
#[local] Instance StreamEdge_countable : Countable StreamEdge.
Proof. coded (fun e => (se_edge_id e, se_source_id e, se_target_id e)) (fun '(i, a, b) => mkStreamEdge i a b). Defined.
#[local] Instance JobNode_eq_dec : EqDecision JobNode.
Proof. solve_decision. Defined.
#[local] Instance JobNode_countable : Countable JobNode.
Proof. coded (fun j => (jn_job_id j, jn_parallelism j, jn_stream_nodes j, jn_child_job_ids j, jn_parent_job_ids j)) (fun '(i, p, n, a, b) => mkJobNode i p n a b). Defined.
#[local] Instance JobEdge_countable : Countable JobEdge.
Proof. coded (fun e => match e with Forward => true | ReBalance => false end) (fun b : bool => if b then Forward else ReBalance). Defined.
#[local] Instance ExecutionNode_eq_dec : EqDecision ExecutionNode.
Proof. solve_decision. Defined.
#[local] Instance ExecutionNode_countable : Countable ExecutionNode.
Proof. coded (fun n => (en_task_id n, en_stream_nodes n, en_input_split n, en_daemon n)) (fun '(t, n, i, d) => mkExecutionNode t n i d). Defined.
#[local] Instance ExecutionEdge_countable : Countable ExecutionEdge.
Proof. coded (fun e => match e with EE_Memory => true | EE_Network => false end) (fun b : bool => if b then EE_Memory else EE_Network). Defined.
#[local] Instance JsonNode_eq_dec {N} `{EqDecision N} : EqDecision (JsonNode N).
Proof. solve_decision. Defined.
#[local] Instance JsonNode_countable {N} `{Countable N} : Countable (JsonNode N).
Proof. coded (fun n : JsonNode N => (jd_id n, jd_detail n)) (fun '(i, d) => mkJsonNode (N := N) i d). Defined.
#[local] Instance JsonEdge_eq_dec {E} `{EqDecision E} : EqDecision (JsonEdge E).
Proof. solve_decision. Defined.
#[local] Instance JsonEdge_countable {E} `{Countable E} : Countable (JsonEdge E).
Proof. coded (fun e : JsonEdge E => (je_source e, je_target e, je_detail e)) (fun '(a, b, d) => mkJsonEdge (E := E) a b d). Defined.
#[local] Instance JsonDag_eq_dec {N E} `{EqDecision N, EqDecision E} : EqDecision (JsonDag N E).
Proof. solve_decision. Defined.
#[local] Instance JsonDag_countable {N E} `{Countable N, Countable E} : Countable (JsonDag N E).
Proof. coded (fun d : JsonDag N E => (jd_nodes d, jd_edges d)) (fun '(n, e) => mkJsonDag (N := N) (E := E) n e). Defined.
#[local] Instance DagMetadata_eq_dec : EqDecision DagMetadata.
Proof. solve_decision. Defined.
#[local] Instance DagMetadata_countable : Countable DagMetadata.
Proof. coded (fun d => (md_stream_graph d, md_job_graph d, md_execution_graph d)) (fun '(s, j, e) => mkDagMetadata s j e). Defined.

Definition ex_dag_json : SerdeJson (StdResponse DagMetadata) := bits_json.
Definition ex_request_json : SerdeJson HeartbeatRequest := bits_json.
Definition ex_checkpoint_json : SerdeJson Checkpoint := bits_json.
Definition ex_cluster_json : SerdeJson (StdResponse ClusterDescriptor) := bits_json.
Definition ex_status_json : SerdeJson (StdResponse ManagerStatus) := bits_json.
Definition ex_string_json : SerdeJson (StdResponse string) := bits_json.
End countable_types.

Section evaluated.
#[local] Existing Instances id_order memory_checkpoint_storage ex_request_json ex_checkpoint_json ex_cluster_json ex_status_json ex_string_json ex_dag_json.
#[local] Instance ex_serialize {A} : Serialize A := fun _ => "{}".

Definition ex_context : NodeContext :=
  mkNodeContext "app" "worker_manager_1" "10.0.0.1" Standalone 0 Worker (mkClusterConfig [] MetadataStorageType_Memory "10.0.0.1" "/data") "10.0.0.1:9000" "http://10.0.0.9:12000" "/rlink/dashboard" "" "" 0 0 "" "".

Definition ex_web : WebContext := mkWebContext ex_context (mkDagMetadata (mkJsonDag [] []) (mkJsonDag [] []) (mkJsonDag [] [])).

Definition ex_web_state (store : MetadataStore) : WebState (S := MemoryCheckpointStorage) := mkWebState _ store (mkCheckpointManager (cam_new "app" "id" 1000 [] None) []) ∅.

Definition ex_files (path : string) : option string := if decide (path = "/etc/app.conf") then Some "secret" else None.

Definition ex_registered : ClusterDescriptor := set_coordinator_status Registered ex_cluster.

(** The first request does not arrive, the next two find a cluster that waits. *)
Definition ex_attempts : list (WebState (S := MemoryCheckpointStorage) * Fate) :=
  let waits := ex_web_state (Some ex_cluster) in let runs := ex_web_state (Some ex_registered) in
  [(waits, NotArrived); (waits, Answered); (waits, Answered); (runs, AnswerLost); (runs, Answered); (runs, Answered)].

Lemma worker_starts_witness :
  worker_run ex_files ex_web ex_context "http://10.0.0.1:15000" "10.0.0.1:16000" ex_attempts =
    Some (Ok (startup_items "http://10.0.0.1:15000" "10.0.0.1:16000" "10.0.0.1:9000", [ex_task 1], ex_registered, wc_dag_metadata ex_web)).
Proof.
  destruct (worker_starts ex_files ex_web ex_context "http://10.0.0.1:15000" "10.0.0.1:16000" ex_attempts) as [Hs Ht].
  destruct (Ht [(ex_web_state (Some ex_cluster), NotArrived)] (ex_web_state (Some ex_cluster)) ex_cluster
    [(ex_web_state (Some ex_cluster), Answered); (ex_web_state (Some ex_registered), AnswerLost)] (ex_web_state (Some ex_registered)) ex_registered [] (ex_web_state (Some ex_registered)) [] eq_refl eq_refl eq_refl eq_refl) as [r Hr].
  destruct (Hs r Hr) as (c & (s & Hin & Hc) & Hreg & ->). rewrite Hr.
  assert (c = ex_registered) as ->; [|reflexivity].
  unfold ex_attempts in Hin. cbn zeta in Hin. repeat (apply elem_of_cons in Hin as [Heq|Hin]; [first [discriminate Heq|injection Heq as ->; injection Hc as <-; first [reflexivity|discriminate Hreg]]|]).
  exfalso. exact (not_elem_of_nil _ Hin).
Defined.

Lemma requests_refine_run_witness : exists s' status beats,
  report_heartbeat 0 ex_files ex_web Answered "worker_manager_1" false [] Pending (ex_web_state (Some ex_cluster)) = (s', status) /\
  step ex_init (mkClusterState 0 (ws_store s') Waiting (<["worker_manager_1" := mkProc [] false false status]> (cl_procs ex_init)) beats []).
Proof.
  destruct (requests_refine_run ex_files ex_web (ex_web_state (Some ex_cluster)) ex_init eq_refl) as [H _].
  specialize (H "worker_manager_1" proc_new Answered eq_refl).
  change (report_heartbeat (cl_now ex_init) ex_files ex_web Answered "worker_manager_1" (wp_panic proc_new) (wp_channel proc_new) (wp_coordinator_status proc_new) (ex_web_state (Some ex_cluster)))
    with (report_heartbeat 0 ex_files ex_web Answered "worker_manager_1" false [] Pending (ex_web_state (Some ex_cluster))) in H.
  destruct (report_heartbeat 0 ex_files ex_web Answered "worker_manager_1" false [] Pending (ex_web_state (Some ex_cluster))) as [s' status].
  destruct H as [_ [beats H]]. exists s', status, beats. split; [reflexivity|exact H].
Defined.

(** A request for a file outside the dashboard. *)
Example ex_escape : (route 0 ex_files ex_web (mkRequest GET "//etc/app.conf" (Ok "")) (ex_web_state None)).2 = Ok (mkResponse 200 (Some "") "secret").
Proof. reflexivity. Qed.

(** Before the descriptor is saved the handler panics and the client gets no answer. *)
Example ex_no_descriptor : (http_get 0 ex_files ex_web Answered "/api/cluster_metadata" (ex_web_state None)).2 = Err "connection closed before message completed".
Proof. reflexivity. Qed.
End evaluated.
