(* ===== verification/NetworkClient.v ===== *)
(** * NetworkClient: subscriptions over connections that fail

    The threads of src/rlink/src/pub_sub/network/client.rs around the pull loop of Network:
    [subscribe_listen], which starts a client for every subscription, and
    [loop_client_task], which connects again when a connection fails. A run of a client is
    a list of events: what the publisher pushes, connections that succeed or not, and turns
    of the pull loop, each with the way it ends. The theorem says what the child task gets
    in every such run. *)
From Stdlib Require Import ZArith Lia.
From stdpp Require Import base strings numbers option sets gmap list.
From S2P Require Import Prelude Bytes Runtime Window Element Network.

#[local] Open Scope Z_scope.

(** ** The clients *)

(** How a turn of [Client::send] ends: it completes; the request cannot be written; the
    answer does not come, or not within the timeout; or the input channel is found
    disconnected after some elements. *)
Inductive TurnEnd : Type := Completed | NotSent | NoAnswer | InputClosed (delivered : nat).

Section client.
Context {BA : BytesApi} {SB : SerBuffer} {FR : FrameRead}.
(** [terminated]: what [get_coordinator_status] says after an error. *)
Inductive ClientEvent : Type :=
  | Pushed (e : Element)
  | Connect (connected terminated : bool)
  | Turn (o : TurnEnd) (terminated : bool).

(** The client and the channels of the server; [cl_connected] is a [Client] that exists,
    [cl_stopped] the end of [loop_client_task]. *)
Record ClientState := mkClientState { cl_pull : PullState; cl_connected : bool; cl_stopped : bool }.

Context (channel_key : ChannelKey) (batch_pull_size : Z).

(** The turn up to the answer, and what is done with it. *)
Definition client_turn (o : TurnEnd) (st : PullState) : PullState * res string unit :=
  match o with
  | NotSent => (mkPull (ps_channels st) (wrap_u 16 (ps_batch_id st + 1)) (ps_input st), Err "connection reset")
  | Completed => pull_round channel_key batch_pull_size st
  | NoAnswer => let '(st', _) := pull_round channel_key batch_pull_size st in (mkPull (ps_channels st') (ps_batch_id st') (ps_input st), Err "deadline has elapsed")
  | InputClosed n =>
      let '(st', r) := pull_round channel_key batch_pull_size st in
      match r with
      | Ok _ => (mkPull (ps_channels st') (ps_batch_id st') (take (length (ps_input st) + n) (ps_input st')), Err "client network send to input channel Disconnected")
      | _ => (st', r)
      end
  end.

(** After an error the connection is closed; the loop ends when the run has terminated. *)
Definition after_error (terminated : bool) (st : PullState) : ClientState := mkClientState st false terminated.

Definition client_event (c : ClientState) (ev : ClientEvent) : ClientState :=
  let st := cl_pull c in
  match ev with
  | Pushed e =>
      match ps_channels st !! channel_key with
      | Some q => mkClientState (mkPull (<[channel_key := q ++ [e]]> (ps_channels st)) (ps_batch_id st) (ps_input st)) (cl_connected c) (cl_stopped c)
      | None => c
      end
  | Connect connected terminated =>
      if cl_stopped c || cl_connected c then c
      else if connected then mkClientState (mkPull (ps_channels st) 0 (ps_input st)) true false
      else after_error terminated st
  | Turn o terminated =>
      if cl_stopped c || negb (cl_connected c) then c
      else match client_turn o st with
           | (st, Ok _) => mkClientState st true false
           | (st, _) => after_error terminated st
           end
  end.

(** ** What the child task gets *)
Definition pushed (evs : list ClientEvent) : list Element := omap (fun ev => match ev with Pushed e => Some e | _ => None end) evs.

Definition failures (evs : list ClientEvent) : nat := length (List.filter (fun ev => match ev with Turn Completed _ | Pushed _ | Connect _ _ => false | _ => true end) evs).

(** A published channel without elements, and a client that has not connected. *)
Definition client_start (chs : gmap ChannelKey (list Element)) : ClientState := mkClientState (mkPull chs 0 []) false false.

(** [taken]: what the server has taken from the queue; [l]: what of it has been delivered. *)
Definition client_inv (evs : list ClientEvent) (c : ClientState) : Prop :=
  in_u 16 (ps_batch_id (cl_pull c)) /\ exists taken rest l, pushed evs = taken ++ rest /\ ps_channels (cl_pull c) !! channel_key = Some rest /\
    l `sublist_of` taken /\ Forall2 (received channel_key) l (ps_input (cl_pull c)) /\ (length taken <= length l + failures evs * Z.to_nat batch_pull_size)%nat.

Context (Hkey : ChannelKey_wf channel_key) (Hsize : 0 <= batch_pull_size < U16_MAX).
Abbreviation n := (Z.to_nat batch_pull_size).

Lemma pushed_snoc evs ev : pushed (evs ++ [ev]) = pushed evs ++ pushed [ev].
Proof. apply omap_app. Qed.

Lemma failures_snoc evs ev : failures (evs ++ [ev]) = (failures evs + failures [ev])%nat.
Proof. unfold failures. by rewrite List.filter_app, length_app. Qed.

(** A turn, over the queue it finds. *)
Lemma client_turn_spec o st q : in_u 16 (ps_batch_id st) -> ps_channels st !! channel_key = Some q -> Forall deliverable q ->
  exists st' r k j els, client_turn o st = (st', r) /\ in_u 16 (ps_batch_id st') /\ ps_channels st' !! channel_key = Some (drop k q) /\
    ps_input st' = ps_input st ++ els /\ Forall2 (received channel_key) (take j (take k q)) els /\
    (length (take k q) <= j + failures [Turn o false] * n)%nat /\ is_ok r = match o with Completed => true | _ => false end.
Proof.
  intros Hb Hq Hd. destruct (pull_round_eq channel_key batch_pull_size st q Hkey Hsize Hb) as (els & H2 & He); [by rewrite Hq|done|]. rewrite decide_True in He by by rewrite Hq.
  assert (in_u 16 (wrap_u 16 (ps_batch_id st + 1))) as Hw by (apply wrap_u_range; lia). pose proof (Forall2_length _ _ _ H2) as Hlen.
  unfold client_turn. destruct o as [| | |d]; rewrite ?He; cbn [ps_channels ps_batch_id ps_input].
  - exists (mkPull (<[channel_key := drop n q]> (ps_channels st)) (wrap_u 16 (ps_batch_id st + 1)) (ps_input st ++ els)), (Ok tt), n, n, els.
    cbn [ps_channels ps_batch_id ps_input]. split_and!; try done; [by rewrite lookup_insert_eq|by rewrite take_idemp|rewrite length_take; lia].
  - eexists _, _, 0%nat, 0%nat, []. split; [done|]. cbn [ps_channels ps_batch_id ps_input]. split_and!; try done; [by rewrite app_nil_r|rewrite take_0; cbn [length]; lia].
  - eexists _, _, n, 0%nat, []. split; [done|]. cbn [ps_channels ps_batch_id ps_input]. split_and!; try done; [by rewrite lookup_insert_eq|by rewrite app_nil_r|rewrite length_take; cbn; lia].
  - eexists _, _, n, d, (take d els). split; [done|]. cbn [ps_channels ps_batch_id ps_input].
    split_and!; try done; [by rewrite lookup_insert_eq|by rewrite take_app_add|by apply Forall2_take|rewrite length_take; cbn; lia].
Qed.

Lemma client_inv_step evs c ev : Forall deliverable (pushed (evs ++ [ev])) -> client_inv evs c -> client_inv (evs ++ [ev]) (client_event c ev).
Proof.
  intros Hd (Hb & taken & rest & l & Hp & Hch & Hl & Hin & Hlen). unfold client_inv. rewrite pushed_snoc in Hd |- *. rewrite failures_snoc. apply Forall_app in Hd as [Hd _].
  assert (Forall deliverable rest) as Hrest by (rewrite Hp in Hd; by apply Forall_app in Hd as [_ ?]).
  assert (pushed [ev] = [] -> client_inv evs c -> in_u 16 (ps_batch_id (cl_pull c)) /\ exists taken rest l, pushed evs ++ pushed [ev] = taken ++ rest /\ ps_channels (cl_pull c) !! channel_key = Some rest /\
    l `sublist_of` taken /\ Forall2 (received channel_key) l (ps_input (cl_pull c)) /\ (length taken <= length l + (failures evs + failures [ev]) * n)%nat) as Hsame.
  { intros -> _. split; [done|]. exists taken, rest, l. rewrite app_nil_r. split_and!; try done. lia. }
  destruct ev as [e|connected terminated|o terminated]; cbn [client_event].
  - rewrite Hch. cbn [cl_pull ps_channels ps_batch_id ps_input]. split; [done|]. exists taken, (rest ++ [e]), l. rewrite Hp, <- app_assoc. split_and!; try done; [by rewrite lookup_insert_eq|cbn; lia].
  - destruct (cl_stopped c || cl_connected c); [apply Hsame; [done|]; split; [done|]; by exists taken, rest, l|]. destruct connected; cbn; rewrite app_nil_r.
    + split; [unfold in_u; lia|]. exists taken, rest, l. split_and!; try done. lia.
    + split; [done|]. exists taken, rest, l. split_and!; try done. lia.
  - destruct (cl_stopped c || negb (cl_connected c)); [apply Hsame; [done|]; split; [done|]; by exists taken, rest, l|].
    destruct (client_turn_spec o (cl_pull c) rest Hb Hch Hrest) as (st' & r & k & j & els & -> & Hb' & Hch' & Hin' & H2 & Hk & _). assert (failures [Turn o terminated] = failures [Turn o false]) as -> by by destruct o.
    assert (in_u 16 (ps_batch_id st') /\ exists taken rest l, pushed evs ++ pushed [Turn o terminated] = taken ++ rest /\ ps_channels st' !! channel_key = Some rest /\
      l `sublist_of` taken /\ Forall2 (received channel_key) l (ps_input st') /\ (length taken <= length l + (failures evs + failures [Turn o false]) * n)%nat) as Hdone.
    { split; [done|]. exists (taken ++ take k rest), (drop k rest), (l ++ take j (take k rest)). cbn [pushed omap list_omap]. rewrite app_nil_r, Hp, <- app_assoc, take_drop, Hin'. split_and!; try done.
      - apply sublist_app; [done|]. apply sublist_take.
      - by apply Forall2_app.
      - rewrite length_take in Hk. rewrite !length_app, !length_take. lia. }
    destruct r; exact Hdone.
Qed.

Lemma client_inv_run chs evs : chs !! channel_key = Some [] -> Forall deliverable (pushed evs) -> client_inv evs (foldl client_event (client_start chs) evs).
Proof.
  intros Hch. induction evs as [|ev evs IH] using rev_ind; intros Hd.
  - split; [cbn; unfold in_u; lia|]. exists [], [], []. split_and!; done.
  - rewrite foldl_app. cbn [foldl]. apply client_inv_step; [done|]. apply IH. rewrite pushed_snoc in Hd. by apply Forall_app in Hd as [].
Qed.

Lemma stopped_mono evs : forall c, cl_stopped c = true -> ps_input (cl_pull (foldl client_event c evs)) = ps_input (cl_pull c).
Proof.
  induction evs as [|ev evs IH]; intros c Hc; [done|]. cbn [foldl]. assert (cl_stopped (client_event c ev) = true /\ ps_input (cl_pull (client_event c ev)) = ps_input (cl_pull c)) as [H1 H2]; [|by rewrite IH, H2].
  destruct ev; cbn [client_event]; [by case_match| |]; by rewrite Hc.
Qed.

(** A connection and a turn get the next batch. *)
Lemma next_batch c rest t1 t2 : in_u 16 (ps_batch_id (cl_pull c)) -> ps_channels (cl_pull c) !! channel_key = Some rest -> Forall deliverable rest -> cl_stopped c = false ->
  exists els, Forall2 (received channel_key) (take n rest) els /\ ps_input (cl_pull (client_event (client_event c (Connect true t1)) (Turn Completed t2))) = ps_input (cl_pull c) ++ els.
Proof.
  intros Hb Hq Hd Hs. set (c' := client_event c (Connect true t1)).
  assert (cl_connected c' = true /\ cl_stopped c' = false /\ in_u 16 (ps_batch_id (cl_pull c')) /\ ps_channels (cl_pull c') = ps_channels (cl_pull c) /\ ps_input (cl_pull c') = ps_input (cl_pull c)) as (H1 & H2 & H3 & H4 & H5).
  { unfold c'. cbn [client_event]. rewrite Hs. destruct (cl_connected c) eqn:Ec; cbn; split_and!; done || (unfold in_u; lia). }
  destruct (pull_round_eq channel_key batch_pull_size (cl_pull c') rest Hkey Hsize H3) as (els & Hr & He); [by rewrite H4, Hq|done|]. exists els. split; [done|].
  cbn [client_event]. rewrite H1, H2. cbn [orb negb client_turn]. rewrite He. cbn [cl_pull ps_input]. by rewrite H5.
Qed.

(** A client stops with an error of a run that has terminated. *)
Definition stops (ev : ClientEvent) : Prop := match ev with Turn o true => o <> Completed | Connect false true => True | _ => False end.

Lemma stopped_by chs evs : chs !! channel_key = Some [] -> Forall deliverable (pushed evs) -> cl_stopped (foldl client_event (client_start chs) evs) = true -> exists ev, ev ∈ evs /\ stops ev.
Proof.
  intros Hch. induction evs as [|ev evs IH] using rev_ind; intros Hd Hs; [done|]. rewrite foldl_app in Hs. cbn [foldl] in Hs. rewrite pushed_snoc in Hd. apply Forall_app in Hd as [Hd _].
  destruct (cl_stopped (foldl client_event (client_start chs) evs)) eqn:Ec; [destruct IH as (x & Hx & Hx'); [done|done|]; exists x; split; [apply elem_of_app; by left|done]|].
  exists ev. split; [apply elem_of_app; right; by left|]. destruct (client_inv_run chs evs Hch Hd) as (Hb & taken & rest & l & Hp & Hq & _). set (c := foldl client_event (client_start chs) evs) in *.
  assert (Forall deliverable rest) as Hrest by (rewrite Hp in Hd; by apply Forall_app in Hd as [_ ?]).
  destruct ev as [e|connected terminated|o terminated]; cbn [client_event] in Hs.
  - rewrite Hq in Hs. cbn in Hs. congruence.
  - rewrite Ec in Hs. cbn [orb] in Hs. destruct (cl_connected c); [congruence|]. destruct connected; [done|]. cbn in Hs. by subst.
  - rewrite Ec in Hs. cbn [orb] in Hs. destruct (negb (cl_connected c)); [congruence|].
    destruct (client_turn_spec o (cl_pull c) rest Hb Hq Hrest) as (st' & r & k & j & els & Ht & _ & _ & _ & _ & _ & Ho). rewrite Ht in Hs. destruct r; cbn in Hs; [done|..]; subst; by destruct o.
Qed.

Lemma sublist_all {A} (l k : list A) : l `sublist_of` k -> (length k <= length l)%nat -> l = k.
Proof.
  induction 1 as [|x l k H IH|x l k H IH]; cbn; intros Hl; [done|f_equal; apply IH; lia|]. apply sublist_length in H. lia.
Qed.

(** C6: A subscription over connections that fail, in every run: what the publisher has
    pushed is what the server has taken from the queue and what is still in it; the child
    task gets part of what was taken, in order and each element at most once, without
    failures all of it; a turn that fails loses at most one batch; and a client that has
    not stopped gets the next batch with its next connection. It stops only after an
    error, when the run has terminated. *)
Theorem client_at_most_once chs evs : chs !! channel_key = Some [] -> Forall deliverable (pushed evs) ->
  let c := foldl client_event (client_start chs) evs in exists taken rest l,
  pushed evs = taken ++ rest /\ ps_channels (cl_pull c) !! channel_key = Some rest /\
  l `sublist_of` taken /\ Forall2 (received channel_key) l (ps_input (cl_pull c)) /\
  (length taken <= length l + failures evs * n)%nat /\ (failures evs = 0%nat -> l = taken) /\
  (cl_stopped c = false -> forall t1 t2, exists els, Forall2 (received channel_key) (take n rest) els /\
     ps_input (cl_pull (client_event (client_event c (Connect true t1)) (Turn Completed t2))) = ps_input (cl_pull c) ++ els) /\
  (cl_stopped c = true -> (exists ev, ev ∈ evs /\ stops ev) /\ forall evs', ps_input (cl_pull (foldl client_event c evs')) = ps_input (cl_pull c)).
Proof.
  intros Hch Hd c. destruct (client_inv_run chs evs Hch Hd) as (Hb & taken & rest & l & Hp & Hq & Hl & Hin & Hlen). fold c in Hb, Hq, Hin. exists taken, rest, l. split_and!; try done.
  - intros Hf. rewrite Hf in Hlen. apply sublist_all; [done|lia].
  - intros Hs t1 t2. apply next_batch; try done. rewrite Hp in Hd. by apply Forall_app in Hd as [_ ?].
  - intros Hs. split; [by apply (stopped_by chs)|]. intros evs'. by apply stopped_mono.
Qed.
End client.

(** ** The listener *)

(** [subscribe_listen]: what its polls of the channel of subscriptions give; [parse_addr] is
    [SocketAddr::from_str]. A client is started for every subscription, at the address of
    the worker that runs the source; after 200 empty polls in a row the loop ends. *)
Fixpoint subscribe_listen (parse_addr : string -> option string) (cluster_descriptor : ClusterDescriptor) (idle_counter : nat) (polls : list (option ChannelKey)) (clients : list (ChannelKey * string))
  : res string (list (ChannelKey * string) * bool) :=
  match polls with
  | [] => Ok (clients, false)
  | Some channel_key :: polls =>
      let* w := unwrap "WorkerManagerDescriptor not found" (get_worker_manager cluster_descriptor (source_task_id channel_key)) in
      let* addr := unwrap "parse address error" (parse_addr (wm_task_manager_address w)) in
      subscribe_listen parse_addr cluster_descriptor 0 polls (clients ++ [(channel_key, addr)])
  | None :: polls =>
      if (idle_counter + 1 <? 200)%nat then subscribe_listen parse_addr cluster_descriptor (idle_counter + 1) polls clients else Ok (clients, true)
  end.

Section listener.
Context (parse_addr : string -> option string) (c : ClusterDescriptor).

(** The address a channel is pulled from. *)
Definition source_address (key : ChannelKey) : option string := w ← get_worker_manager c (source_task_id key); parse_addr (wm_task_manager_address w).

Definition keys (polls : list (option ChannelKey)) : list ChannelKey := omap id polls.

(** No 200 empty polls in a row, with [idle] before. *)
Fixpoint busy (idle : nat) (polls : list (option ChannelKey)) : bool :=
  match polls with [] => true | Some _ :: polls => busy 0 polls | None :: polls => (idle + 1 <? 200)%nat && busy (idle + 1) polls end.

(** Every subscription that comes before 200 empty polls gets a client at the address of its
    source; those behind them get none. *)
Theorem subscriptions_served idle polls clients rest : Forall (fun key => is_Some (source_address key)) (keys polls) -> busy idle polls = true ->
  exists l, Forall2 (fun key x => x.1 = key /\ source_address key = Some x.2) (keys polls) l /\
    subscribe_listen parse_addr c idle polls clients = Ok (clients ++ l, false) /\
    subscribe_listen parse_addr c idle (polls ++ replicate 200 None ++ rest) clients = Ok (clients ++ l, true).
Proof.
  revert idle clients. induction polls as [|[key|] polls IH]; intros idle clients Hk Hb.
  - exists []. split_and!; [constructor|by rewrite app_nil_r|]. rewrite app_nil_r. cbn [app]. clear Hk Hb.
    assert (forall k idle, (199 <= idle + k)%nat -> subscribe_listen parse_addr c idle (replicate (S k) None ++ rest) clients = Ok (clients, true)) as Hr.
    { induction k as [|k IH]; intros i Hi.
      - cbn [replicate app subscribe_listen]. destruct (Nat.ltb_spec (i + 1) 200); [lia|done].
      - change (replicate (S (S k)) None ++ rest) with (None :: replicate (S k) (@None ChannelKey) ++ rest). cbn [subscribe_listen]. destruct (Nat.ltb_spec (i + 1) 200); [|done]. apply IH. lia. }
    apply (Hr 199%nat). lia.
  - cbn [keys omap list_omap id] in Hk. apply Forall_cons in Hk as [[addr Ha] Hk]. cbn [busy] in Hb. destruct (IH 0%nat (clients ++ [(key, addr)]) Hk Hb) as (l & H1 & H2 & H3). exists ((key, addr) :: l).
    pose proof Ha as Ha'. unfold source_address in Ha'. destruct (get_worker_manager c (source_task_id key)) as [w|] eqn:Ew; [|done]. cbn [mbind option_bind] in Ha'.
    split_and!; [constructor; done|..]; cbn [app subscribe_listen]; rewrite Ew; cbn [unwrap mbind res_bind]; rewrite Ha'; cbn [unwrap mbind res_bind]; rewrite <- app_assoc in H2, H3; done.
  - cbn [busy] in Hb. apply andb_true_iff in Hb as [Hi Hb]. destruct (IH (idle + 1)%nat clients Hk Hb) as (l & H1 & H2 & H3). exists l. split_and!; [done|..]; cbn [app subscribe_listen]; by rewrite Hi.
Qed.
End listener.

(** ** An example *)
Section evaluated.
#[local] Existing Instances be_bytes_api list_buffer be_frame_read.

(** The answer to the second turn is lost, after the new connection the rest comes. *)
Definition ex_events : list ClientEvent :=
  [Connect false false; Connect true false; Pushed (Element_Barrier (mkBarrier 0 5 0)); Turn Completed false; Pushed (new_watermark 7); Turn NoAnswer false; Pushed (new_stream_status 9 true); Connect true false; Turn Completed false].

Lemma client_at_most_once_witness : exists l, length (ps_input (cl_pull (foldl (client_event ex_key 2) (client_start (<[ex_key := []]> ∅)) ex_events))) = length l /\
  l `sublist_of` [Element_Barrier (mkBarrier 0 5 0); new_watermark 7; new_stream_status 9 true] /\ (3 <= length l + 1 * 2)%nat.
Proof.
  destruct (client_at_most_once ex_key 2 ex_key_wf ltac:(unfold U16_MAX; lia) (<[ex_key := []]> ∅) ex_events) as (taken & rest & l & Hp & Hq & Hs & H2 & Hl & _).
  - apply lookup_insert_eq.
  - repeat constructor; try (cbn; unfold in_u, MAX_FRAME; lia).
  - vm_compute in Hq. injection Hq as <-. rewrite app_nil_r in Hp. rewrite <- Hp in Hs, Hl. exists l. split; [symmetry; exact (Forall2_length _ _ _ H2)|]. split; [exact Hs|exact Hl].
Defined.
End evaluated.
