(* ===== verification/Prometheus.v ===== *)
(** * Prometheus: the exporter of the metrics

    src/rlink/src/metrics/prometheus_exporter/ (recorder.rs, distribution.rs, common.rs,
    builder.rs), src/rlink/src/metrics/worker_proxy.rs and src/rlink/src/metrics/mod.rs.
    The recorder keeps a registry of counters, gauges and histograms; a scrape reads the
    handles that are recent enough, moves the samples of the histograms into
    distributions that stay, and writes all of it as text.

    The registry, its handles, the recency of a metric, histograms, summaries and floats
    belong to the crates metrics and metrics-util: they are the class [MetricsUtil], and
    [MetricsUtilOk] is what their documentation says. A scrape is one step between the
    operations of the other threads.

    The text is judged by a reader of the exposition format that is defined here without
    the writer ([parse_text]). Theorems: the text of a scrape is read back as the metrics
    it was written from; an incremented counter is found there with its value; a histogram
    that no idle timeout is for is found there with every sample, counted once; which
    buckets a metric gets. *)
From Stdlib Require Import ZArith Lia Ascii.
From stdpp Require Import base countable strings pretty numbers option sets gmap list sorting.
From S2P Require Import Prelude Properties KafkaOffsets.

#[local] Open Scope Z_scope.

Definition newline : ascii := "010".
Definition quote : ascii := "034".
Definition backslash : ascii := "092".

(** ** The crates metrics and metrics-util *)
Inductive MetricKind := KCounter | KGauge | KHistogram.

#[global] Instance MetricKind_eq_dec : EqDecision MetricKind.
Proof. solve_decision. Defined.
#[global] Instance MetricKind_countable : Countable MetricKind.
Proof.
  refine (inj_countable' (fun k => match k with KCounter => 0%nat | KGauge => 1%nat | KHistogram => 2%nat end)
    (fun n => match n with 0%nat => KCounter | 1%nat => KGauge | _ => KHistogram end) _). by intros [].
Defined.

Record Key := mkKey { key_name : string; key_labels : list (string * string) }.

#[global] Instance Key_eq_dec : EqDecision Key.
Proof. solve_decision. Defined.
#[global] Instance Key_countable : Countable Key.
Proof. refine (inj_countable' (fun k => (key_name k, key_labels k)) (fun p => mkKey p.1 p.2) _). by intros []. Defined.

Abbreviation CompositeKey := (MetricKind * Key)%type.

Class MetricsUtil := {
  F64 : Type;
  f64_zero : F64;
  f64_add : F64 -> F64 -> F64;
  f64_to_string : F64 -> string;
  parse_quantiles : list F64 -> list F64;
  Histogram : Type;
  Histogram_new : list F64 -> option Histogram;
  record_many : list F64 -> Histogram -> Histogram;
  hist_buckets : Histogram -> list (F64 * Z);
  hist_sum : Histogram -> F64;
  hist_count : Histogram -> Z;
  Summary : Type;
  Summary_with_defaults : Summary;
  summary_add : F64 -> Summary -> Summary;
  summary_quantile : F64 -> Summary -> option F64;
  summary_count : Summary -> Z;
  GaugeValue : Type;
  Handle : Type;
  Handle_counter : Handle;
  Handle_gauge : Handle;
  Handle_histogram : Handle;
  h_increment_counter : Z -> Handle -> Handle;
  h_update_gauge : GaugeValue -> Handle -> Handle;
  h_record_histogram : F64 -> Handle -> Handle;
  read_counter : Handle -> res string Z;
  read_gauge : Handle -> res string F64;
  (** The slices the closure is called with, and the handle after it. *)
  read_histogram_with_clear : Handle -> res string (list (list F64) * Handle);
  Registry : Type;
  Registry_new : Registry;
  registry_op : CompositeKey -> (Handle -> Handle) -> Handle -> Registry -> Registry;
  get_handles : Registry -> gmap CompositeKey (nat * Handle);
  (** What a change through the shared handle does to the registry. *)
  store_handle : CompositeKey -> Handle -> Registry -> Registry;
  Recency : Type;
  Recency_new : list MetricKind -> option Z -> Recency;
  should_store : Z -> MetricKind -> CompositeKey -> nat -> Registry -> Recency -> bool * Registry * Recency
}.

(** [Display]. *)
Class Display (A : Type) := to_string : A -> string.
#[global] Instance Display_Z : Display Z := fun z => pretty z.
#[global] Instance Display_string : Display string := fun s => s.
#[global] Instance Display_F64 `{MetricsUtil} : Display F64 := f64_to_string.

(** ** Distributions (distribution.rs, common.rs) *)
Inductive Matcher := Full (full : string) | Prefix (prefix : string) | Suffix (suffix : string).

#[global] Instance Matcher_eq_dec : EqDecision Matcher.
Proof. solve_decision. Defined.
#[global] Instance Matcher_countable : Countable Matcher.
Proof.
  refine (inj_countable' (fun m => match m with Full s => inl s | Prefix s => inr (inl s) | Suffix s => inr (inr s) end)
    (fun x => match x with inl s => Full s | inr (inl s) => Prefix s | inr (inr s) => Suffix s end) _). by intros [].
Defined.

(** [str::ends_with]. *)
Definition ends_with (key suffix : string) : bool :=
  (String.length suffix <=? String.length key)%nat &&
  bool_decide (String.substring (String.length key - String.length suffix) (String.length suffix) key = suffix).

Definition matches (m : Matcher) (key : string) : bool :=
  match m with
  | Prefix prefix => String.prefix prefix key
  | Suffix suffix => ends_with key suffix
  | Full full => bool_decide (key = full)
  end.

(** The derived [Ord]: the variants in their order, then the strings. *)
Definition matcher_rank (m : Matcher) : Z * string := match m with Full s => (0, s) | Prefix s => (1, s) | Suffix s => (2, s) end.
Definition matcher_le (a b : Matcher) : Prop :=
  (matcher_rank a).1 < (matcher_rank b).1 \/ (matcher_rank a).1 = (matcher_rank b).1 /\ String.le (matcher_rank a).2 (matcher_rank b).2.
Definition override_le {A} (a b : Matcher * A) : Prop := matcher_le a.1 b.1.
#[global] Instance override_le_dec {A} : RelDecision (@override_le A).
Proof. unfold override_le, matcher_le. solve_decision. Defined.

Section exporter.
Context {MU : MetricsUtil} {HO : HashOrder}.

Inductive Distribution := DHistogram (histogram : Histogram) | DSummary (summary : Summary) (quantiles : list F64) (sum : F64).

Definition new_histogram (buckets : list F64) : option Distribution := DHistogram <$> Histogram_new buckets.
Definition new_summary (quantiles : list F64) : option Distribution := Some (DSummary Summary_with_defaults quantiles f64_zero).

Definition record_samples (d : Distribution) (samples : list F64) : Distribution :=
  match d with
  | DHistogram hist => DHistogram (record_many samples hist)
  | DSummary hist quantiles sum =>
      let '(hist, sum) := foldl (fun '(hist, sum) sample => (summary_add sample hist, f64_add sum sample)) (hist, sum) samples in
      DSummary hist quantiles sum
  end.

Record DistributionBuilder := mkDistributionBuilder {
  db_quantiles : list F64;
  db_buckets : option (list F64);
  db_bucket_overrides : option (list (Matcher * list F64))
}.

Definition DistributionBuilder_new (quantiles : list F64) (buckets : option (list F64)) (bucket_overrides : option (gmap Matcher (list F64))) : DistributionBuilder :=
  mkDistributionBuilder quantiles buckets ((fun entries => merge_sort override_le (hiter entries)) <$> bucket_overrides).

Definition first_override (b : DistributionBuilder) (name : string) : option (list F64) :=
  match db_bucket_overrides b with
  | Some overrides => snd ∘ snd <$> list_find (fun mb => Is_true (matches mb.1 name)) overrides
  | None => None
  end.

Definition get_distribution (b : DistributionBuilder) (name : string) : option Distribution :=
  match first_override b name with
  | Some buckets => new_histogram buckets
  | None => match db_buckets b with Some buckets => new_histogram buckets | None => new_summary (db_quantiles b) end
  end.

Definition get_distribution_type (b : DistributionBuilder) (name : string) : string :=
  match db_buckets b with
  | Some _ => "histogram"
  | None => match first_override b name with Some _ => "histogram" | None => "summary" end
  end.

(** ** Writing the text (recorder.rs) *)

(** [str::replace] of a character. *)
Fixpoint replace (c : ascii) (by_ s : string) : string :=
  match s with
  | "" => ""
  | String a s => if decide (a = c) then by_ +:+ replace c by_ s else String a (replace c by_ s)
  end.

Definition sanitize (c : ascii) : bool := bool_decide (c ∈ ["."; "="; "{"; "}"; "+"; "-"]%char).

Fixpoint sanitized (s : string) : string :=
  match s with "" => "" | String a s => String (if sanitize a then "_"%char else a) (sanitized s) end.

(** The value of a label, escaped, and the label. *)
Definition escape (v : string) : string :=
  replace newline (String backslash "n") (replace quote (String backslash (String quote "")) (replace backslash (String backslash (String backslash "")) v)).

Definition format_label (kv : string * string) : string := kv.1 +:+ "=" +:+ String quote (escape kv.2 +:+ String quote "").

Definition label_values (key : Key) (defaults : gmap string string) : gmap string string :=
  foldl (fun values label => <[label.1 := label.2]> values) defaults (key_labels key).

Definition key_to_parts (key : Key) (defaults : gmap string string) : string * list string :=
  (sanitized (key_name key), format_label <$> hiter (label_values key defaults)).

Definition write_help_line (buffer name desc : string) : string := buffer +:+ "# HELP " +:+ name +:+ " " +:+ desc +:+ String newline "".
Definition write_type_line (buffer name metric_type : string) : string := buffer +:+ "# TYPE " +:+ name +:+ " " +:+ metric_type +:+ String newline "".

(** The loop over the labels: the buffer and whether no label has been written. *)
Definition push_labels (buffer : string) (labels : list string) : string * bool :=
  foldl (fun '(buffer, first) label => (if first : bool then buffer +:+ label else buffer +:+ "," +:+ label, false)) (buffer, true) labels.

Definition write_metric_line {T T2} `{Display T, Display T2} (buffer name : string) (suffix : option string) (labels : list string)
    (additional_label : option (string * T)) (value : T2) : string :=
  let buffer := buffer +:+ name in
  let buffer := match suffix with Some suffix => buffer +:+ "_" +:+ suffix | None => buffer end in
  let buffer :=
    if decide (labels <> [] \/ is_Some additional_label) then
      let '(buffer, first) := push_labels (buffer +:+ "{") labels in
      let buffer :=
        match additional_label with
        | Some (name, value) => (if first then buffer else buffer +:+ ",") +:+ name +:+ "=" +:+ String quote (to_string value +:+ String quote "")
        | None => buffer
        end in
      buffer +:+ "}"
    else buffer in
  buffer +:+ " " +:+ to_string value +:+ String newline "".

(** ** The recorder *)
Record Inner := mkInner {
  i_registry : Registry;
  i_recency : Recency;
  i_distributions : gmap string (gmap (list string) Distribution);
  i_distribution_builder : DistributionBuilder;
  i_descriptions : gmap string string;
  i_global_labels : gmap string string
}.

Record Snapshot := mkSnapshot {
  s_counters : gmap string (gmap (list string) Z);
  s_gauges : gmap string (gmap (list string) F64);
  s_distributions : gmap string (gmap (list string) Distribution)
}.

(** [entry(name).or_insert_with(HashMap::new)] and [entry(labels)] set to a value. *)
Definition set_entry {V} (name : string) (labels : list string) (v : V) (m : gmap string (gmap (list string) V)) : gmap string (gmap (list string) V) :=
  <[name := <[labels := v]> (default ∅ (m !! name))]> m.

Definition entry {V} (name : string) (labels : list string) (m : gmap string (gmap (list string) V)) : option V := m !! name ≫= lookup labels.

Definition set_registry (r : Registry) (c : Recency) (i : Inner) : Inner :=
  mkInner r c (i_distributions i) (i_distribution_builder i) (i_descriptions i) (i_global_labels i).
Definition set_distributions (r : Registry) (d : gmap string (gmap (list string) Distribution)) (i : Inner) : Inner :=
  mkInner r (i_recency i) d (i_distribution_builder i) (i_descriptions i) (i_global_labels i).

(** One turn of the loop of [get_recent_metrics]: the recorder, the counters and the gauges. *)
Abbreviation recent := (Inner * gmap string (gmap (list string) Z) * gmap string (gmap (list string) F64))%type.

Definition recent_turn (now : Z) (st : recent) (e : CompositeKey * (nat * Handle)) : res string recent :=
  let '(inner, counters, gauges) := st in
  let '((kind, key), (gen, handle)) := e in
  let '(store, registry, recency) := should_store now kind (kind, key) gen (i_registry inner) (i_recency inner) in
  let inner := set_registry registry recency inner in
  if negb store then Ok (inner, counters, gauges) else
  let '(name, labels) := key_to_parts key (i_global_labels inner) in
  match kind with
  | KCounter =>
      let* value := read_counter handle in
      Ok (inner, set_entry name labels value counters, gauges)
  | KGauge =>
      let* value := read_gauge handle in
      Ok (inner, counters, set_entry name labels value gauges)
  | KHistogram =>
      let* d := match entry name labels (i_distributions inner) with
                | Some d => Ok d
                | None => unwrap "failed to create distribution" (get_distribution (i_distribution_builder inner) name)
                end in
      let* (blocks, handle) := read_histogram_with_clear handle in
      let d := foldl record_samples d blocks in
      Ok (set_distributions (store_handle (kind, key) handle registry) (set_entry name labels d (i_distributions inner)) inner, counters, gauges)
  end.

Definition get_recent_metrics (now : Z) (inner : Inner) : res string (Inner * Snapshot) :=
  let* (inner, counters, gauges) := foldM (recent_turn now) (inner, ∅, ∅) (hiter (get_handles (i_registry inner))) in
  Ok (inner, mkSnapshot counters gauges (i_distributions inner)).

(** The lines of one distribution. *)
Definition write_distribution (name : string) (output : string) (ld : list string * Distribution) : string :=
  let '(labels, distribution) := ld in
  let '(output, sum, count) :=
    match distribution with
    | DSummary summary quantiles sum =>
        (foldl (fun output quantile => write_metric_line output name None labels (Some ("quantile", quantile)) (default f64_zero (summary_quantile quantile summary))) output quantiles,
         sum, wrap_u 64 (summary_count summary))
    | DHistogram histogram =>
        let output := foldl (fun output '(le, count) => write_metric_line output name (Some "bucket") labels (Some ("le", le : F64)) (count : Z)) output (hist_buckets histogram) in
        (write_metric_line output name (Some "bucket") labels (Some ("le", "+Inf")) (hist_count histogram), hist_sum histogram, hist_count histogram)
    end in
  let output := write_metric_line (T := string) output name (Some "sum") labels None sum in
  write_metric_line (T := string) output name (Some "count") labels None count.

Definition write_description (descriptions : gmap string string) (name output : string) : string :=
  match descriptions !! name with Some desc => write_help_line output name desc | None => output end.

Definition render_text (descriptions : gmap string string) (b : DistributionBuilder) (s : Snapshot) : string :=
  let output := foldl (fun output '(name, by_labels) =>
    let output := write_type_line (write_description descriptions name output) name "counter" in
    foldl (fun output '(labels, value) => write_metric_line (T := string) output name None labels None (value : Z)) output (hiter (by_labels : gmap _ Z)) +:+ String newline "")
    "" (hiter (s_counters s)) in
  let output := foldl (fun output '(name, by_labels) =>
    let output := write_type_line (write_description descriptions name output) name "gauge" in
    foldl (fun output '(labels, value) => write_metric_line (T := string) output name None labels None (value : F64)) output (hiter (by_labels : gmap _ F64)) +:+ String newline "")
    output (hiter (s_gauges s)) in
  foldl (fun output '(name, by_labels) =>
    let output := write_type_line (write_description descriptions name output) name (get_distribution_type b name) in
    foldl (write_distribution name) output (hiter (by_labels : gmap _ Distribution)) +:+ String newline "")
    output (hiter (s_distributions s)).

Definition render (now : Z) (inner : Inner) : res string (Inner * string) :=
  let* (inner, snapshot) := get_recent_metrics now inner in
  Ok (inner, render_text (i_descriptions inner) (i_distribution_builder inner) snapshot).

(** [impl Recorder for PrometheusRecorder]. *)
Definition registry_step (k : CompositeKey) (f : Handle -> Handle) (new : Handle) (inner : Inner) : Inner :=
  set_registry (registry_op k f new (i_registry inner)) (i_recency inner) inner.

Definition add_description_if_missing (key : Key) (description : option string) (inner : Inner) : Inner :=
  match description with
  | Some description =>
      match i_descriptions inner !! key_name key with
      | None => mkInner (i_registry inner) (i_recency inner) (i_distributions inner) (i_distribution_builder inner) (<[key_name key := description]> (i_descriptions inner)) (i_global_labels inner)
      | Some _ => inner
      end
  | None => inner
  end.

Definition register_counter (key : Key) (description : option string) (inner : Inner) : Inner :=
  registry_step (KCounter, key) (fun h => h) Handle_counter (add_description_if_missing key description inner).
Definition register_gauge (key : Key) (description : option string) (inner : Inner) : Inner :=
  registry_step (KGauge, key) (fun h => h) Handle_gauge (add_description_if_missing key description inner).
Definition register_histogram (key : Key) (description : option string) (inner : Inner) : Inner :=
  registry_step (KHistogram, key) (fun h => h) Handle_histogram (add_description_if_missing key description inner).
Definition increment_counter (key : Key) (value : Z) : Inner -> Inner := registry_step (KCounter, key) (h_increment_counter value) Handle_counter.
Definition update_gauge (key : Key) (value : GaugeValue) : Inner -> Inner := registry_step (KGauge, key) (h_update_gauge value) Handle_gauge.
Definition record_histogram (key : Key) (value : F64) : Inner -> Inner := registry_step (KHistogram, key) (h_record_histogram value) Handle_histogram.

(** ** The builder (builder.rs, mod.rs) *)
Record PrometheusBuilder := mkPrometheusBuilder {
  listen_address : string;
  quantiles : list F64;
  buckets : option (list F64);
  bucket_overrides : option (gmap Matcher (list F64));
  idle_timeout : option Z;
  recency_mask : list MetricKind;
  global_labels : option (gmap string string)
}.

(** [PrometheusBuilder::new]; the numbers 0.0, 0.5, 0.9, 0.95, 0.99, 0.999 and 1.0 are given. *)
Definition PrometheusBuilder_new (numbers : list F64) : PrometheusBuilder :=
  mkPrometheusBuilder "0.0.0.0:9000" (parse_quantiles numbers) None None None [] None.

Definition set_listen_address (addr : string) (b : PrometheusBuilder) : PrometheusBuilder :=
  mkPrometheusBuilder addr (quantiles b) (buckets b) (bucket_overrides b) (idle_timeout b) (recency_mask b) (global_labels b).
Definition set_quantiles (qs : list F64) (b : PrometheusBuilder) : PrometheusBuilder :=
  mkPrometheusBuilder (listen_address b) (parse_quantiles qs) (buckets b) (bucket_overrides b) (idle_timeout b) (recency_mask b) (global_labels b).
Definition set_buckets (values : list F64) (b : PrometheusBuilder) : PrometheusBuilder :=
  mkPrometheusBuilder (listen_address b) (quantiles b) (Some values) (bucket_overrides b) (idle_timeout b) (recency_mask b) (global_labels b).
Definition set_buckets_for_metric (m : Matcher) (values : list F64) (b : PrometheusBuilder) : PrometheusBuilder :=
  mkPrometheusBuilder (listen_address b) (quantiles b) (buckets b) (Some (<[m := values]> (default ∅ (bucket_overrides b)))) (idle_timeout b) (recency_mask b) (global_labels b).
Definition set_idle_timeout (mask : list MetricKind) (timeout : option Z) (b : PrometheusBuilder) : PrometheusBuilder :=
  mkPrometheusBuilder (listen_address b) (quantiles b) (buckets b) (bucket_overrides b) timeout (match timeout with None => [] | Some _ => mask end) (global_labels b).
Definition add_global_label (key value : string) (b : PrometheusBuilder) : PrometheusBuilder :=
  mkPrometheusBuilder (listen_address b) (quantiles b) (buckets b) (bucket_overrides b) (idle_timeout b) (recency_mask b) (Some (<[key := value]> (default ∅ (global_labels b)))).

Definition build (b : PrometheusBuilder) : Inner :=
  mkInner Registry_new (Recency_new (recency_mask b) (idle_timeout b)) ∅ (DistributionBuilder_new (quantiles b) (buckets b) (bucket_overrides b)) ∅ (default ∅ (global_labels b)).

(** The builder of [install] in mod.rs: counters and histograms go idle after 10 s. *)
Definition install_builder (numbers : list F64) (addr : string) : PrometheusBuilder :=
  set_idle_timeout [KCounter; KHistogram] (Some 10) (set_listen_address addr (PrometheusBuilder_new numbers)).

(** ** The page (the service of [build_with_exporter], worker_proxy.rs)

    [fetch] is the request to a worker: its page, or [None] for an error that is logged. *)
Definition collect_worker_metrics (fetch : string -> option string) (proxy_address : list string) : string :=
  foldl (fun result_str addr => result_str +:+ default "" (fetch addr) +:+ String newline (String newline "")) "" (filter (fun addr => addr <> "") proxy_address).

(** One request, after [metric::export] has passed on the metrics of the process: [export]
    is what it calls on the recorder. *)
Definition serve_scrape (export : Inner -> Inner) (fetch : string -> option string) (proxy_address : list string) (now : Z) (inner : Inner) : res string (Inner * string) :=
  let* (inner, output) := render now (export inner) in
  Ok (inner, match proxy_address with [] => output | _ => output +:+ String newline (collect_worker_metrics fetch proxy_address) end).
End exporter.

(** [install] and [init_metrics] of mod.rs. [try_bind] is the error of binding the address,
    if any; the flag is whether a recorder has been installed in this process. The ports
    are the random ones. *)
Definition install (try_bind : string -> option string) (addr : string) (installed : bool) : bool * res string unit :=
  match try_bind addr with
  | Some e => (installed, Err e)
  | None => if installed then (true, Err "failed to install exporter as global recorder") else (true, Ok tt)
  end.

Fixpoint init_metrics (try_bind : string -> option string) (valid_ip : bool) (bind_ip : string) (ports : list Z) (installed : bool) : bool * res string (option string) :=
  match ports with
  | [] => (installed, Ok None)
  | port :: ports =>
      let addr := bind_ip +:+ ":" +:+ pretty port in
      if negb valid_ip then (installed, Panic "failed to parse http listen address") else
      match install try_bind addr installed with
      | (installed, Ok _) => (installed, Ok (Some addr))
      | (installed, _) => init_metrics try_bind valid_ip bind_ip ports installed
      end
  end.

(** ** A reader of the exposition format *)
Inductive Line :=
  | LHelp (name text : string)
  | LType (name kind : string)
  | LSample (name : string) (labels : list (string * string)) (value : string)
  | LBlank.

(** Up to the first character that stops, which is left. *)
Fixpoint read_word (stop : ascii -> bool) (s : string) : string * string :=
  match s with
  | "" => ("", "")
  | String a s' => if stop a then ("", s) else let '(w, rest) := read_word stop s' in (String a w, rest)
  end.

Definition is_char (c a : ascii) : bool := bool_decide (a = c).

(** A quoted value without its opening quote: the value and what follows the closing one. *)
Fixpoint read_value (s : string) : option (string * string) :=
  match s with
  | "" => None
  | String a s =>
      if is_char quote a then Some ("", s) else
      if is_char backslash a then
        match s with
        | "" => None
        | String b s =>
            let c := if is_char "n" b then Some newline else if is_char quote b then Some quote else if is_char backslash b then Some backslash else None in
            c ← c; vr ← read_value s; Some (String c vr.1, vr.2)
        end
      else vr ← read_value s; Some (String a vr.1, vr.2)
  end.

(** Labels up to the closing brace. *)
Fixpoint read_labels (fuel : nat) (s : string) : option (list (string * string) * string) :=
  match fuel with
  | O => None
  | S fuel =>
      let '(key, s) := read_word (is_char "=") s in
      s ← strip_prefix (String "=" (String quote "")) s;
      vr ← read_value s;
      match vr.2 with
      | String a rest =>
          if is_char "}" a then Some ([(key, vr.1)], rest) else
          if is_char "," a then lr ← read_labels fuel rest; Some ((key, vr.1) :: lr.1, lr.2) else None
      | "" => None
      end
  end.

Definition read_sample (s : string) : option Line :=
  let '(name, s) := read_word (fun a => is_char " " a || is_char "{" a) s in
  lr ← match s with
       | String a rest => if is_char "{" a then read_labels (String.length rest) rest else Some ([], s)
       | "" => None
       end;
  value ← strip_prefix " " lr.2;
  Some (LSample name lr.1 value).

Definition read_comment (prefix : string) (make : string -> string -> Line) (s : string) : option Line :=
  s ← strip_prefix prefix s;
  let '(name, s) := read_word (is_char " ") s in
  text ← strip_prefix " " s;
  Some (make name text).

Definition parse_line (s : string) : option Line :=
  match s with
  | "" => Some LBlank
  | String a _ =>
      if is_char "#" a then
        match read_comment "# HELP " LHelp s with Some l => Some l | None => read_comment "# TYPE " LType s end
      else read_sample s
  end.

(** The lines of a text that ends with a newline. *)
Definition parse_text (s : string) : option (list Line) := mapM parse_line (split newline s).

(** ** What a text is to say *)
Section lines.
Context {MU : MetricsUtil} {HO : HashOrder}.

(** The labels of a metric as pairs, read from the texts of [key_to_parts]. *)
Definition label_pair (label : string) : string * string :=
  let '(key, s) := read_word (is_char "=") label in
  (key, from_option fst "" (strip_prefix (String "=" (String quote "")) s ≫= read_value)).

Definition with_labels (labels : list string) (more : list (string * string)) : list (string * string) := (label_pair <$> labels) ++ more.

Definition distribution_lines (name : string) (ld : list string * Distribution) : list Line :=
  let '(labels, d) := ld in
  match d with
  | DSummary summary quantiles sum =>
      ((fun q => LSample name (with_labels labels [("quantile", to_string q)]) (to_string (default f64_zero (summary_quantile q summary)))) <$> quantiles) ++
      [LSample (name +:+ "_sum") (with_labels labels []) (to_string sum); LSample (name +:+ "_count") (with_labels labels []) (to_string (wrap_u 64 (summary_count summary)))]
  | DHistogram h =>
      ((fun lc => LSample (name +:+ "_bucket") (with_labels labels [("le", to_string lc.1)]) (to_string lc.2)) <$> hist_buckets h) ++
      [LSample (name +:+ "_bucket") (with_labels labels [("le", "+Inf")]) (to_string (hist_count h));
       LSample (name +:+ "_sum") (with_labels labels []) (to_string (hist_sum h)); LSample (name +:+ "_count") (with_labels labels []) (to_string (hist_count h))]
  end.

Definition value_lines {V} `{Display V} (name : string) (lv : list string * V) : list Line := [LSample name (with_labels lv.1 []) (to_string lv.2)].

(** A metric: its help, its type, its samples and a blank line. *)
Definition family_lines {V} (descriptions : gmap string string) (kind : string -> string) (lines : string -> list string * V -> list Line)
    (nm : string * gmap (list string) V) : list Line :=
  (match descriptions !! nm.1 with Some desc => [LHelp nm.1 desc] | None => [] end) ++ LType nm.1 (kind nm.1) :: (hiter nm.2 ≫= lines nm.1) ++ [LBlank].

Definition snapshot_lines (descriptions : gmap string string) (b : DistributionBuilder) (s : Snapshot) : list Line :=
  (hiter (s_counters s) ≫= family_lines descriptions (fun _ => "counter") value_lines) ++
  (hiter (s_gauges s) ≫= family_lines descriptions (fun _ => "gauge") value_lines) ++
  (hiter (s_distributions s) ≫= family_lines descriptions (get_distribution_type b) distribution_lines).
End lines.

(** What a line is to satisfy so that it can be read: the reader splits at newlines, a name
    ends at a space or a brace, the key of a label at the equals sign. *)
Definition no_newline (s : string) : bool := all_chars (fun a => negb (is_char newline a)) s.

Definition name_ok (s : string) : bool :=
  all_chars (fun a => negb (is_char " " a || is_char "{" a) && negb (is_char newline a)) s && match s with String a _ => negb (is_char "#" a) | "" => true end.

Definition key_ok (s : string) : bool := all_chars (fun a => negb (is_char "=" a) && negb (is_char newline a)) s.

Definition line_ok (l : Line) : bool :=
  match l with
  | LHelp name text | LType name text => name_ok name && no_newline text
  | LSample name labels value => name_ok name && forallb (fun kv => key_ok kv.1) labels && no_newline value
  | LBlank => true
  end.

(** A line as text. *)
Definition label_block (labels : list (string * string)) : string :=
  match labels with [] => "" | _ => "{" +:+ join "," (format_label <$> labels) +:+ "}" end.

Definition print_line (l : Line) : string :=
  match l with
  | LHelp name text => "# HELP " +:+ name +:+ " " +:+ text
  | LType name kind => "# TYPE " +:+ name +:+ " " +:+ kind
  | LSample name labels value => name +:+ label_block labels +:+ " " +:+ value
  | LBlank => ""
  end.

Definition print_lines (ls : list Line) : string := foldr (fun l s => print_line l +:+ String newline s) "" ls.

(** ** Reading what was written *)
Lemma append_cons a s t : String a s +:+ t = String a (s +:+ t).
Proof. done. Qed.

Lemma is_char_spec c a : is_char c a = true <-> a = c.
Proof. apply bool_decide_eq_true. Qed.

Lemma read_word_app stop w c r : all_chars (fun a => negb (stop a)) w = true -> stop c = true -> read_word stop (w +:+ String c r) = (w, String c r).
Proof.
  intros Hw Hc. induction w as [|a w IH]; [change ("" +:+ String c r) with (String c r); cbn; by rewrite Hc|].
  cbn in Hw. apply andb_true_iff in Hw as [Ha%negb_true_iff Hw]. rewrite append_cons. cbn. by rewrite Ha, (IH Hw).
Qed.

Definition escape_char (a : ascii) : string :=
  if is_char backslash a then String backslash (String backslash "") else
  if is_char quote a then String backslash (String quote "") else
  if is_char newline a then String backslash "n" else String a "".

Lemma escape_cons a s : escape (String a s) = escape_char a +:+ escape s.
Proof.
  unfold escape, escape_char, is_char. cbn [replace]. destruct (decide (a = backslash)) as [->|H1]; [done|]. rewrite bool_decide_eq_false_2 by done.
  cbn [replace]. destruct (decide (a = quote)) as [->|H2]; [done|]. rewrite bool_decide_eq_false_2 by done.
  cbn [replace]. destruct (decide (a = newline)) as [->|H3]; [done|]. by rewrite bool_decide_eq_false_2.
Qed.

Lemma escape_no_newline s : no_newline (escape s) = true.
Proof.
  induction s as [|a s IH]; [done|]. unfold no_newline in *. rewrite escape_cons, all_chars_app, IH, andb_true_r. unfold escape_char.
  destruct (is_char backslash a); [done|]. destruct (is_char quote a); [done|]. destruct (is_char newline a) eqn:E; [done|]. cbn. by rewrite E.
Qed.

(** The value of a label is read back, whatever characters it has. *)
Lemma read_value_escape v r : read_value (escape v +:+ String quote r) = Some (v, r).
Proof.
  induction v as [|a v IH]; [done|]. rewrite escape_cons, <- string_app_assoc. unfold escape_char. revert IH. generalize (escape v +:+ String quote r). intros s IH.
  destruct (is_char backslash a) eqn:E1; [apply is_char_spec in E1 as ->; change (read_value _) with (vr ← read_value s; Some (String backslash vr.1, vr.2)); by rewrite IH|].
  destruct (is_char quote a) eqn:E2; [apply is_char_spec in E2 as ->; change (read_value _) with (vr ← read_value s; Some (String quote vr.1, vr.2)); by rewrite IH|].
  destruct (is_char newline a) eqn:E3; [apply is_char_spec in E3 as ->; change (read_value _) with (vr ← read_value s; Some (String newline vr.1, vr.2)); by rewrite IH|].
  change (String a "" +:+ s) with (String a s). cbn [read_value]. by rewrite E2, E1, IH.
Qed.

Definition plain_char (a : ascii) : bool := negb (is_char backslash a) && negb (is_char quote a) && negb (is_char newline a).

Lemma escape_plain s : all_chars plain_char s = true -> escape s = s.
Proof.
  induction s as [|a s IH]; [done|]. cbn [all_chars]. unfold plain_char at 1. rewrite !andb_true_iff, !negb_true_iff. intros [[[H1 H2] H3] Hs].
  rewrite escape_cons, (IH Hs). unfold escape_char. by rewrite H1, H2, H3.
Qed.

Lemma key_read key r : key_ok key = true -> read_word (is_char "=") (key +:+ String "=" r) = (key, String "=" r).
Proof. intros Hk. apply read_word_app; [|done]. revert Hk. apply all_chars_impl. intros a. rewrite andb_true_iff. tauto. Qed.

Lemma label_pair_format kv : key_ok kv.1 = true -> label_pair (format_label kv) = kv.
Proof.
  intros Hk. unfold label_pair, format_label. change ("=" +:+ ?x) with (String "=" x). rewrite key_read by done.
  change (String "=" (String quote ?x)) with (String "=" (String quote "") +:+ x). rewrite strip_prefix_app. cbn [mbind option_bind].
  rewrite read_value_escape. by destruct kv.
Qed.

Lemma read_labels_join l : forall fuel r, l <> [] -> forallb (fun kv => key_ok kv.1) l = true -> (length l <= fuel)%nat ->
  read_labels fuel (join "," (format_label <$> l) +:+ String "}" r) = Some (l, r).
Proof.
  induction l as [|[k v] l IH]; intros fuel r Hl Hk Hf; [done|]. cbn in Hk. apply andb_true_iff in Hk as [Hk Hall]. destruct fuel as [|fuel]; [cbn in Hf; lia|].
  assert (forall rest, read_word (is_char "=") (format_label (k, v) +:+ rest) = (k, String "=" (String quote "") +:+ (escape v +:+ String quote rest))) as Hw.
  { intros rest. unfold format_label. cbn [fst snd]. rewrite <- string_app_assoc. change ("=" +:+ ?x) with (String "=" x). rewrite append_cons, key_read by done.
    rewrite append_cons, <- string_app_assoc. done. }
  destruct l as [|kv l].
  - change (join "," (format_label <$> [(k, v)])) with (format_label (k, v)). cbn [read_labels]. rewrite Hw, strip_prefix_app. cbn [mbind option_bind]. by rewrite read_value_escape.
  - change (join "," (format_label <$> (k, v) :: kv :: l)) with (format_label (k, v) +:+ ("," +:+ join "," (format_label <$> kv :: l))).
    rewrite <- string_app_assoc. cbn [read_labels]. rewrite Hw, strip_prefix_app. cbn [mbind option_bind]. rewrite read_value_escape. cbn [fst snd].
    change ("," +:+ ?x) with (String "," x). rewrite append_cons. cbn -[join read_labels String.append fmap]. rewrite IH; [done|done|done|cbn in *; lia].
Qed.

Lemma length_append s t : String.length (s +:+ t) = (String.length s + String.length t)%nat.
Proof. induction s as [|a s IH]; [done|]. rewrite append_cons. cbn. by rewrite IH. Qed.

Lemma length_join l r : (length l <= String.length (join "," (format_label <$> l) +:+ String "}" r))%nat.
Proof.
  rewrite length_append. enough (length l <= S (String.length (join "," (format_label <$> l))))%nat by (cbn; lia).
  induction l as [|kv [|kv' l] IH]; [cbn; lia..|].
  change (join "," (format_label <$> kv :: kv' :: l)) with (format_label kv +:+ String "," (join "," (format_label <$> kv' :: l))).
  rewrite length_append. cbn [length String.length] in *. lia.
Qed.

Lemma word_name_ok name c r : name_ok name = true -> c = " "%char \/ c = "{"%char -> read_word (fun a => is_char " " a || is_char "{" a) (name +:+ String c r) = (name, String c r).
Proof.
  unfold name_ok. rewrite andb_true_iff. intros [Hn _] Hc. apply read_word_app; [|by destruct Hc as [-> | ->]]. revert Hn. apply all_chars_impl. intros a. rewrite andb_true_iff. tauto.
Qed.

Lemma read_sample_print name labels value : name_ok name = true -> forallb (fun kv => key_ok kv.1) labels = true ->
  read_sample (name +:+ label_block labels +:+ " " +:+ value) = Some (LSample name labels value).
Proof.
  intros Hn Hk. unfold read_sample. destruct labels as [|kv labels].
  - change (label_block [] +:+ ?x) with x. change (" " +:+ value) with (String " " value). rewrite word_name_ok by auto. done.
  - unfold label_block. change ("{" +:+ ?x) with (String "{" x). rewrite append_cons, word_name_ok by auto. cbn [is_char]. change (is_char "{" "{"%char) with true. cbv iota.
    rewrite <- string_app_assoc. change ("}" +:+ ?x) with (String "}" x). rewrite read_labels_join; [|done|done|apply length_join].
    cbn [mbind option_bind fst snd]. change (" " +:+ value) with (String " " value). done.
Qed.

Lemma read_comment_print prefix make name text : name_ok name = true -> read_comment prefix make (prefix +:+ name +:+ " " +:+ text) = Some (make name text).
Proof.
  intros Hn. unfold read_comment. rewrite strip_prefix_app. cbn [mbind option_bind]. change (" " +:+ text) with (String " " text). rewrite read_word_app; [done| |done].
  revert Hn. unfold name_ok. rewrite andb_true_iff. intros [Hn _]. revert Hn. apply all_chars_impl. intros a. rewrite !andb_true_iff, !negb_true_iff, orb_false_iff. tauto.
Qed.

(** A line that is written is read back. *)
Lemma parse_print l : line_ok l = true -> parse_line (print_line l) = Some l.
Proof.
  destruct l as [name text|name kind|name labels value|]; cbn [line_ok]; [| | |done].
  - rewrite andb_true_iff. intros [Hn _]. change (parse_line _) with (match read_comment "# HELP " LHelp (print_line (LHelp name text)) with Some l => Some l | None => read_comment "# TYPE " LType (print_line (LHelp name text)) end).
    cbn [print_line]. by rewrite read_comment_print.
  - rewrite andb_true_iff. intros [Hn _]. change (parse_line _) with (read_comment "# TYPE " LType (print_line (LType name kind))). cbn [print_line]. by rewrite read_comment_print.
  - rewrite !andb_true_iff. intros [[Hn Hk] _]. rewrite <- (read_sample_print name labels value) by done. cbn [print_line]. destruct name as [|a name].
    + by destruct labels.
    + rewrite append_cons. unfold name_ok in Hn. apply andb_true_iff in Hn as [_ Ha%negb_true_iff]. unfold parse_line. by rewrite Ha.
Qed.

Lemma no_newline_app s t : no_newline (s +:+ t) = no_newline s && no_newline t.
Proof. apply all_chars_app. Qed.

Lemma name_no_newline name : name_ok name = true -> no_newline name = true.
Proof. unfold name_ok. rewrite andb_true_iff. intros [Hn _]. revert Hn. apply all_chars_impl. intros a. rewrite andb_true_iff. tauto. Qed.

Lemma label_block_no_newline labels : forallb (fun kv => key_ok kv.1) labels = true -> no_newline (label_block labels) = true.
Proof.
  intros Hk. destruct labels as [|kv labels]; [done|]. unfold label_block. rewrite !no_newline_app. cbn -[no_newline join fmap]. rewrite andb_true_r.
  change (no_newline "{") with true. cbn [andb]. revert Hk. generalize (kv :: labels). clear kv labels. intros l.
  assert (forall kv, key_ok kv.1 = true -> no_newline (format_label kv) = true) as Hf.
  { intros [k v] Hk. unfold format_label. rewrite !no_newline_app. change (no_newline (String quote ?x)) with (no_newline x). rewrite no_newline_app, escape_no_newline. cbn [fst snd] in *.
    assert (no_newline k = true) as ->; [|done]. revert Hk. apply all_chars_impl. intros a. rewrite andb_true_iff. tauto. }
  induction l as [|kv [|kv' l] IH]; [done|cbn [forallb]; rewrite andb_true_r; apply Hf|]. rewrite !fmap_cons. cbn [forallb]. rewrite andb_true_iff. intros [H1 H2].
  change (join "," (format_label kv :: format_label kv' :: (format_label <$> l))) with (format_label kv +:+ "," +:+ join "," (format_label <$> kv' :: l)).
  rewrite !no_newline_app, Hf, IH by done. done.
Qed.

Lemma print_no_newline l : line_ok l = true -> no_newline (print_line l) = true.
Proof.
  destruct l as [name text|name kind|name labels value|]; cbn [line_ok print_line]; [..|done]; rewrite !andb_true_iff.
  1,2: intros [Hn%name_no_newline Ht]; by rewrite !no_newline_app, Hn, Ht.
  intros [[Hn%name_no_newline Hk%label_block_no_newline] Hv]. by rewrite !no_newline_app, Hn, Hk, Hv.
Qed.

(** A text of lines is read back, line by line. *)
Lemma parse_print_lines ls : forallb line_ok ls = true -> parse_text (print_lines ls) = Some (ls ++ [LBlank]).
Proof.
  intros Hls. unfold parse_text. apply mapM_Some. induction ls as [|l ls IH]; [by repeat constructor|]. cbn [forallb] in Hls. apply andb_true_iff in Hls as [Hl Hls]. cbn [print_lines foldr].
  rewrite split_app by (by apply split_none, print_no_newline). constructor; [by apply parse_print|by apply IH].
Qed.

Definition out (output : string) (ls : list Line) : string := output +:+ print_lines ls.

Definition plain_text (s : string) : bool := all_chars plain_char s.

Lemma plain_no_newline s : plain_text s = true -> no_newline s = true.
Proof. apply all_chars_impl. intros a. unfold plain_char. rewrite !andb_true_iff. tauto. Qed.

(** ** The writer writes lines *)
Section writer.
Context {MU : MetricsUtil} {HO : HashOrder}.

Lemma print_lines_app l1 l2 : print_lines (l1 ++ l2) = print_lines l1 +:+ print_lines l2.
Proof.
  induction l1 as [|l l1 IH]; [done|]. change (print_lines ((l :: l1) ++ l2)) with (print_line l +:+ String newline (print_lines (l1 ++ l2))).
  change (print_lines (l :: l1)) with (print_line l +:+ String newline (print_lines l1)). by rewrite <- string_app_assoc, append_cons, IH.
Qed.

Lemma push_labels_more labels : forall l buffer,
  foldl (fun '(buffer, first) label => (if first : bool then buffer +:+ label else buffer +:+ "," +:+ label, false)) (buffer +:+ l, false) labels = (buffer +:+ join "," (l :: labels), false).
Proof.
  induction labels as [|l' labels IH]; intros l buffer; [done|]. cbn [foldl]. replace ((buffer +:+ l) +:+ "," +:+ l') with ((buffer +:+ l +:+ ",") +:+ l') by by rewrite <- !string_app_assoc.
  rewrite IH, <- !string_app_assoc. done.
Qed.

Lemma push_labels_join buffer labels : push_labels buffer labels = (buffer +:+ join "," labels, bool_decide (labels = [])).
Proof. unfold push_labels. destruct labels as [|l labels]; [by rewrite append_nil_r|]. cbn [foldl]. by rewrite push_labels_more. Qed.

Lemma join_snoc l x : l <> [] -> join "," (l ++ [x]) = join "," l +:+ "," +:+ x.
Proof.
  induction l as [|y l IH]; [done|]. intros _. destruct l as [|z l]; [done|]. change (join "," ((y :: z :: l) ++ [x])) with (y +:+ "," +:+ join "," ((z :: l) ++ [x])).
  rewrite IH by done. change (join "," (y :: z :: l)) with (y +:+ "," +:+ join "," (z :: l)). by rewrite <- !string_app_assoc.
Qed.

Lemma label_pairs kvs : forallb (fun kv => key_ok kv.1) kvs = true -> label_pair <$> (format_label <$> kvs) = kvs.
Proof. induction kvs as [|kv kvs IH]; [done|]. cbn [forallb]. rewrite andb_true_iff. intros [Hk Hks]. rewrite !fmap_cons, label_pair_format, IH by done. done. Qed.

(** The texts of labels that can be read. *)
Definition labels_ok (labels : list string) : Prop := exists kvs, labels = format_label <$> kvs /\ forallb (fun kv => key_ok kv.1) kvs = true.

Lemma write_metric_line_out {T T2} `{Display T, Display T2} output name suffix labels (add : option (string * T)) (value : T2) :
  labels_ok labels -> (forall kv, add = Some kv -> plain_text (to_string kv.2) = true) ->
  write_metric_line output name suffix labels add value =
  out output [LSample (match suffix with Some s => name +:+ "_" +:+ s | None => name end) (with_labels labels (match add with Some kv => [(kv.1, to_string kv.2)] | None => [] end)) (to_string value)].
Proof.
  intros (kvs & -> & Hk) Hadd. unfold write_metric_line, out, with_labels. rewrite label_pairs by done. cbn [print_lines foldr print_line].
  set (n := match suffix with Some s => name +:+ "_" +:+ s | None => name end).
  replace (match suffix with Some s => (output +:+ name) +:+ "_" +:+ s | None => output +:+ name end) with (output +:+ n) by (subst n; destruct suffix; by rewrite <- ?string_app_assoc).
  clearbody n. set (pairs := match add with Some kv => [(kv.1, to_string kv.2)] | None => [] end).
  assert (join "," (format_label <$> kvs ++ pairs) =
    match add with
    | Some (name, value) => (if bool_decide (format_label <$> kvs = []) then join "," (format_label <$> kvs) else join "," (format_label <$> kvs) +:+ ",") +:+ name +:+ "=" +:+ String quote (to_string value +:+ String quote "")
    | None => join "," (format_label <$> kvs)
    end) as Hjoin.
  { subst pairs. destruct add as [[k v]|]; [|by rewrite app_nil_r]. rewrite fmap_app, fmap_cons. cbn [fmap list_fmap fst snd]. unfold format_label at 2. cbn [fst snd].
    rewrite escape_plain by apply (Hadd (k, v) eq_refl). destruct kvs as [|kv kvs]; [done|]. by rewrite bool_decide_eq_false_2, join_snoc, <- string_app_assoc. }
  assert ((format_label <$> kvs) <> [] \/ is_Some add <-> kvs ++ pairs <> []) as Hdec.
  { subst pairs. destruct kvs as [|kv kvs]; [|naive_solver]. destruct add as [?|]; cbn; split; naive_solver. }
  destruct (decide (_ \/ _)) as [Hd|Hd].
  - rewrite push_labels_join. apply Hdec in Hd. unfold label_block. destruct (kvs ++ pairs) as [|kv l] eqn:El; [done|]. rewrite Hjoin. rewrite <- !string_app_assoc.
    destruct add as [[k v]|]; [|by rewrite <- !string_app_assoc]. case_bool_decide; by rewrite <- !string_app_assoc.
  - assert (kvs ++ pairs = []) as -> by (destruct (kvs ++ pairs); naive_solver). by rewrite <- !string_app_assoc.
Qed.

Lemma out_app output l1 l2 : out (out output l1) l2 = out output (l1 ++ l2).
Proof. unfold out. by rewrite print_lines_app, <- string_app_assoc. Qed.

Lemma out_nil output : out output [] = output.
Proof. apply append_nil_r. Qed.

(** A loop that writes some lines in every turn. *)
Lemma foldl_out {A} (f : string -> A -> string) (g : A -> list Line) l :
  (forall output x, x ∈ l -> f output x = out output (g x)) -> forall output, foldl f output l = out output (l ≫= g).
Proof.
  induction l as [|x l IH]; intros Hf output; [by rewrite out_nil|]. cbn [foldl]. rewrite Hf by left. rewrite IH by (intros; apply Hf; by right).
  rewrite out_app. done.
Qed.

Lemma newline_out output : output +:+ String newline "" = out output [LBlank].
Proof. done. Qed.

Lemma write_description_out descriptions name output :
  write_description descriptions name output = out output (match descriptions !! name with Some desc => [LHelp name desc] | None => [] end).
Proof.
  unfold write_description. destruct (_ !! _); [|by rewrite out_nil]. unfold write_help_line, out. cbn [print_lines foldr print_line]. by rewrite <- !string_app_assoc.
Qed.

Lemma write_type_line_out output name kind : write_type_line output name kind = out output [LType name kind].
Proof. unfold write_type_line, out. cbn [print_lines foldr print_line]. by rewrite <- !string_app_assoc. Qed.

(** What the crate's floats print as: no quote, no backslash, no newline. *)
Context (Hplain : forall x : F64, plain_text (f64_to_string x) = true).

Lemma write_distribution_out name output ld : labels_ok ld.1 -> write_distribution name output ld = out output (distribution_lines name ld).
Proof.
  intros Hl. destruct ld as [labels [h|summary qs sum]]; cbn [fst] in Hl; unfold write_distribution, distribution_lines.
  - rewrite (foldl_out _ (fun lc => [LSample (name +:+ "_bucket") (with_labels labels [("le", to_string lc.1)]) (to_string lc.2)])).
    2: { intros o [le count] _. rewrite write_metric_line_out; [done..|]. intros kv [= <-]. apply Hplain. }
    rewrite !write_metric_line_out; try done. 2: { by intros kv [= <-]. }
    by rewrite !out_app, <- ?app_assoc.
  - rewrite (foldl_out _ (fun q => [LSample name (with_labels labels [("quantile", to_string q)]) (to_string (default f64_zero (summary_quantile q summary)))])).
    2: { intros o q _. rewrite write_metric_line_out; [done..|]. intros kv [= <-]. apply Hplain. }
    rewrite !write_metric_line_out; try done.
    by rewrite !out_app, <- ?app_assoc.
Qed.

(** Every set of labels of a table can be read. *)
Definition table_ok {V} (m : gmap string (gmap (list string) V)) : Prop :=
  map_Forall (fun name by_labels => name_ok name = true /\ map_Forall (fun labels (_ : V) => labels_ok labels) by_labels) m.

Lemma write_families_out {V} (descriptions : gmap string string) (kind : string -> string) (write : string -> string -> list string * V -> string)
  (lines : string -> list string * V -> list Line) (m : gmap string (gmap (list string) V)) (output : string) :
  table_ok m -> (forall name output lv, labels_ok lv.1 -> write name output lv = out output (lines name lv)) ->
  foldl (fun output '(name, by_labels) =>
    foldl (write name) (write_type_line (write_description descriptions name output) name (kind name)) (hiter by_labels) +:+ String newline "") output (hiter m) =
  out output (hiter m ≫= family_lines descriptions kind lines).
Proof.
  intros Hm Hw. apply foldl_out. intros o [name by_labels] [_ Hl]%elem_of_hiter%Hm. rewrite write_description_out, write_type_line_out.
  rewrite (foldl_out _ (lines name)). 2: { intros o' [labels v] Hin%elem_of_hiter%Hl. by apply Hw. }
  rewrite newline_out, !out_app. unfold family_lines. cbn [fst snd]. by rewrite <- ?app_assoc.
Qed.

Definition snapshot_ok (s : Snapshot) : Prop := table_ok (s_counters s) /\ table_ok (s_gauges s) /\ table_ok (s_distributions s).

Lemma render_text_lines descriptions b s : snapshot_ok s -> render_text descriptions b s = print_lines (snapshot_lines descriptions b s).
Proof.
  intros (Hc & Hg & Hd). unfold render_text, snapshot_lines. cbv zeta.
  assert (forall V `{Display V} name output (lv : list string * V), labels_ok lv.1 -> (let '(labels, value) := lv in write_metric_line (T := string) output name None labels None value) = out output (value_lines name lv)) as Hv.
  { intros V HD name output [labels v] Hl. by rewrite write_metric_line_out. }
  rewrite (write_families_out descriptions (fun _ => "counter") (fun name output '(labels, value) => write_metric_line (T := string) output name None labels None value) value_lines) by auto.
  rewrite (write_families_out descriptions (fun _ => "gauge") (fun name output '(labels, value) => write_metric_line (T := string) output name None labels None value) value_lines) by auto.
  rewrite (write_families_out descriptions (get_distribution_type b) write_distribution distribution_lines) by auto using write_distribution_out.
  by rewrite !out_app.
Qed.
End writer.

(** ** What the crates promise

    A handle is of one kind; a counter adds, wrapping at 64 bits; a histogram gives every
    sample once, in slices whose order is not promised. Every operation on a key gives its
    handle a larger generation. [should_store] drops a key, if its kind is in the mask,
    when it has seen the same generation before; then it forgets the key as well. *)
Class MetricsUtilOk `{MU : MetricsUtil} := {
  f64_plain : forall x : F64, plain_text (f64_to_string x) = true;
  handle_kind : Handle -> MetricKind;
  kind_counter : handle_kind Handle_counter = KCounter;
  kind_gauge : handle_kind Handle_gauge = KGauge;
  kind_histogram : handle_kind Handle_histogram = KHistogram;
  kind_increment : forall v h, handle_kind (h_increment_counter v h) = handle_kind h;
  kind_update : forall v h, handle_kind (h_update_gauge v h) = handle_kind h;
  kind_record : forall v h, handle_kind (h_record_histogram v h) = handle_kind h;
  counter_value : Handle -> Z;
  counter_range : forall h, in_u 64 (counter_value h);
  counter_new : counter_value Handle_counter = 0;
  counter_incremented : forall v h, handle_kind h = KCounter -> counter_value (h_increment_counter v h) = counter_value h +u64 v;
  counter_read : forall h, handle_kind h = KCounter -> read_counter h = Ok (counter_value h);
  gauge_read : forall h, handle_kind h = KGauge -> exists v, read_gauge h = Ok v;
  samples : Handle -> list F64;
  samples_new : samples Handle_histogram = [];
  samples_recorded : forall v h, handle_kind h = KHistogram -> samples (h_record_histogram v h) ≡ₚ v :: samples h;
  samples_read : forall h, handle_kind h = KHistogram -> exists blocks h',
    read_histogram_with_clear h = Ok (blocks, h') /\ concat blocks ≡ₚ samples h /\ samples h' = [] /\ handle_kind h' = KHistogram;
  handles_new : get_handles Registry_new = ∅;
  handles_op : forall k f new r, exists g, get_handles (registry_op k f new r) = <[k := (g, f (default new (snd <$> get_handles r !! k)))]> (get_handles r) /\
    forall g0 h0, get_handles r !! k = Some (g0, h0) -> (g0 < g)%nat;
  handles_store : forall k h r g h0, get_handles r !! k = Some (g, h0) -> get_handles (store_handle k h r) = <[k := (g, h)]> (get_handles r);
  seen : Recency -> CompositeKey -> option nat;
  seen_new : forall mask timeout k, seen (Recency_new mask timeout) k = None;
  store_spec : forall now kind k g h r c, get_handles r !! k = Some (g, h) ->
    match should_store now kind k g r c with
    | (true, r', c') => get_handles r' = get_handles r /\ (seen c' k = Some g \/ seen c' k = seen c k) /\ forall k', k' <> k -> seen c' k' = seen c k'
    | (false, r', c') => get_handles r' = delete k (get_handles r) /\ seen c k = Some g /\ seen c' k = None /\ forall k', k' <> k -> seen c' k' = seen c k'
    end;
  mask_of : Recency -> list MetricKind;
  mask_new : forall mask timeout, mask_of (Recency_new mask timeout) = mask;
  store_mask : forall now kind k g r c, mask_of (should_store now kind k g r c).2 = mask_of c /\ ((should_store now kind k g r c).1.1 = false -> kind ∈ mask_of c)
}.

(** ** Any use of the recorder *)
Section recorder.
Context `{MUOk : MetricsUtilOk} {HO : HashOrder}.

Inductive RecorderOp :=
  | Op_register (kind : MetricKind) (key : Key) (description : option string)
  | Op_increment (key : Key) (value : Z)
  | Op_update (key : Key) (value : GaugeValue)
  | Op_record (key : Key) (value : F64)
  | Op_scrape (now : Z).

Definition recorder_step (inner : Inner) (op : RecorderOp) : res string Inner :=
  match op with
  | Op_register KCounter key d => Ok (register_counter key d inner)
  | Op_register KGauge key d => Ok (register_gauge key d inner)
  | Op_register KHistogram key d => Ok (register_histogram key d inner)
  | Op_increment key v => Ok (increment_counter key v inner)
  | Op_update key v => Ok (update_gauge key v inner)
  | Op_record key v => Ok (record_histogram key v inner)
  | Op_scrape now => let* (inner, _) := render now inner in Ok inner
  end.

Definition op_key (op : RecorderOp) : option CompositeKey :=
  match op with
  | Op_register kind key _ => Some (kind, key)
  | Op_increment key _ => Some (KCounter, key)
  | Op_update key _ => Some (KGauge, key)
  | Op_record key _ => Some (KHistogram, key)
  | Op_scrape _ => None
  end.

(** The samples that the operations record under a key. *)
Definition recorded (key : Key) (ops : list RecorderOp) : list F64 :=
  omap (fun op => match op with Op_record key' v => if decide (key' = key) then Some v else None | _ => None end) ops.

(** By how much they increment a counter. *)
Definition incremented (key : Key) (ops : list RecorderOp) : Z :=
  foldr (fun op s => match op with Op_increment key' v => if decide (key' = key) then v + s else s | _ => s end) 0 ops.

Abbreviation recent := (Inner * gmap string (gmap (list string) Z) * gmap string (gmap (list string) F64))%type.
Abbreviation handles i := (get_handles (i_registry i)).

(** What the registry holds under a key. *)
Definition counter_at (inner : Inner) (key : Key) : Z := from_option (counter_value ∘ snd) 0 (handles inner !! (KCounter, key)).
Definition pending (inner : Inner) (key : Key) : list F64 := from_option (samples ∘ snd) [] (handles inner !! (KHistogram, key)).

(** A distribution can be made for every name: no list of buckets is empty. *)
Definition builder_ok (b : DistributionBuilder) : Prop := forall name, is_Some (get_distribution b name).

(** The configuration a recorder was built with. *)
Definition config (inner : Inner) : DistributionBuilder * gmap string string := (i_distribution_builder inner, i_global_labels inner).

Record recorder_inv (inner : Inner) : Prop := {
  ri_kinds : forall kind key g h, handles inner !! (kind, key) = Some (g, h) -> handle_kind h = kind;
  ri_seen : forall k g, seen (i_recency inner) k = Some g -> exists g' h, handles inner !! k = Some (g', h) /\ (g <= g')%nat /\ (g = g' -> k.1 = KHistogram -> samples h = [])
}.

(** One turn of the loop of a scrape over a key. *)
Record turn_spec (k : CompositeKey) (g : nat) (h : Handle) (st st' : recent) : Prop := {
  ts_inv : recorder_inv st'.1.1;
  ts_config : config st'.1.1 = config st.1.1;
  ts_descriptions : i_descriptions st'.1.1 = i_descriptions st.1.1;
  ts_frame : forall k', k' <> k -> handles st'.1.1 !! k' = handles st.1.1 !! k' /\ seen (i_recency st'.1.1) k' = seen (i_recency st.1.1) k';
  ts_counters : st'.1.2 = st.1.2 /\ (k.1 = KCounter -> seen (i_recency st.1.1) k = Some g) \/
    k.1 = KCounter /\ st'.1.2 = let parts := key_to_parts k.2 (i_global_labels st.1.1) in set_entry parts.1 parts.2 (counter_value h) st.1.2;
  ts_gauges : st'.2 = st.2 \/ exists v, st'.2 = let parts := key_to_parts k.2 (i_global_labels st.1.1) in set_entry parts.1 parts.2 v st.2;
  ts_distributions :
    i_distributions st'.1.1 = i_distributions st.1.1 /\ (k.1 = KHistogram -> samples h = [] /\ pending st'.1.1 k.2 = []) /\ (k.1 = KHistogram -> k.1 ∈ mask_of (i_recency st.1.1)) \/
    k.1 = KHistogram /\ pending st'.1.1 k.2 = [] /\ exists d blocks,
      let parts := key_to_parts k.2 (i_global_labels st.1.1) in
      (entry parts.1 parts.2 (i_distributions st.1.1) = Some d \/
       entry parts.1 parts.2 (i_distributions st.1.1) = None /\ get_distribution (i_distribution_builder st.1.1) parts.1 = Some d) /\
      concat blocks ≡ₚ samples h /\ i_distributions st'.1.1 = set_entry parts.1 parts.2 (foldl record_samples d blocks) (i_distributions st.1.1);
  ts_mask : mask_of (i_recency st'.1.1) = mask_of (i_recency st.1.1) /\ (k.1 ∉ mask_of (i_recency st.1.1) -> is_Some (handles st'.1.1 !! k))
}.

Lemma recorder_seen_none inner k g h : recorder_inv inner -> handles inner !! k = Some (g, h) -> k.1 = KHistogram -> seen (i_recency inner) k = Some g -> samples h = [].
Proof. intros Hinv Hk Hkind Hs. destruct (ri_seen _ Hinv _ _ Hs) as (g' & h' & Hk' & _ & Hsame). rewrite Hk in Hk'. injection Hk' as <- <-. auto. Qed.

(** Changing what the registry holds under one key keeps the invariant. *)
Lemma inv_update inner inner' k g h : recorder_inv inner -> handle_kind h = k.1 -> handles inner' = <[k := (g, h)]> (handles inner) ->
  (forall k', k' <> k -> seen (i_recency inner') k' = seen (i_recency inner) k') ->
  (forall g0, seen (i_recency inner') k = Some g0 -> (g0 <= g)%nat /\ (g0 = g -> k.1 = KHistogram -> samples h = [])) -> recorder_inv inner'.
Proof.
  intros [Hkinds Hseen] Hh He Hs Hk. split; rewrite He.
  - intros kind key g0 h0. destruct (decide ((kind, key) = k)) as [<-|Hne]; [rewrite lookup_insert_eq; by intros [= <- <-]|]. rewrite lookup_insert_ne by done. apply Hkinds.
  - intros k' g0 Hg0. destruct (decide (k' = k)) as [->|Hne]; [exists g, h; rewrite lookup_insert_eq; split; [done|by apply Hk]|].
    rewrite lookup_insert_ne by done. apply Hseen. by rewrite <- Hs.
Qed.

Lemma recent_turn_ok now st k g h : recorder_inv st.1.1 -> builder_ok (i_distribution_builder st.1.1) -> handles st.1.1 !! k = Some (g, h) ->
  exists st', recent_turn now st (k, (g, h)) = Ok st' /\ turn_spec k g h st st'.
Proof.
  intros Hinv Hb Hk. destruct st as [[inner counters] gauges]. cbn [fst snd] in *. destruct k as [kind key]. pose proof (ri_kinds _ Hinv _ _ _ _ Hk) as Hkind.
  unfold recent_turn. pose proof (store_spec now kind (kind, key) g h (i_registry inner) (i_recency inner) Hk) as Hs. destruct (store_mask now kind (kind, key) g (i_registry inner) (i_recency inner)) as [Hmask Hdrop].
  destruct (should_store _ _ _ _ _ _) as [[[|] r'] c']; cbn [negb fst snd] in *.
  - destruct Hs as (Hr & Hc & Hother).
    assert (recorder_inv (set_registry r' c' inner) \/ kind = KHistogram) as Hinv'.
    { destruct (decide (kind = KHistogram)) as [|Hn]; [by right|left]. apply (inv_update inner _ (kind, key) g h); [done|done| |done|].
      - cbn. rewrite Hr. by rewrite insert_id.
      - cbn. intros g0 Hg0. destruct Hc as [Hc|Hc]; rewrite Hc in Hg0; [injection Hg0 as <-; by split|]. destruct (ri_seen _ Hinv _ _ Hg0) as (g' & h' & Hk' & Hle & _). rewrite Hk in Hk'. injection Hk' as <- <-. by split. }
    assert (mask_of c' = mask_of (i_recency inner) /\ (kind ∉ mask_of (i_recency inner) -> is_Some (get_handles r' !! (kind, key)))) as Hkept by (rewrite Hr, Hk; by eauto).
    destruct kind; cbn -[key_to_parts entry set_entry].
    + cbn. rewrite counter_read by done. destruct Hinv' as [Hinv'|]; [|done]. eexists. split; [done|]. split; cbn; try done; try (by left); auto. intros k' Hk'. rewrite Hr. auto.
    + cbn. destruct (gauge_read h Hkind) as [v ->]. destruct Hinv' as [Hinv'|]; [|done]. eexists. split; [done|]. split; cbn; try done; try (by left); eauto. intros k' Hk'. rewrite Hr. auto.
    + set (parts := key_to_parts key (i_global_labels inner)). destruct (samples_read h Hkind) as (blocks & h' & Hread & Hperm & Hempty & Hkind').
      assert (exists d, match entry parts.1 parts.2 (i_distributions inner) with Some d => Ok d | None => unwrap "failed to create distribution" (get_distribution (i_distribution_builder inner) parts.1) end = Ok (E := string) d /\
        (entry parts.1 parts.2 (i_distributions inner) = Some d \/ entry parts.1 parts.2 (i_distributions inner) = None /\ get_distribution (i_distribution_builder inner) parts.1 = Some d)) as (d & Hd & Hsrc).
      { destruct (entry _ _ _) as [d|]; [by exists d; auto|]. destruct (Hb parts.1) as [d Hd]. exists d. rewrite Hd. auto. }
      destruct parts as [name labels] eqn:Ep. cbn [fst snd] in *. rewrite Hd. cbn [mbind res_bind]. rewrite Hread. cbn [mbind res_bind]. eexists. split; [done|].
      assert (get_handles (store_handle (KHistogram, key) h' r') = <[(KHistogram, key) := (g, h')]> (handles inner)) as Hst by (rewrite <- Hr; by apply handles_store with h; rewrite Hr).
      split; cbn -[key_to_parts entry set_entry]; try done.
      * apply (inv_update inner _ (KHistogram, key) g h'); [done|done|done|done|]. cbn. intros g0 Hg0. split; [|done].
        destruct Hc as [Hc|Hc]; rewrite Hc in Hg0; [by injection Hg0 as <-|]. destruct (ri_seen _ Hinv _ _ Hg0) as (g' & h0 & Hk' & Hle & _). rewrite Hk in Hk'. by injection Hk' as <- <-.
      * intros k' Hk'. rewrite Hst, lookup_insert_ne by done. auto.
      * by left.
      * by left.
      * right. split; [done|]. split; [unfold pending; cbn; by rewrite Hst, lookup_insert_eq|]. exists d, blocks. unfold parts in Ep. rewrite Ep. auto.
      * split; [done|]. intros _. rewrite Hst, lookup_insert_eq. by eexists.
  - destruct Hs as (Hr & Hg & Hc & Hother). eexists. split; [done|].
    assert (recorder_inv (set_registry r' c' inner)) as Hinv'.
    { split; cbn; rewrite Hr.
      - intros kind' key' g' h'. rewrite lookup_delete_Some. intros [_ H]. by eapply ri_kinds.
      - intros k' g' Hg'. destruct (decide (k' = (kind, key))) as [->|Hne]; [congruence|]. rewrite lookup_delete_ne by done. apply (ri_seen _ Hinv). by rewrite <- Hother. }
    split; cbn; try done; auto.
    + intros k' Hk'. rewrite Hr, lookup_delete_ne by done. auto.
    + left. split; [done|]. split; [|by auto]. intros ->. split; [by eapply (recorder_seen_none inner (KHistogram, key))|]. unfold pending. cbn. by rewrite Hr, lookup_delete_eq.
    + split; [done|]. intros Hn. by destruct Hn; apply Hdrop.
Qed.

(** All turns of a scrape. *)
Fixpoint turns (l : list (CompositeKey * (nat * Handle))) (st st' : recent) : Prop :=
  match l with
  | [] => st' = st
  | (k, (g, h)) :: l => handles st.1.1 !! k = Some (g, h) /\ exists st1, turn_spec k g h st st1 /\ turns l st1 st'
  end.

Lemma turns_ok now l : forall st, recorder_inv st.1.1 -> builder_ok (i_distribution_builder st.1.1) -> NoDup l.*1 -> (forall k gh, (k, gh) ∈ l -> handles st.1.1 !! k = Some gh) ->
  exists st', foldM (recent_turn now) st l = Ok st' /\ turns l st st' /\ recorder_inv st'.1.1 /\ config st'.1.1 = config st.1.1 /\ i_descriptions st'.1.1 = i_descriptions st.1.1.
Proof.
  induction l as [|[k [g h]] l IH]; intros st Hinv Hb Hnd Hl; [by exists st|]. rewrite fmap_cons in Hnd. apply NoDup_cons in Hnd as [Hk Hnd].
  assert (handles st.1.1 !! k = Some (g, h)) as Hin by (apply Hl; by left). destruct (recent_turn_ok now st k g h Hinv Hb Hin) as (st1 & Hturn & Hspec).
  destruct (IH st1) as (st' & Hfold & Hturns & Hinv' & Hc & Hd).
  - apply (ts_inv _ _ _ _ _ Hspec).
  - pose proof (ts_config _ _ _ _ _ Hspec) as Hc. injection Hc as -> _. done.
  - done.
  - intros k' gh Hk'. rewrite (proj1 (ts_frame _ _ _ _ _ Hspec k' ltac:(intros ->; apply Hk, list_elem_of_fmap; by exists (k, gh)))). apply Hl. by right.
  - exists st'. cbn [foldM]. rewrite Hturn. split; [done|]. split; [cbn; eauto|]. split; [done|]. rewrite Hc, Hd. split; [apply (ts_config _ _ _ _ _ Hspec)|apply (ts_descriptions _ _ _ _ _ Hspec)].
Qed.

(** What holds of the tables through all turns of keys that satisfy [P]. *)
Lemma turns_ind (P : CompositeKey -> Prop) (Q : recent -> Prop) l : Forall P l.*1 ->
  (forall k g h st st', (k, (g, h)) ∈ l -> P k -> Q st -> handles st.1.1 !! k = Some (g, h) -> turn_spec k g h st st' -> Q st') -> forall st st', Q st -> turns l st st' -> Q st'.
Proof.
  induction l as [|[k [g h]] l IH]; intros HP Hstep st st' HQ; [by intros ->|]. rewrite fmap_cons in HP. apply Forall_cons in HP as [Hk HP]. intros (Hin & st1 & Hspec & Hturns).
  apply (IH HP) with st1; [|apply (Hstep k g h st); try done; by left|done]. intros k' g' h' st2 st3 Hel. apply Hstep. by right.
Qed.

Lemma entry_set {V} name labels (v : V) m : entry name labels (set_entry name labels v m) = Some v.
Proof. unfold entry, set_entry. rewrite lookup_insert_eq. cbn [mbind option_bind]. by rewrite lookup_insert_eq. Qed.

Lemma entry_set_ne {V} name labels name' labels' (v : V) m : (name', labels') <> (name, labels) -> entry name labels (set_entry name' labels' v m) = entry name labels m.
Proof.
  intros Hne. unfold entry, set_entry. destruct (decide (name' = name)) as [->|Hn]; [|by rewrite lookup_insert_ne].
  rewrite lookup_insert_eq. cbn [mbind option_bind]. rewrite lookup_insert_ne by congruence. by destruct (m !! name).
Qed.

(** The tables stay readable. *)
Definition key_readable (globals : gmap string string) (key : Key) : Prop :=
  let parts := key_to_parts key globals in name_ok parts.1 = true /\ labels_ok parts.2.

Lemma table_ok_set {V} name labels (v : V) m : table_ok m -> name_ok name = true -> labels_ok labels -> table_ok (set_entry name labels v m).
Proof.
  intros Hm Hn Hl. unfold table_ok, set_entry. apply map_Forall_insert_2; [|done]. split; [done|]. apply map_Forall_insert_2; [done|].
  destruct (m !! name) as [t|] eqn:E; [by apply Hm in E as [_ ?]|]. apply map_Forall_empty.
Qed.

Lemma turns_tables globals l st st' : Forall (fun k => key_readable globals k.2) l.*1 -> i_global_labels st.1.1 = globals -> turns l st st' ->
  table_ok st.1.2 -> table_ok st.2 -> table_ok (i_distributions st.1.1) -> table_ok st'.1.2 /\ table_ok st'.2 /\ table_ok (i_distributions st'.1.1).
Proof.
  intros Hl Hg Hturns H1 H2 H3.
  eapply (turns_ind _ (fun st => i_global_labels st.1.1 = globals /\ table_ok st.1.2 /\ table_ok st.2 /\ table_ok (i_distributions st.1.1)) l Hl) with st; [|done..].
  intros k g h s s' _ [Hn Hlab] (Hgl & Hc & Hgau & Hd) _ [_ Hconf _ _ Hcounters Hgauges Hdist]. injection Hconf as _ Hgl'. rewrite Hgl in Hgl'. split; [done|]. split_and!.
  - destruct Hcounters as [[-> _]|[_ ->]]; [done|]. rewrite Hgl. by apply table_ok_set.
  - destruct Hgauges as [->|[v ->]]; [done|]. rewrite Hgl. by apply table_ok_set.
  - destruct Hdist as [[-> _]|(_ & _ & d & blocks & _ & _ & ->)]; [done|]. rewrite Hgl. by apply table_ok_set.
Qed.

(** A counter that has changed since the scrape before is in the table with its value. *)
Lemma turns_counter globals key g h l : (forall key', (KCounter, key') ∈ l.*1 -> key' <> key -> key_to_parts key' globals <> key_to_parts key globals) ->
  forall st st', NoDup l.*1 -> i_global_labels st.1.1 = globals -> ((KCounter, key), (g, h)) ∈ l -> seen (i_recency st.1.1) (KCounter, key) <> Some g -> turns l st st' ->
  let parts := key_to_parts key globals in entry parts.1 parts.2 st'.1.2 = Some (counter_value h).
Proof.
  intros Hdist st st' Hnd Hgl Hin Hs. revert st Hgl Hs. induction l as [|[k [g' h']] l IH]; intros st Hgl Hs; [by apply not_elem_of_nil in Hin|].
  rewrite fmap_cons in Hnd. apply NoDup_cons in Hnd as [Hk Hnd]. intros (Hlook & st1 & Hspec & Hturns). cbn zeta.
  assert (i_global_labels st1.1.1 = globals) as Hgl1 by (pose proof (ts_config _ _ _ _ _ Hspec) as Hc; injection Hc as _ ->; done).
  apply elem_of_cons in Hin as [[= <- <- <-]|Hin].
  - assert (forall key', (KCounter, key') ∈ l.*1 -> key_to_parts key' globals <> key_to_parts key globals) as Hne.
    { intros key' Hkey'. apply Hdist; [rewrite fmap_cons; by right|]. intros ->. done. }
    assert (entry (key_to_parts key globals).1 (key_to_parts key globals).2 st1.1.2 = Some (counter_value h)) as H1.
    { destruct (ts_counters _ _ _ _ _ Hspec) as [[_ H]|[_ ->]]; [by destruct Hs; apply H|]. cbn zeta. rewrite Hgl. apply entry_set. }
    apply (turns_ind (fun k => forall key', k = (KCounter, key') -> key_to_parts key' globals <> key_to_parts key globals)
      (fun s => i_global_labels s.1.1 = globals /\ entry (key_to_parts key globals).1 (key_to_parts key globals).2 s.1.2 = Some (counter_value h)) l) with st1; [|..|done|done].
    { apply Forall_forall. intros k' Hk' key' ->. auto. }
    intros [kind2 key2] g2 h2 s s' _ Hp [Hg2 He] _ Hspec2. pose proof (ts_config _ _ _ _ _ Hspec2) as Hc. injection Hc as _ ->. split; [done|].
    destruct (ts_counters _ _ _ _ _ Hspec2) as [[-> _]|[Hk2 ->]]; [done|]. cbn in Hk2. subst kind2. cbn zeta. rewrite Hg2, entry_set_ne; [done|].
    intros He2. apply (Hp key2 eq_refl). by rewrite <- !surjective_pairing in He2.
  - apply (IH ltac:(intros; apply Hdist; [rewrite fmap_cons; by right|done]) Hnd Hin st1 Hgl1); [|done].
    rewrite (proj2 (ts_frame _ _ _ _ _ Hspec (KCounter, key) ltac:(intros <-; apply Hk, list_elem_of_fmap; by exists ((KCounter, key), (g, h))))). done.
Qed.

(** The distribution of a histogram: nothing yet, or a fresh one fed with slices. *)
Definition holds (b : DistributionBuilder) (globals : gmap string string) (key : Key) (inner : Inner) (blocks : list (list F64)) : Prop :=
  let parts := key_to_parts key globals in
  entry parts.1 parts.2 (i_distributions inner) = None /\ blocks = [] \/
  exists d, get_distribution b parts.1 = Some d /\ entry parts.1 parts.2 (i_distributions inner) = Some (foldl record_samples d blocks).

(** A scrape moves the pending samples of a histogram into its distribution. *)
Lemma turns_samples b globals key l st st' : (forall key', (KHistogram, key') ∈ l.*1 -> key' <> key -> key_to_parts key' globals <> key_to_parts key globals) ->
  config st.1.1 = (b, globals) -> turns l st st' -> forall blocks, holds b globals key st.1.1 blocks ->
  exists blocks', holds b globals key st'.1.1 blocks' /\ concat blocks' ++ pending st'.1.1 key ≡ₚ concat blocks ++ pending st.1.1 key.
Proof.
  intros Hdist Hconf Hturns blocks Hholds.
  apply (turns_ind (fun k => forall key', k = (KHistogram, key') -> key' <> key -> key_to_parts key' globals <> key_to_parts key globals)
    (fun s => config s.1.1 = (b, globals) /\ exists blocks', holds b globals key s.1.1 blocks' /\ concat blocks' ++ pending s.1.1 key ≡ₚ concat blocks ++ pending st.1.1 key) l) with st; [|..|by eauto|done].
  { apply Forall_forall. intros k Hk key' -> Hne. by apply Hdist. }
  clear st' Hturns Hdist. intros [kind key2] g h s s' _ Hp [Hc (acc & Hacc & Hperm)] Hlook Hspec. rewrite (ts_config _ _ _ _ _ Hspec). split; [done|].
  assert (i_global_labels s.1.1 = globals /\ i_distribution_builder s.1.1 = b) as [Hgl Hb] by (by injection Hc).
  destruct (decide ((kind, key2) = (KHistogram, key))) as [[= -> ->]|Hne].
  - assert (pending s.1.1 key = samples h) as Hpend by (unfold pending; by rewrite Hlook).
    destruct (ts_distributions _ _ _ _ _ Hspec) as [(Heq & Hsame & _)|(_ & Hp' & d & more & Hsrc & Hmore & Hset)]; cbn zeta in *; cbn [snd] in *.
    + destruct (Hsame eq_refl) as [Hs Hs']. exists acc. unfold holds. rewrite Heq, Hs'. rewrite Hpend, Hs in Hperm. by split.
    + exists (acc ++ more). rewrite Hp', app_nil_r, concat_app, Hmore, <- Hpend. split; [|done]. rewrite Hgl, Hb in Hsrc. rewrite Hgl in Hset. right.
      destruct Hacc as [[Hnone ->]|(d0 & Hd0 & Hsome)]; destruct Hsrc as [Hsrc|[Hsrc Hget]]; try congruence.
      * exists d. split; [done|]. by rewrite Hset, entry_set.
      * exists d0. split; [done|]. rewrite Hset, entry_set, foldl_app. congruence.
  - destruct (ts_frame _ _ _ _ _ Hspec (KHistogram, key) ltac:(done)) as [Hf _]. exists acc. assert (pending s'.1.1 key = pending s.1.1 key) as -> by (unfold pending; by rewrite Hf). split; [|done].
    assert (entry (key_to_parts key globals).1 (key_to_parts key globals).2 (i_distributions s'.1.1) = entry (key_to_parts key globals).1 (key_to_parts key globals).2 (i_distributions s.1.1)) as He.
    { destruct (ts_distributions _ _ _ _ _ Hspec) as [[-> _]|(Hkind & _ & d & more & _ & _ & ->)]; [done|]. cbn in Hkind. subst kind. cbn zeta. rewrite Hgl. apply entry_set_ne.
      cbn [snd]. rewrite <- !surjective_pairing. apply Hp; [done|]. intros ->. done. }
    unfold holds. by rewrite He.
Qed.

Lemma turns_pending key l st st' : NoDup l.*1 -> (KHistogram, key) ∈ l.*1 -> turns l st st' -> pending st'.1.1 key = [].
Proof.
  revert st. induction l as [|[k [g h]] l IH]; intros st Hnd Hin; [by apply not_elem_of_nil in Hin|]. rewrite fmap_cons in Hnd, Hin. apply NoDup_cons in Hnd as [Hk Hnd]. intros (Hlook & st1 & Hspec & Hturns).
  apply elem_of_cons in Hin as [Hk0|Hin]; [|by apply IH with st1]. cbn in Hk0, Hk. subst k.
  apply (turns_ind (fun k => k <> (KHistogram, key)) (fun s => pending s.1.1 key = []) l) with st1; [| | |done].
  - apply Forall_forall. intros k Hk' ->. done.
  - intros k2 g2 h2 s s' _ Hne Hs _ Hspec2. unfold pending. by rewrite (proj1 (ts_frame _ _ _ _ _ Hspec2 (KHistogram, key) ltac:(done))).
  - destruct (ts_distributions _ _ _ _ _ Hspec) as [(_ & H & _)|(_ & H & _)]; [by apply H|done].
Qed.

(** ** Runs *)
Definition distinct (kind : MetricKind) (globals : gmap string string) (key : Key) (ops : list RecorderOp) : Prop :=
  forall key', Some (kind, key') ∈ op_key <$> ops -> key' <> key -> key_to_parts key' globals <> key_to_parts key globals.

Definition descriptions_ok (descriptions : gmap string string) : Prop := map_Forall (fun _ desc => no_newline desc = true) descriptions.

Definition op_readable (globals : gmap string string) (op : RecorderOp) : Prop :=
  (forall k, op_key op = Some k -> key_readable globals k.2) /\ match op with Op_register _ _ (Some desc) => no_newline desc = true | _ => True end.

Record run_inv (b : DistributionBuilder) (globals : gmap string string) (ops : list RecorderOp) (inner : Inner) : Prop := {
  rn_inv : recorder_inv inner;
  rn_config : config inner = (b, globals);
  rn_keys : forall k, is_Some (handles inner !! k) -> Some k ∈ op_key <$> ops;
  rn_texts : Forall (op_readable globals) ops -> table_ok (i_distributions inner) /\ descriptions_ok (i_descriptions inner);
  rn_samples : forall key, distinct KHistogram globals key ops -> exists blocks, holds b globals key inner blocks /\ concat blocks ++ pending inner key ≡ₚ recorded key ops
}.

(** What an operation on a key does to the registry. *)
Definition op_effect (op : RecorderOp) : option (CompositeKey * (Handle -> Handle) * Handle) :=
  match op with
  | Op_register KCounter key _ => Some ((KCounter, key), fun h => h, Handle_counter)
  | Op_register KGauge key _ => Some ((KGauge, key), fun h => h, Handle_gauge)
  | Op_register KHistogram key _ => Some ((KHistogram, key), fun h => h, Handle_histogram)
  | Op_increment key v => Some ((KCounter, key), h_increment_counter v, Handle_counter)
  | Op_update key v => Some ((KGauge, key), h_update_gauge v, Handle_gauge)
  | Op_record key v => Some ((KHistogram, key), h_record_histogram v, Handle_histogram)
  | Op_scrape _ => None
  end.

Lemma add_description_same key d inner : let inner' := add_description_if_missing key d inner in
  i_registry inner' = i_registry inner /\ i_recency inner' = i_recency inner /\ i_distributions inner' = i_distributions inner /\ config inner' = config inner /\
  (i_descriptions inner' = i_descriptions inner \/ exists t, d = Some t /\ i_descriptions inner' = <[key_name key := t]> (i_descriptions inner)).
Proof. destruct d as [t|]; cbn; [destruct (_ !! _); cbn; split_and!; eauto|split_and!; auto]. Qed.

Lemma op_effect_ok op k f new inner : op_effect op = Some (k, f, new) -> exists inner' g, recorder_step inner op = Ok inner' /\ op_key op = Some k /\
  handles inner' = <[k := (g, f (default new (snd <$> handles inner !! k)))]> (handles inner) /\ (forall g0 h0, handles inner !! k = Some (g0, h0) -> (g0 < g)%nat) /\
  handle_kind new = k.1 /\ (forall h, handle_kind (f h) = handle_kind h) /\
  i_recency inner' = i_recency inner /\ i_distributions inner' = i_distributions inner /\ config inner' = config inner /\
  (op_readable (i_global_labels inner) op -> descriptions_ok (i_descriptions inner) -> descriptions_ok (i_descriptions inner')).
Proof.
  intros He. assert (exists inner0, recorder_step inner op = Ok (registry_step k f new inner0) /\ i_registry inner0 = i_registry inner /\ i_recency inner0 = i_recency inner /\
    i_distributions inner0 = i_distributions inner /\ config inner0 = config inner /\
    (op_readable (i_global_labels inner) op -> descriptions_ok (i_descriptions inner) -> descriptions_ok (i_descriptions inner0))) as (inner0 & Hstep & Hr & Hrec & Hdist & Hc & Hd).
  { destruct op as [[] key d| | | |]; try discriminate He; injection He as <- <- <-; try (exists inner; split_and!; done);
      (exists (add_description_if_missing key d inner); destruct (add_description_same key d inner) as (H1 & H2 & H3 & H4 & H5); split_and!; try done;
       intros [_ Hd] Hdesc; destruct H5 as [->|(t & -> & ->)]; [done|by apply map_Forall_insert_2]). }
  destruct (handles_op k f new (i_registry inner)) as (g & Hg & Hlt). exists (registry_step k f new inner0), g. rewrite <- Hr in Hg at 1. split_and!; try done.
  - destruct op as [[]| | | |]; try discriminate He; by injection He as <- <- <-.
  - destruct op as [[]| | | |]; try discriminate He; injection He as <- <- <-; cbn; auto using kind_counter, kind_gauge, kind_histogram.
  - destruct op as [[]| | | |]; try discriminate He; injection He as <- <- <-; auto using kind_increment, kind_update, kind_record.
Qed.

(** An operation on a key keeps the invariant, and adds its sample to those pending. *)
Lemma op_inv op k f new inner inner' : recorder_inv inner -> op_effect op = Some (k, f, new) -> recorder_step inner op = Ok inner' -> recorder_inv inner'.
Proof.
  intros Hinv He Hstep. destruct (op_effect_ok op k f new inner He) as (i & g & Hok & _ & Hh & Hlt & Hnew & Hf & Hr & _). rewrite Hstep in Hok. injection Hok as <-.
  apply (inv_update inner inner' k g (f (default new (snd <$> handles inner !! k)))); try done.
  - rewrite Hf. destruct (handles inner !! k) as [[g0 h0]|] eqn:E; [|done]. destruct k. by eapply ri_kinds.
  - intros k' _. by rewrite Hr.
  - intros g0. rewrite Hr. intros Hg0. destruct (ri_seen _ Hinv _ _ Hg0) as (g1 & h1 & Hk & Hle & _). apply Hlt in Hk. lia.
Qed.

Lemma op_pending op k f new inner inner' key : recorder_inv inner -> op_effect op = Some (k, f, new) -> recorder_step inner op = Ok inner' ->
  pending inner' key ≡ₚ recorded key [op] ++ pending inner key.
Proof.
  intros Hinv He Hstep. destruct (op_effect_ok op k f new inner He) as (i & g & Hok & _ & Hh & _). rewrite Hstep in Hok. injection Hok as <-.
  unfold pending. rewrite Hh. destruct (decide (k = (KHistogram, key))) as [->|Hne].
  - rewrite lookup_insert_eq. cbn. assert (samples (default new (snd <$> handles inner !! (KHistogram, key))) = from_option (samples ∘ snd) [] (handles inner !! (KHistogram, key)) /\
      handle_kind (default new (snd <$> handles inner !! (KHistogram, key))) = KHistogram) as [<- Hkind].
    { destruct (handles inner !! _) as [[g0 h0]|] eqn:E; cbn; [split; [done|by eapply ri_kinds]|].
      destruct op as [[]| | | |]; try discriminate He; injection He as _ _ <-; auto using samples_new, kind_histogram. }
    destruct op as [[]| | |key' v|]; try discriminate He; injection He as -> <- <-; [done|]. unfold recorded. cbn [omap list_omap]. rewrite decide_True by done. by apply samples_recorded.
  - rewrite lookup_insert_ne by done. destruct op as [| | |key' v|]; try done. cbn [recorded omap list_omap]. injection He as <- <- <-. by rewrite decide_False by congruence.
Qed.

Lemma recorded_app key ops1 ops2 : recorded key (ops1 ++ ops2) = recorded key ops1 ++ recorded key ops2.
Proof. apply omap_app. Qed.

Lemma distinct_app kind globals key ops1 ops2 : distinct kind globals key (ops1 ++ ops2) -> distinct kind globals key ops1.
Proof. intros H key' Hin. apply H. rewrite fmap_app. apply elem_of_app. by left. Qed.

Lemma run_op b globals ops inner op k f new : run_inv b globals ops inner -> op_effect op = Some (k, f, new) -> exists inner', recorder_step inner op = Ok inner' /\ run_inv b globals (ops ++ [op]) inner'.
Proof.
  intros [Hinv Hc Hkeys Htexts Hsamples] He. destruct (op_effect_ok op k f new inner He) as (inner' & g & Hstep & Hkey & Hh & _ & _ & _ & Hr & Hd & Hconf & Hdesc). exists inner'. split; [done|]. split.
  - by eapply op_inv.
  - by rewrite Hconf.
  - intros k'. rewrite Hh, fmap_app, elem_of_app. intros Hk'. destruct (decide (k' = k)) as [->|Hne]; [right; rewrite <- Hkey; by left|]. rewrite lookup_insert_ne in Hk' by done. left. auto.
  - rewrite Forall_app, Forall_singleton. intros [Hops Hop]. destruct (Htexts Hops) as [H1 H2]. rewrite Hd. split; [done|]. apply Hdesc; [|done]. injection Hc as _ ->. done.
  - intros key Hdist%distinct_app. destruct (Hsamples key Hdist) as (blocks & Hholds & Hperm). exists blocks. split; [unfold holds in *; by rewrite Hd|].
    rewrite (op_pending op k f new inner inner' key) by done. rewrite recorded_app, <- Hperm. solve_Permutation.
Qed.

(** A scrape of such a state. *)
Lemma run_scrape b globals ops inner now : builder_ok b -> run_inv b globals ops inner -> exists inner' s, get_recent_metrics now inner = Ok (inner', s) /\
  run_inv b globals (ops ++ [Op_scrape now]) inner' /\ (forall key, pending inner' key = []) /\ i_descriptions inner' = i_descriptions inner /\
  (Forall (op_readable globals) ops -> snapshot_ok s) /\
  (forall key g h, handles inner !! (KCounter, key) = Some (g, h) -> seen (i_recency inner) (KCounter, key) <> Some g -> distinct KCounter globals key ops ->
    let parts := key_to_parts key globals in entry parts.1 parts.2 (s_counters s) = Some (counter_value h)).
Proof.
  intros Hb [Hinv Hc Hkeys Htexts Hsamples]. injection Hc as Hbld Hgl. unfold get_recent_metrics. set (l := hiter (handles inner)).
  assert (forall k, k ∈ l.*1 -> Some k ∈ op_key <$> ops) as Hl by (intros k Hk%elem_of_hiter_keys; by apply Hkeys).
  assert (NoDup l.*1) as Hnd by apply NoDup_hiter_fst.
  destruct (turns_ok now l (inner, ∅, ∅)) as ([[inner' counters] gauges] & Hfold & Hturns & Hinv' & Hc' & Hd'); [done|cbn; by rewrite Hbld|done|intros k gh; apply elem_of_hiter|].
  cbn [fst snd] in *. rewrite Hfold. cbn [mbind res_bind]. eexists _, _. split; [done|].
  assert (forall key, pending inner' key = []) as Hpend.
  { intros key. destruct (handles inner !! (KHistogram, key)) as [gh|] eqn:E; [apply (turns_pending key l (inner, ∅, ∅) (inner', counters, gauges)); [done| |done]; apply elem_of_hiter_keys; eauto|].
    apply (turns_ind (fun k => k <> (KHistogram, key)) (fun s => handles s.1.1 !! (KHistogram, key) = None) l) with (inner, ∅, ∅) (inner', counters, gauges) in Hturns; [| | |done].
    - cbn in Hturns. unfold pending. by rewrite Hturns.
    - apply Forall_forall. intros k Hk%elem_of_hiter_keys ->. rewrite E in Hk. by destruct Hk.
    - intros k g h s s' _ Hne Hs _ Hspec. by rewrite (proj1 (ts_frame _ _ _ _ _ Hspec (KHistogram, key) ltac:(done))). }
  assert (Forall (op_readable globals) ops -> table_ok counters /\ table_ok gauges /\ table_ok (i_distributions inner')) as Htab.
  { intros Hops. destruct (Htexts Hops) as [Hd _]. apply (turns_tables globals l (inner, ∅, ∅) (inner', counters, gauges)); try done; [|by apply map_Forall_empty..].
    apply Forall_forall. intros k Hk%Hl. apply list_elem_of_fmap in Hk as (op & Hop & Hin). rewrite Forall_forall in Hops. by apply (Hops op Hin). }
  split_and!; try done.
  - split; [done| | | |].
    + rewrite Hc'. unfold config. by rewrite Hbld, Hgl.
    + intros k Hk. rewrite fmap_app, elem_of_app. left. apply Hkeys. destruct (decide (k ∈ l.*1)) as [Hin|Hout]; [by apply elem_of_hiter_keys|].
      apply (turns_ind (fun k' => k' <> k) (fun s => handles s.1.1 !! k = handles inner !! k) l) with (inner, ∅, ∅) (inner', counters, gauges) in Hturns; [| | |done].
      * cbn in Hturns. by rewrite <- Hturns.
      * apply Forall_forall. by intros k' Hk' ->.
      * intros k' g h s s' _ Hne Hs _ Hspec. by rewrite (proj1 (ts_frame _ _ _ _ _ Hspec k ltac:(done))).
    + rewrite Forall_app. intros [Hops _]. rewrite Hd'. split; [by apply Htab|by apply Htexts].
    + intros key Hdist%distinct_app. destruct (Hsamples key Hdist) as (blocks & Hholds & Hperm). 
      destruct (turns_samples b globals key l (inner, ∅, ∅) (inner', counters, gauges)) with (blocks := blocks) as (blocks' & H1 & H2); [intros key' Hkey'; apply Hdist; auto|unfold config; cbn; by rewrite Hbld, Hgl|done|done|].
      exists blocks'. cbn [fst] in *. split; [done|]. by rewrite H2, recorded_app, app_nil_r.
  - intros key g h Hk Hs Hdist. apply (turns_counter globals key g h l ltac:(intros key' Hkey'; apply Hdist; auto) (inner, ∅, ∅) (inner', counters, gauges)); try done. by apply elem_of_hiter.
Qed.

Lemma run_ok b globals ops inner : builder_ok b -> run_inv b globals [] inner -> exists inner', foldM recorder_step inner ops = Ok inner' /\ run_inv b globals ops inner'.
Proof.
  intros Hb Hinit. induction ops as [|op ops IH] using rev_ind; [by exists inner|]. destruct IH as (inner1 & Hrun & Hinv). rewrite foldM_app, Hrun. cbn [mbind res_bind foldM].
  destruct (op_effect op) as [[[k f] new]|] eqn:He.
  - destruct (run_op b globals ops inner1 op k f new Hinv He) as (inner2 & -> & Hinv2). by exists inner2.
  - destruct op as [[]| | | |now]; try discriminate He. destruct (run_scrape b globals ops inner1 now Hb Hinv) as (inner2 & s & Hs & Hinv2 & _). exists inner2. split; [|done].
    cbn [recorder_step]. unfold render. by rewrite Hs.
Qed.

Lemma build_inv (p : PrometheusBuilder) : run_inv (i_distribution_builder (build p)) (i_global_labels (build p)) [] (build p).
Proof.
  split; cbn -[get_distribution].
  - split; cbn; [intros kind key g h; by rewrite handles_new|]. intros k g. by rewrite seen_new.
  - done.
  - intros k. rewrite handles_new. by intros [? ?].
  - intros _. split; apply map_Forall_empty.
  - intros key _. exists []. split; [by left|]. unfold pending. cbn. by rewrite handles_new.
Qed.

(** ** The text of a scrape *)
Lemma forallb_true {A} (P : A -> bool) l : Forall (fun x => P x = true) l -> forallb P l = true.
Proof. induction 1 as [|x l Hx Hl IH]; [done|]. cbn. by rewrite Hx. Qed.

Lemma name_ok_suffix name suffix : name_ok name = true -> name_ok suffix = true -> name_ok (name +:+ suffix) = true.
Proof. unfold name_ok. rewrite !andb_true_iff, !all_chars_app. intros [Hn Hh] [Hs Hs']. rewrite Hn. by destruct name. Qed.

Lemma with_labels_ok labels more : labels_ok labels -> forallb (fun kv => key_ok kv.1) more = true -> forallb (fun kv => key_ok kv.1) (with_labels labels more) = true.
Proof. intros (kvs & -> & Hk) Hm. unfold with_labels. rewrite label_pairs by done. rewrite forallb_app. by rewrite Hk, Hm. Qed.

Lemma sample_ok name labels more value : name_ok name = true -> labels_ok labels -> forallb (fun kv => key_ok kv.1) more = true -> no_newline value = true ->
  line_ok (LSample name (with_labels labels more) value) = true.
Proof. intros Hn Hl Hm Hv. cbn [line_ok]. by rewrite Hn, with_labels_ok, Hv. Qed.

Lemma integer_no_newline (z : Z) : no_newline (to_string z) = true.
Proof. apply pretty_chars. intros a. unfold is_char. by destruct (decide (a = newline)) as [->|Hn]; [|rewrite bool_decide_eq_false_2]. Qed.

Lemma float_no_newline (x : F64) : no_newline (to_string x) = true.
Proof. apply plain_no_newline, f64_plain. Qed.

Lemma distribution_lines_ok name ld : name_ok name = true -> labels_ok ld.1 -> Forall (fun l => line_ok l = true) (distribution_lines name ld).
Proof.
  intros Hn Hl. destruct ld as [labels [h|summary qs sum]]; cbn [fst distribution_lines] in *; apply Forall_app; split.
  1,3: rewrite Forall_fmap; apply Forall_true; intros x; apply sample_ok; auto using name_ok_suffix, integer_no_newline, float_no_newline.
  all: rewrite !Forall_cons, Forall_nil; split_and!; try done; apply sample_ok; auto using name_ok_suffix, integer_no_newline, float_no_newline.
Qed.

Lemma family_lines_ok {V} (descriptions : gmap string string) (kind : string -> string) (lines : string -> list string * V -> list Line) (m : gmap string (gmap (list string) V)) : descriptions_ok descriptions -> (forall name, no_newline (kind name) = true) ->
  (forall name lv, name_ok name = true -> labels_ok lv.1 -> Forall (fun l => line_ok l = true) (lines name lv)) -> table_ok m ->
  Forall (fun l => line_ok l = true) (hiter m ≫= family_lines descriptions kind lines).
Proof.
  intros Hd Hkind Hlines Hm. apply Forall_bind, Forall_forall. intros [name by_labels] [Hn Hl]%elem_of_hiter%Hm. unfold family_lines. cbn [fst snd]. apply Forall_app. split.
  - cbn [fst]. destruct (descriptions !! name) as [desc|] eqn:E; [|by apply Forall_nil]. apply Hd in E. apply Forall_singleton. cbn. by rewrite Hn, E.
  - apply Forall_cons. split; [cbn; by rewrite Hn, Hkind|]. apply Forall_app. split; [|by rewrite Forall_singleton]. apply Forall_bind, Forall_forall. intros [labels v] Hin%elem_of_hiter%Hl. by apply Hlines.
Qed.

Lemma snapshot_lines_ok descriptions b s : descriptions_ok descriptions -> snapshot_ok s -> forallb line_ok (snapshot_lines descriptions b s) = true.
Proof.
  intros Hd (Hc & Hg & Hdist). apply forallb_true. unfold snapshot_lines. rewrite !Forall_app. split_and!; apply family_lines_ok; try done.
  - intros name lv Hn Hl. unfold value_lines. rewrite Forall_singleton. apply sample_ok; auto using integer_no_newline.
  - intros name lv Hn Hl. unfold value_lines. rewrite Forall_singleton. apply sample_ok; auto using float_no_newline.
  - intros name. unfold get_distribution_type. destruct (db_buckets b); [done|]. by destruct (first_override b name).
  - apply distribution_lines_ok.
Qed.

(** The text of a scrape is read back, line by line, as the help, the type and the
    samples of the metrics it was written from, in their order: for every snapshot whose
    names and label keys can be read at all and whatever characters the label values
    have. *)
Theorem render_roundtrip descriptions b s : descriptions_ok descriptions -> snapshot_ok s ->
  parse_text (render_text descriptions b s) = Some (snapshot_lines descriptions b s ++ [LBlank]).
Proof. intros Hd Hs. rewrite render_text_lines by auto using f64_plain. by apply parse_print_lines, snapshot_lines_ok. Qed.

(** The announced type of a distribution is what its lines show. *)
Definition is_histogram (d : Distribution) : bool := match d with DHistogram _ => true | DSummary _ _ _ => false end.

Lemma record_samples_kind d blocks : is_histogram (foldl record_samples d blocks) = is_histogram d.
Proof. revert d. induction blocks as [|l blocks IH]; intros d; [done|]. cbn [foldl]. rewrite IH. destruct d; [done|]. cbn. by destruct (foldl _ _ _). Qed.

Lemma type_agrees b name d : get_distribution b name = Some d -> get_distribution_type b name = if is_histogram d then "histogram" else "summary".
Proof.
  unfold get_distribution, get_distribution_type, new_histogram, new_summary. destruct (first_override b name) as [buckets|].
  - intros (h & _ & ->)%fmap_Some. by destruct (db_buckets b).
  - destruct (db_buckets b); [by intros (h & _ & ->)%fmap_Some|by intros [= <-]].
Qed.

(** Histograms that the idle timeout is not for stay in the registry, and a scrape makes
    their distribution. *)
Lemma turns_kept key l st st' : KHistogram ∉ mask_of (i_recency st.1.1) -> turns l st st' ->
  mask_of (i_recency st'.1.1) = mask_of (i_recency st.1.1) /\ i_global_labels st'.1.1 = i_global_labels st.1.1 /\
  (is_Some (handles st.1.1 !! (KHistogram, key)) -> is_Some (handles st'.1.1 !! (KHistogram, key))) /\
  let parts := key_to_parts key (i_global_labels st.1.1) in
  is_Some (entry parts.1 parts.2 (i_distributions st.1.1)) \/ (KHistogram, key) ∈ l.*1 -> is_Some (entry parts.1 parts.2 (i_distributions st'.1.1)).
Proof.
  revert st. induction l as [|[k [g h]] l IH]; intros st Hm; cbn [turns]; [intros ->; split_and!; try done; by intros [?|?%not_elem_of_nil]|]. intros (_ & st1 & Hspec & Hturns).
  destruct (ts_mask _ _ _ _ _ Hspec) as [Hm1 Hk]. pose proof (ts_config _ _ _ _ _ Hspec) as Hc. injection Hc as _ Hgl. destruct (IH st1 ltac:(by rewrite Hm1) Hturns) as (H1 & H2 & H3 & H4).
  split_and!; [by rewrite H1|by rewrite H2| |].
  - intros Hs. apply H3. destruct (decide (k = (KHistogram, key))) as [->|Hne]; [by apply Hk|]. by rewrite (proj1 (ts_frame _ _ _ _ _ Hspec _ ltac:(intros E; by apply Hne))).
  - cbn zeta in *. rewrite Hgl in H4. intros Hin. apply H4. clear H1 H2 H3 H4. rewrite fmap_cons, elem_of_cons in Hin. cbn [fst] in Hin.
    destruct (ts_distributions _ _ _ _ _ Hspec) as [(-> & _ & Hmask)|(_ & _ & d & blocks & _ & _ & ->)].
    + destruct Hin as [Hin|[Hin|Hin]]; [by left| |by right]. rewrite <- Hin in Hmask. by destruct Hm; apply Hmask.
    + destruct Hin as [Hin|[Hin|Hin]]; [|left|by right].
      * left. destruct (decide ((key_to_parts k.2 (i_global_labels st.1.1)).1 = (key_to_parts key (i_global_labels st.1.1)).1 /\ (key_to_parts k.2 (i_global_labels st.1.1)).2 = (key_to_parts key (i_global_labels st.1.1)).2)) as [[-> ->]|Hne]; [by rewrite entry_set; eexists|].
        rewrite entry_set_ne; [done|]. intros [= Hn Hl]. by apply Hne.
      * rewrite <- Hin. rewrite entry_set. by eexists.
Qed.

Lemma scrape_kept now inner inner' s key : recorder_inv inner -> builder_ok (i_distribution_builder inner) -> KHistogram ∉ mask_of (i_recency inner) -> get_recent_metrics now inner = Ok (inner', s) ->
  mask_of (i_recency inner') = mask_of (i_recency inner) /\ s_distributions s = i_distributions inner' /\
  (is_Some (handles inner !! (KHistogram, key)) -> is_Some (handles inner' !! (KHistogram, key)) /\
    let parts := key_to_parts key (i_global_labels inner) in is_Some (entry parts.1 parts.2 (i_distributions inner'))).
Proof.
  intros Hinv Hb Hm. unfold get_recent_metrics. set (l := hiter (handles inner)). assert (NoDup l.*1) as Hnd by apply NoDup_hiter_fst.
  destruct (turns_ok now l (inner, ∅, ∅) Hinv Hb Hnd ltac:(intros k gh; apply elem_of_hiter)) as ([[inner1 counters] gauges] & -> & Hturns & _). intros [= <- <-].
  destruct (turns_kept key l (inner, ∅, ∅) (inner1, counters, gauges) Hm Hturns) as (H1 & _ & H3 & H4). split_and!; [done|done|]. intros Hs. split; [by apply H3|]. apply H4. right. by apply elem_of_hiter_keys.
Qed.

Lemma run_kept (p : PrometheusBuilder) key ops inner : builder_ok (i_distribution_builder (build p)) -> KHistogram ∉ recency_mask p -> foldM recorder_step (build p) ops = Ok inner ->
  mask_of (i_recency inner) = recency_mask p /\ (Some (KHistogram, key) ∈ op_key <$> ops -> is_Some (handles inner !! (KHistogram, key))).
Proof.
  intros Hb Hm. revert inner. induction ops as [|op ops IH] using rev_ind; intros inner; [intros [= <-]; split; [apply mask_new|by intros ?%not_elem_of_nil]|].
  destruct (run_ok _ _ ops _ Hb (build_inv p)) as (inner1 & Hrun & Hinv). rewrite foldM_app, Hrun. destruct (IH inner1 Hrun) as [Hm1 Hk]. cbn [mbind res_bind foldM]. rewrite fmap_app, elem_of_app.
  destruct (op_effect op) as [[[k f] new]|] eqn:He.
  - destruct (op_effect_ok op k f new inner1 He) as (inner2 & g & -> & Hkey & Hh & _ & _ & _ & Hr & _). intros [= <-]. split; [by rewrite Hr|]. rewrite Hh. intros Hin.
    destruct (decide (k = (KHistogram, key))) as [->|Hne]; [rewrite lookup_insert_eq; by eexists|]. rewrite lookup_insert_ne by done. apply Hk. destruct Hin as [Hin|Hin%list_elem_of_singleton]; [done|congruence].
  - destruct op as [[]| | | |now]; try discriminate He. cbn [recorder_step]. unfold render. pose proof (rn_config _ _ _ _ Hinv) as Hc. injection Hc as Hbld _.
    destruct (get_recent_metrics now inner1) as [[inner2 s]| |] eqn:Hs; [|done..]. cbn [mbind res_bind]. intros [= <-].
    destruct (scrape_kept now inner1 inner2 s key (rn_inv _ _ _ _ Hinv) ltac:(by rewrite Hbld) ltac:(by rewrite Hm1) Hs) as (H1 & _ & H2). split; [by rewrite H1|]. intros [Hin|Hin%list_elem_of_singleton]; [|done]. by apply H2, Hk.
Qed.

(** The lines of a distribution are in the text. *)
Lemma distribution_in_lines (descriptions : gmap string string) (b : DistributionBuilder) (m : gmap string (gmap (list string) Distribution)) (name : string) (labels : list string) (d : Distribution) : entry name labels m = Some d ->
  Forall (fun line => line ∈ hiter m ≫= family_lines descriptions (get_distribution_type b) distribution_lines) (distribution_lines name (labels, d)).
Proof.
  unfold entry. intros (by_labels & Hn & Hl)%bind_Some. apply Forall_forall. intros line Hline. apply list_elem_of_bind. exists (name, by_labels). split; [|by apply elem_of_hiter]. unfold family_lines. cbn [fst snd].
  apply elem_of_app. right. apply elem_of_cons. right. apply elem_of_app. left. apply list_elem_of_bind. exists (labels, d). split; [done|by apply elem_of_hiter].
Qed.

(** C37: Take a recorder whose idle timeout, if it has one, is not for histograms, whose
    lists of buckets are not empty, and operations whose names and label keys can be read
    and whose other histograms keep apart from [key] when their names are sanitized. After
    any such operations, scrapes among them, a histogram that they registered or recorded
    to stays in the registry, and the text of a scrape, as a reader understands it, has
    its lines: those of a fresh distribution of the configured kind that was fed with
    every sample recorded under the key, once, in slices. *)
Theorem samples_complete (p : PrometheusBuilder) key ops now :
  let globals := i_global_labels (build p) in let parts := key_to_parts key globals in
  builder_ok (i_distribution_builder (build p)) -> KHistogram ∉ recency_mask p -> Forall (op_readable globals) ops -> distinct KHistogram globals key ops ->
  Some (KHistogram, key) ∈ op_key <$> ops ->
  exists inner inner' text lines d blocks,
    foldM recorder_step (build p) ops = Ok inner /\ render now inner = Ok (inner', text) /\ parse_text text = Some lines /\ is_Some (handles inner' !! (KHistogram, key)) /\
    get_distribution (i_distribution_builder (build p)) parts.1 = Some d /\ concat blocks ≡ₚ recorded key ops /\
    Forall (fun line => line ∈ lines) (distribution_lines parts.1 (parts.2, foldl record_samples d blocks)).
Proof.
  intros globals parts Hb Hm Hread Hdist Hin. destruct (run_ok _ _ ops _ Hb (build_inv p)) as (inner & Hrun & Hinv). destruct (run_kept p key ops inner Hb Hm Hrun) as [Hm1 Hk].
  destruct (run_scrape _ _ ops inner now Hb Hinv) as (inner' & s & Hs & Hinv2 & Hpend & Hd & Hok & _). pose proof (rn_config _ _ _ _ Hinv) as Hc. injection Hc as Hbld Hgl.
  destruct (scrape_kept now inner inner' s key (rn_inv _ _ _ _ Hinv) ltac:(by rewrite Hbld) ltac:(by rewrite Hm1) Hs) as (_ & Hsd & Hkept). destruct (Hkept (Hk Hin)) as [Hreg Hentry]. rewrite Hgl in Hentry.
  assert (distinct KHistogram globals key (ops ++ [Op_scrape now])) as Hd2 by (intros key'; rewrite fmap_app, elem_of_app; intros [Hin'|Hin'%list_elem_of_singleton]; [by apply Hdist|done]).
  destruct (rn_samples _ _ _ _ Hinv2 key Hd2) as (blocks & Hholds & Hperm). rewrite Hpend, app_nil_r, recorded_app, app_nil_r in Hperm.
  destruct Hholds as [[Hnone _]|(d & Hget & Hent)]; [destruct Hentry as [d Hentry]; discriminate (eq_trans (eq_sym Hnone) Hentry)|].
  exists inner, inner'. eexists _, _. exists d, blocks. split; [done|]. split; [unfold render; rewrite Hs; done|]. destruct (rn_texts _ _ _ _ Hinv Hread) as [_ Hdesc].
  rewrite Hd. split; [by apply render_roundtrip, Hok|]. split; [done|]. split; [exact Hget|]. split; [done|].
  rewrite <- Hsd in Hent. apply (distribution_in_lines (i_descriptions inner) (i_distribution_builder inner')) in Hent. eapply Forall_impl; [exact Hent|]. cbn beta. intros line Hline.
  apply elem_of_app. left. unfold snapshot_lines. apply elem_of_app. right. apply elem_of_app. by right.
Qed.

(** ** Counters *)
Definition fresh (inner : Inner) (k : CompositeKey) : Prop := exists g h, handles inner !! k = Some (g, h) /\ forall g0, seen (i_recency inner) k = Some g0 -> (g0 < g)%nat.

Lemma op_fresh op k f new inner inner' k' : recorder_inv inner -> op_effect op = Some (k, f, new) -> recorder_step inner op = Ok inner' -> fresh inner k' \/ k' = k -> fresh inner' k'.
Proof.
  intros Hinv He Hstep Hk'. destruct (op_effect_ok op k f new inner He) as (i & g & Hok & _ & Hh & Hlt & _ & _ & Hr & _). rewrite Hstep in Hok. injection Hok as <-. unfold fresh. rewrite Hh, Hr.
  destruct (decide (k' = k)) as [->|Hne].
  - eexists g, _. rewrite lookup_insert_eq. split; [done|]. intros g0 Hg0. destruct (ri_seen _ Hinv _ _ Hg0) as (g1 & h1 & Hk & Hle & _). apply Hlt in Hk. lia.
  - destruct Hk' as [(g1 & h1 & Hk & Hs)|]; [|done]. exists g1, h1. by rewrite lookup_insert_ne.
Qed.

Lemma counter_at_range inner key : in_u 64 (counter_at inner key).
Proof. unfold counter_at. destruct (handles inner !! (KCounter, key)) as [gh|]; [apply counter_range|done]. Qed.

Lemma op_counter op k f new inner inner' key : recorder_inv inner -> op_effect op = Some (k, f, new) -> recorder_step inner op = Ok inner' ->
  counter_at inner' key = wrap_u 64 (counter_at inner key + incremented key [op]).
Proof.
  intros Hinv He Hstep. destruct (op_effect_ok op k f new inner He) as (i & g & Hok & _ & Hh & _). rewrite Hstep in Hok. injection Hok as <-.
  pose proof (counter_at_range inner key) as Hrange.
  unfold counter_at in *. rewrite Hh. destruct (decide (k = (KCounter, key))) as [->|Hne].
  - rewrite lookup_insert_eq. cbn [from_option compose snd].
    assert (counter_value (default new (snd <$> handles inner !! (KCounter, key))) = from_option (counter_value ∘ snd) 0 (handles inner !! (KCounter, key)) /\
      handle_kind (default new (snd <$> handles inner !! (KCounter, key))) = KCounter) as [Hv Hkind].
    { destruct (handles inner !! _) as [[g0 h0]|] eqn:E; cbn; [split; [done|by eapply ri_kinds]|].
      destruct op as [[]| | | |]; try discriminate He; injection He as _ _ <-; auto using counter_new, kind_counter. }
    destruct op as [[]|key' v| | |]; try discriminate He; injection He as -> <- <-; cbn [incremented foldr].
    + rewrite Hv, Z.add_0_r, wrap_u_small; done.
    + rewrite decide_True, Z.add_0_r by done. rewrite counter_incremented by done. by rewrite Hv.
  - rewrite lookup_insert_ne by done. assert (incremented key [op] = 0) as ->; [|by rewrite Z.add_0_r, wrap_u_small].
    destruct op as [|key' v| | |]; try done. injection He as <- _ _. cbn. by rewrite decide_False by congruence.
Qed.

Lemma incremented_app key ops1 ops2 : incremented key (ops1 ++ ops2) = incremented key ops1 + incremented key ops2.
Proof. induction ops1 as [|op ops1 IH]; [done|]. cbn [app incremented foldr]. fold (incremented key). change (foldr _ 0 ?l) with (incremented key l). destruct op; try done. case_decide; [|done]. rewrite IH. lia. Qed.

Lemma ops_counter key ops : forall inner, recorder_inv inner -> Forall (fun op => is_Some (op_effect op)) ops -> exists inner', foldM recorder_step inner ops = Ok inner' /\
  counter_at inner' key = wrap_u 64 (counter_at inner key + incremented key ops) /\ (fresh inner (KCounter, key) \/ Some (KCounter, key) ∈ op_key <$> ops -> fresh inner' (KCounter, key)).
Proof.
  induction ops as [|op ops IH]; intros inner Hinv Hops.
  - exists inner. split; [done|]. split; [|intros [?|Hin]; [done|by apply not_elem_of_nil in Hin]]. cbn. rewrite Z.add_0_r, wrap_u_small; [done|]. apply counter_at_range.
  - apply Forall_cons in Hops as [[[[k f] new] He] Hops]. destruct (op_effect_ok op k f new inner He) as (inner1 & g & Hstep & Hkey & _).
    destruct (IH inner1 (op_inv op k f new inner inner1 Hinv He Hstep) Hops) as (inner' & Hrun & Hv & Hfresh). exists inner'. cbn [foldM]. rewrite Hstep. split; [done|]. split.
    + rewrite Hv, (op_counter op k f new inner inner1 key Hinv He Hstep). change (op :: ops) with ([op] ++ ops). rewrite incremented_app. unfold wrap_u. rewrite Zplus_mod_idemp_l. f_equal. lia.
    + intros Hk. apply Hfresh. rewrite fmap_cons, elem_of_cons, Hkey in Hk. destruct Hk as [Hk|[Hk|Hk]]; [left..|by right].
      * eapply op_fresh; eauto.
      * injection Hk as Hk. eapply op_fresh; eauto.
Qed.

(** A value of a table is a line of the text. *)
Lemma value_in_lines {V} `{Display V} (descriptions : gmap string string) (kind : string -> string) (m : gmap string (gmap (list string) V)) (name : string) (labels : list string) (v : V) : entry name labels m = Some v ->
  LSample name (with_labels labels []) (to_string v) ∈ hiter m ≫= family_lines descriptions kind value_lines.
Proof.
  unfold entry. intros (by_labels & Hn & Hl)%bind_Some. apply list_elem_of_bind. exists (name, by_labels). split; [|by apply elem_of_hiter]. unfold family_lines. cbn [fst snd].
  apply elem_of_app. right. apply elem_of_cons. right. apply elem_of_app. left. apply list_elem_of_bind. exists (labels, v). split; [by apply list_elem_of_singleton|by apply elem_of_hiter].
Qed.

(** C36: Take a recorder whose lists of buckets are not empty, and operations whose names
    and label keys can be read and whose other counters keep apart from [key] when their
    names are sanitized. A counter that the operations since the last scrape have touched
    is in the text of the next scrape, as a reader understands it: under its sanitized
    name, with the global labels and its own, and with the value it had plus all
    increments, modulo 2^64. *)
Theorem counter_scraped (p : PrometheusBuilder) key ops1 ops2 now :
  let globals := i_global_labels (build p) in
  builder_ok (i_distribution_builder (build p)) -> Forall (op_readable globals) (ops1 ++ ops2) -> distinct KCounter globals key (ops1 ++ ops2) ->
  Forall (fun op => is_Some (op_effect op)) ops2 -> Some (KCounter, key) ∈ op_key <$> ops2 -> Forall (fun label => key_ok label.1 = true) (hiter (label_values key globals)) ->
  exists inner1 inner2 inner text lines,
    foldM recorder_step (build p) ops1 = Ok inner1 /\ foldM recorder_step inner1 ops2 = Ok inner2 /\ render now inner2 = Ok (inner, text) /\ parse_text text = Some lines /\
    LSample (sanitized (key_name key)) (hiter (label_values key globals)) (pretty (wrap_u 64 (counter_at inner1 key + incremented key ops2))) ∈ lines.
Proof.
  intros globals Hb Hread Hdist Hops Hin Hlabels. destruct (run_ok _ _ ops1 _ Hb (build_inv p)) as (inner1 & Hrun1 & Hinv1). destruct (run_ok _ _ (ops1 ++ ops2) _ Hb (build_inv p)) as (inner2' & Hrun & Hinv2).
  destruct (ops_counter key ops2 inner1 (rn_inv _ _ _ _ Hinv1) Hops) as (inner2 & Hrun2 & Hv & Hfresh). rewrite foldM_app, Hrun1 in Hrun. cbn [mbind res_bind] in Hrun. rewrite Hrun2 in Hrun. injection Hrun as <-.
  destruct (run_scrape _ _ _ inner2 now Hb Hinv2) as (inner & s & Hs & Hinv & _ & Hd & Hok & Hcounter). destruct (Hfresh (or_intror Hin)) as (g & h & Hk & Hseen).
  exists inner1, inner2, inner. eexists _, _. split; [done|]. split; [done|]. split; [unfold render; rewrite Hs; done|].
  destruct (rn_texts _ _ _ _ Hinv2 Hread) as [_ Hdesc]. rewrite Hd. split; [by apply render_roundtrip, Hok|].
  assert (counter_at inner2 key = counter_value h) as Hval by (unfold counter_at; by rewrite Hk). rewrite <- Hv, Hval.
  assert (seen (i_recency inner2) (KCounter, key) <> Some g) as Hne by (intros H%Hseen; lia). pose proof (Hcounter key g h Hk Hne Hdist) as He. cbn zeta in He.
  apply elem_of_app. left. unfold snapshot_lines. apply elem_of_app. left. apply (value_in_lines (i_descriptions inner2) (fun _ => "counter")) in He.
  unfold with_labels in He. rewrite app_nil_r in He. unfold key_to_parts in He. cbn [fst snd] in He. rewrite label_pairs in He; [done|]. by apply forallb_true.
Qed.
End recorder.

(** ** Which buckets a metric gets *)
#[global] Instance override_le_trans {A} : Transitive (@override_le A).
Proof.
  intros [a xa] [b xb] [c xc]. unfold override_le, matcher_le. cbn [fst]. intros [H1|[H1 H2]] [H3|[H3 H4]]; [left; lia..|]. right. split; [lia|]. by etrans.
Qed.
#[global] Instance override_le_total {A} : Total (@override_le A).
Proof.
  intros [a xa] [b xb]. unfold override_le, matcher_le. cbn [fst]. destruct (Z.lt_trichotomy (matcher_rank a).1 (matcher_rank b).1) as [H|[H|H]]; [auto| |auto].
  destruct (total String.le (matcher_rank a).2 (matcher_rank b).2); auto.
Qed.

(** A metric gets the buckets of the first matcher that matches its name: the full
    name before a prefix before a suffix, and among several prefixes or suffixes the one
    that comes first in the order of strings, whatever order the map of overrides has;
    where none matches there is no override. *)
Theorem override_precedence `{MU : MetricsUtil} `{HO : HashOrder} qs bk (overrides : gmap Matcher (list F64)) name :
  match first_override (DistributionBuilder_new qs bk (Some overrides)) name with
  | Some bounds => exists m, overrides !! m = Some bounds /\ matches m name = true /\ forall m', is_Some (overrides !! m') -> matches m' name = true -> matcher_le m m'
  | None => forall m, is_Some (overrides !! m) -> matches m name = false
  end.
Proof.
  unfold first_override. cbn [DistributionBuilder_new db_bucket_overrides fmap option_fmap option_map]. set (l := merge_sort override_le (hiter overrides)).
  assert (forall m b, (m, b) ∈ l <-> overrides !! m = Some b) as Hl by (intros m b; unfold l; rewrite merge_sort_Permutation; apply elem_of_hiter).
  assert (StronglySorted override_le l) as Hs by (apply StronglySorted_merge_sort; apply _).
  destruct (list_find _ l) as [[i [m b]]|] eqn:E; cbn.
  - apply list_find_Some in E as (Hi & Hm%Is_true_true & Hbefore). exists m. split; [apply Hl; by eapply list_elem_of_lookup_2|]. split; [done|].
    intros m' [b' Hm'] Hmatch. apply Hl, list_elem_of_lookup in Hm' as [j Hj]. destruct (decide (j < i)%nat) as [Hlt|Hge].
    { destruct (Hbefore j (m', b') Hj Hlt). by apply Is_true_true. }
    destruct (decide (j = i)) as [->|Hne]; [rewrite Hi in Hj; injection Hj as <- <-; right; split; [done|reflexivity]|].
    rewrite <- (take_drop (S i) l) in Hs. apply (StronglySorted_app_1_elem_of _ _ _ (m, b) (m', b') Hs).
    + apply (list_elem_of_lookup_2 _ i). by rewrite lookup_take_lt by lia.
    + apply (list_elem_of_lookup_2 _ (j - S i)). rewrite lookup_drop. by replace (S i + (j - S i))%nat with j by lia.
  - apply list_find_None in E. intros m [b Hm]. apply Hl in Hm. rewrite Forall_forall in E. specialize (E _ Hm). by apply Is_true_false.
Qed.

(** ** A small implementation of the crates, and what the exporter shows with it *)
Inductive ExHandle := ExCounter (z : Z) | ExGauge (z : Z) | ExHistogram (l : list Z).

Record ExRecency := mkExRecency { ex_mask : list MetricKind; ex_timeout : option Z; ex_seen : gmap CompositeKey (nat * Z) }.

Definition ex_store (now : Z) (kind : MetricKind) (k : CompositeKey) (g : nat) (r : gmap CompositeKey (nat * ExHandle)) (c : ExRecency) : bool * gmap CompositeKey (nat * ExHandle) * ExRecency :=
  let see := mkExRecency (ex_mask c) (ex_timeout c) (<[k := (g, now)]> (ex_seen c)) in
  match ex_timeout c with
  | Some timeout =>
      if decide (kind ∈ ex_mask c) then
        match ex_seen c !! k with
        | Some (g', since) =>
            if decide (g' = g) then
              if decide (timeout < now - since) then (false, delete k r, mkExRecency (ex_mask c) (ex_timeout c) (delete k (ex_seen c))) else (true, r, c)
            else (true, r, see)
        | None => (true, r, see)
        end
      else (true, r, c)
  | None => (true, r, c)
  end.

Definition ex_op (k : CompositeKey) (f : ExHandle -> ExHandle) (new : ExHandle) (r : gmap CompositeKey (nat * ExHandle)) : gmap CompositeKey (nat * ExHandle) :=
  match r !! k with Some (g, h) => <[k := (S g, f h)]> r | None => <[k := (1%nat, f new)]> r end.

Definition ex_set (k : CompositeKey) (h : ExHandle) (r : gmap CompositeKey (nat * ExHandle)) : gmap CompositeKey (nat * ExHandle) :=
  match r !! k with Some (g, _) => <[k := (g, h)]> r | None => r end.

#[local] Instance ex_util : MetricsUtil := {
  F64 := Z;
  f64_zero := 0;
  f64_add := Z.add;
  f64_to_string := fun z => pretty z;
  parse_quantiles := fun l => l;
  Histogram := list Z * list Z;
  Histogram_new := fun bounds => match bounds with [] => None | _ => Some (bounds, []) end;
  record_many := fun l h => (h.1, h.2 ++ l);
  hist_buckets := fun h => (fun b => (b, Z.of_nat (length (filter (fun x => x <= b) h.2)))) <$> h.1;
  hist_sum := fun h => foldr Z.add 0 h.2;
  hist_count := fun h => Z.of_nat (length h.2);
  Summary := list Z;
  Summary_with_defaults := [];
  summary_add := fun x l => l ++ [x];
  summary_quantile := fun q l => last l;
  summary_count := fun l => Z.of_nat (length l);
  GaugeValue := Z;
  Handle := ExHandle;
  Handle_counter := ExCounter 0;
  Handle_gauge := ExGauge 0;
  Handle_histogram := ExHistogram [];
  h_increment_counter := fun v h => match h with ExCounter z => ExCounter (z +u64 v) | _ => h end;
  h_update_gauge := fun v h => match h with ExGauge _ => ExGauge v | _ => h end;
  h_record_histogram := fun v h => match h with ExHistogram l => ExHistogram (l ++ [v]) | _ => h end;
  read_counter := fun h => match h with ExCounter z => Ok (wrap_u 64 z) | _ => Panic "tried to read as counter" end;
  read_gauge := fun h => match h with ExGauge z => Ok z | _ => Panic "tried to read as gauge" end;
  read_histogram_with_clear := fun h => match h with ExHistogram l => Ok ([l], ExHistogram []) | _ => Panic "tried to read as histogram" end;
  Registry := gmap CompositeKey (nat * ExHandle);
  Registry_new := ∅;
  registry_op := ex_op;
  get_handles := fun r => r;
  store_handle := ex_set;
  Recency := ExRecency;
  Recency_new := fun mask timeout => mkExRecency mask timeout ∅;
  should_store := ex_store
}.

Lemma ex_store_spec (now : Z) (kind : MetricKind) (k : CompositeKey) (g : nat) (h : ExHandle) (r : gmap CompositeKey (nat * ExHandle)) (c : ExRecency) : r !! k = Some (g, h) ->
  match ex_store now kind k g r c with
  | (true, r', c') => r' = r /\ (fst <$> ex_seen c' !! k = Some g \/ fst <$> ex_seen c' !! k = fst <$> ex_seen c !! k) /\ forall k', k' <> k -> fst <$> ex_seen c' !! k' = fst <$> ex_seen c !! k'
  | (false, r', c') => r' = delete k r /\ fst <$> ex_seen c !! k = Some g /\ fst <$> ex_seen c' !! k = None /\ forall k', k' <> k -> fst <$> ex_seen c' !! k' = fst <$> ex_seen c !! k'
  end.
Proof.
  intros _. unfold ex_store. destruct (ex_timeout c); [|auto]. case_decide; [|auto]. destruct (ex_seen c !! k) as [[g' since]|] eqn:E; [case_decide; [case_decide|]|]; subst; cbn.
  - rewrite lookup_delete_eq. split_and!; try done. intros k' Hk. by rewrite lookup_delete_ne.
  - rewrite E. auto.
  - rewrite lookup_insert_eq. split_and!; auto. intros k' Hk. by rewrite lookup_insert_ne.
  - rewrite lookup_insert_eq. split_and!; auto. intros k' Hk. by rewrite lookup_insert_ne.
Qed.

Lemma ex_store_mask (now : Z) (kind : MetricKind) (k : CompositeKey) (g : nat) (r : gmap CompositeKey (nat * ExHandle)) (c : ExRecency) :
  ex_mask (ex_store now kind k g r c).2 = ex_mask c /\ ((ex_store now kind k g r c).1.1 = false -> kind ∈ ex_mask c).
Proof. unfold ex_store. repeat case_match; by split. Qed.

Lemma ex_op_spec (k : CompositeKey) (f : ExHandle -> ExHandle) (new : ExHandle) (r : gmap CompositeKey (nat * ExHandle)) :
  exists g, ex_op k f new r = <[k := (g, f (default new (snd <$> r !! k)))]> r /\ forall g0 h0, r !! k = Some (g0, h0) -> (g0 < g)%nat.
Proof. unfold ex_op. destruct (r !! k) as [[g h]|]; eexists; (split; [reflexivity|]); [intros ? ? [= <- <-]; lia|done]. Qed.

Lemma ex_set_spec (k : CompositeKey) (h : ExHandle) (r : gmap CompositeKey (nat * ExHandle)) (g : nat) (h0 : ExHandle) : r !! k = Some (g, h0) -> ex_set k h r = <[k := (g, h)]> r.
Proof. unfold ex_set. by intros ->. Qed.

Lemma ex_plain (x : Z) : plain_text (pretty x) = true.
Proof.
  apply pretty_chars. intros a. unfold plain_char, is_char. destruct (decide (a = backslash)) as [->|H1]; [done|]. destruct (decide (a = quote)) as [->|H2]; [done|].
  destruct (decide (a = newline)) as [->|H3]; [done|]. by rewrite !bool_decide_eq_false_2.
Qed.

#[local] Instance ex_util_ok : MetricsUtilOk.
Proof.
  refine {|
  f64_plain := ex_plain;
  handle_kind := fun h => match h with ExCounter _ => KCounter | ExGauge _ => KGauge | ExHistogram _ => KHistogram end;
  counter_value := fun h => match h with ExCounter z => wrap_u 64 z | _ => 0 end;
  samples := fun h => match h with ExHistogram l => l | _ => [] end;
  seen := fun c k => fst <$> ex_seen c !! k;
  mask_of := ex_mask;
  store_spec := ex_store_spec
  |}.
  1-3: done. 1-3: by intros ? [].
  - intros []; [apply wrap_u_range; lia|done..].
  - done.
  - intros v [z| |]; try done. intros _. cbn -[wrap_u]. unfold wrap_u. rewrite Zplus_mod_idemp_l. by apply Z.mod_mod.
  - by intros [].
  - intros []; try done. eauto.
  - done.
  - intros v []; try done. intros _. cbn. solve_Permutation.
  - intros []; try done. intros _. eexists _, _. split; [done|]. cbn. by rewrite app_nil_r.
  - done.
  - apply ex_op_spec.
  - apply ex_set_spec.
  - done.
  - done.
  - apply ex_store_mask.
Defined.

(** The recorder of a process whose manager id is a global label: a counter, a gauge with
    an awkward label value and a histogram; the operations before a first scrape and
    those between it and the next. *)
Definition ex_builder : PrometheusBuilder := add_global_label "id" "worker_1" (install_builder (MU := ex_util) [0; 1] "10.0.0.1:12345").

Definition ex_key (name : string) : Key := mkKey name [("path", "a" +:+ String quote (String newline "b" +:+ String backslash ""))].

Definition ex_ops1 : list (RecorderOp (MU := ex_util)) :=
  [Op_register KCounter (ex_key "input.count") (Some "records read"); Op_increment (ex_key "input.count") 3; Op_update (ex_key "queue-size") 7;
   Op_record (ex_key "latency") 12; Op_scrape 0; Op_scrape 20].
Definition ex_ops2 : list (RecorderOp (MU := ex_util)) := [Op_increment (ex_key "input.count") 5; Op_record (ex_key "latency") 30].

Definition ex_scrape (now : Z) (ops : list (RecorderOp (MU := ex_util))) : option (list Line) :=
  match foldM (recorder_step (HO := id_order)) (build (HO := id_order) ex_builder) ops with
  | Ok inner => match render (HO := id_order) now inner with Ok (_, text) => parse_text text | _ => None end
  | _ => None
  end.

Abbreviation ex_globals := (i_global_labels (build (HO := id_order) ex_builder)).
Abbreviation ex_distributions := (i_distribution_builder (build (HO := id_order) ex_builder)).
Abbreviation ex_labels := [("id", "worker_1"); ("path", "a" +:+ String quote (String newline "b" +:+ String backslash ""))].

(** A description is stored under the name as it was given, but looked up under the
    sanitized one: no help line for a name with a dot. The histogram, which the second
    scrape dropped from the registry as idle, is still shown by the third. *)
Example ex_idle : ex_scrape 21 ex_ops1 = Some
  [LType "queue_size" "gauge"; LSample "queue_size" ex_labels "7"; LBlank; LType "latency" "summary";
   LSample "latency" (ex_labels ++ [("quantile", "0")]) "12"; LSample "latency" (ex_labels ++ [("quantile", "1")]) "12";
   LSample "latency_sum" ex_labels "12"; LSample "latency_count" ex_labels "1"; LBlank; LBlank].
Proof. vm_compute. reflexivity. Qed.

Example ex_no_help : option_map (firstn 2) (ex_scrape 1 (firstn 2 ex_ops1)) = Some [LType "input_count" "counter"; LSample "input_count" ex_labels "3"].
Proof. vm_compute. reflexivity. Qed.

(** Two counters whose names sanitize to the same one: only the one visited last is shown. *)
Example ex_same_name : ex_scrape 1 [Op_increment (mkKey "a.b" []) 3; Op_increment (mkKey "a-b" []) 4] = Some [LType "a_b" "counter"; LSample "a_b" [("id", "worker_1")] "3"; LBlank; LBlank] \/
  ex_scrape 1 [Op_increment (mkKey "a.b" []) 3; Op_increment (mkKey "a-b" []) 4] = Some [LType "a_b" "counter"; LSample "a_b" [("id", "worker_1")] "4"; LBlank; LBlank].
Proof. vm_compute. first [by left | by right]. Qed.

(** An empty list of buckets makes the first scrape of a histogram panic. *)
Example ex_no_buckets :
  match foldM (recorder_step (HO := id_order)) (build (HO := id_order) (set_buckets [] ex_builder)) [Op_record (ex_key "latency") 12; Op_scrape 0] with Panic m => m | _ => "" end =
  "failed to create distribution".
Proof. reflexivity. Qed.

Lemma ex_builder_ok : builder_ok ex_distributions.
Proof. intros name. eexists. reflexivity. Qed.

Lemma ex_key_readable (name : string) : name_ok (sanitized name) = true -> key_readable (HO := id_order) ex_globals (ex_key name).
Proof. intros Hn. split; [done|]. exists ex_labels. split; vm_compute; reflexivity. Qed.

Lemma ex_readable : Forall (op_readable (HO := id_order) ex_globals) (ex_ops1 ++ ex_ops2).
Proof. repeat (apply Forall_cons; split); try apply Forall_nil_2; (split; [|done]); intros k [= <-]; by apply ex_key_readable. Qed.

Lemma ex_distinct kind name : (forall name', Some (kind, ex_key name') ∈ op_key <$> (ex_ops1 ++ ex_ops2) -> name' = name) -> distinct (HO := id_order) kind ex_globals (ex_key name) (ex_ops1 ++ ex_ops2).
Proof.
  intros H key' Hin Hne. destruct Hne. assert (exists name', key' = ex_key name') as [name' ->].
  { clear H. cbn in Hin. repeat (apply elem_of_cons in Hin as [Hin|Hin]; [try done; injection Hin as _ ->; eauto|]). by apply not_elem_of_nil in Hin. }
  by rewrite (H name').
Qed.

Lemma ex_ops2_keys : Forall (fun op => is_Some (op_effect op)) ex_ops2.
Proof. unfold ex_ops2. rewrite Forall_cons, Forall_singleton. split; eexists; reflexivity. Qed.

Lemma ex_label_keys : Forall (fun label => key_ok label.1 = true) (hiter (H := id_order) (label_values (ex_key "input.count") ex_globals)).
Proof. assert (hiter (H := id_order) (label_values (ex_key "input.count") ex_globals) = ex_labels) as -> by (vm_compute; reflexivity). by rewrite Forall_cons, Forall_singleton. Qed.

Ltac ex_only := let Hin := fresh in intros name' Hin; cbn in Hin; repeat (apply elem_of_cons in Hin as [Hin|Hin]; [try done; by injection Hin|]); by apply not_elem_of_nil in Hin.

(** The same recorder with an idle timeout for counters only. *)
Definition ex_keeping : PrometheusBuilder := set_idle_timeout [KCounter] (Some 10) ex_builder.

Lemma samples_complete_witness : exists inner inner' text lines d blocks,
  foldM (recorder_step (HO := id_order)) (build (HO := id_order) ex_keeping) (ex_ops1 ++ ex_ops2) = Ok inner /\ render (HO := id_order) 40 inner = Ok (inner', text) /\ parse_text text = Some lines /\
  is_Some (get_handles (i_registry inner') !! (KHistogram, ex_key "latency")) /\ get_distribution ex_distributions "latency" = Some d /\ concat blocks ≡ₚ [12; 30] /\
  Forall (fun line => line ∈ lines) (distribution_lines "latency" (format_label <$> ex_labels, foldl record_samples d blocks)).
Proof.
  apply (samples_complete (HO := id_order) ex_keeping (ex_key "latency") (ex_ops1 ++ ex_ops2) 40 ex_builder_ok).
  - by intros [=]%list_elem_of_singleton.
  - exact ex_readable.
  - apply ex_distinct. ex_only.
  - rewrite fmap_app. apply elem_of_app. left. cbn. do 3 right. by left.
Defined.

Lemma counter_scraped_witness : exists inner1 inner2 inner text lines,
  foldM (recorder_step (HO := id_order)) (build (HO := id_order) ex_builder) ex_ops1 = Ok inner1 /\ foldM (recorder_step (HO := id_order)) inner1 ex_ops2 = Ok inner2 /\
  render (HO := id_order) 21 inner2 = Ok (inner, text) /\ parse_text text = Some lines /\
  LSample "input_count" ex_labels (pretty (wrap_u 64 (counter_at inner1 (ex_key "input.count") + 5))) ∈ lines.
Proof.
  apply (counter_scraped (HO := id_order) ex_builder (ex_key "input.count") ex_ops1 ex_ops2 21 ex_builder_ok ex_readable).
  - apply ex_distinct. ex_only.
  - apply ex_ops2_keys.
  - by left.
  - apply ex_label_keys.
Defined.

Definition ex_snapshot : Snapshot (MU := ex_util) :=
  mkSnapshot ∅ ∅ {[ "latency" := {[ format_label <$> ex_labels := DHistogram (MU := ex_util) ([10; 20], [12; 30]) ]} ]}.

Lemma render_roundtrip_witness : snapshot_ok ex_snapshot /\
  parse_text (render_text (HO := id_order) {[ "latency" := "in ms" ]} (mkDistributionBuilder (MU := ex_util) [] (Some [10; 20]) None) ex_snapshot) =
  Some ([LHelp "latency" "in ms"; LType "latency" "histogram"; LSample "latency_bucket" (ex_labels ++ [("le", "10")]) "0"; LSample "latency_bucket" (ex_labels ++ [("le", "20")]) "1";
         LSample "latency_bucket" (ex_labels ++ [("le", "+Inf")]) "2"; LSample "latency_sum" ex_labels "42"; LSample "latency_count" ex_labels "2"; LBlank] ++ [LBlank]).
Proof.
  assert (snapshot_ok ex_snapshot) as Hs.
  { split_and!; [apply map_Forall_empty..|]. apply map_Forall_singleton. split; [done|]. apply map_Forall_singleton. by exists ex_labels. }
  split; [done|]. rewrite (render_roundtrip (HO := id_order) {[ "latency" := "in ms" ]} (mkDistributionBuilder (MU := ex_util) [] (Some [10; 20]) None) ex_snapshot); [|by apply map_Forall_singleton|done].
  vm_compute. reflexivity.
Defined.
