(* ===== verification/SourcePoll.v ===== *)
(** * SourcePoll: the threads of a user source

    src/rlink/src/runtime/worker/runnable/source_runnable.rs: a source that the user wrote
    is read by a thread of its own; a second thread sends the stream statuses and a third
    the barriers, each on the notifications of a timer; all of them send into one channel,
    which the loop of the source task reads. The flag [running] tells the two timed threads
    that the input has ended, the status of the coordinator that they may stop.

    One event is one access of one thread to what the threads share, in any order; sends
    happen when the channel has room (see Channel for the waiting), and every thread sees
    the accesses in the order of the events: the reordering that the relaxed accesses to
    [running] would allow a processor is not modelled. The theorems follow any
    interleaving into the loop of the task (Task): the end of a task is never reported
    before all of its input has been passed on, barriers are passed on once each and in
    increasing order, and the threads stop soon after the coordinator has. *)
From Stdlib Require Import ZArith Lia Sorted.
From stdpp Require Import base strings numbers option sets gmap list sorting.
From S2P Require Import Prelude Channel Properties Runtime Element Align Runnables Task Timer.

#[local] Open Scope Z_scope.

(** ** The threads *)

(** [poll_input_element0]: before [next] of the iterator; after the send; before and after
    the store to [running]. A send that fails is a panic of the thread. *)
Inductive InputPc := In_next | In_check | In_store | In_done | In_failed.

(** [poll_stream_status0]: the flag that was loaded, the time that was received. *)
Inductive StatusPc := St_load | St_recv (running : bool) | St_send (running : bool) (window_time : Z) | St_check | St_done.

(** [poll_checkpoint0]. *)
Inductive CheckpointPc := Ck_recv | Ck_send (window_time : Z) | Ck_load | Ck_check | Ck_done.

Section poll.
Context {SB : Bytes.SerBuffer}.

Record PollState := mkPoll {
  ps_iter : list Element;
  ps_input : InputPc;
  ps_running : bool;
  ps_status : StatusPc;
  ps_checkpoint : CheckpointPc;
  ps_status_timer : TimerChannel;
  ps_checkpoint_timer : TimerChannel;
  ps_coordinator : ManagerStatus;
  ps_receiver : bool;
  ps_queue : list Element;
  ps_taken : list Element
}.

Definition set_input (iter : list Element) (pc : InputPc) (running : bool) (queue : list Element) (s : PollState) : PollState :=
  mkPoll iter pc running (ps_status s) (ps_checkpoint s) (ps_status_timer s) (ps_checkpoint_timer s) (ps_coordinator s) (ps_receiver s) queue (ps_taken s).
Definition set_status (pc : StatusPc) (timer : TimerChannel) (queue : list Element) (s : PollState) : PollState :=
  mkPoll (ps_iter s) (ps_input s) (ps_running s) pc (ps_checkpoint s) timer (ps_checkpoint_timer s) (ps_coordinator s) (ps_receiver s) queue (ps_taken s).
Definition set_checkpoint (pc : CheckpointPc) (timer : TimerChannel) (queue : list Element) (s : PollState) : PollState :=
  mkPoll (ps_iter s) (ps_input s) (ps_running s) (ps_status s) pc (ps_status_timer s) timer (ps_coordinator s) (ps_receiver s) queue (ps_taken s).

(** [sender.send]: an error when the receiver is gone. *)
Definition poll_send (e : Element) (s : PollState) : option (list Element) := if ps_receiver s then Some (ps_queue s ++ [e]) else None.

Definition poll_input_element0 (daemon_task : bool) (s : PollState) : PollState :=
  match ps_input s with
  | In_next =>
      match ps_iter s with
      | [] => set_input [] In_store (ps_running s) (ps_queue s) s
      | record :: iter =>
          match poll_send record s with
          | Some queue => set_input iter In_check (ps_running s) queue s
          | None => set_input iter In_failed (ps_running s) (ps_queue s) s
          end
      end
  | In_check => set_input (ps_iter s) (if daemon_task && is_terminating (ps_coordinator s) then In_store else In_next) (ps_running s) (ps_queue s) s
  | In_store => set_input (ps_iter s) In_done false (ps_queue s) s
  | In_done | In_failed => s
  end.

Definition poll_stream_status0 (s : PollState) : PollState :=
  match ps_status s with
  | St_load => set_status (St_recv (ps_running s)) (ps_status_timer s) (ps_queue s) s
  | St_recv running =>
      match timer_recv (ps_status_timer s) with
      | (timer, Some window_time) => set_status (St_send running window_time) timer (ps_queue s) s
      | (_, None) => s
      end
  | St_send running window_time =>
      match poll_send (new_stream_status window_time (negb running)) s with
      | Some queue => set_status (if running then St_load else St_check) (ps_status_timer s) queue s
      | None => set_status St_done (ps_status_timer s) (ps_queue s) s
      end
  | St_check => set_status (if is_terminated (ps_coordinator s) then St_done else St_load) (ps_status_timer s) (ps_queue s) s
  | St_done => s
  end.

Definition poll_checkpoint0 (s : PollState) : PollState :=
  match ps_checkpoint s with
  | Ck_recv =>
      match timer_recv (ps_checkpoint_timer s) with
      | (timer, Some window_time) => set_checkpoint (Ck_send window_time) timer (ps_queue s) s
      | (_, None) => s
      end
  | Ck_send window_time =>
      match poll_send (new_barrier window_time) s with
      | Some queue => set_checkpoint Ck_load (ps_checkpoint_timer s) queue s
      | None => set_checkpoint Ck_done (ps_checkpoint_timer s) (ps_queue s) s
      end
  | Ck_load => set_checkpoint (if ps_running s then Ck_recv else Ck_check) (ps_checkpoint_timer s) (ps_queue s) s
  | Ck_check => set_checkpoint (if is_terminated (ps_coordinator s) then Ck_done else Ck_recv) (ps_checkpoint_timer s) (ps_queue s) s
  | Ck_done => s
  end.

(** The start in [run]; the timers are those registered in [open], the first every 10 s. *)
Definition poll_start (iter : list Element) (checkpoint_interval : Z) (coordinator : ManagerStatus) : PollState :=
  mkPoll iter In_next true St_load Ck_recv (TimerChannel_new "StreamStatus Event Timer" 10000000000) (TimerChannel_new "Checkpoint Event Timer" checkpoint_interval) coordinator true [] [].

Definition is_done (s : PollState) : bool :=
  match ps_input s, ps_status s, ps_checkpoint s with (In_done | In_failed), St_done, Ck_done => true | _, _, _ => false end.

(** [ChannelIterator::next] of the loop in [run]: [None] when nothing comes any more,
    [Some None] while it waits. *)
Definition poll_next (s : PollState) : option (option (Element * PollState)) :=
  match ps_queue s with
  | e :: queue =>
      Some (Some (e, mkPoll (ps_iter s) (ps_input s) (ps_running s) (ps_status s) (ps_checkpoint s) (ps_status_timer s) (ps_checkpoint_timer s) (ps_coordinator s) (ps_receiver s) queue (ps_taken s ++ [e])))
  | [] => if is_done s then None else Some None
  end.

(** ** Their interleaving *)
Inductive PollEvent :=
  | Ev_input | Ev_status | Ev_checkpoint
  | Ev_look (ts : Z)
  | Ev_coordinator (status : ManagerStatus)
  | Ev_next
  | Ev_drop.

Definition poll_event {E} (daemon_task : bool) (s : PollState) (e : PollEvent) : res E PollState :=
  match e with
  | Ev_input => Ok (poll_input_element0 daemon_task s)
  | Ev_status => Ok (poll_stream_status0 s)
  | Ev_checkpoint => Ok (poll_checkpoint0 s)
  | Ev_look ts =>
      let* status_timer := check_timer ts (ps_status_timer s) in
      let* checkpoint_timer := check_timer ts (ps_checkpoint_timer s) in
      Ok (mkPoll (ps_iter s) (ps_input s) (ps_running s) (ps_status s) (ps_checkpoint s) status_timer checkpoint_timer (ps_coordinator s) (ps_receiver s) (ps_queue s) (ps_taken s))
  | Ev_coordinator status => Ok (mkPoll (ps_iter s) (ps_input s) (ps_running s) (ps_status s) (ps_checkpoint s) (ps_status_timer s) (ps_checkpoint_timer s) status (ps_receiver s) (ps_queue s) (ps_taken s))
  | Ev_next => Ok match poll_next s with Some (Some (_, s')) => s' | _ => s end
  | Ev_drop => Ok (mkPoll (ps_iter s) (ps_input s) (ps_running s) (ps_status s) (ps_checkpoint s) (ps_status_timer s) (ps_checkpoint_timer s) (ps_coordinator s) false [] (ps_taken s))
  end.

Definition looks (es : list PollEvent) : list Z := omap (fun e => match e with Ev_look ts => Some ts | _ => None end) es.

(** What has been sent and not been thrown away with the receiver. *)
Definition ps_out (s : PollState) : list Element := ps_taken s ++ ps_queue s.

Definition records_of (es : list Element) : list Element := List.filter is_record es.
Definition barriers_of (es : list Element) : list Z := omap (fun e => match e with Element_Barrier b => Some (b_checkpoint_id b) | _ => None end) es.
Definition data_of (es : list Element) : list Element := List.filter (fun e => negb (is_stream_status e)) es.
Definition ends (e : Element) : bool := match e with Element_StreamStatus ss => ss_end ss | _ => false end.

(** A barrier that has been received from the timer and not been sent yet. *)
Definition received_pending (s : PollState) : list Z := match ps_checkpoint s with Ck_send w => [w] | _ => [] end.

(** The times the checkpoint thread receives from its timer: by one event, and over a run. *)
Definition notified_by (s : PollState) (e : PollEvent) : list Z :=
  match e, ps_checkpoint s with
  | Ev_checkpoint, Ck_recv => match (timer_recv (ps_checkpoint_timer s)).2 with Some w => [w] | None => [] end
  | _, _ => []
  end.

Fixpoint notified (daemon_task : bool) (s : PollState) (es : list PollEvent) : list Z :=
  match es with
  | [] => []
  | e :: es => notified_by s e ++ match poll_event (E := string) daemon_task s e with Ok s' => notified daemon_task s' es | _ => [] end
  end.

(** ** What holds at any time *)
Section input.
Context (daemon_task : bool) (input : list Element) (Hinput : Forall (fun e => is_record e = true) input).
Context (interval : Z) (Hinterval : 0 < as_millis interval < 2 ^ 62).

Definition input_ended (s : PollState) : Prop := match ps_input s with In_store | In_done => ps_iter s = [] \/ daemon_task = true | _ => True end.

(** No record comes behind an end status. *)
Fixpoint end_last (es : list Element) : Prop :=
  match es with [] => True | e :: es => (ends e = true -> records_of es = []) /\ end_last es end.

(** A flag that was loaded as false. *)
Definition saw_end (pc : StatusPc) : bool := match pc with St_recv false | St_send false _ | St_check => true | _ => false end.

Record poll_inv (es : list PollEvent) (s : PollState) : Prop := {
  pi_input : input_ended s;
  pi_records : if ps_receiver s then records_of (ps_out s) ++ ps_iter s = input /\ ps_input s <> In_failed else exists rest, records_of (ps_taken s) ++ rest = input;
  pi_dropped : ps_receiver s = false -> ps_queue s = [];
  pi_running : ps_running s = false <-> ps_input s = In_done;
  pi_saw : saw_end (ps_status s) = true -> ps_running s = false;
  pi_ends : Exists (fun e => ends e = true) (ps_out s) -> ps_running s = false;
  pi_last : end_last (ps_out s);
  pi_kinds : Forall (fun e => match e with Element_Watermark _ => False | _ => True end) (ps_out s);
  pi_complete : daemon_task = false -> Exists (fun e => ends e = true) (ps_taken s) -> records_of (ps_taken s) = input;
  pi_status_timer : exists tes received, timer_inv 10000000000 tes (ps_status_timer s, received) /\ ticks tes = looks es;
  pi_checkpoint_timer : exists tes received, timer_inv interval tes (ps_checkpoint_timer s, received) /\ ticks tes = looks es /\
    (barriers_of (ps_out s) ++ received_pending s) `sublist_of` received
}.

Lemma records_app l1 l2 : records_of (l1 ++ l2) = records_of l1 ++ records_of l2.
Proof. apply List.filter_app. Qed.

Lemma barriers_app l1 l2 : barriers_of (l1 ++ l2) = barriers_of l1 ++ barriers_of l2.
Proof. apply omap_app. Qed.

Lemma end_last_snoc es e : end_last es -> (is_record e = true -> ~ Exists (fun e => ends e = true) es) -> end_last (es ++ [e]).
Proof.
  intros Hes Hr. induction es as [|x es IH]; cbn.
  - split; [|done]. destruct e; done.
  - destruct Hes as [Hx Hes]. split.
    + intros Hend. rewrite records_app, (Hx Hend). cbn. destruct (is_record e) eqn:E; [|done]. destruct (Hr eq_refl). by left.
    + apply IH; [done|]. intros He Hex. apply (Hr He). by right.
Qed.

Lemma end_last_prefix l1 l2 : end_last (l1 ++ l2) -> Exists (fun e => ends e = true) l1 -> records_of l2 = [].
Proof.
  induction l1 as [|x l1 IH]; [by intros _ H%Exists_nil|]. cbn. intros [Hx Hl] Hex. apply Exists_cons in Hex as [He|Hex]; [|by apply IH].
  specialize (Hx He). rewrite records_app in Hx. by apply List.app_eq_nil in Hx as [_ ?].
Qed.

Lemma exists_ends_app l e : Exists (fun e => ends e = true) (l ++ [e]) <-> Exists (fun e => ends e = true) l \/ ends e = true.
Proof. rewrite Exists_app, Exists_cons, Exists_nil. tauto. Qed.

Lemma out_snoc s e : ps_taken s ++ (ps_queue s ++ [e]) = ps_out s ++ [e].
Proof. apply app_assoc. Qed.

Lemma poll_inv_init coordinator : poll_inv [] (poll_start input interval coordinator).
Proof.
  split; cbn; try done.
  - intros H. by apply Exists_nil in H.
  - intros _ H. by apply Exists_nil in H.
  - exists [], []. split; [apply timer_inv_init|done].
  - exists [], []. split; [apply timer_inv_init|]. split; [done|]. apply sublist_nil_l.
Qed.

Lemma looks_snoc es e : looks (es ++ [e]) = looks es ++ match e with Ev_look ts => [ts] | _ => [] end.
Proof. unfold looks. rewrite omap_app. by destruct e. Qed.


(** Nothing sent, nothing received: only a program counter or the coordinator changes. *)
Lemma poll_inv_quiet es e s s' : poll_inv es s -> match e with Ev_look _ => False | _ => True end ->
  ps_queue s' = ps_queue s -> ps_taken s' = ps_taken s -> ps_receiver s' = ps_receiver s -> (ps_receiver s = true -> ps_iter s' = ps_iter s) ->
  ps_status_timer s' = ps_status_timer s -> ps_checkpoint_timer s' = ps_checkpoint_timer s ->
  input_ended s' -> (ps_receiver s = true -> ps_input s' <> In_failed) -> (ps_running s' = false <-> ps_input s' = In_done) -> (ps_running s = false -> ps_running s' = false) ->
  (saw_end (ps_status s') = true -> ps_running s' = false) -> received_pending s' `sublist_of` received_pending s -> poll_inv (es ++ [e]) s'.
Proof.
  intros [Hin Hrec Hdrop Hrun Hsaw Hends Hlast Hkinds Hcomp (tes & rs & Ht & Htl) (tes' & rs' & Ht' & Htl' & Hsub)] He Eq Et Er Ei Est Eck Hin' Hfail Hrun' Hmono Hsaw' Hpend.
  assert (looks (es ++ [e]) = looks es) as Hl by (rewrite looks_snoc; destruct e; try done; by rewrite app_nil_r).
  assert (ps_out s' = ps_out s) as Eo by (unfold ps_out; by rewrite Eq, Et).
  split; rewrite ?Hl, ?Eo, ?Et, ?Er, ?Est, ?Eck, ?Eq; auto.
  - destruct (ps_receiver s); [|done]. split; [rewrite Ei by done; by destruct Hrec|auto].
  - exists tes, rs. done.
  - exists tes', rs'. split; [done|]. split; [done|]. etransitivity; [|exact Hsub]. by apply sublist_app.
Qed.

(** A send: a record only while the input runs, an end only after it, a barrier that was received. *)
Lemma poll_inv_send es e s s' x : poll_inv es s -> match e with Ev_look _ => False | _ => True end -> ps_receiver s = true ->
  ps_queue s' = ps_queue s ++ [x] -> ps_taken s' = ps_taken s -> ps_receiver s' = true -> ps_running s' = ps_running s ->
  ps_status_timer s' = ps_status_timer s -> ps_checkpoint_timer s' = ps_checkpoint_timer s ->
  input_ended s' -> records_of [x] ++ ps_iter s' = ps_iter s -> ps_input s' <> In_failed -> (ps_running s' = false <-> ps_input s' = In_done) ->
  (is_record x = true -> ps_running s = true) -> (ends x = true -> ps_running s = false) ->
  match x with Element_Watermark _ => False | _ => True end ->
  (saw_end (ps_status s') = true -> ps_running s' = false) -> barriers_of [x] ++ received_pending s' = received_pending s -> poll_inv (es ++ [e]) s'.
Proof.
  intros [Hin Hrec Hdrop Hrun Hsaw Hends Hlast Hkinds Hcomp (tes & rs & Ht & Htl) (tes' & rs' & Ht' & Htl' & Hsub)] He Hr Eq Et Er Erun Est Eck Hin' Hi Hfail Hrun' Hx1 Hx2 Hx3 Hsaw' Hpend.
  assert (looks (es ++ [e]) = looks es) as Hl by (rewrite looks_snoc; destruct e; try done; by rewrite app_nil_r).
  assert (ps_out s' = ps_out s ++ [x]) as Eo by (unfold ps_out; rewrite Eq, Et; apply app_assoc).
  rewrite Hr in Hrec. destruct Hrec as [Hrec _].
  split; rewrite ?Hl, ?Eo, ?Et, ?Er, ?Est, ?Eck; auto; [| by intros [=] | | | | | ].
  - split; [|done]. by rewrite records_app, <- app_assoc, Hi.
  - rewrite exists_ends_app, Erun. intros [?|?]; auto.
  - apply end_last_snoc; [done|]. intros Hx Hex%Hends. rewrite Hx1 in Hex; done.
  - apply Forall_app. split; [done|by apply Forall_singleton].
  - exists tes, rs. done.
  - exists tes', rs'. split; [done|]. split; [done|]. by rewrite barriers_app, <- app_assoc, Hpend.
Qed.

#[local] Ltac poll_solve := first [done | congruence | tauto | intuition congruence].

Lemma poll_inv_input es s : poll_inv es s -> poll_inv (es ++ [Ev_input]) (poll_input_element0 daemon_task s).
Proof.
  intros Hinv. pose proof Hinv as [Hin Hrec Hdrop Hrun Hsaw Hends Hlast Hkinds Hcomp _ _]. unfold poll_input_element0, input_ended in *. destruct (ps_input s) eqn:Ei; [destruct (ps_iter s) as [|r iter] eqn:Eit| | | |].
  - apply (poll_inv_quiet es Ev_input s); cbn; auto; poll_solve.
  - unfold poll_send. destruct (ps_receiver s) eqn:Er.
    + destruct Hrec as [Hrec _]. assert (is_record r = true) as Hr by (rewrite <- Hrec, Forall_app, Forall_cons in Hinput; tauto).
      apply (poll_inv_send es Ev_input s _ r); cbn; auto.
      * by rewrite Hr, Eit.
      * poll_solve.
      * intros _. destruct (ps_running s); poll_solve.
      * by destruct r.
      * by destruct r.
      * by destruct r.
    + apply (poll_inv_quiet es Ev_input s); cbn; auto; poll_solve.
  - apply (poll_inv_quiet es Ev_input s); cbn; auto; try (destruct (daemon_task && is_terminating _) eqn:Ed; poll_solve).
    unfold input_ended. cbn. destruct daemon_task; [|done]. by destruct (is_terminating _); [right|].
  - apply (poll_inv_quiet es Ev_input s); cbn; auto; poll_solve.
  - apply (poll_inv_quiet es Ev_input s); auto; unfold input_ended; rewrite ?Ei; poll_solve.
  - apply (poll_inv_quiet es Ev_input s); auto; unfold input_ended; rewrite ?Ei; auto. intros Hr. rewrite Hr in Hrec. by destruct Hrec.
Qed.

Lemma timer_recv_inv iv tes received t : timer_inv iv tes (t, received) ->
  match timer_recv t with
  | (t', Some w) => exists tes', timer_inv iv tes' (t', received ++ [w]) /\ ticks tes' = ticks tes
  | (t', None) => True
  end.
Proof.
  intros Ht. pose proof (timer_inv_recv iv tes (t, received) Ht) as Ht'. cbn in Ht'. destruct (timer_recv t) as [t' [w|]]; [|done]. exists (tes ++ [Recv]). split; [exact Ht'|].
  unfold ticks. rewrite omap_app. cbn. by rewrite app_nil_r.
Qed.

Lemma poll_inv_status es s : poll_inv es s -> poll_inv (es ++ [Ev_status]) (poll_stream_status0 s).
Proof.
  intros Hinv. pose proof Hinv as [Hin Hrec Hdrop Hrun Hsaw Hends Hlast Hkinds Hcomp (tes & rs & Ht & Htl) Hck]. unfold poll_stream_status0, input_ended in *.
  assert (ps_receiver s = true -> ps_input s <> In_failed) as Hfail by (intros Hr; rewrite Hr in Hrec; by destruct Hrec).
  destruct (ps_status s) as [|r|r w| |] eqn:Es.
  - apply (poll_inv_quiet es Ev_status s); cbn; auto. by destruct (ps_running s).
  - pose proof (timer_recv_inv _ _ _ _ Ht) as Hr. destruct (timer_recv (ps_status_timer s)) as [t [w|]].
    + destruct Hr as (tes' & Ht' & Htl'). split; cbn; rewrite ?looks_snoc, ?app_nil_r; auto.
      exists tes', (rs ++ [w]). by rewrite Htl'.
    + apply (poll_inv_quiet es Ev_status s); auto. by rewrite Es.
  - unfold poll_send. destruct (ps_receiver s) eqn:Er.
    + apply (poll_inv_send es Ev_status s _ (new_stream_status w (negb r))); cbn; auto; destruct r; auto; done.
    + apply (poll_inv_quiet es Ev_status s); cbn; auto; [by rewrite Er|done].
  - apply (poll_inv_quiet es Ev_status s); cbn; auto.
  - apply (poll_inv_quiet es Ev_status s); auto. by rewrite Es.
Qed.

Lemma poll_inv_checkpoint es s : poll_inv es s -> poll_inv (es ++ [Ev_checkpoint]) (poll_checkpoint0 s).
Proof.
  intros Hinv. pose proof Hinv as [Hin Hrec Hdrop Hrun Hsaw Hends Hlast Hkinds Hcomp Hst (tes & rs & Ht & Htl & Hsub)]. unfold poll_checkpoint0, input_ended in *.
  assert (ps_receiver s = true -> ps_input s <> In_failed) as Hfail by (intros Hr; rewrite Hr in Hrec; by destruct Hrec).
  unfold received_pending in Hsub. destruct (ps_checkpoint s) as [|w| | |] eqn:Es.
  - pose proof (timer_recv_inv _ _ _ _ Ht) as Hr. destruct (timer_recv (ps_checkpoint_timer s)) as [t [w|]].
    + destruct Hr as (tes' & Ht' & Htl'). split; cbn; rewrite ?looks_snoc, ?app_nil_r; auto.
      exists tes', (rs ++ [w]). rewrite Htl'. split; [done|]. split; [done|]. apply sublist_app; [by rewrite app_nil_r in Hsub|done].
    + apply (poll_inv_quiet es Ev_checkpoint s); auto.
  - unfold poll_send. destruct (ps_receiver s) eqn:Er.
    + apply (poll_inv_send es Ev_checkpoint s _ (new_barrier w)); cbn; auto; try done. unfold received_pending. by rewrite Es.
    + apply (poll_inv_quiet es Ev_checkpoint s); cbn; auto; [by rewrite Er|apply sublist_nil_l].
  - apply (poll_inv_quiet es Ev_checkpoint s); cbn; auto. unfold received_pending. rewrite Es. cbn. by destruct (ps_running s).
  - apply (poll_inv_quiet es Ev_checkpoint s); cbn; auto. unfold received_pending. rewrite Es. cbn. by destruct (is_terminated _).
  - apply (poll_inv_quiet es Ev_checkpoint s); auto.
Qed.

Lemma poll_inv_look {E} es s ts : 0 <= ts < 2 ^ 62 -> poll_inv es s -> exists s', poll_event (E := E) daemon_task s (Ev_look ts) = Ok s' /\ poll_inv (es ++ [Ev_look ts]) s'.
Proof.
  intros Hts [Hin Hrec Hdrop Hrun Hsaw Hends Hlast Hkinds Hcomp (tes & rs & Ht & Htl) (tes' & rs' & Ht' & Htl' & Hsub)].
  destruct (timer_inv_tick 10000000000 ltac:(done) (E := E) tes _ ts Hts Ht) as (t1 & H1 & Hi1 & _). destruct (timer_inv_tick interval Hinterval (E := E) tes' _ ts Hts Ht') as (t2 & H2 & Hi2 & _).
  cbn [fst snd] in *. cbn [poll_event]. rewrite H1. cbn [mbind res_bind]. rewrite H2. cbn [mbind res_bind]. eexists. split; [done|].
  split; cbn; rewrite ?looks_snoc; auto.
  - exists (tes ++ [Tick ts]), rs. split; [done|]. unfold ticks in *. rewrite omap_app, Htl. done.
  - exists (tes' ++ [Tick ts]), rs'. split; [done|]. split; [|done]. unfold ticks in *. rewrite omap_app, Htl'. done.
Qed.

Lemma poll_inv_next es s : poll_inv es s -> poll_inv (es ++ [Ev_next]) (match poll_next s with Some (Some (_, s')) => s' | _ => s end).
Proof.
  intros Hinv. pose proof Hinv as [Hin Hrec Hdrop Hrun Hsaw Hends Hlast Hkinds Hcomp Hst Hck].
  assert (ps_receiver s = true -> ps_input s <> In_failed) as Hfail by (intros Hr; rewrite Hr in Hrec; by destruct Hrec).
  assert (poll_inv (es ++ [Ev_next]) s) as Hsame by (apply (poll_inv_quiet es Ev_next s); auto).
  unfold poll_next. destruct (ps_queue s) as [|x queue] eqn:Eq; [by destruct (is_done s)|].
  assert (ps_out s = (ps_taken s ++ [x]) ++ queue) as Eo by (unfold ps_out; rewrite Eq, <- app_assoc; done).
  assert (ps_receiver s = true) as Hr by (destruct (ps_receiver s); [done|]; by specialize (Hdrop eq_refl)). rewrite Hr in Hrec. destruct Hrec as [Hrec _].
  destruct Hsame as [_ _ _ _ _ _ _ _ _ Hst' Hck']. split; cbn; auto; unfold ps_out in *; cbn in *; rewrite ?Eq in *; rewrite <- ?app_assoc; auto.
  - rewrite Hr. split; [done|auto].
  - congruence.
  - intros Hd Hex. assert (Exists (fun e => ends e = true) (ps_taken s ++ x :: queue)) as Hex'.
    { rewrite Exists_app, Exists_cons in *. rewrite Exists_nil in Hex. tauto. }
    pose proof (proj1 Hrun (Hends Hex')) as Hdone. unfold input_ended in Hin. rewrite Hdone in Hin. destruct Hin as [Hit|]; [|congruence]. rewrite Hit, app_nil_r in Hrec.
    rewrite <- Hrec, Eo, (records_app (ps_taken s ++ [x]) queue). rewrite (end_last_prefix (ps_taken s ++ [x]) queue); [by rewrite app_nil_r|by rewrite <- Eo|done].
Qed.

Lemma poll_inv_event {E} es s e : match e with Ev_look ts => 0 <= ts < 2 ^ 62 | _ => True end -> poll_inv es s ->
  exists s', poll_event (E := E) daemon_task s e = Ok s' /\ poll_inv (es ++ [e]) s'.
Proof.
  intros He Hinv. destruct e as [| | |ts|st| |]; [eexists; split; [done|by apply poll_inv_input || by apply poll_inv_status || by apply poll_inv_checkpoint]..|by apply poll_inv_look| | |].
  - eexists. split; [done|]. pose proof (pi_input _ _ Hinv). pose proof (pi_running _ _ Hinv). apply (poll_inv_quiet es _ s); cbn; auto.
    + pose proof (pi_records _ _ Hinv) as Hrec. intros Hr. rewrite Hr in Hrec. by destruct Hrec.
    + apply (pi_saw _ _ Hinv).
  - eexists. split; [done|]. by apply poll_inv_next.
  - eexists. split; [done|]. destruct Hinv as [Hin Hrec Hdrop Hrun Hsaw Hends Hlast Hkinds Hcomp Hst (tes & rs & H1 & H2 & H3)]. split; cbn; rewrite ?looks_snoc, ?app_nil_r; auto; unfold ps_out in *; cbn; rewrite ?app_nil_r.
    + destruct (ps_receiver s); [|done]. destruct Hrec as [Hrec _]. rewrite records_app, <- app_assoc in Hrec. eauto.
    + intros Hex. apply Hends. rewrite Exists_app. by left.
    + clear -Hlast. induction (ps_taken s) as [|x l IH]; [done|]. cbn in *. destruct Hlast as [Hx Hl]. split; [|auto]. intros Hend%Hx. rewrite records_app in Hend. by apply List.app_eq_nil in Hend as [? _].
    + by apply Forall_app in Hkinds as [? _].
    + exists tes, rs. split; [done|]. split; [done|]. etransitivity; [|exact H3]. rewrite barriers_app, <- app_assoc. apply sublist_app; [done|]. by apply sublist_inserts_l.
Qed.

Lemma poll_run_inv {E} es coordinator : Forall (fun ts => 0 <= ts < 2 ^ 62) (looks es) ->
  exists s, foldM (poll_event (E := E) daemon_task) (poll_start input interval coordinator) es = Ok s /\ poll_inv es s.
Proof.
  induction es as [|e es IH] using rev_ind; intros Hes; [eexists; split; [done|apply poll_inv_init]|]. rewrite looks_snoc, Forall_app in Hes. destruct Hes as [Hes He].
  destruct (IH Hes) as (s & Hrun & Hinv). rewrite foldM_app, Hrun. cbn [mbind res_bind foldM]. destruct (poll_inv_event (E := E) es s e) as (s' & -> & Hinv'); [|done|by exists s'].
  destruct e; try done. by apply Forall_inv in He.
Qed.
End input.

(** *** Every time received is a barrier sent *)
Lemma barriers_records es : Forall (fun e => is_record e = true) es -> barriers_of es = [].
Proof. induction 1 as [|e es He _ IH]; [done|]. by destruct e. Qed.

Lemma notified_step daemon_task s e s' : Forall (fun e => is_record e = true) (ps_iter s) -> poll_event (E := string) daemon_task s e = Ok s' -> ps_receiver s' = true ->
  ps_receiver s = true /\ Forall (fun e => is_record e = true) (ps_iter s') /\
  barriers_of (ps_out s') ++ received_pending s' = (barriers_of (ps_out s) ++ received_pending s) ++ notified_by s e.
Proof.
  intros Hi. assert (forall s', ps_receiver s' = ps_receiver s -> ps_iter s' = ps_iter s -> ps_out s' = ps_out s -> received_pending s' = received_pending s -> notified_by s e = [] -> ps_receiver s' = true ->
    ps_receiver s = true /\ Forall (fun e => is_record e = true) (ps_iter s') /\ barriers_of (ps_out s') ++ received_pending s' = (barriers_of (ps_out s) ++ received_pending s) ++ notified_by s e) as Hsame.
  { intros t -> -> -> -> -> ->. rewrite app_nil_r. done. }
  destruct e as [| | |ts|st| |]; cbn [poll_event].
  - intros [= <-]. unfold poll_input_element0, poll_send. destruct (ps_input s); try by apply Hsame. destruct (ps_iter s) as [|r iter] eqn:Ei; [by apply Hsame; cbn; rewrite ?Ei|].
    apply Forall_cons in Hi as [Hr Hi]. destruct (ps_receiver s) eqn:Er; cbn; [|by rewrite Er]. intros _. split; [done|]. split; [done|]. unfold ps_out. cbn. rewrite app_nil_r, (app_assoc (ps_taken s)), barriers_app.
    destruct r; [|done..]. cbn. by rewrite app_nil_r.
  - intros [= <-]. unfold poll_stream_status0, poll_send. destruct (ps_status s) as [|r|r w| |]; try by apply Hsame.
    + destruct (timer_recv (ps_status_timer s)) as [t [w|]]; by apply Hsame.
    + destruct (ps_receiver s) eqn:Er; [|by apply Hsame]. cbn. intros _. split; [done|]. split; [done|]. rewrite app_nil_r. f_equal. unfold ps_out. cbn. rewrite (app_assoc (ps_taken s)), barriers_app. cbn. by rewrite app_nil_r.
  - intros [= <-]. unfold poll_checkpoint0, poll_send, notified_by. destruct (ps_checkpoint s) as [|w| | |] eqn:Ec; rewrite ?app_nil_r.
    + destruct (timer_recv (ps_checkpoint_timer s)) as [t [w|]] eqn:Et; cbn; intros Hr; split_and!; auto; unfold received_pending; cbn; rewrite ?Ec; by rewrite ?app_nil_r.
    + destruct (ps_receiver s) eqn:Er; cbn; [|by rewrite Er]. intros _. split_and!; auto. unfold received_pending, ps_out. cbn. rewrite Ec, app_nil_r, (app_assoc (ps_taken s)), barriers_app. done.
    + cbn. intros Hr. split_and!; auto. unfold received_pending. cbn. rewrite Ec. by destruct (ps_running s).
    + cbn. intros Hr. split_and!; auto. unfold received_pending. cbn. rewrite Ec. by destruct (is_terminated _).
    + intros Hr. split_and!; auto.
  - destruct (check_timer ts (ps_status_timer s)) as [t1| |]; [|done..]. cbn [mbind res_bind]. destruct (check_timer ts (ps_checkpoint_timer s)) as [t2| |]; [|done..]. cbn [mbind res_bind]. intros [= <-]. by apply Hsame.
  - intros [= <-]. by apply Hsame.
  - intros [= <-]. unfold poll_next. destruct (ps_queue s) as [|x q] eqn:Eq; [destruct (is_done s); by apply Hsame|]. apply Hsame; try done. unfold ps_out. cbn. by rewrite Eq, <- app_assoc.
  - intros [= <-]. done.
Qed.

Lemma notified_run daemon_task es : forall s s', Forall (fun e => is_record e = true) (ps_iter s) -> foldM (poll_event (E := string) daemon_task) s es = Ok s' -> ps_receiver s' = true ->
  ps_receiver s = true /\ barriers_of (ps_out s') ++ received_pending s' = (barriers_of (ps_out s) ++ received_pending s) ++ notified daemon_task s es.
Proof.
  induction es as [|e es IH]; intros s s' Hi; cbn [foldM notified]; [intros [= <-] Hr; by rewrite app_nil_r|].
  destruct (poll_event daemon_task s e) as [s1| |] eqn:E1; [|done..]. intros Hrun Hr.
  assert (ps_receiver s1 = true -> Forall (fun e => is_record e = true) (ps_iter s1)) as Hi1 by (intros H1; by apply (notified_step _ _ _ _ Hi E1 H1)).
  destruct (ps_receiver s1) eqn:Er1.
  - destruct (notified_step _ _ _ _ Hi E1 Er1) as (H0 & H1 & H2). destruct (IH s1 s' H1 Hrun Hr) as [_ H3]. split; [done|]. by rewrite H3, H2, <- !app_assoc.
  - exfalso. clear -Hrun Hr Er1. revert s1 Er1 Hrun. induction es as [|e es IH]; intros s1 Er; cbn [foldM]; [intros [= <-]; congruence|].
    destruct (poll_event daemon_task s1 e) as [s2| |] eqn:E2; [|done..]. apply IH. destruct e as [| | |ts|st| |]; cbn [poll_event] in E2; simplify_eq/=; try done.
    + unfold poll_input_element0, poll_send. rewrite Er. by repeat case_match.
    + unfold poll_stream_status0, poll_send. rewrite Er. by repeat case_match.
    + unfold poll_checkpoint0, poll_send. rewrite Er. by repeat case_match.
    + destruct (check_timer ts (ps_status_timer s1)) as [t1| |]; [|done..]. revert E2. cbn [mbind res_bind]. destruct (check_timer ts (ps_checkpoint_timer s1)) as [t2| |]; [|done..]. cbn [mbind res_bind]. by intros [= <-].
    + unfold poll_next. destruct (ps_queue s1); [by destruct (is_done s1)|done].
Qed.
End poll.

(** ** The loop of the task over what it takes *)
Section task.
Context {SB : Bytes.SerBuffer} {HO : HashOrder} {F : Type} `{!CheckpointFunction F}.

Lemma data_app l1 l2 : data_of (l1 ++ l2) = data_of l1 ++ data_of l2.
Proof. apply List.filter_app. Qed.

Lemma records_of_data es : records_of (data_of es) = records_of es.
Proof. unfold records_of, data_of. induction es as [|e es IH]; [done|]. cbn. by destruct e; cbn; rewrite IH. Qed.

(** Without parents every barrier and every status passes. *)
Lemma orphan_source_run es (s : SourceRunnable F) task : sr_context F s = Some task -> parent_execution_size (barrier_alignment F s) = 0 -> parent_execution_size (stream_status_alignment F s) = 0 ->
  watermark_manager F s = ∅ -> Forall (fun e => match e with Element_Watermark _ => False | _ => True end) es ->
  exists s' acts, source_run s es = Ok (s', acts) /\ data_of (nexts_of acts) = data_of es /\ ck_checkpoint_id <$> checkpoints_of acts = barriers_of es.
Proof.
  intros Hc Hb Hs Hw. revert s Hc Hb Hs Hw. induction es as [|e es IH]; intros s Hc Hb Hs Hw Hes; [by exists s, []|]. apply Forall_cons in Hes as [He Hes].
  assert (exists s1 acts1, source_step s e = Ok (s1, acts1) /\ data_of (nexts_of acts1) = data_of [e] /\ ck_checkpoint_id <$> checkpoints_of acts1 = barriers_of [e] /\
    sr_context F s1 = Some task /\ parent_execution_size (barrier_alignment F s1) = 0 /\ parent_execution_size (stream_status_alignment F s1) = 0 /\ watermark_manager F s1 = ∅) as (s1 & a1 & Hstep & Hr & Hk & H1 & H2 & H3 & H4).
  { destruct e as [r|w|ss|b]; [|done|..]; unfold source_step.
    - eexists _, _. split; [done|]. done.
    - unfold watermark_job_check. rewrite Hw, lookup_empty. cbn [mbind res_bind]. unfold align_apply. rewrite Hs, Z.eqb_refl. cbn [mbind res_bind]. eexists _, _. split; [done|].
      cbn. by destruct (ss_end ss && _).
    - unfold align_apply. rewrite Hb, Z.eqb_refl. cbn [mbind res_bind]. rewrite Hc. unfold barrier_step. cbn [unwrap mbind res_bind]. unfold make_checkpoint.
      destruct (snapshot_state _ _) as [f h]. cbn [mbind res_bind]. eexists _, _. split; [done|]. done. }
  destruct (IH s1 H1 H2 H3 H4 Hes) as (s' & acts & Hrun & Hr' & Hk'). exists s', (a1 ++ acts). cbn [source_run]. rewrite Hstep. cbn [mbind res_bind]. rewrite Hrun. cbn [mbind res_bind]. split; [done|].
  unfold nexts_of, checkpoints_of in *. rewrite !omap_app, data_app, fmap_app, Hr, Hr', Hk, Hk'. change (e :: es) with ([e] ++ es). by rewrite data_app, barriers_app.
Qed.

Lemma ends_counted es : 0 < end_statuses es -> Exists (fun e => ends e = true) es.
Proof. unfold end_statuses. induction es as [|e es IH]; [done|]. cbn. intros H. destruct (ends e) eqn:E; [by left|right]. apply IH. destruct e; try done. cbn in E. by rewrite E in H. Qed.

(** C32: A source task that runs a source of the user, in every interleaving of the thread
    that reads the input, the two threads behind the timers, the timer, the coordinator's
    status and the task: the task does not fail; everything it has taken but the statuses,
    that is the records and the barriers, it has passed on, in the order it was taken; the
    records are those of the input, in order; the task has reported one checkpoint for every
    barrier, in order; while the task has its channel, the barriers taken, those still in the
    channel and the one about to be sent are exactly the times the checkpoint thread has
    received from its timer, in order, and they increase while the clock does not go back;
    and the task reports its end only when it has passed on every record of the input, unless
    the source is a daemon that was broken off. *)
Theorem user_source_complete (daemon_task : bool) (input : list Element) (interval : Z) (op : OperatorId) (task : TaskId) (f : F) (coordinator : ManagerStatus) (es : list PollEvent) :
  Forall (fun e => is_record e = true) input -> 0 < as_millis interval < 2 ^ 62 -> Forall (fun ts => 0 <= ts < 2 ^ 62) (looks es) ->
  exists st s0 s acts, foldM (poll_event (E := string) daemon_task) (poll_start input interval coordinator) es = Ok st /\
    source_open op task f [] = Ok s0 /\ source_run s0 (ps_taken st) = Ok (s, acts) /\
    data_of (nexts_of acts) = data_of (ps_taken st) /\ records_of (nexts_of acts) `prefix_of` input /\
    ck_checkpoint_id <$> checkpoints_of acts = barriers_of (ps_taken st) /\
    (ps_receiver st = true -> barriers_of (ps_taken st) ++ barriers_of (ps_queue st) ++ received_pending st = notified daemon_task (poll_start input interval coordinator) es) /\
    (StronglySorted Z.le (looks es) -> StronglySorted Z.lt (barriers_of (ps_taken st))) /\
    (daemon_task = false -> task_ends_of acts <> [] -> records_of (nexts_of acts) = input).
Proof.
  intros Hinput Hint Hlooks. destruct (poll_run_inv daemon_task input Hinput interval Hint (E := string) es coordinator Hlooks) as (st & Hrun & Hinv). destruct Hinv as [_ Hrec _ _ _ _ _ Hkinds Hcomp _ (tes & rs & Ht & Htl & Hsub)].
  unfold ps_out in Hkinds, Hsub. apply Forall_app in Hkinds as [Hkinds _]. exists st.
  eexists. destruct (orphan_source_run (ps_taken st) (mkSourceRunnable F op (Some task) task f 1 0 (AlignManager_new 0) (AlignManager_new 0) (WatermarkManager_new ∅)) task) as (s & acts & Hsrc & Hr & Hk); try done.
  exists s, acts. split; [done|]. split; [done|]. split; [done|]. split; [done|]. rewrite <- (records_of_data (nexts_of acts)), Hr, records_of_data. split; [|split; [done|split; [|split]]].
  - destruct (ps_receiver st); [destruct Hrec as [Hrec _]; unfold ps_out in Hrec; rewrite records_app in Hrec; exists (records_of (ps_queue st) ++ ps_iter st); by rewrite app_assoc|]. destruct Hrec as [rest <-]. by exists rest.
  - intros Hrec'. destruct (notified_run daemon_task es (poll_start input interval coordinator) st Hinput Hrun Hrec') as [_ Hn]. unfold ps_out in Hn. rewrite barriers_app, <- app_assoc in Hn. exact Hn.
  - intros Hsorted. assert (barriers_of (ps_taken st) `sublist_of` starts (as_millis interval) 0 (ticks tes)) as Hsub2.
    { etransitivity; [|apply (ti_sent _ _ _ Ht)]. cbn. etransitivity; [|apply sublist_inserts_r; exact Hsub]. rewrite barriers_app. rewrite <- app_assoc. by apply sublist_inserts_r. }
    rewrite Htl in Hsub2. assert (StronglySorted Z.lt (starts (as_millis interval) 0 (looks es))) as Hst.
    { apply starts_sorted; [lia| |by exists 0|done]. eapply Forall_impl; [exact Hlooks|]. cbn. lia. }
    by eapply StronglySorted_sublist.
  - intros Hd Hends. apply Hcomp; [done|]. apply ends_counted. pose proof (source_run_ends _ _ _ _ Hsrc) as He. cbn [waiting_end_flags end_flags] in He. unfold end_reports in He. specialize (He ltac:(lia) ltac:(lia)).
    destruct (task_ends_of acts); [done|]. cbn [length] in He. lia.
Qed.
End task.

(** ** The end of the threads *)
Section stop.
Context {SB : Bytes.SerBuffer}.

(** What the two timed threads can still send when they see the end. *)
Definition left_to_send (s : PollState) : nat :=
  match ps_status s with St_load | St_recv false | St_send false _ => 1 | St_recv true | St_send true _ => 2 | St_check | St_done => 0 end +
  match ps_checkpoint s with Ck_recv | Ck_send _ => 1 | _ => 0 end.

Lemma poll_event_stopping {E} daemon_task s e s' : ps_input s = In_done -> ps_running s = false -> is_terminated (ps_coordinator s) = true -> match e with Ev_coordinator _ => False | _ => True end ->
  poll_event (E := E) daemon_task s e = Ok s' ->
  ps_input s' = In_done /\ ps_running s' = false /\ is_terminated (ps_coordinator s') = true /\ (length (ps_out s') + left_to_send s' <= length (ps_out s) + left_to_send s)%nat.
Proof.
  intros Hi Hr Hc He. destruct e as [| | |ts| | |]; try done; cbn [poll_event].
  - intros [= <-]. unfold poll_input_element0. by rewrite Hi.
  - intros [= <-]. unfold poll_stream_status0, poll_send, left_to_send, ps_out. destruct (ps_status s) as [|r|r w| |] eqn:Es; [rewrite Hr| | |rewrite Hc|]; cbn; try (by rewrite ?Es; split_and!; auto; lia).
    + destruct (timer_recv _) as [t [w|]]; cbn; rewrite ?Es; split_and!; auto; destruct r; lia.
    + destruct (ps_receiver s); cbn; rewrite ?length_app; cbn; destruct r; split_and!; auto; lia.
  - intros [= <-]. unfold poll_checkpoint0, poll_send, left_to_send, ps_out. destruct (ps_checkpoint s) as [|w| | |] eqn:Es; [| |rewrite Hr|rewrite Hc|]; cbn; try (by rewrite ?Es; split_and!; auto; lia).
    + destruct (timer_recv _) as [t [w|]]; cbn; rewrite ?Es; split_and!; auto; lia.
    + destruct (ps_receiver s); cbn; rewrite ?length_app; cbn; split_and!; auto; lia.
  - destruct (check_timer ts (ps_status_timer s)) as [t1| |]; [|done..]. cbn [mbind res_bind]. destruct (check_timer ts (ps_checkpoint_timer s)) as [t2| |]; [|done..]. cbn [mbind res_bind]. intros [= <-].
    unfold left_to_send, ps_out. cbn. split_and!; auto.
  - intros [= <-]. unfold poll_next, ps_out. destruct (ps_queue s) as [|x q] eqn:Eq; [destruct (is_done s); rewrite ?Eq; auto|]. unfold left_to_send. cbn. rewrite !length_app. cbn. split_and!; auto. lia.
  - intros [= <-]. unfold left_to_send, ps_out. cbn. rewrite !length_app. cbn. split_and!; auto. lia.
Qed.

(** Once the input has ended and the coordinator is terminated, whatever the threads do
    from there, at most two statuses and one barrier are still sent. *)
Theorem polls_stop {E} daemon_task s es s' : ps_input s = In_done -> ps_running s = false -> is_terminated (ps_coordinator s) = true ->
  Forall (fun e => match e with Ev_coordinator _ => False | _ => True end) es -> foldM (poll_event (E := E) daemon_task) s es = Ok s' -> (length (ps_out s') <= length (ps_out s) + 3)%nat.
Proof.
  intros Hi Hr Hc Hes Hrun. enough (length (ps_out s') + left_to_send s' <= length (ps_out s) + left_to_send s)%nat as H.
  { assert (left_to_send s <= 3)%nat by (unfold left_to_send; destruct (ps_status s) as [|[]|[]| |], (ps_checkpoint s); lia). lia. }
  revert s Hi Hr Hc Hrun. induction Hes as [|e es He Hes IH]; intros s Hi Hr Hc; cbn [foldM]; [by intros [= <-]|].
  destruct (poll_event daemon_task s e) as [s1| |] eqn:E1; [|done..]. destruct (poll_event_stopping daemon_task s e s1 Hi Hr Hc He E1) as (Hi1 & Hr1 & Hc1 & Hle). intros Hrun.
  specialize (IH s1 Hi1 Hr1 Hc1 Hrun). lia.
Qed.
End stop.

(** ** Examples *)
#[local] Existing Instances Bytes.list_buffer id_order.
#[local] Instance ex_checkpoint : CheckpointFunction unit := default_checkpoint_function unit.

Definition ex_input : list Element := [Element_Record example_record; Element_Record example_record].

(** The status thread has looked at the flag before the input ends: its first status is
    still none of the end; the next one is, behind both records and the barrier. *)
Definition ex_poll_events : list PollEvent :=
  [Ev_input; Ev_input; Ev_status; Ev_input; Ev_input; Ev_input; Ev_input; Ev_look 100000; Ev_status; Ev_status; Ev_checkpoint; Ev_checkpoint; Ev_checkpoint; Ev_status; Ev_look 110000; Ev_status; Ev_status;
   Ev_next; Ev_next; Ev_next; Ev_next; Ev_next].

Definition ex_poll : res string PollState := foldM (poll_event false) (poll_start ex_input 30000000000 Registered) ex_poll_events.

Example ex_poll_taken : (let* s := ex_poll in Ok (ps_taken s)) =
  Ok (ex_input ++ [new_stream_status 100000 false; new_barrier 90000; new_stream_status 110000 true]).
Proof. reflexivity. Qed.

Lemma user_source_complete_witness : exists st s0 s acts, ex_poll = Ok st /\ source_open 0 TaskId_default tt [] = Ok s0 /\ source_run s0 (ps_taken st) = Ok (s, acts) /\
  task_ends_of acts = [TaskId_default] /\ records_of (nexts_of acts) = ex_input /\ data_of (nexts_of acts) = ex_input ++ [new_barrier 90000] /\ ck_checkpoint_id <$> checkpoints_of acts = [90000].
Proof.
  destruct (user_source_complete false ex_input 30000000000 0 TaskId_default tt Registered ex_poll_events) as (st & s0 & s & acts & H1 & H2 & H3 & Hd & _ & Hk & _ & _ & H4).
  - by repeat (apply Forall_cons; split).
  - done.
  - repeat (apply Forall_cons; split); try lia. done.
  - exists st, s0, s, acts. split; [exact H1|]. split; [done|]. split; [done|].
    assert (task_ends_of acts = [TaskId_default]) as He.
    { revert H1 H2 H3. vm_compute. intros [= <-] [= <-] [= _ <-]. reflexivity. }
    assert (ps_taken st = ex_input ++ [new_stream_status 100000 false; new_barrier 90000; new_stream_status 110000 true]) as Ht.
    { clear -H1. revert H1. vm_compute. intros [= <-]. reflexivity. }
    split; [done|]. split; [apply H4; [done|]; by rewrite He|]. rewrite Hd, Hk, Ht. split; reflexivity.
Defined.
