(* ===== verification/ParallelReduce.v ===== *)
(** * ParallelReduce: a keyed reduction on several tasks

    How the parts of a keyed reduction work together. The job before the reduction ends in
    the key-by runnable and the sink runnable over the system output: [key_by_chain]. A
    record gets the partition of its key
    (src/rlink/src/runtime/worker/runnable/key_by_runnable.rs), the output writes it to the
    network channel of that partition (src/rlink/src/functions/system/system_output_format.rs),
    and a client pulls it through the bytes of the wire format, which carry neither its
    windows nor its channel key (src/rlink/src/pub_sub/network/). The job of the reduction
    starts with a source of its own, which passes the record on, then the window assigner,
    which gives it the windows of its timestamp, and then the reduce runnable, which reduces
    it per window and key: [reduce_chain]
    (src/rlink/src/runtime/worker/runnable/source_runnable.rs, window_assigner_runnable.rs,
    reduce_runnable.rs; StreamGraph and JobGraph cut the program this way).

    The theorem says that spreading a reduction over tasks changes nothing: every task holds,
    for the keys of its partition, what one task would hold for all the records. *)
From Stdlib Require Import ZArith Lia.
From stdpp Require Import base strings numbers option sets gmap list.
From S2P Require Import Prelude BTreeMap Bytes Runtime Graph Window Element Align KeyedState WindowReduce Runnables Task Network Output.

#[local] Open Scope Z_scope.

Section parallel.
Context {BA : BytesApi} {SB : SerBuffer} {FR : FrameRead} {HO : HashOrder} {JA : JsonApi}.
Context (hash_code : list Z -> option Z) (reduce_func : option record -> record -> record * record).
Context {K : Type} `{!KeySelectorFunction K}.

(** ** The tasks *)

(** The loop of a source as the first runnable of its task's chain: what it does with one
    element of its input. *)
Definition source_runnable_run {F : Type} `{!CheckpointFunction F} (w : World) (s : SourceRunnable F) (e : Element)
    : res string (World * SourceRunnable F * list action) :=
  let* (s, acts) := source_step s e in Ok (w, s, acts).

(** A task over the elements its source reads: each goes through the whole chain before the
    next is read. *)
Definition run_task (w : World) (chain : list runnable) (es : list Element) : res string (World * list runnable * list action) :=
  foldM (fun '(w, chain, effs) e =>
    let* (w, chain, effs') := run_chain (length chain) w chain e in
    Ok (w, chain, effs ++ effs')) (w, chain, []) es.

(** The system output as the function of a sink: its state is the channels it writes to. *)
#[global] Instance system_output : OutputFormat (SystemOutputFormat * Channels) := {
  write_element := fun '(o, chs) e => let* chs := Output.write_element o e chs in Ok (o, chs);
  output_checkpoint := default_checkpoint_function _
}.

(** The end of the job before the reduction. *)
Definition key_by_chain {F : Type} `{!CheckpointFunction F} (src : SourceRunnable F) (kb : KeyByRunnable K) (sk : SinkRunnable (SystemOutputFormat * Channels)) : list runnable :=
  [mkRunnable _ src source_runnable_run; mkRunnable _ kb (key_by_run hash_code); mkRunnable _ sk sink_run].

(** The job of the reduction; [rest] is the chain behind it. *)
Definition reduce_chain {F : Type} `{!CheckpointFunction F} (src : SourceRunnable F) (wd : WindowAssignerRunnable) (rd : ReduceRunnable K) (rest : list runnable) : list runnable :=
  mkRunnable _ src source_runnable_run :: mkRunnable _ wd window_assigner_run :: mkRunnable _ rd (reduce_run reduce_func) :: rest.

(** The reduce runnable of task [u] as it starts. *)
Definition reduce_start (app : string) (u : TaskId) (op : OperatorId) (f : K) : ReduceRunnable K :=
  mkReduceRunnable K op (Some u) (Some f) (mkWindowReduce (Some (MemoryWindowState_new app (job_id u) (task_number u))) [] [] 0) Window_default None.

(** The sink of the job before as it starts, with its output opened. *)
Definition output_sink (op : OperatorId) (self : TaskId) (n : Z) (o : SystemOutputFormat) (chs : Channels) : SinkRunnable (SystemOutputFormat * Channels) :=
  mkSinkRunnable _ op (Some self) n System (o, chs).

(** ** A key selector and the partition of a key *)

(** What a key selector is to be: it leaves the record as it is, and the key is a function of
    the value bytes. *)
Definition selects (f : K) (key : record -> record) : Prop :=
  (forall r, get_key f r = (r, key r)) /\ forall r r', as_slice (r_values r) = as_slice (r_values r') -> key r = key r'.

Definition partition_of (p : Z) (k : list Z) : Z := default 0 (hash_code k) mod p.

(** The records as they leave the key-by runnable. *)
Definition keyed (p : Z) (key : record -> record) (r : record) : record := record_set_partition (partition_of p (key_bytes (key r))) r.

(** The windows of a record. *)
Definition windows_of (sw : SlidingEventTimeWindows) (ts : Z) : list Window :=
  match assign_windows (E:=string) sw ts with Ok ws => ws | _ => [] end.

(** The records as they reach the reduce runnable: what the wire carries, the key of the
    channel and the windows of the timestamp. *)
Definition arrives (ck : ChannelKey) (sw : SlidingEventTimeWindows) (r : record) : record :=
  mkRecord (r_partition_num r) (r_timestamp r) ck (Some (windows_of sw (r_timestamp r))) None (buf_from (as_slice (r_values r))).

Lemma partition_range p k : 0 < p -> 0 <= partition_of p k < p.
Proof. intros Hp. apply Z.mod_pos_bound. lia. Qed.

Lemma key_by_record w (kb : KeyByRunnable K) key r : selects (stream_key_by K kb) key -> 0 < kb_partition_size K kb <= 2 ^ 16 ->
  key_by_run hash_code w kb (Element_Record r) = Ok (w, kb, [Act_next (Element_Record (keyed (kb_partition_size K kb) key r))]).
Proof.
  intros [Hsel _] Hp. unfold key_by_run. rewrite Hsel. rewrite (proj2 (Z.eqb_neq _ 0)) by lia. unfold keyed, partition_of. rewrite wrap_u_small; [done|].
  unfold in_u. pose proof (Z.mod_pos_bound (default 0 (hash_code (as_slice (r_values (key r))))) (kb_partition_size K kb) ltac:(lia)). lia.
Qed.

(** ** Steps of a chain *)

(** A runnable that passes on one element: the rest of the chain runs on it. *)
Lemma run_chain_pass depth w r rs e w1 st e1 : rn_run r w (rn_cur r) e = Ok (w1, st, [Act_next e1]) ->
  run_chain (S depth) w (r :: rs) e = (let* (w2, rs', effs) := run_chain depth w1 rs e1 in Ok (w2, mkRunnable (rn_state r) st (rn_run r) :: rs', effs)).
Proof. intros H. cbn [run_chain]. rewrite H. run_bind. cbn [foldM]. by destruct (run_chain depth w1 rs e1) as [[[w2 rs2] effs]| |]. Qed.

(** A runnable that passes on nothing: the rest of the chain stays as it is. *)
Lemma run_chain_stop depth w r rs e w1 st : rn_run r w (rn_cur r) e = Ok (w1, st, []) ->
  run_chain (S depth) w (r :: rs) e = Ok (w1, mkRunnable (rn_state r) st (rn_run r) :: rs, []).
Proof. intros H. cbn [run_chain]. rewrite H. by run_bind. Qed.

Lemma run_task_snoc w chain es e : run_task w chain (es ++ [e]) =
  let* (w1, chain1, effs) := run_task w chain es in let* (w2, chain2, effs') := run_chain (length chain1) w1 chain1 e in Ok (w2, chain2, effs ++ effs').
Proof. unfold run_task. rewrite foldM_app. destruct (foldM _ _ es) as [[[w1 chain1] effs]| |]; [|done..]. run_bind. cbn [foldM]. by destruct (run_chain _ w1 chain1 e) as [[[w2 chain2] effs']| |]. Qed.

(** ** What the job before writes *)
Lemma key_by_step {F : Type} `{!CheckpointFunction F} w (src : SourceRunnable F) (kb : KeyByRunnable K) key op self n o chs chs' r :
  selects (stream_key_by K kb) key -> 0 < kb_partition_size K kb <= 2 ^ 16 ->
  Output.write_element o (Element_Record (keyed (kb_partition_size K kb) key r)) chs = Ok chs' ->
  run_chain 3 w (key_by_chain src kb (output_sink op self n o chs)) (Element_Record r) =
    Ok (w, key_by_chain src kb (output_sink op self n o chs'), [Act_write (Element_Record (keyed (kb_partition_size K kb) key r))]).
Proof.
  intros Hsel Hp Hw. unfold key_by_chain. rewrite (run_chain_pass 2 w (mkRunnable _ src source_runnable_run) _ (Element_Record r) w src (Element_Record r) eq_refl).
  rewrite (run_chain_pass 1 w (mkRunnable _ kb (key_by_run hash_code)) _ _ w kb _ (key_by_record w kb key r Hsel Hp)).
  erewrite (run_chain_last 0 w (mkRunnable _ (output_sink op self n o chs) sink_run) _ w (output_sink op self n o chs')); [done| |by repeat constructor].
  cbn -[Output.write_element]. rewrite Hw. by run_bind.
Qed.

Lemma key_by_task_routes {F : Type} `{!CheckpointFunction F} w (src : SourceRunnable F) (kb : KeyByRunnable K) key op self n t ts chs0 o chs1 rs :
  selects (stream_key_by K kb) key -> 0 < kb_partition_size K kb <= 2 ^ 16 -> num_tasks t = kb_partition_size K kb ->
  output_open output_new self (over_network (t :: ts)) chs0 = Ok (o, chs1) ->
  exists chs2, run_task w (key_by_chain src kb (output_sink op self n o chs1)) (Element_Record <$> rs) =
      Ok (w, key_by_chain src kb (output_sink op self n o chs2), (fun r => Act_write (Element_Record (keyed (kb_partition_size K kb) key r))) <$> rs) /\
    forall u, u ∈ t :: ts -> ch_network chs2 !! mkChannelKey self u =
      Some (Element_Record <$> filter (fun r => r_partition_num r = task_number u) (keyed (kb_partition_size K kb) key <$> rs)).
Proof.
  intros Hsel Hp Hn Hopen. destruct (network_output_routes self t ts chs0 o chs1 Hopen) as [Hempty Hwrite].
  induction rs as [|r rs IH] using rev_ind; [exists chs1; split; [done|exact Hempty]|]. destruct IH as (chs2 & Hrun & Hchs).
  set (r' := keyed (kb_partition_size K kb) key r).
  destruct (Hwrite (Element_Record r') chs2) as (chs3 & Hw & _ & Hnet); [rewrite Hn; apply partition_range; lia|]. exists chs3.
  rewrite !fmap_app, fmap_cons, fmap_nil, run_task_snoc, Hrun. run_bind. cbn [length key_by_chain]. fold (key_by_chain src kb (output_sink op self n o chs2)).
  rewrite (key_by_step w src kb key op self n o chs2 chs3 r Hsel Hp Hw). run_bind. split; [done|].
  intros u Hu. rewrite Hnet, (Hchs u Hu). cbn [source_task_id target_task_id partition]. rewrite filter_app, fmap_cons, fmap_nil. fold r'. rewrite filter_cons, filter_nil.
  destruct (decide (r_partition_num r' = task_number u)) as [He|He].
  - rewrite decide_True by done. cbn. by rewrite fmap_app.
  - rewrite decide_False by (intros (_ & _ & ?); congruence). by rewrite app_nil_r.
Qed.

(** ** What the clients pull *)

(** A record on the other side of the network. *)
Definition transported (ck : ChannelKey) (r : record) : record :=
  mkRecord (r_partition_num r) (r_timestamp r) ck None None (buf_from (as_slice (r_values r))).

Lemma received_records ck rs els : Forall2 (received ck) (Element_Record <$> rs) els -> els = Element_Record <$> (transported ck <$> rs).
Proof.
  revert els; induction rs as [|r rs IH]; intros els H; [by apply Forall2_nil_inv_l in H|].
  apply Forall2_cons_inv_l in H as (e & els' & (e0 & Hs & ->) & H & ->). rewrite (IH _ H). destruct e0 as [r0| | |]; [|done..].
  destruct Hs as (H1 & H2 & _ & _ & H5 & H6 & H7). rewrite !fmap_cons. f_equal. cbn. unfold record_set_channel_key, transported. by rewrite H1, H2, H5, H6, H7.
Qed.

Lemma deliverable_keyed p key r : 0 < p <= 2 ^ 16 -> deliverable (Element_Record r) -> deliverable (Element_Record (keyed p key r)).
Proof. intros Hp [(_ & Ht & Hl) Hc]. split; [|exact Hc]. split; [|by split]. unfold in_u. pose proof (partition_range p (key_bytes (key r)) ltac:(lia)). cbn. lia. Qed.

Lemma pulled_records k size ck st rs : ChannelKey_wf ck -> 0 <= size < U16_MAX -> in_u 16 (ps_batch_id st) -> Forall (fun r => deliverable (Element_Record r)) rs ->
  ps_channels st !! ck = Some (Element_Record <$> rs) -> (length rs <= k * Z.to_nat size)%nat ->
  exists st', pull_rounds k ck size st = (st', Ok tt) /\ ps_input st' = ps_input st ++ (Element_Record <$> (transported ck <$> rs)).
Proof.
  intros Hck Hs Hb Hd Hq Hk. destruct (pull_rounds_fifo k ck size st _ Hck Hs Hb Hq) as (els & st' & Hp & Hi & H2 & _); [by apply Forall_fmap|].
  exists st'. split; [done|]. rewrite Hi. f_equal. apply received_records. rewrite take_ge in H2; [done|]. by rewrite length_fmap.
Qed.

(** ** The reduction of a partition *)
Lemma windows_of_spec sw ts : sliding_wf sw -> timestamp_wf ts -> assign_windows (E:=string) sw ts = Ok (windows_of sw ts) /\ Forall (fun win => 0 <= min_timestamp win) (windows_of sw ts).
Proof.
  intros Hw Ht. unfold windows_of. rewrite (assign_windows_run sw ts Hw Ht). split; [done|]. apply Forall_forall. intros win.
  rewrite elem_of_sort_by_key, list_elem_of_fmap. intros (x & -> & [Hx _]%list_elem_of_filter). exact Hx.
Qed.

Lemma windows_acceptable ws r : Forall (fun win => 0 <= min_timestamp win) ws -> acceptable Window_default (set_location_windows ws r) = true.
Proof.
  intros Hws. unfold acceptable. destruct (max_location_window _) as [win|] eqn:E; [|done]. apply Z.leb_le. cbn [min_timestamp Window_default Window.start].
  unfold max_location_window in E. cbn [r_location_windows set_location_windows] in E. rewrite Forall_forall in Hws. apply Hws.
  destruct (0 <? length ws)%nat; [|done]. by eapply list_elem_of_lookup_2.
Qed.

Lemma reduce_step_chain {F : Type} `{!CheckpointFunction F} w (src : SourceRunnable F) wd (rd : ReduceRunnable K) rest f key r wf :
  selects f key -> rd_key_by K rd = Some f -> limited_watermark_window K rd = Window_default -> sliding_wf (stream_window wd) -> timestamp_wf (r_timestamp r) ->
  let r' := set_location_windows (windows_of (stream_window wd) (r_timestamp r)) r in
  wr_reduce (E:=string) reduce_func (stream_reduce K rd) (key r') r' = Ok wf ->
  run_chain (3 + length rest) w (reduce_chain src wd rd rest) (Element_Record r) =
    Ok (w, reduce_chain src wd (mkReduceRunnable K (rd_operator_id K rd) (rd_context K rd) (Some f) wf Window_default (rd_completed_checkpoint_id K rd)) rest, []).
Proof.
  intros [Hsel _] Hkb Hlim Hsw Hts r' Hred. destruct (windows_of_spec _ _ Hsw Hts) as [Hassign Hpos]. pose proof (windows_acceptable _ r Hpos) as Hacc. fold r' in Hacc. unfold reduce_chain. cbn [Nat.add].
  rewrite (run_chain_pass _ w (mkRunnable _ src source_runnable_run) _ (Element_Record r) w src (Element_Record r) eq_refl).
  rewrite (run_chain_pass _ w (mkRunnable _ wd window_assigner_run) _ _ w wd (Element_Record r')).
  2: { cbn [rn_run rn_cur window_assigner_run]. rewrite Hassign. by run_bind. }
  erewrite run_chain_stop; [by run_bind|]. cbn [rn_run rn_cur reduce_run]. rewrite Hlim, Hacc. cbn [negb]. rewrite Hkb, Hsel. rewrite Hred. by run_bind.
Qed.

Lemma reduce_task_state {F : Type} `{!CheckpointFunction F} w app u op f key (src : SourceRunnable F) wd rest rs :
  selects f key -> keeps_record reduce_func -> sliding_wf (stream_window wd) -> Forall (fun r => timestamp_wf (r_timestamp r)) rs ->
  exists rd s, run_task w (reduce_chain src wd (reduce_start app u op f) rest) (Element_Record <$> rs) = Ok (w, reduce_chain src wd rd rest, []) /\ wr_state (stream_reduce K rd) = Some s /\
    forall win k, lookup_value s win k = reduced_value reduce_func ((fun r => (key r, r)) <$> ((fun r => set_location_windows (windows_of (stream_window wd) (r_timestamp r)) r) <$> rs)) win k.
Proof.
  intros Hsel Hkeep Hsw Hts. set (place := fun r => set_location_windows (windows_of (stream_window wd) (r_timestamp r)) r).
  destruct (wr_reduce_values reduce_func app (job_id u) (task_number u) ((fun r => (key r, r)) <$> (place <$> rs)) Hkeep) as (f' & s & Hrun & Hstate & Hval).
  exists (mkReduceRunnable K op (Some u) (Some f) f' Window_default None), s. split; [|done]. clear Hstate Hval.
  unfold reduce_start. revert Hrun. generalize (mkWindowReduce (Some (MemoryWindowState_new app (job_id u) (task_number u))) [] [] 0). revert f'.
  induction rs as [|r rs IH] using rev_ind; intros f' f0.
  - by intros [= <-].
  - apply Forall_app in Hts as [Hts [Hr _]%Forall_cons]. specialize (IH Hts). rewrite !fmap_app, !fmap_cons, !fmap_nil, foldM_app. intros Hrun. destruct (foldM _ f0 _) as [f1| |] eqn:E1; [|done..]. revert Hrun; run_bind; cbn [foldM].
    destruct (wr_reduce reduce_func f1 (key (place r)) (place r)) as [f2| |] eqn:E2; [|done..]. run_bind. intros [= <-].
    rewrite run_task_snoc, (IH _ _ E1). run_bind. cbn [length reduce_chain].
    erewrite (reduce_step_chain w src wd (mkReduceRunnable K op (Some u) (Some f) f1 Window_default None) rest f key r f2); [by run_bind|done..].
Qed.

(** The records of other partitions do not touch the value of a key, those of its own all do;
    [g] is what happens to a record on the way, which leaves its key alone. *)
Lemma reduced_value_partition p key (g : record -> record) rs w k i :
  (forall r r', as_slice (r_values r) = as_slice (r_values r') -> key r = key r') -> (forall r, key (g r) = key r) ->
  reduced_value reduce_func ((fun r => (key r, r)) <$> (g <$> filter (fun r => r_partition_num r = i) (keyed p key <$> rs))) w k =
  if decide (partition_of p k = i) then reduced_value reduce_func ((fun r => (key r, r)) <$> (g <$> (keyed p key <$> rs))) w k else None.
Proof.
  intros Hkey Hg. unfold reduced_value. assert (forall r, key (g (keyed p key r)) = key r) as Hgk by (intros r; rewrite Hg; by apply Hkey).
  assert (forall l acc, foldl (reduce_step reduce_func w k) acc (merge_ops ((fun r => (key r, r)) <$> (g <$> filter (fun r => r_partition_num r = i) (keyed p key <$> l)))) =
    if decide (partition_of p k = i) then foldl (reduce_step reduce_func w k) acc (merge_ops ((fun r => (key r, r)) <$> (g <$> (keyed p key <$> l)))) else acc) as H; [|apply H].
  induction l as [|r l IH]; intros acc; [by case_decide|]. rewrite !fmap_cons, filter_cons. cbn [r_partition_num keyed record_set_partition].
  set (x := g (keyed p key r)).
  assert (forall ws a, key_bytes (key r) <> k -> foldl (reduce_step reduce_func w k) a (w' ← ws; [(key x, x, w')]) = a) as Hother.
  { intros ws a Hk. induction ws as [|w' ws IHw]; [done|]. rewrite bind_cons. cbn [app foldl reduce_step]. rewrite bool_decide_eq_false_2 by (intros [_ H]; apply Hk; rewrite <- H; unfold x; by rewrite Hgk). exact IHw. }
  assert (forall rest, merge_ops ((key x, x) :: rest) = (w' ← location_windows x; [(key x, x, w')]) ++ merge_ops rest) as Hops by done.
  destruct (decide (partition_of p (key_bytes (key r)) = i)) as [Hi|Hi].
  - rewrite !fmap_cons, !Hops, !foldl_app, IH. case_decide as Hki; [done|]. apply Hother. intros <-. done.
  - rewrite IH. case_decide as Hki; [|done]. rewrite Hops, foldl_app, Hother; [done|]. intros <-. done.
Qed.

(** C8: A keyed reduction over the network. A task that partitions records by key writes
    them through its sink, its output opened to the tasks of the reducing job; each of those
    tasks pulls its channel, in enough requests, through the bytes of the wire format, and
    runs source, window assigner and reduction on what it has pulled. For a key selector
    that reads the value bytes, a reduce function that leaves its record alone, timestamps
    the windows can represent and records that fit in a frame: no step fails, and for every
    window and key the task of the key's partition holds the reduction of that key's records
    in that window over all the records, in their order, as one task that read them all
    would, and every other task holds nothing. *)
Theorem parallel_reduction {F G : Type} `{!CheckpointFunction F} `{!CheckpointFunction G} w (src : SourceRunnable F) (kb : KeyByRunnable K) key self sop n t ts chs0 o chs1 rs
    (src' : SourceRunnable G) (wd : WindowAssignerRunnable) rest app op batch size k :
  selects (stream_key_by K kb) key -> keeps_record reduce_func -> 0 < kb_partition_size K kb <= 2 ^ 16 -> num_tasks t = kb_partition_size K kb ->
  output_open output_new self (over_network (t :: ts)) chs0 = Ok (o, chs1) ->
  sliding_wf (stream_window wd) -> Forall (fun r => timestamp_wf (r_timestamp r) /\ deliverable (Element_Record r)) rs ->
  in_u 16 batch -> 0 <= size < U16_MAX -> (length rs <= k * Z.to_nat size)%nat ->
  exists chs2 effs, run_task w (key_by_chain src kb (output_sink sop self n o chs1)) (Element_Record <$> rs) = Ok (w, key_by_chain src kb (output_sink sop self n o chs2), effs) /\
  forall u, u ∈ t :: ts -> ChannelKey_wf (mkChannelKey self u) ->
    exists st' rd s, pull_rounds k (mkChannelKey self u) size (mkPull (ch_network chs2) batch []) = (st', Ok tt) /\
      run_task w (reduce_chain src' wd (reduce_start app u op (stream_key_by K kb)) rest) (ps_input st') = Ok (w, reduce_chain src' wd rd rest, []) /\
      wr_state (stream_reduce K rd) = Some s /\
      forall win k, lookup_value s win k =
        if decide (partition_of (kb_partition_size K kb) k = task_number u)
        then reduced_value reduce_func ((fun r => (key r, r)) <$> (arrives (mkChannelKey self u) (stream_window wd) <$> (keyed (kb_partition_size K kb) key <$> rs))) win k else None.
Proof.
  intros Hsel Hkeep Hp Hn Hopen Hsw Hrs Hb Hsize Hk. apply Forall_and in Hrs as [Hts Hd].
  destruct (key_by_task_routes w src kb key sop self n t ts chs0 o chs1 rs Hsel Hp Hn Hopen) as (chs2 & Hrun & Hchs). exists chs2. eexists. split; [done|]. intros u Hu Hck.
  set (p := kb_partition_size K kb) in *. set (mine := filter (fun r => r_partition_num r = task_number u) (keyed p key <$> rs)) in *.
  assert (Forall (fun r => timestamp_wf (r_timestamp r) /\ deliverable (Element_Record r)) mine) as [Hts' Hd']%Forall_and.
  { apply Forall_forall. intros r' [_ (r & -> & Hr)%list_elem_of_fmap]%list_elem_of_filter. rewrite Forall_forall in Hts, Hd.
    split; [exact (Hts r Hr)|]. by apply deliverable_keyed, Hd. }
  destruct (pulled_records k size (mkChannelKey self u) (mkPull (ch_network chs2) batch []) mine) as (st' & Hpull & Hin); [done..|by apply Hchs| |].
  { etrans; [|exact Hk]. unfold mine. etrans; [apply length_filter|]. by rewrite length_fmap. }
  destruct (reduce_task_state w app u op (stream_key_by K kb) key src' wd rest (transported (mkChannelKey self u) <$> mine) Hsel Hkeep Hsw) as (rd & s & Hrd & Hs & Hval); [by apply Forall_fmap|].
  exists st', rd, s. split; [done|]. rewrite Hin. split; [exact Hrd|]. split; [done|]. intros win k'. rewrite Hval.
  rewrite <- (list_fmap_compose (transported (mkChannelKey self u)) _ mine).
  apply (reduced_value_partition p key (arrives (mkChannelKey self u) (stream_window wd)) rs win k' (task_number u)).
  - intros r r' He. by apply (proj2 Hsel).
  - intros r. by apply (proj2 Hsel), buf_from_slice.
Qed.
End parallel.

(** ** Examples *)
Section evaluated.
#[local] Existing Instances be_bytes_api list_buffer be_frame_read id_order bits_json.

(** The key is the first byte, its hash is the byte itself; two tasks; the reduction adds. *)
Definition ex_key_of (r : record) : record := mkRecord 0 0 ChannelKey_default None None (take 1 (r_values r) : list Z).

#[local] Instance ex_selector : KeySelectorFunction unit := {
  get_key := fun _ r => (r, ex_key_of r);
  key_selector_checkpoint := default_checkpoint_function unit
}.

Definition ex_hash (k : list Z) : option Z := head k.
Definition ex_in (k v : Z) : record := mkRecord 0 5 ChannelKey_default None None ([k; v] : list Z).
Definition ex_parallel_records : list record := [ex_in 7 1; ex_in 4 2; ex_in 7 3; ex_in 6 4].
Definition ex_key_by : KeyByRunnable unit := mkKeyByRunnable unit 1 None tt 2.
Definition ex_tasks : list TaskId := [mkTaskId 5 1 2; mkTaskId 5 0 2].

Definition ex_sum (acc : option record) (r : record) : record * record :=
  let v := match r_values r : list Z with [_; v] => v | _ => 0 end in
  let a := match acc with Some x => match r_values x : list Z with [a] => a | _ => 0 end | None => 0 end in
  (mkRecord 0 0 ChannelKey_default None None ([a + v] : list Z), r).

#[local] Instance ex_function : CheckpointFunction unit := default_checkpoint_function unit.

Definition ex_source (t : TaskId) : SourceRunnable unit :=
  mkSourceRunnable unit 0 (Some t) t tt 1 0 (AlignManager_new 1) (AlignManager_new 1) ∅.
Definition ex_assigner : WindowAssignerRunnable := mkWindowAssigner 3 None (mkSliding 10 10 0).

Lemma parallel_reduction_witness : exists o chs1 chs2 effs st' rd s,
  output_open output_new ex_self (over_network ex_tasks) ex_channels = Ok (o, chs1) /\
  run_task (mkWorld ∅ 0) (key_by_chain ex_hash (ex_source ex_self) ex_key_by (output_sink 2 ex_self 2 o chs1)) (Element_Record <$> ex_parallel_records) =
    Ok (mkWorld ∅ 0, key_by_chain ex_hash (ex_source ex_self) ex_key_by (output_sink 2 ex_self 2 o chs2), effs) /\
  pull_rounds 2 (mkChannelKey ex_self (mkTaskId 5 1 2)) 3 (mkPull (ch_network chs2) 0 []) = (st', Ok tt) /\
  run_task (mkWorld ∅ 0) (reduce_chain ex_sum (ex_source (mkTaskId 5 1 2)) ex_assigner (reduce_start "app" (mkTaskId 5 1 2) 4 tt) []) (ps_input st') =
    Ok (mkWorld ∅ 0, reduce_chain ex_sum (ex_source (mkTaskId 5 1 2)) ex_assigner rd [], []) /\
  wr_state (stream_reduce unit rd) = Some s /\ (fun r => as_slice (r_values r)) <$> lookup_value s (tw 0 10) [7] = Some [4] /\ lookup_value s (tw 0 10) [4] = None.
Proof.
  destruct (output_open output_new ex_self (over_network ex_tasks) ex_channels) as [[o chs1]| |] eqn:Eo; [|vm_compute in Eo; discriminate Eo..].
  destruct (parallel_reduction ex_hash ex_sum (mkWorld ∅ 0) (ex_source ex_self) ex_key_by ex_key_of ex_self 2 2 (mkTaskId 5 1 2) [mkTaskId 5 0 2]
    ex_channels o chs1 ex_parallel_records (ex_source (mkTaskId 5 1 2)) ex_assigner [] "app" 4 0 3 2) as (chs2 & effs & Hrun & Hu).
  - split; [done|]. intros r r' H. unfold ex_key_of. cbn in H. by rewrite H.
  - done.
  - done.
  - done.
  - exact Eo.
  - unfold sliding_wf. cbn. lia.
  - repeat (apply Forall_cons; split); try apply Forall_nil_2; (split; [unfold timestamp_wf; cbn; lia|]); unfold deliverable, Element_wf, record_wf, in_u, MAX_FRAME; cbn; lia.
  - unfold in_u. lia.
  - unfold U16_MAX. lia.
  - cbn. lia.
  - destruct (Hu (mkTaskId 5 1 2)) as (st' & rd & s & Hp & Hrd & Hs & Hv); [by left|unfold ChannelKey_wf, TaskId_wf, in_u; cbn; lia|].
    exists o, chs1, chs2, effs, st', rd, s. split; [done|]. split; [exact Hrun|]. split; [done|]. split; [exact Hrd|]. split; [done|].
    rewrite !Hv. split; vm_compute; reflexivity.
Defined.
End evaluated.
