(* ===== verification/Kubernetes.v ===== *)
(** * Kubernetes: the command line and the resource manager

    src/rlink-deployment/rlink-kubernetes (the command line, which starts the coordinator as a
    deployment) and the functions of src/rlink/src/deployment/kubernetes.rs that talk to the
    API server (a pod for a worker, the loop over the workers, the deletion of pods).

    With the feature k8s, kubernetes.rs does not compile: [worker_allocate] reads the address
    of the coordinator from a field the descriptor does not have, and a type is imported from
    a module without it. So the method as a whole is not modelled, and nothing is said of a
    coordinator that starts workers here; its loop takes the address as an argument, as the
    function it calls does.

    The API server is the class [KubeApi], with its documented behaviour as [KubeApiOk]: an
    object that is created is kept under its name with a new uid, and a name that is in use
    is answered with code 409. The theorems follow the arguments from the command line into
    the context of the coordinator, and say which names and numbers do not get there. *)
From Stdlib Require Import ZArith Lia Ascii.
From stdpp Require Import base strings pretty numbers option sets gmap list.
From S2P Require Import Prelude Properties Runtime KafkaOffsets PhysicGraph NodeArgs Standalone Deployment.

#[local] Open Scope Z_scope.

(** ** Objects of the API *)

(** The answers of the API server that are not a success. *)
Inductive KubeError : Type := KubeError_Api (code : Z) | KubeError_Other (msg : string).

Record ContainerLimits := mkContainerLimits { cl_cpu : Z; cl_memory : string }.

Record OwnerReference := mkOwnerReference { or_kind : string; or_api_version : string; or_name : string; or_uid : string; or_controller : bool; or_block_deletion : bool }.

Record Container := mkContainer { co_name : string; co_image : string; co_limits : ContainerLimits; co_args : list string }.

Record Pod := mkPod { pod_name : string; pod_labels : list (string * string); pod_owners : list OwnerReference; pod_containers : list Container; pod_restart_policy : string }.

Record DeploymentSpec := mkDeploymentSpec {
  dp_name : string;
  dp_namespace : string;
  dp_labels : list (string * string);
  dp_match_labels : list (string * string);
  dp_template_labels : list (string * string);
  dp_containers : list Container
}.

(** The client of the API: the uid of an object may be missing from an answer. *)
Class KubeApi (S : Type) := {
  client_try_default : S -> res string unit;
  create_pod : string -> Pod -> S -> S * (KubeError + option string);
  (** the field selectors, in the order they are given *)
  delete_collection : string -> list string -> S -> S * (KubeError + unit);
  get_deployment : string -> string -> S -> KubeError + option string;
  create_deployment : string -> DeploymentSpec -> S -> S * (KubeError + unit)
}.

(** What the server promises of pods: those it keeps, with their namespace and uid. *)
Class KubeApiOk (S : Type) `{!KubeApi S} := {
  kube_pods : S -> list (string * Pod * string);
  create_pod_created ns p s s' u : create_pod ns p s = (s', inr u) ->
    exists uid, u = Some uid /\ kube_pods s' = kube_pods s ++ [(ns, p, uid)] /\ uid <> "" /\ uid ∉ (kube_pods s).*2;
  create_pod_refused ns p s s' e : create_pod ns p s = (s', inl e) -> kube_pods s' = kube_pods s;
  create_pod_conflict ns p s s' : create_pod ns p s = (s', inl (KubeError_Api 409)) <-> s' = s /\ exists q uid, (ns, q, uid) ∈ kube_pods s /\ pod_name q = pod_name p
}.

Definition rlink_labels : list (string * string) := [("app", "rlink"); ("commpent", "jobmanager"); ("type", "rlinl-on-k8s")].

(** ** The command line: k8s_config.rs *)
Record Config := mkConfig {
  cfg_cluster_name : string;
  cfg_namespace : string;
  cfg_image_path : string;
  cfg_job_v_cores : Z;
  cfg_job_memory_mb : Z;
  cfg_num_task_managers : Z;
  cfg_task_v_cores : Z;
  cfg_task_memory_mb : Z
}.

Definition CHARSET : string := "ABCDEFGHIJKLMNOPQRSTUVWXYZabcdefghijklmnopqrstuvwxyz".

Definition SUFFIX_LEN : nat := 8.

(** [rand_suffix]: [rng] are the random numbers below the length of the charset. *)
Definition rand_suffix {E} (rng : nat -> nat) : res E string :=
  foldM (fun suffix i => let* c := unwrap "index out of bounds" (String.get (rng i) CHARSET) in Ok (suffix +:+ String c "")) "" (seq 0 SUFFIX_LEN).

(** A number of the command line: it keeps its default when it is not there. *)
Definition usize_arg {E} (args : list string) (name : string) (default : Z) : res E Z :=
  match parse_arg args name with
  | Ok o => match int_from_str t_u64 o with Ok n => Ok n | _ => Panic (name +:+ " must a usize num") end
  | _ => Ok default
  end.

Definition try_default {E} (args : list string) (rng : nat -> nat) : res E Config :=
  let* cluster_name := match parse_arg args "cluster_name" with Ok o => Ok o | _ => let* suffix := rand_suffix rng in Ok ("rlink-" +:+ suffix) end in
  let* image_path := match parse_arg args "image_path" with Ok o => Ok o | _ => Panic "argument `image_path` is missing" end in
  let* job_v_cores := usize_arg args "job_v_cores" 1 in
  let* job_memory_mb := usize_arg args "job_memory_mb" 100 in
  let* task_v_cores := usize_arg args "task_v_cores" 1 in
  let* task_memory_mb := usize_arg args "task_memory_mb" 100 in
  let* num_task_managers := usize_arg args "num_task_managers" 1 in
  Ok (mkConfig cluster_name "default" image_path job_v_cores job_memory_mb num_task_managers task_v_cores task_memory_mb).

(** ** The deployment of the coordinator: job_manager.rs *)
Definition coordinator_args (cfg : Config) : list string :=
  ["image_path=" +:+ cfg_image_path cfg; "application_id=" +:+ cfg_cluster_name cfg; "cluster_mode=kubernetes"; "manager_type=Coordinator";
   "num_task_managers=" +:+ pretty (cfg_num_task_managers cfg); "v_cores=" +:+ pretty (cfg_task_v_cores cfg); "memory_mb=" +:+ pretty (cfg_task_memory_mb cfg)].

Definition coordinator_deployment (cfg : Config) : DeploymentSpec :=
  mkDeploymentSpec (cfg_cluster_name cfg) (cfg_namespace cfg) rlink_labels [("app", "rlink")] rlink_labels
    [mkContainer "jobmanager" (cfg_image_path cfg) (mkContainerLimits (cfg_job_v_cores cfg) (pretty (cfg_job_memory_mb cfg) +:+ "Mi")) (coordinator_args cfg)].

(** [parse_name]d names of pods and what a pod is asked to be. *)
Definition worker_name (application_id task_manager_id : string) : string := application_id +:+ "-" +:+ parse_name task_manager_id.

Definition worker_pod (coordinator_address task_manager_id task_manager_name cluster_name job_deploy_id image_path : string) (limits : ContainerLimits) : Pod :=
  mkPod task_manager_name rlink_labels [mkOwnerReference "Deployment" "apps/v1" cluster_name job_deploy_id true true]
    [mkContainer task_manager_name image_path limits (kubernetes_args coordinator_address task_manager_id cluster_name)] "OnFailure".

Section api.
Context {S : Type} {KA : KubeApi S}.

(** [job_manager::run]; [env_namespace] is the variable NAMESPACE. *)
Definition run (cfg : Config) (env_namespace : option string) (s : S) : S * res string unit :=
  match client_try_default s with
  | Ok _ =>
      let namespace := default (cfg_namespace cfg) env_namespace in
      let '(s, r) := create_deployment namespace (coordinator_deployment cfg) s in
      (s, match r with
          | inr _ => Ok tt
          | inl (KubeError_Api code) => if code =? 409 then Ok tt else Panic "assertion failed: `(left == right)`"
          | inl (KubeError_Other e) => Err e
          end)
  | Err e => (s, Err e)
  | Panic p => (s, Panic p)
  end.

(** ** The resource manager: kubernetes.rs *)
Definition allocate_worker (coordinator_address task_manager_id task_manager_name cluster_name namespace job_deploy_id image_path : string) (limits : ContainerLimits) (s : S) : S * res string string :=
  match client_try_default s with
  | Ok _ =>
      let '(s, r) := create_pod namespace (worker_pod coordinator_address task_manager_id task_manager_name cluster_name job_deploy_id image_path limits) s in
      (s, match r with
          | inr uid => unwrap "kind has metadata.uid" uid
          | inl (KubeError_Api code) => if code =? 409 then Ok "" else Panic "assertion failed: `(left == right)`"
          | inl (KubeError_Other e) => Err e
          end)
  | Err e => (s, Err e)
  | Panic p => (s, Panic p)
  end.

(** [get_job_deploy_id]: a deployment that is not found has the empty uid. *)
Definition get_job_deploy_id (namespace cluster_name : string) (s : S) : res string string :=
  let* _ := client_try_default s in
  Ok match get_deployment namespace cluster_name s with inr (Some id) => id | _ => "" end.

Definition worker_info (pod_uid task_manager_id task_manager_name : string) : TaskResourceInfo :=
  let task_info := TaskResourceInfo_new pod_uid "" task_manager_id in
  mkTaskResourceInfo (tri_task_manager_id task_info) (<["task_manager_name" := task_manager_name]> (resource_info task_info)).

(** The loop of [worker_allocate]: a worker that could not be allocated is only logged. *)
Fixpoint allocate_workers (coordinator_address application_id namespace job_deploy_id image_path : string) (limits : ContainerLimits)
    (workers : list WorkerManagerDescriptor) (task_infos : list TaskResourceInfo) (s : S) : S * res string (list TaskResourceInfo) :=
  match workers with
  | [] => (s, Ok task_infos)
  | w :: workers =>
      let task_manager_id := wm_task_manager_id w in
      let task_manager_name := worker_name application_id task_manager_id in
      match allocate_worker coordinator_address task_manager_id task_manager_name application_id namespace job_deploy_id image_path limits s with
      | (s, Ok o) => allocate_workers coordinator_address application_id namespace job_deploy_id image_path limits workers (task_infos ++ [worker_info o task_manager_id task_manager_name]) s
      | (s, Err _) => allocate_workers coordinator_address application_id namespace job_deploy_id image_path limits workers task_infos s
      | (s, Panic p) => (s, Panic p)
      end
  end.

(** [stop_worker]: a failure of the deletion is only logged. *)
Definition stop_worker (namespace : string) (task_ids : list string) (s : S) : S * res string unit :=
  match client_try_default s with
  | Ok _ => let '(s, _) := delete_collection namespace task_ids s in (s, Ok tt)
  | Err e => (s, Err e)
  | Panic p => (s, Panic p)
  end.

(** The selectors of a task; [resource_info] is indexed. *)
Definition task_selectors (task : TaskResourceInfo) : res string (list string) :=
  let uid := match tri_task_id task with Some task_id => ["uid=" +:+ task_id] | None => [] end in
  let* name := unwrap "no entry found for key" (resource_info task !! "task_manager_name") in
  Ok (uid ++ ["name=" +:+ name]).

Definition kube_stop_workers (task_ids : list TaskResourceInfo) (s : S) : S * res string unit :=
  match foldM (fun tasks task => let* sel := task_selectors task in Ok (tasks ++ sel)) [] task_ids with
  | Ok tasks => stop_worker "default" tasks s
  | Err e => (s, Err e)
  | Panic p => (s, Panic p)
  end.
End api.

(** ** Names *)

(** A character of a name the server accepts: a small letter, a digit or a dash. *)
Definition dns_char (a : ascii) : bool :=
  let n := N_of_ascii a in ((97 <=? n) && (n <=? 122) || (48 <=? n) && (n <=? 57) || (n =? 45))%N.

(** The characters of the charset: the first half are capitals. *)
Lemma charset_char i : (i < 52)%nat -> exists a, String.get i CHARSET = Some a /\ dns_char a = (26 <=? i)%nat.
Proof.
  intros Hi. assert (forallb (fun i => match String.get i CHARSET with Some a => Bool.eqb (dns_char a) (26 <=? i)%nat | None => false end) (seq 0 52) = true) as H by (vm_compute; reflexivity).
  rewrite forallb_forall in H. specialize (H i). rewrite in_seq in H. specialize (H ltac:(lia)). destruct (String.get i CHARSET) as [a|]; [|done]. exists a. split; [done|]. by apply Bool.eqb_prop.
Qed.

Lemma length_snoc s a : String.length (s +:+ String a "") = S (String.length s).
Proof. induction s as [|b s IH]; [done|]. change (S (String.length (s +:+ String a "")) = S (S (String.length s))). by rewrite IH. Qed.

(** The random name of an application is made, but it is one the server accepts only when
    none of its eight letters is a capital. *)
Theorem default_name_valid {E} rng : (forall i, (rng i < 52)%nat) ->
  exists suffix, rand_suffix (E := E) rng = Ok suffix /\ String.length suffix = 8%nat /\ (all_chars dns_char ("rlink-" +:+ suffix) = true <-> forall i, (i < 8)%nat -> (26 <= rng i)%nat).
Proof.
  intros Hr. unfold rand_suffix, SUFFIX_LEN.
  assert (forall n acc, exists suffix, foldM (E := E) (fun suffix i => let* c := unwrap "index out of bounds" (String.get (rng i) CHARSET) in Ok (suffix +:+ String c "")) acc (seq 0 n) = Ok (acc +:+ suffix) /\
    String.length suffix = n /\ (all_chars dns_char suffix = true <-> forall i, (i < n)%nat -> (26 <= rng i)%nat)) as H.
  { intros n acc. induction n as [|n (suffix & H1 & H2 & H3)].
    - exists "". rewrite append_nil_r. split_and!; [done..|]. split; [lia|done].
    - destruct (charset_char (rng n) (Hr n)) as (a & Ha & Hd). exists (suffix +:+ String a ""). rewrite seq_S, foldM_app, H1. cbn [mbind res_bind foldM Nat.add]. rewrite Ha. cbn [unwrap mbind res_bind].
      rewrite string_app_assoc. split; [done|]. rewrite length_snoc, H2. split; [done|]. rewrite all_chars_app. cbn [all_chars]. rewrite Hd, andb_true_r, andb_true_iff, H3, Nat.leb_le. split.
      + intros [Hs Hn] i Hi. destruct (decide (i = n)) as [->|]; [done|]. apply Hs. lia.
      + intros Hs. split; [intros i Hi|]; apply Hs; lia. }
  destruct (H 8%nat "") as (suffix & H1 & H2 & H3). exists suffix. split; [exact H1|]. split; [done|]. rewrite all_chars_app. exact H3.
Qed.

Lemma parse_name_app s t : parse_name (s +:+ t) = parse_name s +:+ parse_name t.
Proof. induction s as [|a s IH]; [done|]. change (parse_name (String a (s +:+ t)) = String (if decide (a = "_"%char) then "-"%char else a) (parse_name s +:+ parse_name t)). cbn [parse_name]. by rewrite IH. Qed.

Lemma parse_name_same s : all_chars (fun a => negb (bool_decide (a = "_"%char))) s = true -> parse_name s = s.
Proof. induction s as [|a s IH]; [done|]. cbn [all_chars parse_name]. rewrite andb_true_iff, negb_true_iff, bool_decide_eq_false. intros [Ha Hs]. rewrite decide_False by done. by rewrite IH. Qed.

Lemma string_app_inj s t t' : s +:+ t = s +:+ t' -> t = t'.
Proof. induction s as [|a s IH]; [done|]. intros [= H]. by apply IH. Qed.

Lemma pretty_nat_Z (k : nat) : pretty k = pretty (Z.of_nat k).
Proof. by destruct k. Qed.

(** The ids the physical graph gives its workers stay distinct as names of pods. *)
Lemma worker_id_name aid k : worker_name aid (worker_id k) = aid +:+ "-worker-manager-" +:+ pretty k.
Proof.
  unfold worker_name, worker_id. rewrite parse_name_app. rewrite (parse_name_same (pretty k)); [done|].
  rewrite pretty_nat_Z. apply pretty_chars. intros a. destruct (decide (a = "_"%char)) as [->|Ha]; [done|]. by rewrite bool_decide_eq_false_2.
Qed.

Lemma worker_names_distinct aid n : NoDup (worker_name aid <$> (worker_id <$> seq 0 n)).
Proof.
  rewrite <- list_fmap_compose. apply NoDup_fmap_2; [|apply NoDup_seq]. intros i j H. cbn in H. rewrite !worker_id_name in H. apply string_app_inj, string_app_inj in H. by apply (inj pretty) in H.
Qed.

(** ** From the command line to the coordinator *)
Section coordinator.
Context {NE : NodeEnv} (cfg : Config) (exe ip : string) (port : Z).
Context (Hplain : plain exe = true /\ plain (cfg_cluster_name cfg) = true /\ plain (cfg_image_path cfg) = true).
Context (Hargs : env_args = exe :: coordinator_args cfg) (Hip : get_service_ip = Ok ip) (Hport : init_metrics ip = Some port) (Hlog : forall path, init_log path = Ok tt).

Definition u32_numbers : Prop := 1 <= cfg_num_task_managers cfg < 2 ^ 32 /\ 0 <= cfg_task_v_cores cfg < 2 ^ 32 /\ 0 <= cfg_task_memory_mb cfg < 2 ^ 32.

Abbreviation coordinator_kvs := [("image_path", cfg_image_path cfg); ("application_id", cfg_cluster_name cfg); ("cluster_mode", "kubernetes"); ("manager_type", "Coordinator");
  ("num_task_managers", pretty (cfg_num_task_managers cfg)); ("v_cores", pretty (cfg_task_v_cores cfg)); ("memory_mb", pretty (cfg_task_memory_mb cfg))].

Lemma coordinator_arg key v : assoc key coordinator_kvs = Some v -> parse_arg env_args key = Ok v.
Proof.
  intros Hk. rewrite Hargs. destruct Hplain as (He & Hn & Hi). apply (plain_args exe coordinator_kvs key v He); [|done]. repeat (constructor; [split; cbn [fst snd]; done || apply pretty_plain|]). constructor.
Qed.

Lemma u32_written name ty v : parse_arg env_args name = Ok (pretty v) -> match u32_arg name ty with Ok n => n = v /\ 0 <= v < 2 ^ 32 | Err _ => ~ 0 <= v < 2 ^ 32 | Panic _ => False end.
Proof.
  intros Ha. unfold u32_arg. rewrite Ha. cbn [mbind res_bind]. pose proof (int_read t_u32 v) as H. unfold in_type in H. cbn [it_signed it_bits t_u32] in H.
  destruct (int_from_str t_u32 (pretty v)); [|rewrite andb_false_iff, Z.leb_gt, Z.ltb_ge in H; lia|done]. destruct H as [-> H]. rewrite andb_true_iff, Z.leb_le, Z.ltb_lt in H. done.
Qed.

(** The coordinator starts exactly when its numbers fit what it reads them as: the command
    line takes [usize], the coordinator [u32], and at least one task manager. It then has
    the numbers, the image and the name of the command line. *)
Theorem kubernetes_coordinator_starts : (is_ok parse_node_arg = true <-> u32_numbers) /\
  forall nc id, parse_node_arg = Ok (nc, id) ->
    nc_cluster_mode nc = Kubernetes /\ nc_manager_type nc = NodeArgs.Coordinator /\ nc_application_id nc = cfg_cluster_name cfg /\ nc_image_path nc = cfg_image_path cfg /\
    nc_num_task_managers nc = cfg_num_task_managers cfg /\ nc_v_cores nc = cfg_task_v_cores cfg /\ nc_memory_mb nc = cfg_task_memory_mb cfg.
Proof.
  unfold parse_node_arg, metrics_serve. rewrite Hip, (coordinator_arg "cluster_mode" "kubernetes" eq_refl), (coordinator_arg "manager_type" "Coordinator" eq_refl). cbn [mbind res_bind].
  change (ClusterMode_try_from "kubernetes") with (Ok (E := string) Kubernetes). change (ManagerType_try_from "Coordinator") with (Ok (E := string) NodeArgs.Coordinator). cbn [mbind res_bind].
  rewrite (coordinator_arg "application_id" (cfg_cluster_name cfg) eq_refl), Hport, Hlog, (coordinator_arg "image_path" (cfg_image_path cfg) eq_refl).
  unfold num_task_managers_arg, resource_args, u32_numbers. cbn [mbind res_bind cluster_config_arg unwrap].
  pose proof (u32_written "num_task_managers" "u32" _ (coordinator_arg "num_task_managers" _ eq_refl)) as H1. pose proof (u32_written "memory_mb" "usize" _ (coordinator_arg "memory_mb" _ eq_refl)) as H2.
  pose proof (u32_written "v_cores" "usize" _ (coordinator_arg "v_cores" _ eq_refl)) as H3.
  destruct (u32_arg "num_task_managers" "u32") as [n1| |]; [|cbn; split; [split; [done|lia]|done]|done]. destruct H1 as [-> H1]. cbn [mbind res_bind].
  destruct (Z.ltb_spec (cfg_num_task_managers cfg) 1); [cbn; split; [split; [done|lia]|done]|]. cbn [mbind res_bind].
  destruct (u32_arg "memory_mb" "usize") as [n2| |]; [|cbn; split; [split; [done|lia]|done]|done]. destruct H2 as [-> H2]. cbn [mbind res_bind].
  destruct (u32_arg "v_cores" "usize") as [n3| |]; [|cbn; split; [split; [done|lia]|done]|done]. destruct H3 as [-> H3]. cbn [mbind res_bind]. split.
  - split; [intros _; lia|done].
  - intros nc id [= <- <-]. done.
Qed.
End coordinator.

(** What a number of the configuration is. *)
Definition number_of (args : list string) (name : string) (default n : Z) : Prop :=
  match parse_arg args name with Ok o => int_from_str t_u64 o = Ok n | _ => n = default end.

Lemma int_range t s v : in_type t 0 = true -> int_from_str t s = Ok v -> in_type t v = true.
Proof.
  intros H0. assert (forall neg s, parse_digits t neg 0 s = Ok v -> in_type t v = true) as H.
  { intros neg src Hp. destruct (parse_digits_range t neg src 0 v Hp) as [->|]; [|done]. cbn in Hp. by injection Hp as <-. }
  destruct s as [|a s]; [done|]. unfold int_from_str. destruct a as [[] [] [] [] [] [] [] []]; try apply H; destruct s; try done; try apply H; destruct (it_signed t); apply H.
Qed.

Lemma usize_arg_ok {E} args name default n : usize_arg (E := E) args name default = Ok n -> number_of args name default n /\ (0 <= default < 2 ^ 64 -> 0 <= n < 2 ^ 64).
Proof.
  unfold usize_arg, number_of. destruct (parse_arg args name) as [o| |]; [|by intros [= ->]..]. destruct (int_from_str t_u64 o) as [m| |] eqn:Em; [|done..]. intros [= <-]. split; [done|].
  intros _. pose proof (int_range t_u64 o m eq_refl Em) as H. unfold in_type in H. cbn [it_signed it_bits t_u64] in H. rewrite andb_true_iff, Z.leb_le, Z.ltb_lt in H. exact H.
Qed.

Lemma try_default_ok args rng cfg : try_default (E := string) args rng = Ok cfg ->
  parse_arg args "image_path" = Ok (cfg_image_path cfg) /\ (forall name, parse_arg args "cluster_name" = Ok name -> cfg_cluster_name cfg = name) /\
  number_of args "num_task_managers" 1 (cfg_num_task_managers cfg) /\ number_of args "task_v_cores" 1 (cfg_task_v_cores cfg) /\ number_of args "task_memory_mb" 100 (cfg_task_memory_mb cfg) /\
  0 <= cfg_num_task_managers cfg /\ 0 <= cfg_task_v_cores cfg /\ 0 <= cfg_task_memory_mb cfg.
Proof.
  unfold try_default. intros H.
  destruct (match parse_arg args "cluster_name" with Ok o => Ok o | _ => _ end) as [name| |] eqn:En; [|done..]. revert H; run_bind.
  destruct (parse_arg args "image_path") as [image| |] eqn:Ei; [|done..]. run_bind.
  destruct (usize_arg args "job_v_cores" 1) as [n1| |]; [|done..]. run_bind. destruct (usize_arg args "job_memory_mb" 100) as [n2| |]; [|done..]. run_bind.
  destruct (usize_arg args "task_v_cores" 1) as [n3| |] eqn:E3; [|done..]. run_bind. destruct (usize_arg args "task_memory_mb" 100) as [n4| |] eqn:E4; [|done..]. run_bind.
  destruct (usize_arg args "num_task_managers" 1) as [n5| |] eqn:E5; [|done..]. run_bind. intros [= <-]. cbn.
  apply usize_arg_ok in E3 as [H3 R3], E4 as [H4 R4], E5 as [H5 R5]. specialize (R3 ltac:(lia)). specialize (R4 ltac:(lia)). specialize (R5 ltac:(lia)).
  split_and!; try done; try lia. intros name' Hn. rewrite Hn in En. by injection En.
Qed.

(** C30: From the command line to the coordinator on Kubernetes: the deployment that is made of
    a command line has the application's name and one container with the image that was
    given; and when the process in it reads its arguments (its address is known, its log and
    metrics start), it gets to a context exactly when there is at least one task manager and
    the numbers fit [u32], which is narrower than what the command line takes, and it is
    then the coordinator of that application, with the image, the number of task managers
    and the resources of a task the command line gave or the defaults (1, 1 core and 100
    MB). The program's name, the image and the application's name have no blank and no
    equals sign. *)
Theorem kubernetes_command_line args rng cfg : try_default (E := string) args rng = Ok cfg -> plain (cfg_cluster_name cfg) = true -> plain (cfg_image_path cfg) = true ->
  parse_arg args "image_path" = Ok (cfg_image_path cfg) /\ (forall name, parse_arg args "cluster_name" = Ok name -> cfg_cluster_name cfg = name) /\
  number_of args "num_task_managers" 1 (cfg_num_task_managers cfg) /\ number_of args "task_v_cores" 1 (cfg_task_v_cores cfg) /\ number_of args "task_memory_mb" 100 (cfg_task_memory_mb cfg) /\
  dp_name (coordinator_deployment cfg) = cfg_cluster_name cfg /\
  exists c, dp_containers (coordinator_deployment cfg) = [c] /\ co_image c = cfg_image_path cfg /\
    forall (NE : NodeEnv) exe ip port, plain exe = true -> env_args = exe :: co_args c -> get_service_ip = Ok ip -> init_metrics ip = Some port -> (forall path, init_log path = Ok tt) ->
      (is_ok parse_node_arg = true <-> 1 <= cfg_num_task_managers cfg < 2 ^ 32 /\ cfg_task_v_cores cfg < 2 ^ 32 /\ cfg_task_memory_mb cfg < 2 ^ 32) /\
      forall nc id, parse_node_arg = Ok (nc, id) ->
        nc_cluster_mode nc = Kubernetes /\ nc_manager_type nc = NodeArgs.Coordinator /\ nc_application_id nc = cfg_cluster_name cfg /\ nc_image_path nc = cfg_image_path cfg /\
        nc_num_task_managers nc = cfg_num_task_managers cfg /\ nc_v_cores nc = cfg_task_v_cores cfg /\ nc_memory_mb nc = cfg_task_memory_mb cfg.
Proof.
  intros Hcfg Hname Himage. destruct (try_default_ok _ _ _ Hcfg) as (H1 & H2 & H3 & H4 & H5 & R3 & R4 & R5). split_and!; try done.
  eexists. split; [reflexivity|]. split; [done|]. intros NE exe ip port He Hargs Hip Hport Hlog.
  destruct (kubernetes_coordinator_starts cfg exe ip port (conj He (conj Hname Himage)) Hargs Hip Hport Hlog) as [Hok Hctx]. split; [|done].
  rewrite Hok. unfold u32_numbers. lia.
Qed.

(** ** The pods of the workers *)
Section workers.
Context {S : Type} {KA : KubeApi S} {KO : KubeApiOk S}.

(** A name that a pod of the namespace has. *)
Definition taken (ns name : string) (s : S) : Prop := exists q uid, (ns, q, uid) ∈ kube_pods s /\ pod_name q = name.

(** The client is configured and the server takes every pod whose name is not in use. *)
Context (Hclient : forall s, client_try_default s = Ok tt).
Context (Haccept : forall ns p s, ~ taken ns (pod_name p) s -> exists s' u, create_pod ns p s = (s', inr u)).

Section loop.
Context (address aid deploy image : string) (limits : ContainerLimits).

Abbreviation name_of w := (worker_name aid (wm_task_manager_id w)).
Abbreviation pod_of w := (worker_pod address (wm_task_manager_id w) (name_of w) aid deploy image limits).

(** Every worker gets a pod of its own. *)
Lemma allocate_workers_accepted workers : forall infos s, NoDup ((fun w => name_of w) <$> workers) -> Forall (fun w => ~ taken "default" (name_of w) s) workers ->
  exists s' uids, allocate_workers address aid "default" deploy image limits workers infos s = (s', Ok (infos ++ zip_with (fun w uid => worker_info uid (wm_task_manager_id w) (name_of w)) workers uids)) /\
    kube_pods s' = kube_pods s ++ zip_with (fun w uid => ("default", pod_of w, uid)) workers uids /\
    length uids = length workers /\ Forall (fun uid => uid <> "" /\ uid ∉ (kube_pods s).*2) uids /\ NoDup uids.
Proof.
  induction workers as [|w workers IH]; intros infos s Hd Hu.
  - exists s, []. rewrite !app_nil_r. split_and!; [done..|constructor].
  - rewrite fmap_cons, NoDup_cons in Hd. destruct Hd as [Hw Hd]. apply Forall_cons in Hu as [Huw Hu].
    destruct (Haccept "default" (pod_of w) s Huw) as (s1 & u & Hc). destruct (create_pod_created _ _ _ _ _ Hc) as (uid & -> & Hpods & Hne & Hfresh).
    destruct (IH (infos ++ [worker_info uid (wm_task_manager_id w) (name_of w)]) s1 Hd) as (s' & uids & Hrun & Hpods' & Hlen & Hf & Hnd).
    { apply Forall_forall. intros w' Hw'. rewrite Forall_forall in Hu. intros (q & uid' & Hq & Hn). rewrite Hpods, elem_of_app, list_elem_of_singleton in Hq. destruct Hq as [Hq|[= -> ->]]; [apply (Hu w' Hw'); by exists q, uid'|].
      cbn in Hn. apply Hw. apply list_elem_of_fmap. by exists w'. }
    exists s', (uid :: uids). cbn [allocate_workers]. unfold allocate_worker at 1. rewrite Hclient, Hc. cbn [unwrap]. rewrite Hrun. split; [by rewrite <- app_assoc|].
    split; [by rewrite Hpods', Hpods, <- app_assoc|]. split; [cbn; congruence|]. rewrite Hpods, fmap_app in Hf. split.
    + constructor; [done|]. eapply Forall_impl; [exact Hf|]. intros x [Hx Hx']. split; [done|]. intros Hin. apply Hx'. apply elem_of_app. by left.
    + constructor; [|done]. intros Hin. rewrite Forall_forall in Hf. destruct (Hf _ Hin) as [_ Hx]. apply Hx. apply elem_of_app. right. by left.
Qed.

(** Whatever the server answers: the pods that were there stay, those that are new are
    those of workers; and a worker that is listed has a new pod of its own, with the uid it
    is listed with, or it is listed without uid and its name was in use. *)
Lemma allocate_workers_sound workers : forall infos s s' infos', allocate_workers address aid "default" deploy image limits workers infos s = (s', Ok infos') ->
  exists created listed, kube_pods s' = kube_pods s ++ created /\ infos' = infos ++ listed /\
    Forall (fun c => exists w, w ∈ workers /\ c.1 = ("default", pod_of w)) created /\
    Forall (fun i => exists w uid, w ∈ workers /\ i = worker_info uid (wm_task_manager_id w) (name_of w) /\
      if decide (uid = "") then exists q quid, ("default", q, quid) ∈ kube_pods s' /\ pod_name q = name_of w else ("default", pod_of w, uid) ∈ created) listed.
Proof.
  induction workers as [|w workers IH]; intros infos s s' infos'; cbn [allocate_workers].
  - intros [= <- <-]. exists [], []. by rewrite !app_nil_r.
  - unfold allocate_worker at 1. rewrite Hclient. destruct (create_pod "default" (pod_of w) s) as [s1 r] eqn:Hc.
    assert (forall infos1, allocate_workers address aid "default" deploy image limits workers infos1 s1 = (s', Ok infos') -> kube_pods s1 = kube_pods s -> exists created listed, kube_pods s' = kube_pods s ++ created /\ infos' = infos1 ++ listed /\
      Forall (fun c => exists w', w' ∈ w :: workers /\ c.1 = ("default", pod_of w')) created /\
      Forall (fun i => exists w' uid, w' ∈ w :: workers /\ i = worker_info uid (wm_task_manager_id w') (name_of w') /\
        if decide (uid = "") then exists q quid, ("default", q, quid) ∈ kube_pods s' /\ pod_name q = name_of w' else ("default", pod_of w', uid) ∈ created) listed) as Hsame.
    { intros infos1 Hrun Hs. destruct (IH _ _ _ _ Hrun) as (created & listed & H1 & H2 & H3 & H4). exists created, listed. rewrite <- Hs. split_and!; [done..| |].
      - eapply Forall_impl; [exact H3|]. intros c (w' & Hw' & Hx). exists w'. split; [by right|done].
      - eapply Forall_impl; [exact H4|]. intros i (w' & uid & Hw' & Hx). exists w', uid. split; [by right|done]. }
    destruct r as [[code|e]|u].
    + pose proof (create_pod_refused _ _ _ _ _ Hc) as Hs. destruct (Z.eqb_spec code 409) as [->|]; [|done]. intros Hrun. destruct (Hsame _ Hrun Hs) as (created & listed & H1 & -> & H3 & H4).
      exists created, (worker_info "" (wm_task_manager_id w) (name_of w) :: listed). rewrite <- app_assoc. split_and!; [done..|]. constructor; [|done]. exists w, "". split; [by left|]. split; [done|].
      rewrite decide_True by done. apply create_pod_conflict in Hc as [_ (q & quid & Hq & Hn)]. exists q, quid. rewrite H1, elem_of_app. auto.
    + intros Hrun. apply (Hsame _ Hrun). by eapply create_pod_refused.
    + destruct (create_pod_created _ _ _ _ _ Hc) as (uid & -> & Hpods & Hne & _). cbn [unwrap]. intros Hrun. destruct (IH _ _ _ _ Hrun) as (created & listed & H1 & -> & H3 & H4).
      exists (("default", pod_of w, uid) :: created), (worker_info uid (wm_task_manager_id w) (name_of w) :: listed). rewrite H1, Hpods, <- !app_assoc. split_and!; [done..| |].
      * constructor; [exists w; split; [by left|done]|]. eapply Forall_impl; [exact H3|]. intros c (w' & Hw' & Hx). exists w'. split; [by right|done].
      * constructor; [exists w, uid; split; [by left|]; split; [done|]; rewrite decide_False by done; by left|]. eapply Forall_impl; [exact H4|]. intros i (w' & uid' & Hw' & -> & Hx).
        exists w', uid'. split; [by right|]. split; [done|]. case_decide; [|by right]. by rewrite H1, Hpods, <- app_assoc in Hx.
Qed.
End loop.

(** A second run of the loop while the pods of the first are there creates nothing, and lists
    every worker, without a uid. *)
Lemma allocate_workers_again address aid deploy image limits workers infos s :
  Forall (fun w => taken "default" (worker_name aid (wm_task_manager_id w)) s) workers ->
  allocate_workers address aid "default" deploy image limits workers infos s =
    (s, Ok (infos ++ ((fun w => worker_info "" (wm_task_manager_id w) (worker_name aid (wm_task_manager_id w))) <$> workers))).
Proof.
  intros Htaken. revert infos. induction Htaken as [|w workers Hw Hall IH]; intros infos; [by rewrite app_nil_r|]. cbn [allocate_workers]. unfold allocate_worker at 1. rewrite Hclient.
  rewrite (proj2 (create_pod_conflict _ _ s s)) by (split; [done|exact Hw]). cbn [Z.eqb Pos.eqb]. rewrite IH, <- app_assoc. done.
Qed.
End workers.

(** ** Examples *)

(** A server that keeps its pods and deployments in lists. A uid is longer than all others. *)
Record ExServer := mkExServer { ex_pods : list (string * Pod * string); ex_deployments : list (string * DeploymentSpec) }.

Fixpoint repeat_u (n : nat) : string := match n with O => "" | S n => String "u" (repeat_u n) end.
Definition ex_uid (s : ExServer) : string := repeat_u (S (sum_list (String.length <$> (ex_pods s).*2))).

Definition ex_conflict (ns name : string) (s : ExServer) : bool := existsb (fun c => bool_decide (c.1.1 = ns) && bool_decide (pod_name c.1.2 = name)) (ex_pods s).

#[local] Instance ex_kube : KubeApi ExServer := {|
  client_try_default := fun _ => Ok tt;
  create_pod := fun ns p s => if ex_conflict ns (pod_name p) s then (s, inl (KubeError_Api 409)) else (mkExServer (ex_pods s ++ [(ns, p, ex_uid s)]) (ex_deployments s), inr (Some (ex_uid s)));
  delete_collection := fun _ _ s => (s, inl (KubeError_Api 400));
  get_deployment := fun ns name s => if existsb (fun d => bool_decide (d.1 = ns) && bool_decide (dp_name d.2 = name)) (ex_deployments s) then inr (Some "d-1") else inl (KubeError_Api 404);
  create_deployment := fun ns d s =>
    if negb (all_chars dns_char (dp_name d)) then (s, inl (KubeError_Api 422)) else (mkExServer (ex_pods s) (ex_deployments s ++ [(ns, d)]), inr tt)
|}.

Lemma ex_conflict_spec ns name s : ex_conflict ns name s = true <-> exists q uid, (ns, q, uid) ∈ ex_pods s /\ pod_name q = name.
Proof.
  unfold ex_conflict. rewrite existsb_exists. split.
  - intros ([[ns' q] uid] & Hin & [H1%bool_decide_eq_true H2%bool_decide_eq_true]%andb_true_iff). cbn in *. subst. exists q, uid. split; [by apply list_elem_of_In|done].
  - intros (q & uid & Hin & Hn). exists (ns, q, uid). split; [by apply list_elem_of_In|]. cbn. by rewrite !bool_decide_eq_true_2.
Qed.

Lemma ex_uid_fresh s : ex_uid s ∉ (ex_pods s).*2.
Proof.
  unfold ex_uid. assert (forall n, String.length (repeat_u n) = n) as Hl by (induction n as [|n IH]; cbn; congruence). intros Hin.
  assert (forall l (x : string), x ∈ l -> (String.length x <= sum_list (String.length <$> l))%nat) as Hs.
  { induction l as [|y l IH]; intros x; [by intros ?%not_elem_of_nil|]. intros [->|H]%elem_of_cons; cbn; [lia|]. specialize (IH x H). lia. }
  specialize (Hs _ _ Hin). rewrite Hl in Hs. lia.
Qed.

#[local] Instance ex_kube_ok : KubeApiOk ExServer.
Proof.
  refine {| kube_pods := ex_pods |}.
  - intros ns p s s' u. cbn. destruct (ex_conflict _ _ _); [done|]. intros [= <- <-]. exists (ex_uid s). split_and!; [done..|apply ex_uid_fresh].
  - intros ns p s s' e. cbn. by destruct (ex_conflict _ _ _); intros [= <- <-].
  - intros ns p s s'. rewrite <- ex_conflict_spec. cbn. destruct (ex_conflict _ _ _); naive_solver.
Defined.

Definition ex_cli : list string := ["rlink-kubernetes"; "cluster_name=app"; "image_path=rlink:1"; "num_task_managers=2"].

(** The command line and the deployment it makes. *)
Example ex_cli_config : try_default (E := string) ex_cli (fun _ => 0%nat) = Ok (mkConfig "app" "default" "rlink:1" 1 100 2 1 100).
Proof. vm_compute. reflexivity. Qed.

Example ex_cli_run : (run (mkConfig "app" "default" "rlink:1" 1 100 2 1 100) None (mkExServer [] [])).2 = Ok tt.
Proof. vm_compute. reflexivity. Qed.

(** Without a name the first letter that is a capital makes the server refuse it, which is
    a panic. *)
Example ex_cli_capital : match try_default (E := string) ["rlink-kubernetes"; "image_path=rlink:1"] (fun i => 25 + i)%nat with
  | Ok cfg => cfg_cluster_name cfg = "rlink-Zabcdefg" /\ is_panic (run cfg None (mkExServer [] [])).2 = true
  | _ => False
  end.
Proof. vm_compute. split; reflexivity. Qed.

(** A task without the name of its pod: the map is indexed. *)
Example ex_stop_unnamed : is_panic (kube_stop_workers [TaskResourceInfo_new "u" "" "w"] (mkExServer [] [])).2 = true.
Proof. vm_compute. reflexivity. Qed.

(** Two workers on an empty server, and the loop again. *)
Example ex_again :
  let workers := (fun id => mkWorker Pending 0 HB_Ok id "" "" "" []) <$> ["worker_manager_0"; "worker_manager_1"] in
  let allocate := allocate_workers "http://10.0.0.9:8080" "app" "default" "d-1" "rlink:1" (mkContainerLimits 1 "100Mi") workers [] in
  let '(s, r) := allocate (mkExServer [] []) in let '(s', r') := allocate s in
  length (ex_pods s) = 2%nat /\ (let* infos := r in Ok (tri_task_id <$> infos)) = Ok [Some "u"; Some "uu"] /\
  s' = s /\ (let* infos := r' in Ok (tri_task_id <$> infos)) = Ok [Some ""; Some ""].
Proof. vm_compute. split_and!; reflexivity. Qed.

(** The coordinator of [ex_cli], which names the application and the image and asks for two
    task managers. *)
Lemma kubernetes_command_line_witness : exists cfg c, try_default (E := string) ex_cli (fun _ => 0%nat) = Ok cfg /\ dp_containers (coordinator_deployment cfg) = [c] /\
  forall (NE : NodeEnv), env_args = "rlink" :: co_args c -> get_service_ip = Ok "10.0.0.7" -> init_metrics "10.0.0.7" = Some 9000 -> (forall path, init_log path = Ok tt) -> is_ok parse_node_arg = true.
Proof.
  destruct (kubernetes_command_line ex_cli (fun _ => 0%nat) (mkConfig "app" "default" "rlink:1" 1 100 2 1 100)) as (_ & _ & _ & _ & _ & _ & c & Hc & _ & H); [vm_compute; reflexivity..|].
  exists (mkConfig "app" "default" "rlink:1" 1 100 2 1 100), c. split; [vm_compute; reflexivity|]. split; [exact Hc|]. intros NE He Hip Hport Hlog.
  apply (proj2 (proj1 (H NE "rlink" "10.0.0.7" 9000 ltac:(vm_compute; reflexivity) He Hip Hport Hlog))). cbn. lia.
Defined.
