(* ===== verification/Execute.v ===== *)
(** * Execute: a process from its start

    src/rlink/src/core/env.rs ([execute]), src/rlink/src/runtime/mod.rs ([run]),
    src/rlink/src/runtime/cluster/mod.rs ([run_task]) and
    src/rlink/src/runtime/cluster/coordinator.rs: every process of an application runs the
    same program; its arguments say whether it is the coordinator or a worker, and it runs
    as such up to its loop (Coordinator) or its tasks (WebApi).

    The theorem composes the parts of a standalone run: the allocation of the workers
    (Deployment, Standalone), the arguments of their processes (NodeArgs), their requests to
    the coordinator (WebApi) and the descriptor in its store (Cluster). Together the
    processes start every task of the descriptor, and every one once. *)
From Stdlib Require Import ZArith Lia.
From stdpp Require Import base strings numbers option sets gmap list.
From S2P Require Import Prelude Properties Runtime Graph StreamGraph JobGraph ExecutionGraph PhysicGraph DagMetadata Checkpoint Cluster TaskDistribution NodeArgs Standalone Deployment Coordinator WebApi.

#[local] Open Scope Z_scope.

(** ** The processes *)

(** What a process has come to: the coordinator is before its loop, a worker has started
    its tasks. *)
Inductive Process (S : Type) : Type :=
  | Coordinates (ck_manager : CheckpointAlignManager S) (cluster_descriptor : ClusterDescriptor) (resource_manager : ResourceManager)
  | Works (items : list HeartbeatItem) (tasks : list TaskDescriptor) (cluster_descriptor : ClusterDescriptor) (dag_metadata : DagMetadata).
Arguments Coordinates {S} _ _ _.
Arguments Works {S} _ _ _ _.

Section execute.
Context {DA : DagApi} {HO : HashOrder} {SAPP : StreamApp} {SB : SerdeJson CheckpointBackend}.
Context {S : Type} {CS : Checkpoint.CheckpointStorage S} (CheckpointStorage_new : CheckpointBackend -> S).
Context (with_capacity : Z -> nat) (VERSION : string) (now : Z) (fuel : nat).
Context {JC : SerdeJson (StdResponse ClusterDescriptor)} {JD : SerdeJson (StdResponse DagMetadata)} {JM : SerdeJson (StdResponse ManagerStatus)} {JS : SerdeJson (StdResponse string)}.
Context {JH : SerdeJson HeartbeatRequest} {JK : SerdeJson Checkpoint}.
Context {TC : Serialize (StdResponse NodeContext)} {TA : Serialize (StdResponse (CheckpointAlignManager S))} {TT : Serialize (StdResponse (list ThreadInfo))}.
Context {TS : Serialize (StdResponse (JsonDag StreamNode StreamEdge))} {TJ : Serialize (StdResponse (JsonDag JobNode JobEdge))} {TE : Serialize (StdResponse (JsonDag ExecutionNode ExecutionEdge))}.

(** The files and the graphs of the coordinator a worker talks to, the addresses the process
    serves at, and what becomes of its requests. *)
Context (files : string -> option string) (wc : WebContext) (web_address server_addr : string) (attempts : list (WebState (S := S) * Fate)).

(** [coordinator::run], up to the loop. *)
Definition coordinator_run (context : NodeContext) (resource_manager : ResourceManager) : JobGraph.run string (Process S) :=
  do* prepared := run_prepare CheckpointStorage_new with_capacity VERSION now fuel context web_address resource_manager in
  Some (Ok (Coordinates prepared.1.1 prepared.1.2 prepared.2)).

Definition run_task (context : NodeContext) : JobGraph.run string (Process S) :=
  match nc_manager_type context with
  | NodeArgs.Coordinator =>
      do* resource_manager := Some (ResourceManager_new context) in
      coordinator_run context resource_manager
  | NodeArgs.Worker =>
      do* started := worker_run files wc context web_address server_addr attempts in
      Some (Ok (Works started.1.1.1 started.1.1.2 started.1.2 started.2))
  end.

(** [runtime::run]. *)
Definition runtime_run {NE : NodeEnv} : JobGraph.run string (Process S) :=
  do* context := Some parse_node_arg in
  run_task context.1.

(** [execute]: an error of the start is a panic. *)
Definition execute {NE : NodeEnv} : JobGraph.run string (Process S) :=
  match runtime_run with
  | Some (Err e) => Some (Panic ("force panic when catch error in job startup process. msg: " +:+ e))
  | r => r
  end.

(** A program never goes on after an error. *)
Lemma execute_no_error {NE : NodeEnv} e : execute <> Some (Err e).
Proof. unfold execute. by destruct runtime_run as [[| |]|]. Qed.

(** ** A worker of a run *)

(** Whatever the coordinator has answered, it had the descriptor of a run from [c0]. *)
Definition served (c0 : ClusterDescriptor) : Prop := forall s, (s, Answered) ∈ attempts -> exists cl, reachable c0 cl /\ ws_store s = cl_store cl.

(** The descriptor in the store keeps the tasks of every worker. *)
Lemma worker_entry c0 c id ids : NoDup (shape c0).*1 -> shape c = shape c0 -> (id, ids) ∈ shape c0 ->
  exists w, get_worker_manager_descriptor id c = Some w /\ td_task_id <$> wm_task_descriptors w = ids.
Proof.
  intros Hnd Hsh Hin. rewrite <- Hsh in Hnd, Hin. clear Hsh. unfold get_worker_manager_descriptor, shape in *. revert Hnd Hin. induction (worker_managers c) as [|w ws IH]; [by intros _ ?%not_elem_of_nil|].
  rewrite !fmap_cons, NoDup_cons. cbn [fst List.find]. intros [Hn Hnd] [[= -> ->]|Hin]%elem_of_cons; [exists w; by rewrite bool_decide_eq_true_2|].
  rewrite bool_decide_eq_false_2; [by apply IH|]. intros <-. apply Hn. apply list_elem_of_fmap. by exists (wm_task_manager_id w, ids).
Qed.

(** A process with the context of a worker of the run starts the tasks of that worker. *)
Lemma worker_executes {NE : NodeEnv} c0 nc id ids : parse_node_arg = Ok (nc, id) -> nc_manager_type nc = NodeArgs.Worker -> (nc_task_manager_id nc, ids) ∈ shape c0 -> served c0 ->
  forall r, execute = Some r -> exists items tasks c, r = Ok (Works items tasks c (wc_dag_metadata wc)) /\ td_task_id <$> tasks = ids.
Proof.
  intros Hp Ht Hid Hs r. unfold execute, runtime_run. rewrite Hp. cbn [rbind fst]. unfold run_task. rewrite Ht.
  destruct (worker_run files wc nc web_address server_addr attempts) as [r'|] eqn:Er; [|done]. destruct (worker_run_sound _ _ _ _ _ _ _ Er) as (c & (s & Hin & Hc) & Hreg & ->).
  destruct (Hs s Hin) as (cl & Hr & Hst). apply reachable_inv in Hr as [(c' & Hc' & Hsh & _) Hnd _ _ _]. rewrite Hst, Hc' in Hc. injection Hc as ->.
  destruct (worker_entry c0 c _ _ Hnd Hsh Hid) as (w & Hf & Htd). rewrite Hf. cbn. intros [= <-]. by eexists _, _, c.
Qed.

(** It gets there once it was answered with a descriptor, later with a registered one, and
    later once more. *)
Definition answered_enough : Prop :=
  exists l1 s1 c1 l2 s2 c2 l3 s3 l4, attempts = l1 ++ (s1, Answered) :: l2 ++ (s2, Answered) :: l3 ++ (s3, Answered) :: l4 /\
    ws_store s1 = Some c1 /\ ws_store s2 = Some c2 /\ cm_status (coordinator_manager c2) = Registered.

Lemma worker_gets_there {NE : NodeEnv} nc id : parse_node_arg = Ok (nc, id) -> nc_manager_type nc = NodeArgs.Worker -> answered_enough -> is_Some execute.
Proof.
  intros Hp Ht (l1 & s1 & c1 & l2 & s2 & c2 & l3 & s3 & l4 & He & H1 & H2 & H3). destruct (worker_run_total files wc nc web_address server_addr attempts l1 s1 c1 l2 s2 c2 l3 s3 l4 He H1 H2 H3) as [r Hr].
  unfold execute, runtime_run. rewrite Hp. cbn [rbind fst]. unfold run_task. rewrite Ht, Hr. by destruct r.
Qed.
End execute.

(** ** All processes of a run *)

(** A process: the task manager it runs on, and its command. *)
Abbreviation Proc := (string * ShellCommand)%type.

(** The process was started, and what the system around it is like: it is given its
    arguments, its address is known, its log and metrics start, and the configuration file
    of its task manager loads. *)
Definition process_env (wd : World) (p : Proc) (NE : NodeEnv) : Prop :=
  exists tm ip port config, wd_task_managers wd !! p.1 = Some tm /\ p.2 ∈ tm_started tm /\ env_args = run_task_sh (cmd_args p.2) (cmd_envs p.2) /\
    get_service_ip = Ok ip /\ init_metrics ip = Some port /\ (forall path, init_log path = Ok tt) /\ load_config (sc_config_path (tm_context tm)) = Ok config.

Section cluster.
Context {DA : DagApi} {HO : HashOrder} {SAPP : StreamApp} {SB : SerdeJson CheckpointBackend}.
Context {S : Type} {CS : Checkpoint.CheckpointStorage S} (CheckpointStorage_new : CheckpointBackend -> S).
Context (with_capacity : Z -> nat) (VERSION : string) (now : Z) (fuel : nat).
Context {JC : SerdeJson (StdResponse ClusterDescriptor)} {JD : SerdeJson (StdResponse DagMetadata)} {JM : SerdeJson (StdResponse ManagerStatus)} {JS : SerdeJson (StdResponse string)}.
Context {JH : SerdeJson HeartbeatRequest} {JK : SerdeJson Checkpoint}.
Context {TC : Serialize (StdResponse NodeContext)} {TA : Serialize (StdResponse (CheckpointAlignManager S))} {TT : Serialize (StdResponse (list ThreadInfo))}.
Context {TS : Serialize (StdResponse (JsonDag StreamNode StreamEdge))} {TJ : Serialize (StdResponse (JsonDag JobNode JobEdge))} {TE : Serialize (StdResponse (JsonDag ExecutionNode ExecutionEdge))}.
Context {SA : SerdeJson Application} {ST : SerdeJson (list TaskResourceInfo)}.
Context {SC : SerdeJson (YarnData (list (gmap string string)))} {SR : SerdeJson (YarnData (list TaskResourceInfo))}.
Context (files : string -> option string) (wc : WebContext).

Abbreviation executes NE web_address server_addr attempts := (execute (NE := NE) CheckpointStorage_new with_capacity VERSION now fuel files wc web_address server_addr attempts).

(** The process has got to these tasks, in a run from [c0]. *)
Definition process_runs (wd : World) (c0 : ClusterDescriptor) (p : Proc) (tasks : list TaskDescriptor) : Prop :=
  exists NE web_address server_addr attempts items c, process_env wd p NE /\ served attempts c0 /\ executes NE web_address server_addr attempts = Some (Ok (Works items tasks c (wc_dag_metadata wc))).

Context (context : NodeContext) (cd : ClusterDescriptor) (wd : World) (before after : list string) (address : string) (jm : JobManager) (job : Application).

Abbreviation rm := (mkResourceManager StandaloneResourceManager context (Some cd)).
Abbreviation aid := (nc_application_id context).

(** As in Deployment: the first job manager that answers has the application and task
    managers that answer, and no value of the command line has a blank or an equals sign. *)
Context (Hmode : nc_cluster_mode context = Standalone) (Haddr : application_manager_address (nc_cluster_config context) = before ++ address :: after).
Context (Hbefore : Forall (fun a => wd_job_managers wd !! a = None) before) (Hjm : wd_job_managers wd !! address = Some jm).
Context (Hjob : Application_load aid jm = Ok job) (Hlive : app_status job <> Killed) (Hserving : all_serving (wd_task_managers wd)).
Context (Hroom : room (length (worker_managers cd)) (wd_task_managers wd)) (Hup : answering (wd_task_managers wd) (sc_task_managers (jm_context jm)) <> []).
Context (Hplain : plain aid = true /\ plain (cm_web_address (coordinator_manager cd)) = true /\ plain (app_execute_file job) = true).
Context (Hids : Forall (fun w => plain (wm_task_manager_id w) = true) (worker_managers cd)) (Htms : forall a tm, wd_task_managers wd !! a = Some tm -> tm_plain tm).

(** One process per worker, that reads its arguments as that worker. *)
Lemma cluster_processes : exists wd' infos procs, worker_allocate rm wd = (wd', Ok infos) /\
  Forall2 (fun w p => (exists tm, wd_task_managers wd' !! p.1 = Some tm /\ p.2 ∈ tm_started tm) /\
    forall NE, process_env wd' p NE -> exists nc id, parse_node_arg = Ok (nc, id) /\ nc_manager_type nc = NodeArgs.Worker /\ nc_task_manager_id nc = wm_task_manager_id w) (worker_managers cd) procs.
Proof.
  destruct (standalone_workers_start context cd wd before after address jm job Hmode Haddr Hbefore Hjm Hjob Hlive Hserving Hroom Hup Hplain Hids Htms) as (wd' & infos & Hrun & Hw).
  exists wd', infos. match goal with |- exists procs, _ /\ Forall2 ?P _ _ => enough (exists procs, Forall2 P (worker_managers cd) procs) as [procs Hp] by eauto end.
  apply Forall_exists_Forall2_l, Forall_lookup. intros k w Hk. destruct (Hw k w Hk) as (info & a & tm & c & _ & _ & _ & Htm & Hc & _ & Hstart). exists (a, c). split; [by exists tm|].
  intros NE (tm' & ip & port & config & Htm' & _ & Hargs & Hip & Hport & Hlog & Hconf). cbn [fst snd] in *. rewrite Htm in Htm'. injection Htm' as <-.
  destruct (Hstart NE ip port config Hargs Hip Hport Hlog Hconf) as (nc & Hp & _ & Ht & _ & Hid & _). by eexists _, _.
Qed.

(** C9: A standalone run from the descriptor to its tasks, over the job manager, the task
    managers and the script, the arguments of the processes, and their requests to the
    coordinator while it runs from that descriptor. The allocation succeeds and there is
    one process per worker of the descriptor; whatever becomes of the process's requests,
    when it gets to its tasks they are exactly those of its worker, nothing else can happen,
    and it does get there once three requests are answered, the second with the cluster
    registered. Together the processes start every task of the descriptor exactly once. *)
Theorem cluster_tasks_started c0 : shape c0 = shape cd ->
  exists wd' infos procs, worker_allocate rm wd = (wd', Ok infos) /\
    Forall2 (fun w p => (exists tm, wd_task_managers wd' !! p.1 = Some tm /\ p.2 ∈ tm_started tm) /\
      forall NE web_address server_addr attempts, process_env wd' p NE -> served attempts c0 ->
        (forall r, executes NE web_address server_addr attempts = Some r -> exists items tasks c, r = Ok (Works items tasks c (wc_dag_metadata wc)) /\ td_task_id <$> tasks = td_task_id <$> wm_task_descriptors w) /\
        (answered_enough attempts -> is_Some (executes NE web_address server_addr attempts))) (worker_managers cd) procs /\
    forall runs, Forall2 (process_runs wd' c0) procs runs -> td_task_id <$> concat runs = td_task_id <$> cluster_tasks cd.
Proof.
  intros Hshape. destruct cluster_processes as (wd' & infos & procs & Hrun & Hprocs). exists wd', infos, procs. split; [done|].
  assert (forall w, w ∈ worker_managers cd -> (wm_task_manager_id w, td_task_id <$> wm_task_descriptors w) ∈ shape c0) as Hin.
  { intros w Hw. rewrite Hshape. by apply (list_elem_of_fmap_2 (fun w => (wm_task_manager_id w, td_task_id <$> wm_task_descriptors w))). }
  assert (Forall2 (fun w p => (exists tm, wd_task_managers wd' !! p.1 = Some tm /\ p.2 ∈ tm_started tm) /\
      forall NE web_address server_addr attempts, process_env wd' p NE -> served attempts c0 ->
        (forall r, executes NE web_address server_addr attempts = Some r -> exists items tasks c, r = Ok (Works items tasks c (wc_dag_metadata wc)) /\ td_task_id <$> tasks = td_task_id <$> wm_task_descriptors w) /\
        (answered_enough attempts -> is_Some (executes NE web_address server_addr attempts))) (worker_managers cd) procs) as Hall.
  { apply Forall2_same_length_lookup. split; [by apply Forall2_length in Hprocs|]. intros k w p Hw Hp. pose proof (Forall2_lookup_lr _ _ _ _ _ _ Hprocs Hw Hp) as [Hst Henv]. split; [done|].
    intros NE web_address server_addr attempts He Hs. destruct (Henv NE He) as (nc & id & Hpa & Ht & Hid). split; [|by eapply worker_gets_there].
    eapply worker_executes; [done|done| |done]. rewrite Hid. apply Hin. by eapply list_elem_of_lookup_2. }
  split; [done|]. unfold cluster_tasks. clear Hprocs Hrun Hin Hids Hroom. revert procs Hall. induction (worker_managers cd) as [|w ws IH]; intros procs Hall runs Hruns.
  - apply Forall2_nil_inv_l in Hall as ->. by apply Forall2_nil_inv_l in Hruns as ->.
  - apply Forall2_cons_inv_l in Hall as (p & procs' & [_ Hw] & Hall & ->). apply Forall2_cons_inv_l in Hruns as (tasks & runs' & (NE & web & srv & att & items & c & He & Hs & Hr) & Hruns & ->).
    destruct (Hw NE web srv att He Hs) as [H _]. destruct (H _ Hr) as (items' & tasks' & c' & [= <- <- <-] & Htd). cbn [concat]. rewrite bind_cons, !fmap_app, Htd. f_equal. by eapply IH.
Qed.
End cluster.

(** ** Examples *)
Section evaluated.
#[local] Existing Instances ListDag id_order memory_checkpoint_storage ex_request_json ex_checkpoint_json ex_cluster_json ex_status_json ex_string_json ex_dag_json Coordinator.ex_app Coordinator.ex_backend_json
  Deployment.ex_app_json Deployment.ex_infos_json Deployment.ex_command_json Deployment.ex_response_json.
#[local] Instance ex_serialize {A} : Serialize A := fun _ => "{}".

(** Two workers with a task each. *)
Definition ex_run_descriptor : ClusterDescriptor :=
  mkCluster (coordinator_manager Deployment.ex_descriptor) [mkWorker Pending 0 HB_Ok "worker_manager_0" "" "" "" [ex_task 0]; mkWorker Pending 0 HB_Ok "worker_manager_1" "" "" "" [ex_task 1]].

Abbreviation ex_process_runs := (process_runs (S := MemoryCheckpointStorage) (fun _ => ∅) Z.to_nat "0.6" 0 10 ex_files ex_web).

Lemma cluster_tasks_started_witness : exists wd' infos procs,
  worker_allocate (mkResourceManager StandaloneResourceManager Deployment.ex_coordinator (Some ex_run_descriptor)) Deployment.ex_world = (wd', Ok infos) /\ length procs = 2%nat /\
  forall runs, Forall2 (ex_process_runs wd' ex_run_descriptor) procs runs -> td_task_id <$> concat runs = td_task_id <$> [ex_task 0; ex_task 1].
Proof.
  destruct (cluster_tasks_started (S := MemoryCheckpointStorage) (fun _ => ∅) Z.to_nat "0.6" 0 10 ex_files ex_web Deployment.ex_coordinator ex_run_descriptor Deployment.ex_world ["http://down:8770"] [] "http://jm:8770" ex_jm (Application_new "app" "job"))
    with (c0 := ex_run_descriptor) as (wd' & infos & procs & H1 & H2 & H3).
  - reflexivity.
  - reflexivity.
  - repeat constructor.
  - reflexivity.
  - vm_compute. reflexivity.
  - discriminate.
  - intros a tm Htm. apply ex_tms_lookup in Htm. subst tm. discriminate.
  - intros a tm Htm. apply ex_tms_lookup in Htm. subst tm. split; reflexivity || discriminate.
  - vm_compute. discriminate.
  - repeat split; vm_compute; reflexivity.
  - repeat constructor; vm_compute; reflexivity.
  - intros a tm Htm. apply ex_tms_lookup in Htm. subst tm. repeat split; vm_compute; reflexivity.
  - reflexivity.
  - exists wd', infos, procs. split; [exact H1|]. split; [symmetry; apply Forall2_length in H2; exact H2|exact H3].
Defined.
End evaluated.
