(* ===== verification/SchemaWindows.v ===== *)
(** * SchemaWindows: aggregating columns per window and key

    How a windowed reduction with the aggregations of the library works: the window reduce
    function (src/rlink/src/functions/system/window_base_reduce.rs, WindowReduce) calls the
    schema reduce function (src/rlink/src/functions/reduce/schema_reduce.rs, SchemaReduce)
    for every record, with the value the keyed state holds (KeyedState).

    The theorem says what the state holds after any inputs: for every window and key the
    aggregates of the rows of exactly that window and key. *)
From Stdlib Require Import ZArith Lia.
From stdpp Require Import base strings numbers option gmap list.
From S2P Require Import Prelude BTreeMap Bytes Runtime Schema Window Element Percentile KeyedState WindowReduce SchemaReduce.

#[local] Open Scope Z_scope.

(** The schema reduction as the state calls it: it leaves the record as it is. The theorem
    shows that it does not fail on the inputs, so that the last case does not occur. *)
Definition schema_reduce_func {SB : SerBuffer} {ST : SerTypes} {SC : SerColumns} (f : SchemaReduceFunction) (value : option record) (r : record) : record * record :=
  (match sr_reduce (E := string) f value r with Ok v => v | _ => Record_new end, r).

(** The records of a window and a key, in the order of arrival. *)
Definition record_in {SB : SerBuffer} (w : Window) (k : list Z) (op : merge_op) : option record :=
  let '(key, r, w') := op in if bool_decide (w' = w /\ key_bytes key = k) then Some r else None.

Definition records_in {SB : SerBuffer} (inputs : list (record * record)) (w : Window) (k : list Z) : list record := omap (record_in w k) (merge_ops inputs).

Section windows.
Context {SB : SerBuffer} {HO : HashOrder} {JA : JsonApi} {ST : SerTypes} {SC : SerColumns}.

(** The value of a window and key is the reduction of its records, while that succeeds. *)
Lemma reduced_value_records f inputs w k acc : reduce_all (E := string) f (records_in inputs w k) = Ok acc -> reduced_value (schema_reduce_func f) inputs w k = acc.
Proof.
  unfold reduce_all, records_in, reduced_value.
  enough (forall acc0, foldM (fun acc r => let* v := sr_reduce (E := string) f acc r in Ok (Some v)) acc0 (omap (record_in w k) (merge_ops inputs)) = Ok acc -> foldl (reduce_step (schema_reduce_func f) w k) acc0 (merge_ops inputs) = acc) as H by apply H.
  induction (merge_ops inputs) as [|[[key r] w'] ops IH]; intros acc0; cbn [omap list_omap foldM foldl reduce_step record_in].
  - by intros [= ->].
  - case_bool_decide as Hd; [|apply IH]. cbn [foldM schema_reduce_func fst]. destruct (sr_reduce f acc0 r) as [v| |]; [|done..]. cbn [mbind res_bind]. apply IH.
Qed.

Lemma records_in_rows s inputs w k : Forall (fun '(_, r) => exists row, has_row s r row) inputs -> Forall (fun r => exists row, has_row s r row) (records_in inputs w k).
Proof.
  rewrite !Forall_forall. intros Hall r Hr. apply list_elem_of_omap in Hr as ([[key r'] w'] & Hin & Hr). cbn in Hr. case_bool_decide; [|done]. injection Hr as ->.
  apply list_elem_of_bind in Hin as ([key0 r0] & Hin & Hi). apply list_elem_of_bind in Hin as (w0 & Hin & _). apply list_elem_of_singleton in Hin as [= -> -> ->]. exact (Hall _ Hi).
Qed.

Lemma records_in_length inputs w k : (length (records_in inputs w k) <= length (merge_ops inputs))%nat.
Proof. apply length_omap_le. Qed.

(** C33: A windowed reduction with the aggregations of columns: for descriptors whose columns
    exist and have number types, a percentile's the 64-bit integers, its scale not empty
    and growing numbers ([scale_ok]), the function opens; over any inputs whose
    records have rows of the schema and are fewer than 2^64, no call of the reduction
    fails, and then for every window and key: when
    no record belongs to them, nothing is stored; otherwise the stored record has, in each
    column, what the aggregation promises of that column of exactly the rows of that window
    and key, in their order: the number of rows, the fold of the sum, maximum or minimum in
    the type of the column (for integers the sum at their width, and their maximum and
    minimum), or the counters of the percentile. *)
Theorem windowed_aggregation vec_capacity s ds p app job task inputs :
  (forall n, 0 <= n -> (Z.to_nat n <= vec_capacity n)%nat) -> Forall (descriptor_ok (E := string) s) ds ->
  Forall (fun '(_, r) => exists row, has_row s r row) inputs -> Z.of_nat (length (merge_ops inputs)) < 2 ^ 64 ->
  exists f f1 st, sr_open (E := string) vec_capacity (SchemaReduce_new ds p) (FnSchema_Single s) = Ok f /\
    Forall2 (fun d a => to_aggregation (E := string) vec_capacity d s = Ok a) ds (sr_agg_operators f) /\
    foldM (E := string) (fun g '(key, r) => wr_reduce (schema_reduce_func f) g key r) (mkWindowReduce (Some (MemoryWindowState_new app job task)) [] [] 0) inputs = Ok f1 /\ wr_state f1 = Some st /\
    forall w k, reduce_all (E := string) f (records_in inputs w k) = Ok (lookup_value st w k) /\
      forall rows, Forall2 (has_row s) (records_in inputs w k) rows ->
        match lookup_value st w k with
        | None => rows = []
        | Some r => exists vs, agg_values (sr_agg_operators f) rows vs /\ Forall2 (int_holds rows) (sr_agg_operators f) vs /\ reads (type_ids (sr_val_schema f)) (r_values r) vs
        end.
Proof.
  intros Hcap Hds Hrows Hlen. destruct (sr_opened (E := string) vec_capacity s ds p Hcap Hds) as (f & Hopen & Hty & Haggs & Hfold).
  destruct (wr_reduce_values (schema_reduce_func f) app job task inputs) as (f1 & st & Hrun & Hst & Hval); [done|]. exists f, f1, st. split_and!; [done..|]. intros w k. rewrite Hval.
  pose proof (records_in_rows s inputs w k Hrows) as [rows0 Hrows0]%Forall_exists_Forall2_l. pose proof (records_in_length inputs w k) as Hl.
  destruct (Hfold _ _ Hrows0 ltac:(lia)) as (acc & Hacc & _). rewrite (reduced_value_records f inputs w k acc Hacc). split; [done|]. intros rows Hr.
  destruct (Hfold _ _ Hr ltac:(lia)) as (acc' & Hacc' & Hok). rewrite Hacc in Hacc'. injection Hacc' as <-. destruct acc as [r|]; [|exact Hok].
  destruct (decide (rows = [])) as [->|Hne].
  - apply Forall2_nil_inv_r in Hr. rewrite Hr in Hacc. done.
  - destruct (state_holds _ _ _ Hok Hne) as (r' & vs & [= <-] & Hv & Hi & Hrd). exists vs. by rewrite Hty.
Qed.
End windows.

(** ** Examples *)
Section evaluated.
#[local] Existing Instances ex_types ex_buffer ex_columns id_order bits_json.

Definition ex_key (k : Z) : record := mkRecord 0 0 ChannelKey_default None None ([k], []).
Definition ex_win (n : Z) : record := mkRecord 0 5 ChannelKey_default (Some [tw 0 10; tw 5 15]) None ([], ex_row 200 n).
Definition ex_wins : list (record * record) := [(ex_key 1, ex_win 3); (ex_key 2, ex_win 4); (ex_key 1, ex_win (-7))].

Lemma ex_has_row n : has_row ex_schema (ex_win n) (ex_row 200 n).
Proof. split; [repeat constructor; try (intros H; discriminate H); intros _; eexists; reflexivity|]. intros [|[|k]] v Hv; try discriminate Hv; injection Hv as <-; reflexivity. Qed.

Lemma windowed_aggregation_witness : exists f st r vs, sr_open (E := string) Z.to_nat (SchemaReduce_new ex_descriptors 1) (FnSchema_Single ex_schema) = Ok f /\
  lookup_value st (tw 5 15) [1] = Some r /\ Forall2 (int_holds [ex_row 200 3; ex_row 200 (-7)]) (sr_agg_operators f) vs /\ reads (type_ids (sr_val_schema f)) (r_values r) vs.
Proof.
  destruct (windowed_aggregation Z.to_nat ex_schema ex_descriptors 1 "app" 0 0 ex_wins) as (f & f1 & st & Ho & _ & _ & _ & H).
  - intros n _. apply le_n.
  - apply Forall_cons_2; [exact I|]. apply Forall_cons_2; [eexists _, _; split; reflexivity|]. apply Forall_cons_2; [eexists _, _; split; reflexivity|].
    apply Forall_cons_2; [split; [apply ex_scale_ok|eexists _, _; split; reflexivity]|apply Forall_nil_2].
  - apply Forall_cons_2; [|apply Forall_cons_2; [|apply Forall_cons_2; [|apply Forall_nil_2]]]; eexists; apply ex_has_row.
  - reflexivity.
  - destruct (H (tw 5 15) [1]) as [Hr Hrows]. specialize (Hrows [ex_row 200 3; ex_row 200 (-7)]).
    assert (Forall2 (has_row ex_schema) (records_in ex_wins (tw 5 15) [1]) [ex_row 200 3; ex_row 200 (-7)]) as Hfit.
    { change (records_in ex_wins (tw 5 15) [1]) with [ex_win 3; ex_win (-7)]. constructor; [apply ex_has_row|]. constructor; [apply ex_has_row|constructor]. }
    specialize (Hrows Hfit). destruct (lookup_value st (tw 5 15) [1]) as [r|] eqn:El; [|discriminate Hrows].
    destruct Hrows as (vs & _ & Hi & Hrd). exists f, st, r, vs. split; [exact Ho|]. split; [exact El|]. split; [exact Hi|exact Hrd].
Defined.
End evaluated.
